(* ===== verification/_CoqProject ===== *)
-Q . S2P
Prelude.v
ListDef.v
ListSpec.v
ListSort.v
ListTheorems.v
Vaddr.v
Bitmap.v
PageAlloc.v
Palloc.v
FixedPoint.v
Code.v
KernelState.v
Thread.v
ThreadInv.v
ThreadSteps.v
ThreadCreate.v
ThreadSafe.v
ThreadBoot.v
ThreadTheorems.v
Intq.v
Alloc.v
Malloc.v
Hash.v
Arith.v
Sorting.v
CString.v
Pagedir.v
BlockDev.v
Bytes.v
Block.v
Partition.v
FsDef.v
FsInode.v
FsAlloc.v
FsFile.v
FsDir.v
FsSpec.v
Filesys.v
FsBoot.v
FsTheorems.v
Stdio.v
StdioSpec.v
Ustar.v
Random.v
Process.v
FileApi.v
Uspace.v
Loader.v
Exception.v
Syscall.v
SyscallSpec.v
Rtc.v
Pit.v
Vga.v
Console.v
Kbd.v
