(* ===== verification/Prelude.v ===== *)
(** * A verification of the Pintos kernel

    Pintos is an instructional operating system for a 32-bit PC: a kernel with
    threads, memory allocators, a file system, user programs and drivers, and a
    small C library.  This development translates the C code into executable
    definitions and proves what the parts promise to each other.  File names
    below are relative to src/pintos/src.

    ** How code is modelled

    A C integer is a [Z]; where a result can leave its type it is wrapped with
    [u8], [u16], [u32], [u64], [i32] or [i64] of this file, or an overflow that C
    leaves undefined is a [Fault].  An address is a number and [NULL] is 0.  A function
    on a state [S] is an [M S A]: it takes the state and gives an [Ok] with a result and a
    new state, a [Panic] (a failed ASSERT or PANIC), a [Fault] (an access outside of what is
    mapped, an undefined operation) or [NoFuel].  A theorem that a function returns
    [Ok] therefore says that it ends, that no assertion fails and that no access
    is wild.  Code that can be preempted is a tree of atomic actions (Code.v).
    Interfaces between parts are type classes: [PageAllocator] (PageAlloc.v),
    [Allocator] (Alloc.v), [BlockDevice] (BlockDev.v), [Drive] (Block.v) and
    [FileService] (FileApi.v).  Clients are proved against them; Palloc.v,
    Malloc.v, Block.v and FileApi.v have the instances.

    ** The parts

    - Lists, lib/kernel/list.c.  ListDef.v is the pointer code on a heap of cells,
      ListSpec.v relates it to sequences, ListSort.v treats the ordered
      operations, ListTheorems.v has the theorems: programs of list operations
      refine a deque, [list_sort] sorts in place and is stable.
    - Library.  Hash.v (lib/kernel/hash.c) refines a finite set, Bitmap.v
      (lib/kernel/bitmap.c), Arith.v (lib/arithmetic.c) is 64-bit division, Sorting.v
      (lib/stdlib.c), CString.v (lib/string.c, atoi), Stdio.v and StdioSpec.v
      (lib/stdio.c: every conversion of printf against a description of
      formats, vsnprintf inside its buffer), Ustar.v (lib/ustar.c: headers are
      read back and damage is detected), Random.v (lib/random.c), Bytes.v
      (little-endian numbers).
    - Memory.  Vaddr.v (threads/vaddr.h, threads/pte.h), Palloc.v
      (threads/palloc.c), Malloc.v (threads/malloc.c): blocks are disjoint, come
      from the pools and are given back.
    - Threads.  FixedPoint.v (the fixed-point numbers of threads/thread.c),
      KernelState.v and Thread.v (threads/thread.c, threads/synch.c,
      devices/timer.c, part of threads/interrupt.c), ThreadInv.v, ThreadSteps.v,
      ThreadCreate.v, ThreadSafe.v, ThreadBoot.v (the invariant of the scheduler, by
      induction on the steps of all threads and of the timer), ThreadTheorems.v
      (the invariant in every reachable state; priorities, semaphores,
      sleeping).  Intq.v (devices/intq.c) is a queue on top of it.
    - Disks.  Block.v and Partition.v (devices/block.c, devices/partition.c, the
      driver functions of devices/ide.c).
    - File system.  FsDef.v is the code of filesys/inode.c, file.c, free-map.c,
      directory.c and filesys.c; FsInode.v, FsAlloc.v, FsFile.v and FsDir.v are the
      invariants of its layers; FsSpec.v is an abstract file system of names,
      contents, handles and free sectors; Filesys.v shows call by call that the
      code refines it, FsBoot.v treats formatting and mounting, FsTheorems.v
      has the theorems for all sequences of calls and for restarts.
    - User programs.  Pagedir.v (userprog/pagedir.c) against a map of pages,
      Uspace.v (address spaces: install_page and setup_stack of
      userprog/process.c), Loader.v (the ELF loader of userprog/process.c: what a
      process sees after loading any file), Process.v (the stack of arguments),
      Exception.v (userprog/exception.c), Syscall.v (userprog/syscall.c) and
      SyscallSpec.v (what the system calls mean, and that the handler does it).
      Loader.v and Syscall.v reach the file system through FileApi.v.
    - Devices.  Vga.v (devices/vga.c: the screen is a window on the paper of a
      terminal), Console.v (lib/kernel/console.c), Kbd.v (devices/kbd.c, part of
      devices/input.c: key events to characters), Rtc.v (devices/rtc.c), Pit.v
      (devices/pit.c).

    Theorems about errors in the code are among the others: for instance that a
    page fault handler never makes progress for some stack pointers
    ([Exception.stack_growth_repeats]), that a failed create loses sectors
    ([FsTheorems.filesys_create_leaks]), that an extended partition is
    scanned for ever ([Partition.extended_partition_never_returns]), that the
    clock is a month fast ([Rtc.rtc_get_time_ahead]).

    ** Bounds and fuel

    Loops over data that only memory bounds take fuel.  List and hash loops
    need more fuel than there are elements, string loops more than the length of the
    string, reads and writes of files at most a round for each byte, searches of a directory a
    round for each entry and one more; the theorems either ask for that much or the
    definition computes it ([vprintf_fuel], the page count of [load_segment],
    [FsDef.entries]).  Partitions inside partitions are followed as deep as they are
    nested.  [rtc_get_time] needs one round more than the rounds in which the
    seconds change.  System calls read names of at most [fuel] characters, for any [fuel].
    Sizes are bounded where the code needs it: files below 2^31 - 511 bytes, lists
    below 2^32 elements, texts below 2^31 characters, and the file table below 2^28.

    ** What is not modelled

    - Assembly and hardware: the boot loader, the interrupt stubs and the switch of
      stacks; descriptor tables and the task state segment; the ports of the
      disk controller, the serial port, the speaker and the power switch.  The
      sources give no behaviour for them.  Drives, the clock chip and the
      display controller are parameters or follow their data sheets.
    - The creation and the end of processes: process_execute, start_process,
      process_wait and process_exit.  They are made of thread switches and locks
      in the build with USERPROG, while the thread model is that of the build
      without it; sys_exec and sys_wait stop where they call them.
    - Locks inside the allocators and the file system: their calls are single steps.
      The models of the file system, of address spaces and of system calls keep
      their own copies of the allocators' states.
    - Functions that only print or only call modelled ones: statistics, dumps,
      filesys/fsutil.c, most of threads/init.c, and the user side of the system
      calls (lib/user).  vm/swap_out.c is commented out as a whole.
    - Programs, tests and scripts (examples, tests, utils). *)

From Stdlib Require Export ZArith Lia.
From stdpp Require Export base gmap sets numbers list.
Export stdpp.list.

#[global] Open Scope Z_scope.

(** ** Machine integers

    Pintos is compiled for 32-bit x86: [int], [long], [size_t] and pointers
    are 32 bits wide, [long long] and [int64_t] 64 bits.  A machine integer is
    a [Z]; the functions below are the conversions that C applies when a value
    is stored in an object of the given type. *)

Definition uwrap (w z : Z) : Z := z mod 2 ^ w.
Definition swrap (w z : Z) : Z := (z + 2 ^ (w - 1)) mod 2 ^ w - 2 ^ (w - 1).

Abbreviation u8 := (uwrap 8).
Abbreviation u16 := (uwrap 16).
Abbreviation u32 := (uwrap 32).
Abbreviation u64 := (uwrap 64).
Abbreviation i8 := (swrap 8).
Abbreviation i32 := (swrap 32).
Abbreviation i64 := (swrap 64).

(** The null pointer. *)
Definition NULL : Z := 0.

(** Truth value of a C comparison, as an [int]. *)
Definition b2z (b : bool) : Z := if b then 1 else 0.

(** ** Results of running C code

    [Ok] is a normal return.  [Panic] is a failed [ASSERT], a [PANIC] or a
    [NOT_REACHED] (all of them call [debug_panic], which halts the kernel).
    [Fault] is an access the language does not define: a null or unallocated
    pointer, an index out of range.  [NoFuel] is only produced by models of
    loops that take an explicit bound on the number of iterations. *)

Inductive res (A : Type) : Type :=
| Ok (a : A)
| Panic
| Fault
| NoFuel.
Arguments Ok {A} a.
Arguments Panic {A}.
Arguments Fault {A}.
Arguments NoFuel {A}.

Definition res_bind {A B : Type} (m : res A) (k : A -> res B) : res B :=
  match m with
  | Ok a => k a
  | Panic => Panic
  | Fault => Fault
  | NoFuel => NoFuel
  end.

Definition res_assert (b : bool) : res unit := if b then Ok tt else Panic.

Definition res_of_option {A : Type} (o : option A) : res A :=
  match o with Some a => Ok a | None => Fault end.

(** State-passing code over a state [S]. *)
Definition M (S A : Type) : Type := S -> res (A * S).

Definition ret {S A : Type} (a : A) : M S A := fun s => Ok (a, s).
Definition bind {S A B : Type} (m : M S A) (k : A -> M S B) : M S B :=
  fun s => res_bind (m s) (fun p => k p.1 p.2).
Definition assert {S : Type} (b : bool) : M S unit :=
  fun s => if b then Ok (tt, s) else Panic.
Definition panic {S A : Type} : M S A := fun _ => Panic.
Definition fault {S A : Type} : M S A := fun _ => Fault.
Definition nofuel {S A : Type} : M S A := fun _ => NoFuel.
Definition get {S : Type} : M S S := fun s => Ok (s, s).
Definition put {S : Type} (s : S) : M S unit := fun _ => Ok (tt, s).
Definition gets {S A : Type} (f : S -> A) : M S A := fun s => Ok (f s, s).
Definition modify {S : Type} (f : S -> S) : M S unit := fun s => Ok (tt, f s).
Definition lift {S A : Type} (m : res A) : M S A :=
  fun s => res_bind m (fun a => Ok (a, s)).

Declare Scope c_scope.
Delimit Scope c_scope with c.
Notation "x <- m ;; k" := (bind m (fun x => k))
  (at level 100, m at next level, right associativity) : c_scope.
Notation "m ;;; k" := (bind m (fun _ => k))
  (at level 100, right associativity) : c_scope.
Notation "x <-! m ;; k" := (res_bind m (fun x => k))
  (at level 100, m at next level, right associativity) : c_scope.
Notation "m ;;! k" := (res_bind m (fun _ => k))
  (at level 100, right associativity) : c_scope.
#[global] Open Scope c_scope.

(** ** Symbolic execution of monadic code *)

Create Rewrite HintDb cexec.

Lemma bind_ret {S A B} (a : A) (k : A -> M S B) s : bind (ret a) k s = k a s.
Proof. reflexivity. Qed.

Lemma bind_ok {S A B} (m : M S A) (k : A -> M S B) s a s' :
  m s = Ok (a, s') -> bind m k s = k a s'.
Proof. intros H. unfold bind. rewrite H. reflexivity. Qed.

Lemma bind_assert {S B} (b : bool) (k : unit -> M S B) s :
  b = true -> bind (assert b) k s = k tt s.
Proof. intros ->. reflexivity. Qed.

Lemma bind_assert_false {S B} (b : bool) (k : unit -> M S B) s :
  b = false -> bind (assert b) k s = Panic.
Proof. intros ->. reflexivity. Qed.

Lemma bind_inv {S A B} (m : M S A) (k : A -> M S B) s b s'' :
  bind m k s = Ok (b, s'') ->
  exists a s', m s = Ok (a, s') /\ k a s' = Ok (b, s'').
Proof.
  unfold bind, res_bind. destruct (m s) as [[a s']| | |]; try discriminate. eauto.
Qed.

Lemma res_bind_inv {A B} (m : res A) (k : A -> res B) b :
  res_bind m k = Ok b -> exists a, m = Ok a /\ k a = Ok b.
Proof. destruct m; simpl; try discriminate. eauto. Qed.

Lemma bind_get {S B} (k : S -> M S B) s : bind get k s = k s s.
Proof. reflexivity. Qed.

Lemma bind_put {S B} (x : S) (k : unit -> M S B) s : bind (put x) k s = k tt x.
Proof. reflexivity. Qed.

Lemma bind_gets {S A B} (f : S -> A) (k : A -> M S B) s :
  bind (gets f) k s = k (f s) s.
Proof. reflexivity. Qed.

Lemma bind_modify {S B} (f : S -> S) (k : unit -> M S B) s :
  bind (modify f) k s = k tt (f s).
Proof. reflexivity. Qed.

Lemma bind_assoc {S A B C} (m : M S A) (k : A -> M S B) (l : B -> M S C) s :
  bind (bind m k) l s = bind m (fun a => bind (k a) l) s.
Proof. unfold bind, res_bind. destruct (m s) as [[a s']| | |]; reflexivity. Qed.

#[export] Hint Rewrite @bind_ret @bind_get @bind_put @bind_gets @bind_modify
  @bind_assoc : cexec.

(** [crun H] uses the equation [H : m s = Ok (a, s')] to execute [m];
    [cassert] discharges an [ASSERT] whose condition evaluates to [true]. *)
Ltac crun H := rewrite (bind_ok _ _ _ _ _ H).
Ltac crun_by tac :=
  erewrite bind_ok; [| solve [tac]].
Ltac cassert tac := rewrite bind_assert; [| solve [tac]].

(** Invert a successful run. *)
Ltac cinv H :=
  let a := fresh "r" in
  let s := fresh "s" in
  let H1 := fresh H in
  apply bind_inv in H as (a & s & H1 & H).

(** ** Partial correctness

    [wp m Q s]: if [m], run from [s], returns, its result and the final state
    satisfy [Q]. *)
Definition wp {S A : Type} (m : M S A) (Q : A -> S -> Prop) (s : S) : Prop :=
  match m s with Ok (a, s') => Q a s' | _ => True end.

Lemma wp_ok {S A} (m : M S A) Q s a s' : wp m Q s -> m s = Ok (a, s') -> Q a s'.
Proof. unfold wp. by intros H E; rewrite E in H. Qed.

Lemma wp_intro {S A} (m : M S A) (Q : A -> S -> Prop) s :
  (forall a s', m s = Ok (a, s') -> Q a s') -> wp m Q s.
Proof. unfold wp. destruct (m s) as [[a s']| | |]; auto. Qed.

Lemma wp_mono {S A} (m : M S A) (Q R : A -> S -> Prop) s :
  wp m Q s -> (forall a s', Q a s' -> R a s') -> wp m R s.
Proof. unfold wp. destruct (m s) as [[a s']| | |]; auto. Qed.

Lemma wp_bind {S A B} (m : M S A) (k : A -> M S B) Q s :
  wp m (fun a s' => wp (k a) Q s') s -> wp (bind m k) Q s.
Proof. unfold wp, bind, res_bind. destruct (m s) as [[a s']| | |]; auto. Qed.

Lemma wp_ret {S A} (a : A) (Q : A -> S -> Prop) s : Q a s -> wp (ret a) Q s.
Proof. done. Qed.

Lemma wp_assert {S} (b : bool) (Q : unit -> S -> Prop) s :
  (b = true -> Q tt s) -> wp (assert b) Q s.
Proof. unfold wp, assert. destruct b; auto. Qed.

Lemma wp_get {S} (Q : S -> S -> Prop) s : Q s s -> wp get Q s.
Proof. done. Qed.

Lemma wp_gets {S A} (f : S -> A) (Q : A -> S -> Prop) s : Q (f s) s -> wp (gets f) Q s.
Proof. done. Qed.

Lemma wp_modify {S} (f : S -> S) (Q : unit -> S -> Prop) s :
  Q tt (f s) -> wp (modify f) Q s.
Proof. done. Qed.

Lemma wp_fault {S A} (Q : A -> S -> Prop) s : wp fault Q s.
Proof. done. Qed.

Lemma wp_panic {S A} (Q : A -> S -> Prop) s : wp panic Q s.
Proof. done. Qed.

Lemma wp_nofuel {S A} (Q : A -> S -> Prop) s : wp nofuel Q s.
Proof. done. Qed.

Lemma wp_lift {S A} (m : res A) (Q : A -> S -> Prop) s :
  (forall a, m = Ok a -> Q a s) -> wp (lift m) Q s.
Proof. unfold wp, lift. destruct m; simpl; auto. Qed.

(** Steps through the primitive operations of a program; the name of the
    result is the caller's. *)
Ltac wp_prim :=
  lazymatch goal with
  | |- wp (bind _ _) _ _ => apply wp_bind
  | |- wp (ret _) _ _ => apply wp_ret
  | |- wp (assert _) _ _ => apply wp_assert
  | |- wp get _ _ => apply wp_get
  | |- wp (gets _) _ _ => apply wp_gets
  | |- wp (modify _) _ _ => apply wp_modify
  | |- wp fault _ _ => apply wp_fault
  | |- wp panic _ _ => apply wp_panic
  | |- wp nofuel _ _ => apply wp_nofuel
  | |- wp (lift _) _ _ => apply wp_lift
  end.

(** ** Total correctness

    [twp m Q s]: [m], run from [s], returns, and its result and the final
    state satisfy [Q]. *)
Definition twp {S A : Type} (m : M S A) (Q : A -> S -> Prop) (s : S) : Prop :=
  match m s with Ok (a, s') => Q a s' | _ => False end.

Lemma twp_elim {S A} (m : M S A) Q s :
  twp m Q s -> exists a s', m s = Ok (a, s') /\ Q a s'.
Proof. unfold twp. destruct (m s) as [[a s']| | |]; try done. eauto. Qed.

Lemma twp_wp {S A} (m : M S A) Q s : twp m Q s -> wp m Q s.
Proof. unfold twp, wp. destruct (m s) as [[a s']| | |]; tauto. Qed.

Lemma twp_intro {S A} (m : M S A) (Q : A -> S -> Prop) s a s' :
  m s = Ok (a, s') -> Q a s' -> twp m Q s.
Proof. unfold twp. by intros ->. Qed.

Lemma twp_mono {S A} (m : M S A) (Q R : A -> S -> Prop) s :
  twp m Q s -> (forall a s', Q a s' -> R a s') -> twp m R s.
Proof. unfold twp. destruct (m s) as [[a s']| | |]; auto. Qed.

Lemma twp_bind {S A B} (m : M S A) (k : A -> M S B) Q s :
  twp m (fun a s' => twp (k a) Q s') s -> twp (bind m k) Q s.
Proof. unfold twp, bind, res_bind. destruct (m s) as [[a s']| | |]; auto. Qed.

Lemma twp_ret {S A} (a : A) (Q : A -> S -> Prop) s : Q a s -> twp (ret a) Q s.
Proof. done. Qed.

Lemma twp_assert {S} (b : bool) (Q : unit -> S -> Prop) s :
  b = true -> Q tt s -> twp (assert b) Q s.
Proof. by intros ->. Qed.

Lemma twp_gets {S A} (f : S -> A) (Q : A -> S -> Prop) s : Q (f s) s -> twp (gets f) Q s.
Proof. done. Qed.

Lemma twp_get {S} (Q : S -> S -> Prop) s : Q s s -> twp get Q s.
Proof. done. Qed.

Lemma twp_modify {S} (f : S -> S) (Q : unit -> S -> Prop) s :
  Q tt (f s) -> twp (modify f) Q s.
Proof. done. Qed.

(** Prove a decidable proposition by evaluating its decision procedure. *)
Ltac by_compute := apply (bool_decide_unpack _); vm_compute; exact I.

(** ** Arithmetic *)

Lemma uwrap_bound w z : 0 <= w -> 0 <= uwrap w z < 2 ^ w.
Proof. intros Hw. apply Z.mod_pos_bound. lia. Qed.

Lemma uwrap_id w z : 0 <= z < 2 ^ w -> uwrap w z = z.
Proof. apply Z.mod_small. Qed.

Lemma swrap_bound w z : 0 < w -> - 2 ^ (w - 1) <= swrap w z < 2 ^ (w - 1).
Proof.
  intros Hw. unfold swrap.
  pose proof (Z.mod_pos_bound (z + 2 ^ (w - 1)) (2 ^ w)).
  replace (2 ^ w) with (2 * 2 ^ (w - 1)) in *
    by (rewrite <- Z.pow_succ_r by lia; f_equal; lia).
  lia.
Qed.

Lemma swrap_id w z : 0 < w -> - 2 ^ (w - 1) <= z < 2 ^ (w - 1) -> swrap w z = z.
Proof.
  intros Hw Hz. unfold swrap. rewrite Z.mod_small; [lia|].
  replace (2 ^ w) with (2 * 2 ^ (w - 1))
    by (rewrite <- Z.pow_succ_r by lia; f_equal; lia).
  lia.
Qed.

Lemma u32_id z : 0 <= z < 4294967296 -> u32 z = z.
Proof. intros. by apply uwrap_id. Qed.
Lemma u64_id z : 0 <= z < 18446744073709551616 -> u64 z = z.
Proof. intros. by apply uwrap_id. Qed.
Lemma i32_id z : -2147483648 <= z < 2147483648 -> i32 z = z.
Proof. intros. apply swrap_id; [lia|]. simpl; lia. Qed.
Lemma i64_id z :
  -9223372036854775808 <= z < 9223372036854775808 -> i64 z = z.
Proof. intros. apply swrap_id; [lia|]. simpl; lia. Qed.
Lemma u32_bound z : 0 <= u32 z < 4294967296.
Proof. by apply (uwrap_bound 32). Qed.
Lemma u64_bound z : 0 <= u64 z < 18446744073709551616.
Proof. by apply (uwrap_bound 64). Qed.
Lemma i32_bound z : -2147483648 <= i32 z < 2147483648.
Proof. by apply (swrap_bound 32). Qed.

(** ** Lists *)

Lemma NoDup_app_cons_not {A} (xs ys : list A) y :
  NoDup (xs ++ y :: ys) -> (y ∉ xs) /\ (y ∉ ys).
Proof.
  rewrite NoDup_app, NoDup_cons. intros (_ & H & Hy & _). split; [|done].
  intros Hin. apply (H _ Hin). set_solver.
Qed.

(** [List.filter] with a boolean function. *)
Lemma elem_of_bfilter {A} (f : A -> bool) l x : x ∈ List.filter f l <-> f x = true /\ x ∈ l.
Proof. rewrite !list_elem_of_In, List.filter_In. tauto. Qed.

Lemma NoDup_bfilter {A} (f : A -> bool) l : NoDup l -> NoDup (List.filter f l).
Proof. rewrite !NoDup_ListNoDup. apply List.NoDup_filter. Qed.

Lemma bfilter_all {A} (f : A -> bool) l : (forall x, x ∈ l -> f x = true) -> List.filter f l = l.
Proof.
  induction l as [|y l IH]; intros H; [done|]. cbn. rewrite H by set_solver. f_equal.
  apply IH. set_solver.
Qed.

Lemma bfilter_none {A} (f : A -> bool) l : (forall x, x ∈ l -> f x = false) -> List.filter f l = [].
Proof.
  induction l as [|y l IH]; intros H; [done|]. cbn. rewrite H by set_solver. apply IH. set_solver.
Qed.

Lemma bfilter_ext {A} (f g : A -> bool) l :
  (forall x, x ∈ l -> f x = g x) -> List.filter f l = List.filter g l.
Proof.
  induction l as [|y l IH]; intros H; [done|]. cbn. rewrite H, IH by set_solver. done.
Qed.

Lemma bfilter_bfilter {A} (f g : A -> bool) l :
  List.filter f (List.filter g l) = List.filter (fun x => f x && g x) l.
Proof.
  induction l as [|y l IH]; [done|]. cbn. destruct (g y), (f y) eqn:E; cbn; rewrite ?E, IH; done.
Qed.
