(* ===== verification/ListDef.v ===== *)
(** * The kernel's doubly linked lists (lib/kernel/list.c): the code

    A [struct list_elem] is a cell with a [prev] and a [next] address; the heap
    maps the address of every allocated element to its cell.  A [struct list]
    at address [l] is two elements, [head] at [l] and [tail] at [l + 8]
    ([sizeof (struct list_elem)] is 8).  Every function of list.c is translated
    with its [ASSERT]s; dereferencing a null or unallocated pointer is a
    [Fault].  The comparison callback, with its auxiliary data applied, is a
    boolean function of two element addresses.  Loops take a bound [fuel] on
    the number of iterations of each loop. *)

From S2P Require Import Prelude.

Record list_elem : Type := Elem { prev : Z; next : Z }.

Abbreviation heap := (gmap Z list_elem).


(** [&list->head] and [&list->tail]. *)
Definition head_of (l : Z) : Z := l.
Definition tail_of (l : Z) : Z := l + 8.

Definition load (p : Z) : M heap list_elem :=
  fun h => if p =? NULL then Fault
           else match h !! p with Some e => Ok (e, h) | None => Fault end.

Definition store (p : Z) (e : list_elem) : M heap unit :=
  fun h => if p =? NULL then Fault
           else match h !! p with
                | Some _ => Ok (tt, <[p := e]> h)
                | None => Fault
                end.

(** The pointer fields as lvalues: [Prev p] is [p->prev], [Next p] is
    [p->next]. *)
Inductive lval : Type :=
| Prev (p : Z)
| Next (p : Z).

Definition rd (a : lval) : M heap Z :=
  match a with
  | Prev p => e <- load p;; ret (prev e)
  | Next p => e <- load p;; ret (next e)
  end.

Definition wr (a : lval) (v : Z) : M heap unit :=
  match a with
  | Prev p => e <- load p;; store p (Elem v (next e))
  | Next p => e <- load p;; store p (Elem (prev e) v)
  end.

(** C's short-circuit operators on conditions that read memory. *)
Definition orM (a b : M heap bool) : M heap bool :=
  x <- a;; if x then ret true else b.
Definition andM (a b : M heap bool) : M heap bool :=
  x <- a;; if x then b else ret false.

Definition is_head (elem : Z) : M heap bool :=
  if elem =? NULL then ret false
  else andM (p <- rd (Prev elem);; ret (p =? NULL))
            (n <- rd (Next elem);; ret (negb (n =? NULL))).

Definition is_interior (elem : Z) : M heap bool :=
  if elem =? NULL then ret false
  else andM (p <- rd (Prev elem);; ret (negb (p =? NULL)))
            (n <- rd (Next elem);; ret (negb (n =? NULL))).

Definition is_tail (elem : Z) : M heap bool :=
  if elem =? NULL then ret false
  else andM (p <- rd (Prev elem);; ret (negb (p =? NULL)))
            (n <- rd (Next elem);; ret (n =? NULL)).

Definition list_init (list : Z) : M heap unit :=
  assert (negb (list =? NULL));;;
  wr (Prev (head_of list)) NULL;;;
  wr (Next (head_of list)) (tail_of list);;;
  wr (Prev (tail_of list)) (head_of list);;;
  wr (Next (tail_of list)) NULL.

Definition list_begin (list : Z) : M heap Z :=
  assert (negb (list =? NULL));;; rd (Next (head_of list)).

Definition list_next (elem : Z) : M heap Z :=
  b <- orM (is_head elem) (is_interior elem);;
  assert b;;;
  rd (Next elem).

Definition list_end (list : Z) : M heap Z :=
  assert (negb (list =? NULL));;; ret (tail_of list).

Definition list_rbegin (list : Z) : M heap Z :=
  assert (negb (list =? NULL));;; rd (Prev (tail_of list)).

Definition list_prev (elem : Z) : M heap Z :=
  b <- orM (is_interior elem) (is_tail elem);;
  assert b;;;
  rd (Prev elem).

Definition list_next_circular (elem list : Z) : M heap Z :=
  next <- list_next elem;;
  e <- list_end list;;
  q <- list_prev e;;
  if next =? q then
    b <- list_begin list;;
    list_prev b
  else ret next.

Definition list_rend (list : Z) : M heap Z :=
  assert (negb (list =? NULL));;; ret (head_of list).

Definition list_head (list : Z) : M heap Z :=
  assert (negb (list =? NULL));;; ret (head_of list).

Definition list_tail (list : Z) : M heap Z :=
  assert (negb (list =? NULL));;; ret (tail_of list).

Definition list_insert (before elem : Z) : M heap unit :=
  b <- orM (is_interior before) (is_tail before);;
  assert b;;;
  assert (negb (elem =? NULL));;;
  bp <- rd (Prev before);;
  wr (Prev elem) bp;;;
  wr (Next elem) before;;;
  bp <- rd (Prev before);;
  wr (Next bp) elem;;;
  wr (Prev before) elem.

Definition list_splice (before first last : Z) : M heap unit :=
  b <- orM (is_interior before) (is_tail before);;
  assert b;;;
  if first =? last then ret tt
  else
    last <- list_prev last;;
    b <- is_interior first;;
    assert b;;;
    b <- is_interior last;;
    assert b;;;
    (* Cleanly remove FIRST...LAST from its current list. *)
    ln <- rd (Next last);;
    fp <- rd (Prev first);;
    wr (Next fp) ln;;;
    fp <- rd (Prev first);;
    ln <- rd (Next last);;
    wr (Prev ln) fp;;;
    (* Splice FIRST...LAST into new list. *)
    bp <- rd (Prev before);;
    wr (Prev first) bp;;;
    wr (Next last) before;;;
    bp <- rd (Prev before);;
    wr (Next bp) first;;;
    wr (Prev before) last.

Definition list_push_front (list elem : Z) : M heap unit :=
  b <- list_begin list;; list_insert b elem.

Definition list_push_back (list elem : Z) : M heap unit :=
  e <- list_end list;; list_insert e elem.

Definition list_remove (elem : Z) : M heap Z :=
  b <- is_interior elem;;
  assert b;;;
  n <- rd (Next elem);;
  p <- rd (Prev elem);;
  wr (Next p) n;;;
  p <- rd (Prev elem);;
  n <- rd (Next elem);;
  wr (Prev n) p;;;
  rd (Next elem).

Definition list_empty (list : Z) : M heap bool :=
  b <- list_begin list;;
  e <- list_end list;;
  ret (b =? e).

Definition list_front (list : Z) : M heap Z :=
  b <- list_empty list;;
  assert (negb b);;;
  rd (Next (head_of list)).

Definition list_back (list : Z) : M heap Z :=
  b <- list_empty list;;
  assert (negb b);;;
  rd (Prev (tail_of list)).

Definition list_pop_front (list : Z) : M heap Z :=
  front <- list_front list;;
  list_remove front;;;
  ret front.

Definition list_pop_back (list : Z) : M heap Z :=
  back <- list_back list;;
  list_remove back;;;
  ret back.

Fixpoint list_size_loop (fuel : nat) (list e cnt : Z) : M heap Z :=
  match fuel with
  | O => nofuel
  | S fuel =>
      stop <- list_end list;;
      if e =? stop then ret cnt
      else let cnt := u32 (cnt + 1) in
           e <- list_next e;;
           list_size_loop fuel list e cnt
  end.

Definition list_size (fuel : nat) (list : Z) : M heap Z :=
  e <- list_begin list;; list_size_loop fuel list e 0.

(** [swap] exchanges two [struct list_elem *] objects; its callers in list.c
    pass addresses of [prev] and [next] members. *)
Definition swap (a b : lval) : M heap unit :=
  t <- rd a;;
  y <- rd b;;
  wr a y;;;
  wr b t.

Fixpoint list_reverse_loop (fuel : nat) (list e_ : Z) : M heap unit :=
  match fuel with
  | O => nofuel
  | S fuel =>
      stop <- list_end list;;
      if e_ =? stop then ret tt
      else swap (Prev e_) (Next e_);;;
           e_ <- rd (Prev e_);;
           list_reverse_loop fuel list e_
  end.

Definition list_reverse (fuel : nat) (list : Z) : M heap unit :=
  b <- list_empty list;;
  if b then ret tt
  else
    e_ <- list_begin list;;
    list_reverse_loop fuel list e_;;;
    swap (Next (head_of list)) (Prev (tail_of list));;;
    hn <- rd (Next (head_of list));;
    tp <- rd (Prev (tail_of list));;
    swap (Prev hn) (Next tp).

(** ** Operations on lists with ordered elements *)

Section Ordered.
Variable less : Z -> Z -> bool.

Fixpoint is_sorted_loop (fuel : nat) (a b : Z) : M heap bool :=
  match fuel with
  | O => nofuel
  | S fuel =>
      a <- list_next a;;
      if a =? b then ret true
      else p <- list_prev a;;
           if less a p then ret false
           else is_sorted_loop fuel a b
  end.

Definition is_sorted (fuel : nat) (a b : Z) : M heap bool :=
  if a =? b then ret true else is_sorted_loop fuel a b.

Fixpoint find_end_of_run_loop (fuel : nat) (a b : Z) : M heap Z :=
  match fuel with
  | O => nofuel
  | S fuel =>
      a <- list_next a;;
      c <- (if a =? b then ret false
            else p <- list_prev a;; ret (negb (less a p)));;
      if (c : bool) then find_end_of_run_loop fuel a b else ret a
  end.

Definition find_end_of_run (fuel : nat) (a b : Z) : M heap Z :=
  assert (negb (a =? NULL));;;
  assert (negb (b =? NULL));;;
  assert (negb (a =? b));;;
  find_end_of_run_loop fuel a b.

Fixpoint inplace_merge_loop (fuel : nat) (a0 a1b0 b1 : Z) : M heap unit :=
  match fuel with
  | O => nofuel
  | S fuel =>
      if negb (a0 =? a1b0) && negb (a1b0 =? b1) then
        if negb (less a1b0 a0) then
          a0 <- list_next a0;;
          inplace_merge_loop fuel a0 a1b0 b1
        else
          a1b0 <- list_next a1b0;;
          p <- list_prev a1b0;;
          list_splice a0 p a1b0;;;
          inplace_merge_loop fuel a0 a1b0 b1
      else ret tt
  end.

Definition inplace_merge (fuel : nat) (a0 a1b0 b1 : Z) : M heap unit :=
  assert (negb (a0 =? NULL));;;
  assert (negb (a1b0 =? NULL));;;
  assert (negb (b1 =? NULL));;;
  b <- is_sorted fuel a0 a1b0;;
  assert b;;;
  b <- is_sorted fuel a1b0 b1;;
  assert b;;;
  inplace_merge_loop fuel a0 a1b0 b1.

(** One pass of the outer loop: merges adjacent runs and returns
    [output_run_cnt]. *)
Fixpoint list_sort_pass (fuel : nat) (list a0 output_run_cnt : Z) : M heap Z :=
  match fuel with
  | O => nofuel
  | S fuel' =>
      stop <- list_end list;;
      if a0 =? stop then ret output_run_cnt
      else
        let output_run_cnt := u32 (output_run_cnt + 1) in
        stop <- list_end list;;
        a1b0 <- find_end_of_run fuel a0 stop;;
        stop <- list_end list;;
        if a1b0 =? stop then ret output_run_cnt
        else
          stop <- list_end list;;
          b1 <- find_end_of_run fuel a1b0 stop;;
          inplace_merge fuel a0 a1b0 b1;;;
          list_sort_pass fuel' list b1 output_run_cnt
  end.

Fixpoint list_sort_loop (fuel inner : nat) (list : Z) : M heap unit :=
  match fuel with
  | O => nofuel
  | S fuel =>
      a0 <- list_begin list;;
      output_run_cnt <- list_sort_pass inner list a0 0;;
      if output_run_cnt >? 1 then list_sort_loop fuel inner list else ret tt
  end.

Definition list_sort (fuel : nat) (list : Z) : M heap unit :=
  assert (negb (list =? NULL));;;
  list_sort_loop fuel fuel list;;;
  a <- list_begin list;;
  b <- list_end list;;
  c <- is_sorted fuel a b;;
  assert c.

Fixpoint list_insert_ordered_loop (fuel : nat) (list elem e : Z) : M heap Z :=
  match fuel with
  | O => nofuel
  | S fuel =>
      stop <- list_end list;;
      if e =? stop then ret e
      else if less elem e then ret e
      else e <- list_next e;; list_insert_ordered_loop fuel list elem e
  end.

Definition list_insert_ordered (fuel : nat) (list elem : Z) : M heap unit :=
  assert (negb (list =? NULL));;;
  assert (negb (elem =? NULL));;;
  e <- list_begin list;;
  e <- list_insert_ordered_loop fuel list elem e;;
  list_insert e elem.

Fixpoint list_unique_loop (fuel : nat) (list duplicates elem : Z) : M heap unit :=
  match fuel with
  | O => nofuel
  | S fuel =>
      next <- list_next elem;;
      stop <- list_end list;;
      if next =? stop then ret tt
      else if negb (less elem next) && negb (less next elem) then
        list_remove next;;;
        (if negb (duplicates =? NULL) then list_push_back duplicates next
         else ret tt);;;
        list_unique_loop fuel list duplicates elem
      else list_unique_loop fuel list duplicates next
  end.

Definition list_unique (fuel : nat) (list duplicates : Z) : M heap unit :=
  assert (negb (list =? NULL));;;
  b <- list_empty list;;
  if b then ret tt
  else elem <- list_begin list;; list_unique_loop fuel list duplicates elem.

Fixpoint list_max_loop (fuel : nat) (list max e : Z) : M heap Z :=
  match fuel with
  | O => nofuel
  | S fuel =>
      stop <- list_end list;;
      if e =? stop then ret max
      else let max := if less max e then e else max in
           e <- list_next e;;
           list_max_loop fuel list max e
  end.

Definition list_max (fuel : nat) (list : Z) : M heap Z :=
  max <- list_begin list;;
  stop <- list_end list;;
  if negb (max =? stop) then
    e <- list_next max;; list_max_loop fuel list max e
  else ret max.

Fixpoint list_min_loop (fuel : nat) (list min e : Z) : M heap Z :=
  match fuel with
  | O => nofuel
  | S fuel =>
      stop <- list_end list;;
      if e =? stop then ret min
      else let min := if less e min then e else min in
           e <- list_next e;;
           list_min_loop fuel list min e
  end.

Definition list_min (fuel : nat) (list : Z) : M heap Z :=
  min <- list_begin list;;
  stop <- list_end list;;
  if negb (min =? stop) then
    e <- list_next min;; list_min_loop fuel list min e
  else ret min.
End Ordered.
