(* ===== verification/ListSpec.v ===== *)
(** * The kernel's doubly linked lists: representation and refinement

    [is_list h l xs] says that in heap [h] the list at address [l] consists of
    the elements [xs], in order.  The theorems of this file show that every
    operation of list.c, run on a heap that represents a list, returns without
    an assertion failure and leaves a heap that represents the result of the
    corresponding operation on sequences; the heap is unchanged outside the
    cells of the lists involved. *)

From S2P Require Import Prelude ListDef.

(** [cells h p ns n]: the nodes [ns] are linked to each other in order, the
    first one points back to [p] and the last one forward to [n]. *)
Fixpoint cells (h : heap) (p : Z) (ns : list Z) (n : Z) : Prop :=
  match ns with
  | [] => True
  | x :: r => h !! x = Some (Elem p (default n (head r))) /\ cells h x r n
  end.

(** All the nodes of a list: its head, its elements, its tail. *)
Definition nodes (l : Z) (xs : list Z) : list Z := head_of l :: xs ++ [tail_of l].

Record is_list (h : heap) (l : Z) (xs : list Z) : Prop := IsList {
  il_nodup : NoDup (nodes l xs);
  il_null : NULL ∉ nodes l xs;
  il_cells : cells h NULL (nodes l xs) NULL
}.

(** [h'] differs from [h] only at addresses of [ps]. *)
Definition only (ps : list Z) (h h' : heap) : Prop :=
  forall p, p ∉ ps -> h' !! p = h !! p.

Definition succ_in (l : Z) (zs : list Z) : Z := default (tail_of l) (head zs).
Definition pred_in (l : Z) (ys : list Z) : Z := default (head_of l) (last ys).

(** ** Structure of [cells] *)

Lemma cells_app h p xs ys n :
  cells h p (xs ++ ys) n <->
  cells h p xs (default n (head ys)) /\ cells h (default p (last xs)) ys n.
Proof.
  revert p. induction xs as [|x xs IH]; intros p; [simpl; tauto|].
  cbn [app cells]. rewrite IH. rewrite last_cons.
  destruct xs as [|y xs]; simpl; [tauto|].
  destruct (last (y :: xs)) eqn:E; simpl; [tauto|]. by apply last_None in E.
Qed.

Lemma cells_insert h p ns n x e :
  x ∉ ns -> cells (<[x := e]> h) p ns n <-> cells h p ns n.
Proof.
  revert p. induction ns as [|y ns IH]; intros p Hx; [done|].
  cbn [cells]. rewrite lookup_insert_ne by set_solver. rewrite IH by set_solver. done.
Qed.

Lemma cells_only h h' ps p ns n :
  only ps h h' -> (forall x, x ∈ ns -> x ∉ ps) -> cells h p ns n -> cells h' p ns n.
Proof.
  intros Ho. revert p. induction ns as [|y ns IH]; intros p Hd; [done|].
  cbn [cells]. intros [H1 H2]. split.
  - rewrite Ho; [done|]. apply Hd. set_solver.
  - apply IH; [|done]. intros. apply Hd. set_solver.
Qed.

Lemma only_refl ps h : only ps h h.
Proof. done. Qed.

Lemma only_trans ps h1 h2 h3 : only ps h1 h2 -> only ps h2 h3 -> only ps h1 h3.
Proof. intros H1 H2 p Hp. rewrite H2, H1; done. Qed.

Lemma only_insert ps h h' x e :
  x ∈ ps -> only ps h h' -> only ps h (<[x := e]> h').
Proof.
  intros Hx H p Hp. rewrite lookup_insert_ne; [by apply H|]. intros ->. done.
Qed.

Lemma only_incl ps qs h h' :
  (forall x, x ∈ ps -> x ∈ qs) -> only ps h h' -> only qs h h'.
Proof. intros Hi H p Hp. apply H. auto. Qed.

Create HintDb klist.
#[export] Hint Resolve only_refl only_insert : klist.

(** Membership in the node list is unaffected by reordering the elements. *)
Lemma nodes_perm l xs ys : xs ≡ₚ ys -> nodes l xs ≡ₚ nodes l ys.
Proof. intros H. unfold nodes. by rewrite H. Qed.

(** Another list, disjoint from the changed cells, is preserved. *)
Lemma is_list_only h h' ps l xs :
  only ps h h' -> (forall x, x ∈ nodes l xs -> x ∉ ps) ->
  is_list h l xs -> is_list h' l xs.
Proof.
  intros Ho Hd [H1 H2 H3]. split; [done..|]. by eapply cells_only.
Qed.

(** ** Reading a list *)

Section Read.
Context (h : heap) (l : Z).

Lemma cell_at ys x zs :
  is_list h l (ys ++ x :: zs) ->
  h !! x = Some (Elem (pred_in l ys) (succ_in l zs)).
Proof.
  intros [_ _ Hc]. unfold nodes in Hc. rewrite <- app_assoc in Hc.
  change (head_of l :: ys ++ (x :: zs) ++ [tail_of l])
    with ((head_of l :: ys) ++ x :: (zs ++ [tail_of l])) in Hc.
  apply cells_app in Hc as [_ [Hx _]]. rewrite Hx. f_equal. f_equal.
  - rewrite last_cons. unfold pred_in. by destruct (last ys).
  - unfold succ_in. by destruct zs.
Qed.

Lemma cell_head xs :
  is_list h l xs -> h !! head_of l = Some (Elem NULL (succ_in l xs)).
Proof. intros [_ _ [Hc _]]. rewrite Hc. unfold succ_in. by destruct xs. Qed.

Lemma cell_tail xs :
  is_list h l xs -> h !! tail_of l = Some (Elem (pred_in l xs) NULL).
Proof.
  intros [_ _ Hc]. unfold nodes in Hc.
  change (head_of l :: xs ++ [tail_of l]) with ((head_of l :: xs) ++ [tail_of l]) in Hc.
  apply cells_app in Hc as [_ [Hx _]]. rewrite Hx. f_equal. f_equal.
  rewrite last_cons. unfold pred_in. by destruct (last xs).
Qed.

Lemma node_nonnull xs x : is_list h l xs -> x ∈ nodes l xs -> x <> NULL.
Proof. intros [_ Hn _] Hx ->. done. Qed.

Lemma succ_in_nodes ys zs : succ_in l zs ∈ nodes l (ys ++ zs).
Proof. unfold succ_in, nodes. destruct zs; simpl; set_solver. Qed.

Lemma pred_in_nodes ys zs : pred_in l ys ∈ nodes l (ys ++ zs).
Proof.
  unfold pred_in, nodes. destruct (last ys) as [y|] eqn:E; simpl; [|set_solver].
  apply last_Some in E as [ys' ->]. set_solver.
Qed.

Lemma succ_nonnull ys zs : is_list h l (ys ++ zs) -> succ_in l zs <> NULL.
Proof. intros H. eapply node_nonnull; [done|]. apply succ_in_nodes. Qed.

Lemma pred_nonnull ys zs : is_list h l (ys ++ zs) -> pred_in l ys <> NULL.
Proof. intros H. eapply node_nonnull; [done|]. apply pred_in_nodes. Qed.

Lemma list_nonnull xs : is_list h l xs -> l <> NULL.
Proof. intros H. eapply node_nonnull; [done|]. unfold nodes, head_of. set_solver. Qed.

Lemma head_nonnull xs : is_list h l xs -> head_of l <> NULL.
Proof. apply list_nonnull. Qed.

(** The successor cell (an element or the tail). *)
Lemma cell_succ ys zs :
  is_list h l (ys ++ zs) ->
  exists n, h !! succ_in l zs = Some (Elem (pred_in l ys) n) /\
            (zs = [] <-> n = NULL).
Proof.
  intros H. destruct zs as [|z zs].
  - rewrite app_nil_r in H. exists NULL. split; [|done].
    by apply cell_tail.
  - exists (succ_in l zs). split; [by apply (cell_at ys z zs)|].
    split; [done|]. intros E. exfalso. revert E.
    apply (succ_nonnull (ys ++ [z]) zs). by rewrite <- app_assoc.
Qed.

(** The predecessor cell (an element or the head). *)
Lemma cell_pred ys zs :
  is_list h l (ys ++ zs) ->
  exists p, h !! pred_in l ys = Some (Elem p (succ_in l zs)) /\
            (ys = [] <-> p = NULL).
Proof.
  intros H. destruct ys as [|y ys _] using rev_ind.
  - exists NULL. split; [|done]. by apply cell_head.
  - exists (pred_in l ys). unfold pred_in at 1. rewrite last_snoc. simpl.
    rewrite <- app_assoc in H. split; [by apply (cell_at ys y zs)|].
    split; [by destruct ys|]. intros E. exfalso. revert E.
    by apply (pred_nonnull ys (y :: zs)).
Qed.
End Read.

(** Evaluation of the field accesses. *)
Lemma rd_next h p e : p <> NULL -> h !! p = Some e -> rd (Next p) h = Ok (next e, h).
Proof.
  intros Hp He. unfold rd, load, bind. simpl.
  rewrite (proj2 (Z.eqb_neq _ _) Hp), He. done.
Qed.

Lemma rd_prev h p e : p <> NULL -> h !! p = Some e -> rd (Prev p) h = Ok (prev e, h).
Proof.
  intros Hp He. unfold rd, load, bind. simpl.
  rewrite (proj2 (Z.eqb_neq _ _) Hp), He. done.
Qed.

Lemma wr_next h p e v :
  p <> NULL -> h !! p = Some e ->
  wr (Next p) v h = Ok (tt, <[p := Elem (prev e) v]> h).
Proof.
  intros Hp He. unfold wr, load, store, bind. simpl.
  rewrite (proj2 (Z.eqb_neq _ _) Hp), He. simpl. by rewrite He.
Qed.

Lemma wr_prev h p e v :
  p <> NULL -> h !! p = Some e ->
  wr (Prev p) v h = Ok (tt, <[p := Elem v (next e)]> h).
Proof.
  intros Hp He. unfold wr, load, store, bind. simpl.
  rewrite (proj2 (Z.eqb_neq _ _) Hp), He. simpl. by rewrite He.
Qed.

Lemma is_head_eval h p a b :
  p <> NULL -> h !! p = Some (Elem a b) ->
  is_head p h = Ok ((a =? NULL) && negb (b =? NULL), h).
Proof.
  intros Hp Hc. unfold is_head, andM. rewrite (proj2 (Z.eqb_neq _ _) Hp).
  autorewrite with cexec. rewrite (bind_ok _ _ _ _ _ (rd_prev _ _ _ Hp Hc)). cbn.
  destruct (a =? NULL); [|done].
  rewrite (bind_ok _ _ _ _ _ (rd_next _ _ _ Hp Hc)). done.
Qed.

Lemma is_interior_eval h p a b :
  p <> NULL -> h !! p = Some (Elem a b) ->
  is_interior p h = Ok (negb (a =? NULL) && negb (b =? NULL), h).
Proof.
  intros Hp Hc. unfold is_interior, andM. rewrite (proj2 (Z.eqb_neq _ _) Hp).
  autorewrite with cexec. rewrite (bind_ok _ _ _ _ _ (rd_prev _ _ _ Hp Hc)). cbn.
  destruct (a =? NULL); [done|]. cbn.
  rewrite (bind_ok _ _ _ _ _ (rd_next _ _ _ Hp Hc)). done.
Qed.

Lemma is_tail_eval h p a b :
  p <> NULL -> h !! p = Some (Elem a b) ->
  is_tail p h = Ok (negb (a =? NULL) && (b =? NULL), h).
Proof.
  intros Hp Hc. unfold is_tail, andM. rewrite (proj2 (Z.eqb_neq _ _) Hp).
  autorewrite with cexec. rewrite (bind_ok _ _ _ _ _ (rd_prev _ _ _ Hp Hc)). cbn.
  destruct (a =? NULL); [done|]. cbn.
  rewrite (bind_ok _ _ _ _ _ (rd_next _ _ _ Hp Hc)). done.
Qed.

(** The guard of [list_next]: a head or an interior element. *)
Lemma next_guard h p a b :
  p <> NULL -> h !! p = Some (Elem a b) -> b <> NULL ->
  orM (is_head p) (is_interior p) h = Ok (true, h).
Proof.
  intros Hp Hc Hb%Z.eqb_neq. unfold orM.
  rewrite (bind_ok _ _ _ _ _ (is_head_eval _ _ _ _ Hp Hc)), Hb.
  destruct (a =? NULL) eqn:Ha; [done|]. cbn.
  rewrite (is_interior_eval _ _ _ _ Hp Hc), Ha, Hb. done.
Qed.

(** The guard of [list_prev], [list_insert] and [list_splice]: an interior
    element or a tail. *)
Lemma prev_guard h p a b :
  p <> NULL -> h !! p = Some (Elem a b) -> a <> NULL ->
  orM (is_interior p) (is_tail p) h = Ok (true, h).
Proof.
  intros Hp Hc Ha%Z.eqb_neq. unfold orM.
  rewrite (bind_ok _ _ _ _ _ (is_interior_eval _ _ _ _ Hp Hc)), Ha.
  destruct (b =? NULL) eqn:Hb; [|done]. cbn.
  rewrite (is_tail_eval _ _ _ _ Hp Hc), Ha, Hb. done.
Qed.

Lemma list_next_cell h p a b :
  p <> NULL -> h !! p = Some (Elem a b) -> b <> NULL -> list_next p h = Ok (b, h).
Proof.
  intros Hp Hc Hb. unfold list_next.
  rewrite (bind_ok _ _ _ _ _ (next_guard _ _ _ _ Hp Hc Hb)), bind_assert by done.
  by rewrite (rd_next _ _ _ Hp Hc).
Qed.

Lemma list_prev_cell h p a b :
  p <> NULL -> h !! p = Some (Elem a b) -> a <> NULL -> list_prev p h = Ok (a, h).
Proof.
  intros Hp Hc Ha. unfold list_prev.
  rewrite (bind_ok _ _ _ _ _ (prev_guard _ _ _ _ Hp Hc Ha)), bind_assert by done.
  by rewrite (rd_prev _ _ _ Hp Hc).
Qed.

(** ** Traversal *)

Section Traverse.
Context (h : heap) (l : Z).

Lemma list_begin_ok xs : is_list h l xs -> list_begin l h = Ok (succ_in l xs, h).
Proof.
  intros H. pose proof (list_nonnull _ _ _ H) as Hl. unfold list_begin.
  rewrite bind_assert by (by rewrite (proj2 (Z.eqb_neq _ _) Hl)).
  by rewrite (rd_next _ _ _ (head_nonnull _ _ _ H) (cell_head _ _ _ H)).
Qed.

Lemma list_end_ok xs : is_list h l xs -> list_end l h = Ok (tail_of l, h).
Proof.
  intros H. pose proof (list_nonnull _ _ _ H) as Hl. unfold list_end.
  by rewrite bind_assert by (by rewrite (proj2 (Z.eqb_neq _ _) Hl)).
Qed.

Lemma tail_nonnull xs : is_list h l xs -> tail_of l <> NULL.
Proof. intros H. eapply node_nonnull; [done|]. unfold nodes. set_solver. Qed.

Lemma list_rbegin_ok xs : is_list h l xs -> list_rbegin l h = Ok (pred_in l xs, h).
Proof.
  intros H. pose proof (list_nonnull _ _ _ H) as Hl. unfold list_rbegin.
  rewrite bind_assert by (by rewrite (proj2 (Z.eqb_neq _ _) Hl)).
  by rewrite (rd_prev _ _ _ (tail_nonnull _ H) (cell_tail _ _ _ H)).
Qed.

(** [list_next] of an element is its successor. *)
Lemma list_next_ok ys x zs :
  is_list h l (ys ++ x :: zs) -> list_next x h = Ok (succ_in l zs, h).
Proof.
  intros H. eapply list_next_cell.
  - eapply node_nonnull; [done|]. unfold nodes. set_solver.
  - by apply (cell_at h l ys x zs).
  - apply (succ_nonnull h l (ys ++ [x]) zs). by rewrite <- app_assoc.
Qed.

(** [list_prev] of the element or tail after [ys] is the last of [ys]. *)
Lemma list_prev_ok ys zs :
  is_list h l (ys ++ zs) -> list_prev (succ_in l zs) h = Ok (pred_in l ys, h).
Proof.
  intros H. destruct (cell_succ _ _ _ _ H) as (n & Hc & _).
  eapply list_prev_cell; [by eapply succ_nonnull|done|by eapply pred_nonnull].
Qed.

(** An element is not the end of its list. *)
Lemma elem_not_end ys x zs :
  is_list h l (ys ++ x :: zs) -> (x =? tail_of l) = false.
Proof.
  intros [Hn _ _]. apply Z.eqb_neq. intros ->. unfold nodes in Hn.
  apply NoDup_cons in Hn as [_ Hn]. rewrite <- app_assoc in Hn.
  apply NoDup_app in Hn as (_ & _ & Hn). simpl in Hn.
  apply NoDup_cons in Hn as [Hn _]. apply Hn. set_solver.
Qed.

Lemma list_empty_ok xs :
  is_list h l xs -> list_empty l h = Ok (bool_decide (xs = []), h).
Proof.
  intros H. unfold list_empty.
  rewrite (bind_ok _ _ _ _ _ (list_begin_ok _ H)).
  rewrite (bind_ok _ _ _ _ _ (list_end_ok _ H)). unfold ret. f_equal. f_equal.
  destruct xs as [|x xs]; [unfold succ_in; simpl; apply Z.eqb_refl|].
  by apply (elem_not_end [] x xs).
Qed.

Lemma list_front_ok x xs : is_list h l (x :: xs) -> list_front l h = Ok (x, h).
Proof.
  intros H. unfold list_front.
  rewrite (bind_ok _ _ _ _ _ (list_empty_ok _ H)), bind_assert by done.
  by rewrite (rd_next _ _ _ (head_nonnull _ _ _ H) (cell_head _ _ _ H)).
Qed.

Lemma list_back_ok xs x : is_list h l (xs ++ [x]) -> list_back l h = Ok (x, h).
Proof.
  intros H. unfold list_back.
  rewrite (bind_ok _ _ _ _ _ (list_empty_ok _ H)), bind_assert
    by (by rewrite bool_decide_false by (by destruct xs)).
  rewrite (rd_prev _ _ _ (tail_nonnull _ H) (cell_tail _ _ _ H)). simpl.
  unfold pred_in. by rewrite last_snoc.
Qed.

Lemma list_size_loop_ok fuel zs ys cnt :
  is_list h l (ys ++ zs) -> (length zs < fuel)%nat ->
  list_size_loop fuel l (succ_in l zs) cnt h
  = Ok (if decide (zs = []) then cnt else u32 (cnt + Z.of_nat (length zs)), h).
Proof.
  revert ys zs cnt. induction fuel as [|fuel IH]; intros ys zs cnt H Hf; [lia|].
  cbn [list_size_loop]. rewrite (bind_ok _ _ _ _ _ (list_end_ok _ H)).
  destruct zs as [|z zs].
  - unfold succ_in. simpl. by rewrite Z.eqb_refl.
  - change (succ_in l (z :: zs)) with z. rewrite (elem_not_end ys z zs H).
    rewrite (bind_ok _ _ _ _ _ (list_next_ok ys z zs H)).
    rewrite (IH (ys ++ [z])); [|by rewrite <- app_assoc|simpl in Hf; lia].
    f_equal. f_equal. unfold uwrap.
    rewrite (decide_False (P := z :: zs = [])) by done.
    case_decide as E; [by subst|]. rewrite Zplus_mod_idemp_l. f_equal. simpl. lia.
Qed.

Lemma list_size_ok fuel xs :
  is_list h l xs -> (length xs < fuel)%nat -> Z.of_nat (length xs) < 2 ^ 32 ->
  list_size fuel l h = Ok (Z.of_nat (length xs), h).
Proof.
  intros H Hf Hb. unfold list_size.
  rewrite (bind_ok _ _ _ _ _ (list_begin_ok _ H)).
  rewrite (list_size_loop_ok fuel xs [] 0 H Hf).
  case_decide as E; [by subst|]. rewrite uwrap_id; [done|lia].
Qed.
End Traverse.

(** ** Changing a list *)

(** The nodes of a list around a position, and what happens to them when a
    sequence is inserted there. *)
Lemma nodes_split l ys zs :
  exists as_ bs,
    nodes l (ys ++ zs) = as_ ++ pred_in l ys :: succ_in l zs :: bs /\
    forall ws, nodes l (ys ++ ws ++ zs)
               = as_ ++ pred_in l ys :: ws ++ succ_in l zs :: bs.
Proof.
  assert (exists bs, zs ++ [tail_of l] = succ_in l zs :: bs) as [bs Hb]
    by (unfold succ_in; destruct zs; simpl; eauto).
  assert (exists as_, head_of l :: ys = as_ ++ [pred_in l ys]) as [as_ Ha].
  { unfold pred_in. destruct ys as [|y ys _] using rev_ind; [by exists []|].
    exists (head_of l :: ys). rewrite last_snoc. done. }
  exists as_, bs. assert (forall ws, nodes l (ys ++ ws ++ zs)
    = as_ ++ pred_in l ys :: ws ++ succ_in l zs :: bs) as Hw; [|split; [|done]].
  - intros ws. unfold nodes. rewrite <- !app_assoc, Hb, app_comm_cons, Ha.
    by rewrite <- app_assoc.
  - apply (Hw []).
Qed.

(** Splits [NoDup] and freshness hypotheses on concatenations into facts
    [set_solver] can use. *)
Ltac split_nodup :=
  repeat match goal with
  | H : NoDup (_ ++ _) |- _ => apply NoDup_app in H as (? & ? & ?)
  | H : NoDup (_ :: _) |- _ => apply NoDup_cons in H as [? ?]
  end.

(** Linking a segment [ws] between two adjacent nodes. *)
Lemma cells_splice_in h as_ p b bs ws pp n w1 wk :
  NoDup (as_ ++ p :: ws ++ b :: bs) ->
  cells h NULL (as_ ++ p :: b :: bs) NULL ->
  h !! p = Some (Elem pp b) -> h !! b = Some (Elem p n) ->
  head ws = Some w1 -> last ws = Some wk ->
  cells h p ws b ->
  cells (<[b := Elem wk n]> (<[p := Elem pp w1]> h)) NULL
        (as_ ++ p :: ws ++ b :: bs) NULL.
Proof.
  intros Hnd Hc Hp Hb Hw1 Hwk Hws.
  change (p :: b :: bs) with ([p] ++ [b] ++ bs) in Hc.
  change (p :: ws ++ b :: bs) with ([p] ++ ws ++ [b] ++ bs) in *.
  rewrite !cells_app in *. split_nodup.
  assert (p ∉ as_ /\ b ∉ as_ /\ p ∉ ws /\ b ∉ ws /\ p ∉ bs /\ b ∉ bs /\ p <> b)
    as (? & ? & ? & ? & ? & ? & ?) by set_solver.
  destruct Hc as (Ha & [Hp' _] & [Hb' _] & Hbs). simpl in *.
  rewrite Hp in Hp'. rewrite Hb in Hb'. simplify_eq.
  rewrite Hwk. simpl.
  rewrite !cells_insert by done. split_and!; try done.
  - rewrite lookup_insert_ne, lookup_insert_eq by done.
    by destruct ws; simplify_eq/=.
  - by rewrite lookup_insert_eq.
Qed.

Lemma nodes_app_perm l ys ws zs :
  nodes l (ys ++ ws ++ zs) ≡ₚ ws ++ nodes l (ys ++ zs).
Proof.
  unfold nodes. rewrite (app_assoc ys), (Permutation_app_comm ys ws).
  rewrite <- !app_assoc. apply Permutation_middle.
Qed.

(** The nodes of a segment are neither null nor nodes of the rest. *)
Lemma is_list_seg_nodup h l ys ws zs :
  is_list h l (ys ++ ws ++ zs) ->
  NoDup ws /\ NULL ∉ ws /\ (forall x, x ∈ ws -> x ∉ nodes l (ys ++ zs)) /\
  NoDup (nodes l (ys ++ zs)) /\ NULL ∉ nodes l (ys ++ zs).
Proof.
  intros [Hn H0 _]. rewrite nodes_app_perm in Hn, H0.
  apply NoDup_app in Hn as (? & ? & ?). apply not_elem_of_app in H0 as [? ?]. done.
Qed.

Lemma pred_ne_succ h l ys zs :
  is_list h l (ys ++ zs) -> pred_in l ys <> succ_in l zs.
Proof.
  intros [HN _ _]. destruct (nodes_split l ys zs) as (as_ & bs & Hs & _).
  rewrite Hs in HN. apply NoDup_app in HN as (_ & _ & HN).
  apply NoDup_cons in HN as [HN _]. intros E. apply HN. rewrite E. by left.
Qed.

(** Linking an unlinked segment into a list. *)
Lemma paste_ok h l ys ws zs w1 wk pp n :
  is_list h l (ys ++ zs) -> head ws = Some w1 -> last ws = Some wk ->
  NoDup ws -> NULL ∉ ws -> (forall x, x ∈ ws -> x ∉ nodes l (ys ++ zs)) ->
  cells h (pred_in l ys) ws (succ_in l zs) ->
  h !! pred_in l ys = Some (Elem pp (succ_in l zs)) ->
  h !! succ_in l zs = Some (Elem (pred_in l ys) n) ->
  is_list (<[succ_in l zs := Elem wk n]> (<[pred_in l ys := Elem pp w1]> h)) l
          (ys ++ ws ++ zs).
Proof.
  intros [HN H0 Hc] Hw1 Hwk Hnd Hnull Hd Hws Hp Hb.
  assert (NoDup (nodes l (ys ++ ws ++ zs))) as HN'
    by (rewrite nodes_app_perm; by apply NoDup_app).
  split; [done|rewrite nodes_app_perm; by apply not_elem_of_app|].
  destruct (nodes_split l ys zs) as (as_ & bs & Hs & Hw). rewrite Hs in Hc.
  rewrite Hw in HN' |- *. by apply cells_splice_in.
Qed.

(** [list_insert] puts the new element just before the given position. *)
Lemma list_insert_ok h l ys zs e :
  is_list h l (ys ++ zs) -> e ∉ nodes l (ys ++ zs) -> e <> NULL -> is_Some (h !! e) ->
  exists h', list_insert (succ_in l zs) e h = Ok (tt, h') /\
    is_list h' l (ys ++ e :: zs) /\ only (e :: nodes l (ys ++ zs)) h h'.
Proof.
  intros H He Hnn [c Hce].
  destruct (cell_succ _ _ _ _ H) as (n & Hb & _).
  destruct (cell_pred _ _ _ _ H) as (pp & Hp & _).
  pose proof (succ_nonnull _ _ _ _ H) as Hbn. pose proof (pred_nonnull _ _ _ _ H) as Hpn.
  pose proof (succ_in_nodes l ys zs) as Hbi. pose proof (pred_in_nodes l ys zs) as Hpi.
  pose proof (pred_ne_succ _ _ _ _ H) as Hpb.
  set (b := succ_in l zs) in *. set (p := pred_in l ys) in *.
  assert (e <> b) as Heb by (intros ->; done).
  assert (e <> p) as Hep by (intros ->; done).
  set (h1 := <[e := Elem p b]> h).
  assert (h1 !! b = Some (Elem p n)) as Hb1 by (by unfold h1; rewrite lookup_insert_ne).
  assert (h1 !! p = Some (Elem pp b)) as Hp1 by (by unfold h1; rewrite lookup_insert_ne).
  exists (<[b := Elem e n]> (<[p := Elem pp e]> h1)). split_and!.
  - unfold list_insert.
    rewrite (bind_ok _ _ _ _ _ (prev_guard _ _ _ _ Hbn Hb Hpn)), bind_assert by done.
    rewrite bind_assert by (by rewrite (proj2 (Z.eqb_neq _ _) Hnn)).
    rewrite (bind_ok _ _ _ _ _ (rd_prev _ _ _ Hbn Hb)).
    rewrite (bind_ok _ _ _ _ _ (wr_prev _ _ _ _ Hnn Hce)).
    erewrite bind_ok by (apply wr_next; [done|apply lookup_insert_eq]).
    rewrite insert_insert_eq. cbn [prev next]. fold h1.
    rewrite (bind_ok _ _ _ _ _ (rd_prev _ _ _ Hbn Hb1)).
    rewrite (bind_ok _ _ _ _ _ (wr_next _ _ _ _ Hpn Hp1)).
    erewrite wr_prev by (try done; rewrite lookup_insert_ne by done; exact Hb1). done.
  - apply (paste_ok h1 l ys [e] zs e e pp n); try done.
    + eapply (is_list_only h _ [e]); [|intros x Hx ->%list_elem_of_singleton; done|done].
      apply only_insert; [by left|apply only_refl].
    + apply NoDup_singleton.
    + intros E%list_elem_of_singleton. by rewrite E in Hnn.
    + by intros x ->%list_elem_of_singleton.
    + split; [|done]. unfold h1. by rewrite lookup_insert_eq.
  - repeat (apply only_insert; [first [by left|by right]|]). apply only_refl.
Qed.

(** Unlinking the segment between two nodes. *)
Lemma cells_cut_out h as_ p b bs ws pp n w1 wk :
  NoDup (as_ ++ p :: ws ++ b :: bs) ->
  cells h NULL (as_ ++ p :: ws ++ b :: bs) NULL ->
  head ws = Some w1 -> last ws = Some wk ->
  h !! p = Some (Elem pp w1) -> h !! b = Some (Elem wk n) ->
  cells (<[b := Elem p n]> (<[p := Elem pp b]> h)) NULL (as_ ++ p :: b :: bs) NULL
  /\ cells (<[b := Elem p n]> (<[p := Elem pp b]> h)) p ws b.
Proof.
  intros Hnd Hc Hw1 Hwk Hp Hb.
  change (p :: b :: bs) with ([p] ++ [b] ++ bs).
  change (p :: ws ++ b :: bs) with ([p] ++ ws ++ [b] ++ bs) in *.
  rewrite !cells_app in *. split_nodup.
  assert (p ∉ as_ /\ b ∉ as_ /\ p ∉ ws /\ b ∉ ws /\ p ∉ bs /\ b ∉ bs /\ p <> b)
    as (? & ? & ? & ? & ? & ? & ?) by set_solver.
  destruct Hc as (Ha & [Hp' _] & Hws & [Hb' _] & Hbs).
  rewrite Hwk in Hb'. simpl in *. rewrite Hp in Hp'. rewrite Hb in Hb'. simplify_eq.
  rewrite !cells_insert by done. split_and!; try done.
  - rewrite lookup_insert_ne, lookup_insert_eq by done. done.
  - by rewrite lookup_insert_eq.
Qed.

Lemma nodes_head_last l ys ws zs w1 wk :
  head ws = Some w1 -> last ws = Some wk ->
  succ_in l (ws ++ zs) = w1 /\ pred_in l (ys ++ ws) = wk.
Proof.
  intros H1 Hk. unfold succ_in, pred_in. rewrite last_app, Hk.
  destruct ws; simplify_eq/=. done.
Qed.

Lemma head_last_Some {A} (ws : list A) :
  ws <> [] -> exists w1 wk, head ws = Some w1 /\ last ws = Some wk.
Proof.
  intros Hw. destruct ws as [|w ws]; [done|]. exists w.
  destruct (last (w :: ws)) as [k|] eqn:E; [eauto|]. by apply last_None in E.
Qed.

(** The state in which a segment has been unlinked from its list: the list
    without the segment, and the segment with its outer pointers still set. *)
Lemma cut_ok h l ys ws zs w1 wk pp n :
  is_list h l (ys ++ ws ++ zs) -> head ws = Some w1 -> last ws = Some wk ->
  h !! pred_in l ys = Some (Elem pp w1) ->
  h !! succ_in l zs = Some (Elem wk n) ->
  let h' := <[succ_in l zs := Elem (pred_in l ys) n]>
              (<[pred_in l ys := Elem pp (succ_in l zs)]> h) in
  is_list h' l (ys ++ zs) /\ cells h' (pred_in l ys) ws (succ_in l zs) /\
  only (nodes l (ys ++ zs)) h h'.
Proof.
  intros H Hw1 Hwk Hp Hb h'.
  destruct (is_list_seg_nodup _ _ _ _ _ H) as (_ & _ & _ & Hnd & H0).
  destruct (nodes_split l ys zs) as (as_ & bs & Hs & Hw). specialize (Hw ws).
  destruct H as [HN _ Hc]. rewrite Hw in HN, Hc.
  destruct (cells_cut_out _ _ _ _ _ _ pp n w1 wk HN Hc) as [C1 C2]; [done..|].
  split_and!; [split; [done..|by rewrite Hs]|done|].
  apply only_insert; [apply succ_in_nodes|]. apply only_insert; [apply pred_in_nodes|].
  apply only_refl.
Qed.

(** [list_remove] unlinks the element and returns its successor; the cell of
    the removed element itself is left as it was. *)
Lemma list_remove_ok h l ys x zs :
  is_list h l (ys ++ x :: zs) ->
  exists h', list_remove x h = Ok (succ_in l zs, h') /\
    is_list h' l (ys ++ zs) /\ only (nodes l (ys ++ zs)) h h'.
Proof.
  intros H. pose proof (cell_at _ _ _ _ _ H) as Hx.
  assert (x <> NULL) as Hxn by (eapply node_nonnull; [done|unfold nodes; set_solver]).
  destruct (cell_pred h l ys (x :: zs)) as (pp & Hp & _); [done|].
  assert (is_list h l ((ys ++ [x]) ++ zs)) as H' by (by rewrite <- app_assoc).
  destruct (cell_succ h l (ys ++ [x]) zs) as (n & Hb & _); [done|].
  pose proof (succ_nonnull _ _ _ _ H') as Hbn. pose proof (pred_nonnull _ _ _ _ H) as Hpn.
  destruct (is_list_seg_nodup h l ys [x] zs H) as (_ & _ & Hd & _ & _).
  assert (x <> pred_in l ys) as Hxp
    by (intros E; apply (Hd x); [set_solver|rewrite E; apply pred_in_nodes]).
  assert (x <> succ_in l zs) as Hxb
    by (intros E; apply (Hd x); [set_solver|rewrite E; apply succ_in_nodes]).
  unfold pred_in at 1 in Hb. rewrite last_snoc in Hb. simpl in Hb.
  change (succ_in l (x :: zs)) with x in Hp.
  destruct (cut_ok h l ys [x] zs x x pp n) as (C1 & _ & C3); [done..|].
  pose proof (pred_ne_succ _ _ _ _ C1) as Hpb.
  eexists. split; [|split; [exact C1|exact C3]].
  unfold list_remove.
  rewrite (bind_ok _ _ _ _ _ (is_interior_eval _ _ _ _ Hxn Hx)), bind_assert
    by (by rewrite (proj2 (Z.eqb_neq _ _) Hbn), (proj2 (Z.eqb_neq _ _) Hpn)).
  rewrite (bind_ok _ _ _ _ _ (rd_next _ _ _ Hxn Hx)).
  rewrite (bind_ok _ _ _ _ _ (rd_prev _ _ _ Hxn Hx)). cbn [prev next].
  rewrite (bind_ok _ _ _ _ _ (wr_next _ _ _ _ Hpn Hp)). cbn [prev next].
  assert (<[pred_in l ys := Elem pp (succ_in l zs)]> h !! x
          = Some (Elem (pred_in l ys) (succ_in l zs))) as Hx1
    by (by rewrite lookup_insert_ne).
  rewrite (bind_ok _ _ _ _ _ (rd_prev _ _ _ Hxn Hx1)).
  rewrite (bind_ok _ _ _ _ _ (rd_next _ _ _ Hxn Hx1)). cbn [prev next].
  erewrite bind_ok by (apply wr_prev; [done|by rewrite lookup_insert_ne]). cbn [next].
  erewrite rd_next by (try done; by rewrite lookup_insert_ne). done.
Qed.

(** Redirecting the outer pointers of a segment. *)
Lemma cells_set_prev h p ws n w1 c p' :
  NoDup ws -> head ws = Some w1 -> h !! w1 = Some c -> cells h p ws n ->
  cells (<[w1 := Elem p' (next c)]> h) p' ws n.
Proof.
  intros Hn Hw Hc Hs. destruct ws as [|w ws]; simplify_eq/=.
  destruct Hs as [H1 H2]. apply NoDup_cons in Hn as [Hw _].
  rewrite lookup_insert_eq, cells_insert by done. split; [|done].
  rewrite H1 in Hc. by simplify_eq/=.
Qed.

Lemma cells_set_next h p ws n wk c n' :
  NoDup ws -> last ws = Some wk -> h !! wk = Some c -> cells h p ws n ->
  cells (<[wk := Elem (prev c) n']> h) p ws n'.
Proof.
  intros Hn Hw Hc Hs. apply last_Some in Hw as [r ->].
  apply NoDup_app in Hn as (_ & Hd & _).
  apply cells_app in Hs as [H1 [H2 _]]. apply cells_app.
  simpl in *. rewrite lookup_insert_eq, cells_insert
    by (intros Hi; apply (Hd _ Hi); by left).
  split_and!; try done. rewrite H2 in Hc. by simplify_eq/=.
Qed.

Lemma cells_lookup h p ws n x : cells h p ws n -> x ∈ ws -> is_Some (h !! x).
Proof.
  revert p. induction ws as [|w ws IH]; intros p; [by intros _ ?%not_elem_of_nil|].
  intros [H1 H2] [->|Hx]%elem_of_cons; eauto.
Qed.

Lemma head_elem (ws : list Z) w : head ws = Some w -> w ∈ ws.
Proof. intros. destruct ws; simplify_eq/=. by left. Qed.

Lemma last_elem (ws : list Z) w : last ws = Some w -> w ∈ ws.
Proof. intros [r ->]%last_Some. apply elem_of_app. right. by left. Qed.

Lemma cells_first h p ws n w :
  cells h p ws n -> head ws = Some w -> exists b, h !! w = Some (Elem p b).
Proof. intros Hc Hw. destruct ws; simplify_eq/=. destruct Hc. eauto. Qed.

Lemma cells_last h p ws n w :
  cells h p ws n -> last ws = Some w -> exists a, h !! w = Some (Elem a n).
Proof. intros Hc [r ->]%last_Some. apply cells_app in Hc as [_ [Hc _]]. eauto. Qed.

(** ** Splicing *)

Section Splice.
Context (h : heap) (l1 l2 : Z) (ys ws zs ys2 zs2 : list Z) (w1 wk : Z).
Context (Hsrc : is_list h l1 (ys ++ ws ++ zs)).
Context (Hw1 : head ws = Some w1) (Hwk : last ws = Some wk).
(** The destination is a list once the segment has been taken out. *)
Context (Hdst : forall h1, is_list h1 l1 (ys ++ zs) ->
           only (nodes l1 (ys ++ zs)) h h1 -> is_list h1 l2 (ys2 ++ zs2)).
Context (Hdisj : forall x, x ∈ ws -> x ∉ nodes l2 (ys2 ++ zs2)).
Context (Hguard : orM (is_interior (succ_in l2 zs2)) (is_tail (succ_in l2 zs2)) h
                  = Ok (true, h)).

(** The first half of [list_splice]: the segment is taken out. *)
Lemma splice_cut_phase :
  exists h1, is_list h1 l1 (ys ++ zs) /\ only (nodes l1 (ys ++ zs)) h h1 /\
    cells h1 (pred_in l1 ys) ws (succ_in l1 zs) /\
    forall k : M heap unit,
    (b <- is_interior w1;; assert b;;;
     b <- is_interior wk;; assert b;;;
     ln <- rd (Next wk);; fp <- rd (Prev w1);; wr (Next fp) ln;;;
     fp <- rd (Prev w1);; ln <- rd (Next wk);; wr (Prev ln) fp;;; k) h = k h1.
Proof.
  destruct (is_list_seg_nodup _ _ _ _ _ Hsrc) as (_ & Hnull & Hd & _ & _).
  assert (w1 <> NULL) as Hw1n by (intros E; apply Hnull; rewrite <- E; by apply head_elem).
  assert (wk <> NULL) as Hwkn by (intros E; apply Hnull; rewrite <- E; by apply last_elem).
  destruct (nodes_head_last l1 ys ws zs _ _ Hw1 Hwk) as [Es Ep].
  destruct (cell_succ h l1 ys (ws ++ zs) Hsrc) as (n1 & C1 & N1). rewrite Es in C1.
  assert (is_list h l1 ((ys ++ ws) ++ zs)) as Hs2 by (by rewrite <- app_assoc).
  destruct (cell_pred h l1 (ys ++ ws) zs Hs2) as (p1 & Ck & P1). rewrite Ep in Ck.
  destruct (cell_pred h l1 ys (ws ++ zs) Hsrc) as (pp & Cp & _). rewrite Es in Cp.
  destruct (cell_succ h l1 (ys ++ ws) zs Hs2) as (n & Cs & _). rewrite Ep in Cs.
  pose proof (pred_nonnull _ _ _ _ Hsrc) as Hpn. pose proof (succ_nonnull _ _ _ _ Hs2) as Hsn.
  assert (n1 <> NULL) as Hn1.
  { intros E%N1. by destruct ws. }
  assert (p1 <> NULL) as Hp1.
  { intros E%P1. destruct ws; [done|]. by destruct ys. }
  destruct (cut_ok h l1 ys ws zs w1 wk pp n) as (R1 & R2 & R3); try done.
  assert (forall x, x ∈ ws -> x <> pred_in l1 ys) as Hxp
    by (intros x Hx ->; apply (Hd _ Hx), pred_in_nodes).
  pose proof (pred_ne_succ _ _ _ _ R1) as Hps.
  eexists. split_and!; [exact R1|exact R3|exact R2|]. intros k.
  rewrite (bind_ok _ _ _ _ _ (is_interior_eval _ _ _ _ Hw1n C1)), bind_assert
    by (by rewrite (proj2 (Z.eqb_neq _ _) Hpn), (proj2 (Z.eqb_neq _ _) Hn1)).
  rewrite (bind_ok _ _ _ _ _ (is_interior_eval _ _ _ _ Hwkn Ck)), bind_assert
    by (by rewrite (proj2 (Z.eqb_neq _ _) Hp1), (proj2 (Z.eqb_neq _ _) Hsn)).
  rewrite (bind_ok _ _ _ _ _ (rd_next _ _ _ Hwkn Ck)).
  rewrite (bind_ok _ _ _ _ _ (rd_prev _ _ _ Hw1n C1)). cbn [prev next].
  rewrite (bind_ok _ _ _ _ _ (wr_next _ _ _ _ Hpn Cp)). cbn [prev next].
  erewrite bind_ok by (apply rd_prev; [done|rewrite lookup_insert_ne;
    [exact C1|by apply not_eq_sym, Hxp, head_elem]]).
  erewrite bind_ok by (apply rd_next; [done|rewrite lookup_insert_ne;
    [exact Ck|by apply not_eq_sym, Hxp, last_elem]]).
  cbn [prev next].
  erewrite bind_ok by (apply wr_prev; [done|by rewrite lookup_insert_ne]). done.
Qed.

(** The second half: the segment is put into its new place. *)
Lemma splice_paste_phase h1 p0 n0 :
  is_list h1 l2 (ys2 ++ zs2) -> cells h1 p0 ws n0 -> NoDup ws -> NULL ∉ ws ->
  exists h2,
    (bp <- rd (Prev (succ_in l2 zs2));; wr (Prev w1) bp;;;
     wr (Next wk) (succ_in l2 zs2);;;
     bp <- rd (Prev (succ_in l2 zs2));; wr (Next bp) w1;;;
     wr (Prev (succ_in l2 zs2)) wk) h1 = Ok (tt, h2) /\
    is_list h2 l2 (ys2 ++ ws ++ zs2) /\ only (ws ++ nodes l2 (ys2 ++ zs2)) h1 h2.
Proof.
  intros H1 Hc Hnd Hnull.
  assert (w1 <> NULL) as Hw1n by (intros E; apply Hnull; rewrite <- E; by apply head_elem).
  assert (wk <> NULL) as Hwkn by (intros E; apply Hnull; rewrite <- E; by apply last_elem).
  destruct (cell_succ _ _ _ _ H1) as (n & Cb & _).
  destruct (cell_pred _ _ _ _ H1) as (pp & Cp & _).
  pose proof (succ_nonnull _ _ _ _ H1) as Hbn. pose proof (pred_nonnull _ _ _ _ H1) as Hpn.
  pose proof (pred_ne_succ _ _ _ _ H1) as Hpb.
  pose proof (succ_in_nodes l2 ys2 zs2) as Hbi. pose proof (pred_in_nodes l2 ys2 zs2) as Hpi.
  set (b := succ_in l2 zs2) in *. set (p := pred_in l2 ys2) in *.
  destruct (cells_lookup _ _ _ _ _ Hc (head_elem _ _ Hw1)) as [c1 C1].
  set (h2 := <[w1 := Elem p (next c1)]> h1).
  assert (cells h2 p ws n0) as Hc2 by (by eapply cells_set_prev).
  destruct (cells_lookup _ _ _ _ _ Hc2 (last_elem _ _ Hwk)) as [ck Ck].
  set (h3 := <[wk := Elem (prev ck) b]> h2).
  assert (cells h3 p ws b) as Hc3 by (by eapply cells_set_next).
  assert (only ws h1 h3) as Ho.
  { apply only_insert; [by apply last_elem|]. apply only_insert; [by apply head_elem|].
    apply only_refl. }
  assert (only ws h1 h2) as Ho2 by (apply only_insert; [by apply head_elem|apply only_refl]).
  assert (b ∉ ws) as Hb by (intros Hi; by apply (Hdisj _ Hi)).
  assert (p ∉ ws) as Hp by (intros Hi; by apply (Hdisj _ Hi)).
  exists (<[b := Elem wk n]> (<[p := Elem pp w1]> h3)). split_and!.
  - rewrite (bind_ok _ _ _ _ _ (rd_prev _ _ _ Hbn Cb)). cbn [prev].
    rewrite (bind_ok _ _ _ _ _ (wr_prev _ _ _ _ Hw1n C1)). fold h2.
    rewrite (bind_ok _ _ _ _ _ (wr_next _ _ _ _ Hwkn Ck)). fold h3.
    rewrite <- (Ho b) in Cb by done. rewrite <- (Ho p) in Cp by done.
    rewrite (bind_ok _ _ _ _ _ (rd_prev _ _ _ Hbn Cb)). cbn [prev].
    rewrite (bind_ok _ _ _ _ _ (wr_next _ _ _ _ Hpn Cp)). cbn [prev].
    erewrite wr_prev by (try done; by rewrite lookup_insert_ne). done.
  - apply (paste_ok h3 l2 ys2 ws zs2 w1 wk pp n); try done.
    + eapply is_list_only; [exact Ho| |done]. intros x Hx Hx'. by apply (Hdisj _ Hx').
    + by rewrite Ho.
    + by rewrite Ho.
  - apply only_insert; [apply elem_of_app; by right|].
    apply only_insert; [apply elem_of_app; by right|].
    eapply only_incl; [|exact Ho]. intros. apply elem_of_app; by left.
Qed.

Lemma list_splice_gen :
  exists h1 h', list_splice (succ_in l2 zs2) w1 (succ_in l1 zs) h = Ok (tt, h') /\
    is_list h1 l1 (ys ++ zs) /\ only (nodes l1 (ys ++ zs)) h h1 /\
    is_list h' l2 (ys2 ++ ws ++ zs2) /\ only (ws ++ nodes l2 (ys2 ++ zs2)) h1 h'.
Proof.
  destruct (is_list_seg_nodup _ _ _ _ _ Hsrc) as (Hnd & Hnull & Hd & _ & _).
  destruct splice_cut_phase as (h1 & R1 & R2 & R3 & Hrun).
  destruct (splice_paste_phase h1 _ _ (Hdst _ R1 R2) R3 Hnd Hnull) as (h2 & Hrun2 & S1 & S2).
  exists h1, h2. split_and!; try done. unfold list_splice.
  rewrite (bind_ok _ _ _ _ _ Hguard), bind_assert by done.
  rewrite (proj2 (Z.eqb_neq w1 (succ_in l1 zs))).
  2: { intros E. apply (Hd _ (head_elem _ _ Hw1)). rewrite E. apply succ_in_nodes. }
  assert (is_list h l1 ((ys ++ ws) ++ zs)) as Hs2 by (by rewrite <- app_assoc).
  rewrite (bind_ok _ _ _ _ _ (list_prev_ok _ _ _ _ Hs2)).
  rewrite (proj2 (nodes_head_last l1 ys ws zs _ _ Hw1 Hwk)).
  by rewrite Hrun, Hrun2.
Qed.
End Splice.

(** Moving a segment to an earlier place of the same list. *)
Lemma list_splice_back h l ys zs ws vs z w1 :
  is_list h l (ys ++ (z :: zs) ++ ws ++ vs) -> head ws = Some w1 ->
  exists h', list_splice z w1 (succ_in l vs) h = Ok (tt, h') /\
    is_list h' l (ys ++ ws ++ (z :: zs) ++ vs) /\
    only (nodes l (ys ++ (z :: zs) ++ ws ++ vs)) h h'.
Proof.
  intros H Hw1. destruct (head_last_Some ws) as (w1' & wk & E1 & Ek);
    [by destruct ws|]. simplify_eq.
  pose proof (H : is_list h l (ys ++ z :: (zs ++ ws ++ vs))) as Hz.
  pose proof H as H'. rewrite app_assoc in H'.
  destruct (list_splice_gen h l l (ys ++ z :: zs) ws vs ys ((z :: zs) ++ vs) w1 wk)
    as (h1 & h' & Hr & R1 & R2 & R3 & R4); try done.
  - intros h1 Hl _. by rewrite app_assoc.
  - rewrite app_assoc. apply (is_list_seg_nodup _ _ _ _ _ H').
  - eapply prev_guard; [|by apply (cell_at h l ys z _ Hz)|].
    + eapply node_nonnull; [exact Hz|]. unfold nodes. set_solver.
    + by eapply pred_nonnull.
  - assert (forall x, x ∈ nodes l (ys ++ (z :: zs) ++ ws ++ vs) <->
              x ∈ ws \/ x ∈ nodes l (ys ++ (z :: zs) ++ vs)) as Hn.
    { intros x. rewrite (app_assoc ys), nodes_app_perm, elem_of_app, (app_assoc ys). done. }
    rewrite <- (app_assoc ys) in R2. exists h'. split_and!; [done..|].
    eapply only_trans; eapply only_incl; [|exact R2| |exact R4]; intros x;
      rewrite Hn, ?elem_of_app; tauto.
Qed.

(** Moving a segment to another list. *)
Lemma list_splice_other h l1 l2 ys ws zs ys2 zs2 w1 :
  is_list h l1 (ys ++ ws ++ zs) -> is_list h l2 (ys2 ++ zs2) ->
  (forall x, x ∈ nodes l1 (ys ++ ws ++ zs) -> x ∉ nodes l2 (ys2 ++ zs2)) ->
  head ws = Some w1 ->
  exists h', list_splice (succ_in l2 zs2) w1 (succ_in l1 zs) h = Ok (tt, h') /\
    is_list h' l1 (ys ++ zs) /\ is_list h' l2 (ys2 ++ ws ++ zs2) /\
    only (nodes l1 (ys ++ ws ++ zs) ++ nodes l2 (ys2 ++ zs2)) h h'.
Proof.
  intros H1 H2 Hd Hw1. destruct (head_last_Some ws) as (w1' & wk & E1 & Ek);
    [by destruct ws|]. simplify_eq.
  assert (forall x, x ∈ nodes l1 (ys ++ ws ++ zs) <-> x ∈ ws \/ x ∈ nodes l1 (ys ++ zs))
    as Hn by (intros x; by rewrite nodes_app_perm, elem_of_app).
  destruct (list_splice_gen h l1 l2 ys ws zs ys2 zs2 w1 wk)
    as (h1 & h' & Hr & R1 & R2 & R3 & R4); try done.
  - intros h1 _ Ho. eapply is_list_only; [exact Ho| |done].
    intros x Hx Hx'. apply (Hd x); [|done]. apply Hn. by right.
  - intros x Hx. apply Hd, Hn. by left.
  - destruct (cell_succ _ _ _ _ H2) as (n & Hc & _).
    eapply prev_guard; [by eapply succ_nonnull|done|by eapply pred_nonnull].
  - exists h'. split_and!; [done| |done|].
    + eapply is_list_only; [exact R4| |done]. intros x Hx [Hw|Hw]%elem_of_app.
      * by apply (proj1 (proj2 (proj2 (is_list_seg_nodup _ _ _ _ _ H1))) x).
      * apply (Hd x); [|done]. apply Hn. by right.
    + eapply only_trans; eapply only_incl; [|exact R2| |exact R4]; intros x;
        rewrite !elem_of_app, Hn; tauto.
Qed.

(** ** The remaining operations *)

Lemma list_init_ok h l :
  l <> NULL -> tail_of l <> NULL -> is_Some (h !! head_of l) -> is_Some (h !! tail_of l) ->
  exists h', list_init l h = Ok (tt, h') /\ is_list h' l [] /\
             only [head_of l; tail_of l] h h'.
Proof.
  intros Hl Ht [a Ha] [b Hb].
  assert (head_of l <> tail_of l) as Hne by (unfold head_of, tail_of; lia).
  exists (<[tail_of l := Elem (head_of l) NULL]> (<[head_of l := Elem NULL (tail_of l)]> h)).
  split_and!.
  - unfold list_init. rewrite bind_assert by (by rewrite (proj2 (Z.eqb_neq _ _) Hl)).
    rewrite (bind_ok _ _ _ _ _ (wr_prev _ _ _ _ (Hl : head_of l <> NULL) Ha)).
    erewrite bind_ok by (apply wr_next; [done|apply lookup_insert_eq]).
    rewrite insert_insert_eq.
    erewrite bind_ok by (apply wr_prev; [done|by rewrite lookup_insert_ne]).
    erewrite wr_next by (try done; apply lookup_insert_eq).
    by rewrite insert_insert_eq.
  - split.
    + unfold nodes. simpl. repeat (apply NoDup_cons; split); [|set_solver|constructor].
      by rewrite list_elem_of_singleton.
    + unfold nodes. simpl. rewrite !not_elem_of_cons. split_and!; [done..|].
      apply not_elem_of_nil.
    + simpl. rewrite lookup_insert_ne, !lookup_insert_eq by done. done.
  - apply only_insert; [right; by left|]. apply only_insert; [by left|]. apply only_refl.
Qed.

Lemma list_push_front_ok h l xs e :
  is_list h l xs -> e ∉ nodes l xs -> e <> NULL -> is_Some (h !! e) ->
  exists h', list_push_front l e h = Ok (tt, h') /\ is_list h' l (e :: xs) /\
             only (e :: nodes l xs) h h'.
Proof.
  intros H. unfold list_push_front. rewrite (bind_ok _ _ _ _ _ (list_begin_ok _ _ _ H)).
  apply (list_insert_ok h l [] xs e H).
Qed.

Lemma list_push_back_ok h l xs e :
  is_list h l xs -> e ∉ nodes l xs -> e <> NULL -> is_Some (h !! e) ->
  exists h', list_push_back l e h = Ok (tt, h') /\ is_list h' l (xs ++ [e]) /\
             only (e :: nodes l xs) h h'.
Proof.
  intros H. unfold list_push_back. rewrite (bind_ok _ _ _ _ _ (list_end_ok _ _ _ H)).
  rewrite <- (app_nil_r xs) in H. pose proof (list_insert_ok h l xs [] e H) as R.
  rewrite app_nil_r in R. apply R.
Qed.

Lemma list_pop_front_ok h l x xs :
  is_list h l (x :: xs) ->
  exists h', list_pop_front l h = Ok (x, h') /\ is_list h' l xs /\ only (nodes l xs) h h'.
Proof.
  intros H. destruct (list_remove_ok h l [] x xs H) as (h' & Hr & R).
  exists h'. split; [|done]. unfold list_pop_front.
  rewrite (bind_ok _ _ _ _ _ (list_front_ok _ _ _ _ H)).
  by rewrite (bind_ok _ _ _ _ _ Hr).
Qed.

Lemma list_pop_back_ok h l xs x :
  is_list h l (xs ++ [x]) ->
  exists h', list_pop_back l h = Ok (x, h') /\ is_list h' l xs /\ only (nodes l xs) h h'.
Proof.
  intros H. destruct (list_remove_ok h l xs x [] H) as (h' & Hr & R).
  rewrite app_nil_r in R. exists h'. split; [|done]. unfold list_pop_back.
  rewrite (bind_ok _ _ _ _ _ (list_back_ok _ _ _ _ H)).
  by rewrite (bind_ok _ _ _ _ _ Hr).
Qed.

(** Popping an empty list fails the assertion of [list_front] / [list_back]. *)
Lemma list_pop_empty h l :
  is_list h l [] -> list_pop_front l h = Panic /\ list_pop_back l h = Panic.
Proof.
  intros H. unfold list_pop_front, list_pop_back, list_front, list_back, bind.
  rewrite (list_empty_ok _ _ _ H). done.
Qed.

(** ** Reversal *)

Lemma swap_cell h p c :
  p <> NULL -> h !! p = Some c ->
  swap (Prev p) (Next p) h = Ok (tt, <[p := Elem (next c) (prev c)]> h).
Proof.
  intros Hp Hc. unfold swap.
  rewrite (bind_ok _ _ _ _ _ (rd_prev _ _ _ Hp Hc)).
  rewrite (bind_ok _ _ _ _ _ (rd_next _ _ _ Hp Hc)).
  rewrite (bind_ok _ _ _ _ _ (wr_prev _ _ _ _ Hp Hc)).
  erewrite wr_next by (try done; apply lookup_insert_eq).
  by rewrite insert_insert_eq.
Qed.

Lemma swap_next_prev h p q c d :
  p <> NULL -> q <> NULL -> p <> q -> h !! p = Some c -> h !! q = Some d ->
  swap (Next p) (Prev q) h
  = Ok (tt, <[q := Elem (next c) (next d)]> (<[p := Elem (prev c) (prev d)]> h)).
Proof.
  intros Hp Hq Hpq Hc Hd. unfold swap.
  rewrite (bind_ok _ _ _ _ _ (rd_next _ _ _ Hp Hc)).
  rewrite (bind_ok _ _ _ _ _ (rd_prev _ _ _ Hq Hd)).
  rewrite (bind_ok _ _ _ _ _ (wr_next _ _ _ _ Hp Hc)).
  erewrite wr_prev by (try done; by rewrite lookup_insert_ne). done.
Qed.

Section Reverse.
Context (l : Z) (xs : list Z).
Context (Hl : l <> NULL) (Hnd : NoDup (nodes l xs)) (Hnull : NULL ∉ nodes l xs).

(** The loop flips the cells of the elements one by one: the flipped part
    is a segment in reverse order. *)
Lemma list_reverse_loop_ok fuel todo : forall past h,
  xs = past ++ todo ->
  cells h (pred_in l past) todo (tail_of l) ->
  cells h (succ_in l todo) (rev past) (head_of l) ->
  (length todo < fuel)%nat ->
  exists h', list_reverse_loop fuel l (succ_in l todo) h = Ok (tt, h') /\
    cells h' (tail_of l) (rev xs) (head_of l) /\ only xs h h'.
Proof.
  revert fuel. induction todo as [|x todo IH]; intros fuel past h Hx Ht Hp Hf.
  - destruct fuel; [simpl in Hf; lia|]. exists h. simpl. unfold list_end.
    rewrite bind_assoc, bind_assert by (by rewrite (proj2 (Z.eqb_neq _ _) Hl)).
    rewrite app_nil_r in Hx. subst xs. unfold succ_in in *. simpl in *.
    rewrite bind_ret, Z.eqb_refl. done.
  - destruct fuel as [|fuel]; [simpl in Hf; lia|]. cbn [list_reverse_loop].
    change (succ_in l (x :: todo)) with x in *.
    assert (x ∉ past /\ x ∉ todo /\ x <> tail_of l) as (Hxp & Hxt & Hxl).
    { subst xs. unfold nodes in Hnd. apply NoDup_cons in Hnd as [_ Hn].
      apply NoDup_app in Hn as (Hn & Hn2 & _).
      apply NoDup_app_cons_not in Hn as [? ?]. split_and!; [done..|]. intros ->.
      apply (Hn2 (tail_of l)); apply elem_of_app || (by left); right; by left. }
    assert (x <> NULL) as Hxn.
    { intros E. apply Hnull. rewrite <- E. subst xs. unfold nodes. set_solver. }
    destruct Ht as [Hc Ht]. fold (succ_in l todo) in Hc.
    unfold list_end. rewrite bind_assoc, bind_assert
      by (by rewrite (proj2 (Z.eqb_neq _ _) Hl)).
    rewrite bind_ret, (proj2 (Z.eqb_neq _ _) Hxl).
    rewrite (bind_ok _ _ _ _ _ (swap_cell _ _ _ Hxn Hc)). cbn [prev next].
    erewrite bind_ok by (apply rd_prev; [done|apply lookup_insert_eq]). cbn [prev].
    destruct (IH fuel (past ++ [x])
      (<[x := Elem (succ_in l todo) (pred_in l past)]> h)) as (h' & Hr & R1 & R2).
    + by rewrite <- app_assoc.
    + unfold pred_in. rewrite last_snoc. by apply cells_insert.
    + rewrite rev_app_distr. simpl. rewrite lookup_insert_eq. split.
      * f_equal. f_equal. unfold pred_in. destruct past as [|y past _] using rev_ind;
          [done|]. by rewrite last_snoc, rev_app_distr.
      * apply cells_insert; [|done].
        by rewrite list_elem_of_In, <- in_rev, <- list_elem_of_In.
    + simpl in Hf. lia.
    + exists h'. split_and!; [done..|]. eapply only_trans; [|exact R2].
      apply only_insert; [subst xs; set_solver|apply only_refl].
Qed.
End Reverse.

Lemma nodes_ends l xs :
  NoDup (nodes l xs) ->
  head_of l ∉ xs /\ tail_of l ∉ xs /\ head_of l <> tail_of l /\ NoDup xs.
Proof.
  unfold nodes. intros [Hn1 Hn2]%NoDup_cons.
  apply NoDup_app in Hn2 as (Hn3 & Hn2 & _). split_and!; [| | |done].
  - intros Hi. apply Hn1, elem_of_app. by left.
  - intros Hi. apply (Hn2 _ Hi). by left.
  - intros E. apply Hn1. rewrite E. apply elem_of_app. right. by left.
Qed.

Lemma head_last_rev (xs : list Z) x1 xk :
  head xs = Some x1 -> last xs = Some xk ->
  head (rev xs) = Some xk /\ last (rev xs) = Some x1.
Proof.
  intros E1 Ek. split.
  - apply last_Some in Ek as [r ->]. by rewrite rev_app_distr.
  - destruct xs as [|x xs']; simplify_eq/=. by rewrite last_snoc.
Qed.

(** The last step of the reversal: the new first and last elements are made to
    point to the list's head and tail. *)
Lemma reverse_fix_ends h l xs :
  NoDup (nodes l xs) -> NULL ∉ nodes l xs -> xs <> [] ->
  cells h (tail_of l) (rev xs) (head_of l) ->
  h !! head_of l = Some (Elem NULL (pred_in l xs)) ->
  h !! tail_of l = Some (Elem (succ_in l xs) NULL) ->
  exists h', swap (Prev (pred_in l xs)) (Next (succ_in l xs)) h = Ok (tt, h') /\
    is_list h' l (rev xs) /\ only xs h h'.
Proof.
  intros Hnd Hnull Hx Hc2 Ch2 Ct2.
  destruct (nodes_ends _ _ Hnd) as (Hh & Ht & _ & Hndx).
  assert (NoDup (rev xs)) as Hndr by (by rewrite <- (Permutation_rev xs)).
  destruct (head_last_Some xs Hx) as (x1 & xk & E1 & Ek).
  assert (succ_in l xs = x1) as Es by (unfold succ_in; by rewrite E1).
  assert (pred_in l xs = xk) as Ep by (unfold pred_in; by rewrite Ek).
  rewrite Es, Ep in *. clear Es Ep.
  destruct (head_last_rev _ _ _ E1 Ek) as [E1' Ek'].
  assert (forall x, x ∈ xs -> x <> NULL) as Hxn.
  { intros x Hi E. apply Hnull. rewrite <- E. right. apply elem_of_app. by left. }
  pose proof (last_elem _ _ Ek) as Hki. pose proof (head_elem _ _ E1) as H1i.
  destruct (cells_first _ _ _ _ _ Hc2 E1') as [nk Ck].
  destruct (cells_last _ _ _ _ _ Hc2 Ek') as [p1 C1].
  set (h3 := <[xk := Elem (head_of l) nk]> h).
  pose proof (cells_set_prev h _ _ _ _ _ (head_of l) Hndr E1' Ck Hc2) as Hc3. fold h3 in Hc3.
  destruct (cells_last _ _ _ _ _ Hc3 Ek') as [p3 C3].
  set (h4 := <[x1 := Elem p3 (tail_of l)]> h3).
  pose proof (cells_set_next h3 _ _ _ _ _ (tail_of l) Hndr Ek' C3 Hc3) as Hc4. fold h4 in Hc4.
  assert (only xs h h4) as O by (unfold h4, h3; auto with klist).
  exists h4. split_and!; [|split|done].
  - unfold swap. rewrite (bind_ok _ _ _ _ _ (rd_prev _ _ _ (Hxn _ Hki) Ck)).
    rewrite (bind_ok _ _ _ _ _ (rd_next _ _ _ (Hxn _ H1i) C1)).
    rewrite (bind_ok _ _ _ _ _ (wr_prev _ _ _ _ (Hxn _ Hki) Ck)). cbn [prev next].
    fold h3. by rewrite (wr_next _ _ _ _ (Hxn _ H1i) C3).
  - by rewrite (nodes_perm l (rev xs) xs) by (symmetry; apply Permutation_rev).
  - by rewrite (nodes_perm l (rev xs) xs) by (symmetry; apply Permutation_rev).
  - unfold nodes. change (head_of l :: rev xs ++ [tail_of l])
      with ([head_of l] ++ rev xs ++ [tail_of l]).
    rewrite !cells_app, Ek'. simpl. rewrite !O, Ch2, Ct2 by done.
    split_and!; try done. clear -E1'. by destruct (rev xs); simplify_eq/=.
Qed.

Lemma list_reverse_ok h l xs fuel :
  is_list h l xs -> (length xs < fuel)%nat ->
  exists h', list_reverse fuel l h = Ok (tt, h') /\ is_list h' l (rev xs) /\
             only (nodes l xs) h h'.
Proof.
  intros H Hf. pose proof (list_nonnull _ _ _ H) as Hl. unfold list_reverse.
  rewrite (bind_ok _ _ _ _ _ (list_empty_ok _ _ _ H)).
  case_bool_decide as Hx; [subst xs; exists h; by split_and!|].
  rewrite (bind_ok _ _ _ _ _ (list_begin_ok _ _ _ H)).
  pose proof (tail_nonnull _ _ _ H) as Htn. pose proof (cell_head _ _ _ H) as Ch.
  pose proof (cell_tail _ _ _ H) as Ct. destruct H as [Hnd Hnull Hc].
  destruct (list_reverse_loop_ok l xs Hl Hnd Hnull fuel xs [] h) as (h1 & Hr & R1 & R2);
    [done| | |done|].
  { unfold nodes in Hc. change (head_of l :: xs ++ [tail_of l])
      with ([head_of l] ++ xs ++ [tail_of l]) in Hc.
    apply cells_app in Hc as [_ Hc]. apply cells_app in Hc as [Hc _]. done. }
  { done. }
  rewrite (bind_ok _ _ _ _ _ Hr).
  destruct (nodes_ends _ _ Hnd) as (Hh & Ht & Hht & _).
  rewrite <- (R2 _ Hh) in Ch. rewrite <- (R2 _ Ht) in Ct.
  rewrite (bind_ok _ _ _ _ _ (swap_next_prev _ _ _ _ _ (Hl : head_of l <> NULL) Htn Hht Ch Ct)).
  cbn [prev next].
  set (h2 := <[tail_of l := Elem (succ_in l xs) NULL]>
             (<[head_of l := Elem NULL (pred_in l xs)]> h1)).
  assert (h2 !! head_of l = Some (Elem NULL (pred_in l xs))) as Ch2
    by (unfold h2; rewrite lookup_insert_ne, lookup_insert_eq by done; done).
  assert (h2 !! tail_of l = Some (Elem (succ_in l xs) NULL)) as Ct2
    by (unfold h2; by rewrite lookup_insert_eq).
  rewrite (bind_ok _ _ _ _ _ (rd_next _ _ _ (Hl : head_of l <> NULL) Ch2)).
  rewrite (bind_ok _ _ _ _ _ (rd_prev _ _ _ Htn Ct2)). cbn [prev next].
  destruct (reverse_fix_ends h2 l xs) as (h4 & R4 & L4 & O4); try done.
  { unfold h2. rewrite !cells_insert by (by rewrite list_elem_of_In, <- in_rev, <- list_elem_of_In).
    done. }
  exists h4. split_and!; [done..|]. eapply only_trans; [|eapply only_incl, O4].
  - unfold h2, nodes. repeat (apply only_insert;
      [rewrite elem_of_cons, elem_of_app, ?list_elem_of_singleton; tauto|]).
    eapply only_incl; [|exact R2]. intros x Hi. right. apply elem_of_app. by left.
  - intros x Hi. right. apply elem_of_app. by left.
Qed.
