(* ===== verification/ListSort.v ===== *)
(** * The kernel's doubly linked lists: ordered operations

    Refinement of the pointer code of [list_sort] and of the other ordered
    operations of list.c to functions on sequences, and the correctness of
    those functions. *)

From Stdlib Require Import Sorted.
From S2P Require Import Prelude ListDef ListSpec.

(** ** Functions on sequences *)

Section Pure.
Context (less : Z -> Z -> bool).

(** The rest of the nondecreasing run that starts at [x], and what follows
    the run. *)
Fixpoint split_run (x : Z) (zs : list Z) : list Z * list Z :=
  match zs with
  | [] => ([], [])
  | z :: r => if less z x then ([], zs)
              else let p := split_run z r in (z :: p.1, p.2)
  end.

(** Number of positions at which an element is less than the one before. *)
Fixpoint descents (x : Z) (zs : list Z) : nat :=
  match zs with
  | [] => 0
  | z :: r => (if less z x then 1 else 0) + descents z r
  end.

Definition nruns (xs : list Z) : nat :=
  match xs with [] => 0 | x :: zs => S (descents x zs) end.

(** The stable merge of two runs. *)
Fixpoint merge (xs : list Z) : list Z -> list Z :=
  match xs with
  | [] => fun ys => ys
  | x :: xs' =>
      fix merge_y (ys : list Z) : list Z :=
        match ys with
        | [] => x :: xs'
        | y :: ys' => if less y x then y :: merge_y ys' else x :: merge xs' ys
        end
  end.

(** One pass of the sort: adjacent runs are merged two by two; the last
    argument counts the runs written. *)
Inductive pass : list Z -> list Z -> nat -> Prop :=
| pass_nil : pass [] [] 0
| pass_last x zs r :
    split_run x zs = (r, []) -> pass (x :: zs) (x :: r) 1
| pass_two x zs r y s r2 s2 ys c :
    split_run x zs = (r, y :: s) -> split_run y s = (r2, s2) ->
    pass s2 ys c ->
    pass (x :: zs) (merge (x :: r) (y :: r2) ++ ys) (S c).

(** Repeated passes, until a pass writes at most one run. *)
Inductive passes : list Z -> list Z -> Prop :=
| passes_done xs ys c : pass xs ys c -> (c <= 1)%nat -> passes xs ys
| passes_more xs ys zs c :
    pass xs ys c -> (1 < c)%nat -> passes ys zs -> passes xs zs.

Fixpoint insert_ordered (elem : Z) (xs : list Z) : list Z :=
  match xs with
  | [] => [elem]
  | x :: r => if less elem x then elem :: xs else x :: insert_ordered elem r
  end.

(** Adjacent duplicates: what is kept after [x], and what is dropped. *)
Fixpoint unique_after (x : Z) (zs : list Z) : list Z * list Z :=
  match zs with
  | [] => ([], [])
  | z :: r => if negb (less x z) && negb (less z x)
              then let p := unique_after x r in (p.1, z :: p.2)
              else let p := unique_after z r in (z :: p.1, p.2)
  end.

Definition max_from (m : Z) (zs : list Z) : Z :=
  fold_left (fun m e => if less m e then e else m) zs m.
Definition min_from (m : Z) (zs : list Z) : Z :=
  fold_left (fun m e => if less e m then e else m) zs m.
End Pure.

(** ** The pointer code computes these functions *)

Section Refine.
Context (less : Z -> Z -> bool) (l : Z).

Lemma split_run_app x zs :
  zs = (split_run less x zs).1 ++ (split_run less x zs).2.
Proof.
  revert x. induction zs as [|z zs IH]; intros x; simpl; [done|].
  destruct (less z x); simpl; [done|]. by rewrite <- IH.
Qed.

Lemma find_end_of_run_loop_ok h fuel zs : forall ys x,
  is_list h l (ys ++ x :: zs) -> (length zs < fuel)%nat ->
  find_end_of_run_loop less fuel x (tail_of l) h
  = Ok (succ_in l (split_run less x zs).2, h).
Proof.
  revert fuel. induction zs as [|z zs IH]; intros fuel ys x H Hf;
    (destruct fuel as [|fuel]; [simpl in Hf; lia|]); cbn [find_end_of_run_loop].
  - rewrite (bind_ok _ _ _ _ _ (list_next_ok _ _ _ _ _ H)).
    unfold succ_in. simpl. by rewrite Z.eqb_refl.
  - rewrite (bind_ok _ _ _ _ _ (list_next_ok _ _ _ _ _ H)).
    change (succ_in l (z :: zs)) with z.
    assert (is_list h l ((ys ++ [x]) ++ z :: zs)) as H' by (by rewrite <- app_assoc).
    rewrite (elem_not_end _ _ _ _ _ H').
    rewrite bind_assoc.
    pose proof (list_prev_ok _ _ _ _ H') as Hp.
    change (succ_in l (z :: zs)) with z in Hp.
    rewrite (bind_ok _ _ _ _ _ Hp). unfold pred_in. rewrite last_snoc.
    rewrite bind_ret. simpl. destruct (less z x); [done|]. simpl.
    rewrite (IH fuel (ys ++ [x]) z H'); [done|]. simpl in Hf. lia.
Qed.

Lemma find_end_of_run_ok h fuel ys x zs :
  is_list h l (ys ++ x :: zs) -> (length zs < fuel)%nat ->
  find_end_of_run less fuel x (tail_of l) h
  = Ok (succ_in l (split_run less x zs).2, h).
Proof.
  intros H Hf. unfold find_end_of_run.
  assert (x <> NULL) as Hx by (apply (succ_nonnull h l ys (x :: zs) H)).
  rewrite !bind_assert.
  - by eapply find_end_of_run_loop_ok.
  - by rewrite (elem_not_end _ _ _ _ _ H).
  - by rewrite (proj2 (Z.eqb_neq _ _) (tail_nonnull _ _ _ H)).
  - by rewrite (proj2 (Z.eqb_neq _ _) Hx).
Qed.

(** Distinct positions of a list have distinct addresses. *)
Lemma succ_in_ne h ys seg zs :
  is_list h l (ys ++ seg ++ zs) -> seg <> [] ->
  (succ_in l (seg ++ zs) =? succ_in l zs) = false.
Proof.
  intros H Hs. apply Z.eqb_neq. intros E.
  destruct (is_list_seg_nodup _ _ _ _ _ H) as (_ & _ & Hd & _).
  destruct seg as [|x seg]; [done|]. change (succ_in l ((x :: seg) ++ zs)) with x in E.
  apply (Hd x); [by left|]. rewrite E. apply succ_in_nodes.
Qed.

Lemma is_sorted_loop_ok h fuel seg : forall ys x zs,
  is_list h l (ys ++ x :: seg ++ zs) -> (length seg < fuel)%nat ->
  is_sorted_loop less fuel x (succ_in l zs) h
  = Ok (bool_decide (descents less x seg = 0%nat), h).
Proof.
  revert fuel. induction seg as [|z seg IH]; intros fuel ys x zs H Hf;
    (destruct fuel as [|fuel]; [simpl in Hf; lia|]); cbn [is_sorted_loop].
  - rewrite (bind_ok _ _ _ _ _ (list_next_ok _ _ _ _ _ H)). simpl. by rewrite Z.eqb_refl.
  - rewrite (bind_ok _ _ _ _ _ (list_next_ok _ _ _ _ _ H)).
    assert (is_list h l ((ys ++ [x]) ++ (z :: seg) ++ zs)) as H'
      by (by rewrite <- app_assoc).
    rewrite (succ_in_ne _ _ _ _ H') by done.
    rewrite (bind_ok _ _ _ _ _ (list_prev_ok _ _ _ _ H')).
    unfold pred_in. rewrite last_snoc. simpl.
    change (succ_in l (z :: seg ++ zs)) with z. destruct (less z x); [done|].
    rewrite (IH fuel (ys ++ [x]) z zs H'); [done|]. simpl in Hf. lia.
Qed.

Lemma is_sorted_ok h fuel ys seg zs :
  is_list h l (ys ++ seg ++ zs) -> (length seg <= fuel)%nat -> (0 < fuel)%nat ->
  is_sorted less fuel (succ_in l (seg ++ zs)) (succ_in l zs) h
  = Ok (bool_decide (nruns less seg <= 1)%nat, h).
Proof.
  intros H Hf Hf0. unfold is_sorted. destruct seg as [|x seg].
  - simpl. by rewrite Z.eqb_refl.
  - rewrite (succ_in_ne _ _ _ _ H) by done.
    change (succ_in l ((x :: seg) ++ zs)) with x.
    rewrite (is_sorted_loop_ok h fuel seg ys x zs H) by (simpl in Hf; lia).
    f_equal. f_equal. apply bool_decide_ext. simpl. lia.
Qed.

(** Two lists over the same nodes: the relation between the heaps before and
    after a reordering. *)
Definition reorders (h h' : heap) (xs ys : list Z) : Prop :=
  is_list h' l ys /\ only (nodes l xs) h h' /\ xs ≡ₚ ys.

Lemma reorders_refl h xs : is_list h l xs -> reorders h h xs xs.
Proof. intros H. split_and!; [done|apply only_refl|done]. Qed.

Lemma reorders_trans h1 h2 h3 xs ys zs :
  reorders h1 h2 xs ys -> reorders h2 h3 ys zs -> reorders h1 h3 xs zs.
Proof.
  intros (_ & O1 & P1) (L2 & O2 & P2). split_and!; [done| |by etrans].
  eapply only_trans; [exact O1|]. eapply only_incl; [|exact O2].
  intros x. by rewrite (nodes_perm l xs ys P1).
Qed.

Lemma inplace_merge_loop_ok fuel : forall h ys A B zs,
  is_list h l (ys ++ A ++ B ++ zs) -> (length A + length B < fuel)%nat ->
  exists h',
    inplace_merge_loop less fuel (succ_in l (A ++ B ++ zs)) (succ_in l (B ++ zs))
      (succ_in l zs) h = Ok (tt, h') /\
    reorders h h' (ys ++ A ++ B ++ zs) (ys ++ merge less A B ++ zs).
Proof.
  induction fuel as [|fuel IH]; intros h ys A B zs H Hf; [lia|].
  cbn [inplace_merge_loop]. destruct A as [|a A].
  - rewrite Z.eqb_refl. exists h. split; [done|]. by apply reorders_refl.
  - rewrite (succ_in_ne h ys (a :: A) (B ++ zs) H) by done.
    destruct B as [|b B].
    + rewrite Z.eqb_refl. exists h. split; [done|]. by apply reorders_refl.
    + assert (is_list h l ((ys ++ a :: A) ++ (b :: B) ++ zs)) as H1
        by (by rewrite <- app_assoc).
      rewrite (succ_in_ne h _ (b :: B) zs H1) by done. cbn [negb andb].
      change (succ_in l ((a :: A) ++ (b :: B) ++ zs)) with a.
      change (succ_in l ((b :: B) ++ zs)) with b. cbn [merge].
      destruct (less b a) eqn:Hba; cbn [negb].
      * pose proof (list_next_ok h l (ys ++ a :: A) b (B ++ zs) H1) as Hn.
        rewrite (bind_ok _ _ _ _ _ Hn).
        assert (is_list h l ((ys ++ (a :: A) ++ [b]) ++ B ++ zs)) as H2
          by (by rewrite <- !app_assoc).
        rewrite (bind_ok _ _ _ _ _ (list_prev_ok _ _ _ _ H2)).
        assert (pred_in l (ys ++ (a :: A) ++ [b]) = b) as ->
          by (unfold pred_in; by rewrite app_assoc, last_snoc).
        destruct (list_splice_back h l ys A [b] (B ++ zs) a b H eq_refl)
          as (h1 & Hs & L1 & O1).
        rewrite (bind_ok _ _ _ _ _ Hs).
        assert (is_list h1 l ((ys ++ [b]) ++ (a :: A) ++ B ++ zs)) as L1'
          by (by rewrite <- app_assoc).
        destruct (IH h1 (ys ++ [b]) (a :: A) B zs L1') as (h2 & Hr & R);
          [simpl in *; lia|].
        exists h2. split; [exact Hr|].
        rewrite <- !(app_assoc ys) in R.
        apply (reorders_trans h h1 h2 _ (ys ++ [b] ++ (a :: A) ++ B ++ zs)); [|exact R].
        split_and!; [done|done|]. apply Permutation_app_head. symmetry.
        apply (Permutation_middle (a :: A)).
      * pose proof (list_next_ok h l ys a (A ++ (b :: B) ++ zs) H) as Hn.
        rewrite (bind_ok _ _ _ _ _ Hn).
        assert (is_list h l ((ys ++ [a]) ++ A ++ (b :: B) ++ zs)) as H2
          by (by rewrite <- !app_assoc).
        destruct (IH h (ys ++ [a]) A (b :: B) zs H2) as (h2 & Hr & R);
          [simpl in *; lia|].
        exists h2. split; [exact Hr|]. by rewrite <- !(app_assoc ys) in R.
Qed.

Lemma inplace_merge_ok fuel h ys A B zs :
  is_list h l (ys ++ A ++ B ++ zs) -> (length A + length B < fuel)%nat ->
  (nruns less A <= 1)%nat -> (nruns less B <= 1)%nat ->
  exists h',
    inplace_merge less fuel (succ_in l (A ++ B ++ zs)) (succ_in l (B ++ zs))
      (succ_in l zs) h = Ok (tt, h') /\
    reorders h h' (ys ++ A ++ B ++ zs) (ys ++ merge less A B ++ zs).
Proof.
  intros H Hf HA HB. unfold inplace_merge.
  assert (is_list h l ((ys ++ A) ++ B ++ zs)) as H1 by (by rewrite <- app_assoc).
  assert (is_list h l (((ys ++ A) ++ B) ++ zs)) as H2 by (by rewrite <- app_assoc).
  rewrite !bind_assert
    by (rewrite (proj2 (Z.eqb_neq _ _)); [done|by eapply succ_nonnull]).
  rewrite (bind_ok _ _ _ _ _ (is_sorted_ok h fuel ys A (B ++ zs) H ltac:(lia) ltac:(lia))).
  rewrite bind_assert by (by apply bool_decide_eq_true).
  rewrite (bind_ok _ _ _ _ _ (is_sorted_ok h fuel (ys ++ A) B zs H1 ltac:(lia) ltac:(lia))).
  rewrite bind_assert by (by apply bool_decide_eq_true).
  by apply inplace_merge_loop_ok.
Qed.

Lemma split_run_sorted x zs : descents less x (split_run less x zs).1 = 0%nat.
Proof.
  revert x. induction zs as [|z zs IH]; intros x; simpl; [done|].
  destruct (less z x) eqn:E; simpl; [done|]. by rewrite E, IH.
Qed.

Lemma split_run_length x zs :
  length zs = (length (split_run less x zs).1 + length (split_run less x zs).2)%nat.
Proof. rewrite (split_run_app x zs) at 1. apply length_app. Qed.

Lemma list_sort_pass_ok fuel : forall h ys zs cnt,
  is_list h l (ys ++ zs) -> (length zs < fuel)%nat ->
  0 <= cnt -> cnt + Z.of_nat (length zs) < 2 ^ 32 ->
  exists h' zs' c,
    list_sort_pass less fuel l (succ_in l zs) cnt h = Ok (cnt + Z.of_nat c, h') /\
    pass less zs zs' c /\ reorders h h' (ys ++ zs) (ys ++ zs').
Proof.
  induction fuel as [|fuel IH]; intros h ys zs cnt H Hf Hc0 Hc; [lia|].
  cbn [list_sort_pass]. rewrite (bind_ok _ _ _ _ _ (list_end_ok _ _ _ H)).
  destruct zs as [|x zs].
  - exists h, [], 0%nat. unfold succ_in. simpl. rewrite Z.eqb_refl, Z.add_0_r.
    split_and!; [done|constructor|]. by apply reorders_refl.
  - change (succ_in l (x :: zs)) with x. rewrite (elem_not_end _ _ _ _ _ H).
    simpl length in *. rewrite uwrap_id by lia.
    rewrite (bind_ok _ _ _ _ _ (list_end_ok _ _ _ H)).
    rewrite (bind_ok _ _ _ _ _ (find_end_of_run_ok h (S fuel) ys x zs H ltac:(lia))).
    rewrite (bind_ok _ _ _ _ _ (list_end_ok _ _ _ H)).
    pose proof (split_run_app x zs) as Hz. pose proof (split_run_sorted x zs) as Hs.
    pose proof (split_run_length x zs) as Hlen.
    destruct (split_run less x zs) as [r rest] eqn:Hsr. cbn [fst snd] in *.
    destruct rest as [|y s].
    + unfold succ_in at 1. simpl. rewrite Z.eqb_refl.
      exists h, (x :: r), 1%nat. split_and!; [done|by constructor|].
      rewrite app_nil_r in Hz. subst zs. by apply reorders_refl.
    + assert (is_list h l ((ys ++ x :: r) ++ y :: s)) as H1
        by (subst zs; by rewrite <- app_assoc).
      change (succ_in l (y :: s)) with y. rewrite (elem_not_end _ _ _ _ _ H1).
      rewrite (bind_ok _ _ _ _ _ (list_end_ok _ _ _ H)). simpl length in *.
      rewrite (bind_ok _ _ _ _ _
        (find_end_of_run_ok h (S fuel) (ys ++ x :: r) y s H1 ltac:(lia))).
      pose proof (split_run_app y s) as Hz2. pose proof (split_run_sorted y s) as Hs2.
      pose proof (split_run_length y s) as Hlen2.
      destruct (split_run less y s) as [r2 s2] eqn:Hsr2. cbn [fst snd] in *.
      assert (x :: zs = (x :: r) ++ (y :: r2) ++ s2) as Ez
        by (rewrite Hz, Hz2; done).
      rewrite Ez in H |- *.
      destruct (inplace_merge_ok (S fuel) h ys (x :: r) (y :: r2) s2 H)
        as (h1 & Hm & R1); [simpl; lia|simpl; lia|simpl; lia|].
      change (succ_in l ((x :: r) ++ (y :: r2) ++ s2)) with x in Hm.
      change (succ_in l ((y :: r2) ++ s2)) with y in Hm.
      rewrite (bind_ok _ _ _ _ _ Hm).
      destruct (IH h1 (ys ++ merge less (x :: r) (y :: r2)) s2 (cnt + 1))
        as (h2 & zs' & c & Hr & Hp & R2); [|lia..|].
      { rewrite <- app_assoc. apply R1. }
      exists h2, (merge less (x :: r) (y :: r2) ++ zs'), (S c). split_and!.
      * rewrite Hr. f_equal. f_equal. lia.
      * rewrite <- Ez. by econstructor.
      * eapply reorders_trans; [exact R1|]. by rewrite <- !app_assoc in R2.
Qed.

(** Number of runs before and after a pass. *)
Lemma split_run_descents x zs :
  descents less x zs = nruns less (split_run less x zs).2.
Proof.
  revert x. induction zs as [|z zs IH]; intros x; simpl; [done|].
  destruct (less z x) eqn:E; simpl; [done|]. apply IH.
Qed.

Lemma nruns_app xs ys : (nruns less (xs ++ ys) <= nruns less xs + nruns less ys)%nat.
Proof.
  destruct xs as [|x xs]; [done|]. simpl. apply le_n_S. revert x.
  induction xs as [|z xs IH]; intros x; simpl.
  - destruct ys as [|y ys]; simpl; [done|]. destruct (less y x); lia.
  - specialize (IH z). lia.
Qed.

Lemma pass_count xs ys c : pass less xs ys c -> (2 * c <= nruns less xs + 1)%nat.
Proof.
  induction 1 as [|x zs r Hr|x zs r y s r2 s2 ys c Hr1 Hr2 Hp IH]; simpl; [lia..|].
  rewrite (split_run_descents x), Hr1. simpl. rewrite (split_run_descents y), Hr2.
  simpl. lia.
Qed.
End Refine.

(** ** Correctness of the sort *)

(** [less] as the callers of list.c provide it: a strict weak order. *)
Class StrictWeakOrder (less : Z -> Z -> bool) : Prop := {
  less_asym : forall x y, less x y = true -> less y x = false;
  less_negtrans : forall x y z, less x y = false -> less y z = false -> less x z = false
}.

(** Nondecreasing with respect to [less]. *)
Definition nondecreasing (less : Z -> Z -> bool) (xs : list Z) : Prop :=
  StronglySorted (fun a b => less b a = false) xs.

Section SortCorrect.
Context (less : Z -> Z -> bool) `{!StrictWeakOrder less}.

(** A merge starts with the smaller of the two first elements. *)
Lemma merge_descents x xs y ys :
  descents less x xs = 0%nat -> descents less y ys = 0%nat ->
  nruns less (merge less (x :: xs) (y :: ys)) = 1%nat.
Proof.
  revert x y ys. induction xs as [|x' xs IHx]; intros x y ys.
  - revert y. induction ys as [|y' ys IHy]; intros y Hx Hy; cbn [merge].
    + destruct (less y x) eqn:E; simpl; [by rewrite (less_asym _ _ E)|by rewrite E].
    + simpl in Hy. destruct (less y' y) eqn:Ey; [lia|].
      specialize (IHy y' Hx Hy). cbn [merge] in IHy.
      destruct (less y x) eqn:E.
      * destruct (less y' x) eqn:E'; simpl in *; rewrite ?Ey; [lia|].
        rewrite (less_asym _ _ E). lia.
      * simpl. by rewrite E, Ey, Hy.
  - revert y. induction ys as [|y' ys IHy]; intros y Hx Hy.
    + simpl in Hx. destruct (less x' x) eqn:Ex; [lia|].
      specialize (IHx x' y [] Hx Hy). cbn [merge] in *.
      destruct (less y x) eqn:E.
      * simpl. by rewrite (less_asym _ _ E), Ex, Hx.
      * destruct (less y x') eqn:E'; simpl in *; rewrite ?E, ?Ex; lia.
    + pose proof Hx as Hx'. simpl in Hx. destruct (less x' x) eqn:Ex; [lia|].
      pose proof Hy as Hy'. simpl in Hy. destruct (less y' y) eqn:Ey; [lia|].
      specialize (IHy y' Hx' Hy). specialize (IHx x' y (y' :: ys) Hx Hy').
      cbn [merge] in *. destruct (less y x) eqn:E.
      * destruct (less y' x) eqn:E'; simpl in *; rewrite ?Ey; [lia|].
        rewrite (less_asym _ _ E). lia.
      * destruct (less y x') eqn:E'; simpl in *; rewrite ?E, ?Ex; lia.
Qed.

Lemma pass_runs xs ys c : pass less xs ys c -> (nruns less ys <= c)%nat.
Proof.
  induction 1 as [|x zs r Hr|x zs r y s r2 s2 ys c Hr1 Hr2 Hp IH]; [simpl; lia| |].
  - pose proof (split_run_sorted less x zs) as H. rewrite Hr in H. simpl in *. lia.
  - pose proof (split_run_sorted less x zs) as H1. rewrite Hr1 in H1.
    pose proof (split_run_sorted less y s) as H2. rewrite Hr2 in H2.
    etrans; [apply nruns_app|]. rewrite merge_descents by done. lia.
Qed.

Lemma passes_runs xs ys : passes less xs ys -> (nruns less ys <= 1)%nat.
Proof.
  induction 1 as [xs ys c Hp Hc|]; [|done]. pose proof (pass_runs _ _ _ Hp). lia.
Qed.

(** The pointer code terminates and performs [passes]. *)
Lemma list_sort_loop_ok l fuel inner : forall h xs,
  is_list h l xs -> (nruns less xs <= fuel)%nat -> (0 < fuel)%nat ->
  (length xs < inner)%nat -> Z.of_nat (length xs) < 2 ^ 32 ->
  exists h' ys, list_sort_loop less fuel inner l h = Ok (tt, h') /\
    passes less xs ys /\ reorders l h h' xs ys.
Proof.
  induction fuel as [|fuel IH]; intros h xs H Hr Hf0 Hi Hb; [lia|].
  cbn [list_sort_loop]. rewrite (bind_ok _ _ _ _ _ (list_begin_ok _ _ _ H)).
  destruct (list_sort_pass_ok less l inner h [] xs 0 H) as (h1 & ys & c & Hp & Hps & R);
    [lia..|].
  rewrite (bind_ok _ _ _ _ _ Hp). rewrite Z.add_0_l.
  pose proof (pass_count less _ _ _ Hps) as Hcnt. pose proof (pass_runs _ _ _ Hps) as Hrn.
  destruct R as (L1 & O1 & P1). simpl in L1, O1, P1.
  pose proof (Permutation_length P1) as Hl.
  destruct (Z.of_nat c >? 1) eqn:Ec.
  - destruct (IH h1 ys L1) as (h2 & zs & Hr2 & Hps2 & R2); [lia..|].
    exists h2, zs. split_and!; [done|eapply passes_more; [done|lia|done]|].
    by eapply reorders_trans.
  - exists h1, ys. split_and!; [done|eapply passes_done; [done|lia]|done..].
Qed.

Lemma list_sort_passes l fuel h xs :
  is_list h l xs -> (length xs < fuel)%nat -> Z.of_nat (length xs) < 2 ^ 32 ->
  exists h' ys, list_sort less fuel l h = Ok (tt, h') /\
    passes less xs ys /\ reorders l h h' xs ys.
Proof.
  intros H Hf Hb. unfold list_sort.
  rewrite bind_assert by (by rewrite (proj2 (Z.eqb_neq _ _) (list_nonnull _ _ _ H))).
  assert (nruns less xs <= length xs)%nat as Hr.
  { destruct xs as [|x xs]; [done|]. simpl. apply le_n_S. clear. revert x.
    induction xs as [|z xs IH]; intros x; simpl; [done|]. specialize (IH z).
    destruct (less z x); lia. }
  destruct (list_sort_loop_ok l fuel fuel h xs H) as (h' & ys & Hl & Hp & R); [lia..|].
  rewrite (bind_ok _ _ _ _ _ Hl). exists h', ys. split_and!; [|done..].
  destruct R as (L & O & P). pose proof (Permutation_length P) as Hlen.
  rewrite (bind_ok _ _ _ _ _ (list_begin_ok _ _ _ L)).
  rewrite (bind_ok _ _ _ _ _ (list_end_ok _ _ _ L)).
  assert (is_list h' l ([] ++ ys ++ [])) as L' by (by rewrite app_nil_r).
  pose proof (is_sorted_ok less l h' fuel [] ys [] L') as Hs.
  rewrite app_nil_r in Hs. rewrite (bind_ok _ _ _ _ _ (Hs ltac:(lia) ltac:(lia))).
  unfold assert. rewrite bool_decide_true; [done|]. by eapply passes_runs.
Qed.

(** A single run is sorted. *)
Lemma descents_nondecreasing x xs :
  descents less x xs = 0%nat -> nondecreasing less (x :: xs).
Proof.
  revert x. induction xs as [|y xs IH]; intros x Hd; [repeat constructor|].
  simpl in Hd. destruct (less y x) eqn:E; [lia|].
  specialize (IH y Hd). constructor; [done|]. constructor; [done|].
  inversion IH as [|? ? _ Hf]; subst. eapply Forall_impl; [exact Hf|].
  intros z Hz. by apply (less_negtrans z y x).
Qed.

Lemma nruns_nondecreasing xs : (nruns less xs <= 1)%nat -> nondecreasing less xs.
Proof.
  destruct xs; intros H; [constructor|]. apply descents_nondecreasing. simpl in H. lia.
Qed.

(** Elements that are neither less nor greater than [k]. *)
Definition equiv_to (k x : Z) : bool := negb (less x k) && negb (less k x).

Lemma equiv_filter_nil k b xs :
  equiv_to k b = true -> Forall (fun a => less b a = true) xs ->
  List.filter (equiv_to k) xs = [].
Proof.
  intros [Hb1%negb_true_iff Hb2%negb_true_iff]%andb_true_iff Hf.
  induction Hf as [|a xs Ha Hf IH]; [done|]. simpl.
  destruct (equiv_to k a) eqn:E; [|done]. exfalso.
  apply andb_true_iff in E as [E1%negb_true_iff E2%negb_true_iff].
  pose proof (less_negtrans _ _ _ Hb1 E2). congruence.
Qed.

Lemma merge_stable k xs : forall ys,
  nondecreasing less xs ->
  List.filter (equiv_to k) (merge less xs ys)
  = List.filter (equiv_to k) xs ++ List.filter (equiv_to k) ys.
Proof.
  induction xs as [|x xs IHx]; intros ys Hs; [done|].
  induction ys as [|y ys IHy]; [by rewrite app_nil_r|].
  cbn [merge]. destruct (less y x) eqn:E; cbn [List.filter].
  - cbn [merge] in IHy. rewrite IHy. destruct (equiv_to k y) eqn:Ek; [|done].
    assert (List.filter (equiv_to k) (x :: xs) = []) as Hnil;
      [|rewrite Hnil; cbn [List.filter] in Hnil; by rewrite Hnil].
    apply (equiv_filter_nil k y); [done|]. inversion Hs as [|? ? _ Hf]; subst. constructor; [done|].
    eapply Forall_impl; [exact Hf|]. intros a Ha. simpl in Ha.
    destruct (less y a) eqn:Ea; [done|].
    pose proof (less_negtrans _ _ _ Ea Ha). congruence.
  - rewrite IHx by (by inversion Hs). simpl. by destruct (equiv_to k x).
Qed.

Lemma pass_stable k xs ys c :
  pass less xs ys c -> List.filter (equiv_to k) ys = List.filter (equiv_to k) xs.
Proof.
  induction 1 as [|x zs r Hr|x zs r y s r2 s2 ys c Hr1 Hr2 Hp IH]; [done| |].
  - pose proof (split_run_app less x zs) as Hz. rewrite Hr in Hz. simpl in Hz.
    by rewrite app_nil_r in Hz; subst.
  - pose proof (split_run_app less x zs) as Hz. rewrite Hr1 in Hz.
    pose proof (split_run_app less y s) as Hz2. rewrite Hr2 in Hz2.
    pose proof (split_run_sorted less x zs) as Hd. rewrite Hr1 in Hd.
    rewrite List.filter_app, merge_stable, IH by (by apply descents_nondecreasing).
    simpl in Hz, Hz2. rewrite Hz, Hz2.
    change (x :: r ++ y :: r2 ++ s2) with ((x :: r) ++ (y :: r2) ++ s2).
    by rewrite !List.filter_app, <- app_assoc.
Qed.

Lemma passes_stable k xs ys :
  passes less xs ys -> List.filter (equiv_to k) ys = List.filter (equiv_to k) xs.
Proof.
  induction 1 as [xs ys c Hp _|xs ys zs c Hp _ _ IH]; [by eapply pass_stable|].
  rewrite IH. by eapply pass_stable.
Qed.
End SortCorrect.

(** ** Ordered insertion, duplicates, extrema *)

Section Others.
Context (less : Z -> Z -> bool) (l : Z).

Lemma list_insert_ordered_loop_ok h fuel e zs : forall ys,
  is_list h l (ys ++ zs) -> (length zs < fuel)%nat ->
  exists us vs, zs = us ++ vs /\ insert_ordered less e zs = us ++ e :: vs /\
    list_insert_ordered_loop less fuel l e (succ_in l zs) h = Ok (succ_in l vs, h).
Proof.
  revert fuel. induction zs as [|z zs IH]; intros fuel ys H Hf;
    (destruct fuel as [|fuel]; [simpl in Hf; lia|]); cbn [list_insert_ordered_loop];
    rewrite (bind_ok _ _ _ _ _ (list_end_ok _ _ _ H)).
  - exists [], []. unfold succ_in. simpl. by rewrite Z.eqb_refl.
  - change (succ_in l (z :: zs)) with z. rewrite (elem_not_end _ _ _ _ _ H).
    cbn [insert_ordered]. destruct (less e z) eqn:E; [by exists [], (z :: zs)|].
    rewrite (bind_ok _ _ _ _ _ (list_next_ok _ _ _ _ _ H)).
    destruct (IH fuel (ys ++ [z])) as (us & vs & -> & -> & Hr);
      [by rewrite <- app_assoc|simpl in Hf; lia|].
    exists (z :: us), vs. done.
Qed.

Lemma list_insert_ordered_ok h fuel e xs :
  is_list h l xs -> (length xs < fuel)%nat ->
  e ∉ nodes l xs -> e <> NULL -> is_Some (h !! e) ->
  exists h', list_insert_ordered less fuel l e h = Ok (tt, h') /\
    is_list h' l (insert_ordered less e xs) /\ only (e :: nodes l xs) h h'.
Proof.
  intros H Hf He Hn Hs. unfold list_insert_ordered.
  rewrite bind_assert by (by rewrite (proj2 (Z.eqb_neq _ _) (list_nonnull _ _ _ H))).
  rewrite bind_assert by (by rewrite (proj2 (Z.eqb_neq _ _) Hn)).
  rewrite (bind_ok _ _ _ _ _ (list_begin_ok _ _ _ H)).
  destruct (list_insert_ordered_loop_ok h fuel e xs [] H Hf) as (us & vs & -> & Hi & Hr).
  rewrite (bind_ok _ _ _ _ _ Hr), Hi. by apply list_insert_ok.
Qed.

Lemma insert_ordered_perm e xs : insert_ordered less e xs ≡ₚ e :: xs.
Proof.
  induction xs as [|x xs IH]; [done|]. simpl. destruct (less e x); [done|].
  rewrite IH. apply Permutation_swap.
Qed.

Lemma insert_ordered_sorted `{!StrictWeakOrder less} e xs :
  nondecreasing less xs -> nondecreasing less (insert_ordered less e xs).
Proof.
  induction 1 as [|x xs Hs IH Hf]; [repeat constructor|]. simpl.
  destruct (less e x) eqn:E.
  - constructor; [by constructor|]. constructor; [by apply less_asym|].
    eapply Forall_impl; [exact Hf|]. intros z Hz. simpl in Hz.
    destruct (less z e) eqn:Ez; [|done]. exfalso.
    pose proof (less_negtrans _ _ _ (less_asym _ _ Ez) Hz). congruence.
  - constructor; [done|]. rewrite insert_ordered_perm. by constructor.
Qed.

(** [list_unique] without a list for the duplicates. *)
Lemma list_unique_loop_null h fuel zs : forall ys x,
  is_list h l (ys ++ x :: zs) -> (length zs < fuel)%nat ->
  exists h', list_unique_loop less fuel l NULL x h = Ok (tt, h') /\
    is_list h' l (ys ++ x :: (unique_after less x zs).1) /\
    only (nodes l (ys ++ x :: zs)) h h'.
Proof.
  revert fuel h. induction zs as [|z zs IH]; intros fuel h ys x H Hf;
    (destruct fuel as [|fuel]; [simpl in Hf; lia|]); cbn [list_unique_loop];
    rewrite (bind_ok _ _ _ _ _ (list_next_ok _ _ _ _ _ H));
    rewrite (bind_ok _ _ _ _ _ (list_end_ok _ _ _ H)).
  - exists h. unfold succ_in. simpl. rewrite Z.eqb_refl.
    split_and!; [done..|apply only_refl].
  - change (succ_in l (z :: zs)) with z.
    assert (is_list h l ((ys ++ [x]) ++ z :: zs)) as H' by (by rewrite <- app_assoc).
    rewrite (elem_not_end _ _ _ _ _ H'). cbn [unique_after].
    destruct (negb (less x z) && negb (less z x)) eqn:E.
    + destruct (list_remove_ok _ _ _ _ _ H') as (h1 & Hr & L1 & O1).
      rewrite (bind_ok _ _ _ _ _ Hr). cbn [NULL Z.eqb negb]. rewrite bind_ret.
      rewrite <- app_assoc in L1, O1. simpl in L1, O1.
      destruct (IH fuel h1 ys x L1) as (h2 & Hr2 & L2 & O2); [simpl in Hf; lia|].
      exists h2. split_and!; [done|done|].
      assert (forall p, p ∈ nodes l (ys ++ x :: zs) -> p ∈ nodes l (ys ++ x :: z :: zs))
        as Hincl by (intros p; unfold nodes; rewrite !elem_of_cons, !elem_of_app, !elem_of_cons; tauto).
      eapply only_trans; [eapply only_incl, O1|eapply only_incl, O2]; done.
    + destruct (IH fuel h (ys ++ [x]) z H') as (h2 & Hr2 & L2 & O2); [simpl in Hf; lia|].
      rewrite <- app_assoc in L2, O2. exists h2. split_and!; done.
Qed.

(** [list_unique] with a list [d] that receives the duplicates. *)
Lemma list_unique_loop_dup d h fuel zs : forall ys x ds,
  is_list h l (ys ++ x :: zs) -> is_list h d ds ->
  (forall p, p ∈ nodes l (ys ++ x :: zs) -> p ∉ nodes d ds) ->
  (length zs < fuel)%nat ->
  exists h', list_unique_loop less fuel l d x h = Ok (tt, h') /\
    is_list h' l (ys ++ x :: (unique_after less x zs).1) /\
    is_list h' d (ds ++ (unique_after less x zs).2).
Proof.
  revert fuel h. induction zs as [|z zs IH]; intros fuel h ys x ds H Hd Hdis Hf;
    (destruct fuel as [|fuel]; [simpl in Hf; lia|]); cbn [list_unique_loop];
    rewrite (bind_ok _ _ _ _ _ (list_next_ok _ _ _ _ _ H));
    rewrite (bind_ok _ _ _ _ _ (list_end_ok _ _ _ H)).
  - exists h. unfold succ_in. simpl. rewrite Z.eqb_refl, app_nil_r. done.
  - change (succ_in l (z :: zs)) with z.
    assert (is_list h l ((ys ++ [x]) ++ z :: zs)) as H' by (by rewrite <- app_assoc).
    rewrite (elem_not_end _ _ _ _ _ H'). cbn [unique_after].
    destruct (negb (less x z) && negb (less z x)) eqn:E.
    + assert (forall p, p ∈ nodes l (ys ++ x :: z :: zs) <->
                p = z \/ p ∈ nodes l (ys ++ x :: zs)) as Hn
        by (intros p; unfold nodes; rewrite !elem_of_cons, !elem_of_app, !elem_of_cons; tauto).
      assert (z ∉ nodes l (ys ++ x :: zs)) as Hz.
      { pose proof (is_list_seg_nodup h l (ys ++ [x]) [z] zs H') as (_ & _ & Hq & _).
        rewrite <- app_assoc in Hq. apply Hq. by left. }
      pose proof (cell_at _ _ _ _ _ H') as Hcz.
      pose proof (node_nonnull _ _ _ z H (proj2 (Hn z) (or_introl eq_refl))) as Hzn.
      destruct (list_remove_ok _ _ _ _ _ H') as (h1 & Hr & L1 & O1).
      rewrite (bind_ok _ _ _ _ _ Hr).
      rewrite (proj2 (Z.eqb_neq _ _) (list_nonnull _ _ _ Hd)). cbn [negb].
      rewrite <- app_assoc in L1, O1. simpl in L1, O1.
      assert (is_list h1 d ds) as Hd1.
      { eapply is_list_only; [exact O1| |done]. intros p Hp Hp'.
        apply (Hdis p); [|done]. apply Hn. by right. }
      destruct (list_push_back_ok h1 d ds z Hd1) as (h2 & Hr2 & L2 & O2).
      { apply Hdis, Hn. by left. } { done. } { rewrite O1 by done. eauto. }
      rewrite (bind_ok _ _ _ _ _ Hr2).
      assert (is_list h2 l (ys ++ x :: zs)) as Hl2.
      { eapply is_list_only; [exact O2| |done]. intros p Hp [->|Hp']%elem_of_cons; [done|].
        apply (Hdis p); [|done]. apply Hn. by right. }
      destruct (IH fuel h2 ys x (ds ++ [z]) Hl2 L2) as (h3 & Hr3 & L3 & L4).
      * intros p Hp Hp'. unfold nodes in Hp'.
        rewrite elem_of_cons, !elem_of_app, !list_elem_of_singleton in Hp'.
        assert (p = z \/ p ∈ nodes d ds) as [->|Hpd]
          by (unfold nodes; rewrite elem_of_cons, elem_of_app, list_elem_of_singleton; tauto);
          [done|]. apply (Hdis p); [|done]. apply Hn. by right.
      * simpl in Hf. lia.
      * exists h3. rewrite <- app_assoc in L4. done.
    + destruct (IH fuel h (ys ++ [x]) z ds H' Hd) as (h2 & Hr2 & L2 & L3);
        [by rewrite <- app_assoc|simpl in Hf; lia|].
      rewrite <- app_assoc in L2. exists h2. split_and!; done.
Qed.

Lemma list_max_loop_ok h fuel zs : forall ys m,
  is_list h l (ys ++ zs) -> (length zs < fuel)%nat ->
  list_max_loop less fuel l m (succ_in l zs) h = Ok (max_from less m zs, h).
Proof.
  revert fuel. induction zs as [|z zs IH]; intros fuel ys m H Hf;
    (destruct fuel as [|fuel]; [simpl in Hf; lia|]); cbn [list_max_loop];
    rewrite (bind_ok _ _ _ _ _ (list_end_ok _ _ _ H)).
  - unfold succ_in. simpl. by rewrite Z.eqb_refl.
  - change (succ_in l (z :: zs)) with z. rewrite (elem_not_end _ _ _ _ _ H).
    rewrite (bind_ok _ _ _ _ _ (list_next_ok _ _ _ _ _ H)).
    apply (IH fuel (ys ++ [z])); [by rewrite <- app_assoc|simpl in Hf; lia].
Qed.

Lemma list_min_loop_ok h fuel zs : forall ys m,
  is_list h l (ys ++ zs) -> (length zs < fuel)%nat ->
  list_min_loop less fuel l m (succ_in l zs) h = Ok (min_from less m zs, h).
Proof.
  revert fuel. induction zs as [|z zs IH]; intros fuel ys m H Hf;
    (destruct fuel as [|fuel]; [simpl in Hf; lia|]); cbn [list_min_loop];
    rewrite (bind_ok _ _ _ _ _ (list_end_ok _ _ _ H)).
  - unfold succ_in. simpl. by rewrite Z.eqb_refl.
  - change (succ_in l (z :: zs)) with z. rewrite (elem_not_end _ _ _ _ _ H).
    rewrite (bind_ok _ _ _ _ _ (list_next_ok _ _ _ _ _ H)).
    apply (IH fuel (ys ++ [z])); [by rewrite <- app_assoc|simpl in Hf; lia].
Qed.

Lemma list_max_min_ok h fuel x xs :
  is_list h l (x :: xs) -> (length xs < fuel)%nat ->
  list_max less fuel l h = Ok (max_from less x xs, h) /\
  list_min less fuel l h = Ok (min_from less x xs, h).
Proof.
  intros H Hf. unfold list_max, list_min.
  rewrite !(bind_ok _ _ _ _ _ (list_begin_ok _ _ _ H)).
  rewrite !(bind_ok _ _ _ _ _ (list_end_ok _ _ _ H)).
  change (succ_in l (x :: xs)) with x. rewrite (elem_not_end h l [] x xs H). cbn [negb].
  rewrite !(bind_ok _ _ _ _ _ (list_next_ok h l [] x xs H)).
  split; [by apply (list_max_loop_ok h fuel xs [x])|by apply (list_min_loop_ok h fuel xs [x])].
Qed.

Lemma max_from_spec `{!StrictWeakOrder less} zs : forall m,
  exists us vs, m :: zs = us ++ max_from less m zs :: vs /\
    Forall (fun u => less u (max_from less m zs) = true) us /\
    Forall (fun v => less (max_from less m zs) v = false) vs.
Proof.
  induction zs as [|z zs IH] using rev_ind; intros m.
  - exists [], []. by repeat constructor.
  - destruct (IH m) as (us & vs & E & Hu & Hv). unfold max_from in *.
    rewrite fold_left_app. simpl. set (k := fold_left _ zs m) in *.
    destruct (less k z) eqn:Ek.
    + exists (m :: zs), []. split_and!; [done| |constructor].
      rewrite E. apply Forall_app. split; [|constructor].
      * eapply Forall_impl; [exact Hu|]. intros u Hk. simpl in Hk.
        destruct (less u z) eqn:Ez; [done|].
        pose proof (less_negtrans _ _ _ Ez (less_asym _ _ Ek)). congruence.
      * done.
      * eapply Forall_impl; [exact Hv|]. intros v Hk. simpl in Hk.
        destruct (less v z) eqn:Ez; [done|].
        pose proof (less_negtrans _ _ _ Hk Ez). congruence.
    + exists us, (vs ++ [z]). split_and!; [|done|].
      * rewrite app_comm_cons, E, <- app_assoc. done.
      * apply Forall_app. by repeat constructor.
Qed.
End Others.
