(* ===== verification/ListTheorems.v ===== *)
(** * The kernel's doubly linked lists: theorems

    What list.c promises to its clients, stated on the pointer code: each
    operation terminates without an assertion failure on a well-formed list
    and refines the operation on sequences; sequences of operations refine
    sequences of operations of an abstract deque. *)

From Stdlib Require Import Sorted.
From S2P Require Import Prelude ListDef ListSpec ListSort.

(** ** A concrete heap, for the examples *)

(** The heap in which the nodes [ns] are linked in order. *)
Fixpoint link (p : Z) (ns : list Z) : heap :=
  match ns with
  | [] => ∅
  | x :: r => <[x := Elem p (default NULL (head r))]> (link x r)
  end.

Lemma link_cells p ns : NoDup ns -> cells (link p ns) p ns NULL.
Proof.
  revert p. induction ns as [|x r IH]; intros p; [done|].
  intros [Hx Hr]%NoDup_cons. cbn [cells link]. rewrite lookup_insert_eq. split; [done|].
  apply cells_insert; [done|]. by apply IH.
Qed.

Lemma link_is_list l xs :
  bool_decide (NoDup (nodes l xs) /\ NULL ∉ nodes l xs) = true ->
  is_list (link NULL (nodes l xs)) l xs.
Proof.
  intros [Hn H0]%bool_decide_eq_true. split; [done..|]. by apply link_cells.
Qed.

(** Comparison of elements by the value stored after them, here a function of
    the address. *)
Definition by_value (value : Z -> Z) (a b : Z) : bool := value a <? value b.

#[export] Instance by_value_order value : StrictWeakOrder (by_value value).
Proof. split; unfold by_value; intros; rewrite ?Z.ltb_lt, ?Z.ltb_ge in *; lia. Qed.

Lemma less_flip_order less :
  StrictWeakOrder less -> StrictWeakOrder (fun a b => less b a).
Proof.
  intros [Ha Hn]. split; [intros x y; apply Ha|]. intros x y z H1 H2.
  exact (Hn z y x H2 H1).
Qed.

(** ** An abstract deque *)

Inductive cmd : Set :=
| PushFront (e : Z) | PushBack (e : Z) | PopFront | PopBack
| Remove (e : Z) | InsertOrdered (e : Z) | Reverse | Size.

Section Deque.
Context (less : Z -> Z -> bool) (fuel : nat) (l : Z).

(** The commands as calls of list.c; the result is 0 for a call that returns
    nothing. *)
Definition exec_cmd (c : cmd) : M heap Z :=
  match c with
  | PushFront e => list_push_front l e;;; ret 0
  | PushBack e => list_push_back l e;;; ret 0
  | PopFront => list_pop_front l
  | PopBack => list_pop_back l
  | Remove e => list_remove e;;; ret 0
  | InsertOrdered e => list_insert_ordered less fuel l e;;; ret 0
  | Reverse => list_reverse fuel l;;; ret 0
  | Size => list_size fuel l
  end.

Fixpoint exec_cmds (cs : list cmd) : M heap (list Z) :=
  match cs with
  | [] => ret []
  | c :: cs => r <- exec_cmd c;; rs <- exec_cmds cs;; ret (r :: rs)
  end.

(** The same commands on a sequence.  Inserting an element that is already
    in the list, or removing one that is not, is a caller's error. *)
Definition spec_cmd (c : cmd) (xs : list Z) : res (Z * list Z) :=
  match c with
  | PushFront e => if decide (e ∈ xs) then Fault else Ok (0, e :: xs)
  | PushBack e => if decide (e ∈ xs) then Fault else Ok (0, xs ++ [e])
  | InsertOrdered e => if decide (e ∈ xs) then Fault else Ok (0, insert_ordered less e xs)
  | Remove e => if decide (e ∈ xs) then Ok (0, List.filter (fun x => negb (x =? e)) xs) else Fault
  | PopFront => match xs with [] => Panic | x :: r => Ok (x, r) end
  | PopBack => match last xs with None => Panic | Some x => Ok (x, removelast xs) end
  | Reverse => Ok (0, rev xs)
  | Size => Ok (Z.of_nat (length xs), xs)
  end.

Fixpoint spec_cmds (cs : list cmd) (xs : list Z) : res (list Z * list Z) :=
  match cs with
  | [] => Ok ([], xs)
  | c :: cs =>
      p <-! spec_cmd c xs;; q <-! spec_cmds cs p.2;; Ok (p.1 :: q.1, q.2)
  end.

(** The elements that commands may insert: allocated, and none of the list's
    own sentinels. *)
Definition pool_ok (pool : list Z) (h : heap) : Prop :=
  forall e, e ∈ pool ->
    e <> NULL /\ e <> head_of l /\ e <> tail_of l /\ is_Some (h !! e).

Definition inserted (c : cmd) : list Z :=
  match c with PushFront e | PushBack e | InsertOrdered e => [e] | _ => [] end.

Lemma pool_only pool h h' ps xs :
  pool_ok pool h -> only ps h h' -> (forall p, p ∈ ps -> p ∈ nodes l xs) ->
  is_list h' l xs -> pool_ok pool h'.
Proof.
  intros Hp Ho Hi L e He. destruct (Hp e He) as (H1 & H2 & H3 & H4).
  split_and!; try done. destruct (decide (e ∈ nodes l xs)) as [Hin|Hin].
  - destruct L as [_ _ Hc]. by destruct (cells_lookup _ _ _ _ _ Hc Hin) as [? ->].
  - rewrite Ho; [done|]. auto.
Qed.

Lemma fresh_node pool h xs e :
  pool_ok pool h -> e ∈ pool -> e ∉ xs ->
  e ∉ nodes l xs /\ e <> NULL /\ is_Some (h !! e).
Proof.
  intros Hp He Hx. destruct (Hp e He) as (H1 & H2 & H3 & H4). split_and!; [|done..].
  unfold nodes. rewrite elem_of_cons, elem_of_app, list_elem_of_singleton. tauto.
Qed.

Lemma filter_absent e xs : e ∉ xs -> List.filter (fun x => negb (x =? e)) xs = xs.
Proof.
  induction xs as [|x xs IH]; [done|]. rewrite elem_of_cons. intros H. simpl.
  destruct (Z.eqb_spec x e); [subst; tauto|]. simpl. rewrite IH; [done|tauto].
Qed.

Lemma removelast_snoc (xs : list Z) x : removelast (xs ++ [x]) = xs.
Proof. rewrite removelast_app by done. simpl. apply app_nil_r. Qed.

Lemma elem_nodes p xs : p ∈ nodes l xs <-> p = head_of l \/ p ∈ xs \/ p = tail_of l.
Proof. unfold nodes. by rewrite elem_of_cons, elem_of_app, list_elem_of_singleton. Qed.

Definition steps_to pool (c : cmd) (h : heap) (r : Z) (xs ys : list Z) : Prop :=
  exists h', exec_cmd c h = Ok (r, h') /\ is_list h' l ys /\ pool_ok pool h' /\
    (length ys <= S (length xs))%nat.

(** The three insertions. *)
Lemma insert_steps pool h e c (m : M heap unit) xs ys :
  is_list h l xs -> pool_ok pool h -> e ∈ pool -> e ∉ xs ->
  exec_cmd c = (m;;; ret 0) -> ys ≡ₚ e :: xs ->
  (e ∉ nodes l xs -> e <> NULL -> is_Some (h !! e) ->
   exists h', m h = Ok (tt, h') /\ is_list h' l ys /\ only (e :: nodes l xs) h h') ->
  steps_to pool c h 0 xs ys.
Proof.
  intros L Hp He Hx Ec Hperm Hm.
  destruct (fresh_node _ _ _ _ Hp He Hx) as (F1 & F2 & F3).
  destruct (Hm F1 F2 F3) as (h' & Hr & L' & O'). exists h'. split_and!; [|done| |].
  - rewrite Ec. by rewrite (bind_ok _ _ _ _ _ Hr).
  - eapply pool_only; [done|exact O'| |done]. intros p.
    rewrite elem_of_cons, !elem_nodes, Hperm, elem_of_cons. tauto.
  - by rewrite Hperm.
Qed.

(** One command, when the specification returns. *)
Lemma exec_cmd_ok pool h c xs r ys :
  is_list h l xs -> pool_ok pool h -> (forall e, e ∈ inserted c -> e ∈ pool) ->
  (length xs < fuel)%nat -> Z.of_nat (length xs) < 2 ^ 32 ->
  spec_cmd c xs = Ok (r, ys) -> steps_to pool c h r xs ys.
Proof.
  intros L Hp Hi Hf Hb Hs. destruct c as [e|e| | |e|e| |]; simpl in Hi, Hs;
    repeat case_decide; simplify_eq.
  - eapply insert_steps; eauto using list_push_front_ok, list_elem_of_here.
  - eapply insert_steps; eauto using list_push_back_ok, list_elem_of_here.
    by rewrite Permutation_app_comm.
  - destruct xs; simplify_eq. destruct (list_pop_front_ok _ _ _ _ L) as (h' & Hr & L' & O').
    exists h'. split_and!; [done..| |simpl; lia]. by eapply pool_only.
  - destruct (last xs) as [x|] eqn:E; simplify_eq. apply last_Some in E as [zs ->].
    rewrite removelast_snoc. destruct (list_pop_back_ok _ _ _ _ L) as (h' & Hr & L' & O').
    exists h'. rewrite length_app. split_and!; [done..| |simpl; lia]. by eapply pool_only.
  - apply list_elem_of_split in H as (us & vs & ->).
    destruct (list_remove_ok _ _ _ _ _ L) as (h' & Hr & L' & O').
    destruct L as [Hnd _ _]. apply nodes_ends in Hnd as (_ & _ & _ & Hnd).
    apply NoDup_app_cons_not in Hnd as [H1 H2].
    rewrite List.filter_app. simpl. rewrite Z.eqb_refl. simpl. rewrite !filter_absent by done.
    exists h'. rewrite !length_app. split_and!; [|done| |simpl; lia].
    + simpl. by rewrite (bind_ok _ _ _ _ _ Hr).
    + by eapply pool_only.
  - eapply insert_steps; eauto using list_insert_ordered_ok, list_elem_of_here.
    apply insert_ordered_perm.
  - destruct (list_reverse_ok _ _ _ _ L Hf) as (h' & Hr & L' & O').
    exists h'. rewrite length_rev. split_and!; [|done| |lia].
    + simpl. by rewrite (bind_ok _ _ _ _ _ Hr).
    + eapply pool_only; [done|done| |done]. intros p. rewrite !elem_nodes.
      by rewrite <- (Permutation_rev xs).
  - exists h. split_and!; [by apply list_size_ok|done..|lia].
Qed.

Lemma spec_cmd_panic h c xs :
  is_list h l xs -> spec_cmd c xs = Panic -> exec_cmd c h = Panic.
Proof.
  intros L. destruct c; simpl; repeat case_decide; try done.
  - destruct xs; [|done]. by destruct (list_pop_empty _ _ L).
  - destruct (last xs) eqn:E; [done|]. apply last_None in E as ->.
    by destruct (list_pop_empty _ _ L).
Qed.

(** What a run of the abstract deque says about the run of list.c. *)
Definition agrees (h : heap) (cs : list cmd) (r : res (list Z * list Z)) : Prop :=
  match r with
  | Ok (rs, ys) => exists h', exec_cmds cs h = Ok (rs, h') /\ is_list h' l ys
  | Panic => exec_cmds cs h = Panic
  | _ => True
  end.

Lemma exec_cmds_agrees pool cs : forall h xs,
  is_list h l xs -> pool_ok pool h ->
  (forall c e, c ∈ cs -> e ∈ inserted c -> e ∈ pool) ->
  (length xs + length cs < fuel)%nat -> Z.of_nat (length xs + length cs) < 2 ^ 32 ->
  agrees h cs (spec_cmds cs xs).
Proof.
  induction cs as [|c cs IH]; intros h xs L Hp Hi Hf Hb; simpl in *; [eauto|].
  destruct (spec_cmd c xs) as [[r ys]| | |] eqn:Hs; simpl; try done.
  - destruct (exec_cmd_ok pool h c xs r ys) as (h' & Hr & L' & Hp' & Hl);
      [done|done|intros e He; apply (Hi c e); [by left|done]|lia|lia|done|].
    assert (agrees h' cs (spec_cmds cs ys)) as HI.
    { apply IH; [done|done| |lia|lia]. intros c' e Hc'. apply Hi. by right. }
    revert HI. unfold agrees. destruct (spec_cmds cs ys) as [[rs zs]| | |]; simpl; try done.
    + intros (h2 & Hr2 & L2). exists h2. split; [|done].
      by rewrite (bind_ok _ _ _ _ _ Hr), (bind_ok _ _ _ _ _ Hr2).
    + intros Hr2. rewrite (bind_ok _ _ _ _ _ Hr). unfold bind. by rewrite Hr2.
  - unfold bind. by rewrite (spec_cmd_panic _ _ _ L Hs).
Qed.
End Deque.

(** ** Theorems *)

(** C10: [list_sort] terminates (more fuel than elements is enough), never fails
    one of its assertions, and leaves in place a well-formed list that is a
    permutation of the original, nondecreasing, and stable: elements that
    compare equal keep their order.  No cell outside the list is written. *)
Theorem list_sort_correct (less : Z -> Z -> bool) `{!StrictWeakOrder less}
    (l : Z) (fuel : nat) (h : heap) (xs : list Z) :
  is_list h l xs -> (length xs < fuel)%nat -> Z.of_nat (length xs) < 2 ^ 32 ->
  exists h' ys, list_sort less fuel l h = Ok (tt, h') /\ is_list h' l ys /\
    ys ≡ₚ xs /\ nondecreasing less ys /\
    (forall k, List.filter (equiv_to less k) ys = List.filter (equiv_to less k) xs) /\
    only (nodes l xs) h h'.
Proof.
  intros L Hf Hb. destruct (list_sort_passes less l fuel h xs L Hf Hb) as (h' & ys & Hr & Hp & R).
  exists h', ys. destruct R as (L' & Hperm & O). split_and!; try done.
  - eapply nruns_nondecreasing; [done|]. by eapply passes_runs.
  - intros k. by apply passes_stable.
Qed.

(** C9: a program of list.c calls (push, pop, remove, ordered insertion,
    reversal, size) on one list returns what the same program returns on an
    abstract deque, and the heap then represents the deque's contents; a pop
    from an empty deque is a kernel panic. *)
Theorem list_program_refines (less : Z -> Z -> bool) (fuel : nat) (l : Z)
    (pool : list Z) (cs : list cmd) (h : heap) (xs : list Z) :
  is_list h l xs -> pool_ok l pool h ->
  (forall c e, c ∈ cs -> e ∈ inserted c -> e ∈ pool) ->
  (length xs + length cs < fuel)%nat -> Z.of_nat (length xs + length cs) < 2 ^ 32 ->
  agrees less fuel l h cs (spec_cmds less cs xs).
Proof. apply exec_cmds_agrees. Qed.

(** [list_splice] moves a nonempty range of one list in front of an element
    (or the end) of another list and leaves both lists well formed; within one list it exchanges two adjacent ranges. *)
Theorem list_splice_moves (h : heap) (l1 l2 : Z) (ys ws zs ys2 zs2 : list Z) (w : Z) :
  is_list h l1 (ys ++ (w :: ws) ++ zs) -> is_list h l2 (ys2 ++ zs2) ->
  (forall x, x ∈ nodes l1 (ys ++ (w :: ws) ++ zs) -> x ∉ nodes l2 (ys2 ++ zs2)) ->
  (exists h', list_splice (succ_in l2 zs2) w (succ_in l1 zs) h = Ok (tt, h') /\
     is_list h' l1 (ys ++ zs) /\ is_list h' l2 (ys2 ++ (w :: ws) ++ zs2)) /\
  (forall ys' y ys'', ys = ys' ++ y :: ys'' ->
     exists h', list_splice y w (succ_in l1 zs) h = Ok (tt, h') /\
       is_list h' l1 (ys' ++ (w :: ws) ++ (y :: ys'') ++ zs)).
Proof.
  intros L1 L2 Hd. split.
  - destruct (list_splice_other h l1 l2 ys (w :: ws) zs ys2 zs2 w L1 L2 Hd eq_refl)
      as (h' & Hr & L1' & L2' & _). eauto.
  - intros ys' y ys'' ->. rewrite <- app_assoc in L1.
    destruct (list_splice_back h l1 ys' ys'' (w :: ws) zs y w L1 eq_refl)
      as (h' & Hr & L' & _). eauto.
Qed.

(** [list_unique] keeps the first element of every maximal group of
    adjacent equivalent elements and moves the others, in order, to the end of
    the list of duplicates. *)
Theorem list_unique_correct (less : Z -> Z -> bool) (l d : Z) (fuel : nat)
    (h : heap) (x : Z) (xs ds : list Z) :
  is_list h l (x :: xs) -> is_list h d ds ->
  (forall p, p ∈ nodes l (x :: xs) -> p ∉ nodes d ds) -> (length xs < fuel)%nat ->
  exists h', list_unique less fuel l d h = Ok (tt, h') /\
    is_list h' l (x :: (unique_after less x xs).1) /\
    is_list h' d (ds ++ (unique_after less x xs).2).
Proof.
  intros L D Hd Hf. unfold list_unique.
  rewrite bind_assert by (by rewrite (proj2 (Z.eqb_neq _ _) (list_nonnull _ _ _ L))).
  rewrite (bind_ok _ _ _ _ _ (list_empty_ok _ _ _ L)). cbn [bool_decide].
  rewrite bool_decide_false by done.
  rewrite (bind_ok _ _ _ _ _ (list_begin_ok _ _ _ L)).
  by apply (list_unique_loop_dup less l d h fuel xs [] x ds).
Qed.

(** On a nonempty list, [list_max] returns the first of the greatest
    elements and [list_min] the first of the least ones; neither changes the
    heap. *)
Theorem list_extrema_correct (less : Z -> Z -> bool) `{!StrictWeakOrder less}
    (l : Z) (fuel : nat) (h : heap) (x : Z) (xs : list Z) :
  is_list h l (x :: xs) -> (length xs < fuel)%nat ->
  exists max min us vs us' vs',
    list_max less fuel l h = Ok (max, h) /\ list_min less fuel l h = Ok (min, h) /\
    x :: xs = us ++ max :: vs /\
    Forall (fun u => less u max = true) us /\ Forall (fun v => less max v = false) vs /\
    x :: xs = us' ++ min :: vs' /\
    Forall (fun u => less min u = true) us' /\ Forall (fun v => less v min = false) vs'.
Proof.
  intros L Hf. destruct (list_max_min_ok less l h fuel x xs L Hf) as [Hmax Hmin].
  pose proof (less_flip_order less _) as Hfl.
  destruct (max_from_spec less xs x) as (us & vs & E & Hu & Hv).
  destruct (max_from_spec (fun a b => less b a) xs x) as (us' & vs' & E' & Hu' & Hv').
  change (max_from (fun a b => less b a) x xs) with (min_from less x xs) in *.
  exists (max_from less x xs), (min_from less x xs), us, vs, us', vs'. done.
Qed.

(** ** Examples *)

Lemma list_sort_correct_witness :
  exists h' ys, list_sort (by_value (fun e => (- e) mod 7)) 4 8
      (link NULL (nodes 8 [40; 48; 64])) = Ok (tt, h') /\
    is_list h' 8 ys /\ ys ≡ₚ [40; 48; 64].
Proof.
  destruct (list_sort_correct (by_value (fun e => (- e) mod 7)) 8 4
    (link NULL (nodes 8 [40; 48; 64])) [40; 48; 64]) as (h' & ys & Hr & L & Hp & _).
  - apply link_is_list. vm_compute. reflexivity.
  - simpl. lia.
  - simpl. lia.
  - exists h', ys. exact (conj Hr (conj L Hp)).
Defined.

Lemma list_program_refines_witness :
  agrees (by_value id) 10 8 (<[40 := Elem 0 0]> (link NULL (nodes 8 [48; 64])))
    [PushFront 40; Remove 48; Reverse; PopFront; Size; PopBack; PopBack]
    (spec_cmds (by_value id)
       [PushFront 40; Remove 48; Reverse; PopFront; Size; PopBack; PopBack] [48; 64]) /\
  spec_cmds (by_value id)
    [PushFront 40; Remove 48; Reverse; PopFront; Size; PopBack] [48; 64]
  = Ok ([0; 0; 0; 64; 1; 40], []).
Proof.
  split; [|reflexivity].
  apply (list_program_refines (by_value id) 10 8 [40]).
  - split; [by_compute..|]. apply cells_insert.
    + by_compute.
    + apply (il_cells _ _ _ (link_is_list 8 [48; 64] eq_refl)).
  - intros e ->%list_elem_of_singleton. split_and!; [done..|]. by rewrite lookup_insert_eq.
  - intros c e Hc He. rewrite !elem_of_cons, elem_of_nil in Hc.
    destruct_or! Hc; subst; simpl in He; set_solver.
  - simpl. lia.
  - simpl. lia.
Defined.

(** Two lists in one heap. *)
Definition two_lists : heap := link NULL (nodes 8 [40; 48; 64]) ∪ link NULL (nodes 80 [96]).

Lemma two_lists_fst : is_list two_lists 8 [40; 48; 64].
Proof. split; [by_compute..|]. by repeat split. Qed.

Lemma two_lists_snd : is_list two_lists 80 [96].
Proof. split; [by_compute..|]. by repeat split. Qed.

Lemma two_lists_disjoint x : x ∈ nodes 8 [40; 48; 64] -> x ∉ nodes 80 [96].
Proof.
  revert x. assert (Forall (fun x => x ∉ nodes 80 [96]) (nodes 8 [40; 48; 64])) as H
    by by_compute.
  by rewrite Forall_forall in H.
Qed.

Lemma list_splice_moves_witness :
  exists h', list_splice 96 48 (tail_of 8) two_lists = Ok (tt, h') /\
    is_list h' 8 [40] /\ is_list h' 80 [48; 64; 96].
Proof.
  destruct (list_splice_moves two_lists 8 80 [40] [64] [] [] [96] 48) as [H _].
  - exact two_lists_fst.
  - exact two_lists_snd.
  - exact two_lists_disjoint.
  - exact H.
Defined.

Lemma list_unique_correct_witness :
  exists h', list_unique (by_value (fun e => e mod 8)) 4 8 80 two_lists = Ok (tt, h') /\
    is_list h' 8 [40] /\ is_list h' 80 [96; 48; 64].
Proof.
  apply (list_unique_correct (by_value (fun e => e mod 8)) 8 80 4 two_lists 40 [48; 64] [96]).
  - exact two_lists_fst.
  - exact two_lists_snd.
  - exact two_lists_disjoint.
  - simpl. lia.
Defined.

Lemma list_extrema_correct_witness :
  list_max (by_value (fun e => e mod 32)) 4 8 two_lists = Ok (48, two_lists) /\
  exists max us vs, list_max (by_value (fun e => e mod 32)) 4 8 two_lists = Ok (max, two_lists) /\
    [40; 48; 64] = us ++ max :: vs.
Proof.
  split; [reflexivity|].
  destruct (list_extrema_correct (by_value (fun e => e mod 32)) 8 4 two_lists 40 [48; 64])
    as (m & m' & us & vs & us' & vs' & H1 & _ & H2 & _).
  - exact two_lists_fst.
  - simpl. lia.
  - exact (ex_intro _ m (ex_intro _ us (ex_intro _ vs (conj H1 H2)))).
Defined.
