(* ===== verification/Vaddr.v ===== *)
(** * Addresses and page table entries (threads/vaddr.h, threads/pte.h)

    An address is a 32-bit number.  The first 3 GB are for user programs;
    physical memory is mapped from [PHYS_BASE] on. *)

From S2P Require Import Prelude.
Local Open Scope Z_scope.

(** ** threads/vaddr.h *)

Definition BITMASK (shift cnt : Z) : Z := u32 (Z.shiftl (u32 (Z.shiftl 1 cnt - 1)) shift).

Definition PGSHIFT : Z := 0.
Definition PGBITS : Z := 12.
Definition PGSIZE : Z := 4096.
Definition PGMASK : Z := BITMASK PGSHIFT PGBITS.

Definition pg_ofs (va : Z) : Z := Z.land va PGMASK.
Definition pg_no (va : Z) : Z := Z.shiftr va PGBITS.
Definition pg_round_up (va : Z) : Z := Z.land (u32 (va + PGSIZE - 1)) (2 ^ 32 - 1 - PGMASK).
Definition pg_round_down (va : Z) : Z := Z.land va (2 ^ 32 - 1 - PGMASK).

Definition PHYS_BASE : Z := 0xc0000000.

Definition is_user_vaddr (va : Z) : bool := va <? PHYS_BASE.
Definition is_kernel_vaddr (va : Z) : bool := PHYS_BASE <=? va.

Definition ptov (paddr : Z) : res Z :=
  res_assert (paddr <? PHYS_BASE);;! Ok (u32 (paddr + PHYS_BASE)).

Definition vtop (va : Z) : res Z :=
  res_assert (is_kernel_vaddr va);;! Ok (u32 (va - PHYS_BASE)).

(** ** threads/pte.h *)

Definition PTSHIFT : Z := PGBITS.
Definition PTBITS : Z := 10.
Definition PTMASK : Z := BITMASK PTSHIFT PTBITS.
Definition PDSHIFT : Z := PTSHIFT + PTBITS.
Definition PDBITS : Z := 10.

Definition pt_no (va : Z) : Z := Z.shiftr (Z.land va PTMASK) PTSHIFT.
Definition pd_no (va : Z) : Z := Z.shiftr va PDSHIFT.

Definition PTE_FLAGS : Z := 0x00000fff.
Definition PTE_ADDR : Z := 0xfffff000.
Definition PTE_P : Z := 0x1.
Definition PTE_W : Z := 0x2.
Definition PTE_U : Z := 0x4.
Definition PTE_A : Z := 0x20.
Definition PTE_D : Z := 0x40.

Definition pde_create (pt : Z) : res Z :=
  res_assert (pg_ofs pt =? 0);;!
  p <-! vtop pt;; Ok (Z.lor (Z.lor (Z.lor p PTE_U) PTE_P) PTE_W).

Definition pde_get_pt (pde : Z) : res Z :=
  res_assert (negb (Z.land pde PTE_P =? 0));;! ptov (Z.land pde PTE_ADDR).

Definition pte_create_kernel (page : Z) (writable : bool) : res Z :=
  res_assert (pg_ofs page =? 0);;!
  p <-! vtop page;; Ok (Z.lor (Z.lor p PTE_P) (if writable then PTE_W else 0)).

Definition pte_create_user (page : Z) (writable : bool) : res Z :=
  e <-! pte_create_kernel page writable;; Ok (Z.lor e PTE_U).

Definition pte_get_page (pte : Z) : res Z := ptov (Z.land pte PTE_ADDR).

(** ** Arithmetic *)

Lemma pg_ofs_mod va : 0 <= va -> pg_ofs va = va mod 4096.
Proof.
  intros Hv. unfold pg_ofs. change PGMASK with (Z.ones 12). by rewrite Z.land_ones.
Qed.

Lemma pg_no_div va : pg_no va = va / 4096.
Proof. unfold pg_no, PGBITS. by rewrite Z.shiftr_div_pow2. Qed.

(** Clearing the page offset of a 32-bit address. *)
Lemma land_not_pgmask va : 0 <= va < 2 ^ 32 -> Z.land va (2 ^ 32 - 1 - PGMASK) = va - va mod 4096.
Proof.
  intros Hv. assert (2 ^ 32 - 1 - PGMASK = Z.shiftl (Z.ones 20) 12) as -> by reflexivity.
  pose proof (Z.div_mod va 4096 ltac:(lia)).
  assert (va - va mod 4096 = Z.shiftl (va / 4096) 12) as ->.
  { rewrite Z.shiftl_mul_pow2 by lia. change (2 ^ 12) with 4096. lia. }
  apply Z.bits_inj'. intros n Hn. rewrite Z.land_spec, !Z.shiftl_spec by lia.
  destruct (Z.ltb_spec n 12).
  - rewrite !(Z.testbit_neg_r _ (n - 12)) by lia. apply andb_false_r.
  - change 4096 with (2 ^ 12). rewrite <- (Z.shiftr_div_pow2 va 12), Z.shiftr_spec by lia.
    replace (n - 12 + 12) with n by lia. destruct (Z.ltb_spec n 32).
    + rewrite Z.ones_spec_low by lia. apply andb_true_r.
    + rewrite Z.ones_spec_high by lia. rewrite andb_false_r. symmetry.
      destruct (decide (va = 0)) as [->|]; [apply Z.bits_0|]. apply Z.bits_above_log2; [lia|].
      assert (Z.log2 va < 32); [apply Z.log2_lt_pow2; lia|lia].
Qed.

Lemma pg_round_down_spec va :
  0 <= va < 2 ^ 32 -> pg_round_down va = va - va mod 4096.
Proof. apply land_not_pgmask. Qed.

(** The page and the offset of an address inside a page. *)
Lemma page_parts a o : 0 <= a -> a mod 4096 = 0 -> 0 <= o < 4096 -> a + o < 2 ^ 32 ->
  pg_round_down (a + o) = a /\ pg_ofs (a + o) = o.
Proof.
  intros Ha Hm Ho Hb. rewrite pg_round_down_spec, pg_ofs_mod by lia.
  rewrite <- (Z.add_mod_idemp_l a), Hm, (Z.mod_small (0 + o)) by lia. lia.
Qed.

Lemma pg_round_up_spec va :
  0 <= va <= 2 ^ 32 - 4096 -> pg_round_up va = (va + 4095) - (va + 4095) mod 4096.
Proof.
  intros Hv. unfold pg_round_up, PGSIZE. rewrite u32_id by lia.
  rewrite land_not_pgmask by lia. f_equal; [lia|f_equal; lia].
Qed.

Lemma ptov_vtop va : PHYS_BASE <= va < 2 ^ 32 -> exists p, vtop va = Ok p /\ ptov p = Ok va.
Proof.
  unfold PHYS_BASE. intros Hv. exists (va - PHYS_BASE). unfold vtop, ptov, is_kernel_vaddr, PHYS_BASE.
  rewrite (proj2 (Z.leb_le _ _)) by lia. cbn [res_assert res_bind].
  rewrite u32_id by lia. split; [done|]. rewrite (proj2 (Z.ltb_lt _ _)) by lia. cbn [res_assert res_bind].
  rewrite u32_id by lia. f_equal. lia.
Qed.

(** Physical memory is below 1 GB: it fits above [PHYS_BASE]. *)
Lemma ptov_ok p : 0 <= p < 2 ^ 30 -> ptov p = Ok (p + PHYS_BASE).
Proof.
  intros Hp. unfold ptov, PHYS_BASE. rewrite (proj2 (Z.ltb_lt _ _)) by lia.
  cbn [res_assert res_bind]. by rewrite u32_id by lia.
Qed.

(** The three parts of an address determine it. *)
Lemma vaddr_parts va :
  0 <= va < 2 ^ 32 ->
  va = pd_no va * 2 ^ 22 + pt_no va * 2 ^ 12 + pg_ofs va /\
  0 <= pd_no va < 1024 /\ 0 <= pt_no va < 1024 /\ 0 <= pg_ofs va < 4096.
Proof.
  intros Hv. rewrite pg_ofs_mod by lia. unfold pd_no, pt_no, PDSHIFT, PTSHIFT, PGBITS, PTBITS.
  rewrite Z.shiftr_land. change (Z.shiftr PTMASK 12) with (Z.ones 10).
  rewrite Z.land_ones, !Z.shiftr_div_pow2 by lia. change (12 + 10) with 22.
  change (2 ^ 22) with 4194304. change (2 ^ 12) with 4096. change (2 ^ 10) with 1024.
  Z.to_euclidean_division_equations; lia.
Qed.

(** Flags of an entry that points to an aligned address. *)
Lemma entry_parts p f :
  0 <= p < 2 ^ 32 -> p mod 4096 = 0 -> 0 <= f < 4096 ->
  Z.land (Z.lor p f) PTE_ADDR = p /\
  (forall g, 0 <= g < 4096 -> Z.land (Z.lor p f) g = Z.land f g).
Proof.
  intros Hp Ha Hf.
  assert (forall g, 0 <= g < 4096 -> Z.land p g = 0) as H0.
  { intros g Hg. rewrite <- (Z.mod_small g 4096) by lia. change 4096 with (2 ^ 12).
    rewrite <- Z.land_ones, Z.land_comm, <- Z.land_assoc by lia.
    rewrite (Z.land_comm (Z.ones 12)), Z.land_ones by lia. change (2 ^ 12) with 4096.
    by rewrite Ha, Z.land_0_r. }
  split.
  - change PTE_ADDR with (2 ^ 32 - 1 - PGMASK). rewrite Z.land_comm, Z.land_lor_distr_r.
    rewrite !(Z.land_comm (_ - _ - _)), !land_not_pgmask by lia.
    rewrite Ha, (Z.mod_small f) by lia. rewrite Z.sub_0_r, Z.sub_diag. apply Z.lor_0_r.
  - intros g Hg. by rewrite Z.land_comm, Z.land_lor_distr_r, !(Z.land_comm g), H0, Z.lor_0_l.
Qed.
