(* ===== verification/Bitmap.v ===== *)
(** * Bitmaps (lib/kernel/bitmap.c)

    A bitmap is an array of 32-bit elements.  The operations are translated
    on that representation; the theorems state them on the bits: [bit b i] is
    bit number [i] of the bitmap [b]. *)

From S2P Require Import Prelude.
Local Open Scope Z_scope.

(** ** The code *)

Definition ELEM_BITS : Z := 32.
Definition BITMAP_ERROR : Z := 2 ^ 32 - 1.

Record bitmap := Bitmap { bit_cnt : Z; bits : list Z }.

Definition DIV_ROUND_UP (x step : Z) : Z := u32 (x + step - 1) / step.

Definition elem_idx (bit_idx : Z) : Z := bit_idx / ELEM_BITS.
Definition bit_mask (bit_idx : Z) : Z := u32 (Z.shiftl 1 (bit_idx mod ELEM_BITS)).
Definition elem_cnt (n : Z) : Z := DIV_ROUND_UP n ELEM_BITS.
Definition byte_cnt (n : Z) : Z := u32 (4 * elem_cnt n).

Definition last_mask (b : bitmap) : Z :=
  let last_bits := bit_cnt b mod ELEM_BITS in
  if negb (last_bits =? 0) then u32 (u32 (Z.shiftl 1 last_bits) - 1) else 2 ^ 32 - 1.

Definition bitmap_buf_size (n : Z) : Z := u32 (8 + byte_cnt n).
Definition bitmap_size (b : bitmap) : Z := bit_cnt b.

(** Access to [b->bits[i]]. *)
Definition get_elem (b : bitmap) (i : Z) : res Z := res_of_option (bits b !! Z.to_nat i).
Definition put_elem (b : bitmap) (i v : Z) : bitmap :=
  Bitmap (bit_cnt b) (<[Z.to_nat i := v]> (bits b)).

Definition bitmap_mark (b : bitmap) (bit_idx : Z) : res bitmap :=
  let idx := elem_idx bit_idx in
  let mask := bit_mask bit_idx in
  e <-! get_elem b idx;; Ok (put_elem b idx (Z.lor e mask)).

Definition bitmap_reset (b : bitmap) (bit_idx : Z) : res bitmap :=
  let idx := elem_idx bit_idx in
  let mask := bit_mask bit_idx in
  e <-! get_elem b idx;; Ok (put_elem b idx (Z.land e (2 ^ 32 - 1 - mask))).

Definition bitmap_flip (b : bitmap) (bit_idx : Z) : res bitmap :=
  let idx := elem_idx bit_idx in
  let mask := bit_mask bit_idx in
  e <-! get_elem b idx;; Ok (put_elem b idx (Z.lxor e mask)).

Definition bitmap_set (b : bitmap) (idx : Z) (value : bool) : res bitmap :=
  res_assert (idx <? bit_cnt b);;!
  if value then bitmap_mark b idx else bitmap_reset b idx.

Definition bitmap_test (b : bitmap) (idx : Z) : res bool :=
  res_assert (idx <? bit_cnt b);;!
  e <-! get_elem b (elem_idx idx);;
  Ok (negb (Z.land e (bit_mask idx) =? 0)).

(** The loops over [cnt] bits from [start + i] on; [n] iterations are left. *)
Fixpoint set_multiple_loop (n : nat) (b : bitmap) (start i : Z) (value : bool) : res bitmap :=
  match n with
  | O => Ok b
  | S n => b' <-! bitmap_set b (u32 (start + i)) value;; set_multiple_loop n b' start (i + 1) value
  end.

Definition bitmap_set_multiple (b : bitmap) (start cnt : Z) (value : bool) : res bitmap :=
  res_assert (start <=? bit_cnt b);;!
  res_assert (u32 (start + cnt) <=? bit_cnt b);;!
  set_multiple_loop (Z.to_nat cnt) b start 0 value.

Definition bitmap_set_all (b : bitmap) (value : bool) : res bitmap :=
  bitmap_set_multiple b 0 (bitmap_size b) value.

Fixpoint count_loop (n : nat) (b : bitmap) (start i : Z) (value : bool) (value_cnt : Z) : res Z :=
  match n with
  | O => Ok value_cnt
  | S n =>
      t <-! bitmap_test b (u32 (start + i));;
      count_loop n b start (i + 1) value
        (if Bool.eqb t value then u32 (value_cnt + 1) else value_cnt)
  end.

Definition bitmap_count (b : bitmap) (start cnt : Z) (value : bool) : res Z :=
  res_assert (start <=? bit_cnt b);;!
  res_assert (u32 (start + cnt) <=? bit_cnt b);;!
  count_loop (Z.to_nat cnt) b start 0 value 0.

Fixpoint contains_loop (n : nat) (b : bitmap) (start i : Z) (value : bool) : res bool :=
  match n with
  | O => Ok false
  | S n =>
      t <-! bitmap_test b (u32 (start + i));;
      if Bool.eqb t value then Ok true else contains_loop n b start (i + 1) value
  end.

Definition bitmap_contains (b : bitmap) (start cnt : Z) (value : bool) : res bool :=
  res_assert (start <=? bit_cnt b);;!
  res_assert (u32 (start + cnt) <=? bit_cnt b);;!
  contains_loop (Z.to_nat cnt) b start 0 value.

Definition bitmap_any (b : bitmap) (start cnt : Z) : res bool := bitmap_contains b start cnt true.

Definition bitmap_none (b : bitmap) (start cnt : Z) : res bool :=
  c <-! bitmap_contains b start cnt true;; Ok (negb c).

Definition bitmap_all (b : bitmap) (start cnt : Z) : res bool :=
  c <-! bitmap_contains b start cnt false;; Ok (negb c).

(** [n] is the number of values of [i] up to [last]. *)
Fixpoint scan_loop (n : nat) (b : bitmap) (i cnt : Z) (value : bool) : res Z :=
  match n with
  | O => Ok BITMAP_ERROR
  | S n =>
      c <-! bitmap_contains b i cnt (negb value);;
      if negb c then Ok i else scan_loop n b (i + 1) cnt value
  end.

Definition bitmap_scan (b : bitmap) (start cnt : Z) (value : bool) : res Z :=
  res_assert (start <=? bit_cnt b);;!
  if cnt <=? bit_cnt b then
    let last := bit_cnt b - cnt in
    scan_loop (Z.to_nat (last - start + 1)) b start cnt value
  else Ok BITMAP_ERROR.

Definition bitmap_scan_and_flip (b : bitmap) (start cnt : Z) (value : bool) : res (Z * bitmap) :=
  idx <-! bitmap_scan b start cnt value;;
  if negb (idx =? BITMAP_ERROR) then
    b' <-! bitmap_set_multiple b idx cnt (negb value);; Ok (idx, b')
  else Ok (idx, b).

(** [garbage]: what the memory of the elements holds before. *)
Definition bitmap_create_in_buf (n : Z) (garbage : list Z) (block_size : Z) : res bitmap :=
  res_assert (bitmap_buf_size n <=? block_size);;!
  bitmap_set_all (Bitmap n garbage) false.

(** [b_block], [bits_block]: the results of the two calls of [malloc]; a block
    comes with its contents. *)
Definition bitmap_create (n : Z) (b_block : bool) (bits_block : option (list Z))
    : res (option bitmap) :=
  if b_block then
    match bits_block with
    | Some garbage => b <-! bitmap_set_all (Bitmap n garbage) false;; Ok (Some b)
    | None =>
        if n =? 0 then b <-! bitmap_set_all (Bitmap n []) false;; Ok (Some b) else Ok None
    end
  else Ok None.

(** Bitmaps in files: the elements are what the file holds. *)
Definition bitmap_file_size (b : bitmap) : Z := byte_cnt (bit_cnt b).

(** [words]: the elements after [file_read_at], which returned [got]. *)
Definition bitmap_read (b : bitmap) (words : list Z) (got : Z) : res (bool * bitmap) :=
  if 0 <? bit_cnt b then
    let size := byte_cnt (bit_cnt b) in
    let b := Bitmap (bit_cnt b) words in
    let last := u32 (elem_cnt (bit_cnt b) - 1) in
    e <-! get_elem b last;;
    Ok (got =? i32 size, put_elem b last (Z.land e (last_mask b)))
  else Ok (true, b).

(** ** Bits *)

Definition bit (b : bitmap) (i : Z) : bool :=
  match bits b !! Z.to_nat (i / 32) with
  | Some e => Z.testbit e (i mod 32)
  | None => false
  end.

(** The size is such that [elem_cnt] does not overflow. *)
Record bitmap_wf (b : bitmap) : Prop := BitmapWf {
  wf_cnt : 0 <= bit_cnt b <= 2 ^ 32 - 32;
  wf_len : Z.of_nat (length (bits b)) = elem_cnt (bit_cnt b);
  wf_elem i e : bits b !! i = Some e -> 0 <= e < 2 ^ 32
}.

(** The bits of [b'] are those of [b], except for those that satisfy [P],
    which are [v]. *)
Definition bits_set (P : Z -> Prop) (v : bool) (b b' : bitmap) : Prop :=
  bit_cnt b' = bit_cnt b /\ bitmap_wf b' /\
  forall i, 0 <= i < bit_cnt b -> (P i -> bit b' i = v) /\ (~ P i -> bit b' i = bit b i).

(** ** Elements *)

Lemma elem_cnt_eq n : 0 <= n <= 2 ^ 32 - 32 -> elem_cnt n = (n + 31) / 32.
Proof. intros. unfold elem_cnt, DIV_ROUND_UP, ELEM_BITS. rewrite u32_id by lia. f_equal. lia. Qed.

Lemma bit_mask_eq i : bit_mask i = 2 ^ (i mod 32).
Proof.
  unfold bit_mask, ELEM_BITS. pose proof (Z.mod_pos_bound i 32).
  rewrite Z.shiftl_1_l. apply u32_id. split; [apply Z.pow_nonneg; lia|].
  change 4294967296 with (2 ^ 32). apply Z.pow_lt_mono_r; lia.
Qed.

Lemma same_bit i j : i / 32 = j / 32 -> i mod 32 = j mod 32 -> i = j.
Proof. intros H1 H2. rewrite (Z.div_mod i 32), (Z.div_mod j 32) by lia. congruence. Qed.

Lemma word_testbit e k : 0 <= e < 2 ^ 32 -> 32 <= k -> Z.testbit e k = false.
Proof.
  intros He Hk. destruct (decide (e = 0)) as [->|]; [apply Z.bits_0|].
  apply Z.bits_above_log2; [lia|]. assert (Z.log2 e < 32); [|lia]. apply Z.log2_lt_pow2; lia.
Qed.

Lemma word_of_bits e : 0 <= e -> (forall k, 32 <= k -> Z.testbit e k = false) -> 0 <= e < 2 ^ 32.
Proof.
  intros H0 H. split; [done|]. destruct (decide (e = 0)) as [->|]; [done|].
  apply Z.log2_lt_pow2; [lia|]. destruct (decide (Z.log2 e < 32)); [done|].
  specialize (H (Z.log2 e)). rewrite Z.bit_log2 in H by lia. by discriminate H; lia.
Qed.

Lemma testbit_pow2 k j : 0 <= k -> Z.testbit (2 ^ k) j = (j =? k).
Proof. intros. rewrite Z.pow2_bits_eqb by done. by rewrite Z.eqb_sym. Qed.

(** The complement of a mask, in 32 bits. *)
Lemma testbit_not_mask k j :
  0 <= k < 32 -> 0 <= j -> Z.testbit (2 ^ 32 - 1 - 2 ^ k) j = (j <? 32) && negb (j =? k).
Proof.
  intros Hk Hj.
  assert (2 ^ 32 - 1 - 2 ^ k = Z.ldiff (Z.ones 32) (2 ^ k)) as ->.
  { rewrite <- Z.sub_nocarry_ldiff; [by rewrite Z.ones_equiv, Z.sub_1_r|].
    apply Z.bits_inj'. intros n Hn. rewrite Z.ldiff_spec, testbit_pow2, Z.bits_0 by lia.
    destruct (Z.eqb_spec n k) as [->|]; [|done]. rewrite Z.ones_spec_low by lia. done. }
  rewrite Z.ldiff_spec, testbit_pow2 by lia. destruct (Z.ltb_spec j 32).
  - by rewrite Z.ones_spec_low by lia.
  - by rewrite Z.ones_spec_high by lia.
Qed.

Lemma land_pow2 e k : 0 <= k -> negb (Z.land e (2 ^ k) =? 0) = Z.testbit e k.
Proof.
  intros Hk. destruct (Z.testbit e k) eqn:E.
  - apply negb_true_iff, Z.eqb_neq. intros H. apply (f_equal (fun z => Z.testbit z k)) in H.
    by rewrite Z.land_spec, testbit_pow2, Z.eqb_refl, E, Z.bits_0 in H by done.
  - apply negb_false_iff, Z.eqb_eq, Z.bits_inj'. intros n Hn.
    rewrite Z.land_spec, testbit_pow2, Z.bits_0 by done.
    destruct (Z.eqb_spec n k) as [->|]; [by rewrite E|by rewrite andb_false_r].
Qed.

Lemma wf_get b i :
  bitmap_wf b -> 0 <= i < bit_cnt b ->
  exists e, bits b !! Z.to_nat (i / 32) = Some e /\ 0 <= e < 2 ^ 32 /\
    get_elem b (elem_idx i) = Ok e /\ bit b i = Z.testbit e (i mod 32).
Proof.
  intros [Hc Hl He] Hi. rewrite elem_cnt_eq in Hl by done.
  destruct (lookup_lt_is_Some_2 (bits b) (Z.to_nat (i / 32))) as [e E].
  { assert (0 <= i / 32 < (bit_cnt b + 31) / 32); [|lia].
    Z.to_euclidean_division_equations; lia. }
  exists e. unfold get_elem, elem_idx, bit, ELEM_BITS. rewrite E. eauto.
Qed.

(** Storing an element. *)
Lemma put_elem_spec b i e :
  bitmap_wf b -> 0 <= i < bit_cnt b -> 0 <= e < 2 ^ 32 ->
  bitmap_wf (put_elem b (elem_idx i) e) /\
  forall j, 0 <= j -> bit (put_elem b (elem_idx i) e) j
            = if decide (j / 32 = i / 32) then Z.testbit e (j mod 32) else bit b j.
Proof.
  intros Hwf Hi He. destruct (wf_get b i Hwf Hi) as (e0 & E & _). destruct Hwf as [Hc Hl Hel].
  apply lookup_lt_Some in E. split.
  - split; [done|by cbn; rewrite length_insert|]. intros k x.
    intros [(_ & -> & _)|(_ & ?)]%list_lookup_insert_Some; [done|eauto].
  - intros j Hj. unfold bit, put_elem, elem_idx, ELEM_BITS. cbn. case_decide as Hd.
    + by rewrite Hd, list_lookup_insert_eq.
    + rewrite list_lookup_insert_ne; [done|]. intros Heq%Z2Nat.inj;
        [done|apply Z.div_pos; lia|apply Z.div_pos; lia].
Qed.

(** ** Single bits *)

Lemma bitmap_test_ok b i :
  bitmap_wf b -> 0 <= i < bit_cnt b -> bitmap_test b i = Ok (bit b i).
Proof.
  intros Hwf Hi. destruct (wf_get b i Hwf Hi) as (e & _ & _ & He & ->).
  unfold bitmap_test. rewrite (proj2 (Z.ltb_lt _ _)) by lia. cbn [res_assert res_bind].
  rewrite He. cbn [res_bind]. rewrite bit_mask_eq. f_equal. apply land_pow2.
  by apply Z.mod_pos_bound.
Qed.

(** Storing an element that differs in one bit. *)
Lemma put_bit b i e e' v :
  bitmap_wf b -> 0 <= i < bit_cnt b -> bits b !! Z.to_nat (i / 32) = Some e -> 0 <= e' < 2 ^ 32 ->
  (forall k, 0 <= k < 32 ->
     Z.testbit e' k = if decide (k = i mod 32) then v else Z.testbit e k) ->
  bits_set (eq i) v b (put_elem b (elem_idx i) e').
Proof.
  intros Hwf Hi He He' Hk. pose proof (Z.mod_pos_bound i 32 ltac:(lia)) as Hm. destruct (put_elem_spec b i e' Hwf Hi He') as [Hwf' Hb].
  split_and!; [done|done|]. intros j Hj. rewrite Hb by lia. split.
  - intros <-. by rewrite decide_True, Hk, decide_True.
  - intros Hne. case_decide as Hd; [|done]. unfold bit.
    rewrite Hd, He, Hk, decide_False; [done| |by apply Z.mod_pos_bound].
    intros Heq. by apply Hne, same_bit.
Qed.

Lemma bitmap_mark_ok b i :
  bitmap_wf b -> 0 <= i < bit_cnt b ->
  exists b', bitmap_mark b i = Ok b' /\ bits_set (eq i) true b b'.
Proof.
  intros Hwf Hi. destruct (wf_get b i Hwf Hi) as (e & E & He & Hg & _).
  unfold bitmap_mark. rewrite Hg. cbn [res_bind]. eexists; split; [done|].
  rewrite bit_mask_eq. pose proof (Z.mod_pos_bound i 32 ltac:(lia)) as Hm.
  apply (put_bit b i e); [done..| |].
  - apply word_of_bits; [apply Z.lor_nonneg; lia|]. intros k Hk.
    rewrite Z.lor_spec, word_testbit, testbit_pow2 by lia. apply Z.eqb_neq. lia.
  - intros k Hk. rewrite Z.lor_spec, testbit_pow2 by lia.
    destruct (Z.eqb_spec k (i mod 32)); case_decide; [|done..|]; by rewrite ?orb_true_r, ?orb_false_r.
Qed.

Lemma bitmap_reset_ok b i :
  bitmap_wf b -> 0 <= i < bit_cnt b ->
  exists b', bitmap_reset b i = Ok b' /\ bits_set (eq i) false b b'.
Proof.
  intros Hwf Hi. destruct (wf_get b i Hwf Hi) as (e & E & He & Hg & _).
  unfold bitmap_reset. rewrite Hg. cbn [res_bind]. eexists; split; [done|].
  rewrite bit_mask_eq. pose proof (Z.mod_pos_bound i 32 ltac:(lia)) as Hm.
  apply (put_bit b i e); [done..| |].
  - apply word_of_bits; [apply Z.land_nonneg; lia|]. intros k Hk.
    by rewrite Z.land_spec, word_testbit by lia.
  - intros k Hk. rewrite Z.land_spec, testbit_not_mask, (proj2 (Z.ltb_lt _ _)) by lia.
    destruct (Z.eqb_spec k (i mod 32)); case_decide; [|done..|]; by rewrite ?andb_true_r, ?andb_false_r.
Qed.

Lemma bitmap_flip_ok b i :
  bitmap_wf b -> 0 <= i < bit_cnt b ->
  exists b', bitmap_flip b i = Ok b' /\ bits_set (eq i) (negb (bit b i)) b b'.
Proof.
  intros Hwf Hi. destruct (wf_get b i Hwf Hi) as (e & E & He & Hg & ->).
  unfold bitmap_flip. rewrite Hg. cbn [res_bind]. eexists; split; [done|].
  rewrite bit_mask_eq. pose proof (Z.mod_pos_bound i 32 ltac:(lia)) as Hm.
  apply (put_bit b i e); [done..| |].
  - apply word_of_bits.
    { apply Z.lxor_nonneg. pose proof (Z.pow_nonneg 2 (i mod 32)). lia. }
    intros k Hk. rewrite Z.lxor_spec, word_testbit, testbit_pow2 by lia. apply Z.eqb_neq. lia.
  - intros k Hk. rewrite Z.lxor_spec, testbit_pow2 by lia.
    destruct (Z.eqb_spec k (i mod 32)) as [->|]; case_decide; [|done..|];
      by rewrite ?xorb_true_r, ?xorb_false_r.
Qed.

Lemma bitmap_set_ok b i v :
  bitmap_wf b -> 0 <= i < bit_cnt b ->
  exists b', bitmap_set b i v = Ok b' /\ bits_set (eq i) v b b'.
Proof.
  intros Hwf Hi. unfold bitmap_set. rewrite (proj2 (Z.ltb_lt _ _)) by lia. cbn [res_assert res_bind].
  destruct v; [by apply bitmap_mark_ok|by apply bitmap_reset_ok].
Qed.

(** ** Ranges of bits *)

Lemma bits_set_refl b (P : Z -> Prop) v :
  bitmap_wf b -> (forall i, ~ P i) -> bits_set P v b b.
Proof. intros Hwf HP. split_and!; [done|done|]. intros i _. split; [by intros ?%HP|done]. Qed.

Lemma bits_set_trans b1 b2 b3 (P Q R : Z -> Prop) v :
  bits_set P v b1 b2 -> bits_set Q v b2 b3 -> (forall i, R i <-> P i \/ Q i) ->
  (forall i, Q i \/ ~ Q i) -> bits_set R v b1 b3.
Proof.
  intros (E1 & _ & H1) (E2 & Hwf & H2) HR Hdec. split_and!; [congruence|done|].
  intros i Hi. destruct (H1 i Hi) as [P1 P2]. rewrite E1 in H2. destruct (H2 i Hi) as [Q1 Q2].
  destruct (Hdec i) as [HQ|HQ]; split.
  - intros _. auto.
  - intros HnR. by destruct HnR; apply HR; right.
  - intros [?|?]%HR; [|done]. rewrite Q2 by done. auto.
  - intros HnR. rewrite Q2 by done. apply P2. intros ?. by apply HnR, HR; left.
Qed.

Definition range (start cnt i : Z) : Prop := start <= i < start + cnt.

Lemma range_dec start cnt i : range start cnt i \/ ~ range start cnt i.
Proof. unfold range. lia. Qed.

Lemma set_multiple_loop_ok n v start : forall b i,
  bitmap_wf b -> 0 <= start -> 0 <= i -> start + i + Z.of_nat n <= bit_cnt b ->
  exists b', set_multiple_loop n b start i v = Ok b' /\ bits_set (range (start + i) (Z.of_nat n)) v b b'.
Proof.
  induction n as [|n IH]; intros b i Hwf Hs Hi Hb; cbn [set_multiple_loop].
  - exists b. split; [done|]. apply bits_set_refl; [done|]. unfold range. lia.
  - pose proof (wf_cnt _ Hwf) as Hc. rewrite u32_id by lia.
    destruct (bitmap_set_ok b (start + i) v Hwf) as (b1 & -> & H1); [lia|]. cbn [res_bind].
    destruct (IH b1 (i + 1)) as (b' & -> & H2); [apply H1|done|lia|destruct H1 as [-> _]; lia|].
    exists b'. split; [done|]. eapply bits_set_trans; [exact H1|exact H2| |apply range_dec].
    unfold range. lia.
Qed.

Lemma range_asserts b start cnt :
  bitmap_wf b -> 0 <= start -> 0 <= cnt -> start + cnt <= bit_cnt b ->
  (start <=? bit_cnt b) = true /\ (u32 (start + cnt) <=? bit_cnt b) = true.
Proof. intros [Hc _ _] Hs Hn Hb. rewrite u32_id by lia. split; apply Z.leb_le; lia. Qed.

Lemma bitmap_set_multiple_ok b start cnt v :
  bitmap_wf b -> 0 <= start -> 0 <= cnt -> start + cnt <= bit_cnt b ->
  exists b', bitmap_set_multiple b start cnt v = Ok b' /\ bits_set (range start cnt) v b b'.
Proof.
  intros Hwf Hs Hc Hb. unfold bitmap_set_multiple.
  destruct (range_asserts b start cnt Hwf Hs Hc Hb) as [-> ->]. cbn [res_assert res_bind].
  destruct (set_multiple_loop_ok (Z.to_nat cnt) v start b 0) as (b' & -> & H); [done|done|lia|lia|].
  rewrite Z.add_0_r, Z2Nat.id in H by done. eauto.
Qed.

Lemma contains_loop_ok n v start : forall b i,
  bitmap_wf b -> 0 <= start -> 0 <= i -> start + i + Z.of_nat n <= bit_cnt b ->
  exists r, contains_loop n b start i v = Ok r /\
    (r = true <-> exists j, range (start + i) (Z.of_nat n) j /\ bit b j = v).
Proof.
  induction n as [|n IH]; intros b i Hwf Hs Hi Hb; cbn [contains_loop].
  - exists false. split; [done|]. split; [done|]. intros (j & ? & _). unfold range in *. lia.
  - pose proof (wf_cnt _ Hwf) as Hc. rewrite u32_id, bitmap_test_ok by (done || lia).
    cbn [res_bind]. destruct (Bool.eqb (bit b (start + i)) v) eqn:E.
    + exists true. split; [done|]. split; [|done]. intros _. exists (start + i).
      split; [unfold range; lia|by apply eqb_prop].
    + destruct (IH b (i + 1)) as (r & -> & Hr); [done..|lia|lia|]. exists r. split; [done|].
      rewrite Hr. split; intros (j & Hj & Hv); exists j; (split; [|done]); unfold range in *; [lia|].
      destruct (decide (j = start + i)) as [->|]; [|lia].
      by rewrite Hv, eqb_reflx in E.
Qed.

Lemma bitmap_contains_ok b start cnt v :
  bitmap_wf b -> 0 <= start -> 0 <= cnt -> start + cnt <= bit_cnt b ->
  exists r, bitmap_contains b start cnt v = Ok r /\
    (r = true <-> exists j, range start cnt j /\ bit b j = v).
Proof.
  intros Hwf Hs Hc Hb. unfold bitmap_contains.
  destruct (range_asserts b start cnt Hwf Hs Hc Hb) as [-> ->]. cbn [res_assert res_bind].
  destruct (contains_loop_ok (Z.to_nat cnt) v start b 0) as (r & -> & H); [done|done|lia|lia|].
  rewrite Z.add_0_r, Z2Nat.id in H by done. eauto.
Qed.

(** All the bits of the group at [i] are [v]. *)
Definition group (b : bitmap) (i cnt : Z) (v : bool) : Prop :=
  forall j, range i cnt j -> bit b j = v.

Lemma not_contains b i cnt v :
  (~ exists j, range i cnt j /\ bit b j = negb v) <-> group b i cnt v.
Proof.
  split.
  - intros H j Hj. destruct (bit b j) eqn:E, v; try done; destruct H; exists j; by rewrite E.
  - intros H (j & Hj & Hv). rewrite (H j Hj) in Hv. by destruct v.
Qed.

Lemma bitmap_all_ok b start cnt :
  bitmap_wf b -> 0 <= start -> 0 <= cnt -> start + cnt <= bit_cnt b ->
  exists r, bitmap_all b start cnt = Ok r /\ (r = true <-> group b start cnt true).
Proof.
  intros Hwf Hs Hc Hb. unfold bitmap_all.
  destruct (bitmap_contains_ok b start cnt false) as (r & -> & Hr); [done..|].
  exists (negb r). split; [done|]. rewrite <- (not_contains b start cnt true). cbn [negb].
  rewrite <- Hr. destruct r; naive_solver.
Qed.

Lemma scan_loop_ok n b cnt v : forall i,
  bitmap_wf b -> 0 <= i -> 0 <= cnt -> i + Z.of_nat n + cnt <= bit_cnt b + 1 ->
  exists r, scan_loop n b i cnt v = Ok r /\
    ((r = BITMAP_ERROR /\ forall j, i <= j < i + Z.of_nat n -> ~ group b j cnt v) \/
     (i <= r < i + Z.of_nat n /\ group b r cnt v /\
      forall j, i <= j < r -> ~ group b j cnt v)).
Proof.
  induction n as [|n IH]; intros i Hwf Hi Hc Hb; cbn [scan_loop].
  - eexists; split; [done|]. left. split; [done|lia].
  - destruct (bitmap_contains_ok b i cnt (negb v)) as (r & -> & Hr); [done|done|lia|lia|].
    cbn [res_bind]. destruct r; cbn [negb].
    + assert (~ group b i cnt v) as Hng.
      { rewrite <- not_contains. intros H. by apply H, Hr. }
      destruct (IH (i + 1)) as (r & -> & HR); [done|lia|lia|lia|]. exists r. split; [done|].
      destruct HR as [[-> HR]|(Hr1 & Hr2 & HR)]; [left|right].
      * split; [done|]. intros j Hj. destruct (decide (j = i)) as [->|]; [done|]. apply HR. lia.
      * split_and!; [lia|lia|done|]. intros j Hj.
        destruct (decide (j = i)) as [->|]; [done|]. apply HR. lia.
    + exists i. split; [done|]. right. split_and!; [lia|lia| |lia].
      apply not_contains. intros H%Hr. done.
Qed.

(** What [bitmap_scan] promises: the first group at or after [start]. *)
Definition scanned (b : bitmap) (start cnt : Z) (v : bool) (r : Z) : Prop :=
  (r = BITMAP_ERROR /\ forall j, start <= j -> j + cnt <= bit_cnt b -> ~ group b j cnt v) \/
  (start <= r /\ r + cnt <= bit_cnt b /\ group b r cnt v /\
   forall j, start <= j < r -> ~ group b j cnt v).

Lemma bitmap_scan_ok b start cnt v :
  bitmap_wf b -> 0 <= start <= bit_cnt b -> 0 <= cnt ->
  exists r, bitmap_scan b start cnt v = Ok r /\ scanned b start cnt v r.
Proof.
  intros Hwf Hs Hc. unfold bitmap_scan. rewrite (proj2 (Z.leb_le _ _)) by lia.
  cbn [res_assert res_bind]. destruct (Z.leb_spec cnt (bit_cnt b)).
  - destruct (decide (bit_cnt b - cnt < start)).
    { replace (Z.to_nat (bit_cnt b - cnt - start + 1)) with 0%nat by lia. eexists. split; [done|].
      left. split; [done|lia]. }
    destruct (scan_loop_ok (Z.to_nat (bit_cnt b - cnt - start + 1)) b cnt v start)
      as (r & -> & HR); [done|lia|lia|lia|]. exists r. split; [done|].
    destruct HR as [[-> HR]|(Hr1 & Hr2 & HR)]; [left|right].
    + split; [done|]. intros j H1 H2. apply HR. lia.
    + split_and!; [lia|lia|done|done].
  - eexists. split; [done|]. left. split; [done|lia].
Qed.

Lemma scanned_error b start cnt v r :
  bitmap_wf b -> 0 <= start -> 0 <= cnt -> scanned b start cnt v r ->
  r = BITMAP_ERROR \/ (r =? BITMAP_ERROR) = false /\ 0 <= r.
Proof.
  intros Hwf Hs Hc [[-> _]|(H1 & H2 & _)]; [by left|right]. pose proof (wf_cnt _ Hwf).
  unfold BITMAP_ERROR. split; [apply Z.eqb_neq|]; lia.
Qed.

Lemma bitmap_scan_and_flip_ok b start cnt v :
  bitmap_wf b -> 0 <= start <= bit_cnt b -> 0 <= cnt ->
  exists r b', bitmap_scan_and_flip b start cnt v = Ok (r, b') /\ scanned b start cnt v r /\
    (r = BITMAP_ERROR -> b' = b) /\
    (r <> BITMAP_ERROR -> bits_set (range r cnt) (negb v) b b').
Proof.
  intros Hwf Hs Hc. unfold bitmap_scan_and_flip.
  destruct (bitmap_scan_ok b start cnt v) as (r & -> & HR); [done..|]. cbn [res_bind].
  destruct (scanned_error _ _ _ _ _ Hwf (proj1 Hs) Hc HR) as [->|[Hr H0]].
  - eexists _, b. split; [done|]. split_and!; [done|done|by intros []].
  - rewrite Hr. cbn [negb]. apply Z.eqb_neq in Hr.
    assert (r + cnt <= bit_cnt b) by (by destruct HR as [[? _]|(_ & ? & _)]).
    destruct (bitmap_set_multiple_ok b r cnt (negb v)) as (b' & -> & Hb'); [done..|].
    exists r, b'. split_and!; [done|done|by intros ?|done].
Qed.

(** ** Counting *)

Definition count (b : bitmap) (start : Z) (n : nat) (v : bool) : Z :=
  Z.of_nat (length (List.filter (fun j => Bool.eqb (bit b j) v) (seqZ start (Z.of_nat n)))).

Lemma count_loop_ok n v start : forall b i c,
  bitmap_wf b -> 0 <= start -> 0 <= i -> 0 <= c <= i -> start + i + Z.of_nat n <= bit_cnt b ->
  count_loop n b start i v c = Ok (c + count b (start + i) n v).
Proof.
  induction n as [|n IH]; intros b i c Hwf Hs Hi Hci Hb; cbn [count_loop].
  - unfold count. rewrite seqZ_nil by lia. cbn. f_equal. lia.
  - pose proof (wf_cnt _ Hwf) as Hc. rewrite (u32_id (start + i)), bitmap_test_ok by (done || lia).
    cbn [res_bind]. rewrite (u32_id (c + 1)) by lia.
    rewrite IH by (try done; try destruct (Bool.eqb (bit b (start + i)) v); lia).
    unfold count. rewrite (seqZ_cons (start + i)) by lia. cbn [List.filter].
    replace (Z.pred (Z.of_nat (S n))) with (Z.of_nat n) by lia.
    replace (Z.succ (start + i)) with (start + (i + 1)) by lia.
    destruct (Bool.eqb _ _); cbn [length]; f_equal; lia.
Qed.

Lemma bitmap_count_ok b start cnt v :
  bitmap_wf b -> 0 <= start -> 0 <= cnt -> start + cnt <= bit_cnt b ->
  bitmap_count b start cnt v = Ok (count b start (Z.to_nat cnt) v).
Proof.
  intros Hwf Hs Hc Hb. unfold bitmap_count.
  destruct (range_asserts b start cnt Hwf Hs Hc Hb) as [-> ->]. cbn [res_assert res_bind].
  rewrite count_loop_ok by (done || lia). by rewrite Z.add_0_r.
Qed.

(** ** Creation *)

(** Storage for the elements of a bitmap of [n] bits. *)
Definition storage (n : Z) (garbage : list Z) : Prop :=
  Z.of_nat (length garbage) = elem_cnt n /\ Forall (fun e => 0 <= e < 2 ^ 32) garbage.

Lemma bitmap_set_all_ok n garbage v :
  0 <= n <= 2 ^ 32 - 32 -> storage n garbage ->
  exists b, bitmap_set_all (Bitmap n garbage) v = Ok b /\ bit_cnt b = n /\ bitmap_wf b /\
    group b 0 n v.
Proof.
  intros Hn [Hl Hg]. unfold bitmap_set_all, bitmap_size. cbn [bit_cnt].
  destruct (bitmap_set_multiple_ok (Bitmap n garbage) 0 n v) as (b & -> & Hc & Hwf & Hb).
  - split; [done|done|]. intros i e He. rewrite Forall_lookup in Hg. by apply (Hg i).
  - done.
  - lia.
  - done.
  - exists b. split_and!; [done|done|done|]. intros j Hj. apply (Hb j); [|done].
    unfold range in Hj. cbn. lia.
Qed.

(** ** Reading a bitmap *)

Lemma last_mask_bits b k :
  0 <= bit_cnt b -> 0 <= k < 32 ->
  Z.testbit (last_mask b) k
  = bool_decide (bit_cnt b mod 32 = 0 \/ k < bit_cnt b mod 32).
Proof.
  intros Hb Hk. unfold last_mask, ELEM_BITS. pose proof (Z.mod_pos_bound (bit_cnt b) 32 ltac:(lia)) as Hm.
  destruct (Z.eqb_spec (bit_cnt b mod 32) 0) as [E|E]; cbn [negb].
  - change (2 ^ 32 - 1) with (Z.ones 32). rewrite Z.ones_spec_low by lia.
    by rewrite bool_decide_true by auto.
  - set (l := bit_cnt b mod 32) in *. rewrite Z.shiftl_1_l.
    assert (0 < 2 ^ l) by (apply Z.pow_pos_nonneg; lia).
    assert (2 ^ l < 2 ^ 32) by (apply Z.pow_lt_mono_r; lia).
    rewrite (u32_id (2 ^ l)), u32_id by lia.
    replace (2 ^ l - 1) with (Z.ones l) by (rewrite Z.ones_equiv; lia).
    destruct (decide (k < l)).
    + rewrite Z.ones_spec_low by lia. by rewrite bool_decide_true by auto.
    + rewrite Z.ones_spec_high by lia. rewrite bool_decide_false by lia. done.
Qed.

Lemma last_mask_bound b : 0 <= bit_cnt b -> 0 <= last_mask b < 2 ^ 32.
Proof.
  intros Hb. unfold last_mask. destruct (negb _); [apply uwrap_bound; lia|lia].
Qed.

(** Whatever the file holds, the bits are those of the file; the bits of the
    last element that the bitmap does not use are cleared. *)
Lemma bitmap_read_ok b words got :
  bitmap_wf b -> storage (bit_cnt b) words -> 0 < bit_cnt b ->
  exists ok b', bitmap_read b words got = Ok (ok, b') /\ (ok = true <-> got = i32 (byte_cnt (bit_cnt b))) /\
    bit_cnt b' = bit_cnt b /\ bitmap_wf b' /\
    (forall i, 0 <= i < bit_cnt b -> bit b' i = bit (Bitmap (bit_cnt b) words) i) /\
    (forall i, bit_cnt b <= i -> bit b' i = false).
Proof.
  intros Hwf [Hl Hg] Hpos. set (w := Bitmap (bit_cnt b) words).
  pose proof (wf_cnt _ Hwf) as Hc. assert (bitmap_wf w) as Hw.
  { split; [done|done|]. intros i e He. rewrite Forall_lookup in Hg. by apply (Hg i). }
  pose proof (elem_cnt_eq _ Hc) as He.
  assert (1 <= (bit_cnt b + 31) / 32) by (apply Z.div_le_lower_bound; lia).
  assert ((bit_cnt b + 31) / 32 <= bit_cnt b) by (apply Z.div_le_upper_bound; lia).
  assert (u32 (elem_cnt (bit_cnt b) - 1) = elem_idx (bit_cnt b - 1)) as Hlast.
  { rewrite He, u32_id by lia. unfold elem_idx, ELEM_BITS. Z.to_euclidean_division_equations; lia. }
  destruct (wf_get w (bit_cnt b - 1) Hw) as (e & E & Hew & Hge & _); [cbn; lia|].
  unfold bitmap_read. rewrite (proj2 (Z.ltb_lt _ _)) by lia. fold w. cbn [bit_cnt w].
  rewrite Hlast, Hge. cbn [res_bind]. eexists _, _. split; [done|]. split; [apply Z.eqb_eq|].
  assert (0 <= Z.land e (last_mask w) < 2 ^ 32) as Hland.
  { apply word_of_bits; [apply Z.land_nonneg; lia|]. intros k Hk.
    by rewrite Z.land_spec, word_testbit by lia. }
  destruct (put_elem_spec w (bit_cnt b - 1) _ Hw ltac:(cbn; lia) Hland) as [Hwf' Hb'].
  split_and!; [done|done| |].
  - intros i Hi. rewrite Hb' by lia. case_decide as Hd; [|done].
    rewrite Z.land_spec, last_mask_bits by (cbn; try apply Z.mod_pos_bound; lia).
    rewrite bool_decide_true; [|cbn; Z.to_euclidean_division_equations; lia].
    rewrite andb_true_r. unfold bit. by rewrite Hd, E.
  - intros i Hi. rewrite Hb' by lia. case_decide as Hd.
    + rewrite Z.land_spec, last_mask_bits by (cbn; try apply Z.mod_pos_bound; lia).
      rewrite bool_decide_false; [by rewrite andb_false_r|].
      cbn. Z.to_euclidean_division_equations; lia.
    + unfold bit. rewrite lookup_ge_None_2; [done|].
      cbn [bits w]. Z.to_euclidean_division_equations; lia.
Qed.
