(* ===== verification/PageAlloc.v ===== *)
(** * What the page allocator promises

    The interface between threads/palloc.c and its clients (threads, page
    tables, processes): the state of the two page pools, the calls that get
    and free a page, and their laws.  Palloc.v discharges it. *)

From S2P Require Import Prelude.

Class PageAllocator (P : Type) := {
  (** [palloc_get_page]: a free page of the user or of the kernel pool, or
      nothing when the pool is exhausted. *)
  pa_get : bool -> P -> option (Z * P);
  (** [palloc_free_page]. *)
  pa_free : Z -> P -> res P;
  (** The pools are well formed; the page belongs to one of them; it is
      moreover allocated. *)
  pa_wf : P -> Prop;
  pa_managed : P -> Z -> Prop;
  pa_used : P -> Z -> Prop;

  pa_get_wf user p pg p' : pa_wf p -> pa_get user p = Some (pg, p') -> pa_wf p';
  pa_free_wf p pg p' : pa_wf p -> pa_used p pg -> pa_free pg p = Ok p' -> pa_wf p';
  pa_get_managed user p pg p' q :
    pa_wf p -> pa_get user p = Some (pg, p') ->
    pa_managed p pg /\ (pa_managed p' q <-> pa_managed p q);
  pa_free_managed p pg p' q :
    pa_wf p -> pa_used p pg -> pa_free pg p = Ok p' -> pa_managed p' q <-> pa_managed p q;
  pa_get_fresh user p pg p' :
    pa_wf p -> pa_get user p = Some (pg, p') -> ~ pa_used p pg;
  pa_get_aligned user p pg p' :
    pa_wf p -> pa_get user p = Some (pg, p') -> 0 < pg /\ pg mod 4096 = 0;
  pa_get_used user p pg p' q :
    pa_wf p -> pa_get user p = Some (pg, p') -> pa_used p' q <-> q = pg \/ pa_used p q;
  pa_free_ok p pg :
    pa_wf p -> pa_used p pg -> exists p', pa_free pg p = Ok p';
  pa_free_used p pg p' q :
    pa_wf p -> pa_used p pg -> pa_free pg p = Ok p' -> pa_used p' q <-> q <> pg /\ pa_used p q
}.
