(* ===== verification/Palloc.v ===== *)
(** * The page allocator (threads/palloc.c)

    Two pools of pages, each with a bitmap of the pages in use.  The calls run
    under the pool's lock in the source, so each of them is one step here; the
    lock itself is in Thread.v.  The contents of memory are a function from
    addresses to bytes, apart from the storage of the bitmaps. *)

From S2P Require Import Prelude Vaddr Bitmap PageAlloc.
Local Open Scope Z_scope.

(** ** The code *)

Definition PAL_ASSERT : Z := 1.
Definition PAL_ZERO : Z := 2.
Definition PAL_USER : Z := 4.

Record pool := Pool { used_map : bitmap; base : Z }.

Record pools := Pools { kernel_pool : pool; user_pool : pool; mem : Z -> Z }.

Definition set_used_map (b : bitmap) (p : pool) : pool := Pool b (base p).
Definition set_kernel_pool (x : pool) (p : pools) : pools := Pools x (user_pool p) (mem p).
Definition set_user_pool (x : pool) (p : pools) : pools := Pools (kernel_pool p) x (mem p).
Definition set_mem (x : Z -> Z) (p : pools) : pools := Pools (kernel_pool p) (user_pool p) x.

(** [memset (dst, c, len)]. *)
Definition fill (dst c len : Z) (m : Z -> Z) : Z -> Z :=
  fun a => if (dst <=? a) && (a <? dst + len) then c else m a.

Definition has_flag (flags f : Z) : bool := negb (Z.land flags f =? 0).

(** [pool]: which of the two pools [user] stands for. *)
Definition the_pool (user : bool) (p : pools) : pool :=
  if user then user_pool p else kernel_pool p.
Definition put_pool (user : bool) (x : pool) (p : pools) : pools :=
  if user then set_user_pool x p else set_kernel_pool x p.

Definition palloc_get_multiple (flags page_cnt : Z) : M pools Z :=
  let user := has_flag flags PAL_USER in
  if page_cnt =? 0 then ret NULL
  else
    p <- gets (the_pool user);;
    r <- lift (bitmap_scan_and_flip (used_map p) 0 page_cnt false);;
    modify (put_pool user (set_used_map r.2 p));;;
    let page_idx := r.1 in
    let pages := if negb (page_idx =? BITMAP_ERROR)
                 then u32 (base p + u32 (PGSIZE * page_idx)) else NULL in
    (if negb (pages =? NULL) then
       if has_flag flags PAL_ZERO
       then modify (fun s => set_mem (fill pages 0 (u32 (PGSIZE * page_cnt)) (mem s)) s)
       else ret tt
     else if has_flag flags PAL_ASSERT then panic else ret tt);;;
    ret pages.

Definition palloc_get_page (flags : Z) : M pools Z := palloc_get_multiple flags 1.

Definition page_from_pool (p : pool) (page : Z) : bool :=
  let page_no := pg_no page in
  let start_page := pg_no (base p) in
  let end_page := u32 (start_page + bitmap_size (used_map p)) in
  (start_page <=? page_no) && (page_no <? end_page).

Definition palloc_free_multiple (pages page_cnt : Z) : M pools unit :=
  assert (pg_ofs pages =? 0);;;
  if (pages =? NULL) || (page_cnt =? 0) then ret tt
  else
    s <- get;;
    user <- (if page_from_pool (kernel_pool s) pages then ret false
             else if page_from_pool (user_pool s) pages then ret true
             else panic);;
    let p := the_pool user s in
    let page_idx := u32 (pg_no pages - pg_no (base p)) in
    modify (fun s => set_mem (fill pages 0xcc (u32 (PGSIZE * page_cnt)) (mem s)) s);;;
    all <- lift (bitmap_all (used_map p) page_idx page_cnt);;
    assert all;;;
    b <- lift (bitmap_set_multiple (used_map p) page_idx page_cnt false);;
    modify (put_pool user (set_used_map b p)).

Definition palloc_free_page (page : Z) : M pools unit := palloc_free_multiple page 1.

(** [garbage]: what the memory of the bitmap's elements holds before. *)
Definition init_pool (start page_cnt : Z) (garbage : list Z) : res pool :=
  let bm_pages := DIV_ROUND_UP (bitmap_buf_size page_cnt) PGSIZE in
  if bm_pages >? page_cnt then Panic
  else
    let page_cnt := page_cnt - bm_pages in
    b <-! bitmap_create_in_buf page_cnt garbage (u32 (bm_pages * PGSIZE));;
    Ok (Pool b (u32 (start + bm_pages * PGSIZE))).

Definition palloc_init (init_ram_pages user_page_limit : Z) (kgarbage ugarbage : list Z)
    (m : Z -> Z) : res pools :=
  free_start <-! ptov (1024 * 1024);;
  free_end <-! ptov (u32 (init_ram_pages * PGSIZE));;
  let free_pages := u32 (Z.quot (i32 (free_end - free_start)) PGSIZE) in
  let user_pages := free_pages / 2 in
  let user_pages := if user_pages >? user_page_limit then user_page_limit else user_pages in
  let kernel_pages := u32 (free_pages - user_pages) in
  k <-! init_pool free_start kernel_pages kgarbage;;
  u <-! init_pool (u32 (free_start + u32 (kernel_pages * PGSIZE))) user_pages ugarbage;;
  Ok (Pools k u m).

(** ** Pages of a pool *)

(** Page number [i] of the pool. *)
Definition page (p : pool) (i : Z) : Z := base p + 4096 * i.

Record pool_wf (p : pool) : Prop := PoolWf {
  pw_map : bitmap_wf (used_map p);
  pw_base : 0 < base p;
  pw_aligned : base p mod 4096 = 0;
  pw_end : base p + 4096 * bit_cnt (used_map p) <= 2 ^ 32
}.

Definition managed_by (p : pool) (pg : Z) : Prop :=
  exists i, 0 <= i < bit_cnt (used_map p) /\ pg = page p i.

Definition used_in (p : pool) (pg : Z) : Prop :=
  exists i, 0 <= i < bit_cnt (used_map p) /\ pg = page p i /\ bit (used_map p) i = true.

Record pools_wf (p : pools) : Prop := PoolsWf {
  pws_kernel : pool_wf (kernel_pool p);
  pws_user : pool_wf (user_pool p);
  pws_disjoint pg : managed_by (kernel_pool p) pg -> managed_by (user_pool p) pg -> False
}.

(** Both pools. *)
Definition managed (p : pools) (pg : Z) : Prop :=
  managed_by (kernel_pool p) pg \/ managed_by (user_pool p) pg.
Definition used (p : pools) (pg : Z) : Prop :=
  used_in (kernel_pool p) pg \/ used_in (user_pool p) pg.

Lemma the_pool_wf u s : pools_wf s -> pool_wf (the_pool u s).
Proof. intros []. by destruct u. Qed.

Lemma put_the_pool u s : put_pool u (set_used_map (used_map (the_pool u s)) (the_pool u s)) s = s.
Proof. destruct s as [[] [] m], u; reflexivity. Qed.

Lemma page_bound p i :
  pool_wf p -> 0 <= i < bit_cnt (used_map p) ->
  0 < page p i <= 2 ^ 32 - 4096 /\ page p i mod 4096 = 0 /\ page p i / 4096 = base p / 4096 + i.
Proof.
  intros [_ Hb Ha He] Hi. unfold page. split_and!; [lia|lia|..].
  - rewrite Z.mul_comm, Z.mod_add by lia. done.
  - rewrite Z.mul_comm, Z.div_add by lia. done.
Qed.

Lemma page_inj p i j : page p i = page p j -> i = j.
Proof. unfold page. lia. Qed.

(** ** Getting pages *)

(** The contents of memory after a page group was handed out. *)
Definition handed_out (flags pages cnt : Z) (m : Z -> Z) : Z -> Z :=
  if has_flag flags PAL_ZERO then fill pages 0 (4096 * cnt) m else m.

Lemma get_multiple_cases flags cnt s :
  pools_wf s -> 0 < cnt ->
  let u := has_flag flags PAL_USER in
  let p := the_pool u s in
  (exists i b', 0 <= i /\ i + cnt <= bit_cnt (used_map p) /\ group (used_map p) i cnt false /\
     (forall j, 0 <= j < i -> ~ group (used_map p) j cnt false) /\
     bits_set (range i cnt) true (used_map p) b' /\
     palloc_get_multiple flags cnt s
     = Ok (page p i, set_mem (handed_out flags (page p i) cnt (mem s))
                       (put_pool u (set_used_map b' p) s))) \/
  ((forall j, 0 <= j -> j + cnt <= bit_cnt (used_map p) -> ~ group (used_map p) j cnt false) /\
   palloc_get_multiple flags cnt s
   = if has_flag flags PAL_ASSERT then Panic else Ok (NULL, s)).
Proof.
  intros Hwf Hcnt u p. pose proof (the_pool_wf u s Hwf) as Hp. fold p in Hp.
  destruct (bitmap_scan_and_flip_ok (used_map p) 0 cnt false (pw_map _ Hp))
    as (r & b' & E & Hscan & Herr & Hset); [pose proof (wf_cnt _ (pw_map _ Hp)); lia|lia|].
  unfold palloc_get_multiple. rewrite (proj2 (Z.eqb_neq _ _)) by lia. cbn [bind gets].
  unfold bind, gets, lift. fold u p. cbn [res_bind fst snd]. rewrite E. cbn [res_bind fst snd modify].
  destruct Hscan as [[-> Hno]|(H0 & Hle & Hg & Hfirst)].
  - right. split; [intros j; apply Hno|]. rewrite Herr by done. unfold p. rewrite put_the_pool.
    cbn. by destruct (has_flag flags PAL_ASSERT).
  - left. assert (r <> BITMAP_ERROR) as Hr.
    { pose proof (wf_cnt _ (pw_map _ Hp)). unfold BITMAP_ERROR. lia. }
    destruct (page_bound p r Hp ltac:(lia)) as (Hpg & _ & _).
    exists r, b'. split_and!; try done; [by apply Hset|].
    rewrite (proj2 (Z.eqb_neq r _) Hr). cbn [negb]. pose proof (pw_end _ Hp).
    pose proof (pw_base _ Hp).
    rewrite (u32_id (PGSIZE * r)), (u32_id (PGSIZE * cnt)) by (unfold PGSIZE; lia).
    change (base p + PGSIZE * r) with (page p r). rewrite u32_id by lia.
    rewrite (proj2 (Z.eqb_neq _ NULL)) by (unfold NULL; lia). cbn [negb]. unfold handed_out.
    destruct (has_flag flags PAL_ZERO); [by destruct u, s|by destruct u, s].
Qed.

(** ** Freeing pages *)

Lemma page_from_pool_spec p pg :
  pool_wf p -> 0 <= pg -> pg mod 4096 = 0 -> (page_from_pool p pg = true <-> managed_by p pg).
Proof.
  intros [Hm Hb Ha He] Hpg Hal. pose proof (wf_cnt _ Hm) as Hc.
  unfold page_from_pool, managed_by, bitmap_size, page. rewrite !pg_no_div.
  pose proof (Z.div_mod (base p) 4096 ltac:(lia)) as E1.
  pose proof (Z.div_mod pg 4096 ltac:(lia)) as E2.
  rewrite u32_id by lia. rewrite andb_true_iff, Z.leb_le, Z.ltb_lt. split.
  - intros [H1 H2]. exists (pg / 4096 - base p / 4096). lia.
  - intros (i & Hi & ->). rewrite Z.mul_comm, Z.div_add by lia. lia.
Qed.

Lemma the_pool_found u s pg :
  pools_wf s -> managed_by (the_pool u s) pg -> 0 <= pg -> pg mod 4096 = 0 ->
  (if page_from_pool (kernel_pool s) pg then ret false
   else if page_from_pool (user_pool s) pg then ret true else panic) s = Ok (u, s).
Proof.
  intros [Hk Hu Hd] Hm H0 Ha.
  pose proof (page_from_pool_spec _ pg Hk H0 Ha) as Ek.
  pose proof (page_from_pool_spec _ pg Hu H0 Ha) as Eu.
  destruct u; cbn [the_pool] in Hm.
  - destruct (page_from_pool (kernel_pool s) pg).
    + exfalso. eapply Hd; [|exact Hm]. by apply Ek.
    + by rewrite (proj2 Eu Hm).
  - by rewrite (proj2 Ek Hm).
Qed.

Lemma free_multiple_ok u s i cnt :
  pools_wf s -> 0 <= i -> 0 < cnt -> let p := the_pool u s in
  i + cnt <= bit_cnt (used_map p) -> group (used_map p) i cnt true ->
  exists b', bits_set (range i cnt) false (used_map p) b' /\
    palloc_free_multiple (page p i) cnt s
    = Ok (tt, put_pool u (set_used_map b' p)
                (set_mem (fill (page p i) 0xcc (4096 * cnt) (mem s)) s)).
Proof.
  intros Hwf Hi Hcnt p Hle Hg. pose proof (the_pool_wf u s Hwf) as Hp. fold p in Hp.
  destruct (page_bound p i Hp ltac:(lia)) as (Hpg & Hal & Hno).
  destruct (bitmap_all_ok (used_map p) i cnt) as (r & Ea & Hr); [apply Hp|lia..|].
  destruct (bitmap_set_multiple_ok (used_map p) i cnt false) as (b' & Es & Hb'); [apply Hp|lia..|].
  exists b'. split; [done|]. unfold palloc_free_multiple.
  rewrite pg_ofs_mod, Hal by lia. rewrite (proj2 (Z.eqb_neq (page p i) NULL)) by (unfold NULL; lia).
  rewrite (proj2 (Z.eqb_neq cnt 0)) by lia. cbn [orb Z.eqb].
  unfold bind at 1. cbn [assert res_bind fst snd]. unfold bind at 1. cbn [get res_bind fst snd].
  unfold bind at 1. rewrite (the_pool_found u s); [|done| |lia|done].
  2: { exists i. split; [fold p; lia|done]. }
  cbn [res_bind fst snd]. fold p. pose proof (pw_end _ Hp). pose proof (pw_base _ Hp).
  pose proof (wf_cnt _ (pw_map _ Hp)).
  rewrite !pg_no_div, Hno. replace (base p / 4096 + i - base p / 4096) with i by lia.
  rewrite (u32_id i), (u32_id (PGSIZE * cnt)) by (unfold PGSIZE; lia).
  unfold bind, lift. cbn [modify res_bind fst snd]. rewrite Ea. cbn [res_bind fst snd].
  rewrite (proj2 Hr Hg). cbn [assert res_bind fst snd]. rewrite Es. reflexivity.
Qed.

(** ** The interface *)

(** Changing the bits of one pool. *)
Lemma put_pool_wf u s b' m :
  pools_wf s -> bit_cnt b' = bit_cnt (used_map (the_pool u s)) -> bitmap_wf b' ->
  pools_wf (set_mem m (put_pool u (set_used_map b' (the_pool u s)) s)).
Proof.
  intros [Hk Hu Hd] Hc Hb. assert (forall p, pool_wf p -> bit_cnt b' = bit_cnt (used_map p) ->
    pool_wf (set_used_map b' p)) as Hwf.
  { intros p [] E. split; try done. cbn. by rewrite E. }
  destruct u; cbn in *; split; cbn; auto; intros pg (i & Hi & E) (j & Hj & E');
    apply (Hd pg); [exists i|exists j|exists i|exists j]; (split; [|done]); cbn in Hi, Hj; lia.
Qed.

Lemma put_pool_managed u s b' m q :
  bit_cnt b' = bit_cnt (used_map (the_pool u s)) ->
  managed (set_mem m (put_pool u (set_used_map b' (the_pool u s)) s)) q <-> managed s q.
Proof. intros Hc. destruct u; cbn in *; unfold managed, managed_by; cbn; by rewrite Hc. Qed.

(** The pages in use after [v] was stored for the pages that satisfy [R]. *)
Lemma put_pool_used u s b' m (R : Z -> Prop) v :
  pools_wf s -> bits_set R v (used_map (the_pool u s)) b' ->
  (forall i, R i \/ ~ R i) -> forall q,
  used (set_mem m (put_pool u (set_used_map b' (the_pool u s)) s)) q <->
  (exists i, 0 <= i < bit_cnt (used_map (the_pool u s)) /\ R i /\ q = page (the_pool u s) i /\ v = true) \/
  (used s q /\ ~ exists i, 0 <= i < bit_cnt (used_map (the_pool u s)) /\ R i /\ q = page (the_pool u s) i).
Proof.
  intros [_ _ Hd] (Hc & _ & Hb) Hdec q.
  assert (used_in (set_used_map b' (the_pool u s)) q <->
    (exists i, 0 <= i < bit_cnt (used_map (the_pool u s)) /\ R i /\ q = page (the_pool u s) i /\ v = true) \/
    (used_in (the_pool u s) q /\
     ~ exists i, 0 <= i < bit_cnt (used_map (the_pool u s)) /\ R i /\ q = page (the_pool u s) i)) as H1.
  { unfold used_in. cbn [used_map set_used_map]. rewrite Hc. split.
    - intros (i & Hi & Hq & Hv). destruct (Hb i Hi) as [Ht Hf]. destruct (Hdec i) as [HR|HR].
      + left. exists i. rewrite Ht in Hv by done. done.
      + right. rewrite Hf in Hv by done. split; [by exists i|].
        intros (j & _ & HRj & Hq'). rewrite Hq' in Hq.
        apply (page_inj (the_pool u s)) in Hq. by subst.
    - intros [(i & Hi & HR & Hq & ->)|[(i & Hi & Hq & Hv) Hno]]; exists i;
        (split; [done|split; [done|]]); destruct (Hb i Hi) as [Ht Hf]; [by apply Ht|].
      rewrite Hf; [done|]. intros HR. apply Hno. by exists i. }
  assert (forall pg, used_in (the_pool (negb u) s) pg -> managed_by (the_pool u s) pg -> False) as Hx.
  { intros pg (i & Hi & Hq & _) Hm. destruct u; cbn in *; eapply Hd; try eassumption; by exists i. }
  assert (used (set_mem m (put_pool u (set_used_map b' (the_pool u s)) s)) q <->
    used_in (set_used_map b' (the_pool u s)) q \/ used_in (the_pool (negb u) s) q) as ->.
  { destruct u; unfold used; cbn; tauto. }
  assert (used s q <-> used_in (the_pool u s) q \/ used_in (the_pool (negb u) s) q) as ->.
  { destruct u; unfold used; cbn; tauto. }
  rewrite H1. split; [|tauto]. intros [[?|?]|Hq]; [tauto|tauto|right]. split; [tauto|].
  intros (i & Hi & _ & ->). eapply Hx; [exact Hq|]. by exists i.
Qed.

(** [palloc_get_page (PAL_ZERO)], with [PAL_USER] for a user page. *)
Definition get_page (user : bool) (s : pools) : option (Z * pools) :=
  match palloc_get_page (Z.lor PAL_ZERO (if user then PAL_USER else 0)) s with
  | Ok (pg, s') => if pg =? NULL then None else Some (pg, s')
  | _ => None
  end.

Definition free_page (pg : Z) (s : pools) : res pools :=
  r <-! palloc_free_page pg s;; Ok r.2.

(** [pg] is a free page of a pool, used in [s']. *)
Definition taken (user : bool) (s : pools) (pg : Z) (s' : pools) : Prop :=
  exists i b' m, let p := the_pool user s in
    0 <= i < bit_cnt (used_map p) /\ bit (used_map p) i = false /\
    bits_set (range i 1) true (used_map p) b' /\ pg = page p i /\
    s' = set_mem m (put_pool user (set_used_map b' p) s).

Lemma get_page_cases flags s : pools_wf s -> has_flag flags PAL_ASSERT = false ->
  palloc_get_page flags s = Ok (NULL, s) \/
  exists pg s', palloc_get_page flags s = Ok (pg, s') /\ pg <> NULL /\
    taken (has_flag flags PAL_USER) s pg s'.
Proof.
  intros Hwf Hf. unfold palloc_get_page.
  destruct (get_multiple_cases flags 1 s Hwf ltac:(lia)) as [(i & b' & H0 & Hle & Hg & _ & Hset & E)|[_ E]];
    rewrite E, ?Hf; [right|by left].
  destruct (page_bound _ i (the_pool_wf (has_flag flags PAL_USER) s Hwf) ltac:(lia)) as (Hb & _).
  eexists _, _. split; [done|]. split; [unfold NULL; lia|].
  eexists i, b', _. split_and!; [lia|lia|apply Hg; unfold range; lia|done..].
Qed.

Lemma get_page_spec user s pg s' : pools_wf s -> get_page user s = Some (pg, s') -> taken user s pg s'.
Proof.
  intros Hwf. unfold get_page. set (f := Z.lor _ _).
  assert (has_flag f PAL_USER = user /\ has_flag f PAL_ASSERT = false) as [Hu Ha] by by destruct user.
  destruct (get_page_cases f s Hwf Ha) as [->|(p & s1 & -> & Hn & Ht)]; [done|].
  rewrite (proj2 (Z.eqb_neq p NULL)), Hu in * by done. by intros [= <- <-].
Qed.

Lemma free_page_spec s pg :
  pools_wf s -> used s pg ->
  exists user i b' m, let p := the_pool user s in
    0 <= i < bit_cnt (used_map p) /\ bits_set (range i 1) false (used_map p) b' /\
    pg = page p i /\ free_page pg s = Ok (set_mem m (put_pool user (set_used_map b' p) s)).
Proof.
  intros Hwf Hu.
  assert (exists u i, 0 <= i < bit_cnt (used_map (the_pool u s)) /\ pg = page (the_pool u s) i /\
    bit (used_map (the_pool u s)) i = true) as (u & i & Hi & -> & Hbit).
  { destruct Hu as [(i & Hu)|(i & Hu)]; [by exists false, i|by exists true, i]. }
  destruct (free_multiple_ok u s i 1 Hwf) as (b' & Hset & E); [lia|lia|lia|..].
  { intros j Hj. unfold range in Hj. by replace j with i by lia. }
  eexists u, i, b', _. split_and!; [lia|lia|done|done|]. unfold free_page, palloc_free_page.
  rewrite E. by destruct u, s.
Qed.

(** One page: the only index in the range. *)
Lemma one_page u s i q :
  0 <= i < bit_cnt (used_map (the_pool u s)) ->
  (exists j, 0 <= j < bit_cnt (used_map (the_pool u s)) /\ range i 1 j /\ q = page (the_pool u s) j)
  <-> q = page (the_pool u s) i.
Proof.
  intros Hi. unfold range. split.
  - intros (j & _ & Hj & ->). f_equal. lia.
  - intros ->. exists i. split; [done|]. split; [lia|done].
Qed.

(** Whether a page is used is in the map of the one pool it belongs to. *)
Lemma used_page u s i :
  pools_wf s -> 0 <= i < bit_cnt (used_map (the_pool u s)) ->
  used s (page (the_pool u s) i) -> bit (used_map (the_pool u s)) i = true.
Proof.
  intros [_ _ Hd] Hi Hu.
  assert (exists v j, page (the_pool u s) i = page (the_pool v s) j /\
    0 <= j < bit_cnt (used_map (the_pool v s)) /\ bit (used_map (the_pool v s)) j = true)
    as (v & j & Hq & Hj & Hbit).
  { destruct Hu as [(j & ? & ? & ?)|(j & ? & ? & ?)]; [by exists false, j|by exists true, j]. }
  destruct (decide (u = v)) as [<-|Hne].
  - apply page_inj in Hq. by subst.
  - exfalso. destruct u, v; try done; cbn in *; eapply Hd; [by exists j|by exists i|by exists i|by exists j].
Qed.

Lemma taken_fresh u s pg s' : pools_wf s -> taken u s pg s' -> ~ used s pg.
Proof.
  intros Hwf (i & b' & m & Hi & Hf & _ & -> & _) Hu.
  apply used_page in Hu; [congruence|done..].
Qed.

Lemma taken_wf u s pg s' : pools_wf s -> taken u s pg s' -> pools_wf s'.
Proof. intros Hwf (i & b' & m & _ & _ & (Hc & Hb & _) & _ & ->). by apply put_pool_wf. Qed.

Lemma taken_used u s pg s' q : pools_wf s -> taken u s pg s' -> used s' q <-> q = pg \/ used s q.
Proof.
  intros Hwf (i & b' & m & Hi & _ & Hset & -> & ->).
  rewrite (put_pool_used u s b' m _ _ Hwf Hset (range_dec i 1) q), (one_page u s i q Hi).
  pose proof (one_page u s i q Hi) as H1. split.
  - intros [(j & Hj & HR & Hq & _)|[? _]]; [left|by right]. apply H1. by exists j.
  - intros [Hq|Hu].
    + left. apply H1 in Hq as (j & ? & ? & ?). by exists j.
    + destruct (decide (q = page (the_pool u s) i)) as [Hq|]; [|by right].
      left. apply H1 in Hq as (j & ? & ? & ?). by exists j.
Qed.

Lemma free_page_used s pg s' q :
  pools_wf s -> used s pg -> free_page pg s = Ok s' -> used s' q <-> q <> pg /\ used s q.
Proof.
  intros Hwf Hu E.
  destruct (free_page_spec s pg Hwf Hu) as (u & i & b' & m & Hi & Hset & -> & E').
  rewrite E in E'. injection E' as ->.
  rewrite (put_pool_used u s b' m _ _ Hwf Hset (range_dec i 1) q), (one_page u s i q Hi).
  split; [intros [(j & _ & _ & _ & [=])|?]; tauto|tauto].
Qed.

#[export, refine] Instance palloc_allocator : PageAllocator pools := {|
  pa_get := get_page;
  pa_free := free_page;
  pa_wf := pools_wf;
  pa_managed := managed;
  pa_used := used;
  pa_get_fresh u s pg s' H E := taken_fresh u s pg s' H (get_page_spec u s pg s' H E);
  pa_get_wf u s pg s' H E := taken_wf u s pg s' H (get_page_spec u s pg s' H E);
  pa_get_used u s pg s' q H E := taken_used u s pg s' q H (get_page_spec u s pg s' H E);
  pa_free_used := free_page_used
|}.
Proof.
  - intros s pg s' Hwf Hu E.
    destruct (free_page_spec s pg Hwf Hu) as (u & i & b' & m & _ & (Hc & Hb & _) & _ & E').
    rewrite E in E'. injection E' as ->. by apply put_pool_wf.
  - intros u s pg s' q Hwf (i & b' & m & Hi & _ & (Hc & _) & -> & ->)%get_page_spec; [|done].
    split; [|by apply put_pool_managed]. destruct u; [right|left]; by exists i.
  - intros s pg s' q Hwf Hu E.
    destruct (free_page_spec s pg Hwf Hu) as (u & i & b' & m & _ & (Hc & _) & _ & E').
    rewrite E in E'. injection E' as ->. by apply put_pool_managed.
  - intros u s pg s' Hwf (i & b' & m & Hi & _ & _ & -> & _)%get_page_spec; [|done].
    destruct (page_bound _ i (the_pool_wf u s Hwf) Hi) as (? & ? & _). lia.
  - intros s pg Hwf Hu.
    destruct (free_page_spec s pg Hwf Hu) as (u & i & b' & m & _ & _ & _ & E). eauto.
Defined.

(** ** Initialisation *)

(** The pages that the bitmap of a pool of [n] pages takes. *)
Definition map_pages (n : Z) : Z := DIV_ROUND_UP (bitmap_buf_size n) PGSIZE.

Lemma buf_size_eq n : 0 <= n <= 2 ^ 20 -> bitmap_buf_size n = 8 + 4 * ((n + 31) / 32).
Proof.
  intros Hn. unfold bitmap_buf_size, byte_cnt. rewrite elem_cnt_eq by lia.
  assert ((n + 31) / 32 <= n + 31) by (apply Z.div_le_upper_bound; lia).
  assert (0 <= (n + 31) / 32) by (apply Z.div_pos; lia). rewrite (u32_id (4 * _)), u32_id by lia. done.
Qed.

Lemma map_pages_bound n :
  1 <= n <= 2 ^ 20 -> 0 < map_pages n <= n /\ bitmap_buf_size n <= map_pages n * 4096.
Proof.
  intros Hn. pose proof (buf_size_eq n ltac:(lia)) as E. unfold map_pages, DIV_ROUND_UP, PGSIZE.
  assert (8 <= bitmap_buf_size n <= 4 * n + 132).
  { rewrite E. Z.to_euclidean_division_equations; lia. }
  assert (bitmap_buf_size n <= 4096 * n).
  { rewrite E. Z.to_euclidean_division_equations; lia. }
  rewrite u32_id by lia. Z.to_euclidean_division_equations; lia.
Qed.

Lemma init_pool_ok start n garbage :
  1 <= n <= 2 ^ 20 -> 0 < start -> start mod 4096 = 0 -> start + n * 4096 < 2 ^ 32 ->
  storage (n - map_pages n) garbage ->
  exists p, init_pool start n garbage = Ok p /\ pool_wf p /\
    base p = start + map_pages n * 4096 /\ bit_cnt (used_map p) = n - map_pages n /\
    group (used_map p) 0 (n - map_pages n) false.
Proof.
  intros Hn Hs Ha He Hg. destruct (map_pages_bound n Hn) as [Hm Hbuf].
  unfold init_pool. fold (map_pages n). rewrite Z.gtb_ltb, (proj2 (Z.ltb_ge _ _)) by lia.
  destruct (bitmap_set_all_ok (n - map_pages n) garbage false) as (b & E & Hc & Hwf & Hf);
    [lia|done|].
  unfold bitmap_create_in_buf. unfold PGSIZE. rewrite (u32_id (map_pages n * 4096)) by lia.
  assert (bitmap_buf_size (n - map_pages n) <= bitmap_buf_size n).
  { rewrite !buf_size_eq by lia. apply Z.add_le_mono_l, Z.mul_le_mono_nonneg_l; [lia|].
    apply Z.div_le_mono; lia. }
  rewrite (proj2 (Z.leb_le _ _)) by lia. cbn [res_assert res_bind]. rewrite E. cbn [res_bind].
  rewrite u32_id by lia. eexists. split; [done|]. cbn. split_and!; [|lia|done|done].
  split; cbn; [done|lia|by rewrite Z.mod_add|rewrite Hc; lia].
Qed.

(** How [palloc_init] divides [ram] pages of memory. *)
Definition user_share (ram limit : Z) : Z := Z.min ((ram - 256) / 2) limit.
Definition kernel_share (ram limit : Z) : Z := ram - 256 - user_share ram limit.

Lemma palloc_init_ok ram limit kg ug m :
  258 <= ram < 2 ^ 18 -> 1 <= limit < 2 ^ 32 ->
  let kn := kernel_share ram limit in let un := user_share ram limit in
  storage (kn - map_pages kn) kg -> storage (un - map_pages un) ug ->
  exists s, palloc_init ram limit kg ug m = Ok s /\ pools_wf s /\ (forall pg, ~ used s pg) /\
    (forall pg, managed s pg -> PHYS_BASE + 2 ^ 20 <= pg < PHYS_BASE + ram * 4096).
Proof.
  intros Hram Hlim kn un Hk Hu.
  assert (1 <= un <= ram - 257 /\ kn = ram - 256 - un) as [Hun Hkn].
  { unfold kn, kernel_share. fold un. unfold un, user_share. Z.to_euclidean_division_equations; lia. }
  destruct (init_pool_ok (PHYS_BASE + 2 ^ 20) kn kg) as (k & Ek & Wk & Bk & Ck & Fk);
    [lia|done|done|unfold PHYS_BASE; lia|done|].
  destruct (init_pool_ok (PHYS_BASE + 2 ^ 20 + kn * 4096) un ug) as (u & Eu & Wu & Bu & Cu & Fu);
    [lia|unfold PHYS_BASE; lia|by rewrite Z.mod_add|unfold PHYS_BASE; lia|done|].
  destruct (map_pages_bound kn ltac:(lia)) as [Hmk _], (map_pages_bound un ltac:(lia)) as [Hmu _].
  exists (Pools k u m). split_and!.
  - unfold palloc_init, PGSIZE. rewrite (u32_id (ram * 4096)), !ptov_ok by lia. cbn [res_bind].
    replace (ram * 4096 + PHYS_BASE - (1024 * 1024 + PHYS_BASE)) with ((ram - 256) * 4096) by lia.
    rewrite i32_id by lia. rewrite Z.quot_mul, (u32_id (ram - 256)) by lia.
    rewrite Z.gtb_ltb. replace (if limit <? (ram - 256) / 2 then limit else (ram - 256) / 2) with un.
    2: { unfold un, user_share. destruct (Z.ltb_spec limit ((ram - 256) / 2)); lia. }
    rewrite (u32_id (ram - 256 - un)), <- Hkn by lia.
    change (1024 * 1024 + PHYS_BASE) with (PHYS_BASE + 2 ^ 20). rewrite Ek. cbn [res_bind].
    rewrite (u32_id (kn * 4096)), u32_id by (unfold PHYS_BASE; lia).
    by rewrite Eu.
  - split; [done|done|]. intros pg (i & Hi & ->) (j & Hj & E). cbn in Hi, Hj. unfold page in E.
    cbn [kernel_pool user_pool] in E. lia.
  - intros pg [(i & Hi & _ & Hb)|(i & Hi & _ & Hb)]; cbn in Hi, Hb.
    + rewrite Fk in Hb; [done|]. unfold range. lia.
    + rewrite Fu in Hb; [done|]. unfold range. lia.
  - intros pg [(i & Hi & ->)|(i & Hi & ->)]; cbn in Hi; unfold page; cbn [kernel_pool user_pool]; lia.
Qed.

(** ** Theorems *)

(** Pools whose maps hold the same bits have the same pages in use. *)
Lemma used_in_ext p b q :
  bit_cnt b = bit_cnt (used_map p) ->
  (forall i, 0 <= i < bit_cnt b -> bit b i = bit (used_map p) i) ->
  used_in (set_used_map b p) q <-> used_in p q.
Proof.
  intros Hc Hb. unfold used_in. cbn [used_map set_used_map]. split.
  - intros (i & Hi & -> & Hv). exists i. rewrite <- Hc, <- Hb by done. done.
  - intros (i & Hi & -> & Hv). exists i. rewrite Hc, Hb by (by rewrite Hc). done.
Qed.

Lemma bits_set_undo b b1 b2 (R : Z -> Prop) v :
  bits_set R (negb v) b b1 -> bits_set R v b1 b2 -> (forall i, R i \/ ~ R i) ->
  (forall i, R i -> bit b i = v) ->
  bit_cnt b2 = bit_cnt b /\ forall i, 0 <= i < bit_cnt b2 -> bit b2 i = bit b i.
Proof.
  intros (C1 & _ & H1) (C2 & _ & H2) Hdec Hb. split; [congruence|]. intros i Hi.
  rewrite C2 in Hi. destruct (H2 i Hi) as [T2 F2]. rewrite C1 in Hi. destruct (H1 i Hi) as [_ F1].
  destruct (Hdec i) as [HR|HR]; [by rewrite T2, Hb|by rewrite F2, F1].
Qed.

(** C26: [palloc_get_multiple] hands out the first group of free pages of the
    requested pool, marks exactly those pages as used and, with [PAL_ZERO],
    clears exactly them; when there is no such group it returns a null pointer
    and leaves the pools alone, or panics with [PAL_ASSERT]. *)
Theorem palloc_get_multiple_correct flags cnt s :
  pools_wf s -> 0 < cnt ->
  let u := has_flag flags PAL_USER in
  let p := the_pool u s in
  (exists i s', 0 <= i /\ i + cnt <= bit_cnt (used_map p) /\
     group (used_map p) i cnt false /\
     (forall j, 0 <= j < i -> ~ group (used_map p) j cnt false) /\
     palloc_get_multiple flags cnt s = Ok (page p i, s') /\ pools_wf s' /\
     (forall q, used s' q <-> used s q \/ exists j, range i cnt j /\ q = page p j) /\
     (forall a, mem s' a = if has_flag flags PAL_ZERO && (page p i <=? a) &&
                              (a <? page p i + 4096 * cnt) then 0 else mem s a)) \/
  ((forall j, 0 <= j -> j + cnt <= bit_cnt (used_map p) -> ~ group (used_map p) j cnt false) /\
   palloc_get_multiple flags cnt s = if has_flag flags PAL_ASSERT then Panic else Ok (NULL, s)).
Proof.
  intros Hwf Hcnt u p.
  destruct (get_multiple_cases flags cnt s Hwf Hcnt) as [(i & b' & H0 & Hle & Hg & Hf & Hset & E)|?];
    [left|by right].
  fold u p in H0, Hle, Hg, Hf, Hset, E. eexists i, _. split_and!; [done..| | |].
  - apply put_pool_wf; [done|apply Hset|apply Hset].
  - intros q. unfold p. rewrite (put_pool_used u s b' _ _ _ Hwf Hset (range_dec i cnt) q).
    fold p. split.
    + intros [(j & _ & ? & ? & _)|[? _]]; [right; eauto|by left].
    + intros [Hq|(j & Hj & ->)]; [|left; exists j; unfold range in *; split; [lia|done]].
      right. split; [done|]. intros (j & Hj & HR & ->).
      apply used_page in Hq; [|done..]. by rewrite Hg in Hq.
  - intros a. cbn [mem set_mem]. unfold handed_out, fill.
    by destruct (has_flag flags PAL_ZERO).
Qed.

(** Freeing a group of pages just obtained never fails, and the pages in
    use are then the ones that were in use before. *)
Theorem palloc_free_get_roundtrip flags cnt s pg s1 :
  pools_wf s -> 0 < cnt -> palloc_get_multiple flags cnt s = Ok (pg, s1) -> pg <> NULL ->
  exists s2, palloc_free_multiple pg cnt s1 = Ok (tt, s2) /\ forall q, used s2 q <-> used s q.
Proof.
  intros Hwf Hcnt E Hn. set (u := has_flag flags PAL_USER).
  destruct (get_multiple_cases flags cnt s Hwf Hcnt) as [(i & b' & H0 & Hle & Hg & _ & Hset & E')|[_ E']];
    rewrite E in E'.
  2: { destruct (has_flag flags PAL_ASSERT); [done|]. by injection E' as ->. }
  fold u in H0, Hle, Hg, Hset, E'. injection E' as -> ->. clear E.
  set (p := the_pool u s) in *. set (m := handed_out _ _ _ _).
  set (s1 := set_mem m (put_pool u (set_used_map b' p) s)).
  assert (pools_wf s1) as Hwf1 by (apply put_pool_wf; [done|apply Hset|apply Hset]).
  assert (the_pool u s1 = set_used_map b' p) as Ep by (by destruct u).
  destruct (free_multiple_ok u s1 i cnt Hwf1) as (b2 & Hset2 & E2); rewrite ?Ep in *; cbn [used_map set_used_map] in *.
  - done.
  - done.
  - by destruct Hset as [-> _].
  - intros j Hj. apply Hset; [unfold range in Hj; lia|done].
  - change (page (set_used_map b' p) i) with (page p i) in E2. eexists. split; [exact E2|]. intros q.
    destruct (bits_set_undo _ _ _ _ false Hset Hset2 (range_dec i cnt) Hg) as [Hc2 Hb2].
    pose proof (used_in_ext p b2 q Hc2 Hb2) as Hu. unfold used.
    unfold s1, p in *. destruct u; cbn in *; by rewrite Hu.
Qed.

(** Start-up of the page allocator: on a machine with at least 258 pages
    (1 MB and 8 kB) and less than 1 GB of memory, [palloc_init] succeeds for
    every nonzero limit on user pages, whatever memory holds; the two pools are
    then well formed and disjoint, lie between 1 MB and the end of memory, and
    all of their pages are free. *)
Theorem palloc_init_correct ram limit kg ug m :
  258 <= ram < 2 ^ 18 -> 1 <= limit < 2 ^ 32 ->
  storage (kernel_share ram limit - map_pages (kernel_share ram limit)) kg ->
  storage (user_share ram limit - map_pages (user_share ram limit)) ug ->
  exists s, palloc_init ram limit kg ug m = Ok s /\ pools_wf s /\ (forall pg, ~ used s pg) /\
    (forall pg, managed s pg -> PHYS_BASE + 2 ^ 20 <= pg < PHYS_BASE + ram * 4096).
Proof. intros Hr Hl Hk Hu. by apply palloc_init_ok. Qed.

(** A machine with 300 pages of memory. *)
Definition small_pools : pools :=
  Pools (Pool (Bitmap 21 [0xdea00000]) 0xc0101000) (Pool (Bitmap 21 [0x12200000]) 0xc0117000) (fun _ => 0x5a).

Lemma small_pools_init :
  palloc_init 300 (2 ^ 32 - 1) [0xdeadbeef] [0x12345678] (fun _ => 0x5a) = Ok small_pools.
Proof. reflexivity. Qed.

Lemma small_storage e : 0 <= e < 2 ^ 32 -> storage 21 [e].
Proof. intros He. split; [reflexivity|by apply Forall_singleton]. Qed.

Lemma small_pools_wf : pools_wf small_pools /\ forall pg, ~ used small_pools pg.
Proof.
  destruct (palloc_init_ok 300 (2 ^ 32 - 1) [0xdeadbeef] [0x12345678] (fun _ => 0x5a))
    as (s & E & Hwf & Hf & _); [lia|lia|by apply small_storage|by apply small_storage|].
  rewrite small_pools_init in E. by injection E as <-.
Qed.

(** The result of a call, without the state. *)
Definition result {A : Type} (r : res (A * pools)) : option A :=
  match r with Ok (a, _) => Some a | _ => None end.

Lemma palloc_get_multiple_correct_witness :
  exists s', palloc_get_multiple (PAL_ZERO + PAL_USER) 3 small_pools = Ok (0xc0117000, s') /\
    mem s' 0xc0119fff = 0 /\ mem s' 0xc011a000 = 0x5a.
Proof.
  assert (result (palloc_get_multiple (PAL_ZERO + PAL_USER) 3 small_pools) = Some 0xc0117000) as E0
    by (vm_compute; reflexivity).
  destruct (palloc_get_multiple_correct (PAL_ZERO + PAL_USER) 3 small_pools (proj1 small_pools_wf)
    ltac:(lia)) as [(i & s' & _ & _ & _ & _ & E & _ & _ & Hm)|[_ E]]; rewrite E in E0.
  - assert (page (the_pool (has_flag (PAL_ZERO + PAL_USER) PAL_USER) small_pools) i = 0xc0117000)
      as Hi by exact (f_equal (default 0) E0).
    exists s'. rewrite Hi in E, Hm. split; [done|]. by rewrite !Hm.
  - discriminate E0.
Defined.

Lemma palloc_free_get_roundtrip_witness :
  exists s1 s2, palloc_get_multiple PAL_USER 3 small_pools = Ok (0xc0117000, s1) /\
    palloc_free_multiple 0xc0117000 3 s1 = Ok (tt, s2).
Proof.
  destruct (palloc_get_multiple PAL_USER 3 small_pools) as [[pg s1]| | |] eqn:E;
    pose proof (f_equal result E) as E'; vm_compute in E'; try discriminate E'.
  injection E' as <-.
  destruct (palloc_free_get_roundtrip PAL_USER 3 small_pools _ s1 (proj1 small_pools_wf)
    ltac:(lia) E ltac:(done)) as (s2 & E2 & _).
  by exists s1, s2.
Defined.

Lemma palloc_init_correct_witness :
  exists s, palloc_init 300 (2 ^ 32 - 1) [0xdeadbeef] [0x12345678] (fun _ => 0x5a) = Ok s /\
    pools_wf s.
Proof.
  destruct (palloc_init_correct 300 (2 ^ 32 - 1) [0xdeadbeef] [0x12345678] (fun _ => 0x5a))
    as (s & E & Hwf & _); [lia|lia|by apply small_storage|by apply small_storage|].
  by exists s.
Defined.
