(* ===== verification/FixedPoint.v ===== *)
(** * Fixed-point arithmetic of the BSD scheduler

    The [fp_*] functions at the end of threads/thread.c: 17.14 fixed-point
    numbers in a 32-bit [int].  [fp.fp_format] is [FP_FORMAT_32BIT] once
    [thread_init] has run with [thread_mlfqs] set. *)

From S2P Require Import Prelude.

Definition FP_FORMAT_32BIT : Z := 16384.
Abbreviation F := FP_FORMAT_32BIT.

(** The value of the flag that says whether the second operand is a
    fixed-point number or an integer. *)
Definition FP_REAR : bool := true.
Definition INT_REAR : bool := false.

Definition fp_convert_to_fp (n : Z) : Z := i32 (n * F).

(** [x&1024*1024*1024*2==0] parses as [x & ((1024*1024*1024*2) == 0)]; the
    constant is the 32-bit [int] that the multiplication wraps to. *)
Definition fp_convert_to_int (x : Z) : Z :=
  if negb (Z.land x (b2z (i32 (1024 * 1024 * 1024 * 2) =? 0)) =? 0)
  then Z.quot (i32 (x + Z.quot F 2)) F
  else Z.quot (i32 (x - Z.quot F 2)) F.

Definition fp_convert_to_int_down (x : Z) : Z := Z.quot x F.

Definition fp_add (a b : Z) (fp_rear : bool) : Z :=
  if fp_rear then i32 (a + b) else i32 (a + i32 (b * F)).

Definition fp_sub (a b : Z) (fp_rear : bool) : Z :=
  if fp_rear then i32 (a - b) else i32 (a - i32 (b * F)).

(** The product of a fixed-point multiplication is computed in 64 bits. *)
Definition fp_mult (a b : Z) (fp_rear : bool) : Z :=
  if fp_rear then i32 (Z.quot (i64 (a * b)) F) else i32 (a * b).

(** A division by zero traps. *)
Definition fp_devide (a b : Z) (fp_rear : bool) : res Z :=
  if b =? 0 then Fault
  else Ok (if fp_rear then i32 (Z.quot (i64 (a * F)) b) else i32 (Z.quot a b)).

(** ** Range and accuracy *)

Definition int_range (x : Z) : Prop := -2147483648 <= x < 2147483648.

Lemma i32_range x : int_range (i32 x).
Proof. apply i32_bound. Qed.

Lemma quot_F_range x : int_range x -> int_range (Z.quot x F).
Proof. unfold int_range, F. intros. Z.to_euclidean_division_equations; lia. Qed.

(** The conversion test is the constant 0: [fp_convert_to_int] always takes
    its second branch. *)
Lemma fp_convert_to_int_branch x :
  fp_convert_to_int x = Z.quot (i32 (x - 8192)) F.
Proof.
  unfold fp_convert_to_int. change (b2z _) with 0. rewrite Z.land_0_r. reflexivity.
Qed.

(** Converting an integer to fixed point and back with truncation is the
    identity on every integer that the 17.14 format can hold. *)
Theorem fp_roundtrip_down n :
  -131072 <= n < 131072 -> fp_convert_to_int_down (fp_convert_to_fp n) = n.
Proof.
  intros H. unfold fp_convert_to_int_down, fp_convert_to_fp, F.
  rewrite i32_id by lia. apply Z.quot_mul. lia.
Qed.

(** The rounding conversion does not round positive numbers to the nearest
    integer: it subtracts half a unit whatever the sign, so that it maps the
    fixed-point form of every positive [n] to [n - 1], while it is exact on
    nonpositive ones. *)
Theorem fp_convert_to_int_positive n :
  -131071 <= n < 131072 ->
  fp_convert_to_int (fp_convert_to_fp n) = if 0 <? n then n - 1 else n.
Proof.
  intros H. rewrite fp_convert_to_int_branch. unfold fp_convert_to_fp, F.
  rewrite !i32_id by (rewrite ?i32_id; lia).
  destruct (Z.ltb_spec 0 n); Z.to_euclidean_division_equations; lia.
Qed.

(** Exact results and error bounds, when nothing overflows. *)
Lemma fp_mult_fp a b :
  int_range a -> int_range b -> int_range (Z.quot (a * b) F) ->
  fp_mult a b FP_REAR = Z.quot (a * b) F.
Proof.
  unfold int_range. intros Ha Hb Hq. unfold fp_mult, FP_REAR.
  rewrite i64_id by nia. by rewrite i32_id.
Qed.

Lemma fp_devide_fp a b :
  int_range a -> b <> 0 -> int_range (Z.quot (a * F) b) ->
  fp_devide a b FP_REAR = Ok (Z.quot (a * F) b).
Proof.
  unfold int_range, F. intros Ha Hb Hq. unfold fp_devide, FP_REAR.
  destruct (Z.eqb_spec b 0); [done|]. unfold F.
  rewrite (i64_id (a * 16384)) by lia. by rewrite i32_id.
Qed.

(** Multiplying by a quotient and multiplying back loses less than one unit
    in the last place per operation: for nonnegative fixed-point [a] and
    positive [b] whose quotient fits, the product of the quotient with [b] is
    at most [a] and falls short of it by less than [b / F + 1]. *)
Theorem fp_divide_multiply_error a b :
  0 <= a < 2147483648 -> 0 < b < 2147483648 -> Z.quot (a * F) b < 2147483648 ->
  exists q, fp_devide a b FP_REAR = Ok q /\
    fp_mult q b FP_REAR <= a < fp_mult q b FP_REAR + Z.quot b F + 2.
Proof.
  intros Ha Hb Hq. exists (Z.quot (a * F) b).
  assert (0 <= Z.quot (a * F) b) by (apply Z.quot_pos; unfold F; lia).
  rewrite fp_devide_fp by (unfold int_range; lia). split; [done|].
  assert (Z.quot (a * F) b * b <= a * F < (Z.quot (a * F) b + 1) * b) as Hd.
  { rewrite Z.quot_div_nonneg by (unfold F; lia).
    pose proof (Z.mul_div_le (a * F) b). pose proof (Z.mul_succ_div_gt (a * F) b). lia. }
  set (q := Z.quot (a * F) b) in *. clearbody q.
  assert (0 <= q * b) by nia.
  rewrite fp_mult_fp by (unfold int_range; rewrite ?Z.quot_div_nonneg by (unfold F; lia);
    pose proof (Z.div_pos (q * b) F); pose proof (Z.div_le_upper_bound (q * b) F a);
    unfold F in *; lia).
  rewrite !Z.quot_div_nonneg by (unfold F; lia).
  pose proof (Z.mul_div_le (q * b) F). pose proof (Z.mul_succ_div_gt (q * b) F).
  pose proof (Z.mul_div_le b F). pose proof (Z.mul_succ_div_gt b F). unfold F in *. lia.
Qed.

Lemma fp_roundtrip_down_witness : fp_convert_to_int_down (fp_convert_to_fp (-59)) = -59.
Proof. apply (fp_roundtrip_down (-59)). lia. Defined.

Lemma fp_convert_to_int_positive_witness : fp_convert_to_int (fp_convert_to_fp 5) = 4.
Proof. apply (fp_convert_to_int_positive 5). lia. Defined.

Lemma fp_divide_multiply_error_witness :
  exists q, fp_devide (59 * 16384) (60 * 16384) FP_REAR = Ok q /\
    fp_mult q (60 * 16384) FP_REAR <= 59 * 16384.
Proof.
  destruct (fp_divide_multiply_error (59 * 16384) (60 * 16384)) as (q & E & H & _);
    [lia|lia|by vm_compute|]. by exists q.
Defined.
