(* ===== verification/Code.v ===== *)
(** * Interruptible kernel code and the uniprocessor that runs it

    Code that may be preempted, or that gives up the processor in the middle
    of a function, is a tree of atomic actions.  The machine keeps one tree
    per thread: what the thread will do when it next runs.  A step runs one
    action of the running thread, or, when interrupts are enabled, the
    interrupt handler. *)

From S2P Require Import Prelude.
From stdpp Require Import relations.
From Stdlib Require Import FunctionalExtensionality.

Section Code.
Context {K : Type}.

(** [Act m k]: run the action [m], then [k] of its result.
    [While m body k]: [while (m) body; k]. *)
Inductive code (A : Type) : Type :=
| Ret (a : A)
| Act (B : Type) (m : M K B) (k : B -> code A)
| While (m : M K bool) (body : code unit) (k : code A).

Arguments Ret {A} a.
Arguments Act {A B} m k.
Arguments While {A} m body k.

Fixpoint cbind {A B : Type} (c : code A) (f : A -> code B) : code B :=
  match c with
  | Ret a => f a
  | Act m k => Act m (fun b => cbind (k b) f)
  | While m body k => While m body (cbind k f)
  end.

Lemma cbind_assoc {A B C : Type} (c : code A) (f : A -> code B) (g : B -> code C) :
  cbind (cbind c f) g = cbind c (fun a => cbind (f a) g).
Proof.
  induction c as [A a|A D m k IH|A m body _ k IH]; cbn [cbind]; [done| |by rewrite IH].
  f_equal. apply functional_extensionality. intros b. apply IH.
Qed.

Definition act {A : Type} (m : M K A) : code A := Act m (fun a => Ret a).
Definition while (m : M K bool) (body : code unit) : code unit := While m body (Ret tt).

(** ** The machine *)

(** What the machine needs to know about the kernel. *)
Record processor := Processor {
  running : K -> Z;                 (* the thread whose stack is in use *)
  alive : K -> Z -> bool;           (* its memory has not been freed *)
  entry_point : K -> Z -> code unit;(* what a thread runs the first time *)
  irq_enabled : K -> bool;
  irq : M K bool;                   (* the handler; whether to yield *)
  irq_yield : code unit             (* yield on return from the interrupt *)
}.

Record machine := Machine { kst : K; conts : gmap Z (code unit) }.

Context (P : processor).

Definition resume (m : machine) : code unit :=
  default (entry_point P (kst m) (running P (kst m))) (conts m !! running P (kst m)).

(** Suspend thread [t] at [c]; nothing is kept for a thread that is gone. *)
Definition suspend (t : Z) (c : code unit) (k : K) (cs : gmap Z (code unit)) : machine :=
  Machine k (if alive P k t then <[t := c]> cs else delete t cs).

(** One action of the running thread.  A thread's code never returns. *)
Definition cpu_step (m : machine) : res machine :=
  let t := running P (kst m) in
  match resume m with
  | Ret _ => Fault
  | Act a k =>
      r <-! a (kst m);; Ok (suspend t (k r.1) r.2 (conts m))
  | While a body k =>
      r <-! a (kst m);;
      Ok (suspend t (if r.1 : bool then cbind body (fun _ => While a body k) else k)
            r.2 (conts m))
  end.

(** An interrupt: the handler runs to completion on the stack of the running
    thread, which may then have to yield before it goes on. *)
Definition irq_step (m : machine) : res machine :=
  let t := running P (kst m) in
  if irq_enabled P (kst m) then
    r <-! irq P (kst m);;
    Ok (suspend t (if r.1 : bool then cbind (irq_yield P) (fun _ => resume m)
                   else resume m) r.2 (conts m))
  else Ok m.

Inductive step (m m' : machine) : Prop :=
| step_cpu : cpu_step m = Ok m' -> step m m'
| step_irq : irq_step m = Ok m' -> step m m'.

Definition reachable (m0 m : machine) : Prop := rtc step m0 m.

(** The same as a function of the sequence of events. *)
Inductive event : Set := Cpu | Irq.

Fixpoint run (es : list event) (m : machine) : res machine :=
  match es with
  | [] => Ok m
  | Cpu :: es => m' <-! cpu_step m;; run es m'
  | Irq :: es => m' <-! irq_step m;; run es m'
  end.

Lemma run_reachable es : forall m m', run es m = Ok m' -> reachable m m'.
Proof.
  induction es as [|e es IH]; simpl; intros m m'; [intros [= ->]; apply rtc_refl|].
  destruct e; intros (m1 & H1 & H2)%res_bind_inv;
    (eapply rtc_l; [|by apply IH]); [by apply step_cpu|by apply step_irq].
Qed.

(** Run the code of one thread to its end as if no other thread and no
    interrupt intervened. *)
Fixpoint solo {A : Type} (fuel : nat) (c : code A) : M K A :=
  match fuel with
  | O => nofuel
  | S fuel =>
      match c with
      | Ret a => ret a
      | Act m k => b <- m;; solo fuel (k b)
      | While m body k =>
          b <- m;;
          if b then solo fuel (cbind body (fun _ => While m body k)) else solo fuel k
      end
  end.

(** The result does not depend on the fuel. *)
Lemma solo_det {A : Type} n : forall n' (c : code A) k r r',
  solo n c k = Ok r -> solo n' c k = Ok r' -> r = r'.
Proof.
  induction n as [|n IH]; intros [|n'] c k r r'; cbn [solo]; [done..|].
  destruct c as [a|B m f|m body f]; [intros [= <-] [= <-]; done|..];
    intros H1 H2; destruct r as [a k1], r' as [a' k1'];
    apply bind_inv in H1 as (b & s1 & E1 & H1); apply bind_inv in H2 as (b' & s1' & E2 & H2);
    rewrite E1 in E2; injection E2 as <- <-; [by eapply IH|destruct b; by eapply IH].
Qed.

(** [c], alone, ends in a state that satisfies [Q]. *)
Definition runs_to {A : Type} (c : code A) (Q : A -> K -> Prop) (k : K) : Prop :=
  exists n, twp (solo n c) Q k.

Lemma rt_ret {A : Type} (a : A) (Q : A -> K -> Prop) k : Q a k -> runs_to (Ret a) Q k.
Proof. intros H. by exists 1%nat. Qed.

Lemma rt_step {A B : Type} (m : M K B) (f : B -> code A) (Q : A -> K -> Prop) k :
  twp m (fun b k' => runs_to (f b) Q k') k -> runs_to (Act m f) Q k.
Proof.
  intros (b & k' & E & n & H)%twp_elim. exists (S n). apply twp_bind.
  by eapply twp_intro.
Qed.

Lemma rt_act {B : Type} (m : M K B) (Q : B -> K -> Prop) k : twp m Q k -> runs_to (act m) Q k.
Proof. intros H. apply rt_step. eapply twp_mono; [exact H|]. intros b k'. apply rt_ret. Qed.

Lemma rt_bind {A B : Type} (c : code A) (f : A -> code B) (Q : B -> K -> Prop) k :
  runs_to c (fun a k' => runs_to (f a) Q k') k -> runs_to (cbind c f) Q k.
Proof.
  intros [n H]. revert A c f k H. induction n as [|n IH]; intros A c f k H; [done|].
  destruct c as [a|C m g|m body g]; cbn [solo cbind] in H |- *.
  - exact H.
  - apply twp_elim in H as (r & s' & E & HQ).
    destruct (bind_inv _ _ _ _ _ E) as (b & k' & Hm & Hg).
    apply rt_step. eapply twp_intro; [exact Hm|]. apply IH. by eapply twp_intro.
  - apply twp_elim in H as (r & s' & E & HQ).
    destruct (bind_inv _ _ _ _ _ E) as (b & k' & Hm & Hg).
    assert (exists n', twp (if b then solo n' (cbind (cbind body (fun _ => While m body g)) f)
                            else solo n' (cbind g f)) Q k') as [n' Hn'].
    { destruct b; apply IH; by eapply twp_intro. }
    exists (S n'). cbn [solo]. apply twp_bind. eapply twp_intro; [exact Hm|].
    destruct b; [|done]. by rewrite cbind_assoc in Hn'.
Qed.

Lemma rt_while_false (m : M K bool) (body : code unit) (Q : unit -> K -> Prop) k :
  twp m (fun b k' => b = false /\ Q tt k') k -> runs_to (while m body) Q k.
Proof.
  intros (b & k' & E & -> & H)%twp_elim. exists 2%nat. cbn [solo while]. apply twp_bind.
  by eapply twp_intro.
Qed.
End Code.

Arguments code K A : clear implicits.
Arguments Ret {K A} a.
Arguments Act {K A B} m k.
Arguments While {K A} m body k.
Arguments processor K : clear implicits.
Arguments machine K : clear implicits.

Declare Scope code_scope.
Delimit Scope code_scope with code.
Notation "x <- m ;; k" := (cbind m (fun x => k))
  (at level 100, m at next level, right associativity) : code_scope.
Notation "m ;;; k" := (cbind m (fun _ => k))
  (at level 100, right associativity) : code_scope.
Bind Scope code_scope with code.
