(* ===== verification/KernelState.v ===== *)
(** * The state of the kernel's thread system

    The objects that threads/thread.c, threads/synch.c, threads/interrupt.c
    and devices/timer.c own.  The kernel is the one of the threads/ build
    directory, that is, without [USERPROG].  A [struct thread] is known by the
    address of its page.  The linked lists of the source are sequences here:
    ListTheorems.v shows that list.c implements them.  A semaphore is known by
    the object it is embedded in, so that two of them never overlap. *)

From S2P Require Import Prelude PageAlloc.
From stdpp Require Import strings.

#[global] Open Scope string_scope.
#[global] Open Scope Z_scope.

Definition THREAD_MAGIC : Z := 0xcd6abf4b.
Definition PRI_MIN : Z := 0.
Definition PRI_DEFAULT : Z := 31.
Definition PRI_MAX : Z := 63.
Definition TID_ERROR : Z := -1.
Definition TIME_SLICE : Z := 4.
Definition TIMER_FREQ : Z := 100.

Inductive thread_status : Set :=
| THREAD_RUNNING
| THREAD_READY
| THREAD_BLOCKED
| THREAD_DYING.

#[export] Instance thread_status_eq_dec : EqDecision thread_status.
Proof. solve_decision. Defined.

(** The members of [struct thread] that this build uses.  [function] and [aux]
    are what [thread_create] pushes on the new thread's stack, in the frame of
    [kernel_thread]. *)
Record thread := Thread {
  tid : Z;
  status : thread_status;
  name : string;
  stack : Z;
  priority : Z;
  magic : Z;
  exit_status : Z;
  exit_soon : bool;
  fd : Z;
  recent_unused : Z;
  nice : Z;
  recent_cpu : Z;
  function : Z;
  aux : Z
}.

Definition set_tid (x : Z) (t : thread) : thread :=
  Thread x (status t) (name t) (stack t) (priority t) (magic t)
    (exit_status t) (exit_soon t) (fd t) (recent_unused t) (nice t)
    (recent_cpu t) (function t) (aux t).
Definition set_status (x : thread_status) (t : thread) : thread :=
  Thread (tid t) x (name t) (stack t) (priority t) (magic t) (exit_status
    t) (exit_soon t) (fd t) (recent_unused t) (nice t) (recent_cpu t)
    (function t) (aux t).
Definition set_stack (x : Z) (t : thread) : thread :=
  Thread (tid t) (status t) (name t) x (priority t) (magic t) (exit_status
    t) (exit_soon t) (fd t) (recent_unused t) (nice t) (recent_cpu t)
    (function t) (aux t).
Definition set_priority (x : Z) (t : thread) : thread :=
  Thread (tid t) (status t) (name t) (stack t) x (magic t) (exit_status t)
    (exit_soon t) (fd t) (recent_unused t) (nice t) (recent_cpu t)
    (function t) (aux t).
Definition set_exit_soon (x : bool) (t : thread) : thread :=
  Thread (tid t) (status t) (name t) (stack t) (priority t) (magic t)
    (exit_status t) x (fd t) (recent_unused t) (nice t) (recent_cpu t)
    (function t) (aux t).
Definition set_recent_unused (x : Z) (t : thread) : thread :=
  Thread (tid t) (status t) (name t) (stack t) (priority t) (magic t)
    (exit_status t) (exit_soon t) (fd t) x (nice t) (recent_cpu t)
    (function t) (aux t).
Definition set_nice (x : Z) (t : thread) : thread :=
  Thread (tid t) (status t) (name t) (stack t) (priority t) (magic t)
    (exit_status t) (exit_soon t) (fd t) (recent_unused t) x (recent_cpu
    t) (function t) (aux t).
Definition set_recent_cpu (x : Z) (t : thread) : thread :=
  Thread (tid t) (status t) (name t) (stack t) (priority t) (magic t)
    (exit_status t) (exit_soon t) (fd t) (recent_unused t) (nice t) x
    (function t) (aux t).
Definition set_function (x : Z) (t : thread) : thread :=
  Thread (tid t) (status t) (name t) (stack t) (priority t) (magic t)
    (exit_status t) (exit_soon t) (fd t) (recent_unused t) (nice t)
    (recent_cpu t) x (aux t).
Definition set_aux (x : Z) (t : thread) : thread :=
  Thread (tid t) (status t) (name t) (stack t) (priority t) (magic t)
    (exit_status t) (exit_soon t) (fd t) (recent_unused t) (nice t)
    (recent_cpu t) (function t) x.

(** The locks of the kernel: [tid_lock], the four locks of a [struct thread],
    and locks of other code, known by their address. *)
Inductive lock_id : Set :=
| TidLock
| LockWait (t : Z)
| LockExit (t : Z)
| LockExec (t : Z)
| LockExit2 (t : Z)
| LockAt (a : Z).

#[export] Instance lock_id_eq_dec : EqDecision lock_id.
Proof. solve_decision. Defined.

Definition lock_code (l : lock_id) : Z * Z :=
  match l with
  | TidLock => (0, 0) | LockWait t => (1, t) | LockExit t => (2, t)
  | LockExec t => (3, t) | LockExit2 t => (4, t) | LockAt a => (5, a)
  end.

Definition lock_decode (p : Z * Z) : lock_id :=
  match p.1 with
  | 0 => TidLock | 1 => LockWait p.2 | 2 => LockExit p.2
  | 3 => LockExec p.2 | 4 => LockExit2 p.2 | _ => LockAt p.2
  end.

#[export] Instance lock_id_countable : Countable lock_id.
Proof. apply (inj_countable' lock_code lock_decode). by intros []. Defined.

(** A semaphore is a lock's, or one of other code; the waiter of a condition
    variable has one. *)
Inductive sema_id : Set :=
| LockSema (l : lock_id)
| SemaAt (a : Z).

#[export] Instance sema_id_eq_dec : EqDecision sema_id.
Proof. solve_decision. Defined.

#[export] Instance sema_id_countable : Countable sema_id.
Proof.
  apply (inj_countable' (fun s => match s with LockSema l => inl l | SemaAt a => inr a end)
           (fun s => match s with inl l => LockSema l | inr a => SemaAt a end)).
  by intros [].
Defined.

Record semaphore := Semaphore { value : Z; waiters : list Z }.

#[export] Instance semaphore_eq_dec : EqDecision semaphore.
Proof. solve_decision. Defined.

(** A sleeping thread and the tick at which to wake it. *)
Record thread_alarm := ThreadAlarm { time_wake : Z; alarm_thread : Z }.

#[export] Instance thread_alarm_eq_dec : EqDecision thread_alarm.
Proof. solve_decision. Defined.

Section Kernel.
Context {P : Type}.

Record kernel := Kernel {
  threads : gmap Z thread;
  all_list : list Z;
  ready_list : list (list Z);
  cur : Z;
  idle_thread : Z;
  initial_thread : Z;
  pool : P;
  semas : gmap sema_id semaphore;
  holders : gmap lock_id Z;
  conds : gmap Z (list sema_id);
  list_alarm : list thread_alarm;
  level : bool;
  in_external_intr : bool;
  yield_on_return : bool;
  ticks : Z;
  thread_ticks : Z;
  idle_ticks : Z;
  kernel_ticks : Z;
  next_tid : Z;
  max_tid : Z;
  load_avg : Z;
  thread_mlfqs : bool;
  thread_prior_aging : bool
}.

Definition set_threads (x : gmap Z thread) (k : kernel) : kernel :=
  Kernel x (all_list k) (ready_list k) (cur k) (idle_thread k)
    (initial_thread k) (pool k) (semas k) (holders k) (conds k)
    (list_alarm k) (level k) (in_external_intr k) (yield_on_return k)
    (ticks k) (thread_ticks k) (idle_ticks k) (kernel_ticks k) (next_tid
    k) (max_tid k) (load_avg k) (thread_mlfqs k) (thread_prior_aging k).
Definition set_all_list (x : list Z) (k : kernel) : kernel :=
  Kernel (threads k) x (ready_list k) (cur k) (idle_thread k)
    (initial_thread k) (pool k) (semas k) (holders k) (conds k)
    (list_alarm k) (level k) (in_external_intr k) (yield_on_return k)
    (ticks k) (thread_ticks k) (idle_ticks k) (kernel_ticks k) (next_tid
    k) (max_tid k) (load_avg k) (thread_mlfqs k) (thread_prior_aging k).
Definition set_ready_list (x : list (list Z)) (k : kernel) : kernel :=
  Kernel (threads k) (all_list k) x (cur k) (idle_thread k)
    (initial_thread k) (pool k) (semas k) (holders k) (conds k)
    (list_alarm k) (level k) (in_external_intr k) (yield_on_return k)
    (ticks k) (thread_ticks k) (idle_ticks k) (kernel_ticks k) (next_tid
    k) (max_tid k) (load_avg k) (thread_mlfqs k) (thread_prior_aging k).
Definition set_cur (x : Z) (k : kernel) : kernel :=
  Kernel (threads k) (all_list k) (ready_list k) x (idle_thread k)
    (initial_thread k) (pool k) (semas k) (holders k) (conds k)
    (list_alarm k) (level k) (in_external_intr k) (yield_on_return k)
    (ticks k) (thread_ticks k) (idle_ticks k) (kernel_ticks k) (next_tid
    k) (max_tid k) (load_avg k) (thread_mlfqs k) (thread_prior_aging k).
Definition set_idle_thread (x : Z) (k : kernel) : kernel :=
  Kernel (threads k) (all_list k) (ready_list k) (cur k) x (initial_thread
    k) (pool k) (semas k) (holders k) (conds k) (list_alarm k) (level k)
    (in_external_intr k) (yield_on_return k) (ticks k) (thread_ticks k)
    (idle_ticks k) (kernel_ticks k) (next_tid k) (max_tid k) (load_avg k)
    (thread_mlfqs k) (thread_prior_aging k).
Definition set_initial_thread (x : Z) (k : kernel) : kernel :=
  Kernel (threads k) (all_list k) (ready_list k) (cur k) (idle_thread k) x
    (pool k) (semas k) (holders k) (conds k) (list_alarm k) (level k)
    (in_external_intr k) (yield_on_return k) (ticks k) (thread_ticks k)
    (idle_ticks k) (kernel_ticks k) (next_tid k) (max_tid k) (load_avg k)
    (thread_mlfqs k) (thread_prior_aging k).
Definition set_pool (x : P) (k : kernel) : kernel :=
  Kernel (threads k) (all_list k) (ready_list k) (cur k) (idle_thread k)
    (initial_thread k) x (semas k) (holders k) (conds k) (list_alarm k)
    (level k) (in_external_intr k) (yield_on_return k) (ticks k)
    (thread_ticks k) (idle_ticks k) (kernel_ticks k) (next_tid k) (max_tid
    k) (load_avg k) (thread_mlfqs k) (thread_prior_aging k).
Definition set_semas (x : gmap sema_id semaphore) (k : kernel) : kernel :=
  Kernel (threads k) (all_list k) (ready_list k) (cur k) (idle_thread k)
    (initial_thread k) (pool k) x (holders k) (conds k) (list_alarm k)
    (level k) (in_external_intr k) (yield_on_return k) (ticks k)
    (thread_ticks k) (idle_ticks k) (kernel_ticks k) (next_tid k) (max_tid
    k) (load_avg k) (thread_mlfqs k) (thread_prior_aging k).
Definition set_holders (x : gmap lock_id Z) (k : kernel) : kernel :=
  Kernel (threads k) (all_list k) (ready_list k) (cur k) (idle_thread k)
    (initial_thread k) (pool k) (semas k) x (conds k) (list_alarm k)
    (level k) (in_external_intr k) (yield_on_return k) (ticks k)
    (thread_ticks k) (idle_ticks k) (kernel_ticks k) (next_tid k) (max_tid
    k) (load_avg k) (thread_mlfqs k) (thread_prior_aging k).
Definition set_conds (x : gmap Z (list sema_id)) (k : kernel) : kernel :=
  Kernel (threads k) (all_list k) (ready_list k) (cur k) (idle_thread k)
    (initial_thread k) (pool k) (semas k) (holders k) x (list_alarm k)
    (level k) (in_external_intr k) (yield_on_return k) (ticks k)
    (thread_ticks k) (idle_ticks k) (kernel_ticks k) (next_tid k) (max_tid
    k) (load_avg k) (thread_mlfqs k) (thread_prior_aging k).
Definition set_list_alarm (x : list thread_alarm) (k : kernel) : kernel :=
  Kernel (threads k) (all_list k) (ready_list k) (cur k) (idle_thread k)
    (initial_thread k) (pool k) (semas k) (holders k) (conds k) x (level
    k) (in_external_intr k) (yield_on_return k) (ticks k) (thread_ticks k)
    (idle_ticks k) (kernel_ticks k) (next_tid k) (max_tid k) (load_avg k)
    (thread_mlfqs k) (thread_prior_aging k).
Definition set_level (x : bool) (k : kernel) : kernel :=
  Kernel (threads k) (all_list k) (ready_list k) (cur k) (idle_thread k)
    (initial_thread k) (pool k) (semas k) (holders k) (conds k)
    (list_alarm k) x (in_external_intr k) (yield_on_return k) (ticks k)
    (thread_ticks k) (idle_ticks k) (kernel_ticks k) (next_tid k) (max_tid
    k) (load_avg k) (thread_mlfqs k) (thread_prior_aging k).
Definition set_in_external_intr (x : bool) (k : kernel) : kernel :=
  Kernel (threads k) (all_list k) (ready_list k) (cur k) (idle_thread k)
    (initial_thread k) (pool k) (semas k) (holders k) (conds k)
    (list_alarm k) (level k) x (yield_on_return k) (ticks k) (thread_ticks
    k) (idle_ticks k) (kernel_ticks k) (next_tid k) (max_tid k) (load_avg
    k) (thread_mlfqs k) (thread_prior_aging k).
Definition set_yield_on_return (x : bool) (k : kernel) : kernel :=
  Kernel (threads k) (all_list k) (ready_list k) (cur k) (idle_thread k)
    (initial_thread k) (pool k) (semas k) (holders k) (conds k)
    (list_alarm k) (level k) (in_external_intr k) x (ticks k)
    (thread_ticks k) (idle_ticks k) (kernel_ticks k) (next_tid k) (max_tid
    k) (load_avg k) (thread_mlfqs k) (thread_prior_aging k).
Definition set_ticks (x : Z) (k : kernel) : kernel :=
  Kernel (threads k) (all_list k) (ready_list k) (cur k) (idle_thread k)
    (initial_thread k) (pool k) (semas k) (holders k) (conds k)
    (list_alarm k) (level k) (in_external_intr k) (yield_on_return k) x
    (thread_ticks k) (idle_ticks k) (kernel_ticks k) (next_tid k) (max_tid
    k) (load_avg k) (thread_mlfqs k) (thread_prior_aging k).
Definition set_thread_ticks (x : Z) (k : kernel) : kernel :=
  Kernel (threads k) (all_list k) (ready_list k) (cur k) (idle_thread k)
    (initial_thread k) (pool k) (semas k) (holders k) (conds k)
    (list_alarm k) (level k) (in_external_intr k) (yield_on_return k)
    (ticks k) x (idle_ticks k) (kernel_ticks k) (next_tid k) (max_tid k)
    (load_avg k) (thread_mlfqs k) (thread_prior_aging k).
Definition set_idle_ticks (x : Z) (k : kernel) : kernel :=
  Kernel (threads k) (all_list k) (ready_list k) (cur k) (idle_thread k)
    (initial_thread k) (pool k) (semas k) (holders k) (conds k)
    (list_alarm k) (level k) (in_external_intr k) (yield_on_return k)
    (ticks k) (thread_ticks k) x (kernel_ticks k) (next_tid k) (max_tid k)
    (load_avg k) (thread_mlfqs k) (thread_prior_aging k).
Definition set_kernel_ticks (x : Z) (k : kernel) : kernel :=
  Kernel (threads k) (all_list k) (ready_list k) (cur k) (idle_thread k)
    (initial_thread k) (pool k) (semas k) (holders k) (conds k)
    (list_alarm k) (level k) (in_external_intr k) (yield_on_return k)
    (ticks k) (thread_ticks k) (idle_ticks k) x (next_tid k) (max_tid k)
    (load_avg k) (thread_mlfqs k) (thread_prior_aging k).
Definition set_next_tid (x : Z) (k : kernel) : kernel :=
  Kernel (threads k) (all_list k) (ready_list k) (cur k) (idle_thread k)
    (initial_thread k) (pool k) (semas k) (holders k) (conds k)
    (list_alarm k) (level k) (in_external_intr k) (yield_on_return k)
    (ticks k) (thread_ticks k) (idle_ticks k) (kernel_ticks k) x (max_tid
    k) (load_avg k) (thread_mlfqs k) (thread_prior_aging k).
Definition set_max_tid (x : Z) (k : kernel) : kernel :=
  Kernel (threads k) (all_list k) (ready_list k) (cur k) (idle_thread k)
    (initial_thread k) (pool k) (semas k) (holders k) (conds k)
    (list_alarm k) (level k) (in_external_intr k) (yield_on_return k)
    (ticks k) (thread_ticks k) (idle_ticks k) (kernel_ticks k) (next_tid
    k) x (load_avg k) (thread_mlfqs k) (thread_prior_aging k).
Definition set_load_avg (x : Z) (k : kernel) : kernel :=
  Kernel (threads k) (all_list k) (ready_list k) (cur k) (idle_thread k)
    (initial_thread k) (pool k) (semas k) (holders k) (conds k)
    (list_alarm k) (level k) (in_external_intr k) (yield_on_return k)
    (ticks k) (thread_ticks k) (idle_ticks k) (kernel_ticks k) (next_tid
    k) (max_tid k) x (thread_mlfqs k) (thread_prior_aging k).
End Kernel.

Arguments kernel P : clear implicits.
