(* ===== verification/Thread.v ===== *)
(** * Threads, synchronization and the timer: the code

    threads/thread.c, threads/synch.c, devices/timer.c and the part of
    threads/interrupt.c they use.  A function that runs with interrupts off
    from beginning to end is a state transformer; one that may be preempted
    or that may block is a [code]: a sequence of atomic actions, cut where
    interrupts are enabled and where the thread can be switched out.
    [schedule] is the part of the source up to and including the switch: it
    changes [cur], after which the machine goes on with the code of the new
    running thread. *)

From S2P Require Import Prelude Vaddr PageAlloc FixedPoint Code KernelState.
From stdpp Require Import strings.
Local Open Scope Z_scope.

Section Thread.
Context {P : Type} {PA : PageAllocator P}.

Local Notation K := (kernel P).

(** The functions that threads run, by address; the value of a local variable
    that the source reads without having assigned it. *)
Context (entry : Z -> Z -> code K unit) (uninit : K -> Z).

(** ** Memory *)

Definition get_thread (t : Z) : M K thread :=
  k <- get;; match threads k !! t with Some th => ret th | None => fault end.

Definition upd_thread (t : Z) (f : thread -> thread) : M K unit :=
  th <- get_thread t;; modify (fun k => set_threads (<[t := f th]> (threads k)) k).

Definition get_ready (i : Z) : M K (list Z) :=
  k <- get;;
  if 0 <=? i then
    match ready_list k !! Z.to_nat i with Some l => ret l | None => fault end
  else fault.

Definition put_ready (i : Z) (l : list Z) : M K unit :=
  get_ready i;;;
  modify (fun k => set_ready_list (<[Z.to_nat i := l]> (ready_list k)) k).

Definition get_sema (s : sema_id) : M K semaphore :=
  k <- get;; match semas k !! s with Some x => ret x | None => fault end.

Definition put_sema (s : sema_id) (x : semaphore) : M K unit :=
  modify (fun k => set_semas (<[s := x]> (semas k)) k).

Definition get_holder (l : lock_id) : M K Z :=
  k <- get;; match holders k !! l with Some x => ret x | None => fault end.

Definition put_holder (l : lock_id) (t : Z) : M K unit :=
  get_holder l;;; modify (fun k => set_holders (<[l := t]> (holders k)) k).

Definition sema_nonnull (s : sema_id) : bool :=
  match s with SemaAt a => negb (a =? NULL) | LockSema (LockAt a) => negb (a =? NULL) | _ => true end.

Definition lock_nonnull (l : lock_id) : bool :=
  match l with LockAt a => negb (a =? NULL) | _ => true end.

(** ** Interrupts (threads/interrupt.c) *)

Definition INTR_ON : bool := true.
Definition INTR_OFF : bool := false.

Definition intr_get_level : M K bool := gets level.
Definition intr_context : M K bool := gets in_external_intr.

Definition intr_enable : M K bool :=
  old_level <- intr_get_level;;
  ctx <- intr_context;;
  assert (negb ctx);;;
  modify (set_level INTR_ON);;;
  ret old_level.

Definition intr_disable : M K bool :=
  old_level <- intr_get_level;;
  modify (set_level INTR_OFF);;;
  ret old_level.

Definition intr_set_level (lvl : bool) : M K bool :=
  if lvl then intr_enable else intr_disable.

Definition intr_yield_on_return : M K unit :=
  ctx <- intr_context;;
  assert ctx;;;
  modify (set_yield_on_return true).

(** ** Time *)

Definition timer_ticks : M K Z :=
  old_level <- intr_disable;;
  t <- gets ticks;;
  intr_set_level old_level;;;
  ret t.

Definition timer_elapsed (then_ : Z) : M K Z :=
  t <- timer_ticks;; ret (i64 (t - then_)).

(** ** The running thread *)

Definition is_thread (t : Z) : M K bool :=
  if t =? NULL then ret false
  else th <- get_thread t;; ret (magic th =? THREAD_MAGIC).

Definition running_thread : M K Z := gets cur.

Definition thread_current : M K Z :=
  t <- running_thread;;
  b <- is_thread t;;
  assert b;;;
  th <- get_thread t;;
  assert (bool_decide (status th = THREAD_RUNNING));;;
  ret t.

Definition thread_current_struct : M K thread :=
  t <- thread_current;; get_thread t.

Definition thread_name : M K string := th <- thread_current_struct;; ret (name th).
Definition thread_tid : M K Z := th <- thread_current_struct;; ret (tid th).
Definition thread_get_priority : M K Z := th <- thread_current_struct;; ret (priority th).
Definition thread_get_nice : M K Z := th <- thread_current_struct;; ret (nice th).

(** ** The ready queues and the scheduler *)

(** The loops go from [PRI_MAX] down to [PRI_MIN]; [n] is the number of queues
    still to be looked at. *)
Fixpoint thread_top_priority_loop (n : nat) : M K Z :=
  match n with
  | O => ret 0
  | S i =>
      l <- get_ready (Z.of_nat i);;
      match l with [] => thread_top_priority_loop i | _ => ret (Z.of_nat i) end
  end.

Definition thread_top_priority : M K Z :=
  thread_top_priority_loop (Z.to_nat (PRI_MAX + 1)).

Fixpoint next_thread_loop (n : nat) : M K Z :=
  match n with
  | O => gets idle_thread
  | S i =>
      l <- get_ready (Z.of_nat i);;
      match l with
      | [] => next_thread_loop i
      | t :: r => put_ready (Z.of_nat i) r;;; ret t
      end
  end.

Definition next_thread_to_run : M K Z := next_thread_loop (Z.to_nat (PRI_MAX + 1)).

(** [palloc_free_page] of the page of a [struct thread], and of the locks in
    it. *)
Definition forget_thread (t : Z) (k : K) : K :=
  set_threads (delete t (threads k))
    (set_holders (delete (LockWait t) (delete (LockExit t)
                  (delete (LockExec t) (delete (LockExit2 t) (holders k)))))
      (set_semas (delete (LockSema (LockWait t)) (delete (LockSema (LockExit t))
                  (delete (LockSema (LockExec t)) (delete (LockSema (LockExit2 t)) (semas k)))))
        k)).

Definition free_thread (t : Z) : M K unit :=
  p <- gets pool;;
  p' <- lift (pa_free t p);;
  modify (set_pool p');;;
  modify (forget_thread t).

Definition thread_schedule_tail (prev : Z) : M K unit :=
  c <- running_thread;;
  lvl <- intr_get_level;;
  assert (Bool.eqb lvl INTR_OFF);;;
  upd_thread c (set_status THREAD_RUNNING);;;
  modify (set_thread_ticks 0);;;
  if prev =? NULL then ret tt
  else
    th <- get_thread prev;;
    init <- gets initial_thread;;
    if bool_decide (status th = THREAD_DYING) && negb (prev =? init) then
      assert (negb (prev =? c));;;
      free_thread prev
    else ret tt.

Definition schedule : M K unit :=
  c <- running_thread;;
  next <- next_thread_to_run;;
  lvl <- intr_get_level;;
  assert (Bool.eqb lvl INTR_OFF);;;
  th <- get_thread c;;
  assert (negb (bool_decide (status th = THREAD_RUNNING)));;;
  b <- is_thread next;;
  assert b;;;
  if c =? next then thread_schedule_tail NULL
  else modify (set_cur next);;; thread_schedule_tail c.

Definition thread_block : M K unit :=
  ctx <- intr_context;;
  assert (negb ctx);;;
  lvl <- intr_get_level;;
  assert (Bool.eqb lvl INTR_OFF);;;
  c <- thread_current;;
  upd_thread c (set_status THREAD_BLOCKED);;;
  schedule.

(** [thread_yield] up to the call of [schedule], and up to the switch; the
    result is [old_level]. *)
Definition thread_yield_prepare : M K bool :=
  c <- thread_current;;
  ctx <- intr_context;;
  assert (negb ctx);;;
  old_level <- intr_disable;;
  idle <- gets idle_thread;;
  (if negb (c =? idle) then
     th <- get_thread c;;
     l <- get_ready (priority th);;
     put_ready (priority th) (l ++ [c]);;;
     t <- timer_ticks;;
     upd_thread c (set_recent_unused t)
   else ret tt);;;
  upd_thread c (set_status THREAD_READY);;;
  ret old_level.

Definition thread_yield_switch : M K bool :=
  old_level <- thread_yield_prepare;;
  schedule;;;
  ret old_level.

Definition thread_yield : code K unit :=
  (old_level <- act thread_yield_switch;;
   act (intr_set_level old_level);;;
   Ret tt)%code.

(** [thread_unblock]: the atomic part, whose result is [top_pri], and the test
    that follows it. *)
Definition thread_unblock_enqueue (t : Z) : M K Z :=
  b <- is_thread t;;
  assert b;;;
  old_level <- intr_disable;;
  th <- get_thread t;;
  assert (bool_decide (status th = THREAD_BLOCKED));;;
  top_pri <- thread_top_priority;;
  l <- get_ready (priority th);;
  put_ready (priority th) (l ++ [t]);;;
  upd_thread t (set_status THREAD_READY);;;
  intr_set_level old_level;;;
  ret top_pri.

Definition thread_unblock_test (t top_pri : Z) : M K bool :=
  th <- get_thread t;;
  lvl <- intr_get_level;;
  ret ((top_pri <? priority th) && Bool.eqb lvl INTR_ON).

Definition thread_unblock (t : Z) : code K unit :=
  (top_pri <- act (thread_unblock_enqueue t);;
   b <- act (thread_unblock_test t top_pri);;
   if (b : bool) then thread_yield else Ret tt)%code.

(** [thread_unblock] in a section that runs with interrupts off: the call of
    [thread_yield] is not reached. *)
Definition thread_unblock_intr_off (t : Z) : M K unit :=
  top_pri <- thread_unblock_enqueue t;;
  b <- thread_unblock_test t top_pri;;
  if b then panic else ret tt.

(** ** Semaphores (threads/synch.c) *)

Definition sema_init (s : sema_id) (v : Z) : M K unit :=
  assert (sema_nonnull s);;; put_sema s (Semaphore (u32 v) []).

(** The body of the loop of [sema_down]. *)
Definition sema_wait (s : sema_id) : M K unit :=
  x <- get_sema s;;
  t <- thread_current;;
  put_sema s (Semaphore (value x) (waiters x ++ [t]));;;
  thread_block.

Definition sema_down (s : sema_id) : code K unit :=
  (old_level <- act (assert (sema_nonnull s);;;
                     ctx <- intr_context;; assert (negb ctx);;; intr_disable)%c;;
   while (x <- get_sema s;; ret (value x =? 0))%c (act (sema_wait s));;;
   act (x <- get_sema s;; put_sema s (Semaphore (u32 (value x - 1)) (waiters x)))%c;;;
   act (intr_set_level old_level);;;
   Ret tt)%code.

Definition sema_try_down (s : sema_id) : M K bool :=
  assert (sema_nonnull s);;;
  old_level <- intr_disable;;
  x <- get_sema s;;
  success <- (if value x >? 0 then
                put_sema s (Semaphore (u32 (value x - 1)) (waiters x));;; ret true
              else ret false);;
  intr_set_level old_level;;;
  ret success.

(** The search for the waiter of highest priority. *)
Fixpoint sema_up_loop (l : list Z) (max_elem pri_max : Z) : M K (Z * Z) :=
  match l with
  | [] => ret (max_elem, pri_max)
  | e :: l =>
      th <- get_thread e;;
      let pri_cur := priority th in
      if pri_cur >? pri_max then
        th <- get_thread e;; sema_up_loop l e (priority th)
      else sema_up_loop l max_elem pri_max
  end.

(** [list_remove]. *)
Definition remove_elem (e : Z) (l : list Z) : list Z :=
  List.filter (fun x => negb (x =? e)) l.

(** The part of [sema_up] that runs with interrupts off; the result is the
    value of [pri_max]. *)
Definition sema_up_wake (s : sema_id) : M K Z :=
  assert (sema_nonnull s);;;
  junk <- gets uninit;;
  old_level <- intr_disable;;
  x <- get_sema s;;
  pri_max <- (match waiters x with
              | [] => ret junk
              | max_elem :: _ =>
                  th <- get_thread max_elem;;
                  r <- sema_up_loop (waiters x) max_elem (priority th);;
                  put_sema s (Semaphore (value x) (remove_elem r.1 (waiters x)));;;
                  thread_unblock_intr_off r.1;;;
                  ret r.2
              end);;
  x <- get_sema s;;
  put_sema s (Semaphore (u32 (value x + 1)) (waiters x));;;
  intr_set_level old_level;;;
  ret pri_max.

Definition sema_up_test (pri_max : Z) : M K bool :=
  th <- thread_current_struct;;
  lvl <- intr_get_level;;
  ret ((pri_max >? priority th) && Bool.eqb lvl INTR_ON).

Definition sema_up (s : sema_id) : code K unit :=
  (pri_max <- act (sema_up_wake s);;
   b <- act (sema_up_test pri_max);;
   if (b : bool) then thread_yield else Ret tt)%code.

(** ** Locks *)

Definition lock_init (l : lock_id) : M K unit :=
  assert (lock_nonnull l);;;
  modify (fun k => set_holders (<[l := NULL]> (holders k)) k);;;
  sema_init (LockSema l) 1.

Definition lock_held_by_current_thread (l : lock_id) : M K bool :=
  assert (lock_nonnull l);;;
  h <- get_holder l;;
  t <- thread_current;;
  ret (h =? t).

Definition lock_acquire (l : lock_id) : code K unit :=
  (act (assert (lock_nonnull l);;;
        ctx <- intr_context;; assert (negb ctx);;;
        b <- lock_held_by_current_thread l;; assert (negb b))%c;;;
   sema_down (LockSema l);;;
   act (t <- thread_current;; put_holder l t)%c)%code.

Definition lock_acquire_other (l : lock_id) (t : Z) : code K unit :=
  (act (assert (lock_nonnull l);;;
        ctx <- intr_context;; assert (negb ctx))%c;;;
   sema_down (LockSema l);;;
   act (put_holder l t))%code.

Definition lock_try_acquire (l : lock_id) : code K bool :=
  (act (assert (lock_nonnull l);;;
        b <- lock_held_by_current_thread l;; assert (negb b))%c;;;
   success <- act (sema_try_down (LockSema l));;
   act (if success : bool then t <- thread_current;; put_holder l t else ret tt)%c;;;
   Ret success)%code.

Definition lock_release (l : lock_id) : code K unit :=
  (act (assert (lock_nonnull l);;;
        b <- lock_held_by_current_thread l;; assert b;;;
        put_holder l NULL)%c;;;
   sema_up (LockSema l))%code.

(** ** Condition variables *)

Definition get_cond (c : Z) : M K (list sema_id) :=
  k <- get;; match conds k !! c with Some x => ret x | None => fault end.

Definition put_cond (c : Z) (l : list sema_id) : M K unit :=
  modify (fun k => set_conds (<[c := l]> (conds k)) k).

Definition cond_init (c : Z) : M K unit :=
  assert (negb (c =? NULL));;; put_cond c [].

(** [waiter] is the semaphore in the caller's stack frame. *)
Definition cond_wait (c : Z) (l : lock_id) (waiter : Z) : code K unit :=
  (act (assert (negb (c =? NULL));;; assert (lock_nonnull l);;;
        ctx <- intr_context;; assert (negb ctx);;;
        b <- lock_held_by_current_thread l;; assert b)%c;;;
   act (sema_init (SemaAt waiter) 0);;;
   act (ws <- get_cond c;; put_cond c (ws ++ [SemaAt waiter]))%c;;;
   lock_release l;;;
   sema_down (SemaAt waiter);;;
   lock_acquire l)%code.

Definition cond_signal (c : Z) (l : lock_id) : code K unit :=
  (o <- act (assert (negb (c =? NULL));;; assert (lock_nonnull l);;;
             ctx <- intr_context;; assert (negb ctx);;;
             b <- lock_held_by_current_thread l;; assert b;;;
             ws <- get_cond c;;
             match ws with
             | [] => ret None
             | w :: ws => put_cond c ws;;; ret (Some w)
             end)%c;;
   match o with Some w => sema_up w | None => Ret tt end)%code.

Definition cond_broadcast (c : Z) (l : lock_id) : code K unit :=
  (act (assert (negb (c =? NULL));;; assert (lock_nonnull l))%c;;;
   while (ws <- get_cond c;; ret (negb (bool_decide (ws = []))))%c (cond_signal c l))%code.

(** ** Creating threads *)

Definition tid_range (put_or_pull : bool) (new_tid : Z) : M K Z :=
  if put_or_pull then modify (set_max_tid new_tid);;; ret NULL else gets max_tid.

Definition allocate_tid : code K Z :=
  (lock_acquire TidLock;;;
   t <- act (t <- gets next_tid;;
             modify (set_next_tid (i32 (t + 1)));;;
             tid_range true t;;;
             ret t)%c;;
   lock_release TidLock;;;
   Ret t)%code.

(** A page cleared by [memset], then the assignments of [init_thread]. *)
Definition blank_thread (nm : string) (t prio : Z) : thread :=
  Thread 0 THREAD_BLOCKED (String.substring 0 15 nm) (t + PGSIZE) prio THREAD_MAGIC
    0 false 1 0 0 0 NULL 0.

Definition init_thread_members (t : Z) (nm : string) (prio : Z) : M K unit :=
  assert (negb (t =? NULL));;;
  assert ((PRI_MIN <=? prio) && (prio <=? PRI_MAX));;;
  mlfqs <- gets thread_mlfqs;;
  th <- (if mlfqs : bool then
           if String.eqb "main" nm then
             ret (set_nice 0 (set_recent_cpu (fp_convert_to_fp 0) (blank_thread nm t prio)))
           else
             me <- thread_current_struct;;
             ret (set_nice (nice me) (set_recent_cpu (recent_cpu me) (blank_thread nm t prio)))
         else ret (blank_thread nm t prio));;
  now <- timer_ticks;;
  modify (fun k => set_threads (<[t := set_recent_unused now th]> (threads k)) k).

Definition init_thread (t : Z) (nm : string) (prio : Z) : code K unit :=
  (act (init_thread_members t nm prio);;;
   act (lock_init (LockExit t));;;
   act (lock_init (LockWait t));;;
   act (lock_init (LockExec t));;;
   act (lock_init (LockExit2 t));;;
   lock_acquire_other (LockExec t) t;;;
   lock_acquire_other (LockWait t) t;;;
   lock_acquire_other (LockExit2 t) t;;;
   act (modify (fun k => set_all_list (all_list k ++ [t]) k)))%code.

(** [alloc_frame], with the size of the frame in bytes. *)
Definition alloc_frame (t size : Z) : M K Z :=
  b <- is_thread t;;
  assert b;;;
  assert (Z.rem size 4 =? 0);;;
  upd_thread t (fun th => set_stack (u32 (stack th - size)) th);;;
  th <- get_thread t;;
  ret (stack th).

Definition KERNEL_THREAD_FRAME : Z := 12.
Definition SWITCH_ENTRY_FRAME : Z := 4.
Definition SWITCH_THREADS_FRAME : Z := 28.

Definition thread_create (nm : string) (prio fn ax : Z) : code K Z :=
  (t <- act (assert (negb (fn =? NULL));;;
             p <- gets pool;;
             match pa_get false p with
             | Some (t, p') => modify (set_pool p');;; ret t
             | None => ret NULL
             end)%c;;
   if t =? NULL then Ret TID_ERROR
   else
     init_thread t nm prio;;;
     tid <- allocate_tid;;
     act (upd_thread t (set_tid tid));;;
     act (old_level <- intr_disable;;
          alloc_frame t KERNEL_THREAD_FRAME;;;
          upd_thread t (fun th => set_function fn (set_aux ax th));;;
          alloc_frame t SWITCH_ENTRY_FRAME;;;
          alloc_frame t SWITCH_THREADS_FRAME;;;
          intr_set_level old_level)%c;;;
     thread_unblock t;;;
     Ret tid)%code.

(** ** Leaving *)

Definition thread_exit : code K unit :=
  (me <- act (ctx <- intr_context;; assert (negb ctx);;; thread_current)%c;;
   b <- act (lock_held_by_current_thread (LockExec me));;
   (if (b : bool) then lock_release (LockExec me) else Ret tt);;;
   lock_release (LockWait me);;;
   soon <- act (th <- thread_current_struct;; ret (exit_soon th))%c;;
   (if (soon : bool) then Ret tt else lock_acquire (LockExit me));;;
   act intr_disable;;;
   lock_release (LockExit2 me);;;
   act (c <- thread_current;;
        modify (fun k => set_all_list (remove_elem c (all_list k)) k);;;
        upd_thread c (set_status THREAD_DYING);;;
        schedule)%c;;;
   act panic)%code.

(** ** Lookups *)

Fixpoint thread_foreach_loop (func : Z -> M K unit) (l : list Z) : M K unit :=
  match l with
  | [] => ret tt
  | t :: l => func t;;; thread_foreach_loop func l
  end.

Definition thread_foreach (func : Z -> M K unit) : M K unit :=
  lvl <- intr_get_level;;
  assert (Bool.eqb lvl INTR_OFF);;;
  l <- gets all_list;;
  thread_foreach_loop func l.

Fixpoint thread_from_tid_loop (i : Z) (l : list Z) : M K Z :=
  match l with
  | [] => ret NULL
  | t :: l =>
      th <- get_thread t;;
      if tid th =? i then ret t else thread_from_tid_loop i l
  end.

Definition thread_from_tid (i : Z) : M K Z :=
  l <- gets all_list;; thread_from_tid_loop i l.

(** ** Priorities *)

Definition thread_set_priority (new_priority : Z) : code K unit :=
  (act (c <- thread_current;; upd_thread c (set_priority new_priority))%c;;;
   b <- act (top <- thread_top_priority;;
             lvl <- intr_get_level;;
             ret ((new_priority <? top) && Bool.eqb lvl INTR_ON))%c;;
   if (b : bool) then thread_yield else Ret tt)%code.

(** The operations of the fixed-point module are called through function
    pointers, which [thread_init] sets only when [thread_mlfqs] is set. *)
Definition fp_op : M K unit :=
  b <- gets thread_mlfqs;; if b : bool then ret tt else fault.

(** Aging: queue [i], from position [j] on.  The element at position [j] is
    moved to the queue of its new priority, or skipped. *)
Fixpoint aging_queue (fuel : nat) (i : Z) (j : nat) (yield : bool) : M K bool :=
  match fuel with
  | O => nofuel
  | S fuel =>
      l <- get_ready i;;
      match l !! j with
      | None => ret yield
      | Some e =>
          th <- get_thread e;;
          elapsed <- timer_elapsed (recent_unused th);;
          if Z.rem elapsed 100 =? 0 then
            upd_thread e (set_priority (i32 (priority th + 1)));;;
            th <- get_thread e;;
            put_ready i (remove_elem e l);;;
            l' <- get_ready (priority th);;
            put_ready (priority th) (l' ++ [e]);;;
            me <- thread_current_struct;;
            aging_queue fuel i j (yield || (priority th >? priority me))
          else aging_queue fuel i (S j) yield
      end
  end.

Fixpoint aging_loop (n : nat) (yield : bool) : M K bool :=
  match n with
  | O => ret yield
  | S i =>
      l <- get_ready (Z.of_nat i);;
      yield <- aging_queue (S (length l)) (Z.of_nat i) 0 yield;;
      aging_loop i yield
  end.

Definition thread_aging : M K unit :=
  yield <- aging_loop (Z.to_nat PRI_MAX) false;;
  if yield : bool then intr_yield_on_return else ret tt.

(** ** The BSD scheduler *)

Definition BSD_calc_priority_this (rcpu nc : Z) : res Z :=
  rcpu_4 <-! fp_devide rcpu 4 INT_REAR;;
  let priority := fp_sub (fp_convert_to_fp (i32 (PRI_MAX - i32 (nc * 2)))) rcpu_4 FP_REAR in
  let priority := fp_convert_to_int_down priority in
  let priority := if priority >? PRI_MAX then PRI_MAX else priority in
  let priority := if priority <? PRI_MIN then PRI_MIN else priority in
  Ok priority.

Definition thread_set_nice (nc : Z) : code K unit :=
  (act (assert ((-20 <=? nc) && (nc <=? 20));;;
        c <- thread_current;; upd_thread c (set_nice nc))%c;;;
   act (c <- thread_current;; th <- get_thread c;;
        fp_op;;;
        p <- lift (BSD_calc_priority_this (recent_cpu th) (nice th));;
        upd_thread c (set_priority p))%c;;;
   b <- act (th <- thread_current_struct;;
             top <- thread_top_priority;;
             lvl <- intr_get_level;;
             ret ((priority th <? top) && Bool.eqb lvl INTR_ON))%c;;
   if (b : bool) then thread_yield else Ret tt)%code.

Definition thread_get_load_avg : M K Z :=
  fp_op;;;
  la <- gets load_avg;; ret (fp_convert_to_int (fp_mult la 100 INT_REAR)).

Definition thread_get_recent_cpu : M K Z :=
  fp_op;;;
  th <- thread_current_struct;; ret (fp_convert_to_int (fp_mult (recent_cpu th) 100 INT_REAR)).

(** One iteration of [BSD_calc_priority].  [list_remove] unlinks the element
    from whichever list it is in. *)
Definition BSD_calc_priority_thread (t : Z) (yield : bool) : M K bool :=
  th <- get_thread t;;
  if String.eqb (name th) "idle" then ret yield
  else
    let pri := priority th in
    new <- lift (BSD_calc_priority_this (recent_cpu th) (nice th));;
    upd_thread t (set_priority new);;;
    yield <- (if bool_decide (status th = THREAD_READY) && negb (pri =? new) then
                modify (fun k => set_ready_list (map (remove_elem t) (ready_list k)) k);;;
                l <- get_ready new;;
                put_ready new (l ++ [t]);;;
                me <- thread_current_struct;;
                ret (yield || (new >? priority me))
              else ret yield);;
    if bool_decide (status th = THREAD_RUNNING) then
      top <- thread_top_priority;; ret (yield || (new <? top))
    else ret yield.

Fixpoint BSD_calc_priority_loop (l : list Z) (yield : bool) : M K bool :=
  match l with
  | [] => ret yield
  | t :: l => yield <- BSD_calc_priority_thread t yield;; BSD_calc_priority_loop l yield
  end.

Definition BSD_calc_priority : M K unit :=
  fp_op;;;
  l <- gets all_list;;
  yield <- BSD_calc_priority_loop l false;;
  ctx <- intr_context;;
  if yield && ctx then intr_yield_on_return else ret tt.

Definition BSD_calc_load_average : M K unit :=
  k <- get;;
  nm <- thread_name;;
  fp_op;;;
  let ready_threads := Z.of_nat (length (concat (ready_list k))) in
  let ready_threads := if String.eqb nm "idle" then ready_threads else ready_threads + 1 in
  d59_60 <- lift (fp_devide (fp_convert_to_fp 59) 60 INT_REAR);;
  d1_60 <- lift (fp_devide (fp_convert_to_fp 1) 60 INT_REAR);;
  modify (set_load_avg
    (fp_add (fp_mult (load_avg k) d59_60 FP_REAR) (fp_mult d1_60 ready_threads INT_REAR) FP_REAR)).

Fixpoint BSD_calc_recent_cpu_loop (coef : Z) (l : list Z) : M K unit :=
  match l with
  | [] => ret tt
  | t :: l =>
      th <- get_thread t;;
      (if String.eqb (name th) "idle" then ret tt
       else upd_thread t
              (set_recent_cpu (fp_add (fp_mult coef (recent_cpu th) FP_REAR) (nice th) INT_REAR)));;;
      BSD_calc_recent_cpu_loop coef l
  end.

Definition BSD_calc_recent_cpu : M K unit :=
  fp_op;;;
  la <- gets load_avg;;
  let coef := fp_mult la 2 INT_REAR in
  coef <- lift (fp_devide coef (fp_add coef 1 INT_REAR) FP_REAR);;
  l <- gets all_list;;
  BSD_calc_recent_cpu_loop coef l.

Definition BSD_schedule : M K unit :=
  tick <- timer_ticks;;
  th <- thread_current_struct;;
  (if String.eqb (name th) "idle" then ret tt
   else fp_op;;; c <- thread_current;;
        upd_thread c (set_recent_cpu (fp_add (recent_cpu th) 1 INT_REAR)));;;
  (if Z.rem tick TIMER_FREQ =? 0 then BSD_calc_load_average;;; BSD_calc_recent_cpu
   else ret tt);;;
  if Z.rem tick 4 =? 0 then BSD_calc_priority else ret tt.

Definition thread_tick : M K unit :=
  t <- thread_current;;
  idle <- gets idle_thread;;
  (if t =? idle then modify (fun k => set_idle_ticks (i64 (idle_ticks k + 1)) k)
   else modify (fun k => set_kernel_ticks (i64 (kernel_ticks k + 1)) k));;;
  modify (fun k => set_thread_ticks (u32 (thread_ticks k + 1)) k);;;
  n <- gets thread_ticks;;
  (if TIME_SLICE <=? n then intr_yield_on_return else ret tt);;;
  mlfqs <- gets thread_mlfqs;;
  (if mlfqs : bool then BSD_schedule else ret tt);;;
  aging <- gets thread_prior_aging;;
  if aging : bool then thread_aging else ret tt.

(** ** The timer (devices/timer.c) *)

(** The alarms already passed over, and those still to be looked at. *)
Fixpoint alarm_loop (kept rest : list thread_alarm) : M K unit :=
  match rest with
  | [] => ret tt
  | th :: rest =>
      now <- gets ticks;;
      if time_wake th <=? now then
        thread_unblock_intr_off (alarm_thread th);;;
        intr_yield_on_return;;;
        modify (set_list_alarm (kept ++ rest));;;
        alarm_loop kept rest
      else alarm_loop (kept ++ [th]) rest
  end.

Definition timer_interrupt : M K unit :=
  modify (fun k => set_ticks (i64 (ticks k + 1)) k);;;
  thread_tick;;;
  l <- gets list_alarm;;
  alarm_loop [] l.

(** [timer_sleep] from [intr_disable] to the switch. *)
Definition timer_sleep_block (n start : Z) : M K bool :=
  old_level <- intr_disable;;
  t <- thread_current;;
  modify (fun k => set_list_alarm (list_alarm k ++ [ThreadAlarm (i64 (n + start)) t]) k);;;
  thread_block;;;
  ret old_level.

Definition timer_sleep (n : Z) : code K unit :=
  (start <- act timer_ticks;;
   e <- act (timer_elapsed start);;
   if e <? n then
     old_level <- act (timer_sleep_block n start);;
     act (intr_set_level old_level);;;
     Ret tt
   else Ret tt)%code.

(** Busy waiting changes nothing. *)
Definition real_time_delay (num denom : Z) : M K unit :=
  assert (Z.rem denom 1000 =? 0).

Definition real_time_sleep (num denom : Z) : code K unit :=
  let n := Z.quot (i64 (num * TIMER_FREQ)) denom in
  (act (lvl <- intr_get_level;; assert (Bool.eqb lvl INTR_ON))%c;;;
   if n >? 0 then timer_sleep n else act (real_time_delay num denom))%code.

Definition timer_msleep (ms : Z) : code K unit := real_time_sleep ms 1000.
Definition timer_usleep (us : Z) : code K unit := real_time_sleep us (1000 * 1000).
Definition timer_nsleep (ns : Z) : code K unit := real_time_sleep ns (1000 * 1000 * 1000).

(** [intr_handler] for the timer's vector, entered through an interrupt gate,
    which clears the interrupt flag; without a yield, [iret] sets it again. *)
Definition timer_irq : M K bool :=
  modify (set_level INTR_OFF);;;
  ctx <- intr_context;;
  assert (negb ctx);;;
  modify (set_in_external_intr true);;;
  modify (set_yield_on_return false);;;
  timer_interrupt;;;
  lvl <- intr_get_level;;
  assert (Bool.eqb lvl INTR_OFF);;;
  ctx <- intr_context;;
  assert ctx;;;
  modify (set_in_external_intr false);;;
  y <- gets yield_on_return;;
  (if y : bool then ret tt else modify (set_level INTR_ON));;;
  ret y.

Definition irq_return : code K unit :=
  (thread_yield;;; act (modify (set_level INTR_ON)))%code.

(** ** Starting up *)

(** The address of [idle]. *)
Definition IDLE_FN : Z := 1.

(** The argument is the address of a semaphore. *)
Definition idle (idle_started : Z) : code K unit :=
  (act (t <- thread_current;; modify (set_idle_thread t))%c;;;
   sema_up (SemaAt idle_started);;;
   while (ret true)
     (act intr_disable;;;
      act thread_block;;;
      act (modify (set_level INTR_ON))))%code.

Definition kernel_thread (fn ax : Z) : code K unit :=
  (act (assert (negb (fn =? NULL));;; intr_enable)%c;;;
   (if fn =? IDLE_FN then idle ax else entry fn ax);;;
   thread_exit)%code.

Definition thread_init : code K unit :=
  (t <- act (lvl <- intr_get_level;;
             assert (Bool.eqb lvl INTR_OFF);;;
             lock_init TidLock;;;
             modify (set_ready_list (replicate (Z.to_nat (PRI_MAX + 1)) []));;;
             modify (set_all_list []);;;
             mlfqs <- gets thread_mlfqs;;
             (if mlfqs : bool then modify (set_load_avg (fp_convert_to_fp 0)) else ret tt);;;
             t <- running_thread;;
             modify (set_initial_thread t);;;
             ret t)%c;;
   init_thread t "main" PRI_DEFAULT;;;
   act (upd_thread t (set_status THREAD_RUNNING));;;
   tid <- allocate_tid;;
   act (upd_thread t (set_tid tid)))%code.

(** [start_idle] is the address of the semaphore in the stack frame. *)
Definition thread_start (start_idle : Z) : code K unit :=
  (act (sema_init (SemaAt start_idle) 0);;;
   thread_create "idle" PRI_MIN IDLE_FN start_idle;;;
   act intr_enable;;;
   sema_down (SemaAt start_idle))%code.

Definition kernel_processor : processor K :=
  Processor cur
    (fun k t => bool_decide (is_Some (threads k !! t)))
    (fun k t => match threads k !! t with
                | Some th => kernel_thread (function th) (aux th)
                | None => Ret tt
                end)
    level timer_irq irq_return.
End Thread.
