(* ===== verification/ThreadInv.v ===== *)
(** * Threads: the scheduler's invariant

    What holds of the thread system between any two atomic actions, and that
    the actions of Thread.v preserve it. *)

From S2P Require Import Prelude PageAlloc FixedPoint Code KernelState Thread.
From stdpp Require Import strings.
Local Open Scope Z_scope.

(** Opens the invariant [H] and closes the fields that a change of the state
    does not concern. *)
Ltac inv_cases H :=
  destruct H as [Hlen Hnull Hmagic Hprio Hrun Hrunl Hready Hrnd Hqueued Hidle Hwait Hwnd
    Hwonce Halarm Hand Haw Hfresh Htok Hraw Hnoi Honei Hiname Hall Halln Hallc Hdying Hpool Hpwf Hinit];
  constructor; simpl; try assumption.

(** Case analysis on a lookup in an updated map. *)
Ltac upd_cases :=
  repeat match goal with
  | H : <[_ := _]> _ !! _ = Some _ |- _ =>
      apply lookup_insert_Some in H as [[? ?]|[? ?]]; simplify_eq
  | H : delete _ _ !! _ = Some _ |- _ => apply lookup_delete_Some in H as [? ?]
  end.

Section Inv.
Context {P : Type} {PA : PageAllocator P}.
Local Notation K := (kernel P).

(** ** Threads under construction

    The stages of [thread_create]: the page is allocated; it holds a [struct
    thread]; the thread is in [all_list].  The flag says that the thread is
    called "idle".  [NoIdle] is the right to create the idle thread, which
    exists once. *)
Inductive stage : Set := Raw | Built (i : bool) | Listed (i : bool) | NoIdle.

#[export] Instance stage_eq_dec : EqDecision stage.
Proof. solve_decision. Defined.

#[export] Instance stage_countable : Countable stage.
Proof.
  apply (inj_countable'
    (fun s => match s with Raw => (0, true) | Built i => (1, i) | Listed i => (2, i)
              | NoIdle => (3, true) end)
    (fun z => match z.1 with 0 => Raw | 1 => Built z.2 | 2 => Listed z.2 | _ => NoIdle end)).
  by intros [].
Defined.

Definition token : Set := (Z * stage)%type.

(** [F] holds the tokens of the threads under construction, [run] is the thread whose status
    is [THREAD_RUNNING] (none inside the scheduler), [dead] a thread that is
    about to be destroyed. *)
Record inv (F : gset token) (run dead : option Z) (k : K) : Prop := Inv {
  inv_len : length (ready_list k) = 64%nat;
  inv_null : threads k !! NULL = None;
  inv_magic t th : threads k !! t = Some th -> magic th = THREAD_MAGIC;
  inv_prio t th : threads k !! t = Some th -> PRI_MIN <= priority th <= PRI_MAX;
  (* one running thread *)
  inv_run t th :
    threads k !! t = Some th -> (status th = THREAD_RUNNING <-> run = Some t);
  inv_run_alive t : run = Some t -> is_Some (threads k !! t);
  (* the queues hold the ready threads, each one in the queue of its priority *)
  inv_ready i l t :
    ready_list k !! i = Some l -> t ∈ l ->
    t <> idle_thread k /\
    exists th, threads k !! t = Some th /\ status th = THREAD_READY /\
               priority th = Z.of_nat i;
  inv_ready_nodup i l : ready_list k !! i = Some l -> NoDup l;
  inv_queued t th :
    threads k !! t = Some th -> status th = THREAD_READY -> t <> idle_thread k ->
    exists l, ready_list k !! Z.to_nat (priority th) = Some l /\ t ∈ l;
  (* the idle thread runs [idle], which never ends *)
  inv_idle :
    idle_thread k = NULL \/
    exists th, threads k !! idle_thread k = Some th /\ function th = IDLE_FN /\
               status th <> THREAD_DYING;
  (* a thread waits in at most one place, and is then blocked *)
  inv_wait s x t :
    semas k !! s = Some x -> t ∈ waiters x ->
    t <> idle_thread k /\ (forall sg, (t, sg) ∉ F) /\
    exists th, threads k !! t = Some th /\ status th = THREAD_BLOCKED;
  inv_wait_nodup s x : semas k !! s = Some x -> NoDup (waiters x);
  inv_wait_once s1 s2 x1 x2 t :
    semas k !! s1 = Some x1 -> semas k !! s2 = Some x2 ->
    t ∈ waiters x1 -> t ∈ waiters x2 -> s1 = s2;
  inv_alarm a :
    a ∈ list_alarm k ->
    alarm_thread a <> idle_thread k /\ (forall sg, (alarm_thread a, sg) ∉ F) /\
    exists th, threads k !! alarm_thread a = Some th /\ status th = THREAD_BLOCKED;
  inv_alarm_nodup : NoDup (map alarm_thread (list_alarm k));
  inv_alarm_wait s x a :
    semas k !! s = Some x -> a ∈ list_alarm k -> alarm_thread a ∉ waiters x;
  (* threads under construction *)
  inv_fresh t sg i :
    (t, sg) ∈ F -> sg = Built i \/ sg = Listed i ->
    t <> idle_thread k /\ (t ∈ all_list k <-> sg = Listed i) /\
    exists th, threads k !! t = Some th /\ status th = THREAD_BLOCKED /\
               (i = true -> name th = "idle");
  inv_token t s1 s2 : (t, s1) ∈ F -> (t, s2) ∈ F -> s1 = s2;
  inv_raw t :
    (t, Raw) ∈ F ->
    threads k !! t = None /\ pa_used (pool k) t /\ t <> NULL /\ t <> initial_thread k;
  inv_no_idle t :
    (t, NoIdle) ∈ F ->
    t = NULL /\ idle_thread k = NULL /\
    forall u th, threads k !! u = Some th -> function th <> IDLE_FN;
  inv_one_idle t1 t2 th1 th2 :
    threads k !! t1 = Some th1 -> threads k !! t2 = Some th2 ->
    function th1 = IDLE_FN -> function th2 = IDLE_FN -> t1 = t2;
  inv_idle_name t th :
    threads k !! t = Some th -> function th = IDLE_FN -> name th = "idle";
  (* [all_list] *)
  inv_all t :
    t ∈ all_list k -> exists th, threads k !! t = Some th /\ status th <> THREAD_DYING;
  inv_all_nodup : NoDup (all_list k);
  inv_all_complete t th :
    threads k !! t = Some th -> status th <> THREAD_DYING -> (forall i, (t, Built i) ∉ F) ->
    t ∈ all_list k;
  (* memory *)
  inv_dying t th :
    threads k !! t = Some th -> status th = THREAD_DYING ->
    t = initial_thread k \/ dead = Some t;
  inv_pool t :
    is_Some (threads k !! t) -> t = initial_thread k \/ pa_used (pool k) t;
  inv_pool_wf : pa_wf (pool k);
  inv_initial : ~ pa_managed (pool k) (initial_thread k)
}.

(** ** Rules for the primitive operations *)

Lemma wp_get_thread t (Q : thread -> K -> Prop) k :
  (forall th, threads k !! t = Some th -> Q th k) -> wp (get_thread t) Q k.
Proof.
  intros H. unfold get_thread. apply wp_bind, wp_get.
  destruct (threads k !! t) eqn:E; [apply wp_ret; auto|apply wp_fault].
Qed.

Lemma wp_upd_thread t f (Q : unit -> K -> Prop) k :
  (forall th, threads k !! t = Some th ->
     Q tt (set_threads (<[t := f th]> (threads k)) k)) ->
  wp (upd_thread t f) Q k.
Proof.
  intros H. unfold upd_thread. apply wp_bind, wp_get_thread. intros th Ht.
  apply wp_modify. auto.
Qed.

Lemma wp_get_ready i (Q : list Z -> K -> Prop) k :
  (forall l, 0 <= i -> ready_list k !! Z.to_nat i = Some l -> Q l k) ->
  wp (get_ready i) Q k.
Proof.
  intros H. unfold get_ready. apply wp_bind, wp_get.
  destruct (Z.leb_spec 0 i); [|apply wp_fault].
  destruct (ready_list k !! Z.to_nat i) eqn:E; [apply wp_ret; auto|apply wp_fault].
Qed.

Lemma wp_put_ready i l (Q : unit -> K -> Prop) k :
  (0 <= i -> is_Some (ready_list k !! Z.to_nat i) ->
     Q tt (set_ready_list (<[Z.to_nat i := l]> (ready_list k)) k)) ->
  wp (put_ready i l) Q k.
Proof.
  intros H. unfold put_ready. apply wp_bind, wp_get_ready. intros l' Hi Hl.
  apply wp_modify. eauto.
Qed.

Lemma wp_get_sema s (Q : semaphore -> K -> Prop) k :
  (forall x, semas k !! s = Some x -> Q x k) -> wp (get_sema s) Q k.
Proof.
  intros H. unfold get_sema. apply wp_bind, wp_get.
  destruct (semas k !! s) eqn:E; [apply wp_ret; auto|apply wp_fault].
Qed.

Lemma wp_put_sema s x (Q : unit -> K -> Prop) k :
  Q tt (set_semas (<[s := x]> (semas k)) k) -> wp (put_sema s x) Q k.
Proof. apply wp_modify. Qed.

Lemma wp_get_holder l (Q : Z -> K -> Prop) k :
  (forall t, holders k !! l = Some t -> Q t k) -> wp (get_holder l) Q k.
Proof.
  intros H. unfold get_holder. apply wp_bind, wp_get.
  destruct (holders k !! l) eqn:E; [apply wp_ret; auto|apply wp_fault].
Qed.

Lemma wp_put_holder l t (Q : unit -> K -> Prop) k :
  Q tt (set_holders (<[l := t]> (holders k)) k) -> wp (put_holder l t) Q k.
Proof.
  intros H. unfold put_holder. apply wp_bind, wp_get_holder. intros. by apply wp_modify.
Qed.

Lemma wp_intr_get_level (Q : bool -> K -> Prop) k :
  Q (level k) k -> wp intr_get_level Q k.
Proof. apply wp_gets. Qed.

Lemma wp_intr_context (Q : bool -> K -> Prop) k :
  Q (in_external_intr k) k -> wp intr_context Q k.
Proof. apply wp_gets. Qed.

Lemma wp_intr_disable (Q : bool -> K -> Prop) k :
  Q (level k) (set_level INTR_OFF k) -> wp intr_disable Q k.
Proof. done. Qed.

Lemma wp_intr_set_level b (Q : bool -> K -> Prop) k :
  (forall l, Q l (set_level b k)) -> wp (intr_set_level b) Q k.
Proof.
  intros H. destruct b; [|apply wp_intr_disable; apply H].
  unfold intr_set_level, intr_enable. apply wp_bind, wp_intr_get_level, wp_bind, wp_intr_context.
  apply wp_bind, wp_assert. intros _. apply wp_bind, wp_modify, wp_ret, H.
Qed.

Lemma wp_intr_yield_on_return (Q : unit -> K -> Prop) k :
  Q tt (set_yield_on_return true k) -> wp intr_yield_on_return Q k.
Proof.
  intros H. apply wp_bind, wp_intr_context, wp_bind, wp_assert. intros _. by apply wp_modify.
Qed.

(** Saving and restoring the interrupt level leaves the state as it was. *)
Lemma set_level_back (k : K) : set_level (level k) (set_level INTR_OFF k) = k.
Proof. by destruct k. Qed.

Lemma wp_timer_ticks (Q : Z -> K -> Prop) k : Q (ticks k) k -> wp timer_ticks Q k.
Proof.
  intros H. apply wp_bind, wp_intr_disable, wp_bind, wp_gets, wp_bind, wp_intr_set_level.
  intros _. rewrite set_level_back. by apply wp_ret.
Qed.

Lemma wp_timer_elapsed t (Q : Z -> K -> Prop) k :
  Q (i64 (ticks k - t)) k -> wp (timer_elapsed t) Q k.
Proof. intros H. by apply wp_bind, wp_timer_ticks, wp_ret. Qed.

Lemma wp_is_thread t (Q : bool -> K -> Prop) k :
  (t = NULL -> Q false k) ->
  (forall th, t <> NULL -> threads k !! t = Some th -> Q (magic th =? THREAD_MAGIC) k) ->
  wp (is_thread t) Q k.
Proof.
  intros H1 H2. unfold is_thread. destruct (Z.eqb_spec t NULL); [apply wp_ret; auto|].
  apply wp_bind, wp_get_thread. intros th Ht. apply wp_ret. auto.
Qed.

Lemma wp_thread_current (Q : Z -> K -> Prop) k :
  (forall th, threads k !! cur k = Some th -> status th = THREAD_RUNNING -> Q (cur k) k) ->
  wp thread_current Q k.
Proof.
  intros H. apply wp_bind, wp_gets, wp_bind, wp_is_thread.
  - intros _. by apply wp_bind, wp_assert.
  - intros th _ Ht. apply wp_bind, wp_assert. intros _. apply wp_bind, wp_get_thread.
    intros th' Ht'. apply wp_bind, wp_assert. intros Hs%bool_decide_eq_true. apply wp_ret. eauto.
Qed.

Lemma wp_thread_current_struct (Q : thread -> K -> Prop) k :
  (forall th, threads k !! cur k = Some th -> status th = THREAD_RUNNING -> Q th k) ->
  wp thread_current_struct Q k.
Proof.
  intros H. apply wp_bind, wp_thread_current. intros th Ht Hs. apply wp_get_thread.
  intros th' Ht'. simplify_eq. auto.
Qed.

Lemma wp_top_priority_loop n (Q : Z -> K -> Prop) k :
  (forall p, Q p k) -> wp (thread_top_priority_loop n) Q k.
Proof.
  intros H. induction n as [|i IH]; cbn [thread_top_priority_loop]; [by apply wp_ret|].
  apply wp_bind, wp_get_ready. intros [|x l] _ _; [done|]. apply wp_ret, H.
Qed.

Lemma wp_thread_top_priority (Q : Z -> K -> Prop) k :
  (forall p, Q p k) -> wp thread_top_priority Q k.
Proof. apply wp_top_priority_loop. Qed.

Lemma twp_get_thread t th (Q : thread -> K -> Prop) k :
  threads k !! t = Some th -> Q th k -> twp (get_thread t) Q k.
Proof. intros Ht HQ. apply twp_bind, twp_get. by rewrite Ht. Qed.

Lemma twp_upd_thread t th f (Q : unit -> K -> Prop) k :
  threads k !! t = Some th -> Q tt (set_threads (<[t := f th]> (threads k)) k) ->
  twp (upd_thread t f) Q k.
Proof. intros Ht HQ. apply twp_bind. by apply (twp_get_thread t th). Qed.

Lemma twp_get_ready i l (Q : list Z -> K -> Prop) k :
  ready_list k !! i = Some l -> Q l k -> twp (get_ready (Z.of_nat i)) Q k.
Proof.
  intros Hl HQ. apply twp_bind, twp_get. rewrite (proj2 (Z.leb_le _ _)) by lia.
  by rewrite Nat2Z.id, Hl.
Qed.

Lemma twp_put_ready i l l0 (Q : unit -> K -> Prop) k :
  ready_list k !! i = Some l0 -> Q tt (set_ready_list (<[i := l]> (ready_list k)) k) ->
  twp (put_ready (Z.of_nat i) l) Q k.
Proof.
  intros Hl HQ. apply twp_bind. eapply twp_get_ready; [exact Hl|]. apply twp_modify.
  by rewrite Nat2Z.id.
Qed.

Lemma twp_is_thread t th (Q : bool -> K -> Prop) k :
  t <> NULL -> threads k !! t = Some th -> magic th = THREAD_MAGIC ->
  Q true k -> twp (is_thread t) Q k.
Proof.
  intros Hn Ht Hm HQ. unfold is_thread. destruct (Z.eqb_spec t NULL); [done|].
  apply twp_bind. eapply twp_get_thread; [exact Ht|]. apply twp_ret. by rewrite Hm, Z.eqb_refl.
Qed.

Lemma twp_thread_current_at t th (Q : Z -> K -> Prop) k :
  cur k = t -> t <> NULL -> threads k !! t = Some th -> magic th = THREAD_MAGIC ->
  status th = THREAD_RUNNING -> Q t k -> twp thread_current Q k.
Proof.
  intros Hc Hn Ht Hm Hs HQ. apply twp_bind, twp_gets, twp_bind. rewrite Hc.
  eapply twp_is_thread; [done|exact Ht|done|].
  apply twp_bind, twp_assert; [done|]. apply twp_bind. eapply twp_get_thread; [exact Ht|].
  apply twp_bind, twp_assert; [by apply bool_decide_eq_true|done].
Qed.

(** [irrelevant f]: the fields of the state that [f] changes are not mentioned
    by the invariant. *)
Definition irrelevant (f : K -> K) : Prop :=
  forall F run dead k, inv F run dead k -> inv F run dead (f k).

Ltac solve_irrelevant := intros F run dead k []; by constructor.

Lemma irr_level x : irrelevant (set_level x).
Proof. solve_irrelevant. Qed.
Lemma irr_in_external_intr x : irrelevant (set_in_external_intr x).
Proof. solve_irrelevant. Qed.
Lemma irr_yield_on_return x : irrelevant (set_yield_on_return x).
Proof. solve_irrelevant. Qed.
Lemma irr_holders x : irrelevant (set_holders x).
Proof. solve_irrelevant. Qed.
Lemma irr_conds x : irrelevant (set_conds x).
Proof. solve_irrelevant. Qed.
Lemma irr_ticks x : irrelevant (set_ticks x).
Proof. solve_irrelevant. Qed.
Lemma irr_thread_ticks x : irrelevant (set_thread_ticks x).
Proof. solve_irrelevant. Qed.
Lemma irr_idle_ticks x : irrelevant (set_idle_ticks x).
Proof. solve_irrelevant. Qed.
Lemma irr_kernel_ticks x : irrelevant (set_kernel_ticks x).
Proof. solve_irrelevant. Qed.
Lemma irr_next_tid x : irrelevant (set_next_tid x).
Proof. solve_irrelevant. Qed.
Lemma irr_max_tid x : irrelevant (set_max_tid x).
Proof. solve_irrelevant. Qed.
Lemma irr_load_avg x : irrelevant (set_load_avg x).
Proof. solve_irrelevant. Qed.
Lemma irr_cur x : irrelevant (set_cur x).
Proof. solve_irrelevant. Qed.

(** ** Changes of the state

    Each lemma takes the invariant across one change of the state. *)

(** Data members of a thread that the scheduler does not look at. *)
Definition same_sched (th th' : thread) : Prop :=
  status th' = status th /\ priority th' = priority th /\ magic th' = magic th /\
  function th' = function th /\ name th' = name th.

Lemma inv_upd_data F run dead k t th th' :
  inv F run dead k -> threads k !! t = Some th -> same_sched th th' ->
  inv F run dead (set_threads (<[t := th']> (threads k)) k).
Proof.
  intros H Ht (Es & Ep & Em & Ef & En).
  assert (forall (Q : thread -> Prop) u,
    (Q th -> Q th') -> (exists x, threads k !! u = Some x /\ Q x) ->
    exists x, <[t := th']> (threads k) !! u = Some x /\ Q x) as Hex.
  { intros Q u HQ (x & Hx & Hq). destruct (decide (t = u)) as [<-|Hne].
    - simplify_eq. exists th'. rewrite lookup_insert_eq. auto.
    - exists x. by rewrite lookup_insert_ne. }
  inv_cases H.
  - by rewrite lookup_insert_ne by (intros ->; congruence).
  - intros u x Hx. upd_cases; [rewrite Em|]; eauto.
  - intros u x Hx. upd_cases; [rewrite Ep|]; eauto.
  - intros u x Hx. upd_cases; [rewrite Es|]; eauto.
  - intros u Hu. destruct (decide (t = u)) as [<-|]; rewrite ?lookup_insert_eq,
      ?lookup_insert_ne by done; eauto.
  - intros i l u Hl Hu. destruct (Hready _ _ _ Hl Hu) as [? Hx]. split; [done|].
    revert Hx. apply Hex. by rewrite Es, Ep.
  - intros u x Hx. upd_cases; [rewrite Es, Ep|]; eauto.
  - destruct Hidle as [?|Hx]; [by left|right]. revert Hx. apply Hex. by rewrite Ef, Es.
  - intros s x u Hs Hu. destruct (Hwait _ _ _ Hs Hu) as (? & ? & Hx). split_and!; [done..|].
    revert Hx. apply Hex. by rewrite Es.
  - intros a Ha. destruct (Halarm _ Ha) as (? & ? & Hx). split_and!; [done..|].
    revert Hx. apply Hex. by rewrite Es.
  - intros u sg i Hu Hsg. destruct (Hfresh _ _ _ Hu Hsg) as (? & ? & Hx). split_and!; [done..|].
    revert Hx. apply Hex. by rewrite Es, En.
  - intros u Hu. rewrite lookup_insert_ne; [by apply Hraw|].
    intros ->. destruct (Hraw _ Hu). congruence.
  - intros u Hu. destruct (Hnoi _ Hu) as (? & ? & Hx). split_and!; [done..|].
    intros v x Hv. upd_cases; [rewrite Ef|]; eauto.
  - intros t1 t2 x1 x2 H1 H2. upd_cases; rewrite ?Ef; eauto.
  - intros u x Hx. upd_cases; [rewrite Ef, En|]; eauto.
  - intros u Hu. apply Hall in Hu. revert Hu. apply Hex. by rewrite Es.
  - intros u x Hx. upd_cases; [rewrite Es|]; eauto.
  - intros u x Hx. upd_cases; [rewrite Es|]; eauto.
  - intros u Hx. apply Hpool. destruct (decide (t = u)) as [<-|]; [by rewrite Ht|].
    by rewrite lookup_insert_ne in Hx.
Qed.

(** [unparked k t]: the thread is in no waiting list. *)
Definition unparked (k : K) (t : Z) : Prop :=
  (forall s x, semas k !! s = Some x -> t ∉ waiters x) /\
  t ∉ map alarm_thread (list_alarm k).

Lemma unparked_status F run dead k t th :
  inv F run dead k -> threads k !! t = Some th -> status th <> THREAD_BLOCKED ->
  unparked k t.
Proof.
  intros H Ht Hs. split.
  - intros s x Hx Hin. destruct (inv_wait _ _ _ _ H _ _ _ Hx Hin) as (_ & _ & th' & ? & ?).
    simplify_eq.
  - intros (a & -> & Ha)%list_elem_of_fmap.
    destruct (inv_alarm _ _ _ _ H _ Ha) as (_ & _ & th' & ? & ?). simplify_eq.
Qed.

(** What the queues must be after thread [t], of priority [p], has got the
    status [st]: the other threads stay where they were. *)
Record requeued (k : K) (t : Z) (p : Z) (st : thread_status) (rl : list (list Z)) : Prop :=
Requeued {
  rq_len : length rl = 64%nat;
  rq_nodup i l : rl !! i = Some l -> NoDup l;
  rq_in i l u : rl !! i = Some l -> u ∈ l ->
    (u = t /\ st = THREAD_READY /\ t <> idle_thread k /\ p = Z.of_nat i) \/
    (u <> t /\ exists l0, ready_list k !! i = Some l0 /\ u ∈ l0);
  rq_other i l0 u : ready_list k !! i = Some l0 -> u ∈ l0 -> u <> t ->
    exists l, rl !! i = Some l /\ u ∈ l;
  rq_self : st = THREAD_READY -> t <> idle_thread k ->
    exists l, rl !! Z.to_nat p = Some l /\ t ∈ l
}.

(** A thread changes its status or its priority, and moves accordingly; it
    waits nowhere, unless it stays blocked. *)
Lemma inv_move F run run' dead k t th th' rl :
  inv F run dead k -> threads k !! t = Some th ->
  magic th' = magic th -> function th' = function th -> name th' = name th ->
  PRI_MIN <= priority th' <= PRI_MAX ->
  (unparked k t /\ (forall sg, (t, sg) ∉ F) \/ status th' = THREAD_BLOCKED) ->
  (status th' = THREAD_DYING <-> status th = THREAD_DYING) ->
  requeued k t (priority th') (status th') rl ->
  (status th' = THREAD_RUNNING <-> run' = Some t) ->
  (forall u, u <> t -> run = Some u <-> run' = Some u) ->
  inv F run' dead (set_threads (<[t := th']> (threads k)) (set_ready_list rl k)).
Proof.
  intros H Ht Em Ef En Hp Hpark Hst [Rlen Rnd Rin Roth Rself] Hrs Hro.
  assert (forall (Q : thread -> Prop) u,
    u <> t \/ Q th' -> (exists x, threads k !! u = Some x /\ Q x) ->
    exists x, <[t := th']> (threads k) !! u = Some x /\ Q x) as Hex.
  { intros Q u Hne (x & Hx & Hq). destruct (decide (t = u)) as [<-|].
    - exists th'. rewrite lookup_insert_eq. naive_solver.
    - exists x. by rewrite lookup_insert_ne. }
  inv_cases H.
  - by rewrite lookup_insert_ne by (intros ->; congruence).
  - intros u x Hx. upd_cases; [rewrite Em|]; eauto.
  - intros u x Hx. upd_cases; eauto.
  - intros u x Hx. upd_cases; [done|]. rewrite <- Hro by done. eauto.
  - intros u Hu. destruct (decide (t = u)) as [<-|]; rewrite ?lookup_insert_eq; [eauto|].
    rewrite lookup_insert_ne by done. apply Hrunl, Hro; auto.
  - intros i l u Hl Hu. destruct (Rin _ _ _ Hl Hu) as [(-> & ? & ? & ?)|(? & l0 & H1 & H2)].
    + split; [done|]. exists th'. by rewrite lookup_insert_eq.
    + destruct (Hready _ _ _ H1 H2) as [? Hx]. split; [done|]. by apply Hex; auto.
  - intros u x Hx. upd_cases; [by apply Rself|]. intros Hs Hi.
    destruct (Hqueued _ _ H0 Hs Hi) as (l0 & H1 & H2). eauto.
  - destruct Hidle as [?|Hx]; [by left|right]. apply Hex; [|done].
    destruct (decide (idle_thread k = t)) as [E|]; [right|by left].
    destruct Hx as (x & Hx & Hf & Hd). rewrite E in Hx. simplify_eq.
    rewrite Ef. naive_solver.
  - intros s x u Hs Hu. destruct (Hwait _ _ _ Hs Hu) as (? & ? & ?). split_and!; [done..|].
    apply Hex; [|done]. destruct Hpark as [[[Hu1 _] _]|?]; [left|by right].
    intros ->. by eapply Hu1.
  - intros a Ha. destruct (Halarm _ Ha) as (? & ? & ?). split_and!; [done..|].
    apply Hex; [|done]. destruct Hpark as [[[_ Hu2] _]|?]; [left|by right].
    intros <-. apply Hu2, list_elem_of_fmap. eauto.
  - intros u sg i Hu Hsg. destruct (Hfresh _ _ _ Hu Hsg) as (? & ? & Hx). split_and!; [done..|].
    apply Hex; [|done]. destruct (decide (u = t)) as [->|]; [right|by left].
    destruct Hpark as [[_ HF]|?]; [by destruct (HF sg)|]. rewrite En. naive_solver.
  - intros u Hu. rewrite lookup_insert_ne; [by apply Hraw|].
    intros ->. destruct (Hraw _ Hu). congruence.
  - intros u Hu. destruct (Hnoi _ Hu) as (? & ? & Hx). split_and!; [done..|].
    intros v x Hv. upd_cases; [rewrite Ef|]; eauto.
  - intros t1 t2 x1 x2 H1 H2. upd_cases; rewrite ?Ef; eauto.
  - intros u x Hx. upd_cases; [rewrite Ef, En|]; eauto.
  - intros u Hu. apply Hex; [|by apply Hall]. destruct (decide (u = t)) as [->|]; [right|auto].
    destruct (Hall _ Hu) as (x & Hx & Hd). simplify_eq. naive_solver.
  - intros u x Hx. upd_cases; [|eauto]. intros Hd. eapply Hallc; [exact Ht|]. naive_solver.
  - intros u x Hx. upd_cases; [|eauto]. intros Hd. eapply Hdying; [exact Ht|]. naive_solver.
  - intros u Hx. apply Hpool. destruct (decide (t = u)) as [<-|]; [by rewrite Ht|].
    by rewrite lookup_insert_ne in Hx.
Qed.

Lemma inv_set_status F run run' dead k t th st rl :
  inv F run dead k -> threads k !! t = Some th -> unparked k t ->
  (forall sg, (t, sg) ∉ F) -> st <> THREAD_DYING -> status th <> THREAD_DYING ->
  requeued k t (priority th) st rl ->
  (st = THREAD_RUNNING <-> run' = Some t) ->
  (forall u, u <> t -> run = Some u <-> run' = Some u) ->
  inv F run' dead (set_threads (<[t := set_status st th]> (threads k)) (set_ready_list rl k)).
Proof.
  intros H Ht Hu HF Hst Hst0 Hq Hrs Hro.
  eapply (inv_move F run run' dead k t th (set_status st th)); eauto.
  - exact (inv_prio _ _ _ _ H t th Ht).
  - simpl. naive_solver.
Qed.

(** The queues stay as they are when the thread is not and does not become
    ready (or is the idle thread, which is never queued). *)
Lemma requeued_same F run dead k t th st p :
  inv F run dead k -> threads k !! t = Some th ->
  (status th <> THREAD_READY \/ t = idle_thread k) ->
  (st <> THREAD_READY \/ t = idle_thread k) ->
  requeued k t p st (ready_list k).
Proof.
  intros H Ht Hs Hst.
  split; [apply (inv_len _ _ _ _ H)|apply (inv_ready_nodup _ _ _ _ H)| |eauto|tauto].
  intros i l u Hl Hu. right. split; [|eauto]. intros ->.
  destruct (inv_ready _ _ _ _ H _ _ _ Hl Hu) as (? & x & ? & ? & _). simplify_eq. tauto.
Qed.

Lemma inv_prio_queue F run dead k t th :
  inv F run dead k -> threads k !! t = Some th ->
  (Z.to_nat (priority th) < length (ready_list k))%nat /\
  priority th = Z.of_nat (Z.to_nat (priority th)).
Proof.
  intros H Ht. rewrite (inv_len _ _ _ _ H). pose proof (inv_prio _ _ _ _ H _ _ Ht) as Hp.
  unfold PRI_MIN, PRI_MAX in Hp. lia.
Qed.

(** A thread that was in no queue is added at the end of its own. *)
Lemma requeued_push F run dead k t th l :
  inv F run dead k -> threads k !! t = Some th -> status th <> THREAD_READY ->
  t <> idle_thread k -> ready_list k !! Z.to_nat (priority th) = Some l ->
  requeued k t (priority th) THREAD_READY
    (<[Z.to_nat (priority th) := l ++ [t]]> (ready_list k)).
Proof.
  intros H Ht Hs Hi Hl. destruct (inv_prio_queue _ _ _ _ _ _ H Ht) as [Hlt Hpe].
  assert (forall i l', ready_list k !! i = Some l' -> t ∉ l') as Hnot.
  { intros i l' Hl' Hin.
    destruct (inv_ready _ _ _ _ H _ _ _ Hl' Hin) as (? & x & ? & ? & _). simplify_eq. }
  split.
  - rewrite length_insert. apply (inv_len _ _ _ _ H).
  - intros i l' [(<- & <- & _)|[_ Hl']]%list_lookup_insert_Some;
      [|by eapply inv_ready_nodup].
    apply NoDup_app. split_and!; [by eapply inv_ready_nodup| |apply NoDup_singleton].
    intros u Hu ->%list_elem_of_singleton. by eapply Hnot.
  - intros i l' u [(<- & <- & _)|[_ Hl']]%list_lookup_insert_Some Hu.
    + apply elem_of_app in Hu as [Hu| ->%list_elem_of_singleton]; [right|by left].
      split; [intros ->; by eapply Hnot|eauto].
    + right. split; [intros ->; by eapply Hnot|eauto].
  - intros i l0 u Hl0 Hu Hne. destruct (decide (i = Z.to_nat (priority th))) as [->|Hd].
    + exists (l ++ [t]). rewrite list_lookup_insert_eq by done. simplify_eq.
      split; [done|]. apply elem_of_app. by left.
    + exists l0. by rewrite list_lookup_insert_ne.
  - intros _ _. exists (l ++ [t]). rewrite list_lookup_insert_eq by done.
    split; [done|]. apply elem_of_app. right. by apply list_elem_of_singleton.
Qed.

(** The first thread of a queue leaves it. *)
Lemma requeued_pop F run dead k t th i r st :
  inv F run dead k -> threads k !! t = Some th -> ready_list k !! i = Some (t :: r) ->
  st <> THREAD_READY ->
  requeued k t (priority th) st (<[i := r]> (ready_list k)).
Proof.
  intros H Ht Hl Hst. pose proof (inv_ready_nodup _ _ _ _ H _ _ Hl) as Hnd.
  apply NoDup_cons in Hnd as [Htr Hr].
  assert (forall j l', ready_list k !! j = Some l' -> t ∈ l' -> j = i) as Huniq.
  { intros j l' Hl' Hin.
    destruct (inv_ready _ _ _ _ H _ _ _ Hl' Hin) as (_ & x & ? & _ & E1).
    destruct (inv_ready _ _ _ _ H _ _ t Hl) as (_ & y & ? & _ & E2); [by left|].
    simplify_eq. lia. }
  split.
  - rewrite length_insert. apply (inv_len _ _ _ _ H).
  - intros j l' [(<- & <- & _)|[_ Hl']]%list_lookup_insert_Some; [done|].
    by eapply inv_ready_nodup.
  - intros j l' u [(<- & <- & _)|[Hne Hl']]%list_lookup_insert_Some Hu; right.
    + split; [by intros ->|]. exists (t :: r). split; [done|by right].
    + split; [|eauto]. intros ->. apply Hne. symmetry. eauto.
  - intros j l0 u Hl0 Hu Hne. destruct (decide (j = i)) as [->|Hd].
    + exists r. rewrite list_lookup_insert_eq by (by eapply lookup_lt_Some).
      simplify_eq. split; [done|]. by apply elem_of_cons in Hu as [->|?].
    + exists l0. by rewrite list_lookup_insert_ne.
  - done.
Qed.

Lemma set_ready_list_same (k : K) : set_ready_list (ready_list k) k = k.
Proof. by destruct k. Qed.

(** A thread that is not blocked is not under construction. *)
Lemma not_under_construction F run dead k t th :
  inv F run dead k -> threads k !! t = Some th ->
  status th <> THREAD_BLOCKED \/ t = idle_thread k -> forall sg, (t, sg) ∉ F.
Proof.
  intros H Ht Hs sg Hin. destruct sg.
  - destruct (inv_raw _ _ _ _ H _ Hin). congruence.
  - destruct (inv_fresh _ _ _ _ H _ _ i Hin) as (? & _ & x & ? & ? & _); [auto|]. naive_solver.
  - destruct (inv_fresh _ _ _ _ H _ _ i Hin) as (? & _ & x & ? & ? & _); [auto|]. naive_solver.
  - destruct (inv_no_idle _ _ _ _ H _ Hin) as (-> & _).
    rewrite (inv_null _ _ _ _ H) in Ht. done.
Qed.

(** ** The running thread stops *)

Lemma inv_run_status F dead k t th :
  inv F (Some t) dead k -> threads k !! t = Some th -> status th = THREAD_RUNNING.
Proof. intros H Ht. by apply (inv_run _ _ _ _ H _ _ Ht). Qed.

Lemma running_free F dead k t th :
  inv F (Some t) dead k -> threads k !! t = Some th ->
  unparked k t /\ forall sg, (t, sg) ∉ F.
Proof.
  intros H Ht. pose proof (inv_run_status _ _ _ _ _ H Ht) as Hs. split.
  - eapply unparked_status; eauto. congruence.
  - eapply not_under_construction; eauto. left. congruence.
Qed.

Lemma inv_stop F k t th st :
  inv F (Some t) None k -> threads k !! t = Some th ->
  (st = THREAD_BLOCKED \/ st = THREAD_READY /\ t = idle_thread k) ->
  inv F None None (set_threads (<[t := set_status st th]> (threads k)) k).
Proof.
  intros H Ht Hst. pose proof (inv_run_status _ _ _ _ _ H Ht) as Hs.
  destruct (running_free _ _ _ _ _ H Ht) as [Hu HF].
  rewrite <- (set_ready_list_same k) at 2.
  eapply inv_set_status; eauto.
  - by destruct Hst as [->|[-> _]].
  - congruence.
  - eapply requeued_same; eauto; [left; congruence|]. destruct Hst as [->|[_ ?]]; auto.
  - by destruct Hst as [->|[-> _]].
  - intros u Hne. naive_solver.
Qed.

Lemma inv_stop_push F k t th l :
  inv F (Some t) None k -> threads k !! t = Some th -> t <> idle_thread k ->
  ready_list k !! Z.to_nat (priority th) = Some l ->
  inv F None None (set_threads (<[t := set_status THREAD_READY th]> (threads k))
    (set_ready_list (<[Z.to_nat (priority th) := l ++ [t]]> (ready_list k)) k)).
Proof.
  intros H Ht Hi Hl. pose proof (inv_run_status _ _ _ _ _ H Ht) as Hs.
  destruct (running_free _ _ _ _ _ H Ht) as [Hu HF].
  eapply inv_set_status; eauto.
  - congruence.
  - eapply requeued_push; eauto. congruence.
  - done.
  - intros u Hne. naive_solver.
Qed.

(** A blocked thread becomes ready. *)
Lemma inv_enqueue F run dead k t th l :
  inv F run dead k -> threads k !! t = Some th -> status th = THREAD_BLOCKED ->
  unparked k t -> t <> idle_thread k -> (forall sg, (t, sg) ∉ F) ->
  ready_list k !! Z.to_nat (priority th) = Some l ->
  inv F run dead (set_threads (<[t := set_status THREAD_READY th]> (threads k))
    (set_ready_list (<[Z.to_nat (priority th) := l ++ [t]]> (ready_list k)) k)).
Proof.
  intros H Ht Hs Hu Hi HF Hl. eapply inv_set_status; eauto.
  - congruence.
  - eapply requeued_push; eauto. congruence.
  - split; [done|]. intros ->. pose proof (inv_run_status _ _ _ _ _ H Ht). congruence.
Qed.

(** A thread is dispatched, from the head of a queue or as the idle thread. *)
Lemma inv_dispatch F dead k t th i r :
  inv F None dead k -> threads k !! t = Some th -> ready_list k !! i = Some (t :: r) ->
  inv F (Some t) dead (set_threads (<[t := set_status THREAD_RUNNING th]> (threads k))
    (set_ready_list (<[i := r]> (ready_list k)) k)).
Proof.
  intros H Ht Hl.
  destruct (inv_ready _ _ _ _ H _ _ t Hl) as (Hi & x & Hx & Hs & _); [by left|]. simplify_eq.
  eapply inv_set_status; eauto.
  - eapply unparked_status; eauto. congruence.
  - eapply not_under_construction; eauto. left. congruence.
  - congruence.
  - by eapply requeued_pop.
  - done.
  - intros u Hne. naive_solver.
Qed.

Lemma inv_dispatch_idle F dead k t th :
  inv F None dead k -> threads k !! t = Some th -> t = idle_thread k ->
  inv F (Some t) dead (set_threads (<[t := set_status THREAD_RUNNING th]> (threads k)) k).
Proof.
  intros H Ht Hi. rewrite <- (set_ready_list_same k) at 2.
  destruct (inv_idle _ _ _ _ H) as [E|(x & Hx & _ & Hd)];
    [rewrite <- Hi in E; subst t; rewrite E, (inv_null _ _ _ _ H) in Ht; done|].
  rewrite <- Hi in Hx. simplify_eq. eapply inv_set_status; eauto.
  - split.
    + intros s y Hy Hin. destruct (inv_wait _ _ _ _ H _ _ _ Hy Hin). congruence.
    + intros (a & E & Ha)%list_elem_of_fmap. destruct (inv_alarm _ _ _ _ H _ Ha). congruence.
  - eapply not_under_construction; eauto.
  - eapply requeued_same; eauto.
  - done.
  - intros u Hne. naive_solver.
Qed.

Lemma twp_thread_current F dead (Q : Z -> K -> Prop) k :
  inv F (Some (cur k)) dead k -> Q (cur k) k -> twp thread_current Q k.
Proof.
  intros H. destruct (inv_run_alive _ _ _ _ H _ eq_refl) as [th Ht].
  apply (twp_thread_current_at (cur k) th); [done| |done| |].
  - intros E. by rewrite E, (inv_null _ _ _ _ H) in Ht.
  - by eapply inv_magic.
  - by eapply inv_run_status.
Qed.

(** ** Death *)

Lemma elem_remove_elem u e l : u ∈ remove_elem e l <-> u ∈ l /\ u <> e.
Proof.
  unfold remove_elem. rewrite list_elem_of_In, filter_In, <- list_elem_of_In, negb_true_iff.
  by rewrite Z.eqb_neq.
Qed.

Lemma NoDup_remove_elem e l : NoDup l -> NoDup (remove_elem e l).
Proof.
  rewrite !NoDup_ListNoDup. apply List.NoDup_filter.
Qed.

Lemma inv_die F k t th :
  inv F (Some t) None k -> threads k !! t = Some th -> t <> idle_thread k ->
  inv F None (Some t)
    (set_threads (<[t := set_status THREAD_DYING th]> (threads k))
      (set_all_list (remove_elem t (all_list k)) k)).
Proof.
  intros H Ht Hi. pose proof (inv_run_status _ _ _ _ _ H Ht) as Hs.
  destruct (running_free _ _ _ _ _ H Ht) as [_ HF].
  assert (forall (Q : thread -> Prop) u, (Q th -> False) ->
    (exists x, threads k !! u = Some x /\ Q x) ->
    exists x, <[t := set_status THREAD_DYING th]> (threads k) !! u = Some x /\ Q x) as Hex.
  { intros Q u HQ (x & Hx & Hq). exists x. rewrite lookup_insert_ne; [done|].
    intros ->. simplify_eq; eauto. }
  inv_cases H.
  - by rewrite lookup_insert_ne by (intros ->; congruence).
  - intros u x Hx. upd_cases; simpl; eauto.
  - intros u x Hx. upd_cases; simpl; eauto.
  - intros u x Hx. upd_cases; simpl; [done|]. rewrite (Hrun _ _ H0). naive_solver.
  - done.
  - intros i l u Hl Hu. destruct (Hready _ _ _ Hl Hu) as [? Hx]. split; [done|].
    revert Hx. apply Hex. rewrite Hs. naive_solver.
  - intros u x Hx. upd_cases; simpl; [done|eauto].
  - destruct Hidle as [?|(x & Hx & ?)]; [by left|right]. exists x.
    by rewrite lookup_insert_ne.
  - intros s x u Hs' Hu. destruct (Hwait _ _ _ Hs' Hu) as (? & ? & Hx). split_and!; [done..|].
    revert Hx. apply Hex. congruence.
  - intros a Ha. destruct (Halarm _ Ha) as (? & ? & Hx). split_and!; [done..|].
    revert Hx. apply Hex. congruence.
  - intros u sg i Hu Hsg. destruct (Hfresh _ _ _ Hu Hsg) as (? & Hl & Hx). split_and!; [done| |].
    + rewrite elem_remove_elem, <- Hl. split; [tauto|]. intros ?. split; [done|].
      intros ->. by eapply HF.
    + revert Hx. apply Hex. rewrite Hs. naive_solver.
  - intros u Hu. rewrite lookup_insert_ne; [by apply Hraw|].
    intros ->. destruct (Hraw _ Hu). congruence.
  - intros u Hu. destruct (Hnoi _ Hu) as (? & ? & Hx). split_and!; [done..|].
    intros v x Hv. upd_cases; simpl; eauto.
  - intros t1 t2 x1 x2 H1 H2. upd_cases; simpl; eauto.
  - intros u x Hx. upd_cases; simpl; eauto.
  - intros u [Hu Hne]%elem_remove_elem. destruct (Hall _ Hu) as (x & Hx & Hd).
    exists x. by rewrite lookup_insert_ne.
  - by apply NoDup_remove_elem.
  - intros u x Hx. upd_cases; simpl; [done|]. rewrite elem_remove_elem. eauto.
  - intros u x Hx. upd_cases; simpl; [auto|]. intros Hd.
    destruct (Hdying _ _ H0 Hd); [auto|done].
  - intros u Hx. apply Hpool. destruct (decide (t = u)) as [<-|]; [by rewrite Ht|].
    by rewrite lookup_insert_ne in Hx.
Qed.

(** The initial thread is not freed. *)
Lemma inv_dead_initial F run k :
  inv F run (Some (initial_thread k)) k -> inv F run None k.
Proof.
  intros H. inv_cases H. intros t th Ht Hs. destruct (Hdying _ _ Ht Hs) as [?|[= <-]]; auto.
Qed.

Lemma forget_semas (k : K) t s x : semas (forget_thread t k) !! s = Some x -> semas k !! s = Some x.
Proof. cbn. rewrite !lookup_delete_Some. tauto. Qed.

Lemma inv_free F run k t th p :
  inv F run (Some t) k -> threads k !! t = Some th -> status th = THREAD_DYING ->
  t <> initial_thread k -> pa_free t (pool k) = Ok p ->
  inv F run None (forget_thread t (set_pool p k)).
Proof.
  intros H Ht Hs Hini Hp.
  assert (pa_used (pool k) t) as Hused.
  { destruct (inv_pool _ _ _ _ H t) as [?|?]; by rewrite ?Ht; eauto. }
  assert (forall (Q : thread -> Prop) u, (Q th -> False) ->
    (exists x, threads k !! u = Some x /\ Q x) ->
    exists x, delete t (threads k) !! u = Some x /\ Q x) as Hex.
  { intros Q u HQ (x & Hx & Hq). exists x. rewrite lookup_delete_ne; [done|].
    intros ->. simplify_eq; eauto. }
  assert (forall s x, semas (forget_thread t (set_pool p k)) !! s = Some x -> semas k !! s = Some x)
    as Hsem by (intros s x Hx; by apply forget_semas in Hx).
  inv_cases H.
  - by rewrite lookup_delete_None; right.
  - intros u x Hx. upd_cases; eauto.
  - intros u x Hx. upd_cases; eauto.
  - intros u x Hx. upd_cases; eauto.
  - intros u Hu. rewrite lookup_delete_ne; [eauto|]. intros ->.
    assert (status th = THREAD_RUNNING) by (by apply Hrun with u). congruence.
  - intros i l u Hl Hu. destruct (Hready _ _ _ Hl Hu) as [? Hx]. split; [done|].
    revert Hx. apply Hex. rewrite Hs. naive_solver.
  - intros u x Hx. upd_cases; eauto.
  - destruct Hidle as [?|Hx]; [by left|right]. revert Hx. apply Hex. naive_solver.
  - intros s x u Hs' Hu. destruct (Hwait _ _ _ (Hsem _ _ Hs') Hu) as (? & ? & Hx).
    split_and!; [done..|]. revert Hx. apply Hex. congruence.
  - intros s x Hx. eauto.
  - intros s1 s2 x1 x2 u H1 H2. eauto.
  - intros a Ha. destruct (Halarm _ Ha) as (? & ? & Hx). split_and!; [done..|].
    revert Hx. apply Hex. congruence.
  - intros s x a Hx. eauto.
  - intros u sg i Hu Hsg. destruct (Hfresh _ _ _ Hu Hsg) as (? & Hl & Hx). split_and!; [done..|].
    revert Hx. apply Hex. rewrite Hs. naive_solver.
  - intros u Hu. destruct (Hraw _ Hu) as (? & ? & ? & ?). split_and!; [|..|done|done].
    + by rewrite lookup_delete_None; right.
    + apply (pa_free_used _ _ _ _ Hpwf Hused Hp). split; [|done]. congruence.
  - intros u Hu. destruct (Hnoi _ Hu) as (? & ? & Hx). split_and!; [done..|].
    intros v x Hv. upd_cases; eauto.
  - intros t1 t2 x1 x2 H1 H2. upd_cases; eauto.
  - intros u x Hx. upd_cases; eauto.
  - intros u Hu. apply Hall in Hu. revert Hu. by apply Hex.
  - intros u x Hx. upd_cases; eauto.
  - intros u x Hx Hd. upd_cases. destruct (Hdying _ _ H0 Hd) as [?|[= ->]]; [auto|done].
  - intros u [x Hx]. upd_cases. destruct (Hpool u) as [?|?]; [eauto|by left|right].
    by apply (pa_free_used _ _ _ _ Hpwf Hused Hp).
  - by eapply pa_free_wf.
  - by rewrite (pa_free_managed _ _ _ _ Hpwf Hused Hp).
Qed.
End Inv.
