(* ===== verification/ThreadSteps.v ===== *)
(** * Threads: every action preserves the invariant

    The operations of Thread.v, one after the other, against the invariant of
    ThreadInv.v. *)

From S2P Require Import Prelude PageAlloc FixedPoint Code KernelState Thread ThreadInv.
From stdpp Require Import strings.
Local Open Scope Z_scope.

Section Steps.
Context {P : Type} {PA : PageAllocator P}.
Local Notation K := (kernel P).

(** No thread appears or disappears, and no thread changes the function it
    runs. *)
Definition keeps (k k' : K) : Prop :=
  forall u, (fun th => (function th, aux th)) <$> threads k' !! u
          = (fun th => (function th, aux th)) <$> threads k !! u.

Lemma keeps_refl k : keeps k k.
Proof. done. Qed.

Lemma keeps_trans k1 k2 k3 : keeps k1 k2 -> keeps k2 k3 -> keeps k1 k3.
Proof. intros H1 H2 u. by rewrite H2. Qed.

Lemma keeps_threads k k' : threads k' = threads k -> keeps k k'.
Proof. intros E u. by rewrite E. Qed.

Lemma keeps_upd k k' t th th' :
  threads k !! t = Some th -> function th' = function th -> aux th' = aux th ->
  threads k' = <[t := th']> (threads k) -> keeps k k'.
Proof.
  intros Ht Hf Ha E u. rewrite E. destruct (decide (t = u)) as [<-|].
  - rewrite lookup_insert_eq, Ht. simpl. by rewrite Hf, Ha.
  - by rewrite lookup_insert_ne.
Qed.

(** The same, except that the thread [t] may disappear. *)
Definition keeps_but (t : Z) (k k' : K) : Prop :=
  forall u, u <> t \/ is_Some (threads k' !! u) ->
    (fun th => (function th, aux th)) <$> threads k' !! u
    = (fun th => (function th, aux th)) <$> threads k !! u.

Lemma keeps_but_of k k' t : keeps k k' -> keeps_but t k k'.
Proof. intros H u _. apply H. Qed.

Lemma keeps_but_trans_l k1 k2 k3 t : keeps k1 k2 -> keeps_but t k2 k3 -> keeps_but t k1 k3.
Proof. intros H1 H2 u Hu. by rewrite H2, H1. Qed.

Lemma keeps_but_trans_r k1 k2 k3 t : keeps_but t k1 k2 -> keeps k2 k3 -> keeps_but t k1 k3.
Proof.
  intros H1 H2 u Hu. rewrite H2. apply H1. destruct Hu as [?|Hu]; [by left|right].
  specialize (H2 u). destruct (threads k2 !! u); [eauto|].
  destruct (threads k3 !! u); [done|by destruct Hu].
Qed.

(** ** Choosing the next thread *)

Lemma wp_next_thread_loop n (Q : Z -> K -> Prop) k :
  ((forall i, (i < n)%nat -> ready_list k !! i = Some []) -> Q (idle_thread k) k) ->
  (forall i t r, (i < n)%nat -> ready_list k !! i = Some (t :: r) ->
     (forall j, (i < j < n)%nat -> ready_list k !! j = Some []) ->
     Q t (set_ready_list (<[i := r]> (ready_list k)) k)) ->
  wp (next_thread_loop n) Q k.
Proof.
  induction n as [|n IH]; intros H1 H2; cbn [next_thread_loop].
  - apply wp_gets, H1. lia.
  - apply wp_bind, wp_get_ready. intros [|t r] _ Hl; rewrite Nat2Z.id in Hl.
    + apply IH.
      * intros Hi. apply H1. intros i Hlt. destruct (decide (i = n)) as [->|]; [done|].
        apply Hi. lia.
      * intros i t r Hi Hr Hj. apply H2; [lia|done|]. intros j Hlt.
        destruct (decide (j = n)) as [->|]; [done|]. apply Hj. lia.
    + apply wp_bind, wp_put_ready. intros _ _. rewrite Nat2Z.id. apply wp_ret.
      apply H2; [lia|done|]. lia.
Qed.

Lemma wp_next_thread_to_run (Q : Z -> K -> Prop) k :
  ((forall i, (i < 64)%nat -> ready_list k !! i = Some []) -> Q (idle_thread k) k) ->
  (forall i t r, (i < 64)%nat -> ready_list k !! i = Some (t :: r) ->
     (forall j, (i < j < 64)%nat -> ready_list k !! j = Some []) ->
     Q t (set_ready_list (<[i := r]> (ready_list k)) k)) ->
  wp next_thread_to_run Q k.
Proof. apply wp_next_thread_loop. Qed.

(** ** The switch *)

(** The state after the switch, before [thread_schedule_tail] frees the
    previous thread. *)
Lemma schedule_tail_ok F dead k prev th :
  threads k !! cur k = Some th -> 
  inv F (Some (cur k)) dead (set_threads (<[cur k := set_status THREAD_RUNNING th]> (threads k)) k) ->
  (dead = None /\ (prev = NULL \/ exists thp, threads k !! prev = Some thp /\
                                    status thp <> THREAD_DYING) \/
   exists thp, dead = Some prev /\ prev <> NULL /\ prev <> cur k /\
     threads k !! prev = Some thp /\ status thp = THREAD_DYING) ->
  wp (thread_schedule_tail prev)
    (fun _ k' => inv F (Some (cur k')) None k' /\ keeps_but prev k k' /\ cur k' = cur k) k.
Proof.
  intros Ht H Hd. apply wp_bind, wp_gets. apply wp_bind, wp_intr_get_level.
  apply wp_bind, wp_assert. intros _. apply wp_bind, wp_upd_thread. intros th' Ht'.
  simplify_eq. apply wp_bind, wp_modify.
  set (k1 := set_threads _ k) in *. set (k2 := set_thread_ticks 0 k1).
  assert (keeps k k2) as Hk by (by apply (keeps_upd k k2 (cur k) th (set_status THREAD_RUNNING th))).
  assert (inv F (Some (cur k2)) dead k2) as H2 by (by apply irr_thread_ticks).
  destruct (Z.eqb_spec prev NULL) as [Hp|Hp].
  { destruct Hd as [[-> _]|(thp & _ & ? & _)]; [|done]. apply wp_ret.
    split_and!; [done|by apply keeps_but_of|done]. }
  apply wp_bind, wp_get_thread. intros x Hx. apply wp_bind, wp_gets.
  case_bool_decide as Hs; cbn [andb].
  - assert (dead = Some prev /\ prev <> cur k) as [-> Hne].
    { destruct Hd as [[-> [?|(thp & Hthp & Hns)]]|(thp & ? & _ & ? & _)]; [done| |done].
      cbn in Hx. destruct (decide (prev = cur k)) as [->|Hne];
        [rewrite lookup_insert_eq in Hx|rewrite lookup_insert_ne in Hx by done];
        simplify_eq/=. }
    destruct (Z.eqb_spec prev (initial_thread k2)) as [E|Hi]; cbn [negb].
    + apply wp_ret. split_and!; [|by apply keeps_but_of|done].
      rewrite E in H2. by apply inv_dead_initial.
    + apply wp_bind, wp_assert. intros _. apply wp_bind, wp_gets.
      apply wp_bind, wp_lift. intros p Hfree. apply wp_bind, wp_modify, wp_modify.
      split_and!; [|..|done].
      * by eapply (inv_free F _ k2 prev x p).
      * intros u Hu. cbn [forget_thread threads set_threads].
        destruct (decide (u = prev)) as [->|]; [|rewrite lookup_delete_ne by done; apply Hk].
        exfalso. destruct Hu as [?|[y Hy]]; [done|].
        cbn in Hy. by rewrite lookup_delete_eq in Hy.
  - apply wp_ret. split_and!; [|by apply keeps_but_of|done].
    destruct Hd as [[-> _]|(thp & -> & _ & Hne & Hthp & Hds)]; [done|].
    cbn in Hx. rewrite lookup_insert_ne in Hx by done. congruence.
Qed.

(** What is known of the next thread and of the state it is taken from. *)
Lemma schedule_switch_ok F dead k k1 thc next :
  threads k !! cur k = Some thc ->
  (dead = None /\ status thc <> THREAD_DYING \/
   dead = Some (cur k) /\ status thc = THREAD_DYING) ->
  threads k1 = threads k -> cur k1 = cur k -> inv F None dead k ->
  (forall th, threads k !! next = Some th -> status th <> THREAD_DYING /\
     inv F (Some next) dead (set_threads (<[next := set_status THREAD_RUNNING th]> (threads k)) k1)) ->
  wp (lvl <- intr_get_level;;
      assert (Bool.eqb lvl INTR_OFF);;;
      th <- get_thread (cur k);;
      assert (negb (bool_decide (status th = THREAD_RUNNING)));;;
      b <- is_thread next;;
      assert b;;;
      if cur k =? next then thread_schedule_tail NULL
      else modify (set_cur next);;; thread_schedule_tail (cur k))
    (fun _ k' => inv F (Some (cur k')) None k' /\ keeps_but (cur k) k k') k1.
Proof.
  intros Hc Hd Et Ec Hinv Hn. apply wp_bind, wp_intr_get_level, wp_bind, wp_assert. intros _.
  apply wp_bind, wp_get_thread. intros x Hx. apply wp_bind, wp_assert. intros _.
  apply wp_bind, wp_is_thread; [intros _; by apply wp_bind, wp_assert|].
  intros th Hnull Hth. apply wp_bind, wp_assert. intros _. rewrite Et in Hx, Hth.
  simplify_eq. destruct (Hn th Hth) as [Hnd Hi]. rewrite <- Et in Hi, Hth.
  destruct (Z.eqb_spec (cur k) next) as [E|E].
  - assert (dead = None) as ->.
    { destruct Hd as [[? _]|[_ ?]]; [done|]. rewrite E, <- Et in Hc. simplify_eq. }
    rewrite <- E, <- Ec in Hi, Hth. eapply wp_mono; [eapply schedule_tail_ok; eauto|].
    intros _ k' (H1 & H2 & H3). split; [done|].
    intros u Hu. destruct (decide (u = NULL)) as [->|]; [|rewrite <- Et; apply H2; by left].
    by rewrite (inv_null _ _ _ _ H1), (inv_null _ _ _ _ Hinv).
  - apply wp_bind, wp_modify. set (k2 := set_cur next k1).
    eapply wp_mono; [apply (schedule_tail_ok F dead k2 (cur k) th)|].
    + done.
    + by apply (irr_cur next) in Hi.
    + cbn. rewrite Et. destruct Hd as [[-> ?]|[-> ?]]; [left; eauto|right].
      exists thc. split_and!; try done. intros E0. rewrite E0, (inv_null _ _ _ _ Hinv) in Hc. done.
    + intros _ k' (H1 & H2 & H3). split; [done|].
      eapply keeps_but_trans_l; [|exact H2]. by apply keeps_threads.
Qed.

Lemma schedule_ok F dead k thc :
  threads k !! cur k = Some thc -> inv F None dead k ->
  (dead = None /\ status thc <> THREAD_DYING \/
   dead = Some (cur k) /\ status thc = THREAD_DYING) ->
  wp schedule (fun _ k' => inv F (Some (cur k')) None k' /\ keeps_but (cur k) k k') k.
Proof.
  intros Hc H Hd. apply wp_bind, wp_gets, wp_bind, wp_next_thread_to_run.
  - intros _. eapply schedule_switch_ok; eauto. intros th Hth. split.
    + destruct (inv_idle _ _ _ _ H) as [E|(x & Hx & _ & ?)]; [|by simplify_eq].
      rewrite E, (inv_null _ _ _ _ H) in Hth. done.
    + by apply inv_dispatch_idle.
  - intros i t r Hi Hl _. eapply schedule_switch_ok; eauto. intros th Hth. split.
    + destruct (inv_ready _ _ _ _ H _ _ t Hl) as (_ & x & Hx & Hs & _); [by left|].
      simplify_eq. congruence.
    + by apply inv_dispatch.
Qed.

(** ** Waiting lists *)

(** A semaphore gets another value, or loses waiters. *)
Lemma inv_sema F run dead (k : K) s x' :
  inv F run dead k ->
  (forall u, u ∈ waiters x' -> exists x, semas k !! s = Some x /\ u ∈ waiters x) ->
  NoDup (waiters x') ->
  inv F run dead (set_semas (<[s := x']> (semas k)) k).
Proof.
  intros H Hsub Hnd. inv_cases H.
  - intros s0 x u Hx Hu. upd_cases; [|eauto]. destruct (Hsub _ Hu) as (y & Hy & Hin). eauto.
  - intros s0 x Hx. upd_cases; eauto.
  - intros s1 s2 x1 x2 u H1 H2 Hu1 Hu2. upd_cases; eauto.
    + destruct (Hsub _ Hu2) as (y & Hy & Hin). eauto.
    + destruct (Hsub _ Hu1) as (y & Hy & Hin). eauto.
  - intros s0 x a Hx Ha Hin. upd_cases; [|by eapply Haw].
    destruct (Hsub _ Hin) as (y & Hy & Hin'). by eapply Haw.
Qed.

Lemma inv_park F run dead (k : K) s x v t th :
  inv F run dead k -> semas k !! s = Some x ->
  threads k !! t = Some th -> status th = THREAD_BLOCKED -> unparked k t ->
  t <> idle_thread k -> (forall sg, (t, sg) ∉ F) ->
  inv F run dead (set_semas (<[s := Semaphore v (waiters x ++ [t])]> (semas k)) k).
Proof.
  intros H Hx Ht Hs [Hu1 Hu2] Hi HF. inv_cases H.
  - intros s0 y u Hy Hu. upd_cases; [|eauto].
    apply elem_of_app in Hu as [Hu| ->%list_elem_of_singleton]; [eauto|].
    split_and!; eauto.
  - intros s0 y Hy. upd_cases; [|eauto]. simpl. apply NoDup_app.
    split_and!; [eauto| |apply NoDup_singleton].
    intros u Hu ->%list_elem_of_singleton. by eapply Hu1.
  - intros s1 s2 x1 x2 u H1 H2 Hin1 Hin2. upd_cases; [done|..|eauto].
    + simpl in Hin2. apply elem_of_app in Hin2 as [?| ->%list_elem_of_singleton]; [eauto|].
      exfalso. by eapply Hu1.
    + simpl in Hin1. apply elem_of_app in Hin1 as [?| ->%list_elem_of_singleton]; [eauto|].
      exfalso. by eapply Hu1.
  - intros s0 y a Hy Ha Hin. upd_cases; [|by eapply Haw]. simpl in Hin.
    apply elem_of_app in Hin as [?|E%list_elem_of_singleton]; [by eapply Haw|].
    apply Hu2. rewrite <- E. apply list_elem_of_fmap. eauto.
Qed.

Lemma inv_alarms F run dead (k : K) l :
  inv F run dead k -> l `sublist_of` list_alarm k ->
  inv F run dead (set_list_alarm l k).
Proof.
  intros H Hl.
  assert (forall a, a ∈ l -> a ∈ list_alarm k) as Hsub
    by (intros a Ha; by eapply elem_of_sublist).
  inv_cases H.
  - intros a Ha. auto.
  - eapply sublist_NoDup; [exact Hand|]. by apply (fmap_sublist alarm_thread).
  - intros s x a Hx Ha. eauto.
Qed.

Lemma inv_alarm_push F run dead (k : K) t th w :
  inv F run dead k ->
  threads k !! t = Some th -> status th = THREAD_BLOCKED -> unparked k t ->
  t <> idle_thread k -> (forall sg, (t, sg) ∉ F) ->
  inv F run dead (set_list_alarm (list_alarm k ++ [ThreadAlarm w t]) k).
Proof.
  intros H Ht Hs [Hu1 Hu2] Hi HF. inv_cases H.
  - intros a [Ha| ->%list_elem_of_singleton]%elem_of_app; [eauto|]. simpl. split_and!; eauto.
  - rewrite map_app. apply NoDup_app. split_and!; [done| |apply NoDup_singleton].
    simpl. intros u Hu ->%list_elem_of_singleton. done.
  - intros s x a Hx [Ha| ->%list_elem_of_singleton]%elem_of_app; eauto.
Qed.

(** ** Blocking *)

Lemma thread_block_ok F k th :
  threads k !! cur k = Some th ->
  inv F None None (set_threads (<[cur k := set_status THREAD_BLOCKED th]> (threads k)) k) ->
  wp thread_block (fun _ k' => inv F (Some (cur k')) None k' /\ keeps_but (cur k) k k') k.
Proof.
  intros Ht H. apply wp_bind, wp_intr_context, wp_bind, wp_assert. intros _.
  apply wp_bind, wp_intr_get_level, wp_bind, wp_assert. intros _.
  apply wp_bind, wp_thread_current. intros th' Ht' _. simplify_eq.
  apply wp_bind, wp_upd_thread. intros th' Ht''. simplify_eq.
  eapply wp_mono; [apply (schedule_ok F None _ (set_status THREAD_BLOCKED th))|].
  - cbn. by rewrite lookup_insert_eq.
  - done.
  - by left.
  - intros _ k' [H1 H2]. split; [done|]. eapply keeps_but_trans_l; [|exact H2].
    by apply (keeps_upd k _ (cur k) th (set_status THREAD_BLOCKED th)).
Qed.

Lemma unparked_upd (k : K) t x : unparked k t -> unparked (set_threads x k) t.
Proof. done. Qed.

(** [sema_down] goes to sleep. *)
Lemma sema_wait_ok F k s :
  inv F (Some (cur k)) None k -> cur k <> idle_thread k ->
  wp (sema_wait s) (fun _ k' => inv F (Some (cur k')) None k' /\ keeps_but (cur k) k k') k.
Proof.
  intros H Hi. apply wp_bind, wp_get_sema. intros x Hx.
  apply wp_bind, wp_thread_current. intros th Ht Hs. apply wp_bind, wp_put_sema.
  set (k1 := set_semas _ k). apply (thread_block_ok F k1 th); [done|].
  destruct (running_free _ _ _ _ _ H Ht) as [Hu HF].
  refine (inv_park F None None
    (set_threads (<[cur k := set_status THREAD_BLOCKED th]> (threads k)) k)
    s x (value x) (cur k) (set_status THREAD_BLOCKED th) _ _ _ _ _ _ _); try done.
  - apply inv_stop; auto.
  - cbn. by rewrite lookup_insert_eq.
Qed.

Lemma thread_idle_block_ok F k :
  inv F (Some (cur k)) None k ->
  wp thread_block (fun _ k' => inv F (Some (cur k')) None k' /\ keeps_but (cur k) k k') k.
Proof.
  intros H. destruct (inv_run_alive _ _ _ _ H _ eq_refl) as [th Ht].
  apply (thread_block_ok F k th); [done|]. apply inv_stop; auto.
Qed.

Lemma timer_sleep_block_ok F k n start :
  inv F (Some (cur k)) None k -> cur k <> idle_thread k ->
  wp (timer_sleep_block n start)
    (fun _ k' => inv F (Some (cur k')) None k' /\ keeps_but (cur k) k k') k.
Proof.
  intros H Hi. apply wp_bind, wp_intr_disable. set (k0 := set_level _ k).
  apply wp_bind, wp_thread_current. intros th Ht Hs. apply wp_bind, wp_modify.
  set (k1 := set_list_alarm _ k0). apply wp_bind.
  eapply wp_mono; [|intros ? k' Hk'; apply wp_ret; exact Hk'].
  apply (thread_block_ok F k1 th); [done|].
  assert (inv F (Some (cur k0)) None k0) as H0 by (by apply irr_level).
  destruct (running_free _ _ _ _ _ H0 Ht) as [Hu HF].
  refine (inv_alarm_push F None None
    (set_threads (<[cur k := set_status THREAD_BLOCKED th]> (threads k0)) k0)
    (cur k) (set_status THREAD_BLOCKED th) _ _ _ _ _ _ _); try done.
  - by apply (inv_stop F k0); auto.
  - cbn. by rewrite lookup_insert_eq.
Qed.

(** ** Yielding *)

(** The state in which [thread_yield] calls the scheduler. *)
Record yielding (F : gset token) (k k1 : K) : Prop := Yielding {
  yl_inv : inv F None None k1;
  yl_keeps : keeps k k1;
  yl_cur : cur k1 = cur k;
  yl_idle : idle_thread k1 = idle_thread k;
  yl_level : level k1 = INTR_OFF;
  yl_status : exists th, threads k1 !! cur k = Some th /\ status th = THREAD_READY
}.

Lemma yielding_push F k th l now :
  inv F (Some (cur k)) None k -> threads k !! cur k = Some th -> cur k <> idle_thread k ->
  ready_list k !! Z.to_nat (priority th) = Some l ->
  yielding F k
    (set_threads (<[cur k := set_status THREAD_READY (set_recent_unused now th)]> (threads k))
      (set_ready_list (<[Z.to_nat (priority th) := l ++ [cur k]]> (ready_list k))
        (set_level INTR_OFF k))).
Proof.
  intros H Ht Hi Hl. set (th' := set_status THREAD_READY (set_recent_unused now th)).
  split; [| | |done|done|exists th'; cbn; by rewrite lookup_insert_eq].
  - pose proof (inv_stop_push F k (cur k) th l H Ht Hi Hl) as Hq.
    apply (inv_upd_data _ _ _ _ (cur k) (set_status THREAD_READY th) th') in Hq;
      [|cbn; by rewrite lookup_insert_eq|done].
    cbn [threads set_threads] in Hq. rewrite insert_insert_eq in Hq.
    by apply (irr_level INTR_OFF) in Hq.
  - by apply (keeps_upd k _ (cur k) th th').
  - done.
Qed.

Lemma thread_yield_prepare_ok F k :
  inv F (Some (cur k)) None k -> in_external_intr k = false ->
  twp thread_yield_prepare (fun old k1 => old = level k /\ yielding F k k1) k.
Proof.
  intros H Hx. destruct (inv_run_alive _ _ _ _ H _ eq_refl) as [th Ht].
  apply twp_bind. eapply twp_thread_current; [exact H|].
  apply twp_bind, twp_gets, twp_bind, twp_assert; [by rewrite Hx|].
  apply twp_bind. eapply twp_intro; [done|]. apply twp_bind, twp_gets, twp_bind.
  cbn [idle_thread set_level fst snd].
  destruct (Z.eqb_spec (cur k) (idle_thread k)) as [E|E]; cbn [negb].
  - apply twp_ret, twp_bind. eapply twp_upd_thread; [exact Ht|]. apply twp_ret.
    split; [done|]. split; [| |done..|exists (set_status THREAD_READY th); cbn; by rewrite lookup_insert_eq].
    + refine (irr_level INTR_OFF _ _ _ _ (inv_stop F k (cur k) th THREAD_READY H Ht _)).
      by right.
    + by apply (keeps_upd k _ (cur k) th (set_status THREAD_READY th)).
  - destruct (inv_prio_queue _ _ _ _ _ _ H Ht) as [Hlt Hpe].
    destruct (lookup_lt_is_Some_2 _ _ Hlt) as [l Hl].
    pose proof (yielding_push F k th l (ticks k) H Ht E Hl) as Hy.
    apply twp_bind. eapply twp_get_thread; [exact Ht|]. rewrite Hpe.
    apply twp_bind. eapply twp_get_ready; [exact Hl|].
    apply twp_bind. eapply twp_put_ready; [exact Hl|].
    apply twp_bind. eapply twp_intro; [done|]. eapply twp_upd_thread; [exact Ht|].
    apply twp_bind. eapply twp_upd_thread; [cbn; by rewrite lookup_insert_eq|].
    apply twp_ret. split; [done|]. cbn [threads set_threads]. by rewrite insert_insert_eq.
Qed.

Lemma thread_yield_switch_ok F k :
  inv F (Some (cur k)) None k ->
  wp thread_yield_switch
    (fun _ k' => inv F (Some (cur k')) None k' /\ keeps_but (cur k) k k') k.
Proof.
  intros H. apply wp_bind. destruct (in_external_intr k) eqn:Hx.
  { apply wp_bind, wp_thread_current. intros th Ht Hs.
    apply wp_bind, wp_intr_context, wp_bind, wp_assert. by rewrite Hx. }
  eapply wp_mono; [apply twp_wp, thread_yield_prepare_ok; done|].
  intros old k1 (_ & [H1 Hk Ec _ _ (th & Ht & Hs)]). rewrite <- Ec in Ht. apply wp_bind.
  eapply wp_mono; [apply (schedule_ok F None k1 th); [done|done|left; by rewrite Hs]|].
  intros _ k' [G1 G2]. apply wp_ret. split; [done|]. rewrite Ec in G2.
  by eapply keeps_but_trans_l.
Qed.

(** ** Unblocking *)

Lemma wp_thread_unblock_enqueue t (Q : Z -> K -> Prop) k :
  (forall th l p, threads k !! t = Some th -> status th = THREAD_BLOCKED ->
     ready_list k !! Z.to_nat (priority th) = Some l ->
     Q p (set_threads (<[t := set_status THREAD_READY th]> (threads k))
           (set_ready_list (<[Z.to_nat (priority th) := l ++ [t]]> (ready_list k)) k))) ->
  wp (thread_unblock_enqueue t) Q k.
Proof.
  intros H. apply wp_bind, wp_is_thread; [intros _; by apply wp_bind, wp_assert|].
  intros th0 _ _. apply wp_bind, wp_assert. intros _. apply wp_bind, wp_intr_disable.
  apply wp_bind, wp_get_thread. intros th Ht. apply wp_bind, wp_assert.
  intros Hs%bool_decide_eq_true. apply wp_bind, wp_thread_top_priority. intros p.
  apply wp_bind, wp_get_ready. intros l _ Hl. apply wp_bind, wp_put_ready. intros _ _.
  apply wp_bind, wp_upd_thread. intros th' Ht'. cbn in Ht, Hl, Ht'. simplify_eq.
  apply wp_bind, wp_intr_set_level. intros lv. apply wp_ret. specialize (H th l p Ht Hs Hl).
  destruct k; exact H.
Qed.

Lemma wp_thread_unblock_test t p (Q : bool -> K -> Prop) k :
  (forall b, Q b k) -> wp (thread_unblock_test t p) Q k.
Proof.
  intros H. apply wp_bind, wp_get_thread. intros th _.
  apply wp_bind, wp_intr_get_level, wp_ret, H.
Qed.

Lemma wp_thread_unblock_intr_off t (Q : unit -> K -> Prop) k :
  (forall th l, threads k !! t = Some th -> status th = THREAD_BLOCKED ->
     ready_list k !! Z.to_nat (priority th) = Some l ->
     Q tt (set_threads (<[t := set_status THREAD_READY th]> (threads k))
           (set_ready_list (<[Z.to_nat (priority th) := l ++ [t]]> (ready_list k)) k))) ->
  wp (thread_unblock_intr_off t) Q k.
Proof.
  intros H. apply wp_bind, wp_thread_unblock_enqueue. intros th l p Ht Hs Hl.
  apply wp_bind, wp_thread_unblock_test. intros []; [done|]. apply wp_ret. auto.
Qed.

(** ** Semaphores *)

Lemma wp_sema_up_loop l : forall e p (Q : Z * Z -> K -> Prop) k,
  (forall e' p', e' ∈ e :: l -> Q (e', p') k) -> wp (sema_up_loop l e p) Q k.
Proof.
  induction l as [|x l IH]; intros e p Q k H; cbn [sema_up_loop].
  - apply wp_ret, H. by left.
  - apply wp_bind, wp_get_thread. intros th _. destruct (priority th >? p).
    + apply wp_bind, wp_get_thread. intros th' _. apply IH. intros e' p' He'.
      apply H. by right.
    + apply IH. intros e' p' [->|He']%elem_of_cons; apply H; [by left|by do 2 right].
Qed.

(** Waking one of the waiters of a semaphore. *)
Lemma inv_wake F run dead k s x e v th l :
  inv F run dead k -> semas k !! s = Some x -> e ∈ waiters x ->
  threads k !! e = Some th -> status th = THREAD_BLOCKED ->
  ready_list k !! Z.to_nat (priority th) = Some l ->
  inv F run dead
    (set_threads (<[e := set_status THREAD_READY th]> (threads k))
      (set_ready_list (<[Z.to_nat (priority th) := l ++ [e]]> (ready_list k))
        (set_semas (<[s := Semaphore v (remove_elem e (waiters x))]> (semas k)) k))).
Proof.
  intros H Hx He Ht Hs Hl. set (k1 := set_semas _ k).
  destruct (inv_wait _ _ _ _ H _ _ _ Hx He) as (Hi & HF & _).
  apply (inv_enqueue F run dead k1); try done.
  - apply inv_sema; [done| |].
    + simpl. intros u [Hu _]%elem_remove_elem. eauto.
    + apply NoDup_remove_elem. by eapply inv_wait_nodup.
  - split.
    + intros s' y Hy Hin. cbn in Hy. upd_cases; simpl in Hin.
      * apply elem_remove_elem in Hin as [_ ?]. done.
      * pose proof (inv_wait_once _ _ _ _ H _ _ _ _ _ Hx H1 He Hin). done.
    + intros (a & -> & Ha)%list_elem_of_fmap. by eapply (inv_alarm_wait _ _ _ _ H).
Qed.

Lemma sema_up_wake_ok (uninit : K -> Z) F run dead k s :
  inv F run dead k ->
  wp (sema_up_wake uninit s)
    (fun _ k' => inv F run dead k' /\ keeps k k' /\ cur k' = cur k) k.
Proof.
  intros H. apply wp_bind, wp_assert. intros _. apply wp_bind, wp_gets.
  apply wp_bind, wp_intr_disable. set (k0 := set_level _ k).
  assert (inv F run dead k0) as H0 by (by apply irr_level).
  apply wp_bind, wp_get_sema. intros x Hx.
  assert (forall (p : Z) (k1 : K), inv F run dead k1 -> keeps k k1 -> cur k1 = cur k ->
    wp (x <- get_sema s;; put_sema s (Semaphore (u32 (value x + 1)) (waiters x));;;
        intr_set_level (level k);;; ret p)
      (fun _ k' => inv F run dead k' /\ keeps k k' /\ cur k' = cur k) k1) as Hrest.
  { intros p k1 H1 Hk Hc. apply wp_bind, wp_get_sema. intros y Hy. apply wp_bind, wp_put_sema.
    apply wp_bind, wp_intr_set_level. intros _. apply wp_ret. split_and!; [|done|done].
    apply irr_level. apply inv_sema; [done|eauto|]. simpl. by eapply (inv_wait_nodup _ _ _ _ H1). }
  apply wp_bind. destruct (waiters x) as [|e r] eqn:Ew; [apply wp_ret; by apply Hrest|].
  apply wp_bind, wp_get_thread. intros th0 _. apply wp_bind, wp_sema_up_loop.
  intros e' p' He'. cbn [fst snd]. apply wp_bind, wp_put_sema.
  apply wp_bind, wp_thread_unblock_intr_off. intros th l Ht Hs Hl. apply wp_ret. apply Hrest.
  - rewrite <- Ew in He' |- *. apply (inv_wake F run dead k0 s x e' (value x) th l); try done.
    apply elem_of_cons in He' as [->|?]; [rewrite Ew; by left|done].
  - by apply (keeps_upd k _ e' th (set_status THREAD_READY th)).
  - done.
Qed.

Lemma sema_up_test_ok p (Q : bool -> K -> Prop) k :
  (forall b, Q b k) -> wp (sema_up_test p) Q k.
Proof.
  intros H. apply wp_bind, wp_thread_current_struct. intros th _ _.
  apply wp_bind, wp_intr_get_level, wp_ret, H.
Qed.

(** ** Priorities *)

(** The priority of a thread that is in no queue. *)
Lemma inv_set_priority F run dead k t th p :
  inv F run dead k -> threads k !! t = Some th ->
  PRI_MIN <= p <= PRI_MAX -> (status th <> THREAD_READY \/ t = idle_thread k) ->
  inv F run dead (set_threads (<[t := set_priority p th]> (threads k)) k).
Proof.
  intros H Ht Hp Hs. rewrite <- (set_ready_list_same k) at 2.
  eapply (inv_move F run run dead k t th (set_priority p th)); eauto.
  - destruct (decide (status th = THREAD_BLOCKED)) as [E|E]; [by right|left].
    split; [by eapply unparked_status|]. eapply not_under_construction; eauto.
  - by eapply requeued_same.
  - exact (inv_run _ _ _ _ H t th Ht).
Qed.

Lemma remove_elem_notin e l : e ∉ l -> remove_elem e l = l.
Proof.
  intros H. unfold remove_elem. induction l as [|x l IH]; [done|]. simpl.
  apply not_elem_of_cons in H as [Hne H]. destruct (Z.eqb_spec x e); [congruence|].
  simpl. by rewrite IH.
Qed.

(** A ready thread is in the queue of its priority and in no other. *)
Lemma ready_unique F run dead k t th l :
  inv F run dead k -> threads k !! t = Some th -> status th = THREAD_READY ->
  t <> idle_thread k -> ready_list k !! Z.to_nat (priority th) = Some l ->
  t ∈ l /\ forall i l', ready_list k !! i = Some l' -> t ∈ l' -> i = Z.to_nat (priority th).
Proof.
  intros H Ht Hs Hi Hl. split.
  - destruct (inv_queued _ _ _ _ H _ _ Ht Hs Hi) as (l0 & H0 & ?). by simplify_eq.
  - intros i l' Hl' Hin. destruct (inv_ready _ _ _ _ H _ _ _ Hl' Hin) as (_ & x & ? & _ & E).
    simplify_eq. lia.
Qed.

Lemma map_remove_elem F run dead k t th l :
  inv F run dead k -> threads k !! t = Some th -> status th = THREAD_READY ->
  t <> idle_thread k -> ready_list k !! Z.to_nat (priority th) = Some l ->
  map (remove_elem t) (ready_list k) =
  <[Z.to_nat (priority th) := remove_elem t l]> (ready_list k).
Proof.
  intros H Ht Hs Hi Hl. destruct (ready_unique _ _ _ _ _ _ _ H Ht Hs Hi Hl) as [_ Hu].
  apply list_eq. intros i. rewrite list_lookup_fmap.
  destruct (decide (i = Z.to_nat (priority th))) as [->|Hne].
  - rewrite list_lookup_insert_eq by (by eapply lookup_lt_Some). by rewrite Hl.
  - rewrite list_lookup_insert_ne by done. destruct (ready_list k !! i) as [l'|] eqn:E; [|done].
    simpl. f_equal. apply remove_elem_notin. intros Hin. eapply Hne, Hu; eauto.
Qed.

(** A ready thread moves to the queue of another priority. *)
Lemma inv_requeue F run dead k t th p l l' :
  inv F run dead k -> threads k !! t = Some th -> status th = THREAD_READY ->
  t <> idle_thread k -> PRI_MIN <= p <= PRI_MAX -> p <> priority th ->
  ready_list k !! Z.to_nat (priority th) = Some l -> ready_list k !! Z.to_nat p = Some l' ->
  inv F run dead (set_threads (<[t := set_priority p th]> (threads k))
    (set_ready_list (<[Z.to_nat p := l' ++ [t]]>
                      (<[Z.to_nat (priority th) := remove_elem t l]> (ready_list k))) k)).
Proof.
  intros H Ht Hs Hi Hp Hne Hl Hl'.
  destruct (ready_unique _ _ _ _ _ _ _ H Ht Hs Hi Hl) as [Hin Hu].
  destruct (inv_prio_queue _ _ _ _ _ _ H Ht) as [Hlt Hpe].
  assert (Z.to_nat p <> Z.to_nat (priority th)) as Hne' by (unfold PRI_MIN in *; lia).
  assert (Z.to_nat p < length (ready_list k))%nat as Hlt' by (by eapply lookup_lt_Some).
  set (rl := <[Z.to_nat (priority th) := remove_elem t l]> (ready_list k)).
  assert (length rl = length (ready_list k)) as Hlen by apply length_insert.
  eapply (inv_move F run run dead k t th (set_priority p th)); eauto.
  - left. split; [eapply unparked_status; eauto; congruence|].
    eapply not_under_construction; eauto. left. congruence.
  - split; simpl.
    + rewrite length_insert, Hlen. apply (inv_len _ _ _ _ H).
    + intros i m [(<- & <- & _)|[_ Hm]]%list_lookup_insert_Some.
      * apply NoDup_app. split_and!; [by eapply inv_ready_nodup| |apply NoDup_singleton].
        intros u Hin' ->%list_elem_of_singleton. by apply Hne', (Hu _ _ Hl').
      * apply list_lookup_insert_Some in Hm as [(<- & <- & _)|[_ Hm]];
          [apply NoDup_remove_elem|]; by eapply inv_ready_nodup.
    + intros i m u [(<- & <- & _)|[_ Hm]]%list_lookup_insert_Some Hum.
      * apply elem_of_app in Hum as [Hum| ->%list_elem_of_singleton].
        -- right. split; [|eauto]. intros ->. by apply Hne', (Hu _ _ Hl').
        -- left. unfold PRI_MIN in *. split_and!; [done..|lia].
      * right. apply list_lookup_insert_Some in Hm as [(<- & <- & _)|[Hd Hm]].
        -- apply elem_remove_elem in Hum as [? ?]. eauto.
        -- split; [|eauto]. intros ->. apply Hd. symmetry. eauto.
    + intros i l0 u Hl0 Hu0 Hut. destruct (decide (i = Z.to_nat p)) as [->|Hip].
      { exists (l' ++ [t]). rewrite list_lookup_insert_eq by lia. simplify_eq.
        split; [done|]. apply elem_of_app. by left. }
      rewrite list_lookup_insert_ne by done.
      destruct (decide (i = Z.to_nat (priority th))) as [->|Hio].
      { exists (remove_elem t l). unfold rl. rewrite list_lookup_insert_eq by done. simplify_eq.
        split; [done|]. by apply elem_remove_elem. }
      exists l0. unfold rl. by rewrite list_lookup_insert_ne.
    + intros _ _. exists (l' ++ [t]). rewrite list_lookup_insert_eq by lia.
      split; [done|]. apply elem_of_app. right. by apply list_elem_of_singleton.
  - exact (inv_run _ _ _ _ H t th Ht).
Qed.

Lemma BSD_priority_range rcpu nc p :
  BSD_calc_priority_this rcpu nc = Ok p -> PRI_MIN <= p <= PRI_MAX.
Proof.
  unfold BSD_calc_priority_this. cbn [fp_devide Z.eqb res_bind].
  set (q := fp_convert_to_int_down _). clearbody q. intros [= <-]. unfold PRI_MIN, PRI_MAX.
  destruct (Z.gtb_spec q 63); [done|]. destruct (Z.ltb_spec q 0); lia.
Qed.

(** ** The timer interrupt *)

(** The invariant holds again, and neither the running thread nor the set of
    threads has changed. *)
Definition steady (F : gset token) (run dead : option Z) (k k' : K) : Prop :=
  inv F run dead k' /\ keeps k k' /\ cur k' = cur k.

Lemma steady_refl F run dead k : inv F run dead k -> steady F run dead k k.
Proof. intros H. red. by split_and!. Qed.

Lemma steady_trans F run dead k1 k2 k3 :
  steady F run dead k1 k2 -> steady F run dead k2 k3 -> steady F run dead k1 k3.
Proof.
  intros (_ & H1 & E1) (H2 & H3 & E2). red. split_and!; [done|by eapply keeps_trans|congruence].
Qed.

Lemma steady_irrelevant F run dead k (f : K -> K) :
  inv F run dead k -> irrelevant f -> threads (f k) = threads k -> cur (f k) = cur k ->
  steady F run dead k (f k).
Proof. intros H Hf Ht Hc. red. split_and!; [by apply Hf|by apply keeps_threads|done]. Qed.

Lemma steady_data F run dead k t th th' :
  inv F run dead k -> threads k !! t = Some th -> same_sched th th' -> aux th' = aux th ->
  steady F run dead k (set_threads (<[t := th']> (threads k)) k).
Proof.
  intros H Ht Hs Ha. red. split_and!; [by eapply inv_upd_data| |done].
  destruct Hs as (_ & _ & _ & Hf & _). by apply (keeps_upd k _ t th th').
Qed.

(** Sequencing of operations that keep the invariant. *)
Lemma wp_steady_bind {A B} F run dead (m : M K A) (f : A -> M K B) k :
  wp m (fun _ k' => steady F run dead k k') k ->
  (forall a k', steady F run dead k k' -> wp (f a) (fun _ k'' => steady F run dead k' k'') k') ->
  wp (bind m f) (fun _ k' => steady F run dead k k') k.
Proof.
  intros H1 H2. apply wp_bind. eapply wp_mono; [exact H1|]. intros a k' Hk'.
  eapply wp_mono; [exact (H2 a k' Hk')|]. intros b k'' Hk''.
  exact (steady_trans _ _ _ _ _ _ Hk' Hk'').
Qed.

Lemma aging_step F run dead k e th i l l' :
  inv F run dead k -> (i < 63)%nat -> ready_list k !! i = Some l -> e ∈ l ->
  threads k !! e = Some th ->
  ready_list k !! S i = Some l' ->
  steady F run dead k
    (set_threads (<[e := set_priority (Z.of_nat (S i)) th]> (threads k))
      (set_ready_list (<[S i := l' ++ [e]]> (<[i := remove_elem e l]> (ready_list k))) k)).
Proof.
  intros H Hi Hl He Ht Hl'.
  destruct (inv_ready _ _ _ _ H _ _ _ Hl He) as (Hid & x & Hx & Hs & Ep).
  assert (x = th) as -> by congruence.
  red. split_and!; [|by apply (keeps_upd k _ e th (set_priority (Z.of_nat (S i)) th))|done].
  pose proof (inv_requeue F run dead k e th (Z.of_nat (S i)) l l') as Hr.
  rewrite Ep, !Nat2Z.id in Hr. apply Hr; try done; unfold PRI_MIN, PRI_MAX; lia.
Qed.

Lemma aging_queue_ok F run dead i fuel : forall k j y,
  inv F run dead k -> (i < 63)%nat ->
  wp (aging_queue fuel (Z.of_nat i) j y) (fun _ k' => steady F run dead k k') k.
Proof.
  induction fuel as [|fuel IH]; intros k j y H Hi; [done|]. cbn [aging_queue].
  apply wp_bind, wp_get_ready. intros l _ Hl. rewrite Nat2Z.id in Hl.
  destruct (l !! j) as [e|] eqn:Hj; [|apply wp_ret; by apply steady_refl].
  assert (e ∈ l) as He by (by eapply list_elem_of_lookup_2).
  apply wp_bind, wp_get_thread. intros th Ht. apply wp_bind, wp_timer_elapsed.
  destruct (_ =? 0); [|by apply IH].
  destruct (inv_ready _ _ _ _ H _ _ _ Hl He) as (_ & x & Hx & _ & Ep).
  assert (x = th) as -> by congruence.
  rewrite Ep, i32_id by lia. change (Z.of_nat i + 1) with (Z.succ (Z.of_nat i)).
  rewrite <- Nat2Z.inj_succ.
  apply wp_bind, wp_upd_thread. intros x Hx'. assert (x = th) as -> by congruence.
  apply wp_bind, wp_get_thread. intros th' Ht'. cbn in Ht'. rewrite lookup_insert_eq in Ht'.
  injection Ht' as <-. cbn [priority set_priority].
  apply wp_bind, wp_put_ready. intros _ _. apply wp_bind, wp_get_ready. intros l' _ Hl'.
  rewrite !Nat2Z.id in *. cbn in Hl'. rewrite list_lookup_insert_ne in Hl' by lia.
  apply wp_bind, wp_put_ready. intros _ _. rewrite Nat2Z.id.
  apply wp_bind, wp_thread_current_struct. intros me _ _.
  pose proof (aging_step F run dead k e th i l l' H Hi Hl He Ht Hl') as Hst.
  eapply wp_mono; [apply IH; [apply Hst|done]|]. intros b k' Hk'.
  eapply steady_trans; [exact Hst|exact Hk'].
Qed.

Lemma aging_loop_ok F run dead n : forall k y,
  inv F run dead k -> (n <= 63)%nat ->
  wp (aging_loop n y) (fun _ k' => steady F run dead k k') k.
Proof.
  induction n as [|i IH]; intros k y H Hn; cbn [aging_loop].
  - apply wp_ret. by apply steady_refl.
  - apply wp_bind, wp_get_ready. intros l _ _. apply wp_steady_bind.
    + apply aging_queue_ok; [done|lia].
    + intros y' k' (H' & _). apply IH; [done|lia].
Qed.

Lemma yield_on_return_ok F run dead k :
  inv F run dead k -> wp intr_yield_on_return (fun _ k' => steady F run dead k k') k.
Proof.
  intros H. apply wp_intr_yield_on_return.
  apply (steady_irrelevant F run dead k (set_yield_on_return true)); [done|apply irr_yield_on_return|done..].
Qed.

Lemma thread_aging_ok F run dead k :
  inv F run dead k -> wp thread_aging (fun _ k' => steady F run dead k k') k.
Proof.
  intros H. apply wp_steady_bind; [by apply aging_loop_ok|].
  intros [] k' (H' & _); [by apply yield_on_return_ok|]. apply wp_ret. by apply steady_refl.
Qed.

Lemma wp_fp_op (Q : unit -> K -> Prop) k : Q tt k -> wp fp_op Q k.
Proof. intros H. apply wp_bind, wp_gets. destruct (thread_mlfqs k); [by apply wp_ret|done]. Qed.

(** The ready thread [t] gets the priority [new]. *)
Lemma BSD_requeue_ok F run dead k t th new y :
  inv F run dead k -> threads k !! t = Some th -> name th <> "idle" ->
  status th = THREAD_READY -> priority th <> new -> PRI_MIN <= new <= PRI_MAX ->
  t <> idle_thread k ->
  wp (modify (fun k => set_ready_list (map (remove_elem t) (ready_list k)) k);;;
      l <- get_ready new;;
      put_ready new (l ++ [t]);;;
      me <- thread_current_struct;;
      ret (y || (new >? priority me)))
    (fun _ k' => steady F run dead k k')
    (set_threads (<[t := set_priority new th]> (threads k)) k).
Proof.
  intros H Ht Hn Hs Hne Hr Hi.
  destruct (inv_queued _ _ _ _ H _ _ Ht Hs Hi) as (l & Hl & _).
  apply wp_bind, wp_modify. apply wp_bind, wp_get_ready. intros l' _ Hl'.
  cbn in Hl'. rewrite (map_remove_elem F run dead k t th l) in Hl' by done.
  pose proof (inv_prio _ _ _ _ H _ _ Ht) as Hp.
  rewrite list_lookup_insert_ne in Hl' by (unfold PRI_MIN in *; lia).
  apply wp_bind, wp_put_ready. intros _ _. apply wp_bind, wp_thread_current_struct.
  intros me _ _. apply wp_ret. red. split_and!; [| |done].
  - pose proof (inv_requeue F run dead k t th new l l' H Ht Hs Hi Hr (not_eq_sym Hne) Hl Hl') as Hq.
    by rewrite <- (map_remove_elem F run dead k t th l) in Hq.
  - by apply (keeps_upd k _ t th (set_priority new th)).
Qed.

(** The idle thread is recognized by its name. *)
Lemma not_named_idle F run dead k t th :
  inv F run dead k -> threads k !! t = Some th -> name th <> "idle" -> t <> idle_thread k.
Proof.
  intros H Ht Hn ->. destruct (inv_idle _ _ _ _ H) as [E|(x & Hx & Hf & _)].
  - rewrite E, (inv_null _ _ _ _ H) in Ht. done.
  - simplify_eq. by apply Hn, (inv_idle_name _ _ _ _ H _ _ Ht).
Qed.

Lemma BSD_calc_priority_thread_ok F run dead k t y :
  inv F run dead k ->
  wp (BSD_calc_priority_thread t y) (fun _ k' => steady F run dead k k') k.
Proof.
  intros H. apply wp_bind, wp_get_thread. intros th Ht.
  destruct (String.eqb_spec (name th) "idle") as [E|E]; [apply wp_ret; by apply steady_refl|].
  pose proof (not_named_idle _ _ _ _ _ _ H Ht E) as Hi.
  apply wp_bind, wp_lift. intros new Hnew%BSD_priority_range.
  apply wp_bind, wp_upd_thread. intros x Hx. assert (x = th) as -> by congruence.
  set (k1 := set_threads _ k). apply wp_bind.
  assert (forall (b : bool) k2, steady F run dead k k2 ->
    wp (if bool_decide (status th = THREAD_RUNNING) then
          top <- thread_top_priority;; ret (b || (new <? top))
        else ret b) (fun _ k' => steady F run dead k k') k2) as Hrest.
  { intros b k2 H2. case_bool_decide; [|by apply wp_ret].
    apply wp_bind, wp_thread_top_priority. intros p. by apply wp_ret. }
  destruct (bool_decide (status th = THREAD_READY) && negb (priority th =? new)) eqn:Eb.
  - apply andb_true_iff in Eb as [Es%bool_decide_eq_true Ep%negb_true_iff%Z.eqb_neq].
    eapply wp_mono; [by apply (BSD_requeue_ok F run dead k t th new y)|]. intros b k2 H2.
    by apply Hrest.
  - apply wp_ret. apply Hrest. red. split_and!; [| |done].
    + destruct (Z.eqb_spec (priority th) new) as [<-|Hne].
      * apply (inv_upd_data F run dead k t th); [done..|]. by destruct th.
      * apply inv_set_priority; [done..|]. left. intros Es. rewrite bool_decide_true in Eb; done.
    + by apply (keeps_upd k _ t th (set_priority new th)).
Qed.

Lemma BSD_calc_priority_loop_ok F run dead l : forall k y,
  inv F run dead k ->
  wp (BSD_calc_priority_loop l y) (fun _ k' => steady F run dead k k') k.
Proof.
  induction l as [|t l IH]; intros k y H; cbn [BSD_calc_priority_loop].
  - apply wp_ret. by apply steady_refl.
  - apply wp_steady_bind; [by apply BSD_calc_priority_thread_ok|].
    intros y' k' (H' & _). by apply IH.
Qed.

Lemma BSD_calc_priority_ok F run dead k :
  inv F run dead k -> wp BSD_calc_priority (fun _ k' => steady F run dead k k') k.
Proof.
  intros H. apply wp_bind, wp_fp_op, wp_bind, wp_gets.
  apply wp_steady_bind; [by apply BSD_calc_priority_loop_ok|]. intros y k' (H' & _).
  apply wp_bind, wp_intr_context. destruct (_ && _); [by apply yield_on_return_ok|].
  apply wp_ret. by apply steady_refl.
Qed.

Lemma BSD_calc_load_average_ok F run dead k :
  inv F run dead k -> wp BSD_calc_load_average (fun _ k' => steady F run dead k k') k.
Proof.
  intros H. apply wp_bind, wp_get. apply wp_bind, wp_bind, wp_thread_current_struct.
  intros th _ _. apply wp_ret, wp_bind, wp_fp_op. apply wp_bind, wp_lift. intros a _.
  apply wp_bind, wp_lift. intros b _. apply wp_modify.
  apply (steady_irrelevant F run dead k (set_load_avg _)); [done|apply irr_load_avg|done..].
Qed.

Lemma BSD_calc_recent_cpu_loop_ok F run dead coef l : forall k,
  inv F run dead k ->
  wp (BSD_calc_recent_cpu_loop coef l) (fun _ k' => steady F run dead k k') k.
Proof.
  induction l as [|t l IH]; intros k H; cbn [BSD_calc_recent_cpu_loop].
  - apply wp_ret. by apply steady_refl.
  - apply wp_bind, wp_get_thread. intros th Ht.
    apply wp_steady_bind; [|intros [] k' (H' & _); by apply IH].
    destruct (String.eqb _ _); [apply wp_ret; by apply steady_refl|].
    apply wp_upd_thread. intros x Hx. assert (x = th) as -> by congruence.
    by apply (steady_data F run dead k t th).
Qed.

Lemma BSD_calc_recent_cpu_ok F run dead k :
  inv F run dead k -> wp BSD_calc_recent_cpu (fun _ k' => steady F run dead k k') k.
Proof.
  intros H. apply wp_bind, wp_fp_op, wp_bind, wp_gets, wp_bind, wp_lift. intros c _.
  apply wp_bind, wp_gets. by apply BSD_calc_recent_cpu_loop_ok.
Qed.

Lemma BSD_schedule_ok F run dead k :
  inv F run dead k -> wp BSD_schedule (fun _ k' => steady F run dead k k') k.
Proof.
  intros H. apply wp_bind, wp_timer_ticks. apply wp_bind, wp_thread_current_struct.
  intros th Ht _. apply wp_steady_bind; [|intros [] k1 (H1 & _); apply wp_steady_bind].
  - destruct (String.eqb _ _); [apply wp_ret; by apply steady_refl|].
    apply wp_bind, wp_fp_op, wp_bind, wp_thread_current. intros _ _ _.
    apply wp_upd_thread. intros x Hx. assert (x = th) as -> by congruence.
    by apply (steady_data F run dead k (cur k) th).
  - destruct (_ =? 0); [|apply wp_ret; by apply steady_refl].
    apply wp_steady_bind; [by apply BSD_calc_load_average_ok|]. intros [] k2 (H2 & _).
    by apply BSD_calc_recent_cpu_ok.
  - intros [] k2 (H2 & _). destruct (_ =? 0); [by apply BSD_calc_priority_ok|].
    apply wp_ret. by apply steady_refl.
Qed.

Lemma thread_tick_ok F run dead k :
  inv F run dead k -> wp thread_tick (fun _ k' => steady F run dead k k') k.
Proof.
  intros H. apply wp_bind, wp_thread_current. intros _ _ _. apply wp_bind, wp_gets.
  apply wp_steady_bind.
  { destruct (_ =? _); apply wp_modify;
      [apply (steady_irrelevant F run dead k (set_idle_ticks _)); [done|apply irr_idle_ticks|done..]
      |apply (steady_irrelevant F run dead k (set_kernel_ticks _)); [done|apply irr_kernel_ticks|done..]]. }
  intros [] k1 (H1 & _). apply wp_steady_bind.
  { apply wp_modify.
    apply (steady_irrelevant F run dead k1 (set_thread_ticks _)); [done|apply irr_thread_ticks|done..]. }
  intros [] k2 (H2 & _). apply wp_bind, wp_gets. apply wp_steady_bind.
  { destruct (_ <=? _); [by apply yield_on_return_ok|]. apply wp_ret. by apply steady_refl. }
  intros [] k3 (H3 & _). apply wp_bind, wp_gets. apply wp_steady_bind.
  { destruct (thread_mlfqs k3); [by apply BSD_schedule_ok|]. apply wp_ret. by apply steady_refl. }
  intros [] k4 (H4 & _). apply wp_bind, wp_gets.
  destruct (thread_prior_aging k4); [by apply thread_aging_ok|]. apply wp_ret. by apply steady_refl.
Qed.

(** A sleeping thread wakes up. *)
Lemma alarm_wake F run dead k kept a rest th l :
  inv F run dead k -> list_alarm k = kept ++ a :: rest ->
  threads k !! alarm_thread a = Some th -> status th = THREAD_BLOCKED ->
  ready_list k !! Z.to_nat (priority th) = Some l ->
  inv F run dead
    (set_threads (<[alarm_thread a := set_status THREAD_READY th]> (threads k))
      (set_ready_list (<[Z.to_nat (priority th) := l ++ [alarm_thread a]]> (ready_list k))
        (set_list_alarm (kept ++ rest) k))).
Proof.
  intros H Ea Ht Hs Hl. assert (a ∈ list_alarm k) as Hin.
  { rewrite Ea. apply elem_of_app. right. by left. }
  destruct (inv_alarm _ _ _ _ H _ Hin) as (Hi & HF & _).
  apply (inv_enqueue F run dead (set_list_alarm (kept ++ rest) k)); try done.
  - apply inv_alarms; [done|]. rewrite Ea. apply sublist_app; [done|]. by apply sublist_cons.
  - split.
    + intros s x Hx. by eapply (inv_alarm_wait _ _ _ _ H).
    + cbn. pose proof (inv_alarm_nodup _ _ _ _ H) as Hnd. rewrite Ea, map_app in Hnd. rewrite map_app.
      simpl in Hnd. apply NoDup_app_cons_not in Hnd. rewrite elem_of_app. tauto.
Qed.

Lemma alarm_loop_ok F run dead rest : forall kept k,
  inv F run dead k -> list_alarm k = kept ++ rest ->
  wp (alarm_loop kept rest) (fun _ k' => steady F run dead k k') k.
Proof.
  induction rest as [|a rest IH]; intros kept k H Ea; cbn [alarm_loop].
  - apply wp_ret. by apply steady_refl.
  - apply wp_bind, wp_gets. destruct (_ <=? _).
    + apply wp_bind, wp_thread_unblock_intr_off. intros th l Ht Hs Hl.
      apply wp_bind, wp_intr_yield_on_return, wp_bind, wp_modify.
      pose proof (alarm_wake F run dead k kept a rest th l H Ea Ht Hs Hl) as Hw.
      apply (irr_yield_on_return true) in Hw.
      match goal with |- wp _ _ ?s => set (k1 := s) end.
      assert (steady F run dead k k1) as Hst.
      { red. split_and!; [exact Hw| |done].
        by apply (keeps_upd k _ (alarm_thread a) th (set_status THREAD_READY th)). }
      eapply wp_mono; [by apply (IH kept k1)|]. intros [] k' Hk'.
      exact (steady_trans _ _ _ _ _ _ Hst Hk').
    + apply IH; [done|]. by rewrite <- app_assoc.
Qed.

Lemma timer_irq_ok F run dead k :
  inv F run dead k -> wp timer_irq (fun _ k' => steady F run dead k k') k.
Proof.
  assert (forall (f : K -> K) k, irrelevant f -> threads (f k) = threads k -> cur (f k) = cur k ->
    inv F run dead k -> wp (modify f) (fun _ k' => steady F run dead k k') k) as Hm
    by (intros f k' Hf E1 E2 H'; apply wp_modify; by apply steady_irrelevant).
  intros H. apply wp_steady_bind; [apply Hm; [apply irr_level|done..]|].
  intros [] k1 (H1 & _). apply wp_bind, wp_intr_context, wp_bind, wp_assert. intros _.
  apply wp_steady_bind; [apply Hm; [apply irr_in_external_intr|done..]|].
  intros [] k2 (H2 & _). apply wp_steady_bind; [apply Hm; [apply irr_yield_on_return|done..]|].
  intros [] k3 (H3 & _). apply wp_steady_bind; [|intros [] k4 (H4 & _)].
  { unfold timer_interrupt. apply wp_steady_bind.
    - apply wp_modify. apply (steady_irrelevant F run dead k3 (set_ticks _)); [done|apply irr_ticks|done..].
    - intros [] k4 (H4 & _). apply wp_steady_bind; [by apply thread_tick_ok|].
      intros [] k5 (H5 & _). apply wp_bind, wp_gets. by apply alarm_loop_ok. }
  apply wp_bind, wp_intr_get_level, wp_bind, wp_assert. intros _.
  apply wp_bind, wp_intr_context, wp_bind, wp_assert. intros _.
  apply wp_steady_bind; [apply Hm; [apply irr_in_external_intr|done..]|].
  intros [] k5 (H5 & _). apply wp_bind, wp_gets. apply wp_steady_bind.
  { destruct (yield_on_return k5); [apply wp_ret; by apply steady_refl|].
    apply Hm; [apply irr_level|done..]. }
  intros [] k6 (H6 & _). apply wp_ret. by apply steady_refl.
Qed.
End Steps.
