(* ===== verification/ThreadCreate.v ===== *)
(** * Threads: creation, the idle thread and the remaining actions

    The steps of [thread_create], which take a page from the allocator to the
    ready queue while other threads run, the idle thread, and the actions on
    semaphores and locks, against the invariant of ThreadInv.v. *)

From S2P Require Import Prelude PageAlloc FixedPoint Code KernelState Thread ThreadInv ThreadSteps.
From stdpp Require Import strings.
Local Open Scope Z_scope.

Section Create.
Context {P : Type} {PA : PageAllocator P}.
Local Notation K := (kernel P).

(** ** Tokens *)

(** Forgetting tokens. *)
Lemma inv_drop F F' run dead (k : K) :
  inv F run dead k -> F' ⊆ F -> (forall t i, (t, Built i) ∈ F -> (t, Built i) ∈ F') ->
  inv F' run dead k.
Proof.
  intros H Hsub Hb. inv_cases H.
  - intros s x t Hs Ht. destruct (Hwait _ _ _ Hs Ht) as (? & HF & ?). split_and!; [done| |done].
    intros sg Hin. by eapply HF, Hsub.
  - intros a Ha. destruct (Halarm _ Ha) as (? & HF & ?). split_and!; [done| |done].
    intros sg Hin. by eapply HF, Hsub.
  - intros t sg i Hin. apply Hfresh. auto.
  - intros t s1 s2 H1 H2. apply (Htok t); auto.
  - intros t Hin. apply Hraw. auto.
  - intros t Hin. apply Hnoi. auto.
  - intros t th Ht Hd Hin. eapply Hallc; eauto. intros i Hi. by eapply Hin, Hb.
Qed.

(** ** From the page to the ready queue *)

Lemma inv_get_page F run dead (k : K) user pg p :
  inv F run dead k -> pa_get user (pool k) = Some (pg, p) ->
  inv (F ∪ {[(pg, Raw)]}) run dead (set_pool p k) /\
  threads k !! pg = None /\ forall sg, (pg, sg) ∉ F.
Proof.
  intros H Hg. pose proof (inv_pool_wf _ _ _ _ H) as Hw.
  destruct (pa_get_managed _ _ _ _ pg Hw Hg) as [Hm _].
  pose proof (pa_get_fresh _ _ _ _ Hw Hg) as Hf. destruct (pa_get_aligned _ _ _ _ Hw Hg) as [Hpos _].
  assert (pg <> initial_thread k) as Hini by (intros ->; by apply (inv_initial _ _ _ _ H)).
  assert (threads k !! pg = None) as Hnone.
  { apply eq_None_not_Some. intros Hs.
    by destruct (inv_pool _ _ _ _ H _ Hs). }
  assert (forall sg, (pg, sg) ∉ F) as HF.
  { intros sg Hin. destruct sg.
    - by destruct (inv_raw _ _ _ _ H _ Hin) as (_ & ? & _).
    - destruct (inv_fresh _ _ _ _ H _ _ i Hin) as (_ & _ & x & ? & _); [auto|congruence].
    - destruct (inv_fresh _ _ _ _ H _ _ i Hin) as (_ & _ & x & ? & _); [auto|congruence].
    - destruct (inv_no_idle _ _ _ _ H _ Hin) as [-> _]. done. }
  split_and!; [|done|done].
  assert (forall t sg, is_Some (threads k !! t) -> (t, sg) ∉ F -> (t, sg) ∉ F ∪ {[(pg, Raw)]}) as Hno.
  { intros t sg [x Hx] Hin [?|E%elem_of_singleton]%elem_of_union; [done|]. congruence. }
  inv_cases H.
  - intros s x t Hs Ht. destruct (Hwait _ _ _ Hs Ht) as (? & ? & y & ? & ?).
    split_and!; [done| |eauto]. intros sg. apply Hno; eauto.
  - intros a Ha. destruct (Halarm _ Ha) as (? & ? & y & ? & ?).
    split_and!; [done| |eauto]. intros sg. apply Hno; eauto.
  - intros t sg i [Hin|E%elem_of_singleton]%elem_of_union Hsg; [eauto|]. naive_solver.
  - intros t s1 s2 [H1|E1%elem_of_singleton]%elem_of_union
      [H2|E2%elem_of_singleton]%elem_of_union; simplify_eq; [eauto|by destruct (HF s1)
      |by destruct (HF s2)|done].
  - intros t [Hin|E%elem_of_singleton]%elem_of_union.
    + destruct (Hraw _ Hin) as (? & ? & ? & ?). split_and!; try done.
      apply (pa_get_used _ _ _ _ t Hw Hg). by right.
    + simplify_eq. split_and!; [done| |unfold NULL; lia|done].
      apply (pa_get_used _ _ _ _ pg Hw Hg). by left.
  - intros t [Hin|E%elem_of_singleton]%elem_of_union; [eauto|done].
  - intros t th Ht Hd Hin. eapply Hallc; eauto. intros i Hin'. eapply Hin, elem_of_union. by left.
  - intros t Ht. destruct (Hpool _ Ht); [by left|right]. apply (pa_get_used _ _ _ _ t Hw Hg). by right.
  - by eapply pa_get_wf.
  - by destruct (pa_get_managed _ _ _ _ (initial_thread k) Hw Hg) as [_ ->].
Qed.

Lemma inv_build F run dead (k : K) t th i :
  inv F run dead k -> (t, Raw) ∈ F ->
  status th = THREAD_BLOCKED -> magic th = THREAD_MAGIC ->
  PRI_MIN <= priority th <= PRI_MAX -> function th <> IDLE_FN ->
  (i = true -> name th = "idle") ->
  inv (F ∖ {[(t, Raw)]} ∪ {[(t, Built i)]}) run dead (set_threads (<[t := th]> (threads k)) k).
Proof.
  intros H Hin Hs Hm Hp Hf Hname. destruct (inv_raw _ _ _ _ H _ Hin) as (Hnone & Hused & Hnull0 & Hini).
  assert (forall u, is_Some (threads k !! u) -> u <> t) as Hne by (intros u [x Hx] ->; congruence).
  assert (forall (Q : thread -> Prop) u, (exists x, threads k !! u = Some x /\ Q x) ->
    exists x, <[t := th]> (threads k) !! u = Some x /\ Q x) as Hex.
  { intros Q u (x & Hx & Hq). exists x. rewrite lookup_insert_ne; [done|]. intros ->. congruence. }
  assert (forall u sg, u <> t -> (u, sg) ∈ F ∖ {[(t, Raw)]} ∪ {[(t, Built i)]} <-> (u, sg) ∈ F) as HF.
  { intros u sg Hu. rewrite elem_of_union, elem_of_difference, !elem_of_singleton. naive_solver. }
  assert (t <> idle_thread k) as Hti.
  { intros ->. destruct (inv_idle _ _ _ _ H) as [?|(x & ? & _)]; congruence. }
  assert (t ∉ all_list k) as Hta.
  { intros Ha. destruct (inv_all _ _ _ _ H _ Ha) as (x & ? & _). congruence. }
  assert (forall sg, (t, sg) ∈ F ∖ {[(t, Raw)]} ∪ {[(t, Built i)]} -> sg = Built i) as HB.
  { intros sg. rewrite elem_of_union, elem_of_difference, !elem_of_singleton.
    intros [[Hi Hni]|E]; [|by simplify_eq].
    pose proof (inv_token _ _ _ _ H _ _ _ Hin Hi). subst. done. }
  inv_cases H.
  - by rewrite lookup_insert_ne.
  - intros u x Hx. upd_cases; eauto.
  - intros u x Hx. upd_cases; eauto.
  - intros u x Hx. upd_cases; [|eauto]. split; [congruence|]. intros E. destruct (Hrunl _ E). congruence.
  - intros u Hu. destruct (decide (t = u)) as [<-|]; rewrite ?lookup_insert_eq, ?lookup_insert_ne; eauto.
  - intros n l u Hl Hu. destruct (Hready _ _ _ Hl Hu) as [? Hx]. split; [done|]. by apply Hex.
  - intros u x Hx. upd_cases; [congruence|eauto].
  - destruct Hidle as [?|Hx]; [by left|right]. by apply Hex.
  - intros s x u Hsx Hu. destruct (Hwait _ _ _ Hsx Hu) as (? & ? & y & ? & ?).
    split_and!; [done| |apply Hex; eauto]. intros sg. rewrite HF; eauto.
  - intros a Ha. destruct (Halarm _ Ha) as (? & ? & y & ? & ?).
    split_and!; [done| |apply Hex; eauto]. intros sg. rewrite HF; eauto.
  - intros u sg j Hu Hsg. destruct (decide (u = t)) as [->|Hut].
    + apply HB in Hu as ->. assert (i = j) as <- by naive_solver.
      split_and!; [done|naive_solver|]. exists th. by rewrite lookup_insert_eq.
    + apply HF in Hu; [|done]. destruct (Hfresh _ _ _ Hu Hsg) as (? & ? & ?).
      split_and!; [done..|]. by apply Hex.
  - intros u s1 s2 H1 H2. destruct (decide (u = t)) as [->|Hut];
      [by rewrite (HB _ H1), (HB _ H2)|]. apply HF in H1, H2; eauto.
  - intros u Hu. destruct (decide (u = t)) as [->|Hut]; [by apply HB in Hu|].
    apply HF in Hu; [|done]. rewrite lookup_insert_ne by done. by apply Hraw.
  - intros u Hu. destruct (decide (u = t)) as [->|Hut]; [by apply HB in Hu|].
    apply HF in Hu; [|done]. destruct (Hnoi _ Hu) as (? & ? & Hx). split_and!; [done..|].
    intros v x Hv. upd_cases; eauto.
  - intros t1 t2 x1 x2 H1 H2 F1 F2. upd_cases; eauto.
  - intros u x Hx Hfx. upd_cases; eauto.
  - intros u Hu. by apply Hex, Hall.
  - intros u x Hx Hd Hu. upd_cases.
    + exfalso. apply (Hu i), elem_of_union. right. by apply elem_of_singleton.
    + eapply Hallc; eauto. intros j. by rewrite <- HF.
  - intros u x Hx Hd. upd_cases; [congruence|eauto].
  - intros u Hx. destruct (decide (u = t)) as [->|]; [by right|]. rewrite lookup_insert_ne in Hx; auto.
Qed.

Lemma inv_list_thread F run dead (k : K) t i :
  inv F run dead k -> (t, Built i) ∈ F ->
  inv (F ∖ {[(t, Built i)]} ∪ {[(t, Listed i)]}) run dead (set_all_list (all_list k ++ [t]) k).
Proof.
  intros H Hin. destruct (inv_fresh _ _ _ _ H _ _ i Hin) as (Hti & Hta & x & Hx & Hs & Hnm); [auto|].
  assert (t ∉ all_list k) as Hnot by naive_solver.
  assert (forall u sg, u <> t -> (u, sg) ∈ F ∖ {[(t, Built i)]} ∪ {[(t, Listed i)]} <-> (u, sg) ∈ F) as HF.
  { intros u sg Hu. rewrite elem_of_union, elem_of_difference, !elem_of_singleton. naive_solver. }
  assert (forall sg, (t, sg) ∈ F ∖ {[(t, Built i)]} ∪ {[(t, Listed i)]} -> sg = Listed i) as HB.
  { intros sg. rewrite elem_of_union, elem_of_difference, !elem_of_singleton.
    intros [[Hi Hni]|E]; [|by simplify_eq].
    pose proof (inv_token _ _ _ _ H _ _ _ Hin Hi). subst. done. }
  inv_cases H.
  - intros s y u Hsx Hu. destruct (Hwait _ _ _ Hsx Hu) as (? & HuF & ?). split_and!; [done| |done].
    intros sg. rewrite HF; [done|]. intros ->. by eapply HuF.
  - intros a Ha. destruct (Halarm _ Ha) as (? & HuF & ?). split_and!; [done| |done].
    intros sg. rewrite HF; [done|]. intros E. rewrite E in HuF. by eapply HuF.
  - intros u sg j Hu Hsg. rewrite elem_of_app, list_elem_of_singleton.
    destruct (decide (u = t)) as [->|Hut].
    + apply HB in Hu as ->. assert (i = j) as <- by naive_solver.
      split_and!; [done|naive_solver|eauto].
    + apply HF in Hu; [|done]. destruct (Hfresh _ _ _ Hu Hsg) as (? & ? & ?).
      split_and!; [done| |done]. naive_solver.
  - intros u s1 s2 H1 H2. destruct (decide (u = t)) as [->|Hut];
      [by rewrite (HB _ H1), (HB _ H2)|]. apply HF in H1, H2; eauto.
  - intros u Hu. destruct (decide (u = t)) as [->|Hut]; [by apply HB in Hu|].
    apply HF in Hu; [|done]. by apply Hraw.
  - intros u Hu. destruct (decide (u = t)) as [->|Hut]; [by apply HB in Hu|].
    apply HF in Hu; [|done]. by apply Hnoi.
  - intros u [Hu| ->%list_elem_of_singleton]%elem_of_app; [eauto|]. exists x. split; [done|congruence].
  - apply NoDup_app. split_and!; [done| |apply NoDup_singleton].
    intros u Hu ->%list_elem_of_singleton. done.
  - intros u y Hy Hd Hu. rewrite elem_of_app, list_elem_of_singleton.
    destruct (decide (u = t)) as [->|Hut]; [by right|left]. eapply Hallc; eauto.
    intros j. by rewrite <- HF.
Qed.

(** The frame of [kernel_thread] says which function the new thread will run;
    the idle thread's function may be given once. *)
Lemma inv_set_function F run dead (k : K) t th th' i :
  inv F run dead k -> (t, Listed i) ∈ F -> threads k !! t = Some th ->
  status th' = status th -> priority th' = priority th -> magic th' = magic th ->
  name th' = name th ->
  (function th' = IDLE_FN -> i = true /\ (NULL, NoIdle) ∈ F) ->
  inv (if decide (function th' = IDLE_FN) then F ∖ {[(NULL, NoIdle)]} else F) run dead
    (set_threads (<[t := th']> (threads k)) k).
Proof.
  intros H Hin Ht Es Ep Em En Hidl.
  destruct (inv_fresh _ _ _ _ H _ _ i Hin) as (Hti & _ & y & Hy & _ & Hnm); [auto|].
  assert (y = th) as -> by congruence.
  assert (forall (Q : thread -> Prop) u,
    (Q th -> Q th') -> (exists x, threads k !! u = Some x /\ Q x) ->
    exists x, <[t := th']> (threads k) !! u = Some x /\ Q x) as Hex.
  { intros Q u HQ (x & Hx & Hq). destruct (decide (t = u)) as [<-|Hne].
    - simplify_eq. exists th'. rewrite lookup_insert_eq. auto.
    - exists x. by rewrite lookup_insert_ne. }
  set (F' := if decide _ then _ else F).
  assert (forall u sg, (u, sg) ∈ F' -> (u, sg) ∈ F) as HF.
  { intros u sg. unfold F'. case_decide; [|done]. set_solver. }
  assert (forall u sg, (u, sg) ∈ F -> sg <> NoIdle -> (u, sg) ∈ F') as HF'.
  { intros u sg Hu Hsg. unfold F'. case_decide; [|done]. apply elem_of_difference.
    split; [done|]. rewrite elem_of_singleton. congruence. }
  assert (forall u, (u, NoIdle) ∈ F' -> function th' <> IDLE_FN) as HnI.
  { intros u. unfold F'. case_decide as E; [|done].
    intros [Hi Hni]%elem_of_difference. destruct (inv_no_idle _ _ _ _ H _ Hi) as [-> _].
    exfalso. by apply Hni, elem_of_singleton. }
  inv_cases H.
  - by rewrite lookup_insert_ne by (intros ->; congruence).
  - intros u x Hx. upd_cases; [rewrite Em|]; eauto.
  - intros u x Hx. upd_cases; [rewrite Ep|]; eauto.
  - intros u x Hx. upd_cases; [rewrite Es|]; eauto.
  - intros u Hu. destruct (decide (t = u)) as [<-|]; rewrite ?lookup_insert_eq,
      ?lookup_insert_ne by done; eauto.
  - intros n l u Hl Hu. destruct (Hready _ _ _ Hl Hu) as [? Hx]. split; [done|].
    revert Hx. apply Hex. by rewrite Es, Ep.
  - intros u x Hx. upd_cases; [rewrite Es, Ep|]; eauto.
  - destruct Hidle as [?|(x & Hx & ?)]; [by left|right]. exists x. by rewrite lookup_insert_ne.
  - intros s x u Hs Hu. destruct (Hwait _ _ _ Hs Hu) as (? & ? & Hx).
    split_and!; [done|intros sg Hsg; by eapply H0, HF|]. revert Hx. apply Hex. by rewrite Es.
  - intros a Ha. destruct (Halarm _ Ha) as (? & ? & Hx).
    split_and!; [done|intros sg Hsg; by eapply H0, HF|]. revert Hx. apply Hex. by rewrite Es.
  - intros u sg j Hu Hsg. destruct (Hfresh _ _ _ (HF _ _ Hu) Hsg) as (? & ? & Hx).
    split_and!; [done..|]. revert Hx. apply Hex. by rewrite Es, En.
  - intros u s1 s2 H1%HF H2%HF. eauto.
  - intros u Hu. apply HF in Hu. rewrite lookup_insert_ne; [by apply Hraw|].
    intros ->. destruct (Hraw _ Hu). congruence.
  - intros u Hu. destruct (Hnoi _ (HF _ _ Hu)) as (? & ? & Hx). split_and!; [done..|].
    intros v x Hv. upd_cases; eauto.
  - intros t1 t2 x1 x2 H1 H2 F1 F2. upd_cases; [done|..|eauto].
    + destruct (Hidl F2) as [_ Hi]. destruct (Hnoi _ Hi) as (_ & _ & Hx).
      by destruct (Hx t1 x1).
    + destruct (Hidl F1) as [_ Hi]. destruct (Hnoi _ Hi) as (_ & _ & Hx).
      by destruct (Hx t2 x2).
  - intros u x Hx Hfx. upd_cases; [|eauto]. rewrite En. by apply Hnm, Hidl.
  - intros u Hu. apply Hall in Hu. revert Hu. apply Hex. by rewrite Es.
  - intros u x Hx Hd Hu. upd_cases.
    + rewrite Es in Hd. eapply Hallc; eauto; intros j Hb; by apply (Hu j), HF'.
    + eapply Hallc; eauto; intros j Hb; by apply (Hu j), HF'.
  - intros u x Hx. upd_cases; [rewrite Es|]; eauto.
  - intros u Hx. apply Hpool. destruct (decide (t = u)) as [<-|]; [by rewrite Ht|].
    by rewrite lookup_insert_ne in Hx.
Qed.

(** The idle thread introduces itself. *)
Lemma inv_set_idle F dead (k : K) t th :
  inv F (Some t) dead k -> threads k !! t = Some th -> function th = IDLE_FN ->
  inv F (Some t) dead (set_idle_thread t k).
Proof.
  intros H Ht Hf. pose proof (inv_run_status _ _ _ _ _ H Ht) as Hs.
  destruct (running_free _ _ _ _ _ H Ht) as [[Hu1 Hu2] HF].
  assert (forall u x, threads k !! u = Some x -> status x = THREAD_READY ->
    u <> t -> u <> idle_thread k) as Hold.
  { intros u x Hx Hr Hne ->. destruct (inv_idle _ _ _ _ H) as [E|(y & Hy & Hfy & _)].
    - rewrite E, (inv_null _ _ _ _ H) in Hx. done.
    - simplify_eq. eapply Hne, (inv_one_idle _ _ _ _ H); eauto. }
  inv_cases H.
  - intros n l u Hl Hu. destruct (Hready _ _ _ Hl Hu) as (? & x & ? & ? & ?). split; [|eauto].
    intros ->. congruence.
  - intros u x Hx Hr Hne. eauto.
  - right. exists th. split_and!; [done..|congruence].
  - intros s x u Hx Hu. destruct (Hwait _ _ _ Hx Hu) as (? & ? & ?). split_and!; [|done..].
    intros ->. by eapply Hu1.
  - intros a Ha. destruct (Halarm _ Ha) as (? & ? & ?). split_and!; [|done..].
    intros E. apply Hu2, list_elem_of_fmap. eauto.
  - intros u sg i Hu Hsg. destruct (Hfresh _ _ _ Hu Hsg) as (? & ? & ?). split_and!; [|done..].
    intros ->. by eapply HF.
  - intros u Hu. destruct (Hnoi _ Hu) as (_ & _ & Hx). by destruct (Hx _ _ Ht).
Qed.

(** A new thread is put in the ready queue. *)
Lemma inv_start F run dead (k : K) t th l i :
  inv F run dead k -> (t, Listed i) ∈ F -> threads k !! t = Some th ->
  status th = THREAD_BLOCKED -> ready_list k !! Z.to_nat (priority th) = Some l ->
  inv (F ∖ {[(t, Listed i)]}) run dead
    (set_threads (<[t := set_status THREAD_READY th]> (threads k))
      (set_ready_list (<[Z.to_nat (priority th) := l ++ [t]]> (ready_list k)) k)).
Proof.
  intros H Hin Ht Hs Hl.
  destruct (inv_fresh _ _ _ _ H _ _ i Hin) as (Hti & _ & _); [auto|].
  apply inv_enqueue; try done.
  - eapply inv_drop; [exact H|set_solver|]. intros u j Hu. apply elem_of_difference.
    split; [done|]. rewrite elem_of_singleton. congruence.
  - split.
    + intros s x Hx Hu. destruct (inv_wait _ _ _ _ H _ _ _ Hx Hu) as (_ & HF & _). by eapply HF.
    + intros (a & E & Ha)%list_elem_of_fmap.
      destruct (inv_alarm _ _ _ _ H _ Ha) as (_ & HF & _). rewrite <- E in HF. by eapply HF.
  - intros sg [Hi Hni]%elem_of_difference.
    pose proof (inv_token _ _ _ _ H _ _ _ Hin Hi). subst.
    by apply Hni, elem_of_singleton.
Qed.
End Create.
