(* ===== verification/ThreadSafe.v ===== *)
(** * Threads: the invariant in all reachable states

    [safe] says that whatever a thread does next, from any state that
    satisfies the invariant, leads to a state that satisfies it, while the
    other threads' construction work is left alone.  Every operation that
    thread.c, synch.c and timer.c offer is safe; a machine whose threads run
    safe code never leaves the invariant, however the timer interrupts it. *)

From S2P Require Import Prelude PageAlloc FixedPoint Code KernelState Thread ThreadInv.
From S2P Require Import ThreadSteps ThreadCreate.
From stdpp Require Import strings relations.
Local Open Scope Z_scope.

Section Safe.
Context {P : Type} {PA : PageAllocator P} (uninit : kernel P -> Z).
Local Notation K := (kernel P).
Implicit Types (ii : bool) (me t p n cv w : Z) (k : K) (s : sema_id) (l : lock_id).
Implicit Types own F X Y : gset token.
Implicit Types (nm : string) (v prio fn ax : Z).

(** What the action of thread [me], which owns the tokens [own], may do to the
    threads: it may build those it owns, take new pages, and disappear. *)
Definition touches (own own' : gset token) (me : Z) (k k' : K) : Prop :=
  (forall u, (forall sg, (u, sg) ∉ own) -> u <> me \/ is_Some (threads k' !! u) ->
    (fun th => (function th, aux th)) <$> threads k' !! u
    = (fun th => (function th, aux th)) <$> threads k !! u) /\
  (forall u sg, (u, sg) ∈ own' -> (exists sg', (u, sg') ∈ own) \/ threads k !! u = None).

(** The thread [me] runs the idle function iff [ii]. *)
Definition runs (ii : bool) (me : Z) (F : gset token) (k : K) : Prop :=
  inv F (Some me) None k /\ cur k = me /\
  exists th, threads k !! me = Some th /\ bool_decide (function th = IDLE_FN) = ii.

Definition act_post {B : Type} (own : gset token) (me : Z) (F : gset token) (k : K)
    (R : B -> gset token -> Prop) (b : B) (k' : K) : Prop :=
  exists own', own' ## F ∖ own /\ inv (F ∖ own ∪ own') (Some (cur k')) None k' /\
    touches own own' me k k' /\ R b own'.

Definition act_ok {B : Type} (ii : bool) (me : Z) (own : gset token) (m : M K B)
    (R : B -> gset token -> Prop) : Prop :=
  forall F k, own ⊆ F -> runs ii me F k -> wp m (act_post own me F k R) k.

Fixpoint safe {A : Type} (ii : bool) (me : Z) (c : code K A) (own : gset token)
    (Q : A -> gset token -> Prop) : Prop :=
  match c with
  | Ret a => Q a own
  | Act m k => act_ok ii me own m (fun b own' => safe ii me (k b) own' Q)
  | While m body k =>
      act_ok ii me own m
        (fun b own' => own' = own /\ (b = true \/ safe ii me k own Q)) /\
      safe ii me body own (fun _ own' => own' = own)
  end.

Lemma act_ok_mono {B : Type} ii me (own : gset token) (m : M K B) (R R' : B -> gset token -> Prop) :
  act_ok ii me own m R -> (forall b o, R b o -> R' b o) -> act_ok ii me own m R'.
Proof.
  intros H HR F k Hsub Hr. eapply wp_mono; [by apply H|].
  intros b k' (own' & ? & ? & ? & ?). exists own'. auto.
Qed.

Lemma safe_mono {A : Type} ii me (c : code K A) : forall (own : gset token) (Q Q' : A -> gset token -> Prop),
  safe ii me c own Q -> (forall a o, Q a o -> Q' a o) -> safe ii me c own Q'.
Proof.
  induction c as [A a|A B m k IH|A m body IHb k IH]; intros own Q Q' H HQ; cbn [safe] in *.
  - auto.
  - eapply act_ok_mono; [exact H|]. intros b o Hs. exact (IH b o Q Q' Hs HQ).
  - destruct H as (H1 & H2). split; [|done]. eapply act_ok_mono; [exact H1|].
    intros b o [-> [?|Hs]]; [auto|]. split; [done|right]. exact (IH own Q Q' Hs HQ).
Qed.

Lemma safe_bind {A B : Type} ii me (c : code K A) (f : A -> code K B) (own : gset token) Q :
  safe ii me c own (fun a o => safe ii me (f a) o Q) -> safe ii me (cbind c f) own Q.
Proof.
  revert own. induction c as [A a|A C m k IH|A m body IHb k IH]; intros own H; cbn [safe cbind] in *.
  - done.
  - eapply act_ok_mono; [exact H|]. intros b o Hs. by apply IH.
  - destruct H as (H1 & H2). split; [|done]. eapply act_ok_mono; [exact H1|].
    intros b o [-> [?|Hs]]; [auto|]. split; [done|right]. by apply IH.
Qed.

(** An action that leaves the tokens alone. *)
Lemma safe_act {B : Type} ii me (m : M K B) (own : gset token) (Q : B -> gset token -> Prop) :
  (forall F k, runs ii me F k ->
     wp m (fun b k' => (inv F (Some (cur k')) None k' /\ keeps_but me k k') /\ Q b own) k) ->
  safe ii me (act m) own Q.
Proof.
  intros H F k Hsub Hr. eapply wp_mono; [by apply H|]. intros b k' [[H1 H2] H3].
  exists own. split_and!; [set_solver| | |done].
  - by rewrite difference_union_L, (union_comm_L F), subseteq_union_1_L.
  - split; [|eauto]. intros u _ Hu. by apply H2.
Qed.

Lemma safe_while ii me (m : M K bool) (body : code K unit) (own : gset token) :
  (forall F k, runs ii me F k ->
     wp m (fun _ k' => inv F (Some (cur k')) None k' /\ keeps_but me k k') k) ->
  safe ii me body own (fun _ o => o = own) ->
  forall Q : unit -> gset token -> Prop, Q tt own -> safe ii me (while m body) own Q.
Proof.
  intros Hm Hb Q HQ. cbn [while safe]. split; [|done].
  apply (safe_act ii me m own (fun b o => o = own /\ (b = true \/ Q tt own))). intros F k Hr.
  eapply wp_mono; [by apply Hm|]. auto.
Qed.

Lemma runs_alive ii me F k :
  runs ii me F k -> inv F (Some (cur k)) None k /\ cur k = me.
Proof. by intros (H & <- & _). Qed.

Lemma runs_not_idle me F k : runs false me F k -> cur k <> idle_thread k.
Proof.
  intros (H & <- & th & Ht & Hf) E. apply bool_decide_eq_false in Hf.
  destruct (inv_idle _ _ _ _ H) as [E0|(x & Hx & ? & _)].
  - rewrite E, E0, (inv_null _ _ _ _ H) in Ht. done.
  - rewrite E in Ht. congruence.
Qed.

(** An action that looks, and changes at most fields that the invariant does
    not mention. *)
Ltac wp_auto := repeat first
  [ progress intros
  | wp_prim
  | progress unfold sema_up_test, lock_held_by_current_thread, tid_range, sema_try_down,
      fp_op, thread_unblock_test
  | apply wp_intr_get_level | apply wp_intr_context | apply wp_intr_disable
  | apply wp_intr_set_level | apply wp_get_holder | apply wp_put_holder
  | apply wp_get_sema | apply wp_thread_current | apply wp_thread_current_struct
  | apply wp_thread_top_priority | apply wp_get_thread | apply wp_timer_ticks
  | apply wp_timer_elapsed ].

Ltac irr := repeat first
  [ apply irr_level | apply irr_holders | apply irr_conds | apply irr_next_tid
  | apply irr_max_tid | apply irr_thread_ticks ].

Ltac quiet :=
  let F := fresh "F" in let k := fresh "k" in let Hr := fresh "Hr" in
  apply safe_act; intros F k Hr; destruct (runs_alive _ _ _ _ Hr) as [? <-];
  wp_auto; split; [split; [irr; assumption|by intros ? _]|].

(** ** The operations *)

Lemma safe_set_level me own ii (b : bool) (Q : bool -> gset token -> Prop) :
  (forall b', Q b' own) -> safe ii me (act (intr_set_level b)) own Q.
Proof. intros HQ. quiet. auto. Qed.

Lemma safe_intr_enable me own ii (Q : bool -> gset token -> Prop) :
  (forall b, Q b own) -> safe ii me (act intr_enable) own Q.
Proof. apply (safe_set_level me own ii true). Qed.

Lemma safe_timer_ticks me own ii (Q : Z -> gset token -> Prop) :
  (forall x, Q x own) -> safe ii me (act timer_ticks) own Q.
Proof. intros HQ. quiet. auto. Qed.

Lemma safe_thread_get_priority me own ii (Q : Z -> gset token -> Prop) :
  (forall x, Q x own) -> safe ii me (act thread_get_priority) own Q.
Proof. intros HQ. unfold thread_get_priority. quiet. auto. Qed.

Lemma safe_cond_init me own ii cv (Q : unit -> gset token -> Prop) :
  Q tt own -> safe ii me (act (cond_init cv)) own Q.
Proof. intros HQ. unfold cond_init, put_cond. by quiet. Qed.

Lemma safe_thread_yield me own ii (Q : unit -> gset token -> Prop) :
  Q tt own -> safe ii me thread_yield own Q.
Proof.
  intros HQ. apply safe_bind, safe_act. intros F k Hr.
  destruct (runs_alive _ _ _ _ Hr) as [H <-].
  eapply wp_mono; [by apply thread_yield_switch_ok|]. intros b k' Hk'. split; [done|].
  apply safe_bind, safe_set_level. done.
Qed.

Lemma safe_yield_if me own ii (b : bool) (Q : unit -> gset token -> Prop) :
  Q tt own -> safe ii me (if b then thread_yield else Ret tt) own Q.
Proof. intros HQ. destruct b; [by apply safe_thread_yield|done]. Qed.

Lemma safe_sema_up me own ii s (Q : unit -> gset token -> Prop) :
  Q tt own -> safe ii me (sema_up uninit s) own Q.
Proof.
  intros HQ. apply safe_bind, safe_act. intros F k Hr.
  destruct (runs_alive _ _ _ _ Hr) as [H <-].
  eapply wp_mono; [by apply sema_up_wake_ok|]. intros p k' (H1 & H2 & H3). split.
  - rewrite H3. split; [done|by apply keeps_but_of].
  - apply safe_bind. quiet. by apply safe_yield_if.
Qed.

Lemma safe_sema_down me own s (Q : unit -> gset token -> Prop) :
  Q tt own -> safe false me (sema_down s) own Q.
Proof.
  intros HQ. apply safe_bind. quiet. apply safe_bind, safe_while.
  - intros F' k' Hr'. destruct (runs_alive _ _ _ _ Hr') as [? <-]. wp_auto. by split.
  - apply safe_act. intros F' k' Hr'. pose proof (runs_not_idle _ _ _ Hr') as Hi.
    destruct (runs_alive _ _ _ _ Hr') as [? <-].
    eapply wp_mono; [by apply sema_wait_ok|]. done.
  - apply safe_bind, safe_act. intros F' k' Hr'. destruct (runs_alive _ _ _ _ Hr') as [H' <-].
    wp_auto. apply wp_put_sema. split.
    + split; [|by intros ? _]. apply inv_sema; [done|simpl; eauto|].
      simpl. by eapply (inv_wait_nodup _ _ _ _ H').
    + apply safe_bind, safe_set_level. done.
Qed.

Lemma safe_lock_acquire me own l (Q : unit -> gset token -> Prop) :
  Q tt own -> safe false me (lock_acquire l) own Q.
Proof. intros HQ. apply safe_bind. quiet. apply safe_bind, safe_sema_down. by quiet. Qed.

Lemma safe_lock_acquire_other me own l t (Q : unit -> gset token -> Prop) :
  Q tt own -> safe false me (lock_acquire_other l t) own Q.
Proof. intros HQ. apply safe_bind. quiet. apply safe_bind, safe_sema_down. by quiet. Qed.

Lemma safe_lock_release me own ii l (Q : unit -> gset token -> Prop) :
  Q tt own -> safe ii me (lock_release uninit l) own Q.
Proof. intros HQ. apply safe_bind. quiet. by apply safe_sema_up. Qed.

Lemma safe_thread_set_priority me own ii p (Q : unit -> gset token -> Prop) :
  PRI_MIN <= p <= PRI_MAX -> Q tt own -> safe ii me (thread_set_priority p) own Q.
Proof.
  intros Hp HQ. apply safe_bind, safe_act. intros F k Hr.
  destruct (runs_alive _ _ _ _ Hr) as [H <-].
  apply wp_bind, wp_thread_current. intros _ _ _. apply wp_upd_thread. intros th Ht. split.
  - split; [|apply keeps_but_of; by apply (keeps_upd k _ (cur k) th (set_priority p th))].
    apply inv_set_priority; [done..|]. left. pose proof (inv_run_status _ _ _ _ _ H Ht). congruence.
  - apply safe_bind. quiet. by apply safe_yield_if.
Qed.

Lemma safe_timer_sleep me own n (Q : unit -> gset token -> Prop) :
  Q tt own -> safe false me (timer_sleep n) own Q.
Proof.
  intros HQ. apply safe_bind. quiet. apply safe_bind. quiet.
  destruct (_ <? n); [|done]. apply safe_bind, safe_act. intros F' k' Hr'.
  pose proof (runs_not_idle _ _ _ Hr') as Hi. destruct (runs_alive _ _ _ _ Hr') as [? <-].
  eapply wp_mono; [by apply timer_sleep_block_ok|]. intros b k'' Hk''. split; [done|].
  apply safe_bind, safe_set_level. done.
Qed.

Lemma wp_get_cond cv (Q : list sema_id -> K -> Prop) k :
  (forall ws, Q ws k) -> wp (get_cond cv) Q k.
Proof.
  intros H. apply wp_bind, wp_get. destruct (conds k !! cv); [apply wp_ret; auto|apply wp_fault].
Qed.

Lemma safe_put_cond ii me own cv
    (f : list sema_id -> list sema_id) (Q : unit -> gset token -> Prop) :
  Q tt own -> safe ii me (act (ws <- get_cond cv;; put_cond cv (f ws))%c) own Q.
Proof.
  intros HQ. apply safe_act. intros F k Hr. destruct (runs_alive _ _ _ _ Hr) as [H <-].
  apply wp_bind, wp_get_cond. intros ws. apply wp_modify.
  split; [split; [by apply irr_conds|by intros ? _]|done].
Qed.

Lemma safe_cond_signal ii me own cv l (Q : unit -> gset token -> Prop) :
  Q tt own -> safe ii me (cond_signal uninit cv l) own Q.
Proof.
  intros HQ. apply safe_bind, safe_act. intros F k Hr.
  destruct (runs_alive _ _ _ _ Hr) as [H <-]. wp_auto. apply wp_get_cond. intros [|w ws].
  - apply wp_ret. split; [by split|done].
  - apply wp_bind, wp_modify, wp_ret.
    split; [split; [by apply irr_conds|by intros ? _]|by apply safe_sema_up].
Qed.

Lemma safe_cond_broadcast ii me own cv l (Q : unit -> gset token -> Prop) :
  Q tt own -> safe ii me (cond_broadcast uninit cv l) own Q.
Proof.
  intros HQ. apply safe_bind. quiet. apply safe_while; [|by apply safe_cond_signal|done].
  intros F' k' Hr'. destruct (runs_alive _ _ _ _ Hr') as [? <-].
  apply wp_bind, wp_get_cond. intros ws. apply wp_ret. by split.
Qed.

Lemma safe_lock_try_acquire me own l (Q : bool -> gset token -> Prop) :
  (forall b, Q b own) -> safe false me (lock_try_acquire l) own Q.
Proof.
  intros HQ. apply safe_bind. quiet. apply safe_bind, safe_act. intros F' k' Hr'.
  destruct (runs_alive _ _ _ _ Hr') as [H' <-].
  apply wp_bind, wp_assert. intros _. apply wp_bind, wp_intr_disable, wp_bind, wp_get_sema.
  intros x Hx. apply wp_bind.
  assert (forall b k1, inv F' (Some (cur k1)) None k1 -> keeps_but (cur k') k' k1 ->
    wp (intr_set_level (level k');;; ret b)
      (fun b k2 => (inv F' (Some (cur k2)) None k2 /\ keeps_but (cur k') k' k2) /\
        safe false (cur k') (act (if b : bool then t <- thread_current;; put_holder l t else ret tt)%c;;;
                       Ret b)%code own Q) k1) as Hrest.
  { intros b k1 Hk1 Hk. apply wp_bind, wp_intr_set_level. intros _. apply wp_ret.
    split; [split; [by apply irr_level|done]|]. apply safe_bind. destruct b; quiet; apply HQ. }
  destruct (value x >? 0).
  - apply wp_bind, wp_put_sema, wp_ret. apply Hrest; [|by intros ? _].
    apply inv_sema; [by apply irr_level|simpl; eauto|]. simpl.
    by eapply (inv_wait_nodup _ _ _ _ H').
  - apply wp_ret. apply Hrest; [by apply irr_level|by intros ? _].
Qed.

Lemma safe_thread_set_nice ii me own n (Q : unit -> gset token -> Prop) :
  Q tt own -> safe ii me (thread_set_nice n) own Q.
Proof.
  intros HQ. apply safe_bind, safe_act. intros F k Hr.
  destruct (runs_alive _ _ _ _ Hr) as [H <-]. apply wp_bind, wp_assert. intros _.
  apply wp_bind, wp_thread_current. intros _ _ _. apply wp_upd_thread. intros th Ht. split.
  { split; [by apply (inv_upd_data _ _ _ _ _ th)|].
    apply keeps_but_of. by apply (keeps_upd k _ (cur k) th (set_nice n th)). }
  apply safe_bind, safe_act. intros F' k' Hr'. destruct (runs_alive _ _ _ _ Hr') as [H' E'].
  apply wp_bind, wp_thread_current. intros _ _ _. apply wp_bind, wp_get_thread. intros x Hx.
  apply wp_bind, wp_fp_op, wp_bind, wp_lift. intros p Hp%BSD_priority_range.
  apply wp_upd_thread. intros y Hy. assert (y = x) as -> by congruence. split.
  { split; [|apply keeps_but_of; by apply (keeps_upd k' _ (cur k') x (set_priority p x))].
    apply inv_set_priority; [done..|]. left. pose proof (inv_run_status _ _ _ _ _ H' Hx). congruence. }
  apply safe_bind. rewrite <- E'. quiet. by apply safe_yield_if.
Qed.

(** ** Creating a thread *)

(** An action that consumes the tokens [X] of the thread and produces new
    ones. *)
Lemma safe_act_gen {B : Type} ii me (m : M K B) own X (Q : B -> gset token -> Prop) :
  X ⊆ own ->
  (forall F k, own ⊆ F -> runs ii me F k ->
     wp m (fun b k' => exists Y, Y ## F /\ inv (F ∖ X ∪ Y) (Some (cur k')) None k' /\
             touches own (own ∖ X ∪ Y) me k k' /\ Q b (own ∖ X ∪ Y)) k) ->
  safe ii me (act m) own Q.
Proof.
  intros HX H F k Hsub Hr. eapply wp_mono; [by apply H|].
  intros b k' (Y & HY & Hi & Ht & HQ). exists (own ∖ X ∪ Y). split_and!; [set_solver| |done|done].
  replace (F ∖ own ∪ (own ∖ X ∪ Y)) with (F ∖ X ∪ Y); [done|].
  apply set_eq. intros x. rewrite !elem_of_union, !elem_of_difference.
  destruct (decide (x ∈ own)); destruct (decide (x ∈ X)); set_solver.
Qed.

Lemma safe_sema_init ii me own s v (Q : unit -> gset token -> Prop) :
  Q tt own -> safe ii me (act (sema_init s v)) own Q.
Proof.
  intros HQ. apply safe_act. intros F k Hr. destruct (runs_alive _ _ _ _ Hr) as [H <-].
  apply wp_bind, wp_assert. intros _. apply wp_put_sema. split; [|done].
  split; [|by intros ? _]. apply inv_sema; [done| |constructor]. by intros u ?%elem_of_nil.
Qed.

Lemma safe_lock_init ii me own l (Q : unit -> gset token -> Prop) :
  Q tt own -> safe ii me (act (lock_init l)) own Q.
Proof.
  intros HQ. apply safe_act. intros F k Hr. destruct (runs_alive _ _ _ _ Hr) as [H <-].
  apply wp_bind, wp_assert. intros _. apply wp_bind, wp_modify.
  apply wp_bind, wp_assert. intros _. apply wp_put_sema. split; [|done].
  split; [|by intros ? _]. apply inv_sema; [by apply irr_holders| |constructor].
  by intros u ?%elem_of_nil.
Qed.

Lemma safe_allocate_tid me own (Q : Z -> gset token -> Prop) :
  (forall i, Q i own) -> safe false me (allocate_tid uninit) own Q.
Proof.
  intros HQ. apply safe_bind, safe_lock_acquire, safe_bind. quiet.
  apply safe_bind, safe_lock_release. by apply HQ.
Qed.

(** Members of a thread that the scheduler does not look at. *)
Lemma safe_upd_data ii me own t (f : thread -> thread) (Q : unit -> gset token -> Prop) :
  (forall th, same_sched th (f th) /\ aux (f th) = aux th) -> Q tt own ->
  safe ii me (act (upd_thread t f)) own Q.
Proof.
  intros Hf HQ. apply safe_act. intros F k Hr. destruct (runs_alive _ _ _ _ Hr) as [H <-].
  apply wp_upd_thread. intros th Ht. destruct (Hf th) as [Hs Ha]. split; [|done].
  split; [by eapply inv_upd_data|]. apply keeps_but_of.
  destruct Hs as (_ & _ & _ & Hfn & _). by apply (keeps_upd k _ t th (f th)).
Qed.

Definition called_idle (nm : string) : bool :=
  bool_decide (String.substring 0 15 nm = "idle").

Lemma wp_init_thread_members t nm prio (Q : unit -> K -> Prop) k :
  (forall th, status th = THREAD_BLOCKED -> magic th = THREAD_MAGIC ->
     PRI_MIN <= priority th <= PRI_MAX -> function th = NULL -> name th = String.substring 0 15 nm ->
     Q tt (set_threads (<[t := th]> (threads k)) k)) ->
  wp (init_thread_members t nm prio) Q k.
Proof.
  intros H. apply wp_bind, wp_assert. intros _. apply wp_bind, wp_assert.
  intros [Hp1%Z.leb_le Hp2%Z.leb_le]%andb_true_iff. apply wp_bind, wp_gets.
  assert (forall nc rc, wp (now <- timer_ticks;;
      modify (fun k => set_threads
        (<[t := set_recent_unused now (set_nice nc (set_recent_cpu rc (blank_thread nm t prio)))]>
           (threads k)) k)) Q k) as Hrest.
  { intros nc rc. apply wp_bind, wp_timer_ticks, wp_modify. by apply H. }
  apply wp_bind. destruct (thread_mlfqs k).
  - destruct (String.eqb "main" nm); [apply wp_ret, Hrest|].
    apply wp_bind, wp_thread_current_struct. intros x _ _. apply wp_ret, Hrest.
  - apply wp_ret. apply wp_bind, wp_timer_ticks, wp_modify. by apply H.
Qed.

(** [init_thread] takes the page to the list of all threads. *)
Lemma safe_init_thread me own t nm prio (Q : unit -> gset token -> Prop) :
  (t, Raw) ∈ own -> (t, Listed (called_idle nm)) ∉ own ->
  Q tt (own ∖ {[(t, Raw)]} ∪ {[(t, Listed (called_idle nm))]}) ->
  safe false me (init_thread t nm prio) own Q.
Proof.
  intros Hraw Hnot HQ. set (i := called_idle nm) in *.
  apply safe_bind, (safe_act_gen _ _ _ _ {[(t, Raw)]}); [set_solver|].
  intros F k Hsub Hr. destruct (runs_alive _ _ _ _ Hr) as [H <-].
  assert ((t, Built i) ∉ F) as HB.
  { intros Hin. by pose proof (inv_token _ _ _ _ H _ _ _ (Hsub _ Hraw) Hin). }
  apply wp_init_thread_members. intros th Hs Hm Hp Hf Hn. exists {[(t, Built i)]}. split_and!.
  - set_solver.
  - apply inv_build; try done; [by apply Hsub|by rewrite Hf|].
    intros E. rewrite Hn. by apply bool_decide_eq_true in E.
  - split.
    + intros u Hu _. cbn. rewrite lookup_insert_ne; [done|]. intros ->. by eapply Hu.
    + intros u sg. rewrite elem_of_union, elem_of_difference, !elem_of_singleton.
      intros [[? _]|[= -> ->]]; eauto.
  - set (own1 := own ∖ {[(t, Raw)]} ∪ {[(t, Built i)]}).
    do 4 (apply safe_bind, safe_lock_init). do 3 (apply safe_bind, safe_lock_acquire_other).
    apply (safe_act_gen _ _ _ _ {[(t, Built i)]}); [set_solver|].
    intros F' k' Hsub' Hr'. destruct (runs_alive _ _ _ _ Hr') as [H' <-].
    assert ((t, Built i) ∈ F') as Hin' by set_solver.
    apply wp_modify. exists {[(t, Listed i)]}. split_and!.
    + apply disjoint_singleton_l. intros Hin.
      by pose proof (inv_token _ _ _ _ H' _ _ _ Hin' Hin).
    + by apply inv_list_thread.
    + split; [by intros u _ _|]. intros u sg.
      rewrite elem_of_union, elem_of_difference, !elem_of_singleton.
      intros [[? _]|[= -> ->]]; [eauto|]. left. exists (Built i). set_solver.
    + replace (own1 ∖ {[(t, Built i)]} ∪ {[(t, Listed i)]})
        with (own ∖ {[(t, Raw)]} ∪ {[(t, Listed i)]}); [done|].
      assert ((t, Built i) ∉ own) by (intros Hin; by apply HB, Hsub).
      apply set_eq. intros x. unfold own1. set_solver.
Qed.

Lemma wp_alloc_frame t size (Q : Z -> K -> Prop) k :
  (forall th v, threads k !! t = Some th ->
     Q v (set_threads (<[t := set_stack (u32 (stack th - size)) th]> (threads k)) k)) ->
  wp (alloc_frame t size) Q k.
Proof.
  intros H. apply wp_bind, wp_is_thread; [intros _; by apply wp_bind, wp_assert|].
  intros x _ _. apply wp_bind, wp_assert. intros _. apply wp_bind, wp_assert. intros _.
  apply wp_bind, wp_upd_thread. intros th Ht. apply wp_bind, wp_get_thread. intros th' Ht'.
  apply wp_ret, H, Ht.
Qed.

(** The right to create the idle thread, when the new thread is to run
    [idle]. *)
Definition idle_right (fn : Z) : gset token :=
  if decide (fn = IDLE_FN) then {[(NULL, NoIdle)]} else ∅.

Definition push_frames (t fn ax : Z) : M K bool :=
  old_level <- intr_disable;;
  alloc_frame t KERNEL_THREAD_FRAME;;;
  upd_thread t (fun th => set_function fn (set_aux ax th));;;
  alloc_frame t SWITCH_ENTRY_FRAME;;;
  alloc_frame t SWITCH_THREADS_FRAME;;;
  intr_set_level old_level.

Lemma push_frames_safe me own t fn ax (i : bool) (Q : bool -> gset token -> Prop) :
  (t, Listed i) ∈ own -> idle_right fn ⊆ own -> (fn = IDLE_FN -> i = true) ->
  (forall b, Q b (own ∖ idle_right fn)) ->
  safe false me (act (push_frames t fn ax)) own Q.
Proof.
  intros Hin Hid Hname HQ. apply (safe_act_gen _ _ _ _ (idle_right fn)); [done|].
  intros F k Hsub Hr. destruct (runs_alive _ _ _ _ Hr) as [H <-].
  apply wp_bind, wp_intr_disable. set (k0 := set_level _ k).
  assert (inv F (Some (cur k0)) None k0) as H0 by (by apply irr_level).
  apply wp_bind, wp_alloc_frame. intros th _ Ht.
  apply wp_bind, wp_upd_thread. intros th1 Ht1. cbn in Ht1. rewrite lookup_insert_eq in Ht1.
  apply wp_bind, wp_alloc_frame. intros th2 _ Ht2. cbn in Ht2. rewrite lookup_insert_eq in Ht2.
  apply wp_bind, wp_alloc_frame. intros th3 _ Ht3. cbn in Ht3. rewrite lookup_insert_eq in Ht3.
  apply wp_intr_set_level. intros b. cbn [threads set_threads]. rewrite !insert_insert_eq.
  injection Ht1 as <-. injection Ht2 as <-. injection Ht3 as <-.
  match goal with |- context [<[t := ?x]> _] => set (th' := x) end.
  exists ∅. rewrite !union_empty_r_L. split_and!; [set_solver| | |done].
  - apply irr_level.
    pose proof (inv_set_function F (Some (cur k0)) None k0 t th th' i H0 (Hsub _ Hin) Ht
      eq_refl eq_refl eq_refl eq_refl) as Hf.
    change (function th') with fn in Hf. unfold idle_right in *.
    destruct (decide (fn = IDLE_FN)) as [E|E].
    + apply Hf. intros _. split; [auto|]. apply Hsub, Hid. by apply elem_of_singleton.
    + rewrite difference_empty_L. by apply Hf.
  - split.
    + intros u Hu _. cbn. rewrite lookup_insert_ne; [done|]. intros ->. by eapply Hu.
    + intros u sg [? _]%elem_of_difference. eauto.
Qed.

Lemma safe_unblock_new me own t (i : bool) (Q : unit -> gset token -> Prop) :
  (t, Listed i) ∈ own -> Q tt (own ∖ {[(t, Listed i)]}) ->
  safe false me (thread_unblock t) own Q.
Proof.
  intros Hin HQ. apply safe_bind, (safe_act_gen _ _ _ _ {[(t, Listed i)]}); [set_solver|].
  intros F k Hsub Hr. destruct (runs_alive _ _ _ _ Hr) as [H <-].
  apply wp_thread_unblock_enqueue. intros th l p Ht Hs Hl.
  exists ∅. rewrite !union_empty_r_L. split_and!; [set_solver| | |].
  - apply inv_start; try done. by apply Hsub.
  - split; [|intros u sg [? _]%elem_of_difference; eauto].
    intros u Hu _. cbn. rewrite lookup_insert_ne; [done|]. intros ->. by eapply Hu.
  - apply safe_bind. quiet. by apply safe_yield_if.
Qed.

Lemma safe_thread_create me own nm prio fn ax (Q : Z -> gset token -> Prop) :
  idle_right fn ⊆ own -> (fn = IDLE_FN -> called_idle nm = true) ->
  (forall i o, o = own \/ o = own ∖ idle_right fn -> Q i o) ->
  safe false me (thread_create uninit nm prio fn ax) own Q.
Proof.
  intros Hid Hname HQ. apply safe_bind, (safe_act_gen _ _ _ _ ∅); [set_solver|].
  intros F k Hsub Hr. destruct (runs_alive _ _ _ _ Hr) as [H <-].
  apply wp_bind, wp_assert. intros _. apply wp_bind, wp_gets. rewrite !difference_empty_L.
  destruct (pa_get false (pool k)) as [[t p]|] eqn:Eg; cycle 1.
  { apply wp_ret. exists ∅. rewrite !union_empty_r_L. split_and!; [set_solver|done| |].
    - split; [by intros|eauto].
    - cbn. apply HQ. by left. }
  destruct (inv_get_page _ _ _ _ _ _ _ H Eg) as (H1 & Hnone & HF).
  apply wp_bind, wp_modify, wp_ret. exists {[(t, Raw)]}. split_and!; [|done|..].
  - apply disjoint_singleton_l, HF.
  - split; [by intros|]. intros u sg [?|[= -> ->]%elem_of_singleton]%elem_of_union; eauto.
  - destruct (Z.eqb_spec t NULL); [cbn; subst t|].
    { exfalso. by destruct (pa_get_aligned _ _ _ _ (inv_pool_wf _ _ _ _ H) Eg). }
    assert (forall sg, (t, sg) ∉ own) as Hown by (intros sg Hin; by eapply HF, Hsub).
    clear -Hid Hname HQ Hown. set (i := called_idle nm) in *.
    apply safe_bind, safe_init_thread; [set_solver|set_solver|]. fold i.
    assert ((own ∪ {[(t, Raw)]}) ∖ {[(t, Raw)]} ∪ {[(t, Listed i)]} = own ∪ {[(t, Listed i)]}) as ->
      by (apply set_eq; intros x; set_solver).
    apply safe_bind, safe_allocate_tid. intros id. apply safe_bind, safe_upd_data; [done|].
    apply safe_bind, (push_frames_safe _ _ _ _ _ i); [set_solver|set_solver|done|]. intros b.
    assert ((own ∪ {[(t, Listed i)]}) ∖ idle_right fn = own ∖ idle_right fn ∪ {[(t, Listed i)]}) as ->.
    { apply set_eq. intros x. unfold idle_right. case_decide; set_solver. }
    apply safe_bind, (safe_unblock_new _ _ _ i); [set_solver|]. cbn.
    assert ((own ∖ idle_right fn ∪ {[(t, Listed i)]}) ∖ {[(t, Listed i)]} = own ∖ idle_right fn) as ->
      by (apply set_eq; intros x; set_solver).
    apply HQ. by right.
Qed.

Lemma safe_cond_wait me own cv l w (Q : unit -> gset token -> Prop) :
  Q tt own -> safe false me (cond_wait uninit cv l w) own Q.
Proof.
  intros HQ. apply safe_bind. quiet. apply safe_bind, safe_sema_init.
  apply safe_bind, (safe_put_cond _ _ _ cv (fun ws => ws ++ [SemaAt w])).
  apply safe_bind, safe_lock_release, safe_bind, safe_sema_down. by apply safe_lock_acquire.
Qed.

(** ** Leaving, and the idle thread *)

(** The last action of a thread. *)
Definition exit_switch : M K unit :=
  c <- thread_current;;
  modify (fun k => set_all_list (remove_elem c (all_list k)) k);;;
  upd_thread c (set_status THREAD_DYING);;;
  schedule.

Lemma safe_exit_switch me own (Q : unit -> gset token -> Prop) :
  safe false me (act exit_switch;;; act panic)%code own Q.
Proof.
  apply safe_bind, safe_act. intros F k Hr. pose proof (runs_not_idle _ _ _ Hr) as Hi.
  destruct (runs_alive _ _ _ _ Hr) as [H <-].
  apply wp_bind, wp_thread_current. intros _ _ _. apply wp_bind, wp_modify.
  apply wp_bind, wp_upd_thread. intros th Ht. cbn in Ht.
  eapply wp_mono; [apply (schedule_ok F (Some (cur k)) _ (set_status THREAD_DYING th))|].
  - cbn. by rewrite lookup_insert_eq.
  - exact (inv_die F k (cur k) th H Ht Hi).
  - by right.
  - intros _ k' [G1 G2]. split; [split; [done|]|].
    + eapply keeps_but_trans_l; [|exact G2].
      by apply (keeps_upd k _ (cur k) th (set_status THREAD_DYING th)).
    + intros F' k2 _ _. apply wp_panic.
Qed.

Lemma safe_exit_rest me own t (Q : unit -> gset token -> Prop) :
  safe false me (soon <- act (th <- thread_current_struct;; ret (exit_soon th))%c;;
     (if (soon : bool) then Ret tt else lock_acquire (LockExit t));;;
     act intr_disable;;; lock_release uninit (LockExit2 t);;;
     act exit_switch;;; act panic)%code own Q.
Proof.
  assert (forall me', safe false me' (act intr_disable;;; lock_release uninit (LockExit2 t);;;
     act exit_switch;;; act panic)%code own Q) as Hlast.
  { intros me'. apply safe_bind. quiet. apply safe_bind, safe_lock_release, safe_exit_switch. }
  apply safe_bind. quiet. apply safe_bind.
  destruct (exit_soon _); [apply Hlast|]. apply safe_lock_acquire, Hlast.
Qed.

Lemma safe_thread_exit me own (Q : unit -> gset token -> Prop) :
  safe false me (thread_exit uninit) own Q.
Proof.
  apply safe_bind. quiet. apply safe_bind. quiet. apply safe_bind.
  match goal with |- safe _ _ (if ?b then _ else _) _ _ => destruct b end;
    [apply safe_lock_release|]; apply safe_bind, safe_lock_release, safe_exit_rest.
Qed.

Lemma safe_idle me ax (Q : unit -> gset token -> Prop) :
  safe true me (idle uninit ax) ∅ Q.
Proof.
  apply safe_bind, safe_act. intros F k Hr.
  destruct Hr as (H & <- & th & Ht & Hf%bool_decide_eq_true).
  apply wp_bind, wp_thread_current. intros _ _ _. apply wp_modify. split.
  { split; [by eapply inv_set_idle|by intros ? _]. }
  apply safe_bind, safe_sema_up. split.
  - apply (safe_act true (cur k) (ret true) ∅ (fun b o => o = ∅ /\ (b = true \/ Q tt ∅))).
    intros F' k' Hr'. destruct (runs_alive _ _ _ _ Hr') as [H' E']. apply wp_ret.
    split; [by split|auto].
  - apply safe_bind. quiet. apply safe_bind, safe_act. intros F' k' Hr'.
    destruct (runs_alive _ _ _ _ Hr') as [H' <-].
    eapply wp_mono; [by apply thread_idle_block_ok|]. intros ? k'' Hk''. split; [done|].
    by quiet.
Qed.

(** ** The machine *)

Context (entry : Z -> Z -> code K unit).

(** The functions that threads run only use the safe operations. *)
Definition clients_safe : Prop :=
  forall fn ax me, fn <> IDLE_FN -> safe false me (entry fn ax) ∅ (fun _ o => o = ∅).

Definition proc : processor K := kernel_processor entry uninit.

(** The invariant of the machine: besides the kernel's, that what every thread
    will do next is safe, given the threads that it is building. *)
Definition machine_inv (m : machine K) : Prop :=
  exists F (owns : Z -> gset token),
    inv F (Some (cur (kst m))) None (kst m) /\
    (forall t, owns t ⊆ F) /\
    (forall t1 t2, t1 <> t2 -> owns t1 ## owns t2) /\
    (forall t, conts m !! t = None -> owns t = ∅) /\
    (forall t c, conts m !! t = Some c ->
       (forall sg, (t, sg) ∉ F) /\
       exists th, threads (kst m) !! t = Some th /\
         safe (bool_decide (function th = IDLE_FN)) t c (owns t) (fun _ _ => True)).

Lemma kernel_thread_safe fn ax me :
  clients_safe ->
  safe (bool_decide (fn = IDLE_FN)) me (kernel_thread entry uninit fn ax) ∅ (fun _ _ => True).
Proof.
  intros Hc. apply safe_bind, safe_act. intros F k Hr.
  destruct (runs_alive _ _ _ _ Hr) as [H <-].
  apply wp_bind, wp_assert. intros _. apply (wp_intr_set_level true). intros b.
  split; [split; [by apply irr_level|by intros ? _]|]. apply safe_bind.
  destruct (Z.eqb_spec fn IDLE_FN) as [->|Hne].
  - rewrite bool_decide_true by done. apply safe_idle.
  - rewrite bool_decide_false by done. eapply safe_mono; [by apply Hc|].
    intros ? ? ->. apply safe_thread_exit.
Qed.

(** What the running thread does next, and what it owns. *)
Lemma resume_safe m F owns :
  clients_safe -> inv F (Some (cur (kst m))) None (kst m) ->
  (forall t, conts m !! t = None -> owns t = ∅) ->
  (forall t c, conts m !! t = Some c -> exists th, threads (kst m) !! t = Some th /\
     safe (bool_decide (function th = IDLE_FN)) t c (owns t) (fun _ _ => True)) ->
  exists ii, runs ii (cur (kst m)) F (kst m) /\
    safe ii (cur (kst m)) (resume proc m) (owns (cur (kst m))) (fun _ _ => True).
Proof.
  intros Hc H Hnone Hsome. destruct (inv_run_alive _ _ _ _ H _ eq_refl) as [th Ht].
  exists (bool_decide (function th = IDLE_FN)). split; [by split_and!; eauto|].
  unfold resume. cbn [running proc kernel_processor].
  destruct (conts m !! cur (kst m)) as [c|] eqn:E; simpl.
  - destruct (Hsome _ _ E) as (x & Hx & Hs). by simplify_eq.
  - rewrite Ht, (Hnone _ E). by apply kernel_thread_safe.
Qed.

(** The tokens of another thread, when [own] is replaced by [own']. *)
Lemma others_kept F own (own' X : gset token) :
  X ⊆ F -> X ## own -> X ⊆ F ∖ own ∪ own'.
Proof. set_solver. Qed.

Lemma others_disjoint F own (own' X : gset token) :
  X ⊆ F -> X ## own -> own' ## F ∖ own -> own' ## X.
Proof. set_solver. Qed.

(** One action of the running thread: the thread goes on with [c]. *)
Lemma suspend_inv m F owns ii k' own' c :
  inv F (Some (cur (kst m))) None (kst m) -> runs ii (cur (kst m)) F (kst m) ->
  (forall t, owns t ⊆ F) -> (forall t1 t2, t1 <> t2 -> owns t1 ## owns t2) ->
  (forall t, conts m !! t = None -> owns t = ∅) ->
  (forall t c, conts m !! t = Some c -> (forall sg, (t, sg) ∉ F) /\
     exists th, threads (kst m) !! t = Some th /\
       safe (bool_decide (function th = IDLE_FN)) t c (owns t) (fun _ _ => True)) ->
  let me := cur (kst m) in
  own' ## F ∖ owns me -> inv (F ∖ owns me ∪ own') (Some (cur k')) None k' ->
  touches (owns me) own' me (kst m) k' ->
  safe ii me c own' (fun _ _ => True) ->
  machine_inv (suspend proc me c k' (conts m)).
Proof.
  intros H Hr Hsub Hdis Hnone Hsome me Hd' H' [Ht1 Ht2] Hsafe.
  destruct Hr as (_ & _ & th & Ht & Hii). fold me in Ht.
  destruct (running_free _ _ _ _ _ H Ht) as [_ Hfree].
  assert (forall t, is_Some (threads (kst m) !! t) -> (forall sg, (t, sg) ∉ F) ->
    forall sg, (t, sg) ∉ F ∖ owns me ∪ own') as Hfree'.
  { intros t [x Hx] HF sg [[? _]%elem_of_difference|Hin]%elem_of_union; [by eapply HF|].
    destruct (Ht2 _ _ Hin) as [(sg' & Hin')|?]; [|congruence]. by eapply HF, Hsub. }
  set (alive_me := bool_decide (is_Some (threads k' !! me))).
  exists (F ∖ owns me ∪ own'), (fun t => if decide (t = me) then if alive_me then own' else ∅ else owns t).
  unfold suspend. cbn [kst conts alive proc kernel_processor]. fold alive_me.
  split_and!; [done| | | |].
  - intros t. destruct (decide (t = me)) as [E|E]; [|exact (others_kept _ _ _ _ (Hsub t) (Hdis _ _ E))].
    destruct alive_me; [apply union_subseteq_r|apply empty_subseteq].
  - intros t1 t2 Hne. destruct (decide (t1 = me)) as [E1|E1], (decide (t2 = me)) as [E2|E2].
    + congruence.
    + destruct alive_me; [|apply disjoint_empty_l].
      exact (others_disjoint _ _ _ _ (Hsub t2) (Hdis _ _ E2) Hd').
    + symmetry. destruct alive_me; [|apply disjoint_empty_l].
      exact (others_disjoint _ _ _ _ (Hsub t1) (Hdis _ _ E1) Hd').
    + by apply Hdis.
  - intros t. destruct alive_me, (decide (t = me)) as [->|E];
      rewrite ?lookup_insert_eq, ?lookup_delete_eq, ?lookup_insert_ne, ?lookup_delete_ne by done; try done; auto.
  - intros t c'. destruct (decide (t = me)) as [->|Hne]; rewrite ?decide_True, ?decide_False by done.
    + destruct alive_me eqn:Ea; [|by rewrite lookup_delete_eq]. rewrite lookup_insert_eq.
      intros [= <-]. split; [by apply Hfree'; eauto|].
      apply bool_decide_eq_true in Ea. 
      specialize (Ht1 me (fun sg Hin => Hfree sg (Hsub me _ Hin)) (or_intror Ea)).
      destruct Ea as [x Hx]. rewrite Hx, Ht in Ht1. simpl in Ht1. exists x. split; [done|].
      by replace (function x) with (function th) by congruence; rewrite Hii.
    + intros Hc'. assert (conts m !! t = Some c') as Hct
        by (destruct alive_me; [rewrite lookup_insert_ne in Hc'|rewrite lookup_delete_ne in Hc']; done).
      destruct (Hsome _ _ Hct) as (HF & x & Hx & Hsx). split; [apply Hfree'; eauto|].
      assert (forall sg, (t, sg) ∉ owns me) as Hno by (intros sg Hin; by eapply HF, Hsub).
      specialize (Ht1 t Hno (or_introl Hne)). rewrite Hx in Ht1.
      destruct (threads k' !! t) as [y|] eqn:Ey; simplify_eq/=. exists y. split; [done|].
      by replace (function y) with (function x) by congruence.
Qed.

Lemma cpu_step_inv m m' :
  clients_safe -> machine_inv m -> cpu_step proc m = Ok m' -> machine_inv m'.
Proof.
  intros Hc (F & owns & H & Hsub & Hdis & Hnone & Hsome).
  destruct (resume_safe m F owns Hc H Hnone) as (ii & Hr & Hs);
    [intros t c Hct; by destruct (Hsome _ _ Hct)|].
  unfold cpu_step. cbn [running proc kernel_processor]. fold proc.
  destruct (resume proc m) as [a|B a k|a body k]; [done|..];
    intros ([b k'] & Hb & [= <-])%res_bind_inv; cbn [fst snd].
  - pose proof (wp_ok _ _ _ _ _ (Hs F (kst m) (Hsub _) Hr) Hb) as (own' & ? & ? & ? & ?).
    by eapply suspend_inv.
  - destruct Hs as [Hs1 Hs2].
    pose proof (wp_ok _ _ _ _ _ (Hs1 F (kst m) (Hsub _) Hr) Hb) as (own' & ? & ? & ? & -> & Hk).
    eapply suspend_inv; eauto. destruct b.
    + apply safe_bind. eapply safe_mono; [exact Hs2|]. intros [] ? ->. by split.
    + by destruct Hk.
Qed.

Lemma irq_step_inv m m' :
  clients_safe -> machine_inv m -> irq_step proc m = Ok m' -> machine_inv m'.
Proof.
  intros Hc HM. pose proof HM as (F & owns & H & Hsub & Hdis & Hnone & Hsome).
  destruct (resume_safe m F owns Hc H Hnone) as (ii & Hr & Hs);
    [intros t c Hct; by destruct (Hsome _ _ Hct)|].
  unfold irq_step. cbn [running irq_enabled irq irq_yield proc kernel_processor]. fold proc.
  destruct (level (kst m)); [|by intros [= <-]].
  intros ([b k'] & Hb & [= <-])%res_bind_inv; cbn [fst snd].
  pose proof (wp_ok _ _ _ _ _ (timer_irq_ok F _ None _ H) Hb) as (H' & Hk & Ec).
  eapply (suspend_inv m F owns ii k' (owns (cur (kst m)))); eauto.
  - set_solver.
  - rewrite Ec. by rewrite difference_union_L, (union_comm_L F), subseteq_union_1_L.
  - split; [intros u _ _; apply Hk|eauto].
  - destruct b; [|done].
    change (Act thread_yield_switch _) with (cbind irq_return (fun _ => resume proc m)).
    apply safe_bind, (safe_bind _ _ thread_yield), safe_thread_yield, safe_act.
    intros F' k2 Hr2. destruct (runs_alive _ _ _ _ Hr2) as [H2 _]. apply wp_modify.
    split; [split; [by apply irr_level|by intros ? _]|done].
Qed.

Lemma machine_inv_reachable m0 m :
  clients_safe -> machine_inv m0 -> reachable proc m0 m -> machine_inv m.
Proof.
  intros Hc H0. induction 1 as [|m1 m2 m3 Hs _ IH]; [done|]. apply IH.
  destruct Hs; [by eapply cpu_step_inv|by eapply irq_step_inv].
Qed.
End Safe.
