(* ===== verification/ThreadBoot.v ===== *)
(** * Threads: client programs and start-up

    The programs that run on the thread system, as sequences of calls of its
    interface, and the initialisation of the system: [thread_init], from the
    state in which the loader leaves the kernel, ends and establishes the
    invariant of the scheduler. *)

From S2P Require Import Prelude PageAlloc FixedPoint Code KernelState Thread ThreadInv.
From S2P Require Import ThreadSteps ThreadCreate ThreadSafe.
From stdpp Require Import strings.
Local Open Scope Z_scope.

Section Boot.
Context {P : Type} {PA : PageAllocator P}.
Local Notation K := (kernel P).
Context (uninit : K -> Z).

(** ** Client programs *)

(** The calls a thread may make, with the type of their result.  A priority
    that a thread gives itself has to be in range: [thread_set_priority] does
    not check it.  [IDLE_FN] is the address of [idle], which is static. *)
Inductive call : Type -> Type :=
| Yield : call unit
| SemaInit (s : sema_id) (v : Z) : call unit
| SemaDown (s : sema_id) : call unit
| SemaUp (s : sema_id) : call unit
| LockInit (l : lock_id) : call unit
| LockAcquire (l : lock_id) : call unit
| LockTryAcquire (l : lock_id) : call bool
| LockRelease (l : lock_id) : call unit
| CondInit (c : Z) : call unit
| CondWait (c : Z) (l : lock_id) (waiter : Z) : call unit
| CondSignal (c : Z) (l : lock_id) : call unit
| CondBroadcast (c : Z) (l : lock_id) : call unit
| Sleep (n : Z) : call unit
| Ticks : call Z
| GetPriority : call Z
| SetPriority (p : Z) (Hp : (PRI_MIN <=? p) && (p <=? PRI_MAX) = true) : call unit
| SetNice (n : Z) : call unit
| Create (nm : string) (prio fn ax : Z) (Hfn : (fn =? IDLE_FN) = false) : call Z
| Exit : call unit.

Definition perform {A : Type} (c : call A) : code K A :=
  match c with
  | Yield => thread_yield
  | SemaInit s v => act (sema_init s v)
  | SemaDown s => sema_down s
  | SemaUp s => sema_up uninit s
  | LockInit l => act (lock_init l)
  | LockAcquire l => lock_acquire l
  | LockTryAcquire l => lock_try_acquire l
  | LockRelease l => lock_release uninit l
  | CondInit c => act (cond_init c)
  | CondWait c l w => cond_wait uninit c l w
  | CondSignal c l => cond_signal uninit c l
  | CondBroadcast c l => cond_broadcast uninit c l
  | Sleep n => timer_sleep n
  | Ticks => act timer_ticks
  | GetPriority => act thread_get_priority
  | SetPriority p _ => thread_set_priority p
  | SetNice n => thread_set_nice n
  | Create nm prio fn ax _ => thread_create uninit nm prio fn ax
  | Exit => thread_exit uninit
  end.

(** A program: calls, each of which may depend on the results of the earlier
    ones, and loops without end. *)
Inductive client : Type :=
| Done
| Call (A : Type) (c : call A) (k : A -> client)
| Forever (body : client).
Arguments Call {A} c k.

Fixpoint client_code (p : client) : code K unit :=
  match p with
  | Done => Ret tt
  | Call c k => (a <- perform c;; client_code (k a))%code
  | Forever body => while (ret true) (client_code body)
  end.

Lemma perform_safe {A : Type} (me : Z) (c : call A) (own : gset token) (Q : A -> gset token -> Prop) :
  (forall a, Q a own) -> safe false me (perform c) own Q.
Proof.
  intros HQ. destruct c; cbn [perform].
  - by apply safe_thread_yield.
  - by apply safe_sema_init.
  - by apply safe_sema_down.
  - by apply safe_sema_up.
  - by apply safe_lock_init.
  - by apply safe_lock_acquire.
  - by apply safe_lock_try_acquire.
  - by apply safe_lock_release.
  - by apply safe_cond_init.
  - by apply safe_cond_wait.
  - by apply safe_cond_signal.
  - by apply safe_cond_broadcast.
  - by apply safe_timer_sleep.
  - by apply safe_timer_ticks.
  - by apply safe_thread_get_priority.
  - apply safe_thread_set_priority; [|done]. apply andb_true_iff in Hp as [?%Z.leb_le ?%Z.leb_le].
    done.
  - by apply safe_thread_set_nice.
  - apply Z.eqb_neq in Hfn.
    apply safe_thread_create; [unfold idle_right; by rewrite decide_False|done|].
    intros i o [->| ->]; [done|]. unfold idle_right. rewrite decide_False by done.
    by rewrite difference_empty_L.
  - by apply safe_thread_exit.
Qed.

Lemma client_safe (me : Z) p : forall (own : gset token) (Q : unit -> gset token -> Prop),
  Q tt own -> safe false me (client_code p) own Q.
Proof.
  induction p as [|A c k IH|body IH]; intros own Q HQ; cbn [client_code].
  - done.
  - apply safe_bind, perform_safe. intros a. by apply IH.
  - apply safe_while; [|by apply IH|done]. intros F k Hr.
    destruct (runs_alive _ _ _ _ Hr) as [H <-]. by split.
Qed.

(** ** Start-up *)

(** The data of the kernel when [thread_init] is called: [t] is the page that
    holds the stack of the loader, [p] the page pools.  Uninitialised static
    variables are zero. *)
Definition boot_state (t : Z) (p : P) (mlfqs aging : bool) : K :=
  Kernel ∅ [] [] t NULL NULL p ∅ ∅ ∅ [] INTR_OFF false false 0 0 0 0 1 0 0 mlfqs aging.

(** Semaphores and locks that nobody waits for, with interrupts off. *)
Lemma rt_sema_down s x (Q : unit -> K -> Prop) k :
  semas k !! s = Some x -> sema_nonnull s = true -> 0 < value x < 2 ^ 32 ->
  in_external_intr k = false -> level k = INTR_OFF ->
  Q tt (set_semas (<[s := Semaphore (value x - 1) (waiters x)]> (semas k)) k) ->
  runs_to (sema_down s) Q k.
Proof.
  intros Hs Hn Hv Hx Hl HQ. apply rt_bind, rt_act. apply twp_bind, twp_assert; [done|].
  apply twp_bind, twp_gets, twp_bind, twp_assert; [by rewrite Hx|].
  eapply twp_intro; [done|]. cbn [fst snd].
  apply rt_bind, rt_while_false. apply twp_bind, twp_bind, twp_get. cbn [semas set_level]. rewrite Hs.
  apply twp_ret, twp_ret. split; [by apply Z.eqb_neq; lia|].
  apply rt_bind, rt_act. apply twp_bind, twp_bind, twp_get. cbn [semas set_level]. rewrite Hs.
  apply twp_ret, twp_modify. apply rt_bind, rt_act. rewrite Hl. eapply twp_intro; [done|].
  apply rt_ret. cbn. rewrite u32_id by lia. destruct k. cbn in *. by subst.
Qed.

Lemma rt_lock_acquire_other l t x h (Q : unit -> K -> Prop) k :
  semas k !! LockSema l = Some x -> sema_nonnull (LockSema l) = true -> lock_nonnull l = true ->
  0 < value x < 2 ^ 32 -> in_external_intr k = false -> level k = INTR_OFF ->
  holders k !! l = Some h ->
  Q tt (set_holders (<[l := t]> (holders k))
         (set_semas (<[LockSema l := Semaphore (value x - 1) (waiters x)]> (semas k)) k)) ->
  runs_to (lock_acquire_other l t) Q k.
Proof.
  intros Hs Hn Hn' Hv Hx Hl Hh HQ. apply rt_bind, rt_act. apply twp_bind, twp_assert; [done|].
  apply twp_bind, twp_gets, twp_assert; [by rewrite Hx|].
  apply rt_bind. eapply rt_sema_down; [done..|]. apply rt_act. apply twp_bind, twp_bind, twp_get.
  cbn. rewrite Hh. by apply twp_ret, twp_modify.
Qed.

Lemma twp_lock_init l (Q : unit -> K -> Prop) k :
  lock_nonnull l = true -> sema_nonnull (LockSema l) = true ->
  Q tt (set_semas (<[LockSema l := Semaphore 1 []]> (semas k))
         (set_holders (<[l := NULL]> (holders k)) k)) ->
  twp (lock_init l) Q k.
Proof.
  intros H1 H2 HQ. apply twp_bind, twp_assert; [done|]. apply twp_bind, twp_modify.
  apply twp_bind, twp_assert; [done|]. apply twp_modify. exact HQ.
Qed.

(** What [thread_init] does before it makes the initial thread. *)
Definition init_data : M K Z :=
  lvl <- intr_get_level;;
  assert (Bool.eqb lvl INTR_OFF);;;
  lock_init TidLock;;;
  modify (set_ready_list (replicate (Z.to_nat (PRI_MAX + 1)) []));;;
  modify (set_all_list []);;;
  mlfqs <- gets thread_mlfqs;;
  (if mlfqs : bool then modify (set_load_avg (fp_convert_to_fp 0)) else ret tt);;;
  t <- running_thread;;
  modify (set_initial_thread t);;;
  ret t.

(** The state in which only the initial thread's page is in use; nobody waits
    for anything. *)
Record booting (t : Z) (p : P) (al : list Z) (k : K) : Prop := Booting {
  bt_cur : cur k = t;
  bt_all : all_list k = al;
  bt_ready : ready_list k = replicate 64 [];
  bt_idle : idle_thread k = NULL;
  bt_initial : initial_thread k = t;
  bt_pool : pool k = p;
  bt_alarm : list_alarm k = [];
  bt_level : level k = INTR_OFF;
  bt_ctx : in_external_intr k = false;
  bt_wait s x : semas k !! s = Some x -> waiters x = []
}.

Lemma twp_init_data t p mlfqs aging (Q : Z -> K -> Prop) :
  (forall k, booting t p [] k -> threads k = ∅ -> holders k !! TidLock = Some NULL ->
     semas k !! LockSema TidLock = Some (Semaphore 1 []) -> Q t k) ->
  twp init_data Q (boot_state t p mlfqs aging).
Proof.
  intros HQ. apply twp_bind, twp_gets, twp_bind, twp_assert; [done|].
  apply twp_bind, twp_lock_init; [done|done|]. apply twp_bind, twp_modify, twp_bind, twp_modify.
  apply twp_bind, twp_gets, twp_bind.
  eapply (twp_mono _ (fun _ k => exists la, k = set_load_avg la _)).
  { cbn [thread_mlfqs set_all_list set_ready_list set_semas set_holders boot_state].
    destruct mlfqs; [apply twp_modify; by eexists|apply twp_ret; exists 0; reflexivity]. }
  intros _ k [la ->]. apply twp_bind, twp_gets, twp_bind, twp_modify, twp_ret. apply HQ.
  - split; try done. cbn. by intros s x [[_ <-]|[_ [=]]]%lookup_insert_Some.
  - done.
  - done.
  - done.
Qed.

Lemma booting_sema t p al k s v h :
  booting t p al k ->
  booting t p al (set_holders h (set_semas (<[s := Semaphore v []]> (semas k)) k)).
Proof.
  intros []. split; try done. cbn. intros s' x [[_ <-]|[_ ?]]%lookup_insert_Some; [done|eauto].
Qed.

Lemma booting_threads t p al k ths : booting t p al k -> booting t p al (set_threads ths k).
Proof. by intros []. Qed.

(** The thread that [init_thread] makes of the loader's page. *)
Definition main_thread (st : thread_status) (th : thread) : Prop :=
  status th = st /\ magic th = THREAD_MAGIC /\ priority th = PRI_DEFAULT /\ function th = NULL.

Lemma twp_init_main t p (Q : unit -> K -> Prop) k :
  t <> NULL -> booting t p [] k ->
  (forall th, main_thread THREAD_BLOCKED th ->
     Q tt (set_threads (<[t := th]> (threads k)) k)) ->
  twp (init_thread_members t "main" PRI_DEFAULT) Q k.
Proof.
  intros Ht Hb HQ. apply twp_bind, twp_assert; [by apply negb_true_iff, Z.eqb_neq|].
  apply twp_bind, twp_assert; [done|]. apply twp_bind, twp_gets, twp_bind.
  eapply (twp_mono _ (fun th k' => k' = k /\ main_thread THREAD_BLOCKED th)).
  { destruct (thread_mlfqs k); by apply twp_ret. }
  intros th _ [-> Hth]. apply twp_bind. eapply (twp_intro _ _ _ (ticks k) k).
  { unfold timer_ticks. cbn. rewrite (bt_level _ _ _ _ Hb). cbn.
    destruct Hb, k. cbn in *. by subst. }
  apply twp_modify. apply HQ. by destruct Hth as (? & ? & ? & ?).
Qed.

Ltac look := cbn;
  repeat first [rewrite lookup_insert_eq | rewrite lookup_insert_ne by done]; reflexivity.

Lemma rt_init_main t p (Q : unit -> K -> Prop) k :
  t <> NULL -> booting t p [] k -> threads k = ∅ -> holders k !! TidLock = Some NULL ->
  semas k !! LockSema TidLock = Some (Semaphore 1 []) ->
  (forall k' th, booting t p [t] k' -> threads k' = {[t := th]} ->
     main_thread THREAD_BLOCKED th -> holders k' !! TidLock = Some NULL ->
     semas k' !! LockSema TidLock = Some (Semaphore 1 []) -> Q tt k') ->
  runs_to (init_thread t "main" PRI_DEFAULT) Q k.
Proof.
  intros Ht Hb Hths Hho Hse HQ. apply rt_bind, rt_act. eapply twp_init_main; [done..|].
  intros th Hth. rewrite Hths.
  assert (booting t p [] (set_threads {[t := th]} k)) as Hb1 by by apply booting_threads.
  do 4 (apply rt_bind, rt_act, twp_lock_init; [done|done|]).
  apply rt_bind. eapply rt_lock_acquire_other; [look|done|done|done|apply Hb1|apply Hb1|look|].
  apply rt_bind. eapply rt_lock_acquire_other; [look|done|done|done|apply Hb1|apply Hb1|look|].
  apply rt_bind. eapply rt_lock_acquire_other; [look|done|done|done|apply Hb1|apply Hb1|look|].
  apply rt_act, twp_modify. apply (HQ _ th).
  - destruct Hb as []. split; try done; [cbn; by rewrite bt_all0|]. cbn. intros s x.
    repeat (rewrite lookup_insert_Some; intros [[_ <-]|[_ H]]; [done|revert H]). eauto.
  - done.
  - done.
  - cbn. by rewrite !lookup_insert_ne.
  - cbn. by rewrite !lookup_insert_ne.
Qed.

(** [allocate_tid] when only the initial thread exists. *)
Section Alone.
Context (t : Z) (p : P) (al : list Z) (th : thread).
Context (Ht : t <> NULL) (Hth : main_thread THREAD_RUNNING th).

Definition alone (v h : Z) (k : K) : Prop :=
  booting t p al k /\ threads k = {[t := th]} /\ holders k !! TidLock = Some h /\
  semas k !! LockSema TidLock = Some (Semaphore v []).

Lemma twp_alone_current v h (Q : Z -> K -> Prop) k :
  alone v h k -> Q t k -> twp thread_current Q k.
Proof.
  intros (Hb & Hths & _) HQ. destruct Hth as (? & ? & _).
  apply (twp_thread_current_at t th); [apply Hb|done|by rewrite Hths, lookup_singleton_eq|done..].
Qed.

Lemma twp_alone_held v h (Q : bool -> K -> Prop) k :
  alone v h k -> Q (h =? t) k -> twp (lock_held_by_current_thread TidLock) Q k.
Proof.
  intros Ha HQ. pose proof Ha as (Hb & Hths & Hh & _).
  apply twp_bind, twp_assert; [done|]. apply twp_bind, twp_bind, twp_get. rewrite Hh.
  apply twp_ret, twp_bind. eapply twp_alone_current; [exact Ha|]. by apply twp_ret.
Qed.

Lemma alone_set v h v' h' k :
  alone v h k ->
  alone v' h' (set_holders (<[TidLock := h']> (holders k))
    (set_semas (<[LockSema TidLock := Semaphore v' []]> (semas k)) k)).
Proof.
  intros (Hb & Hths & Hh & Hs). split_and!; [by apply booting_sema|done|..];
    cbn; by rewrite lookup_insert_eq.
Qed.

Lemma rt_alone_acquire (Q : unit -> K -> Prop) k :
  alone 1 NULL k -> (forall k', alone 0 t k' -> Q tt k') ->
  runs_to (lock_acquire TidLock) Q k.
Proof.
  intros Ha HQ. pose proof Ha as (Hb & Hths & Hh & Hs). apply rt_bind, rt_act.
  apply twp_bind, twp_assert; [done|]. apply twp_bind, twp_gets, twp_bind, twp_assert.
  { by rewrite (bt_ctx _ _ _ _ Hb). }
  apply twp_bind. eapply twp_alone_held; [exact Ha|]. apply twp_assert.
  { apply negb_true_iff, Z.eqb_neq. done. }
  apply rt_bind. eapply rt_sema_down; [exact Hs|done|done|apply Hb|apply Hb|].
  apply rt_act, twp_bind. pose proof (alone_set 1 NULL 0 NULL k Ha) as Ha'.
  eapply (twp_alone_current 0 NULL).
  { destruct Ha' as (B1 & ? & ? & ?). split_and!; [|done..].
    destruct B1. by split. }
  apply twp_bind, twp_bind, twp_get. cbn. rewrite Hh. apply twp_ret, twp_modify, HQ.
  apply (alone_set 1 NULL 0 t k Ha).
Qed.

Lemma twp_alone_sema_up (Q : Z -> K -> Prop) k :
  alone 0 NULL k -> (forall x k', alone 1 NULL k' -> Q x k') ->
  twp (sema_up_wake uninit (LockSema TidLock)) Q k.
Proof.
  intros Ha HQ. pose proof Ha as (Hb & _ & Hh & Hs). apply twp_bind, twp_assert; [done|].
  apply twp_bind, twp_gets, twp_bind. eapply twp_intro; [done|]. cbn [fst snd].
  apply twp_bind, twp_bind, twp_get. cbn [semas set_level]. rewrite Hs. apply twp_ret.
  apply twp_bind, twp_ret, twp_bind, twp_bind, twp_get. cbn [semas set_level]. rewrite Hs.
  apply twp_ret, twp_bind, twp_modify, twp_bind. rewrite (bt_level _ _ _ _ Hb).
  eapply twp_intro; [done|]. apply twp_ret, HQ.
  destruct (alone_set 0 NULL 1 NULL k Ha) as (B & ? & _ & ?). destruct B.
  by split_and!.
Qed.

Lemma rt_alone_release (Q : unit -> K -> Prop) k :
  alone 0 t k -> (forall k', alone 1 NULL k' -> Q tt k') ->
  runs_to (lock_release uninit TidLock) Q k.
Proof.
  intros Ha HQ. pose proof Ha as (Hb & Hths & Hh & Hs). apply rt_bind, rt_act.
  apply twp_bind, twp_assert; [done|]. apply twp_bind. eapply twp_alone_held; [exact Ha|].
  apply twp_bind, twp_assert; [apply Z.eqb_refl|].
  apply twp_bind, twp_bind, twp_get. rewrite Hh. apply twp_ret, twp_modify.
  apply rt_bind, rt_act, twp_alone_sema_up.
  { split_and!; [by destruct Hb|done|cbn; by rewrite lookup_insert_eq|done]. }
  intros x k' Ha'. apply rt_bind, rt_act. pose proof Ha' as (Hb' & Hths' & _).
  apply twp_bind, twp_bind. eapply twp_alone_current; [exact Ha'|].
  eapply twp_get_thread; [by rewrite Hths', lookup_singleton_eq|].
  apply twp_bind, twp_gets, twp_ret. rewrite (bt_level _ _ _ _ Hb'), andb_false_r.
  by apply rt_ret, HQ.
Qed.

Lemma rt_alone_allocate_tid (Q : Z -> K -> Prop) k :
  alone 1 NULL k -> (forall x k', alone 1 NULL k' -> Q x k') ->
  runs_to (allocate_tid uninit) Q k.
Proof.
  intros Ha HQ. apply rt_bind, rt_alone_acquire; [done|]. intros k1 (Hb1 & ? & ? & ?).
  apply rt_bind, rt_act. apply twp_bind, twp_gets, twp_bind, twp_modify.
  apply twp_bind, twp_bind, twp_modify, twp_ret, twp_ret.
  apply rt_bind, rt_alone_release; [by split_and!; [destruct Hb1|..]|].
  intros k2 Ha2. by apply rt_ret, HQ.
Qed.
End Alone.

Lemma rt_thread_init t p mlfqs aging :
  t <> NULL ->
  runs_to (thread_init uninit)
    (fun _ k => exists th, main_thread THREAD_RUNNING th /\ booting t p [t] k /\
       threads k = {[t := th]}) (boot_state t p mlfqs aging).
Proof.
  intros Ht. apply rt_bind, rt_act. apply (twp_init_data t p). intros k1 Hb1 Ht1 Hh1 Hs1.
  apply rt_bind, (rt_init_main t p); [done..|]. intros k2 th Hb2 Ht2 Hth Hh2 Hs2.
  apply rt_bind, rt_act. eapply twp_upd_thread; [by rewrite Ht2, lookup_singleton_eq|].
  rewrite Ht2, insert_singleton_eq. set (th' := set_status THREAD_RUNNING th).
  assert (main_thread THREAD_RUNNING th') as Hth' by by destruct Hth as (_ & ?).
  apply rt_bind, (rt_alone_allocate_tid t p [t] th' Ht Hth').
  { split_and!; [by apply booting_threads|done..]. }
  intros i k3 (Hb3 & Ht3 & _). apply rt_act.
  eapply twp_upd_thread; [by rewrite Ht3, lookup_singleton_eq|].
  exists (set_tid i th'). split_and!; [done|by apply booting_threads|].
  cbn. by rewrite Ht3, insert_singleton_eq.
Qed.

(** That state satisfies the invariant; the idle thread can be made. *)
Lemma inv_boot t p th k :
  t <> NULL -> pa_wf p -> ~ pa_managed p t -> main_thread THREAD_RUNNING th -> booting t p [t] k ->
  threads k = {[t := th]} -> inv {[(NULL, NoIdle)]} (Some t) None k.
Proof.
  intros Ht Hw Hp (Hs & Hm & Hpr & Hf) [] Hths.
  assert (forall u x, threads k !! u = Some x -> u = t /\ x = th) as Hu.
  { intros u x. rewrite Hths. by intros [<- <-]%lookup_singleton_Some. }
  assert (forall i l, ready_list k !! i = Some l -> l = []) as Hr.
  { intros i l. rewrite bt_ready0. by intros [-> _]%lookup_replicate. }
  assert (forall u sg, (u, sg) ∈ ({[(NULL, NoIdle)]} : gset token) -> u = NULL /\ sg = NoIdle)
    as HF by set_solver.
  assert (threads k !! t = Some th) as Htt by by rewrite Hths, lookup_singleton_eq.
  constructor.
  - by rewrite bt_ready0.
  - rewrite Hths. by apply lookup_singleton_ne.
  - by intros u x [-> ->]%Hu.
  - intros u x [-> ->]%Hu. by rewrite Hpr.
  - intros u x [-> ->]%Hu. by rewrite Hs.
  - intros u [= <-]. eauto.
  - by intros i l u ->%Hr ?%elem_of_nil.
  - intros i l ->%Hr. constructor.
  - intros u x [-> ->]%Hu. by rewrite Hs.
  - by left.
  - by intros s x u ->%bt_wait0 ?%elem_of_nil.
  - intros s x ->%bt_wait0. constructor.
  - by intros s1 s2 x1 x2 u ->%bt_wait0 _ ?%elem_of_nil.
  - intros a. rewrite bt_alarm0. by intros ?%elem_of_nil.
  - rewrite bt_alarm0. constructor.
  - intros s x a _. rewrite bt_alarm0. by intros ?%elem_of_nil.
  - intros u sg i [-> ->]%HF. naive_solver.
  - by intros u s1 s2 [-> ->]%HF [_ ->]%HF.
  - by intros u [_ [=]]%HF.
  - intros u [-> _]%HF. split_and!; [done|done|]. intros v x [-> ->]%Hu. by rewrite Hf.
  - by intros u1 u2 x1 x2 [-> _]%Hu [-> _]%Hu.
  - intros u x [-> ->]%Hu. by rewrite Hf.
  - intros u. rewrite bt_all0, list_elem_of_singleton. intros ->. exists th. by rewrite Hs.
  - rewrite bt_all0. apply NoDup_singleton.
  - intros u x [-> ->]%Hu _ _. rewrite bt_all0. by apply list_elem_of_singleton.
  - intros u x [-> ->]%Hu. by rewrite Hs.
  - intros u [x [-> _]%Hu]. by left.
  - by rewrite bt_pool0.
  - by rewrite bt_initial0, bt_pool0.
Qed.

(** ** The machine after start-up *)

(** The initial thread starts the idle thread, whose semaphore is at [si], and
    goes on with [main]; other threads run the programs [prog]. *)
Definition main_code (si : Z) (main : client) : code K unit :=
  (thread_start uninit si;;; client_code main;;; thread_exit uninit)%code.

Definition programs (prog : Z -> Z -> client) (fn ax : Z) : code K unit :=
  client_code (prog fn ax).

Lemma programs_safe prog : clients_safe (programs prog).
Proof. intros fn ax me _. by apply client_safe. Qed.

Lemma main_code_safe (me si : Z) (main : client) (Q : unit -> gset token -> Prop) :
  safe false me (main_code si main) {[(NULL, NoIdle)]} Q.
Proof.
  apply safe_bind, safe_bind, safe_sema_init, safe_bind, safe_thread_create.
  - unfold idle_right. by rewrite decide_True.
  - done.
  - intros _ own _. apply safe_bind, safe_intr_enable. intros b.
    apply safe_sema_down, safe_bind, client_safe, safe_thread_exit.
Qed.

Lemma machine_boot t p th k si main :
  t <> NULL -> pa_wf p -> ~ pa_managed p t -> main_thread THREAD_RUNNING th -> booting t p [t] k ->
  threads k = {[t := th]} ->
  machine_inv (Machine k {[t := main_code si main]}).
Proof.
  intros Ht Hw Hp Hth Hb Hths. exists {[(NULL, NoIdle)]}, (fun u => if decide (u = t) then {[(NULL, NoIdle)]} else ∅).
  cbn [kst conts]. rewrite (bt_cur _ _ _ _ Hb). split_and!.
  - by eapply inv_boot.
  - intros u. case_decide; set_solver.
  - intros u1 u2 Hne. do 2 case_decide; set_solver.
  - intros u Hu. rewrite decide_False; [done|]. intros ->. by rewrite lookup_singleton_eq in Hu.
  - intros u c [<- <-]%lookup_singleton_Some. split; [set_solver|]. exists th.
    rewrite Hths, lookup_singleton_eq. split; [done|].
    destruct Hth as (_ & _ & _ & ->). rewrite decide_True by done. apply main_code_safe.
Qed.
End Boot.

Arguments Call {A} c k.
