(* ===== verification/ThreadTheorems.v ===== *)
(** * Threads: theorems

    The reachability theorem for the scheduler's invariant, its establishment
    by [thread_init], and what the scheduler, the semaphores and the timer do
    in a state that satisfies it. *)

From S2P Require Import Prelude PageAlloc Palloc FixedPoint Code KernelState Thread.
From S2P Require Import ThreadInv ThreadSteps ThreadCreate ThreadSafe ThreadBoot.
From stdpp Require Import strings.
Local Open Scope Z_scope.

Section Total.
Context {P : Type} {PA : PageAllocator P}.
Local Notation K := (kernel P).

(** ** The scheduler terminates and picks the right thread *)

(** The thread that the scheduler is to choose: the first of the highest
    nonempty queue, the idle thread when the queues are empty; and the queues
    after that. *)
Inductive chooses (k : K) : Z -> list (list Z) -> Prop :=
| chooses_queue i t r :
    ready_list k !! i = Some (t :: r) ->
    (forall j, (i < j < 64)%nat -> ready_list k !! j = Some []) ->
    chooses k t (<[i := r]> (ready_list k))
| chooses_idle :
    (forall i, (i < 64)%nat -> ready_list k !! i = Some []) ->
    chooses k (idle_thread k) (ready_list k).

Lemma twp_next_thread_loop n (Q : Z -> K -> Prop) k :
  length (ready_list k) = 64%nat -> (n <= 64)%nat ->
  (forall j, (n <= j < 64)%nat -> ready_list k !! j = Some []) ->
  (forall t rl, chooses k t rl -> Q t (set_ready_list rl k)) ->
  twp (next_thread_loop n) Q k.
Proof.
  intros Hlen. induction n as [|n IH]; intros Hn Hhi HQ; cbn [next_thread_loop].
  - apply twp_gets. rewrite <- (set_ready_list_same k) at 2. apply HQ.
    apply chooses_idle. intros i Hi. apply Hhi. lia.
  - destruct (lookup_lt_is_Some_2 (ready_list k) n) as [l Hl]; [lia|].
    apply twp_bind. eapply twp_get_ready; [exact Hl|]. destruct l as [|t r].
    + apply IH; [lia| |done]. intros j Hj. destruct (decide (j = n)) as [->|]; [done|].
      apply Hhi. lia.
    + apply twp_bind. eapply twp_put_ready; [exact Hl|]. apply twp_ret, HQ.
      apply chooses_queue; [done|]. intros j Hj. apply Hhi. lia.
Qed.

Lemma twp_next_thread_to_run (Q : Z -> K -> Prop) k :
  length (ready_list k) = 64%nat ->
  (forall t rl, chooses k t rl -> Q t (set_ready_list rl k)) ->
  twp next_thread_to_run Q k.
Proof. intros Hlen HQ. apply (twp_next_thread_loop 64); [done|done|lia|done]. Qed.

(** The chosen thread is a thread. *)
Lemma chooses_thread F run dead k t rl :
  inv F run dead k -> idle_thread k <> NULL -> chooses k t rl ->
  t <> NULL /\ exists th, threads k !! t = Some th /\ magic th = THREAD_MAGIC /\
    status th <> THREAD_DYING.
Proof.
  intros H Hidle Hc.
  assert (exists th, threads k !! t = Some th /\ status th <> THREAD_DYING) as (th & Ht & Hd).
  { destruct Hc as [i t r Hl _|_].
    - destruct (inv_ready _ _ _ _ H _ _ t Hl) as (_ & th & ? & ? & _); [by left|].
      exists th. split; [done|congruence].
    - destruct (inv_idle _ _ _ _ H) as [?|(th & ? & _ & ?)]; [done|eauto]. }
  split; [intros ->; by rewrite (inv_null _ _ _ _ H) in Ht|].
  exists th. split_and!; [done| |done]. by eapply inv_magic.
Qed.

Lemma twp_schedule_tail k prev th :
  pa_wf (pool k) ->
  level k = INTR_OFF -> threads k !! cur k = Some th ->
  (prev <> NULL -> prev <> cur k /\ exists thp, threads k !! prev = Some thp /\
     (status thp = THREAD_DYING -> prev <> initial_thread k -> pa_used (pool k) prev)) ->
  twp (thread_schedule_tail prev)
    (fun _ k' => cur k' = cur k /\ ready_list k' = ready_list k /\ thread_ticks k' = 0 /\
       threads k' !! cur k = Some (set_status THREAD_RUNNING th)) k.
Proof.
  intros Hwf Hl Ht Hp. apply twp_bind, twp_gets. apply twp_bind, twp_gets.
  apply twp_bind, twp_assert; [by rewrite Hl|].
  apply twp_bind. eapply twp_upd_thread; [exact Ht|]. apply twp_bind, twp_modify.
  destruct (Z.eqb_spec prev NULL) as [E|E].
  { apply twp_ret. cbn. by rewrite lookup_insert_eq. }
  destruct (Hp E) as (Hne & thp & Hthp & Hu).
  apply twp_bind. eapply twp_get_thread; [cbn; by rewrite lookup_insert_ne|].
  apply twp_bind, twp_gets. case_bool_decide as Hs; cbn [andb].
  - destruct (Z.eqb_spec prev (initial_thread k)) as [Ei|Ei]; cbn [negb initial_thread set_thread_ticks set_threads].
    + rewrite Ei, Z.eqb_refl. apply twp_ret. cbn. by rewrite lookup_insert_eq.
    + rewrite (proj2 (Z.eqb_neq _ _) Ei). cbn [negb].
      apply twp_bind, twp_assert; [by rewrite (proj2 (Z.eqb_neq _ _) Hne)|].
      apply twp_bind, twp_gets. destruct (pa_free_ok (pool k) prev Hwf (Hu Hs Ei)) as [p Hfree].
      apply twp_bind. eapply twp_intro; [unfold lift; cbn; rewrite Hfree; reflexivity|].
      apply twp_bind, twp_modify, twp_modify. cbn.
      by rewrite lookup_delete_ne, lookup_insert_eq by done.
  - apply twp_ret. cbn. by rewrite lookup_insert_eq.
Qed.

Lemma twp_schedule F dead k thc :
  threads k !! cur k = Some thc -> inv F None dead k ->
  (dead = None /\ status thc <> THREAD_DYING \/
   dead = Some (cur k) /\ status thc = THREAD_DYING) ->
  level k = INTR_OFF -> idle_thread k <> NULL ->
  twp schedule (fun _ k' => chooses k (cur k') (ready_list k') /\ thread_ticks k' = 0 /\
    exists th, threads k !! cur k' = Some th /\
               threads k' !! cur k' = Some (set_status THREAD_RUNNING th)) k.
Proof.
  intros Hc H Hd Hl Hidle. pose proof (inv_pool_wf _ _ _ _ H) as Hwf. apply twp_bind, twp_gets.
  apply twp_bind, twp_next_thread_to_run; [apply (inv_len _ _ _ _ H)|]. intros t rl Hch.
  destruct (chooses_thread _ _ _ _ _ _ H Hidle Hch) as (Htn & th & Ht & Hm & Htd).
  apply twp_bind, twp_gets. apply twp_bind, twp_assert; [by cbn; rewrite Hl|].
  apply twp_bind. eapply twp_get_thread; [exact Hc|]. apply twp_bind, twp_assert.
  { rewrite bool_decide_false; [done|]. intros Hr%(inv_run _ _ _ _ H _ _ Hc). done. }
  apply twp_bind. eapply twp_is_thread; [done|exact Ht|done|].
  apply twp_bind, twp_assert; [done|]. destruct (Z.eqb_spec (cur k) t) as [E|E].
  - eapply twp_mono; [apply (twp_schedule_tail _ NULL thc); [done|done|done|done]|].
    cbn. rewrite E. intros _ k' (-> & -> & ? & Ht'). rewrite E in Hc. simplify_eq. eauto.
  - apply twp_bind, twp_modify.
    eapply twp_mono; [apply (twp_schedule_tail (set_cur t (set_ready_list rl k)) (cur k) th)|].
    + done.
    + done.
    + done.
    + intros Hcn. split; [done|]. exists thc. split; [done|]. intros Hds Hni.
      destruct (inv_pool _ _ _ _ H (cur k)) as [?|?]; [rewrite Hc; eauto|done|done].
    + cbn. intros _ k' (-> & -> & ? & Ht'). eauto.
Qed.

Lemma twp_thread_top_priority n (Q : Z -> K -> Prop) k :
  (n <= length (ready_list k))%nat -> (forall p, Q p k) -> twp (thread_top_priority_loop n) Q k.
Proof.
  intros Hn HQ. induction n as [|n IH]; cbn [thread_top_priority_loop]; [by apply twp_ret|].
  destruct (lookup_lt_is_Some_2 (ready_list k) n) as [l Hl]; [lia|].
  apply twp_bind. eapply twp_get_ready; [exact Hl|]. destruct l; [apply IH; lia|by apply twp_ret].
Qed.

(** Waking a blocked thread, with interrupts off. *)
Lemma twp_unblock F run dead k t th l (Q : unit -> K -> Prop) :
  inv F run dead k -> threads k !! t = Some th -> status th = THREAD_BLOCKED ->
  level k = INTR_OFF -> ready_list k !! Z.to_nat (priority th) = Some l ->
  Q tt (set_threads (<[t := set_status THREAD_READY th]> (threads k))
         (set_ready_list (<[Z.to_nat (priority th) := l ++ [t]]> (ready_list k)) k)) ->
  twp (thread_unblock_intr_off t) Q k.
Proof.
  intros H Ht Hs Hl Hq HQ. destruct (inv_prio_queue _ _ _ _ _ _ H Ht) as [Hlt Hpe].
  assert (set_level INTR_OFF k = k) as El by (destruct k; cbn in *; by subst).
  assert (t <> NULL) as Hn by (intros ->; by rewrite (inv_null _ _ _ _ H) in Ht).
  apply twp_bind, twp_bind. eapply twp_is_thread; [done|exact Ht|by eapply inv_magic|].
  apply twp_bind, twp_assert; [done|]. apply twp_bind. eapply twp_intro; [done|]. cbn [fst snd].
  rewrite El. apply twp_bind. eapply twp_get_thread; [exact Ht|].
  apply twp_bind, twp_assert; [by apply bool_decide_eq_true|].
  apply twp_bind, twp_thread_top_priority; [by rewrite (inv_len _ _ _ _ H)|]. intros p.
  rewrite Hpe. apply twp_bind. eapply twp_get_ready; [exact Hq|].
  apply twp_bind. eapply twp_put_ready; [exact Hq|].
  apply twp_bind. eapply twp_upd_thread; [exact Ht|].
  rewrite Hl. apply twp_bind. eapply twp_intro; [done|]. apply twp_ret. apply twp_bind, twp_bind.
  eapply twp_get_thread; [cbn; by rewrite lookup_insert_eq|]. apply twp_bind, twp_gets, twp_ret.
  rewrite andb_false_r. apply twp_ret. cbn. destruct k. cbn in *. by subst.
Qed.

(** The search of [sema_up]: [pr] is the priority of a thread. *)
Lemma twp_sema_up_loop pr l : forall d1 e d2 k (Q : Z * Z -> K -> Prop),
  (forall x, x ∈ d1 ++ e :: d2 ++ l -> exists th, threads k !! x = Some th /\ priority th = pr x) ->
  (forall x, x ∈ d1 -> pr x < pr e) -> (forall x, x ∈ d2 -> pr x <= pr e) ->
  (forall l1 w l2, d1 ++ e :: d2 ++ l = l1 ++ w :: l2 -> (forall x, x ∈ l1 -> pr x < pr w) ->
     (forall x, x ∈ l2 -> pr x <= pr w) -> Q (w, pr w) k) ->
  twp (sema_up_loop l e (pr e)) Q k.
Proof.
  induction l as [|x l IH]; intros d1 e d2 k Q Hth H1 H2 HQ; cbn [sema_up_loop].
  - apply twp_ret. apply (HQ d1 e d2); [by rewrite app_nil_r|done|done].
  - destruct (Hth x) as (th & Ht & Ep); [set_solver|].
    apply twp_bind. eapply twp_get_thread; [exact Ht|]. cbv zeta. rewrite Ep, Z.gtb_ltb.
    destruct (Z.ltb_spec (pr e) (pr x)).
    + apply twp_bind. eapply twp_get_thread; [exact Ht|]. rewrite Ep.
      apply (IH (d1 ++ e :: d2) x []).
      * intros y Hy. apply Hth. revert Hy. rewrite <- app_assoc. cbn. done.
      * intros y [Hy|[->|Hy]%elem_of_cons]%elem_of_app; [specialize (H1 y Hy)| |specialize (H2 y Hy)]; lia.
      * by intros y ?%elem_of_nil.
      * intros l1 w l2 E. apply HQ. rewrite <- E, <- app_assoc. done.
    + apply (IH d1 e (d2 ++ [x])).
      * intros y Hy. apply Hth. by rewrite <- app_assoc in Hy.
      * done.
      * intros y [Hy| ->%list_elem_of_singleton]%elem_of_app; [auto|lia].
      * intros l1 w l2 E. apply HQ. rewrite <- E, <- app_assoc. done.
Qed.

Lemma remove_elem_middle l1 w l2 :
  NoDup (l1 ++ w :: l2) -> remove_elem w (l1 ++ w :: l2) = l1 ++ l2.
Proof.
  intros (_ & H & [Hw _]%NoDup_cons)%NoDup_app. unfold remove_elem. rewrite List.filter_app. cbn.
  rewrite Z.eqb_refl. cbn. fold (remove_elem w l1). fold (remove_elem w l2).
  rewrite !remove_elem_notin; [done|done|]. intros Hin. by apply (H w Hin); left.
Qed.

(** The state after [w], whose thread is [th], has been woken. *)
Definition woken (w : Z) (th : thread) (l : list Z) (k : K) : K :=
  set_threads (<[w := set_status THREAD_READY th]> (threads k))
    (set_ready_list (<[Z.to_nat (priority th) := l ++ [w]]> (ready_list k)) k).

(** Restoring the interrupt level. *)
Lemma twp_set_level_back b (Q : bool -> K -> Prop) k :
  (b = INTR_ON -> in_external_intr k = false) -> (forall l, Q l (set_level b k)) ->
  twp (intr_set_level b) Q k.
Proof.
  intros Hx HQ. destruct b; [|eapply twp_intro; [done|apply HQ]].
  apply twp_bind, twp_gets, twp_bind, twp_gets, twp_bind, twp_assert; [by rewrite Hx|].
  apply twp_bind, twp_modify, twp_ret, HQ.
Qed.

Lemma twp_sema_search k e0 r th0 (Q : Z * Z -> K -> Prop) :
  (forall x, x ∈ e0 :: r -> is_Some (threads k !! x)) -> threads k !! e0 = Some th0 ->
  (forall l1 w l2 th, e0 :: r = l1 ++ w :: l2 -> threads k !! w = Some th ->
     (forall x thx, threads k !! x = Some thx -> x ∈ l1 -> priority thx < priority th) ->
     (forall x thx, threads k !! x = Some thx -> x ∈ l2 -> priority thx <= priority th) ->
     Q (w, priority th) k) ->
  twp (sema_up_loop (e0 :: r) e0 (priority th0)) Q k.
Proof.
  intros Hth Ht0 HQ. set (pr := fun x => default 0 (priority <$> threads k !! x)).
  assert (forall x th, threads k !! x = Some th -> priority th = pr x) as Hpr
    by (intros x th Ht; unfold pr; by rewrite Ht).
  cbn [sema_up_loop]. apply twp_bind. eapply twp_get_thread; [exact Ht0|]. cbv zeta.
  rewrite Z.gtb_ltb, Z.ltb_irrefl, (Hpr e0 th0 Ht0).
  apply (twp_sema_up_loop pr r [] e0 []); [|by intros x ?%elem_of_nil..|].
  { intros x Hin. destruct (Hth x Hin) as [th Ht]. eauto. }
  intros l1 w l2 E H1 H2. destruct (Hth w) as [th Ht]; [cbn in E; rewrite E; set_solver|].
  rewrite <- (Hpr w th Ht) in *. apply (HQ l1 w l2 th E Ht).
  - intros x thx Hx Hin. rewrite (Hpr x thx Hx). auto.
  - intros x thx Hx Hin. rewrite (Hpr x thx Hx). auto.
Qed.

Lemma twp_sema_up_wake (uninit : K -> Z) F run dead k s v ws (Q : Z -> K -> Prop) :
  inv F run dead k -> sema_nonnull s = true -> semas k !! s = Some (Semaphore v ws) -> ws <> [] ->
  (level k = INTR_ON -> in_external_intr k = false) ->
  (forall l1 w l2 th l, ws = l1 ++ w :: l2 -> threads k !! w = Some th ->
     (forall x thx, threads k !! x = Some thx -> x ∈ l1 -> priority thx < priority th) ->
     (forall x thx, threads k !! x = Some thx -> x ∈ l2 -> priority thx <= priority th) ->
     ready_list k !! Z.to_nat (priority th) = Some l ->
     Q (priority th)
       (set_semas (<[s := Semaphore (u32 (v + 1)) (l1 ++ l2)]> (semas k)) (woken w th l k))) ->
  twp (sema_up_wake uninit s) Q k.
Proof.
  intros H Hn Hs Hws Hx HQ. apply twp_bind, twp_assert; [done|]. apply twp_bind, twp_gets.
  apply twp_bind. eapply twp_intro; [done|]. cbn [fst snd]. set (k0 := set_level INTR_OFF k).
  assert (inv F run dead k0) as H0 by by apply irr_level.
  apply twp_bind, twp_bind, twp_get. change (semas k0) with (semas k). rewrite Hs. apply twp_ret.
  destruct ws as [|e0 r]; [done|]. cbn [waiters value].
  assert (forall x, x ∈ e0 :: r -> exists th, threads k !! x = Some th /\
    status th = THREAD_BLOCKED) as Hth by (intros x Hin; by apply (inv_wait _ _ _ _ H _ _ x Hs)).
  destruct (Hth e0) as (th0 & Ht0 & _); [by left|].
  apply twp_bind, twp_bind. eapply twp_get_thread; [exact Ht0|].
  apply twp_bind, (twp_sema_search k0 e0 r th0); [|exact Ht0|].
  { intros x Hin. destruct (Hth x Hin) as (th & ? & _). eauto. }
  intros l1 w l2 th E Ht H1 H2. destruct (Hth w) as (th' & Ht' & Hst); [rewrite E; set_solver|].
  change (threads k0) with (threads k) in *. simplify_eq.
  destruct (inv_prio_queue _ _ _ _ _ _ H Ht) as [Hlt _].
  destruct (lookup_lt_is_Some_2 _ _ Hlt) as [l Hl].
  pose proof (inv_wait_nodup _ _ _ _ H _ _ Hs) as Hnd. cbn [waiters] in Hnd.
  cbn [fst snd]. rewrite E in Hs, Hnd |- *. rewrite remove_elem_middle by done.
  apply twp_bind, twp_modify, twp_bind. eapply (twp_unblock F run dead); [|exact Ht|done|done|exact Hl|].
  { apply (inv_sema F run dead k0 s); [done| |].
    - intros u Hu. eexists. split; [exact Hs|]. cbn in Hu |- *. set_solver.
    - eapply sublist_NoDup; [exact Hnd|]. apply sublist_app; [done|by apply sublist_cons]. }
  apply twp_ret, twp_bind, twp_bind, twp_get. cbn. rewrite lookup_insert_eq.
  apply twp_ret, twp_bind, twp_modify, twp_bind, twp_set_level_back; [done|]. intros _.
  apply twp_ret. cbn. rewrite insert_insert_eq.
  specialize (HQ l1 w l2 th l E Ht H1 H2 Hl). by destruct k.
Qed.

(** No ready thread has a higher priority than the one that was chosen. *)
Lemma chooses_top F dead k k' thc t th :
  inv F (Some (cur k')) dead k' -> chooses k (cur k') (ready_list k') ->
  (exists th0, threads k !! cur k' = Some th0 /\
     threads k' !! cur k' = Some (set_status THREAD_RUNNING th0)) ->
  (forall i l x, ready_list k !! i = Some l -> x ∈ l ->
     exists thx, threads k !! x = Some thx /\ priority thx = Z.of_nat i) ->
  threads k' !! cur k' = Some thc -> threads k' !! t = Some th ->
  status th = THREAD_READY -> t <> idle_thread k' ->
  priority th <= priority thc.
Proof.
  intros H Hc (th0 & Ht0 & Ht0') Hq Htc Ht Hs Hi.
  destruct (inv_queued _ _ _ _ H _ _ Ht Hs Hi) as (l & Hl & Hin).
  pose proof (inv_prio _ _ _ _ H _ _ Ht) as Hp. unfold PRI_MIN, PRI_MAX in Hp.
  rewrite Htc in Ht0'. injection Ht0' as ->.
  remember (cur k') as c eqn:Ec. remember (ready_list k') as rl eqn:Er.
  destruct Hc as [i c r Hi' Hhi|Hall].
  - destruct (Hq i (c :: r) c Hi') as (x & Hx & Hpx); [by left|].
    assert (x = th0) as -> by congruence. cbn. rewrite Hpx.
    destruct (decide (priority th <= Z.of_nat i)) as [|Hgt]; [done|exfalso].
    rewrite list_lookup_insert_ne, (Hhi (Z.to_nat (priority th))) in Hl by lia.
    injection Hl as <-. by apply elem_of_nil in Hin.
  - rewrite (Hall (Z.to_nat (priority th))) in Hl by lia. injection Hl as <-.
    by apply elem_of_nil in Hin.
Qed.

(** The order in which the queues are searched. *)
Lemma inv_queue_priority F run dead k i l x :
  inv F run dead k -> ready_list k !! i = Some l -> x ∈ l ->
  exists thx, threads k !! x = Some thx /\ priority thx = Z.of_nat i.
Proof.
  intros H Hl Hx. destruct (inv_ready _ _ _ _ H _ _ _ Hl Hx) as (_ & th & ? & _ & ?). eauto.
Qed.

(** [schedule] in a state in which the running thread has given up the
    processor: what [thread_yield] and [thread_block] need of it. *)
Lemma schedule_dispatch F k th :
  inv F None None k -> threads k !! cur k = Some th -> status th <> THREAD_DYING ->
  level k = INTR_OFF -> idle_thread k <> NULL ->
  twp schedule (fun _ k' => inv F (Some (cur k')) None k' /\ chooses k (cur k') (ready_list k') /\
    forall t tht thc, threads k' !! t = Some tht -> status tht = THREAD_READY ->
      t <> idle_thread k' -> threads k' !! cur k' = Some thc -> priority tht <= priority thc) k.
Proof.
  intros H Ht Hd Hl Hi.
  destruct (twp_elim _ _ _ (twp_schedule F None k th Ht H (or_introl (conj eq_refl Hd)) Hl Hi))
    as ([] & k' & E & Hch & _ & Hth).
  eapply twp_intro; [exact E|].
  destruct (wp_ok _ _ _ _ _ (schedule_ok F None k th Ht H (or_introl (conj eq_refl Hd))) E) as [H' _].
  split_and!; [done|done|]. intros t tht thc Htt Hst Hti Htc.
  eapply (chooses_top F None k k'); eauto. intros. by eapply inv_queue_priority.
Qed.

(** ** The timer *)

Definition due (now : Z) (a : thread_alarm) : bool := time_wake a <=? now.

(** What the loop over the alarms does: [k'] is the state after it. *)
Definition alarms_rung (rest : list thread_alarm) (k k' : K) : Prop :=
  (forall a, a ∈ rest -> due (ticks k) a = true ->
     exists th, threads k' !! alarm_thread a = Some th /\ status th = THREAD_READY) /\
  (forall u, (forall a, a ∈ rest -> due (ticks k) a = true -> alarm_thread a <> u) ->
     threads k' !! u = threads k !! u) /\
  (existsb (due (ticks k)) rest = true -> yield_on_return k' = true).

Lemma twp_alarm_loop F run dead rest : forall kept k,
  inv F run dead k -> list_alarm k = kept ++ rest -> level k = INTR_OFF ->
  in_external_intr k = true ->
  twp (alarm_loop kept rest) (fun _ k' => inv F run dead k' /\ ticks k' = ticks k /\
    list_alarm k' = kept ++ List.filter (fun a => negb (due (ticks k) a)) rest /\
    alarms_rung rest k k' /\ (yield_on_return k = true -> yield_on_return k' = true)) k.
Proof.
  induction rest as [|a rest IH]; intros kept k H Ea Hl Hx; cbn [alarm_loop].
  { apply twp_ret. split_and!; [done..| |done]. repeat split; [by intros ? ?%elem_of_nil|done]. }
  apply twp_bind, twp_gets. fold (due (ticks k) a). cbn [List.filter].
  destruct (due (ticks k) a) eqn:Ed; cbn [negb].
  - destruct (inv_alarm _ _ _ _ H a) as (_ & _ & th & Ht & Hs); [rewrite Ea; set_solver|].
    destruct (inv_prio_queue _ _ _ _ _ _ H Ht) as [Hlt _].
    destruct (lookup_lt_is_Some_2 _ _ Hlt) as [l Hq].
    apply twp_bind. eapply (twp_unblock F run dead); [done..|]. apply twp_bind, twp_bind, twp_gets.
    apply twp_bind, twp_assert; [done|]. apply twp_modify, twp_bind, twp_modify.
    pose proof (alarm_wake F run dead k kept a rest th l H Ea Ht Hs Hq) as Hw.
    apply (irr_yield_on_return true) in Hw.
    match goal with |- twp _ _ ?s => set (k1 := s) end.
    eapply twp_mono; [by apply (IH kept k1)|]. intros _ k' (H' & Et & El & (R1 & R2 & R3) & R4).
    pose proof (inv_alarm_nodup _ _ _ _ H) as Hnd. rewrite Ea, map_app in Hnd.
    apply NoDup_app in Hnd as (_ & _ & [Hna _]%NoDup_cons).
    assert (threads k' !! alarm_thread a = Some (set_status THREAD_READY th)) as Hth.
    { rewrite R2; [cbn; by rewrite lookup_insert_eq|]. intros b Hb _ E. apply Hna.
      rewrite <- E. by apply (list_elem_of_fmap_2 alarm_thread). }
    split_and!; [done|done|done| |intros _; by apply R4]. repeat split.
    + intros b [->|Hb]%elem_of_cons Hd; [by eexists|by apply R1].
    + intros u Hu. rewrite R2 by (intros b Hb; apply Hu; by right). cbn.
      apply lookup_insert_ne. apply Hu; [by left|done].
    + intros _. by apply R4.
  - eapply twp_mono; [apply (IH (kept ++ [a]) k); [done|by rewrite <- app_assoc|done|done]|].
    intros _ k' (H' & Et & El & (R1 & R2 & R3) & R4). split_and!; [done|done| | |done].
    { by rewrite El, <- app_assoc. }
    repeat split.
    + intros b [->|Hb]%elem_of_cons Hd; [congruence|by apply R1].
    + intros u Hu. apply R2. intros b Hb. apply Hu. by right.
    + cbn. by rewrite Ed.
Qed.

(** One tick, without the options that change priorities. *)
Lemma twp_thread_tick F k (Q : unit -> K -> Prop) :
  inv F (Some (cur k)) None k -> in_external_intr k = true ->
  thread_mlfqs k = false -> thread_prior_aging k = false ->
  (forall k', inv F (Some (cur k)) None k' -> cur k' = cur k -> threads k' = threads k ->
     list_alarm k' = list_alarm k -> level k' = level k -> in_external_intr k' = true ->
     ticks k' = ticks k -> Q tt k') ->
  twp thread_tick Q k.
Proof.
  intros H Hx Hm Ha HQ. apply twp_bind. eapply twp_thread_current; [exact H|].
  apply twp_bind, twp_gets, twp_bind.
  eapply (twp_mono _ (fun _ k1 => exists i j, k1 = set_idle_ticks i (set_kernel_ticks j k))).
  { destruct (_ =? _); apply twp_modify; [exists (i64 (idle_ticks k + 1)), (kernel_ticks k)|
      exists (idle_ticks k), (i64 (kernel_ticks k + 1))]; by destruct k. }
  intros _ k1 (i & j & ->). apply twp_bind, twp_modify, twp_bind, twp_gets, twp_bind.
  eapply (twp_mono _ (fun _ k2 => exists t y,
    k2 = set_yield_on_return y (set_thread_ticks t (set_idle_ticks i (set_kernel_ticks j k))))).
  { destruct (_ <=? _).
    - apply twp_bind, twp_gets, twp_bind, twp_assert; [done|]. apply twp_modify. by eexists _, _.
    - apply twp_ret. exists (u32 (thread_ticks k + 1)), (yield_on_return k). by destruct k. }
  intros _ k2 (t & y & ->). apply twp_bind, twp_gets, twp_bind. cbn [thread_mlfqs set_yield_on_return
    set_thread_ticks set_idle_ticks set_kernel_ticks]. rewrite Hm. apply twp_ret, twp_bind, twp_gets.
  cbn [thread_prior_aging set_yield_on_return set_thread_ticks set_idle_ticks set_kernel_ticks].
  rewrite Ha. apply twp_ret, HQ; try done.
  apply irr_yield_on_return, irr_thread_ticks, irr_idle_ticks, irr_kernel_ticks. done.
Qed.
End Total.

(** ** Theorems *)

Section Theorems.
Context {P : Type} {PA : PageAllocator P}.
Local Notation K := (kernel P).

(** The states of the thread system that the scheduler maintains. *)
Record well_scheduled (k : K) : Prop := WellScheduled {
  (* exactly one thread runs *)
  ws_running t :
    (exists th, threads k !! t = Some th /\ status th = THREAD_RUNNING) <-> t = cur k;
  (* the queues hold exactly the ready threads, by priority, once *)
  ws_ready t i :
    (exists l, ready_list k !! i = Some l /\ t ∈ l) <->
    t <> idle_thread k /\ exists th, threads k !! t = Some th /\
      status th = THREAD_READY /\ priority th = Z.of_nat i;
  ws_ready_once i l : ready_list k !! i = Some l -> NoDup l;
  (* who waits for a semaphore or sleeps is blocked, and waits once *)
  ws_waiting s x t :
    semas k !! s = Some x -> t ∈ waiters x ->
    exists th, threads k !! t = Some th /\ status th = THREAD_BLOCKED;
  ws_waits_once s1 s2 x1 x2 t :
    semas k !! s1 = Some x1 -> semas k !! s2 = Some x2 -> t ∈ waiters x1 -> t ∈ waiters x2 ->
    s1 = s2;
  ws_sleeping a :
    a ∈ list_alarm k ->
    exists th, threads k !! alarm_thread a = Some th /\ status th = THREAD_BLOCKED;
  (* the list of all threads *)
  ws_all t : t ∈ all_list k -> exists th, threads k !! t = Some th /\ status th <> THREAD_DYING;
  ws_all_once : NoDup (all_list k);
  (* priorities, stack overflow detection, memory *)
  ws_thread t th :
    threads k !! t = Some th ->
    PRI_MIN <= priority th <= PRI_MAX /\ magic th = THREAD_MAGIC /\
    (t = initial_thread k \/ pa_used (pool k) t)
}.

Lemma inv_well_scheduled F k : inv F (Some (cur k)) None k -> well_scheduled k.
Proof.
  intros H. constructor.
  - intros t. split.
    + intros (th & Ht & Hs). apply (inv_run _ _ _ _ H _ _ Ht) in Hs. congruence.
    + intros ->. destruct (inv_run_alive _ _ _ _ H _ eq_refl) as [th Ht]. exists th.
      split; [done|]. by apply (inv_run _ _ _ _ H _ _ Ht).
  - intros t i. split.
    + intros (l & Hl & Hin). exact (inv_ready _ _ _ _ H _ _ _ Hl Hin).
    + intros (Hi & th & Ht & Hs & Hp). destruct (inv_queued _ _ _ _ H _ _ Ht Hs Hi) as (l & Hl & Hin).
      rewrite Hp, Nat2Z.id in Hl. eauto.
  - apply H.
  - intros s x t Hx Hin. by destruct (inv_wait _ _ _ _ H _ _ _ Hx Hin) as (_ & _ & ?).
  - apply H.
  - intros a Ha. by destruct (inv_alarm _ _ _ _ H _ Ha) as (_ & _ & ?).
  - apply H.
  - apply H.
  - intros t th Ht. split_and!; [by eapply inv_prio|by eapply inv_prio|by eapply inv_magic|].
    apply (inv_pool _ _ _ _ H). eauto.
Qed.


(** C28: Priority scheduling.  In a state that satisfies the invariant, once
    there is an idle thread, [thread_yield] never fails; the thread that runs
    afterwards is the first of the highest nonempty queue, where the caller
    has been put at the end of the queue of its priority, and no ready thread
    has a higher priority than it. *)
Theorem thread_yield_priority F k :
  inv F (Some (cur k)) None k -> in_external_intr k = false -> idle_thread k <> NULL ->
  exists k1 k', thread_yield_prepare k = Ok (level k, k1) /\
    thread_yield_switch k = Ok (level k, k') /\
    inv F (Some (cur k')) None k' /\ chooses k1 (cur k') (ready_list k') /\
    (forall t tht thc, threads k' !! t = Some tht -> status tht = THREAD_READY ->
       t <> idle_thread k' -> threads k' !! cur k' = Some thc -> priority tht <= priority thc).
Proof.
  intros H Hx Hi.
  destruct (twp_elim _ _ _ (thread_yield_prepare_ok F k H Hx)) as (old & k1 & E1 & -> & Hy).
  destruct Hy as [H1 _ Ec Ei El (th & Ht & Hs)]. rewrite <- Ec in Ht.
  destruct (twp_elim _ _ _ (schedule_dispatch F k1 th H1 Ht ltac:(by rewrite Hs) El ltac:(by rewrite Ei)))
    as ([] & k' & E2 & H' & Hch & Htop).
  exists k1, k'. split_and!; try done.
  unfold thread_yield_switch, bind. rewrite E1. cbn [res_bind fst snd]. by rewrite E2.
Qed.

(** C27: [sema_up] on a semaphore that threads wait for never fails and wakes
    the right thread: of the waiters of highest priority, the one that has
    waited longest.  That thread becomes ready, at the end of the queue of its
    priority, the others keep waiting in the same order, and the value is
    incremented. *)
Theorem sema_up_wakes_highest (uninit : K -> Z) F run dead k s v ws :
  inv F run dead k -> sema_nonnull s = true -> semas k !! s = Some (Semaphore v ws) -> ws <> [] ->
  (level k = INTR_ON -> in_external_intr k = false) ->
  exists l1 w l2 th l, ws = l1 ++ w :: l2 /\ threads k !! w = Some th /\
    (forall x thx, threads k !! x = Some thx -> x ∈ l1 -> priority thx < priority th) /\
    (forall x thx, threads k !! x = Some thx -> x ∈ l2 -> priority thx <= priority th) /\
    ready_list k !! Z.to_nat (priority th) = Some l /\
    sema_up_wake uninit s k = Ok (priority th,
      set_semas (<[s := Semaphore (u32 (v + 1)) (l1 ++ l2)]> (semas k)) (woken w th l k)).
Proof.
  intros H Hn Hs Hws Hx.
  destruct (twp_elim (sema_up_wake uninit s) (fun p k' =>
    exists l1 w l2 th l, ws = l1 ++ w :: l2 /\ threads k !! w = Some th /\
    (forall x thx, threads k !! x = Some thx -> x ∈ l1 -> priority thx < priority th) /\
    (forall x thx, threads k !! x = Some thx -> x ∈ l2 -> priority thx <= priority th) /\
    ready_list k !! Z.to_nat (priority th) = Some l /\ p = priority th /\
    k' = set_semas (<[s := Semaphore (u32 (v + 1)) (l1 ++ l2)]> (semas k)) (woken w th l k)) k)
    as (p & k' & E & l1 & w & l2 & th & l & Hw & Ht & H1 & H2 & Hl & -> & ->).
  { eapply (twp_sema_up_wake uninit F run dead k s v ws); try done.
    intros. eexists _, _, _, _, _. by split_and!. }
  by exists l1, w, l2, th, l.
Qed.

End Theorems.

(** The priority that the BSD scheduler computes is
    [PRI_MAX - recent_cpu / 4 - nice * 2], truncated to an integer and brought
    into the range of priorities, for every niceness and every processor usage
    below 65536 ticks; no operation overflows. *)
Theorem BSD_priority_formula rcpu nc :
  -20 <= nc <= 20 -> - 2 ^ 30 <= rcpu <= 2 ^ 30 ->
  BSD_calc_priority_this rcpu nc
  = Ok (Z.max PRI_MIN (Z.min PRI_MAX
         (Z.quot ((PRI_MAX - 2 * nc) * 16384 - Z.quot rcpu 4) 16384))).
Proof.
  intros Hn Hr. unfold BSD_calc_priority_this. cbn [fp_devide Z.eqb res_bind].
  assert (- 2 ^ 28 <= Z.quot rcpu 4 <= 2 ^ 28) by (Z.to_euclidean_division_equations; lia).
  unfold fp_sub, fp_convert_to_fp, fp_convert_to_int_down, FP_REAR, FP_FORMAT_32BIT, PRI_MAX, PRI_MIN, INT_REAR.
  rewrite (i32_id (Z.quot rcpu 4)), (i32_id (nc * 2)), (i32_id (63 - nc * 2)) by lia.
  rewrite (i32_id ((63 - nc * 2) * 16384)), i32_id by lia. rewrite (Z.mul_comm nc 2).
  set (q := Z.quot _ 16384). destruct (Z.gtb_spec q 63); [f_equal; cbn; lia|].
  destruct (Z.ltb_spec q 0); f_equal; lia.
Qed.

Lemma BSD_priority_formula_witness : BSD_calc_priority_this (40 * 16384) (-3) = Ok 59.
Proof. by rewrite (BSD_priority_formula (40 * 16384) (-3)) by lia. Defined.

(** ** A run of the kernel

    A machine with 300 pages of memory; the initial thread creates a thread
    that sleeps, then a worker and an urgent thread, which wait for a
    semaphore. *)

Definition demo_main : client :=
  Call (SemaInit (SemaAt 500) 0) (fun _ =>
  Call (Create "sleeper" 50 8 1 eq_refl) (fun _ =>
  Call (Create "worker" 31 7 0 eq_refl) (fun _ =>
  Call (Create "urgent" 40 7 0 eq_refl) (fun _ =>
  Call (SemaUp (SemaAt 500)) (fun _ => Done))))).

Definition demo_prog (fn ax : Z) : client :=
  if fn =? 8 then Call (Sleep ax) (fun _ => Done)
  else Call (SemaDown (SemaAt 500)) (fun _ => Done).

Definition demo_uninit (k : kernel pools) : Z := 0.

(** The page of the loader's stack. *)
Definition demo_page : Z := 0xc000e000.

(** The state after [n] steps of the processor; [fuel] bounds the actions of
    [thread_init]. *)
Definition demo (fuel n : nat) : res (machine (kernel pools)) :=
  r <-! solo fuel (thread_init demo_uninit) (boot_state demo_page small_pools false false);;
  run (kernel_processor (programs demo_uninit demo_prog) demo_uninit) (replicate n Cpu)
    (Machine r.2 {[demo_page := main_code demo_uninit 400 demo_main]}).

Lemma demo_page_unmanaged : ~ managed small_pools demo_page.
Proof. intros [(i & Hi & E)|(i & Hi & E)]; cbn in Hi; unfold page, demo_page in E; cbn in E; lia. Qed.

Lemma demo_inv fuel n m :
  demo fuel n = Ok m -> exists F, inv F (Some (cur (kst m))) None (kst m).
Proof.
  unfold demo. intros (r & Hr & Hrun)%res_bind_inv. assert (demo_page <> NULL) as Hn by done.
  destruct (rt_thread_init demo_uninit demo_page small_pools false false Hn) as (n0 & Hn0).
  apply twp_elim in Hn0 as ([] & k1 & E & th & Hth & Hb & Hths).
  rewrite (solo_det _ _ _ _ _ _ Hr E) in Hrun.
  pose proof (machine_boot demo_uninit demo_page small_pools th k1 400 demo_main
    Hn (proj1 small_pools_wf) demo_page_unmanaged Hth Hb Hths) as Hm.
  destruct (machine_inv_reachable demo_uninit (programs demo_uninit demo_prog) _ m
    (programs_safe demo_uninit demo_prog) Hm (run_reachable _ _ _ _ Hrun)) as (F & _ & H & _).
  eauto.
Qed.

(** A property of the state after [n] steps, by evaluation. *)
Definition demo_check (fuel n : nat) (f : kernel pools -> bool) : bool :=
  match demo fuel n with Ok m => f (kst m) | _ => false end.

Lemma demo_state fuel n f :
  demo_check fuel n f = true ->
  exists k F, inv F (Some (cur k)) None k /\ f k = true.
Proof.
  unfold demo_check. destruct (demo fuel n) as [m| | |] eqn:E; try done. intros Hf.
  destruct (demo_inv fuel n m E) as [F H]. eauto.
Qed.


(** After 190 steps the initial thread runs and the urgent thread is ready. *)
Lemma thread_yield_priority_witness :
  exists k k' : kernel pools, cur k = demo_page /\ thread_yield_switch k = Ok (true, k') /\
    forall t th thc, threads k' !! t = Some th -> status th = THREAD_READY ->
      t <> idle_thread k' -> threads k' !! cur k' = Some thc -> priority th <= priority thc.
Proof.
  destruct (demo_state 200 190 (fun k => level k && negb (in_external_intr k) &&
    negb (idle_thread k =? NULL) && (cur k =? demo_page))) as (k & F & H & Hf); [by vm_compute|].
  apply andb_true_iff in Hf as [Hf Hc%Z.eqb_eq].
  apply andb_true_iff in Hf as [[Hl Hx%negb_true_iff]%andb_true_iff Hi%negb_true_iff%Z.eqb_neq].
  destruct (thread_yield_priority F k H Hx Hi) as (k1 & k' & _ & E & _ & _ & Htop).
  rewrite Hl in E. by exists k, k'.
Defined.

(** After 188 steps the worker and the urgent thread wait, in this order. *)
Lemma sema_up_wakes_highest_witness :
  exists k k' p, semas k !! SemaAt 500 = Some (Semaphore 0 [3222286336; 3222290432]) /\
    sema_up_wake demo_uninit (SemaAt 500) k = Ok (p, k').
Proof.
  destruct (demo_state 200 188 (fun k => negb (in_external_intr k) &&
    bool_decide (semas k !! SemaAt 500 = Some (Semaphore 0 [3222286336; 3222290432]))))
    as (k & F & H & Hf); [by vm_compute|].
  apply andb_true_iff in Hf as [Hx%negb_true_iff Hs%bool_decide_eq_true].
  destruct (sema_up_wakes_highest demo_uninit F _ _ k (SemaAt 500) 0 _ H eq_refl Hs ltac:(done)
    (fun _ => Hx)) as (l1 & w & l2 & th & l & _ & _ & _ & _ & _ & E).
  by eexists k, _, _.
Defined.

