(* ===== verification/Intq.v ===== *)
(** * Interrupt queues (devices/intq.c)

    A circular buffer of 64 bytes shared by threads and interrupt handlers.
    The state is that of the kernel together with the queue; operations that
    may block are sequences of actions, as in Thread.v. *)

From S2P Require Import Prelude PageAlloc Palloc Code KernelState Thread ThreadInv ThreadSteps.
From S2P Require Import ThreadTheorems.
Local Open Scope Z_scope.

(** ** The code *)

Definition INTQ_BUFSIZE : Z := 64.

Record intq := Intq {
  lock : lock_id;
  not_full : Z;
  not_empty : Z;
  buf : list Z;
  head : Z;
  tail : Z
}.

Definition set_not_full (x : Z) (q : intq) : intq :=
  Intq (lock q) x (not_empty q) (buf q) (head q) (tail q).
Definition set_not_empty (x : Z) (q : intq) : intq :=
  Intq (lock q) (not_full q) x (buf q) (head q) (tail q).
Definition set_buf (x : list Z) (q : intq) : intq :=
  Intq (lock q) (not_full q) (not_empty q) x (head q) (tail q).
Definition set_head (x : Z) (q : intq) : intq :=
  Intq (lock q) (not_full q) (not_empty q) (buf q) x (tail q).
Definition set_tail (x : Z) (q : intq) : intq :=
  Intq (lock q) (not_full q) (not_empty q) (buf q) (head q) x.

(** Which of the two waiters a call is about. *)
Inductive waiter : Set := NotFull | NotEmpty.

Definition get_waiter (w : waiter) (q : intq) : Z :=
  match w with NotFull => not_full q | NotEmpty => not_empty q end.
Definition set_waiter (w : waiter) (x : Z) (q : intq) : intq :=
  match w with NotFull => set_not_full x q | NotEmpty => set_not_empty x q end.

(** [(pos + 1) % INTQ_BUFSIZE]. *)
Definition next (pos : Z) : Z := Z.rem (i32 (pos + 1)) INTQ_BUFSIZE.

Section Intq.
Context {P : Type} {PA : PageAllocator P}.
Context (uninit : kernel P -> Z).

Definition state : Type := (kernel P * intq)%type.

(** Kernel code in the larger state. *)
Definition on_kernel {A : Type} (m : M (kernel P) A) : M state A :=
  fun s => r <-! m s.1;; Ok (r.1, (r.2, s.2)).
Definition on_queue (f : intq -> intq) : M state unit := modify (fun s => (s.1, f s.2)).

Fixpoint klift {A : Type} (c : code (kernel P) A) : code state A :=
  match c with
  | Ret a => Ret a
  | Act m k => Act (on_kernel m) (fun b => klift (k b))
  | While m body k => While (on_kernel m) (klift body) (klift k)
  end.

Definition interrupts_off : M state unit :=
  l <- on_kernel intr_get_level;; assert (Bool.eqb l INTR_OFF).

Definition intq_init (l : lock_id) : M state unit :=
  on_kernel (lock_init l);;;
  on_queue (fun q => set_tail 0 (set_head 0 (set_not_full NULL (set_not_empty NULL
    (Intq l (not_full q) (not_empty q) (buf q) (head q) (tail q)))))).

Definition intq_empty : M state bool :=
  interrupts_off;;; gets (fun s => head s.2 =? tail s.2).

Definition intq_full : M state bool :=
  interrupts_off;;; gets (fun s => next (head s.2) =? tail s.2).

(** The condition that [wait] waits for does not hold yet. *)
Definition condition (w : waiter) : M state bool :=
  match w with NotEmpty => intq_empty | NotFull => intq_full end.

Definition wait (w : waiter) : M state unit :=
  ctx <- on_kernel intr_context;;
  assert (negb ctx);;;
  interrupts_off;;;
  b <- condition w;;
  assert b;;;
  t <- on_kernel thread_current;;
  on_queue (set_waiter w t);;;
  on_kernel thread_block.

Definition signal (w : waiter) : M state unit :=
  interrupts_off;;;
  b <- condition w;;
  assert (negb b);;;
  t <- gets (fun s => get_waiter w s.2);;
  if negb (t =? NULL) then
    on_kernel (thread_unblock_intr_off t);;; on_queue (set_waiter w NULL)
  else ret tt.

(** [while (condition) ...], and what follows it. *)
Definition await (w : waiter) : code state unit :=
  (act interrupts_off;;;
   while (condition w)
     (act (ctx <- on_kernel intr_context;; assert (negb ctx))%c;;;
      l <- act (gets (fun s : state => lock s.2));;
      klift (lock_acquire l);;;
      act (wait w);;;
      klift (lock_release uninit l)))%code.

Definition take : M state Z :=
  q <- gets snd;;
  byte <- lift (res_of_option (buf q !! Z.to_nat (tail q)));;
  on_queue (fun q => set_tail (next (tail q)) q);;;
  signal NotFull;;;
  ret byte.

Definition intq_getc : code state Z := (await NotEmpty;;; act take)%code.

Definition add (byte : Z) : M state unit :=
  q <- gets snd;;
  lift (res_of_option (buf q !! Z.to_nat (head q)));;;
  on_queue (fun q => set_buf (<[Z.to_nat (head q) := byte]> (buf q)) q);;;
  on_queue (fun q => set_head (next (head q)) q);;;
  signal NotEmpty.

Definition intq_putc (byte : Z) : code state unit := (await NotFull;;; act (add byte))%code.

(** ** The ring as a sequence *)

Record intq_wf (q : intq) : Prop := IntqWf {
  iw_buf : length (buf q) = 64%nat;
  iw_head : 0 <= head q < 64;
  iw_tail : 0 <= tail q < 64
}.

(** The bytes from [tail] to [head]. *)
Definition contents (q : intq) : list Z :=
  map (fun i => default 0 (buf q !! Z.to_nat ((tail q + i) mod 64)))
    (seqZ 0 ((head q - tail q) mod 64)).

Lemma next_mod p : 0 <= p < 64 -> next p = (p + 1) mod 64.
Proof.
  intros Hp. unfold next, INTQ_BUFSIZE. rewrite i32_id by lia. by rewrite Z.rem_mod_nonneg by lia.
Qed.

Lemma contents_length q : Z.of_nat (length (contents q)) = (head q - tail q) mod 64.
Proof.
  unfold contents. rewrite length_map, length_seqZ. pose proof (Z.mod_pos_bound (head q - tail q) 64). lia.
Qed.

Lemma empty_contents q : intq_wf q -> (head q =? tail q) = true <-> contents q = [].
Proof.
  intros [_ Hh Ht]. rewrite Z.eqb_eq, <- length_zero_iff_nil. pose proof (contents_length q) as H.
  split; intros E; [rewrite E, Z.sub_diag, Z.mod_0_l in H; lia|].
  Z.to_euclidean_division_equations; lia.
Qed.

Lemma full_contents q :
  intq_wf q -> (next (head q) =? tail q) = true <-> length (contents q) = 63%nat.
Proof.
  intros [_ Hh Ht]. rewrite Z.eqb_eq, next_mod by done. pose proof (contents_length q) as H.
  Z.to_euclidean_division_equations; lia.
Qed.

Lemma contents_take q :
  intq_wf q -> contents q <> [] ->
  exists b, buf q !! Z.to_nat (tail q) = Some b /\
    contents q = b :: contents (set_tail (next (tail q)) q) /\
    intq_wf (set_tail (next (tail q)) q).
Proof.
  intros Hwf Hne. pose proof Hwf as [Hb Hh Ht].
  assert (head q <> tail q) as Hd by (intros E; by apply Hne, (empty_contents q Hwf), Z.eqb_eq).
  destruct (lookup_lt_is_Some_2 (buf q) (Z.to_nat (tail q))) as [b Eb]; [lia|].
  exists b. split; [done|]. rewrite next_mod by done. split.
  - unfold contents. cbn [buf head tail set_tail].
    assert (0 < (head q - tail q) mod 64) by (Z.to_euclidean_division_equations; lia).
    rewrite seqZ_cons by done. cbn [map]. f_equal.
    + rewrite Z.add_0_r, Z.mod_small, Eb by lia. done.
    + replace (Z.pred ((head q - tail q) mod 64)) with ((head q - (tail q + 1) mod 64) mod 64)
        by (Z.to_euclidean_division_equations; lia).
      rewrite <- (fmap_add_seqZ 1 0), <- list_fmap_compose. apply list_fmap_ext.
      intros i x _. cbn. do 3 f_equal. by rewrite Zplus_mod_idemp_l, Z.add_assoc.
  - split; cbn; [done|done|]. apply Z.mod_pos_bound. lia.
Qed.

Lemma contents_add q b :
  intq_wf q -> (length (contents q) < 63)%nat ->
  let q' := set_head (next (head q)) (set_buf (<[Z.to_nat (head q) := b]> (buf q)) q) in
  contents q' = contents q ++ [b] /\ intq_wf q'.
Proof.
  intros Hwf Hlt q'. pose proof Hwf as [Hb Hh Ht]. pose proof (contents_length q) as Hlen.
  subst q'. rewrite next_mod by done. split.
  - unfold contents. cbn [buf head tail set_head set_buf]. set (n := (head q - tail q) mod 64) in *.
    replace (((head q + 1) mod 64 - tail q) mod 64) with (n + 1)
      by (unfold n in *; Z.to_euclidean_division_equations; lia).
    rewrite seqZ_app, map_app by lia. f_equal.
    + apply map_ext_in. intros i Hi%list_elem_of_In%elem_of_seqZ.
      rewrite list_lookup_insert_ne; [done|].
      unfold n in Hi. Z.to_euclidean_division_equations; lia.
    + change (seqZ (0 + n) 1) with [0 + n]. cbn [map]. rewrite Z.add_0_l.
      replace ((tail q + n) mod 64) with (head q) by (unfold n; Z.to_euclidean_division_equations; lia).
      by rewrite list_lookup_insert_eq by lia.
  - split; cbn; [by rewrite length_insert|apply Z.mod_pos_bound; lia|done].
Qed.

(** ** The operations *)

Lemma twp_on_kernel {A : Type} (m : M (kernel P) A) (Q : A -> state -> Prop) k q :
  twp m (fun a k' => Q a (k', q)) k -> twp (on_kernel m) Q (k, q).
Proof. intros (a & k' & E & H)%twp_elim. eapply twp_intro; [unfold on_kernel; cbn; by rewrite E|done]. Qed.

Lemma twp_interrupts_off (Q : unit -> state -> Prop) k q :
  level k = INTR_OFF -> Q tt (k, q) -> twp interrupts_off Q (k, q).
Proof. intros Hl HQ. apply twp_bind, twp_on_kernel, twp_gets, twp_assert; [by rewrite Hl|done]. Qed.

(** The waiting condition: the queue has no byte, or no room. *)
Definition stuck (w : waiter) (q : intq) : Prop :=
  match w with NotEmpty => contents q = [] | NotFull => length (contents q) = 63%nat end.

Lemma twp_condition w (Q : bool -> state -> Prop) k q :
  level k = INTR_OFF -> intq_wf q -> (forall b, (b = true <-> stuck w q) -> Q b (k, q)) ->
  twp (condition w) Q (k, q).
Proof.
  intros Hl Hwf HQ. destruct w; apply twp_bind, twp_interrupts_off; try done;
    apply twp_gets, HQ; [by apply full_contents|by apply empty_contents].
Qed.

(** Nobody waits, or a blocked thread does. *)
Definition waiter_ok (w : waiter) (k : kernel P) (q : intq) : Prop :=
  get_waiter w q = NULL \/
  exists th, threads k !! get_waiter w q = Some th /\ status th = THREAD_BLOCKED.

(** The kernel after a signal: a waiting thread is ready, at the end of the
    queue of its priority; nobody waits any more. *)
Definition signalled (t : Z) (k k' : kernel P) : Prop :=
  t = NULL /\ k' = k \/
  exists th l, threads k !! t = Some th /\ k' = woken t th l k.

Lemma set_waiter_contents w x q :
  contents (set_waiter w x q) = contents q /\ (intq_wf (set_waiter w x q) <-> intq_wf q).
Proof. destruct w; split; [done| |done|]; split; intros []; by split. Qed.

Lemma twp_signal F run dead w (Q : unit -> state -> Prop) k q :
  inv F run dead k -> level k = INTR_OFF -> intq_wf q -> waiter_ok w k q -> ~ stuck w q ->
  (forall k' q', signalled (get_waiter w q) k k' -> intq_wf q' -> contents q' = contents q ->
     get_waiter w q' = NULL -> Q tt (k', q')) ->
  twp (signal w) Q (k, q).
Proof.
  intros H Hl Hwf Hw Hst HQ. apply twp_bind, twp_interrupts_off; [done|].
  apply twp_bind, twp_condition; [done|done|]. intros b Hb.
  apply twp_bind, twp_assert; [destruct b; naive_solver|]. apply twp_bind, twp_gets. cbn [snd].
  destruct (Z.eqb_spec (get_waiter w q) NULL) as [E|E]; cbn [negb].
  - apply twp_ret, HQ; [by left|done..].
  - destruct Hw as [?|(th & Ht & Hs)]; [done|].
    destruct (inv_prio_queue _ _ _ _ _ _ H Ht) as [Hlt _].
    destruct (lookup_lt_is_Some_2 _ _ Hlt) as [l Hq].
    apply twp_bind, twp_on_kernel. eapply (twp_unblock F run dead); [done..|].
    apply twp_modify. cbn [fst snd]. destruct (set_waiter_contents w NULL q) as [Ec Ew].
    apply HQ; [right; by exists th, l|by apply Ew|done|by destruct w].
Qed.

Lemma rt_await w (Q : unit -> state -> Prop) k q :
  level k = INTR_OFF -> intq_wf q -> ~ stuck w q -> Q tt (k, q) ->
  runs_to (await w) Q (k, q).
Proof.
  intros Hl Hwf Hst HQ. apply rt_bind, rt_act, twp_interrupts_off; [done|].
  apply rt_while_false, twp_condition; [done|done|]. intros b Hb. split; [|done].
  destruct b; naive_solver.
Qed.

Lemma rt_getc F run dead (Q : Z -> state -> Prop) k q b r :
  inv F run dead k -> level k = INTR_OFF -> intq_wf q -> waiter_ok NotFull k q ->
  contents q = b :: r ->
  (forall k' q', signalled (not_full q) k k' -> intq_wf q' -> contents q' = r -> not_full q' = NULL ->
     Q b (k', q')) ->
  runs_to intq_getc Q (k, q).
Proof.
  intros H Hl Hwf Hw Hc HQ. apply rt_bind, rt_await; [done|done|cbn; by rewrite Hc|].
  destruct (contents_take q Hwf) as (b' & Eb & Ec & Hwf'); [by rewrite Hc|].
  rewrite Hc in Ec. injection Ec as <- ->.
  apply rt_act, twp_bind, twp_gets, twp_bind. cbn [snd]. rewrite Eb.
  eapply twp_intro; [reflexivity|]. apply twp_bind, twp_modify, twp_bind. cbn [fst snd].
  eapply (twp_signal F run dead); [done|done|done|exact Hw| |].
  - intros Hst. cbn in Hst. pose proof (contents_length q) as E1.
    rewrite Hc in E1. cbn [length] in E1. pose proof (Z.mod_pos_bound (head q - tail q) 64). lia.
  - intros k' q' ? ? ? ?. by apply twp_ret, HQ.
Qed.

Lemma rt_putc F run dead (Q : unit -> state -> Prop) k q b :
  inv F run dead k -> level k = INTR_OFF -> intq_wf q -> waiter_ok NotEmpty k q ->
  (length (contents q) < 63)%nat ->
  (forall k' q', signalled (not_empty q) k k' -> intq_wf q' -> contents q' = contents q ++ [b] ->
     not_empty q' = NULL -> Q tt (k', q')) ->
  runs_to (intq_putc b) Q (k, q).
Proof.
  intros H Hl Hwf Hw Hc HQ. apply rt_bind, rt_await; [done|done|cbn; lia|].
  destruct (contents_add q b Hwf Hc) as [Ec Hwf'].
  destruct (lookup_lt_is_Some_2 (buf q) (Z.to_nat (head q))) as [x Ex]; [destruct Hwf; lia|].
  apply rt_act, twp_bind, twp_gets, twp_bind. cbn [snd]. rewrite Ex.
  eapply twp_intro; [reflexivity|]. apply twp_bind, twp_modify, twp_bind, twp_modify. cbn [fst snd].
  eapply (twp_signal F run dead); [done|done|exact Hwf'|exact Hw| |].
  - intros Hst. assert (contents q ++ [b] = []) as Hx by (rewrite <- Ec; exact Hst).
    by destruct (contents q).
  - intros k' q' ? ? Eq ?. apply HQ; [done|done|rewrite Eq; exact Ec|done].
Qed.

Lemma getc_empty_panics k q :
  level k = INTR_OFF -> in_external_intr k = true -> (head q =? tail q) = true ->
  solo 4 intq_getc (k, q) = Panic.
Proof.
  intros Hl Hx He. destruct k. cbn in Hl, Hx. subst. cbn. by rewrite He.
Qed.

(** C30: An interrupt queue is a first-in first-out queue of at most 63 bytes.
    With interrupts off, [intq_putc] on a queue with room ends and appends its
    byte, [intq_getc] on a nonempty queue ends and returns the oldest byte;
    each wakes the thread that waits for it, if there is one, and changes
    nothing else of the kernel.  An interrupt handler that reads an empty
    queue panics the kernel. *)
Theorem intq_queue F run dead k q :
  inv F run dead k -> level k = INTR_OFF -> intq_wf q ->
  waiter_ok NotFull k q -> waiter_ok NotEmpty k q ->
  (length (contents q) <= 63)%nat /\
  (forall b, (length (contents q) < 63)%nat ->
     exists n k' q', solo n (intq_putc b) (k, q) = Ok (tt, (k', q')) /\ intq_wf q' /\
       contents q' = contents q ++ [b] /\ signalled (not_empty q) k k' /\ not_empty q' = NULL) /\
  (forall b r, contents q = b :: r ->
     exists n k' q', solo n intq_getc (k, q) = Ok (b, (k', q')) /\ intq_wf q' /\
       contents q' = r /\ signalled (not_full q) k k' /\ not_full q' = NULL) /\
  (contents q = [] -> in_external_intr k = true -> exists n, solo n intq_getc (k, q) = Panic).
Proof.
  intros H Hl Hwf Hf He. split_and!.
  - pose proof (contents_length q). pose proof (Z.mod_pos_bound (head q - tail q) 64). lia.
  - intros b Hb. destruct (rt_putc F run dead (fun _ s => intq_wf s.2 /\
      contents s.2 = contents q ++ [b] /\ signalled (not_empty q) k s.1 /\ not_empty s.2 = NULL)
      k q b) as [n Hn]; [done..|].
    apply twp_elim in Hn as ([] & [k' q'] & E & Hq). by exists n, k', q'.
  - intros b r Hc. destruct (rt_getc F run dead (fun x s => x = b /\ intq_wf s.2 /\
      contents s.2 = r /\ signalled (not_full q) k s.1 /\ not_full s.2 = NULL)
      k q b r) as [n Hn]; [done..|].
    apply twp_elim in Hn as (x & [k' q'] & E & -> & Hq). by exists n, k', q'.
  - intros Hc Hx. exists 4%nat. apply getc_empty_panics; [done|done|by apply empty_contents].
Qed.
End Intq.

(** A queue that holds three bytes across the end of the buffer, with a thread
    waiting for more. *)
Definition demo_queue (t : Z) : intq :=
  Intq (LockAt 600) NULL t (replicate 64 7) 1 62.

Lemma intq_queue_witness :
  exists (k : kernel pools) n k' q',
    contents (demo_queue 3222286336) = [7; 7; 7] /\
    solo n (intq_putc demo_uninit 5) (k, demo_queue 3222286336) = Ok (tt, (k', q')) /\
    contents q' = [7; 7; 7; 5].
Proof.
  destruct (demo_state 200 188 (fun k =>
    bool_decide (status <$> threads k !! 3222286336 = Some THREAD_BLOCKED)))
    as (k & F & H & Hf%bool_decide_eq_true); [by vm_compute|].
  apply (irr_level INTR_OFF) in H.
  destruct (threads k !! 3222286336) as [th|] eqn:Et; [|discriminate Hf].
  destruct (intq_queue demo_uninit F _ _ _ (demo_queue 3222286336) H eq_refl) as (_ & Hput & _).
  - by split.
  - by left.
  - right. exists th. split; [exact Et|by injection Hf].
  - destruct (Hput 5 ltac:(by_compute)) as (n & k' & q' & E & _ & Ec & _).
    by exists (set_level INTR_OFF k), n, k', q'.
Defined.
