(* ===== verification/Alloc.v ===== *)
(** * What the block allocator promises

    The interface between threads/malloc.c and its clients (the file system):
    the calls that hand out and free a block and their laws, in terms of the
    addresses of the blocks in use.  Malloc.v discharges it. *)

From S2P Require Import Prelude.
Local Open Scope Z_scope.

(** The outcome of an allocation: no block and no change, or a new block. *)
Definition handed {H : Type} (wf : H -> Prop) (live : H -> Z -> Prop) (h : H) (p : Z) (h' : H) : Prop :=
  wf h' /\
  ((p = NULL /\ forall q, live h' q <-> live h q) \/
   (p <> NULL /\ ~ live h p /\ forall q, live h' q <-> q = p \/ live h q)).

Class Allocator (H : Type) := {
  (** [malloc], [calloc] and [free]. *)
  al_malloc : Z -> M H Z;
  al_calloc : Z -> Z -> M H Z;
  al_free : Z -> M H unit;
  (** The heap is well formed; the address is that of a block in use. *)
  al_wf : H -> Prop;
  al_live : H -> Z -> Prop;

  al_malloc_ok n h : al_wf h -> 0 <= n < 2 ^ 31 ->
    exists p h', al_malloc n h = Ok (p, h') /\ handed al_wf al_live h p h';
  al_calloc_ok a b h : al_wf h -> 0 <= a -> 0 <= b -> a * b < 2 ^ 31 ->
    exists p h', al_calloc a b h = Ok (p, h') /\ handed al_wf al_live h p h';
  al_free_ok p h : al_wf h -> al_live h p ->
    exists h', al_free p h = Ok (tt, h') /\ al_wf h' /\ forall q, al_live h' q <-> q <> p /\ al_live h q;
  al_free_null h : al_free NULL h = Ok (tt, h);
  al_live_addr h p : al_wf h -> al_live h p -> 0 < p < 2 ^ 32 /\ p mod 4 = 0
}.

(** [realloc], for a client that keeps the contents of its block itself. *)
Definition al_realloc {H : Type} {HA : Allocator H} (old_block new_size : Z) : M H Z :=
  if new_size =? 0 then al_free old_block;;; ret NULL
  else
    new_block <- al_malloc new_size;;
    (if negb (old_block =? NULL) && negb (new_block =? NULL) then al_free old_block else ret tt);;;
    ret new_block.

(** No block and no change, or a new block in place of the old one. *)
Definition replaced {H : Type} {HA : Allocator H} (h : H) (old p : Z) (h' : H) : Prop :=
  al_wf h' /\
  ((p = NULL /\ forall q, al_live h' q <-> al_live h q) \/
   (p <> NULL /\ ~ al_live h p /\ forall q, al_live h' q <-> q = p \/ (q <> old /\ al_live h q))).

Lemma al_live_null {H : Type} {HA : Allocator H} (h : H) : al_wf h -> ~ al_live h NULL.
Proof. intros Hw Hl. destruct (al_live_addr h NULL Hw Hl). unfold NULL in *. lia. Qed.

Lemma al_realloc_ok {H : Type} {HA : Allocator H} (h : H) old n : al_wf h -> old = NULL \/ al_live h old -> 0 < n < 2 ^ 31 ->
  exists p h', al_realloc old n h = Ok (p, h') /\ replaced h old p h'.
Proof.
  intros Hw Hold Hn. unfold al_realloc. rewrite (proj2 (Z.eqb_neq n 0)) by lia.
  destruct (al_malloc_ok n h Hw ltac:(lia)) as (p & h1 & E & Hw1 & Hp). crun E. pose proof (al_live_null h Hw) as Hnull.
  destruct (Z.eqb_spec old NULL) as [->|Ho]; [|destruct (Z.eqb_spec p NULL) as [->|Hpn]]; cbn [negb andb]; rewrite ?bind_ret.
  - exists p, h1. split; [done|]. split; [done|]. destruct Hp as [?|(Hpn & Hnew & Hl)]; [by left|right]. split_and!; [done|done|].
    intros q. rewrite Hl. split; [intros [?|Hq]; [by left|right; split; [by intros ->|done]]|tauto].
  - exists NULL, h1. split; [done|]. split; [done|]. destruct Hp as [?|(? & _)]; [by left|done].
  - destruct Hp as [[? _]|(_ & Hnew & Hl)]; [done|]. destruct Hold as [?|Hold]; [done|].
    destruct (al_free_ok old h1 Hw1) as (h2 & E2 & Hw2 & Hl2); [rewrite Hl; by right|]. crun E2. exists p, h2. split; [done|]. split; [done|].
    right. split_and!; [done|done|]. intros q. rewrite Hl2, Hl. split; [tauto|]. intros [->|?]; [|tauto]. split; [|by left]. by intros ->.
Qed.
