(* ===== verification/Malloc.v ===== *)
(** * The block allocator (threads/malloc.c)

    Blocks of 16 to 1024 bytes are cut from one-page arenas, one free list per
    size; larger requests get pages of their own.  An arena header is kept
    apart from the bytes of memory, known by the address of its page, and a
    free list is the sequence of its blocks (ListTheorems.v shows that list.c
    implements it).  Each call is one step: the locks of the descriptors are
    not taken. *)

From S2P Require Import Prelude Vaddr Bitmap PageAlloc Palloc Alloc.
Local Open Scope Z_scope.

(** ** The code *)

Definition ARENA_MAGIC : Z := 0x9a548eed.

Record desc := Desc {
  block_sz : Z;
  blocks_per_arena : Z;
  free_list : list Z
}.

(** [adesc]: the index of the owning descriptor, none for a big block. *)
Record arena := Arena {
  amagic : Z;
  adesc : option nat;
  free_cnt : Z
}.

Definition sizeof_arena : Z := 12.

Record heap := Heap {
  descs : list desc;
  arenas : gmap Z arena;
  pages : pools
}.

Definition set_descs (x : list desc) (h : heap) : heap := Heap x (arenas h) (pages h).
Definition set_arenas (x : gmap Z arena) (h : heap) : heap := Heap (descs h) x (pages h).
Definition set_pages (x : pools) (h : heap) : heap := Heap (descs h) (arenas h) x.
Definition set_free_list (x : list Z) (d : desc) : desc :=
  Desc (block_sz d) (blocks_per_arena d) x.
Definition set_free_cnt (x : Z) (a : arena) : arena := Arena (amagic a) (adesc a) x.

(** [memset] and [memcpy] on the bytes of memory. *)
Definition memory (f : (Z -> Z) -> Z -> Z) : M heap unit :=
  modify (fun h => set_pages (set_mem (f (mem (pages h))) (pages h)) h).
Definition copy (dst src n : Z) (m : Z -> Z) : Z -> Z :=
  fun a => if (dst <=? a) && (a <? dst + n) then m (src + (a - dst)) else m a.

(** Calls of the page allocator. *)
Definition paging {A : Type} (m : M pools A) : M heap A :=
  fun h => r <-! m (pages h);; Ok (r.1, set_pages r.2 h).

Definition get_desc (i : nat) : M heap desc :=
  h <- get;; lift (res_of_option (descs h !! i)).
Definition put_desc (i : nat) (d : desc) : M heap unit :=
  modify (fun h => set_descs (<[i := d]> (descs h)) h).
Definition get_arena (a : Z) : M heap arena :=
  h <- get;; lift (res_of_option (arenas h !! a)).
Definition put_arena (a : Z) (x : arena) : M heap unit :=
  modify (fun h => set_arenas (<[a := x]> (arenas h)) h).

(** The loop of [malloc_init]; [ds] is the part of the table filled so far. *)
Fixpoint malloc_init_loop (fuel : nat) (block_size : Z) (ds : list desc) : res (list desc) :=
  match fuel with
  | O => NoFuel
  | S fuel =>
      if block_size <? PGSIZE / 2 then
        res_assert (Z.of_nat (length ds) + 1 <=? 10);;!
        malloc_init_loop fuel (u32 (block_size * 2))
          (ds ++ [Desc block_size ((PGSIZE - sizeof_arena) / block_size) []])
      else Ok ds
  end.

Definition malloc_init (p : pools) : res heap :=
  ds <-! malloc_init_loop 32 16 [];; Ok (Heap ds ∅ p).

Definition block_to_arena (b : Z) : M heap Z :=
  let a := pg_round_down b in
  assert (negb (a =? NULL));;;
  x <- get_arena a;;
  assert (amagic x =? ARENA_MAGIC);;;
  (match adesc x with
   | Some i => d <- get_desc i;; assert (u32 (pg_ofs b - sizeof_arena) mod block_sz d =? 0)
   | None => assert (pg_ofs b =? sizeof_arena)
   end);;;
  ret a.

Definition arena_to_block (a idx : Z) : M heap Z :=
  assert (negb (a =? NULL));;;
  x <- get_arena a;;
  assert (amagic x =? ARENA_MAGIC);;;
  match adesc x with
  | Some i =>
      d <- get_desc i;;
      assert (idx <? blocks_per_arena d);;;
      ret (u32 (a + sizeof_arena + idx * block_sz d))
  | None => fault
  end.

(** The first descriptor whose blocks are large enough. *)
Fixpoint find_desc (size : Z) (ds : list desc) : nat :=
  match ds with
  | [] => O
  | d :: ds => if size <=? block_sz d then O else S (find_desc size ds)
  end.

(** [n] blocks are still to be added to the free list, from index [i] on. *)
Fixpoint add_blocks (n : nat) (a i : Z) (di : nat) : M heap unit :=
  match n with
  | O => ret tt
  | S n =>
      b <- arena_to_block a i;;
      d <- get_desc di;;
      put_desc di (set_free_list (free_list d ++ [b]) d);;;
      add_blocks n a (i + 1) di
  end.

Definition malloc_big (size : Z) : M heap Z :=
  let page_cnt := DIV_ROUND_UP (u32 (size + sizeof_arena)) PGSIZE in
  a <- paging (palloc_get_multiple 0 page_cnt);;
  if a =? NULL then ret NULL
  else
    put_arena a (Arena ARENA_MAGIC None page_cnt);;;
    ret (u32 (a + sizeof_arena)).

(** A new arena when the free list is empty; whether there is a block now. *)
Definition refill (di : nat) : M heap bool :=
  d <- get_desc di;;
  match free_list d with
  | [] =>
      a <- paging (palloc_get_page 0);;
      if a =? NULL then ret false
      else
        put_arena a (Arena ARENA_MAGIC (Some di) (blocks_per_arena d));;;
        add_blocks (Z.to_nat (blocks_per_arena d)) a 0 di;;;
        ret true
  | _ => ret true
  end.

Definition take_block (di : nat) : M heap Z :=
  d <- get_desc di;;
  match free_list d with
  | [] => panic
  | b :: r =>
      put_desc di (set_free_list r d);;;
      a <- block_to_arena b;;
      x <- get_arena a;;
      put_arena a (set_free_cnt (u32 (free_cnt x - 1)) x);;;
      ret b
  end.

Definition malloc (size : Z) : M heap Z :=
  if size =? 0 then ret NULL
  else
    ds <- gets descs;;
    let di := find_desc size ds in
    if (di =? length ds)%nat then malloc_big size
    else
      ok <- refill di;;
      if ok : bool then take_block di else ret NULL.

Definition calloc (a b : Z) : M heap Z :=
  let size := u32 (a * b) in
  if (size <? a) || (size <? b) then ret NULL
  else
    p <- malloc size;;
    (if negb (p =? NULL) then memory (fill p 0 size) else ret tt);;;
    ret p.

Definition block_size (block : Z) : M heap Z :=
  a <- block_to_arena block;;
  x <- get_arena a;;
  match adesc x with
  | Some i => d <- get_desc i;; ret (block_sz d)
  | None => ret (u32 (PGSIZE * free_cnt x - pg_ofs block))
  end.

(** [list_remove] of a block that is in the free list. *)
Fixpoint remove_blocks (n : nat) (a i : Z) (di : nat) : M heap unit :=
  match n with
  | O => ret tt
  | S n =>
      b <- arena_to_block a i;;
      d <- get_desc di;;
      (if bool_decide (b ∈ free_list d)
       then put_desc di (set_free_list (List.filter (fun x => negb (x =? b)) (free_list d)) d)
       else fault);;;
      remove_blocks n a (i + 1) di
  end.

Definition free (p : Z) : M heap unit :=
  if negb (p =? NULL) then
    a <- block_to_arena p;;
    x <- get_arena a;;
    match adesc x with
    | Some di =>
        d <- get_desc di;;
        memory (fill p 0xcc (block_sz d));;;
        put_desc di (set_free_list (p :: free_list d) d);;;
        put_arena a (set_free_cnt (u32 (free_cnt x + 1)) x);;;
        if blocks_per_arena d <=? u32 (free_cnt x + 1) then
          assert (u32 (free_cnt x + 1) =? blocks_per_arena d);;;
          remove_blocks (Z.to_nat (blocks_per_arena d)) a 0 di;;;
          paging (palloc_free_page a);;;
          modify (fun h => set_arenas (delete a (arenas h)) h)
        else ret tt
    | None =>
        paging (palloc_free_multiple a (free_cnt x));;;
        modify (fun h => set_arenas (delete a (arenas h)) h)
    end
  else ret tt.

Definition realloc (old_block new_size : Z) : M heap Z :=
  if new_size =? 0 then free old_block;;; ret NULL
  else
    new_block <- malloc new_size;;
    (if negb (old_block =? NULL) && negb (new_block =? NULL) then
       old_size <- block_size old_block;;
       let min_size := if new_size <? old_size then new_size else old_size in
       memory (copy new_block old_block min_size);;;
       free old_block
     else ret tt);;;
    ret new_block.

(** ** The invariant *)

(** The sizes and the blocks per arena of the descriptors. *)
Definition static (d : desc) : Z * Z := (block_sz d, blocks_per_arena d).
Definition sizes : list (Z * Z) :=
  [(16, 255); (32, 127); (64, 63); (128, 31); (256, 15); (512, 7); (1024, 3)].

(** Block number [i] of the arena at [a]. *)
Definition blk (d : desc) (a i : Z) : Z := a + 12 + i * block_sz d.
Definition in_arena (a b : Z) : bool := (a <=? b) && (b <? a + 4096).
Definition free_in (a : Z) (fl : list Z) : list Z := List.filter (in_arena a) fl.

(** How many pages the arena has. *)
Definition span (x : arena) : Z := match adesc x with Some _ => 1 | None => free_cnt x end.

(** The [n] pages at [a] are in use in the kernel pool. *)
Definition holds (s : pools) (a n : Z) : Prop :=
  exists i, 0 <= i /\ 0 < n /\ i + n <= bit_cnt (used_map (kernel_pool s)) /\
    a = page (kernel_pool s) i /\ group (used_map (kernel_pool s)) i n true.

Definition arena_ok (h : heap) (a : Z) (x : arena) : Prop :=
  amagic x = ARENA_MAGIC /\ holds (pages h) a (span x) /\
  match adesc x with
  | Some di => exists d, descs h !! di = Some d /\
      free_cnt x = Z.of_nat (length (free_in a (free_list d))) /\ free_cnt x <= blocks_per_arena d
  | None => True
  end.

Definition free_ok (h : heap) (di : nat) (d : desc) : Prop :=
  NoDup (free_list d) /\
  forall b, b ∈ free_list d -> exists a x i, arenas h !! a = Some x /\ adesc x = Some di /\
    0 <= i < blocks_per_arena d /\ b = blk d a i.

Record heap_inv (h : heap) : Prop := HeapInv {
  hi_sizes : (static <$> descs h) = sizes;
  hi_pools : pools_wf (pages h);
  hi_arena a x : arenas h !! a = Some x -> arena_ok h a x;
  hi_apart a x a' x' : arenas h !! a = Some x -> arenas h !! a' = Some x' -> a <> a' ->
    a + 4096 * span x <= a' \/ a' + 4096 * span x' <= a;
  hi_free di d : descs h !! di = Some d -> free_ok h di d
}.

(** An arena of small blocks is not entirely free, but for the one at [a]. *)
Definition busy_but (h : heap) (P : Z -> Prop) : Prop :=
  forall a x di d, arenas h !! a = Some x -> adesc x = Some di -> descs h !! di = Some d ->
    P a \/ free_cnt x < blocks_per_arena d.

Definition heap_wf (h : heap) : Prop := heap_inv h /\ busy_but h (fun _ => False).

(** [b] is a block of [n] bytes that was handed out and not freed. *)
Definition allocated (h : heap) (b n : Z) : Prop :=
  exists a x, arenas h !! a = Some x /\
    match adesc x with
    | Some di => exists d i, descs h !! di = Some d /\ 0 <= i < blocks_per_arena d /\
        b = blk d a i /\ b ∉ free_list d /\ n = block_sz d
    | None => b = a + 12 /\ n = 4096 * free_cnt x - 12
    end.

(** ** Geometry *)

Lemma sizes_facts di (p : Z * Z) : sizes !! di = Some p ->
  16 <= p.1 /\ 3 <= p.2 /\ 12 + p.2 * p.1 <= 4096.
Proof.
  intros E. assert (Forall (fun p : Z * Z => 16 <= p.1 /\ 3 <= p.2 /\ 12 + p.2 * p.1 <= 4096) sizes) as H
    by by_compute.
  exact (Forall_lookup_1 _ _ _ _ H E).
Qed.

Lemma desc_facts h di d : heap_inv h -> descs h !! di = Some d ->
  16 <= block_sz d /\ 3 <= blocks_per_arena d /\
  12 + blocks_per_arena d * block_sz d <= 4096.
Proof.
  intros Hi E. apply (sizes_facts di (static d)). rewrite <- (hi_sizes h Hi).
  by rewrite list_lookup_fmap, E.
Qed.

Lemma holds_bound s a n : pools_wf s -> holds s a n ->
  0 < n /\ 0 < a /\ a + 4096 * n <= 2 ^ 32 /\ a mod 4096 = 0.
Proof.
  intros Hwf (i & Hi & Hn & Hle & -> & _).
  destruct (page_bound _ i (pws_kernel _ Hwf) ltac:(lia)) as (Hp & Hm & _).
  pose proof (pw_end _ (pws_kernel _ Hwf)). unfold page in *. lia.
Qed.

Lemma arena_bound h a x : heap_inv h -> arenas h !! a = Some x ->
  0 < span x /\ 0 < a /\ a + 4096 * span x <= 2 ^ 32 /\ a mod 4096 = 0.
Proof.
  intros Hi E. destruct (hi_arena h Hi a x E) as (_ & Hh & _).
  by apply (holds_bound (pages h)); [apply Hi|].
Qed.

Lemma blk_bound h a x di d i : heap_inv h -> arenas h !! a = Some x -> adesc x = Some di ->
  descs h !! di = Some d -> 0 <= i < blocks_per_arena d ->
  a + 12 <= blk d a i /\ blk d a i + block_sz d <= a + 4096 /\ a + 4096 <= 2 ^ 32 /\
  16 <= block_sz d.
Proof.
  intros Hi Ea Ex Ed Hr. destruct (desc_facts h di d Hi Ed) as (? & ? & ?).
  destruct (arena_bound h a x Hi Ea) as (? & ? & ? & ?). unfold span in *. rewrite Ex in *.
  unfold blk. split_and!; [nia..|done].
Qed.

Lemma in_arena_true a b : in_arena a b = true <-> a <= b < a + 4096.
Proof. unfold in_arena. rewrite andb_true_iff, Z.leb_le, Z.ltb_lt. lia. Qed.

(** An address lies in one arena only. *)
Lemma in_arena_unique h a x a' x' b : heap_inv h ->
  arenas h !! a = Some x -> arenas h !! a' = Some x' ->
  a <= b < a + 4096 -> a' <= b < a' + 4096 -> a = a'.
Proof.
  intros Hi E E' ? ?. destruct (decide (a = a')) as [|Hne]; [done|].
  pose proof (arena_bound h a x Hi E). pose proof (arena_bound h a' x' Hi E').
  destruct (hi_apart h Hi a x a' x' E E' Hne); lia.
Qed.

Lemma blk_inj d a i j : 0 < block_sz d -> blk d a i = blk d a j -> i = j.
Proof. unfold blk. nia. Qed.

(** ** Running the primitives *)

Lemma get_desc_ok h di d : descs h !! di = Some d -> get_desc di h = Ok (d, h).
Proof. intros E. unfold get_desc. rewrite bind_get, E. done. Qed.

Lemma get_arena_ok h a x : arenas h !! a = Some x -> get_arena a h = Ok (x, h).
Proof. intros E. unfold get_arena. rewrite bind_get, E. done. Qed.

(** What the code needs of an arena of small blocks. *)
Definition small_arena (h : heap) (a : Z) (di : nat) (d : desc) : Prop :=
  0 < a /\ a mod 4096 = 0 /\ a + 4096 <= 2 ^ 32 /\ 16 <= block_sz d /\
  12 + blocks_per_arena d * block_sz d <= 4096 /\ descs h !! di = Some d /\
  exists x, arenas h !! a = Some x /\ amagic x = ARENA_MAGIC /\ adesc x = Some di.

Lemma inv_small_arena h a x di d : heap_inv h -> arenas h !! a = Some x -> adesc x = Some di ->
  descs h !! di = Some d -> small_arena h a di d.
Proof.
  intros Hi Ea Ex Ed. destruct (desc_facts h di d Hi Ed) as (? & ? & ?).
  destruct (arena_bound h a x Hi Ea) as (? & ? & ? & ?). unfold span in *. rewrite Ex in *.
  split_and!; try (done || lia). exists x. split_and!; try done. apply (hi_arena h Hi a x Ea).
Qed.

Lemma block_to_arena_small h a di d i : small_arena h a di d -> 0 <= i < blocks_per_arena d ->
  block_to_arena (blk d a i) h = Ok (a, h).
Proof.
  intros (H0 & Hm & Hb & Hs & Hp & Ed & x & Ea & Hmg & Ex) Hr. unfold block_to_arena, blk.
  destruct (page_parts a (12 + i * block_sz d)) as [E1 E2]; [lia|done|nia|nia|].
  rewrite <- Z.add_assoc, E1, E2.
  cassert ltac:(rewrite (proj2 (Z.eqb_neq a NULL)); [done|unfold NULL; lia]).
  crun (get_arena_ok h a x Ea). cassert ltac:(by rewrite Hmg).
  rewrite Ex, bind_assoc. crun (get_desc_ok h di d Ed).
  unfold sizeof_arena. rewrite u32_id by nia.
  cassert ltac:(apply Z.eqb_eq; replace (12 + i * block_sz d - 12) with (i * block_sz d) by lia;
                apply Z.mod_mul; lia).
  done.
Qed.

Lemma arena_to_block_ok h a di d i : small_arena h a di d -> 0 <= i < blocks_per_arena d ->
  arena_to_block a i h = Ok (blk d a i, h).
Proof.
  intros (H0 & Hm & Hb & Hs & Hp & Ed & x & Ea & Hmg & Ex) Hr. unfold arena_to_block, blk.
  cassert ltac:(rewrite (proj2 (Z.eqb_neq a NULL)); [done|unfold NULL; lia]).
  crun (get_arena_ok h a x Ea). cassert ltac:(by rewrite Hmg). rewrite Ex.
  crun (get_desc_ok h di d Ed). cassert ltac:(apply Z.ltb_lt; lia).
  unfold sizeof_arena, ret. rewrite u32_id by nia. done.
Qed.

Lemma block_to_arena_big h a x : heap_inv h -> arenas h !! a = Some x ->
  adesc x = None -> block_to_arena (a + 12) h = Ok (a, h).
Proof.
  intros Hi Ea Ex. destruct (arena_bound h a x Hi Ea) as (? & ? & ? & Hm).
  unfold block_to_arena. destruct (page_parts a 12) as [E1 E2]; [lia..|]. rewrite E1, E2.
  cassert ltac:(rewrite (proj2 (Z.eqb_neq a NULL)); [done|unfold NULL; lia]).
  crun (get_arena_ok h a x Ea). cassert ltac:(by rewrite (proj1 (hi_arena h Hi a x Ea))).
  by rewrite Ex.
Qed.

(** ** Pages *)

Definition apart (a n a' n' : Z) : Prop := a + 4096 * n <= a' \/ a' + 4096 * n' <= a.

Lemma get_pages_ok s cnt : pools_wf s -> 0 < cnt ->
  palloc_get_multiple 0 cnt s = Ok (NULL, s) \/
  exists a s', palloc_get_multiple 0 cnt s = Ok (a, s') /\ pools_wf s' /\ mem s' = mem s /\
    holds s' a cnt /\ forall a' n, holds s a' n -> holds s' a' n /\ apart a cnt a' n.
Proof.
  intros Hwf Hc. destruct (get_multiple_cases 0 cnt s Hwf Hc)
    as [(i & b' & H0 & Hle & Hg & _ & Hset & E)|[_ E]]; [right|by left].
  change (has_flag 0 PAL_USER) with false in *. cbn [the_pool put_pool] in *.
  pose proof Hset as (Hcnt & Hb & Hbits). eexists _, _. split; [exact E|].
  split; [apply (put_pool_wf false); done|]. split; [done|]. split.
  { exists i. cbn. rewrite Hcnt. split_and!; try done. intros j Hj. unfold range in Hj.
    by apply Hbits; [lia|]. }
  intros a' n (j & Hj & Hn & Hjn & -> & Hgj).
  assert (i + cnt <= j \/ j + n <= i) as Hd.
  { destruct (decide (i + cnt <= j)); [by left|]. destruct (decide (j + n <= i)); [by right|].
    set (k := Z.max i j). specialize (Hg k). specialize (Hgj k). unfold range in *.
    rewrite Hg in Hgj by lia. specialize (Hgj ltac:(lia)). done. }
  split; [|unfold apart, page; lia].
  exists j. cbn. rewrite Hcnt. split_and!; try done. intros k Hk. unfold range in Hk.
  rewrite (proj2 (Hbits k ltac:(lia))); [by apply Hgj|]. unfold range. lia.
Qed.

Lemma free_pages_ok s a n : pools_wf s -> holds s a n ->
  exists s', palloc_free_multiple a n s = Ok (tt, s') /\ pools_wf s' /\
    mem s' = fill a 0xcc (4096 * n) (mem s) /\
    forall a' n', holds s a' n' -> apart a n a' n' -> holds s' a' n'.
Proof.
  intros Hwf (i & Hi & Hn & Hle & -> & Hg).
  destruct (free_multiple_ok false s i n Hwf Hi Hn Hle Hg) as (b' & Hset & E).
  cbn [the_pool] in *. pose proof Hset as (Hcnt & Hb & Hbits). eexists. split; [exact E|]. split.
  { apply (put_pool_wf false s b' (fill (page (kernel_pool s) i) 0xcc (4096 * n) (mem s))); done. }
  split; [done|]. intros a' n' (j & Hj & Hn' & Hjn & -> & Hgj) Ha. unfold apart, page in Ha.
  exists j. cbn. rewrite Hcnt. split_and!; try done. intros k Hk. unfold range in Hk.
  rewrite (proj2 (Hbits k ltac:(lia))); [by apply Hgj|]. unfold range. lia.
Qed.

(** ** Changes that keep the invariant *)

Lemma static_insert (ds : list desc) di d fl : ds !! di = Some d ->
  static <$> (<[di := set_free_list fl d]> ds) = static <$> ds.
Proof.
  intros E. rewrite list_fmap_insert. apply list_insert_id.
  by rewrite list_lookup_fmap, E.
Qed.

(** The blocks of one arena on a free list are as many as it has at most. *)
Lemma free_in_le d a fl : 0 <= blocks_per_arena d ->
  NoDup fl -> (forall b, b ∈ free_in a fl -> exists i, 0 <= i < blocks_per_arena d /\ b = blk d a i) ->
  Z.of_nat (length (free_in a fl)) <= blocks_per_arena d /\
  (blocks_per_arena d <= Z.of_nat (length (free_in a fl)) ->
   forall i, 0 <= i < blocks_per_arena d -> blk d a i ∈ fl).
Proof.
  intros Hb Hnd Hin. set (all := blk d a <$> seqZ 0 (blocks_per_arena d)).
  assert (free_in a fl ⊆+ all) as Hsub.
  { apply NoDup_submseteq; [by apply NoDup_bfilter|].
    intros b (i & Hi & ->)%Hin. apply list_elem_of_fmap_2, elem_of_seqZ. lia. }
  assert (Z.of_nat (length all) = blocks_per_arena d) as Hl
    by (unfold all; rewrite length_fmap, length_seqZ; lia).
  pose proof (submseteq_length _ _ Hsub). split; [lia|]. intros Hge i Hi.
  apply submseteq_length_Permutation in Hsub; [|lia].
  assert (blk d a i ∈ free_in a fl) as Hx.
  { rewrite Hsub. apply list_elem_of_fmap_2, elem_of_seqZ. lia. }
  by apply elem_of_bfilter in Hx as [_ Hx].
Qed.

(** The free blocks of an arena are its own. *)
Lemma free_in_blk h a x di d b : heap_inv h -> arenas h !! a = Some x -> descs h !! di = Some d ->
  b ∈ free_in a (free_list d) ->
  adesc x = Some di /\ exists i, 0 <= i < blocks_per_arena d /\ b = blk d a i.
Proof.
  intros Hi Ea Ed [Hin Hb]%elem_of_bfilter. apply in_arena_true in Hin.
  destruct (hi_free h Hi di d Ed) as [_ Hf]. destruct (Hf b Hb) as (a' & x' & i & Ea' & Ex' & Hr & ->).
  pose proof (blk_bound h a' x' di d i Hi Ea' Ex' Ed Hr).
  assert (a = a') as <- by (apply (in_arena_unique h a x a' x' (blk d a' i)); done || lia).
  split; [congruence|]. by exists i.
Qed.

(** The free list of a descriptor becomes [fl], which differs in the blocks of
    one arena only. *)
Definition with_free (di : nat) (d : desc) (fl : list Z) (a : Z) (x : arena) (h : heap) : heap :=
  Heap (<[di := set_free_list fl d]> (descs h)) (<[a := x]> (arenas h)) (pages h).

Lemma inv_with_free h a x di d fl c : heap_inv h ->
  arenas h !! a = Some x -> adesc x = Some di -> descs h !! di = Some d ->
  NoDup fl ->
  (forall b, b ∈ fl -> b ∈ free_list d \/ exists i, 0 <= i < blocks_per_arena d /\ b = blk d a i) ->
  (forall a' x', a' <> a -> arenas h !! a' = Some x' -> free_in a' fl = free_in a' (free_list d)) ->
  c = Z.of_nat (length (free_in a fl)) ->
  heap_inv (with_free di d fl a (set_free_cnt c x) h).
Proof.
  intros Hi Ea Ex Ed Hnd Hfl Hsame ->.
  destruct (desc_facts h di d Hi Ed) as (? & ? & ?).
  assert (Z.of_nat (length (free_in a fl)) <= blocks_per_arena d) as Hle.
  { apply free_in_le; [lia|done|]. intros b [Hin Hb]%elem_of_bfilter.
    destruct (Hfl b Hb) as [Hold|?]; [|done].
    apply (free_in_blk h a x di d b Hi Ea Ed). by apply elem_of_bfilter. }
  assert (forall a' x', (with_free di d fl a (set_free_cnt (Z.of_nat (length (free_in a fl))) x) h).(arenas) !! a' = Some x' ->
    exists y, arenas h !! a' = Some y /\ span x' = span y /\ adesc x' = adesc y) as Hback.
  { intros a' x'. cbn. destruct (decide (a' = a)) as [->|Hne].
    - rewrite lookup_insert_eq. intros [= <-]. exists x. unfold span. cbn. by rewrite Ex.
    - rewrite lookup_insert_ne by done. intros E. by exists x'. }
  assert (di < length (descs h))%nat by (by eapply lookup_lt_Some).
  split; cbn.
  - rewrite static_insert by done. apply Hi.
  - apply Hi.
  - intros a' x'. destruct (decide (a' = a)) as [->|Hne].
    + rewrite lookup_insert_eq. intros [= <-]. destruct (hi_arena h Hi a x Ea) as (Hm & Hh & _).
      split_and!; cbn; [done|unfold span in *; cbn; by rewrite Ex in *|]. rewrite Ex.
      exists (set_free_list fl d). rewrite list_lookup_insert_eq by done. done.
    + rewrite lookup_insert_ne by done. intros Ea'.
      destruct (hi_arena h Hi a' x' Ea') as (Hm & Hh & Hd). split_and!; cbn; [done..|].
      destruct (adesc x') as [dj|] eqn:Ex'; [|done]. destruct Hd as (d' & Ed' & Hc & Hb).
      destruct (decide (dj = di)) as [->|Hdj].
      * rewrite list_lookup_insert_eq by done. rewrite Ed in Ed'. injection Ed' as <-.
        eexists. split; [done|]. cbn [free_list set_free_list blocks_per_arena]. by rewrite (Hsame a' x').
      * rewrite list_lookup_insert_ne by done. by exists d'.
  - intros a1 x1 a2 x2 (y1 & E1 & -> & _)%Hback (y2 & E2 & -> & _)%Hback. by apply Hi.
  - intros dj d'. destruct (decide (dj = di)) as [->|Hdj].
    + rewrite list_lookup_insert_eq by done. intros [= <-]. split; [done|]. cbn.
      intros b [Hb|(i & Hr & ->)]%Hfl.
      * destruct (hi_free h Hi di d Ed) as [_ Hf]. destruct (Hf b Hb) as (a' & x' & i & Ea' & Ex' & Hr & ->).
        destruct (decide (a' = a)) as [->|Hne]; [exists a|exists a', x', i; by rewrite lookup_insert_ne].
        eexists _, i. by rewrite lookup_insert_eq.
      * eexists a, _, i. by rewrite lookup_insert_eq.
    + rewrite list_lookup_insert_ne by done. intros Ed'. destruct (hi_free h Hi dj d' Ed') as [Hn Hf].
      split; [done|]. intros b Hb. destruct (Hf b Hb) as (a' & x' & i & Ea' & Ex' & Hr & ->).
      exists a', x', i. cbn. rewrite lookup_insert_ne; [done|]. intros ->. congruence.
Qed.

(** A new arena with no free block yet. *)
Lemma heap_new h a x s' : heap_inv h -> pools_wf s' -> holds s' a (span x) -> amagic x = ARENA_MAGIC ->
  (forall di, adesc x = Some di -> is_Some (descs h !! di) /\ free_cnt x = 0) ->
  (forall a' n, holds (pages h) a' n -> holds s' a' n /\ apart a (span x) a' n) ->
  arenas h !! a = None /\ heap_inv (Heap (descs h) (<[a := x]> (arenas h)) s').
Proof.
  intros Hi Hwf Hh Hm Hd Hold. pose proof (holds_bound _ _ _ Hwf Hh) as (? & ? & ? & ?).
  assert (forall a' x', arenas h !! a' = Some x' ->
    holds s' a' (span x') /\ apart a (span x) a' (span x') /\ 0 < span x') as Hap.
  { intros a' x' Ea'. pose proof (arena_bound h a' x' Hi Ea').
    destruct (hi_arena h Hi a' x' Ea') as (_ & Hh' & _). split_and!; [by apply Hold..|lia]. }
  assert (arenas h !! a = None) as Hnone.
  { destruct (arenas h !! a) as [y|] eqn:Ey; [|done].
    destruct (Hap a y Ey) as (_ & Ha & ?). unfold apart in Ha. lia. }
  split; [done|]. split; cbn.
  - apply Hi.
  - done.
  - intros a' x'. destruct (decide (a' = a)) as [->|Hne].
    + rewrite lookup_insert_eq. intros [= <-]. split_and!; [done..|].
      destruct (adesc x) as [di|] eqn:Ex; [|done]. destruct (Hd di eq_refl) as [[d Ed] ->].
      exists d. split; [done|]. pose proof (desc_facts h di d Hi Ed).
      unfold free_in. rewrite bfilter_none; [cbn; lia|]. intros b Hb.
      destruct (hi_free h Hi di d Ed) as [_ Hf]. destruct (Hf b Hb) as (a' & x' & i & Ea' & Ex' & Hr & ->).
      pose proof (blk_bound h a' x' di d i Hi Ea' Ex' Ed Hr). destruct (Hap a' x' Ea') as (_ & Ha & _).
      unfold apart, span in Ha. rewrite Ex, Ex' in Ha.
      apply not_true_iff_false. rewrite in_arena_true. lia.
    + rewrite lookup_insert_ne by done. intros Ea'. destruct (hi_arena h Hi a' x' Ea') as (? & Hh' & ?).
      split_and!; [done|by apply Hold|done].
  - intros a1 x1 a2 x2. rewrite !lookup_insert. unfold apart in Hap.
    repeat case_decide; intros E1 E2 Hne; simplify_eq.
    + destruct (Hap a2 x2 E2); lia.
    + destruct (Hap a1 x1 E1); lia.
    + by apply Hi.
  - intros di d Ed. destruct (hi_free h Hi di d Ed) as [Hn Hf]. split; [done|]. intros b Hb.
    destruct (Hf b Hb) as (a' & x' & i & Ea' & ?). exists a', x', i. cbn.
    rewrite lookup_insert_ne; [done|]. intros ->. congruence.
Qed.

(** The arena at [a] goes away, and its blocks on the free lists with it. *)
Definition forget (a : Z) (d : desc) : desc :=
  set_free_list (List.filter (fun b => negb (in_arena a b)) (free_list d)) d.

Lemma free_in_forget a a' d :
  (forall b, in_arena a' b = true -> in_arena a b = false) ->
  free_in a' (free_list (forget a d)) = free_in a' (free_list d).
Proof.
  intros H. unfold free_in. cbn [free_list forget set_free_list]. rewrite bfilter_bfilter.
  apply bfilter_ext. intros b _. destruct (in_arena a' b) eqn:E; [|done]. by rewrite H.
Qed.

Lemma heap_drop h a x s' : heap_inv h -> arenas h !! a = Some x -> pools_wf s' ->
  (forall a' n, holds (pages h) a' n -> apart a (span x) a' n -> holds s' a' n) ->
  heap_inv (Heap (forget a <$> descs h) (delete a (arenas h)) s').
Proof.
  intros Hi Ea Hwf Hold. split; cbn.
  - rewrite <- list_fmap_compose. apply Hi.
  - done.
  - intros a' x' [Hne Ea']%lookup_delete_Some. destruct (hi_arena h Hi a' x' Ea') as (Hm & Hh & Hd).
    split_and!; [done|apply Hold; [done|by apply Hi]|]. destruct (adesc x') as [di|]; [|done].
    destruct Hd as (d & Ed & Hc & Hb). exists (forget a d). cbn [descs blocks_per_arena forget set_free_list].
    rewrite list_lookup_fmap, Ed. split; [done|]. fold (forget a d). rewrite free_in_forget; [done|].
    intros b Hb1. apply not_true_iff_false. rewrite in_arena_true in *. intros Hb2. apply Hne.
    by apply (in_arena_unique h a x a' x' b).
  - intros a1 x1 a2 x2 [_ E1]%lookup_delete_Some [_ E2]%lookup_delete_Some. by apply Hi.
  - intros di d'. rewrite list_lookup_fmap. destruct (descs h !! di) as [d|] eqn:Ed; [|done].
    intros [= <-]. destruct (hi_free h Hi di d Ed) as [Hn Hf]. split; [by apply NoDup_bfilter|].
    intros b [Hna Hb]%elem_of_bfilter. destruct (Hf b Hb) as (a' & x' & i & Ea' & Ex' & Hr & ->).
    exists a', x', i. cbn. split; [|done]. apply lookup_delete_Some. split; [|done]. intros ->.
    pose proof (blk_bound h a' x' di d i Hi Ea' Ex' Ed Hr).
    apply negb_true_iff, not_true_iff_false in Hna. rewrite in_arena_true in Hna. lia.
Qed.

(** ** The allocated blocks *)

Lemma allocated_in h b n : heap_inv h -> allocated h b n ->
  exists a x, arenas h !! a = Some x /\ a + 12 <= b < a + 4096 /\ b + n <= a + 4096 * span x /\
    4 <= n /\ b mod 4 = 0.
Proof.
  intros Hi (a & x & Ea & Hx). exists a, x. pose proof (arena_bound h a x Hi Ea) as (? & ? & ? & ?).
  unfold span in *. destruct (adesc x) as [di|] eqn:Ex.
  - destruct Hx as (d & i & Ed & Hr & -> & _ & ->).
    pose proof (blk_bound h a x di d i Hi Ea Ex Ed Hr). split_and!; [done|lia..|].
    assert (block_sz d mod 4 = 0) as Hd.
    { assert (Forall (fun p : Z * Z => p.1 mod 4 = 0) sizes) as HF by by_compute.
      rewrite <- (hi_sizes h Hi) in HF. apply (Forall_lookup_1 _ _ di (static d) HF).
      by rewrite list_lookup_fmap, Ed. }
    unfold blk. apply Z.mod_divide; [lia|]. apply Z.mod_divide in Hd; [|lia].
    apply (Z.mod_divide a 4096) in H2; [|lia].
    apply Z.divide_add_r; [apply Z.divide_add_r|by apply Z.divide_mul_r].
    + etransitivity; [|exact H2]. by exists 1024.
    + by exists 3.
  - destruct Hx as [-> ->]. split_and!; [done|lia..|].
    Z.to_euclidean_division_equations; lia.
Qed.

(** Blocks handed out do not overlap. *)
Lemma allocated_apart h b n c m : heap_inv h -> allocated h b n -> allocated h c m ->
  b <> c -> b + n <= c \/ c + m <= b.
Proof.
  intros Hi Hb Hc Hne. pose proof (allocated_in h b n Hi Hb) as (a & x & Ea & Ha & Hae & _).
  pose proof (allocated_in h c m Hi Hc) as (a' & x' & Ea' & Ha' & Hae' & _).
  destruct (decide (a = a')) as [<-|Hn]; [|destruct (hi_apart h Hi a x a' x' Ea Ea' Hn); lia].
  destruct Hb as (a1 & x1 & E1 & H1). destruct Hc as (a2 & x2 & E2 & H2).
  assert (forall a1 x1 b n, arenas h !! a1 = Some x1 -> a <= b < a + 4096 ->
    match adesc x1 with
    | Some di => exists d i, descs h !! di = Some d /\ 0 <= i < blocks_per_arena d /\
        b = blk d a1 i /\ b ∉ free_list d /\ n = block_sz d
    | None => b = a1 + 12 /\ n = 4096 * free_cnt x1 - 12 end -> a1 = a) as Hin.
  { clear -Hi Ea. intros a1 x1 b n E1 Hr H1. apply (in_arena_unique h a1 x1 a x b); try done.
    destruct (adesc x1) as [di|] eqn:Ex.
    - destruct H1 as (d & i & Ed & Hi' & -> & _ & _).
      pose proof (blk_bound h a1 x1 di d i Hi E1 Ex Ed Hi'). lia.
    - destruct H1 as [-> _]. lia. }
  pose proof (Hin a1 x1 b n E1 ltac:(lia) H1) as ->. pose proof (Hin a2 x2 c m E2 ltac:(lia) H2) as ->.
  rewrite E1 in E2. injection E2 as <-. destruct (adesc x1) as [di|] eqn:Ex.
  - destruct H1 as (d & i & Ed & Hr1 & -> & _ & ->). destruct H2 as (d' & j & Ed' & Hr2 & -> & _ & ->).
    rewrite Ed in Ed'. injection Ed' as <-. pose proof (blk_bound h a x1 di d i Hi E1 Ex Ed Hr1).
    unfold blk in *. assert (i <> j) by congruence. nia.
  - destruct H1 as [-> _], H2 as [-> _]. done.
Qed.

(** A block on a free list is not handed out. *)
Lemma free_not_allocated h di d b n : heap_inv h -> descs h !! di = Some d -> b ∈ free_list d ->
  ~ allocated h b n.
Proof.
  intros Hi Ed Hb (a & x & Ea & Hx). pose proof (arena_bound h a x Hi Ea).
  destruct (hi_free h Hi di d Ed) as [_ Hf]. destruct (Hf b Hb) as (a' & x' & i & Ea' & Ex' & Hr & Eb).
  pose proof (blk_bound h a' x' di d i Hi Ea' Ex' Ed Hr). rewrite <- Eb in *.
  assert (a <= b < a + 4096) as Hin.
  { destruct (adesc x) as [dj|] eqn:Ex; [|lia]. destruct Hx as (d' & j & Ed' & Hj & -> & _).
    pose proof (blk_bound h a x dj d' j Hi Ea Ex Ed' Hj). lia. }
  assert (a = a') as -> by (apply (in_arena_unique h a x a' x' b); done || lia).
  rewrite Ea in Ea'. injection Ea' as <-. rewrite Ex' in Hx. destruct Hx as (d' & j & Ed' & _ & _ & Hn & _).
  rewrite Ed in Ed'. by injection Ed' as <-.
Qed.

Lemma allocated_with_free h di d fl a x c b n : descs h !! di = Some d ->
  arenas h !! a = Some x -> adesc x = Some di ->
  allocated (with_free di d fl a (set_free_cnt c x) h) b n <->
  exists a' x', arenas h !! a' = Some x' /\
    match adesc x' with
    | Some dj => exists d' i, descs h !! dj = Some d' /\ 0 <= i < blocks_per_arena d' /\
        b = blk d' a' i /\ b ∉ (if decide (dj = di) then fl else free_list d') /\ n = block_sz d'
    | None => b = a' + 12 /\ n = 4096 * free_cnt x' - 12
    end.
Proof.
  intros Ed Ea Ex. assert (di < length (descs h))%nat by (by eapply lookup_lt_Some).
  unfold allocated. split.
  - intros (a' & x' & Ea' & Hx). cbn in Ea'.
    assert (exists y, arenas h !! a' = Some y /\ adesc x' = adesc y /\
      (adesc y = None -> x' = y)) as (y & Ey & Exy & Hy).
    { destruct (decide (a' = a)) as [->|Hne].
      - rewrite lookup_insert_eq in Ea'. injection Ea' as <-. exists x. split_and!; [done..|congruence].
      - rewrite lookup_insert_ne in Ea' by done. by exists x'. }
    exists a', y. split; [done|]. rewrite Exy in Hx. destruct (adesc y) as [dj|]; [|by rewrite <- Hy].
    cbn [descs with_free] in Hx. destruct Hx as (d' & i & E & Hr & -> & Hn & ->).
    destruct (decide (dj = di)) as [->|].
    + rewrite list_lookup_insert_eq in E by done. injection E as <-. by exists d, i.
    + rewrite list_lookup_insert_ne in E by done. by exists d', i.
  - intros (a' & x' & Ea' & Hx). cbn [arenas with_free].
    exists a', (if decide (a' = a) then set_free_cnt c x else x').
    assert (adesc (if decide (a' = a) then set_free_cnt c x else x') = adesc x') as ->.
    { case_decide; [subst|done]. rewrite Ea in Ea'. by injection Ea' as <-. }
    split. { case_decide; [subst; by rewrite lookup_insert_eq|by rewrite lookup_insert_ne]. }
    destruct (adesc x') as [dj|] eqn:Ex'.
    + destruct Hx as (d' & i & E & Hr & -> & Hn & ->). cbn [descs with_free]. case_decide as Hdj.
      * subst. rewrite Ed in E. injection E as <-. exists (set_free_list fl d), i.
        by rewrite list_lookup_insert_eq.
      * exists d', i. by rewrite list_lookup_insert_ne.
    + case_decide; [|done]. subst. congruence.
Qed.

(** One block [b] goes to the free list or leaves it. *)
Lemma allocated_one h di d fl a x k b i c m : heap_inv h -> descs h !! di = Some d ->
  arenas h !! a = Some x -> adesc x = Some di -> 0 <= i < blocks_per_arena d -> b = blk d a i ->
  (forall c, c <> b -> c ∈ fl <-> c ∈ free_list d) ->
  allocated (with_free di d fl a (set_free_cnt k x) h) c m <->
  (c = b /\ b ∉ fl /\ m = block_sz d) \/ (c <> b /\ allocated h c m).
Proof.
  intros Hi Ed Ea Ex Hr Eb Hfl. rewrite (allocated_with_free h di d fl a x _ c m Ed Ea Ex).
  pose proof (blk_bound h a x di d i Hi Ea Ex Ed Hr) as Hbb. rewrite <- Eb in Hbb. split.
  - intros (a' & x' & Ea' & Hx). destruct (decide (c = b)) as [->|Hcb].
    + left. pose proof (arena_bound h a' x' Hi Ea'). assert (a' = a) as ->.
      { apply (in_arena_unique h a' x' a x b); try (done || lia).
        destruct (adesc x') as [dj|] eqn:Ex'; [|lia]. destruct Hx as (d' & j & Ed' & Hj & -> & _).
        pose proof (blk_bound h a' x' dj d' j Hi Ea' Ex' Ed' Hj). lia. }
      rewrite Ea in Ea'. injection Ea' as <-. rewrite Ex in Hx.
      destruct Hx as (d' & j & Ed' & _ & _ & Hn & ->). rewrite decide_True in Hn by done.
      split_and!; [done..|congruence].
    + right. split; [done|]. exists a', x'. split; [done|]. destruct (adesc x') as [dj|]; [|done].
      destruct Hx as (d' & j & Ed' & Hj & Ej & Hnf & Em). exists d', j. split_and!; try (done || lia).
      case_decide; [subst|done]. assert (d' = d) as -> by congruence. by rewrite <- Hfl.
  - intros [(-> & Hn & ->)|[Hcb (a' & x' & Ea' & Hx)]].
    + exists a, x. split; [done|]. rewrite Ex. exists d, i. by rewrite decide_True by done.
    + exists a', x'. split; [done|]. destruct (adesc x') as [dj|]; [|done].
      destruct Hx as (d' & j & Ed' & Hj & Ej & Hnf & Em). exists d', j. split_and!; try (done || lia).
      case_decide; [subst|done]. assert (d' = d) as -> by congruence. by rewrite Hfl.
Qed.

(** ** malloc *)

Lemma small_arena_free h a di d fl : small_arena h a di d ->
  small_arena (set_descs (<[di := set_free_list fl d]> (descs h)) h) a di (set_free_list fl d).
Proof.
  intros (H0 & Hm & Hb & Hs & Hp & Ed & Hx). split_and!; try done. cbn.
  rewrite list_lookup_insert_eq; [done|]. by eapply lookup_lt_Some.
Qed.

Lemma take_block_ok h di d b r : heap_inv h -> descs h !! di = Some d -> free_list d = b :: r ->
  exists a x, arenas h !! a = Some x /\ adesc x = Some di /\ a <= b < a + 4096 /\
    let h' := with_free di d r a (set_free_cnt (free_cnt x - 1) x) h in
    take_block di h = Ok (b, h') /\ heap_inv h' /\
    forall c m, allocated h' c m <-> (c = b /\ m = block_sz d) \/ (c <> b /\ allocated h c m).
Proof.
  intros Hi Ed Efl. destruct (hi_free h Hi di d Ed) as [Hnd Hf]. rewrite Efl in Hnd, Hf.
  destruct (Hf b ltac:(set_solver)) as (a & x & i & Ea & Ex & Hr & Eb).
  pose proof (inv_small_arena h a x di d Hi Ea Ex Ed) as Hsa.
  pose proof (blk_bound h a x di d i Hi Ea Ex Ed Hr) as Hbb. rewrite <- Eb in Hbb.
  assert (in_arena a b = true) as Hin by (apply in_arena_true; lia).
  destruct (hi_arena h Hi a x Ea) as (_ & _ & Hd). rewrite Ex in Hd. destruct Hd as (d' & Ed' & Hc & Hle).
  rewrite Ed in Ed'. injection Ed' as <-. unfold free_in in Hc. rewrite Efl in Hc.
  cbn [List.filter] in Hc. rewrite Hin in Hc. cbn [length] in Hc.
  pose proof (desc_facts h di d Hi Ed).
  exists a, x. split_and!; [done..|lia|lia|]. split_and!.
  - unfold take_block. crun (get_desc_ok h di d Ed). rewrite Efl.
    unfold put_desc. rewrite bind_modify.
    crun_by ltac:(subst b; apply (block_to_arena_small _ a di (set_free_list r d));
                  [by apply small_arena_free|done]).
    crun_by ltac:(by apply get_arena_ok). unfold put_arena. rewrite bind_modify, u32_id by nia. done.
  - apply NoDup_cons in Hnd as [Hnb Hnd]. apply inv_with_free; try done; unfold free_in in *.
    + intros c Hc'. left. rewrite Efl. set_solver.
    + intros a' x' Hne Ea'. rewrite Efl. cbn. destruct (in_arena a' b) eqn:E; [|done].
      apply in_arena_true in E. exfalso. apply Hne. apply (in_arena_unique h a' x' a x b); done || lia.
    + lia.
  - intros c m. apply NoDup_cons in Hnd as [Hnb Hnd].
    rewrite (allocated_one h di d r a x _ b i c m Hi Ed Ea Ex Hr Eb); [tauto|].
    intros e He. rewrite Efl. set_solver.
Qed.

Lemma add_blocks_ok n : forall h a i di d, small_arena h a di d -> 0 <= i ->
  i + Z.of_nat n <= blocks_per_arena d ->
  add_blocks n a i di h = Ok (tt, set_descs
    (<[di := set_free_list (free_list d ++ (blk d a <$> seqZ i (Z.of_nat n))) d]> (descs h)) h).
Proof.
  induction n as [|n IH]; intros h a i di d Hs Hi Hn.
  - cbn. rewrite app_nil_r. destruct Hs as (_ & _ & _ & _ & _ & Ed & _).
    unfold ret. destruct h as [ds ar pg], d as [s b f]. cbn in *. unfold set_descs, set_free_list. cbn.
    by rewrite list_insert_id.
  - cbn [add_blocks]. crun (arena_to_block_ok h a di d i Hs ltac:(lia)).
    pose proof Hs as (_ & _ & _ & _ & _ & Ed & _). crun (get_desc_ok h di d Ed).
    unfold put_desc. rewrite bind_modify.
    rewrite (IH _ a (i + 1) di _ (small_arena_free h a di d _ Hs)) by (cbn; lia).
    unfold set_descs. cbn. rewrite list_insert_insert_eq. unfold set_free_list. cbn.
    rewrite (seqZ_cons i) by lia. cbn. rewrite <- app_assoc. cbn.
    replace (Z.succ i) with (i + 1) by lia. replace (Z.pred (Z.of_nat (S n))) with (Z.of_nat n) by lia.
    done.
Qed.

Lemma paging_ok {A} (m : M pools A) h r s' :
  m (pages h) = Ok (r, s') -> paging m h = Ok (r, set_pages s' h).
Proof. intros E. unfold paging. by rewrite E. Qed.

Lemma blk_seq_NoDup d a n : 0 < block_sz d -> NoDup (blk d a <$> seqZ 0 n).
Proof.
  intros Hb. apply NoDup_fmap_2_strong; [|apply NoDup_seqZ]. intros i j _ _. by apply blk_inj.
Qed.

Lemma elem_of_blks d a n b : b ∈ blk d a <$> seqZ 0 n <-> exists i, 0 <= i < n /\ b = blk d a i.
Proof.
  rewrite list_elem_of_fmap. split; intros (i & H1 & H2); exists i.
  - apply elem_of_seqZ in H2. split; [lia|done].
  - split; [done|]. apply elem_of_seqZ. lia.
Qed.

(** The state after a new arena was cut into blocks. *)
Lemma new_arena_ok h di d a s' : heap_inv h -> descs h !! di = Some d -> free_list d = [] ->
  pools_wf s' -> holds s' a 1 ->
  (forall a' n, holds (pages h) a' n -> holds s' a' n /\ apart a 1 a' n) ->
  let all := blk d a <$> seqZ 0 (blocks_per_arena d) in
  let h' := Heap (<[di := set_free_list all d]> (descs h))
              (<[a := Arena ARENA_MAGIC (Some di) (blocks_per_arena d)]> (arenas h)) s' in
  heap_inv h' /\ arenas h !! a = None /\ forall c m, allocated h' c m <-> allocated h c m.
Proof.
  intros Hi Ed Efl Hwf Hh Hold all h'. destruct (desc_facts h di d Hi Ed) as (? & ? & ?).
  set (x := Arena ARENA_MAGIC (Some di) 0).
  destruct (heap_new h a x s' Hi Hwf Hh eq_refl) as [Hnone Hi1]; [|done|].
  { intros di' [= <-]. by rewrite Ed. }
  set (h1 := Heap (descs h) (<[a := x]> (arenas h)) s') in *.
  assert (arenas h1 !! a = Some x) as Ea by apply lookup_insert_eq.
  assert (Hin : forall b, b ∈ all -> a <= b < a + 4096).
  { intros b (i & Hr & ->)%elem_of_blks. pose proof (blk_bound h1 a x di d i Hi1 Ea eq_refl Ed Hr). lia. }
  assert (h' = with_free di d all a (set_free_cnt (blocks_per_arena d) x) h1) as ->.
  { unfold h', with_free, h1. cbn. by rewrite insert_insert_eq. }
  split; [|split; [done|]].
  - apply inv_with_free; try done.
    + apply blk_seq_NoDup. lia.
    + intros b Hb. right. by apply elem_of_blks.
    + intros a' x' Hne Ea'. rewrite Efl. apply bfilter_none. intros b Hb%Hin.
      apply not_true_iff_false. rewrite in_arena_true. intros Hb'. apply Hne.
      by apply (in_arena_unique h1 a' x' a x b).
    + unfold free_in. rewrite bfilter_all by (intros b Hb%Hin; by apply in_arena_true).
      unfold all. rewrite length_fmap, length_seqZ. lia.
  - intros c m. rewrite (allocated_with_free h1 di d all a x _ c m Ed Ea eq_refl). split.
    + intros (a' & x' & Ea' & Hx). destruct (decide (a' = a)) as [->|Hne].
      { rewrite Ea in Ea'. injection Ea' as <-. cbn [adesc x] in Hx.
        destruct Hx as (d' & i & Ed' & Hr & -> & Hn & _). rewrite decide_True in Hn by done.
        exfalso. apply Hn.
        cbn in Ed'. rewrite Ed in Ed'. injection Ed' as <-. apply elem_of_blks. eauto. }
      exists a', x'. cbn in Ea'. rewrite lookup_insert_ne in Ea' by done. split; [done|].
      destruct (adesc x') as [dj|]; [|done]. destruct Hx as (d' & i & Ed' & Hr & -> & Hn & ->).
      exists d', i. split_and!; try (done || lia). cbn in Ed'. case_decide; [subst|done].
      rewrite Ed in Ed'. injection Ed' as <-. rewrite Efl. set_solver.
    + intros (a' & x' & Ea' & Hx). exists a', x'.
      assert (a' <> a) as Hne by congruence. cbn. rewrite lookup_insert_ne by done. split; [done|].
      destruct (adesc x') as [dj|] eqn:Ex'; [|done]. destruct Hx as (d' & i & Ed' & Hr & -> & Hn & ->).
      exists d', i. split_and!; try (done || lia). case_decide; [subst|done].
      rewrite Ed in Ed'. injection Ed' as <-. intros Hb%Hin.
      pose proof (blk_bound h a' x' di d i Hi Ea' Ex' Ed Hr). apply Hne.
      assert (arenas h1 !! a' = Some x') by (cbn; by rewrite lookup_insert_ne).
      apply (in_arena_unique h1 a' x' a x (blk d a' i)); done || lia.
Qed.

Lemma refill_ok h di d : heap_wf h -> descs h !! di = Some d ->
  refill di h = Ok (false, h) \/
  exists h' d' b r, refill di h = Ok (true, h') /\ heap_inv h' /\ descs h' !! di = Some d' /\
    static d' = static d /\ free_list d' = b :: r /\ mem (pages h') = mem (pages h) /\
    busy_but h' (fun a => a <= b < a + 4096) /\ (forall c m, allocated h' c m <-> allocated h c m).
Proof.
  intros [Hi Hb] Ed. destruct (desc_facts h di d Hi Ed) as (? & ? & ?).
  unfold refill. crun (get_desc_ok h di d Ed). destruct (free_list d) as [|b r] eqn:Efl.
  2: { right. exists h, d, b, r. split_and!; try done. intros a x dj d' Ea Ex Ed'. right.
       by destruct (Hb a x dj d' Ea Ex Ed'). }
  destruct (get_pages_ok (pages h) 1 (hi_pools h Hi) ltac:(lia))
    as [E|(a & s' & E & Hwf & Hmem & Hh & Hold)].
  - left. crun (paging_ok (palloc_get_page 0) h NULL (pages h) E). by destruct h.
  - right. crun (paging_ok (palloc_get_page 0) h a s' E).
    pose proof (holds_bound _ _ _ Hwf Hh) as (_ & Ha0 & Hae & Ham).
    rewrite (proj2 (Z.eqb_neq a NULL)) by (unfold NULL; lia).
    unfold put_arena. rewrite bind_modify.
    assert (small_arena (set_arenas (<[a:=Arena ARENA_MAGIC (Some di) (blocks_per_arena d)]> (arenas h))
      (set_pages s' h)) a di d) as Hsa.
    { split_and!; try (done || lia). eexists. cbn. by rewrite lookup_insert_eq. }
    pose proof (add_blocks_ok (Z.to_nat (blocks_per_arena d)) _ a 0 di d Hsa ltac:(lia) ltac:(lia)) as Ea.
    rewrite Z2Nat.id, Efl in Ea by lia. rewrite (bind_ok _ _ _ _ _ Ea). clear Ea.
    destruct (new_arena_ok h di d a s' Hi Ed Efl Hwf Hh Hold) as (Hi' & Hnone & Hall).
    set (h' := Heap _ _ s') in *.
    assert (exists r, blk d a <$> seqZ 0 (blocks_per_arena d) = blk d a 0 :: r) as [r Er].
    { rewrite seqZ_cons by lia. by eexists. }
    exists h', (set_free_list (blk d a 0 :: r) d), (blk d a 0), r. split_and!; try done.
    + cbn. rewrite Er. apply list_lookup_insert_eq. by eapply lookup_lt_Some.
    + intros a' x' dj d' Ea' Ex' Ed'. cbn in Ea', Ed'. destruct (decide (a' = a)) as [->|Hne].
      { left. unfold blk. lia. }
      right. rewrite lookup_insert_ne in Ea' by done. destruct (decide (dj = di)) as [->|Hdj].
      * rewrite list_lookup_insert_eq in Ed' by (by eapply lookup_lt_Some). injection Ed' as <-. cbn.
        by destruct (Hb a' x' di d Ea' Ex' Ed).
      * rewrite list_lookup_insert_ne in Ed' by done. by destruct (Hb a' x' dj d' Ea' Ex' Ed').
Qed.

Lemma busy_with_free h di d fl a x (P Q : Z -> Prop) : descs h !! di = Some d -> adesc x = Some di ->
  busy_but h P -> (forall a' x', a' <> a -> arenas h !! a' = Some x' -> P a' -> Q a') ->
  Q a \/ free_cnt x < blocks_per_arena d ->
  busy_but (with_free di d fl a x h) Q.
Proof.
  intros Ed Ex Hb HPQ Ha a' x' dj d' Ea' Ex' Ed'. cbn in Ea', Ed'.
  assert (exists d0, descs h !! dj = Some d0 /\ blocks_per_arena d' = blocks_per_arena d0) as (d0 & Ed0 & ->).
  { destruct (decide (dj = di)) as [->|Hdj].
    - rewrite list_lookup_insert_eq in Ed' by (by eapply lookup_lt_Some). injection Ed' as <-. by exists d.
    - rewrite list_lookup_insert_ne in Ed' by done. by exists d'. }
  destruct (decide (a' = a)) as [->|Hne].
  - rewrite lookup_insert_eq in Ea'. injection Ea' as <-. by assert (d0 = d) as -> by congruence.
  - rewrite lookup_insert_ne in Ea' by done. destruct (Hb a' x' dj d0 Ea' Ex' Ed0); [left; eauto|by right].
Qed.

(** What a call of [malloc] that returned [r] did. *)
Definition malloc_post (size : Z) (h : heap) (r : Z) (h' : heap) : Prop :=
  heap_wf h' /\ mem (pages h') = mem (pages h) /\
  ((r = NULL /\ forall c m, allocated h' c m <-> allocated h c m) \/
   (exists n, r <> NULL /\ size <= n /\ (forall m, ~ allocated h r m) /\
      forall c m, allocated h' c m <-> (c = r /\ m = n) \/ allocated h c m)).

Lemma malloc_small_ok size di d h : heap_wf h -> descs h !! di = Some d -> size <= block_sz d ->
  exists r h', (ok <- refill di;; if ok : bool then take_block di else ret NULL) h = Ok (r, h') /\
    malloc_post size h r h'.
Proof.
  intros Hwf Ed Hsz. destruct (refill_ok h di d Hwf Ed)
    as [E|(h1 & d1 & b & r & E & Hi1 & Ed1 & Est & Efl & Hmem & Hb & Hall)].
  - exists NULL, h. crun E. split; [done|]. split_and!; [done..|]. left. done.
  - crun E. destruct (take_block_ok h1 di d1 b r Hi1 Ed1 Efl) as (a & x & Ea & Ex & Hin & E' & Hi' & Hall').
    exists b. eexists. split; [exact E'|]. injection Est as Esz Ebpa.
    pose proof (arena_bound h1 a x Hi1 Ea).
    assert (forall m, ~ allocated h1 b m) as Hnot.
    { intros m. apply (free_not_allocated h1 di d1); [done..|rewrite Efl; set_solver]. }
    split_and!; [|done|].
    + split; [done|]. apply (busy_with_free h1 di d1 r a (set_free_cnt (free_cnt x - 1) x) _ _ Ed1 Ex Hb).
      * intros a' x' Hne Ea' Hin'. apply Hne. apply (in_arena_unique h1 a' x' a x b); done || lia.
      * right. cbn. destruct (hi_arena h1 Hi1 a x Ea) as (_ & _ & Hd). rewrite Ex in Hd.
        destruct Hd as (d2 & Ed2 & _ & Hle). assert (d2 = d1) as -> by congruence. lia.
    + right. exists (block_sz d1). split_and!; [unfold NULL; lia|lia| |].
      * intros m Hm. apply (Hnot m). by apply Hall.
      * intros c m. rewrite Hall', Hall. destruct (decide (c = b)) as [->|]; [|tauto].
        split; [tauto|]. intros [?|Hm]; [tauto|]. by apply Hall, Hnot in Hm.
Qed.

Lemma page_count size : 0 < size <= 2 ^ 32 - 12 ->
  let n := DIV_ROUND_UP (u32 (size + sizeof_arena)) PGSIZE in
  n = 0 \/ (0 < n /\ size + 12 <= 4096 * n <= 2 ^ 32).
Proof.
  intros Hs n. unfold n, DIV_ROUND_UP, PGSIZE, sizeof_arena. clear n.
  destruct (decide (size + 12 = 2 ^ 32)) as [->|]; [by left|]. rewrite (u32_id (size + 12)) by lia.
  destruct (decide (size + 12 + 4096 - 1 < 2 ^ 32)).
  - right. rewrite u32_id by lia. Z.to_euclidean_division_equations; lia.
  - left. unfold uwrap. replace (size + 12 + 4096 - 1) with ((size + 4107 - 2 ^ 32) + 1 * 2 ^ 32) by lia.
    rewrite Z.mod_add, Z.mod_small, Z.div_small by lia. done.
Qed.

Lemma malloc_big_ok size h : heap_wf h -> 0 < size <= 2 ^ 32 - 12 ->
  exists r h', malloc_big size h = Ok (r, h') /\ malloc_post size h r h'.
Proof.
  intros [Hi Hb] Hs. unfold malloc_big. pose proof (page_count size Hs) as Hn.
  set (n := DIV_ROUND_UP _ _) in *. destruct Hn as [->|[Hn0 Hn]].
  { exists NULL, h. rewrite (bind_ok _ _ h NULL h) by by destruct h. split; [done|].
    split_and!; [by split|done|by left]. }
  destruct (get_pages_ok (pages h) n (hi_pools h Hi) Hn0)
    as [E|(a & s' & E & Hwf & Hmem & Hh & Hold)].
  { exists NULL, h. crun (paging_ok _ h NULL (pages h) E). destruct h. split; [done|].
    split_and!; [by split|done|by left]. }
  crun (paging_ok _ h a s' E). pose proof (holds_bound _ _ _ Hwf Hh) as (_ & Ha0 & Hae & Ham).
  rewrite (proj2 (Z.eqb_neq a NULL)) by (unfold NULL; lia). unfold put_arena. rewrite bind_modify.
  unfold sizeof_arena, ret. rewrite u32_id by lia.
  destruct (heap_new h a (Arena ARENA_MAGIC None n) s' Hi Hwf Hh eq_refl) as [Hnone Hi']; [done|done|].
  eexists _, _. split; [done|]. split_and!.
  - split; [exact Hi'|]. intros a' x' dj d' Ea' Ex' Ed'. cbn in Ea', Ed'. right.
    destruct (decide (a' = a)) as [->|Hne]; [rewrite lookup_insert_eq in Ea'; by injection Ea' as <-|].
    rewrite lookup_insert_ne in Ea' by done. by destruct (Hb a' x' dj d' Ea' Ex' Ed').
  - done.
  - right. exists (4096 * n - 12). split_and!; [unfold NULL; lia|lia| |].
    + intros m (a1 & x1 & E1 & Hin & _)%allocated_in; [|done].
      destruct (hi_arena h Hi a1 x1 E1) as (_ & Hh1 & _). pose proof (arena_bound h a1 x1 Hi E1).
      destruct (Hold _ _ Hh1) as [_ Ha]. unfold apart in Ha. lia.
    + intros c m. unfold allocated. cbn. split.
      * intros (a' & x' & Ea' & Hx). rewrite lookup_insert in Ea'. case_decide.
        -- subst. injection Ea' as <-. left. done.
        -- right. eauto.
      * intros [[-> ->]|(a' & x' & Ea' & Hx)].
        -- exists a. eexists. by rewrite lookup_insert_eq.
        -- exists a', x'. rewrite lookup_insert_ne by congruence. done.
Qed.

Lemma find_desc_spec size ds : find_desc size ds = length ds \/
  exists d, ds !! find_desc size ds = Some d /\ size <= block_sz d.
Proof.
  induction ds as [|d ds IH]; [by left|]. cbn. destruct (size <=? block_sz d) eqn:E.
  - right. exists d. split; [done|]. by apply Z.leb_le.
  - destruct IH as [->|(d' & ? & ?)]; [by left|right]. by exists d'.
Qed.

Lemma malloc_ok size h : heap_wf h -> 0 <= size <= 2 ^ 32 - 12 ->
  exists r h', malloc size h = Ok (r, h') /\ malloc_post size h r h'.
Proof.
  intros Hwf Hs. unfold malloc. destruct (Z.eqb_spec size 0).
  { exists NULL, h. split; [done|]. split_and!; [done..|]. by left. }
  rewrite bind_gets. destruct (Nat.eqb_spec (find_desc size (descs h)) (length (descs h))) as [|Hne].
  - apply malloc_big_ok; [done|lia].
  - destruct (find_desc_spec size (descs h)) as [|(d & Ed & Hd)]; [done|]. by apply (malloc_small_ok size _ d).
Qed.

(** ** free *)

Lemma inv_mem h m : heap_inv h -> heap_inv (set_pages (set_mem m (pages h)) h).
Proof. intros [? [] ? ? ?]. by split. Qed.

Lemma remove_blocks_ok n : forall h a i di d, small_arena h a di d -> 0 <= i ->
  i + Z.of_nat n <= blocks_per_arena d ->
  (forall j, i <= j < i + Z.of_nat n -> blk d a j ∈ free_list d) ->
  remove_blocks n a i di h = Ok (tt, set_descs (<[di := set_free_list
    (List.filter (fun b => negb (bool_decide (b ∈ blk d a <$> seqZ i (Z.of_nat n)))) (free_list d)) d]>
    (descs h)) h).
Proof.
  induction n as [|n IH]; intros h a i di d Hs Hi Hn Hin.
  - cbn [remove_blocks]. rewrite bfilter_all by (intros x _; cbn; apply negb_true_iff, bool_decide_eq_false; set_solver).
    destruct Hs as (_ & _ & _ & _ & _ & Ed & _).
    unfold ret. destruct h as [ds ar pg], d as [s b f]. cbn in *. unfold set_descs, set_free_list. cbn.
    by rewrite list_insert_id.
  - cbn [remove_blocks]. crun (arena_to_block_ok h a di d i Hs ltac:(lia)).
    pose proof Hs as (_ & _ & _ & Hb & _ & Ed & _). crun (get_desc_ok h di d Ed).
    rewrite bool_decide_true by (apply Hin; lia). unfold put_desc. rewrite bind_modify.
    rewrite (IH _ a (i + 1) di _ (small_arena_free h a di d _ Hs)); [|lia|cbn; lia|].
    + unfold set_descs. cbn [descs arenas pages]. rewrite list_insert_insert_eq.
      unfold set_free_list. cbn [free_list block_sz blocks_per_arena]. rewrite bfilter_bfilter.
      do 5 f_equal. apply bfilter_ext. intros b _. rewrite (seqZ_cons i) by lia. cbn [fmap list_fmap].
      replace (Z.succ i) with (i + 1) by lia. replace (Z.pred (Z.of_nat (S n))) with (Z.of_nat n) by lia.
      unfold blk. cbn [block_sz]. fold (blk d). rewrite <- negb_orb. f_equal.
      apply eq_true_iff_eq. rewrite orb_true_iff, !bool_decide_eq_true, Z.eqb_eq, elem_of_cons. tauto.
    + intros j Hj. cbn [free_list set_free_list]. apply elem_of_bfilter. split; [|apply Hin; lia].
      apply negb_true_iff, Z.eqb_neq. intros E%(blk_inj d a j i); lia.
Qed.

Lemma allocated_drop h a x s' c m : heap_inv h -> arenas h !! a = Some x ->
  allocated (Heap (forget a <$> descs h) (delete a (arenas h)) s') c m <->
  allocated h c m /\ ~ (a <= c < a + 4096).
Proof.
  intros Hi Ea. split.
  - intros (a' & x' & Ea' & Hx). cbn in Ea'. apply lookup_delete_Some in Ea' as [Hne Ea'].
    assert (allocated h c m \/ a <= c < a + 4096) as Hal.
    { destruct (decide (a <= c < a + 4096)) as [|Hna]; [by right|left]. exists a', x'. split; [done|].
      destruct (adesc x') as [dj|]; [|done]. destruct Hx as (d' & i & Ed' & Hr & -> & Hn & ->).
      cbn in Ed'. rewrite list_lookup_fmap in Ed'. destruct (descs h !! dj) as [d|]; [|done].
      injection Ed' as <-. exists d, i. split_and!; try (done || apply Hr).
      intros Hb. apply Hn.
      apply elem_of_bfilter. split; [|done]. apply negb_true_iff, not_true_iff_false.
      by rewrite in_arena_true. }
    assert (a' <= c < a' + 4096) as Hin.
    { pose proof (arena_bound h a' x' Hi Ea'). destruct (adesc x') as [dj|] eqn:Ex'; [|lia].
      destruct Hx as (d' & i & Ed' & Hr & -> & Hn & ->). cbn in Ed'. rewrite list_lookup_fmap in Ed'.
      destruct (descs h !! dj) as [d|] eqn:Ed; [|done]. injection Ed' as <-.
      pose proof (blk_bound h a' x' dj d i Hi Ea' Ex' Ed Hr). unfold blk in *. cbn. lia. }
    assert (~ (a <= c < a + 4096)).
    { intros Hc. apply Hne. by apply (in_arena_unique h a x a' x' c). }
    destruct Hal; [by split|done].
  - intros [(a' & x' & Ea' & Hx) Hna]. exists a', x'.
    assert (a' <> a) as Hne.
    { intros ->. pose proof (arena_bound h a x' Hi Ea'). destruct (adesc x') as [dj|] eqn:Ex'; [|lia].
      destruct Hx as (d & i & Ed & Hr & -> & _). pose proof (blk_bound h a x' dj d i Hi Ea' Ex' Ed Hr). lia. }
    cbn. rewrite lookup_delete_ne by done. split; [done|]. destruct (adesc x') as [dj|]; [|done].
    destruct Hx as (d & i & Ed & Hr & -> & Hn & ->). exists (forget a d), i. rewrite list_lookup_fmap, Ed.
    split_and!; try (done || apply Hr). intros [_ ?]%elem_of_bfilter. done.
Qed.

(** What is left when the arena at [a] is given back. *)
Lemma drop_ok h a x : heap_inv h -> arenas h !! a = Some x -> busy_but h (eq a) ->
  exists s', paging (palloc_free_multiple a (span x)) (set_descs (forget a <$> descs h) h)
    = Ok (tt, set_pages s' (set_descs (forget a <$> descs h) h)) /\
    mem s' = fill a 0xcc (4096 * span x) (mem (pages h)) /\
    heap_wf (Heap (forget a <$> descs h) (delete a (arenas h)) s').
Proof.
  intros Hi Ea Hb. destruct (hi_arena h Hi a x Ea) as (_ & Hh & _).
  destruct (free_pages_ok (pages h) a (span x) (hi_pools h Hi) Hh) as (s' & E & Hwf & Hmem & Hold).
  exists s'. split; [by apply paging_ok|]. split; [done|]. split; [by apply (heap_drop h a x)|].
  intros a' x' dj d' Ea' Ex' Ed'. cbn in Ea', Ed'. apply lookup_delete_Some in Ea' as [Hne Ea']. rewrite list_lookup_fmap in Ed'.
  destruct (descs h !! dj) as [d|] eqn:Ed; [|done]. injection Ed' as <-. cbn.
  by destruct (Hb a' x' dj d Ea' Ex' Ed); [|right].
Qed.

(** What a call of [free] did to the other blocks. *)
Definition free_post (b : Z) (h h' : heap) : Prop :=
  heap_wf h' /\ (forall c m, allocated h' c m <-> c <> b /\ allocated h c m) /\
  forall c m z, allocated h' c m -> c <= z < c + m -> mem (pages h') z = mem (pages h) z.

Lemma fill_out dst v n m z : ~ (dst <= z < dst + n) -> fill dst v n m z = m z.
Proof.
  intros H. unfold fill. destruct (Z.leb_spec dst z), (Z.ltb_spec z (dst + n)); cbn; try done. lia.
Qed.

Lemma alloc_outside h a x c m z : heap_inv h -> arenas h !! a = Some x -> allocated h c m ->
  ~ (a <= c < a + 4096) -> c <= z < c + m -> ~ (a <= z < a + 4096 * span x).
Proof.
  intros Hi Ea Hc Hn Hz. destruct (allocated_in h c m Hi Hc) as (a' & x' & Ea' & Hin & He & _).
  destruct (decide (a = a')) as [<-|Hne]; [lia|]. destruct (hi_apart h Hi a x a' x' Ea Ea' Hne); lia.
Qed.

Lemma free_big_ok h a x : heap_wf h -> arenas h !! a = Some x -> adesc x = None ->
  exists h', free (a + 12) h = Ok (tt, h') /\ free_post (a + 12) h h'.
Proof.
  intros [Hi Hb] Ea Ex. pose proof (arena_bound h a x Hi Ea) as (? & ? & ? & ?).
  assert (span x = free_cnt x) as Esp by (unfold span; by rewrite Ex).
  assert (forall c m, allocated h c m -> c <> a + 12 -> ~ (a <= c < a + 4096)) as Hone.
  { intros c m (a' & x' & Ea' & Hx) Hc Hin. pose proof (arena_bound h a' x' Hi Ea').
    assert (a' = a) as ->.
    { apply (in_arena_unique h a' x' a x c); try done. destruct (adesc x') as [dj|] eqn:Ex'; [|lia].
      destruct Hx as (d & i & Ed & Hr & -> & _). pose proof (blk_bound h a' x' dj d i Hi Ea' Ex' Ed Hr). lia. }
    rewrite Ea in Ea'. injection Ea' as <-. rewrite Ex in Hx. lia. }
  assert (forget a <$> descs h = descs h) as Hf.
  { apply list_eq. intros di. rewrite list_lookup_fmap. destruct (descs h !! di) as [d|] eqn:Ed; [|done].
    cbn. f_equal. unfold forget. rewrite bfilter_all; [by destruct d|]. intros b Hb'.
    apply negb_true_iff, not_true_iff_false. intros Hin. destruct (free_in_blk h a x di d b Hi Ea Ed); [|congruence].
    by apply elem_of_bfilter. }
  destruct (drop_ok h a x Hi Ea) as (s' & E & Hmem & Hwf').
  { intros a' x' dj d Ea' Ex' Ed'. right. by destruct (Hb a' x' dj d Ea' Ex' Ed'). }
  assert (set_descs (forget a <$> descs h) h = h) as Eh by (rewrite Hf; by destruct h). rewrite Eh, Esp in E.
  eexists. split.
  - unfold free. rewrite (proj2 (Z.eqb_neq (a + 12) NULL)) by (unfold NULL; lia). cbn [negb].
    crun (block_to_arena_big h a x Hi Ea Ex). crun (get_arena_ok h a x Ea). rewrite Ex. crun E. done.
  - cbn. rewrite Hf in Hwf'. split; [done|].
    assert (forall c m, allocated (Heap (descs h) (delete a (arenas h)) s') c m <-> c <> a + 12 /\ allocated h c m) as Hall.
    { intros c m. pose proof (allocated_drop h a x s' c m Hi Ea) as Hd. rewrite Hf in Hd. rewrite Hd.
      split; [intros [? ?]; split; [lia|done]|intros [? ?]; eauto]. }
    split; [done|]. intros c m z [Hc Hm]%Hall Hz. cbn. rewrite Hmem. apply fill_out.
    apply (alloc_outside h a x c m); eauto.
Qed.

(** A block is put on its free list. *)
Lemma give_ok h a x di d i : heap_inv h -> arenas h !! a = Some x -> adesc x = Some di ->
  descs h !! di = Some d -> 0 <= i < blocks_per_arena d -> blk d a i ∉ free_list d ->
  let h1 := with_free di d (blk d a i :: free_list d) a (set_free_cnt (free_cnt x + 1) x) h in
  heap_inv h1 /\ forall c m, allocated h1 c m <-> c <> blk d a i /\ allocated h c m.
Proof.
  intros Hi Ea Ex Ed Hr Hn. set (b := blk d a i) in *. cbn zeta.
  pose proof (blk_bound h a x di d i Hi Ea Ex Ed Hr) as Hbb. fold b in Hbb.
  destruct (hi_free h Hi di d Ed) as [Hnd _].
  destruct (hi_arena h Hi a x Ea) as (_ & _ & Hd). rewrite Ex in Hd. destruct Hd as (d' & Ed' & Hc & _).
  assert (d' = d) as -> by congruence. split.
  - apply inv_with_free; try done.
    + by apply NoDup_cons.
    + intros c [->|Hc']%elem_of_cons; [right; by exists i|by left].
    + intros a' x' Hne Ea'. unfold free_in. cbn. destruct (in_arena a' b) eqn:E; [|done].
      apply in_arena_true in E. destruct Hne. apply (in_arena_unique h a' x' a x b); done || lia.
    + unfold free_in in *. cbn. rewrite (proj2 (in_arena_true a b)) by lia. cbn [length]. lia.
  - intros c m. rewrite (allocated_one h di d _ a x _ b i c m Hi Ed Ea Ex Hr eq_refl); [|set_solver].
    split; [|tauto]. intros [(_ & Hx & _)|?]; [|done]. set_solver.
Qed.

(** Removing all blocks of an entirely free arena from its list. *)
Lemma forget_full h a x di d : heap_inv h -> arenas h !! a = Some x -> adesc x = Some di ->
  descs h !! di = Some d -> free_cnt x = blocks_per_arena d ->
  (forall i, 0 <= i < blocks_per_arena d -> blk d a i ∈ free_list d) /\
  <[di := set_free_list (List.filter (fun b => negb (bool_decide
     (b ∈ blk d a <$> seqZ 0 (blocks_per_arena d)))) (free_list d)) d]> (descs h)
  = forget a <$> descs h.
Proof.
  intros Hi Ea Ex Ed Hfull. destruct (desc_facts h di d Hi Ed) as (? & ? & ?).
  destruct (hi_free h Hi di d Ed) as [Hnd _].
  destruct (hi_arena h Hi a x Ea) as (_ & _ & Hd). rewrite Ex in Hd. destruct Hd as (d' & Ed' & Hc & _).
  assert (d' = d) as -> by congruence. clear Ed'. split.
  - intros i Hr. apply (free_in_le d a (free_list d)); try (done || lia).
    intros b Hb. by apply (free_in_blk h a x di d b Hi Ea Ed).
  - apply list_eq. intros dj. rewrite list_lookup_fmap. destruct (decide (dj = di)) as [->|Hne].
    + rewrite list_lookup_insert_eq, Ed by (by eapply lookup_lt_Some). cbn. unfold forget. do 2 f_equal.
      apply bfilter_ext. intros b Hb. f_equal. apply eq_true_iff_eq.
      rewrite bool_decide_eq_true, in_arena_true, elem_of_blks. split.
      * intros (i & Hr & ->). pose proof (blk_bound h a x di d i Hi Ea Ex Ed Hr). lia.
      * intros Hin. apply (free_in_blk h a x di d b Hi Ea Ed).
        apply elem_of_bfilter. by rewrite in_arena_true.
    + rewrite list_lookup_insert_ne by done. destruct (descs h !! dj) as [d'|] eqn:Ed'; [|done].
      cbn. f_equal. unfold forget. rewrite bfilter_all; [by destruct d'|]. intros b Hb.
      apply negb_true_iff, not_true_iff_false. intros Hin.
      destruct (free_in_blk h a x dj d' b Hi Ea Ed'); [by apply elem_of_bfilter|congruence].
Qed.

(** An entirely free arena is given back. *)
Definition release (a : Z) (di : nat) (n : Z) : M heap unit :=
  remove_blocks (Z.to_nat n) a 0 di;;;
  paging (palloc_free_page a);;;
  modify (fun h => set_arenas (delete a (arenas h)) h).

Lemma release_ok h a x di d : heap_inv h -> arenas h !! a = Some x -> adesc x = Some di ->
  descs h !! di = Some d -> free_cnt x = blocks_per_arena d -> busy_but h (eq a) ->
  exists h', release a di (blocks_per_arena d) h = Ok (tt, h') /\ heap_wf h' /\
    (forall c m, allocated h' c m <-> allocated h c m) /\
    forall c m z, allocated h c m -> c <= z < c + m -> mem (pages h') z = mem (pages h) z.
Proof.
  intros Hi Ea Ex Ed Hfull Hb. pose proof (desc_facts h di d Hi Ed).
  destruct (forget_full h a x di d Hi Ea Ex Ed Hfull) as [Hin Hf].
  destruct (drop_ok h a x Hi Ea Hb) as (s' & Es & Hmem & Hwf).
  assert (span x = 1) as Esp by (unfold span; by rewrite Ex). rewrite Esp in Es.
  assert (forall c m, allocated h c m -> ~ (a <= c < a + 4096)) as Hno.
  { intros c m Hc Hca. pose proof Hc as (a' & x' & Ea' & Hx). pose proof (arena_bound h a' x' Hi Ea').
    assert (a' = a) as ->.
    { apply (in_arena_unique h a' x' a x c); try done. destruct (adesc x') as [dj|] eqn:Ex'; [|lia].
      destruct Hx as (d' & i & Ed' & Hr & -> & _). pose proof (blk_bound h a' x' dj d' i Hi Ea' Ex' Ed' Hr). lia. }
    rewrite Ea in Ea'. injection Ea' as <-. rewrite Ex in Hx. destruct Hx as (d' & i & Ed' & Hr & -> & Hn & _).
    assert (d' = d) as -> by congruence. by apply Hn, Hin. }
  eexists. split_and!.
  - unfold release. crun_by ltac:(apply (remove_blocks_ok _ h a 0 di d);
      [by apply (inv_small_arena h a x)|lia|lia|intros j Hj; apply Hin; lia]).
    rewrite Z2Nat.id, Hf by lia. crun Es. done.
  - exact Hwf.
  - intros c m. rewrite (allocated_drop h a x s' c m Hi Ea). split; [by intros [? _]|eauto].
  - intros c m z Hc Hz. cbn. rewrite Hmem. apply fill_out. apply (alloc_outside h a x c m); eauto.
Qed.

Lemma free_small_ok h a x di d i : heap_wf h -> arenas h !! a = Some x -> adesc x = Some di ->
  descs h !! di = Some d -> 0 <= i < blocks_per_arena d -> blk d a i ∉ free_list d ->
  exists h', free (blk d a i) h = Ok (tt, h') /\ free_post (blk d a i) h h'.
Proof.
  intros [Hi Hb] Ea Ex Ed Hr Hn. destruct (desc_facts h di d Hi Ed) as (? & ? & ?).
  assert (blocks_per_arena d <= 4096) by nia.
  pose proof (blk_bound h a x di d i Hi Ea Ex Ed Hr) as Hbb. set (b := blk d a i) in *.
  set (h0 := set_pages (set_mem (fill b 0xcc (block_sz d) (mem (pages h))) (pages h)) h).
  destruct (give_ok h0 a x di d i (inv_mem h _ Hi) Ea Ex Ed Hr Hn) as [Hi1 Hall1]. fold b in Hi1, Hall1.
  assert (forall c m, allocated h0 c m <-> allocated h c m) as Hall0 by done.
  set (x1 := set_free_cnt (free_cnt x + 1) x) in *.
  set (d1 := set_free_list (b :: free_list d) d). set (h1 := with_free di d _ a x1 h0) in *.
  assert (arenas h1 !! a = Some x1) as Ea1 by apply lookup_insert_eq.
  assert (descs h1 !! di = Some d1) as Ed1 by (apply list_lookup_insert_eq; by eapply lookup_lt_Some).
  assert (allocated h b (block_sz d)) as Hbal by (exists a, x; rewrite Ex; split; [done|]; by exists d, i).
  assert (forall c m z, c <> b -> allocated h c m -> c <= z < c + m ->
    mem (pages h1) z = mem (pages h) z) as Hmem1.
  { intros c m z Hc Hm Hz. cbn. apply fill_out.
    pose proof (allocated_apart h c m b (block_sz d) Hi Hm Hbal Hc). lia. }
  destruct (hi_arena h1 Hi1 a x1 Ea1) as (_ & _ & Hd1). cbn [adesc x1 set_free_cnt] in Hd1. rewrite Ex in Hd1.
  destruct Hd1 as (d1' & Ed1' & _ & Hle1). assert (d1' = d1) as -> by congruence. cbn in Hle1.
  destruct (hi_arena h Hi a x Ea) as (_ & _ & Hd0). rewrite Ex in Hd0. destruct Hd0 as (d0 & _ & Hc0 & _).
  assert (forall (Q : heap -> Prop),
    (if blocks_per_arena d <=? free_cnt x + 1 then
       exists h', (assert (free_cnt x + 1 =? blocks_per_arena d);;;
         release a di (blocks_per_arena d)) h1 = Ok (tt, h') /\ Q h'
     else Q h1) -> exists h', free b h = Ok (tt, h') /\ Q h') as Hrun.
  { intros Q HQ. unfold free. rewrite (proj2 (Z.eqb_neq b NULL)) by (unfold NULL; pose proof (arena_bound h a x Hi Ea); lia).
    cbn [negb]. crun (block_to_arena_small h a di d i (inv_small_arena h a x di d Hi Ea Ex Ed) Hr).
    crun (get_arena_ok h a x Ea). rewrite Ex. crun (get_desc_ok h di d Ed).
    unfold memory, put_desc, put_arena. rewrite !bind_modify, u32_id by lia.
    destruct (blocks_per_arena d <=? free_cnt x + 1); [exact HQ|]. exists h1. done. }
  apply Hrun. destruct (Z.leb_spec (blocks_per_arena d) (free_cnt x + 1)) as [Hge|Hlt].
  - assert (free_cnt x1 = blocks_per_arena d1) as Hfull by (cbn; lia).
    destruct (release_ok h1 a x1 di d1 Hi1 Ea1 Ex Ed1 Hfull) as (h' & E & Hwf' & Hall' & Hmem').
    { apply (busy_with_free h0 di d _ a x1 _ _ Ed Ex Hb); [done|by left]. }
    exists h'. cassert ltac:(apply Z.eqb_eq; cbn in Hfull; lia). split; [exact E|]. split_and!; [done| |].
    + intros c m. by rewrite Hall', Hall1.
    + intros c m z Hc%Hall' Hz. rewrite (Hmem' c m) by done. apply Hall1 in Hc as [Hcb Hc].
      by apply (Hmem1 c m).
  - split; [|split; [exact Hall1|]].
    + split; [done|]. apply (busy_with_free h0 di d _ a x1 _ _ Ed Ex Hb); [done|by right].
    + intros c m z [Hc Hm]%Hall1 Hz. by apply (Hmem1 c m).
Qed.

Lemma free_allocated h b n : heap_wf h -> allocated h b n ->
  exists h', free b h = Ok (tt, h') /\ free_post b h h'.
Proof.
  intros Hwf (a & x & Ea & Hx). destruct (adesc x) as [di|] eqn:Ex.
  - destruct Hx as (d & i & Ed & Hr & -> & Hn & _). by apply (free_small_ok h a x di d i).
  - destruct Hx as [-> _]. by apply (free_big_ok h a x).
Qed.

Lemma block_size_ok h b n : heap_inv h -> allocated h b n -> block_size b h = Ok (n, h).
Proof.
  intros Hi (a & x & Ea & Hx). unfold block_size. destruct (adesc x) as [di|] eqn:Ex.
  - destruct Hx as (d & i & Ed & Hr & -> & Hn & ->).
    crun (block_to_arena_small h a di d i (inv_small_arena h a x di d Hi Ea Ex Ed) Hr).
    crun (get_arena_ok h a x Ea). rewrite Ex. by crun (get_desc_ok h di d Ed).
  - destruct Hx as [-> ->]. crun (block_to_arena_big h a x Hi Ea Ex). crun (get_arena_ok h a x Ea).
    rewrite Ex. destruct (arena_bound h a x Hi Ea) as (? & ? & ? & ?). unfold span in *. rewrite Ex in *.
    destruct (page_parts a 12) as [_ ->]; [lia..|]. unfold PGSIZE, ret. by rewrite u32_id by lia.
Qed.

Lemma wf_mem h m : heap_wf h -> heap_wf (set_pages (set_mem m (pages h)) h).
Proof. intros [Hi Hb]. split; [by apply inv_mem|done]. Qed.

(** The heap a booting kernel has. *)
Lemma malloc_init_ok p : pools_wf p ->
  exists h, malloc_init p = Ok h /\ heap_wf h /\ pages h = p /\ forall b n, ~ allocated h b n.
Proof.
  intros Hp. eexists. split; [reflexivity|]. split_and!; [|done|].
  - split; [split|]; cbn; try done.
    + intros di d Ed. assert (d.(free_list) = []) as E.
      { assert (Forall (fun d => free_list d = [])
          [Desc 16 255 []; Desc 32 127 []; Desc 64 63 []; Desc 128 31 []; Desc 256 15 [];
           Desc 512 7 []; Desc 1024 3 []]) as HF by (repeat constructor).
        exact (Forall_lookup_1 _ _ _ _ HF Ed). }
      split; rewrite E; [constructor|set_solver].
  - intros b n (a & x & Ea & _). done.
Qed.

(** ** The properties *)

(** C12: [malloc] always returns, changes no byte of memory, and either
    answers null and leaves the blocks as they are, or hands out one new block
    of at least the requested size, aligned to four bytes and disjoint from
    every block handed out before; requests up to [2^32 - 12] bytes. *)
Theorem malloc_correct size h :
  heap_wf h -> 0 <= size <= 2 ^ 32 - 12 ->
  exists r h', malloc size h = Ok (r, h') /\ heap_wf h' /\ mem (pages h') = mem (pages h) /\
    ((r = NULL /\ forall c m, allocated h' c m <-> allocated h c m) \/
     (exists n, 0 < r /\ size <= n /\ r mod 4 = 0 /\ r + n <= 2 ^ 32 /\
        (forall c m, allocated h c m -> r + n <= c \/ c + m <= r) /\
        forall c m, allocated h' c m <-> (c = r /\ m = n) \/ allocated h c m)).
Proof.
  intros Hwf Hs. destruct (malloc_ok size h Hwf Hs) as (r & h' & E & Hwf' & Hmem & Hr).
  exists r, h'. split_and!; try done. destruct Hr as [?|(n & Hnull & Hn & Hnew & Hall)]; [by left|right].
  assert (allocated h' r n) as Hrn by (apply Hall; by left). pose proof (proj1 Hwf') as Hi'.
  destruct (allocated_in h' r n Hi' Hrn) as (a & x & Ea & Hin & He & ? & ?).
  pose proof (arena_bound h' a x Hi' Ea). exists n. split_and!; try (done || lia).
  intros c m Hc. apply (allocated_apart h' r n c m Hi' Hrn); [apply Hall; by right|].
  intros <-. by apply (Hnew m).
Qed.

(** C13: freeing a block that [malloc] handed out never panics, gives exactly
    that block back, and keeps every byte of the other blocks. *)
Theorem free_correct h b n :
  heap_wf h -> allocated h b n ->
  exists h', free b h = Ok (tt, h') /\ heap_wf h' /\
    (forall c m, allocated h' c m <-> c <> b /\ allocated h c m) /\
    forall c m z, allocated h' c m -> c <= z < c + m -> mem (pages h') z = mem (pages h) z.
Proof. intros Hwf Hb. by apply (free_allocated h b n). Qed.

Lemma copy_in dst src n m k : 0 <= k < n -> copy dst src n m (dst + k) = m (src + k).
Proof.
  intros Hk. unfold copy. rewrite (proj2 (Z.leb_le _ _)), (proj2 (Z.ltb_lt _ _)) by lia. cbn. f_equal. lia.
Qed.

Lemma copy_out dst src n m z : ~ (dst <= z < dst + n) -> copy dst src n m z = m z.
Proof.
  intros H. unfold copy. destruct (Z.leb_spec dst z), (Z.ltb_spec z (dst + n)); cbn; try done. lia.
Qed.

(** [realloc] of a block either fails and changes nothing, or moves the
    block: the new one is large enough and starts with the bytes of the old
    one, the old one is freed, and all other blocks keep their bytes. *)
Theorem realloc_correct h old n size :
  heap_wf h -> allocated h old n -> 0 < size <= 2 ^ 32 - 12 ->
  exists r h', realloc old size h = Ok (r, h') /\ heap_wf h' /\
    ((r = NULL /\ mem (pages h') = mem (pages h) /\ forall c m, allocated h' c m <-> allocated h c m) \/
     (exists n', r <> NULL /\ size <= n' /\
        (forall c m, allocated h' c m <-> (c = r /\ m = n') \/ (c <> old /\ allocated h c m)) /\
        (forall k, 0 <= k < Z.min n size -> mem (pages h') (r + k) = mem (pages h) (old + k)) /\
        forall c m z, c <> old -> allocated h c m -> c <= z < c + m ->
          mem (pages h') z = mem (pages h) z)).
Proof.
  intros Hwf Hold Hs. destruct (malloc_ok size h Hwf ltac:(lia)) as (r & h1 & E & Hwf1 & Hmem & Hr).
  destruct (allocated_in h old n (proj1 Hwf) Hold) as (a & x & Ea & Ha & _ & Hn0 & _).
  pose proof (arena_bound h a x (proj1 Hwf) Ea).
  unfold realloc. rewrite (proj2 (Z.eqb_neq size 0)) by lia. crun E.
  rewrite (proj2 (Z.eqb_neq old NULL)) by (unfold NULL; lia). cbn [negb andb].
  destruct Hr as [[-> Hall]|(n' & Hnull & Hn' & Hnew & Hall)].
  { exists NULL, h1. split; [done|]. split; [done|]. by left. }
  assert (allocated h1 old n) as Hold1 by (apply Hall; by right).
  assert (allocated h1 r n') as Hr1 by (apply Hall; by left).
  assert (r <> old) as Hne by (intros <-; by apply (Hnew n)).
  rewrite (proj2 (Z.eqb_neq r NULL)) by done. cbn [negb]. rewrite !bind_assoc.
  crun (block_size_ok h1 old n (proj1 Hwf1) Hold1). set (min := if size <? n then size else n).
  assert (min = Z.min n size) as Hmin by (unfold min; destruct (Z.ltb_spec size n); lia).
  unfold memory. rewrite bind_assoc, bind_modify. set (h2 := set_pages _ h1).
  destruct (free_allocated h2 old n (wf_mem h1 _ Hwf1) Hold1) as (h' & Ef & Hwf' & Hall' & Hmem').
  exists r, h'. crun Ef. split; [done|]. split; [done|]. right. exists n'.
  assert (forall c m, allocated h' c m <-> (c = r /\ m = n') \/ (c <> old /\ allocated h c m)) as Hfin.
  { intros c m. rewrite Hall'. change (allocated h2 c m) with (allocated h1 c m). rewrite Hall.
    split; [tauto|]. intros [[-> ->]|?]; tauto. }
  split_and!; try done.
  - intros k Hk. rewrite (Hmem' r n' (r + k)); [|apply Hfin; by left|lia]. cbn.
    rewrite copy_in by lia. by rewrite Hmem.
  - intros c m z Hc Hcm Hz. rewrite (Hmem' c m z); [|apply Hfin; by right|lia]. cbn.
    rewrite copy_out; [by rewrite Hmem|]. assert (c <> r) by (intros ->; by apply (Hnew m)).
    pose proof (allocated_apart h1 c m r n' (proj1 Hwf1) ltac:(apply Hall; by right) Hr1 ltac:(done)). lia.
Qed.

Definition calloc_post (size : Z) (h : heap) (r : Z) (h' : heap) : Prop :=
  heap_wf h' /\
  (forall c m z, allocated h c m -> c <= z < c + m -> mem (pages h') z = mem (pages h) z) /\
  ((r = NULL /\ forall c m, allocated h' c m <-> allocated h c m) \/
   (exists n, r <> NULL /\ size <= n /\ (forall m, ~ allocated h r m) /\
      (forall k, 0 <= k < size -> mem (pages h') (r + k) = 0) /\
      forall c m, allocated h' c m <-> (c = r /\ m = n) \/ allocated h c m)).

Lemma calloc_ok a b h :
  heap_wf h -> 0 <= a -> 0 <= b -> a * b <= 2 ^ 32 - 12 ->
  exists r h', calloc a b h = Ok (r, h') /\ calloc_post (a * b) h r h'.
Proof.
  intros Hwf Ha Hb Hab. unfold calloc, calloc_post. assert (0 <= a * b) by nia. rewrite u32_id by lia.
  destruct ((a * b <? a) || (a * b <? b)).
  { exists NULL, h. split_and!; try done. by left. }
  destruct (malloc_ok (a * b) h Hwf ltac:(lia)) as (r & h1 & E & Hwf1 & Hmem & Hr). crun E.
  destruct Hr as [[-> Hall]|(n & Hnull & Hn & Hnew & Hall)].
  { exists NULL, h1. split_and!; try done; [by rewrite Hmem|by left]. }
  rewrite (proj2 (Z.eqb_neq r NULL)) by done. cbn [negb]. unfold memory. rewrite bind_modify.
  assert (allocated h1 r n) as Hr1 by (apply Hall; by left).
  eexists r, _. split; [done|]. split; [by apply wf_mem|]. split.
  - intros c m z Hc Hz. cbn. rewrite fill_out; [by rewrite Hmem|].
    assert (c <> r) by (intros ->; by apply (Hnew m)).
    pose proof (allocated_apart h1 c m r n (proj1 Hwf1) ltac:(apply Hall; by right) Hr1 ltac:(done)). lia.
  - right. exists n. split_and!; try done. intros k Hk. cbn. unfold fill.
    by rewrite (proj2 (Z.leb_le _ _)), (proj2 (Z.ltb_lt _ _)) by lia.
Qed.

(** [calloc] of [a] times [b] bytes, when the product is below
    [2^32 - 12], hands out a block of zeroes, or null and nothing changes. *)
Theorem calloc_correct a b h :
  heap_wf h -> 0 <= a -> 0 <= b -> a * b <= 2 ^ 32 - 12 ->
  exists r h', calloc a b h = Ok (r, h') /\ heap_wf h' /\
    (forall c m z, allocated h c m -> c <= z < c + m -> mem (pages h') z = mem (pages h) z) /\
    ((r = NULL /\ forall c m, allocated h' c m <-> allocated h c m) \/
     (exists n, r <> NULL /\ a * b <= n /\
        (forall k, 0 <= k < a * b -> mem (pages h') (r + k) = 0) /\
        forall c m, allocated h' c m <-> (c = r /\ m = n) \/ allocated h c m)).
Proof.
  intros Hwf Ha Hb Hab. destruct (calloc_ok a b h Hwf Ha Hb Hab) as (r & h' & E & Hwf' & Hk & Hr).
  exists r, h'. split_and!; try done. destruct Hr as [?|(n & H1 & H2 & _ & H3 & H4)]; [by left|right]. by exists n.
Qed.

(** ** Concrete heaps *)

Definition small_heap : heap :=
  Heap [Desc 16 255 []; Desc 32 127 []; Desc 64 63 []; Desc 128 31 []; Desc 256 15 [];
        Desc 512 7 []; Desc 1024 3 []] ∅ small_pools.

Definition address (r : res (Z * heap)) : option Z :=
  match r with Ok (a, _) => Some a | _ => None end.

Lemma small_heap_wf : heap_wf small_heap.
Proof.
  destruct (malloc_init_ok small_pools (proj1 small_pools_wf)) as (h & E & Hwf & _).
  injection E as <-. exact Hwf.
Qed.

Lemma small_heap_init : malloc_init small_pools = Ok small_heap.
Proof. reflexivity. Qed.

(** A heap in which one block of 100 bytes is handed out. *)
Lemma one_block : exists h b n, malloc 100 small_heap = Ok (b, h) /\ heap_wf h /\ allocated h b n.
Proof.
  assert (address (malloc 100 small_heap) = Some 0xc010100c) as Ha by (vm_compute; reflexivity).
  destruct (malloc_ok 100 small_heap small_heap_wf ltac:(lia)) as (r & h & E & Hwf & _ & Hr).
  rewrite E in Ha. injection Ha as ->. destruct Hr as [[E0 _]|(n & _ & _ & _ & Hall)]; [discriminate E0|].
  exists h, 0xc010100c, n. split_and!; [exact E|assumption..|]. apply Hall. left. split; reflexivity.
Qed.

Lemma malloc_correct_witness :
  exists h' n, malloc 5000 small_heap = Ok (0xc010100c, h') /\ heap_wf h' /\
    5000 <= n /\ allocated h' 0xc010100c n.
Proof.
  assert (address (malloc 5000 small_heap) = Some 0xc010100c) as Ha by (vm_compute; reflexivity).
  destruct (malloc_correct 5000 small_heap small_heap_wf ltac:(lia)) as (r & h & E & Hwf & _ & Hr).
  rewrite E in Ha. injection Ha as ->. destruct Hr as [[E0 _]|(n & _ & Hn & _ & _ & _ & Hall)]; [discriminate E0|].
  exists h, n. split_and!; [exact E|assumption..|]. apply Hall. left. split; reflexivity.
Defined.

Lemma free_correct_witness :
  exists h b n h', malloc 100 small_heap = Ok (b, h) /\ allocated h b n /\ free b h = Ok (tt, h') /\
    ~ allocated h' b n.
Proof.
  destruct one_block as (h & b & n & E & Hwf & Hb).
  destruct (free_correct h b n Hwf Hb) as (h' & E' & _ & Hall & _).
  exists h, b, n, h'. split_and!; [assumption..|]. intros Hx. apply Hall in Hx as [Hx _]. exact (Hx eq_refl).
Defined.

Lemma realloc_correct_witness :
  exists h b n r h', malloc 100 small_heap = Ok (b, h) /\ allocated h b n /\
    realloc b 2000 h = Ok (r, h') /\ heap_wf h'.
Proof.
  destruct one_block as (h & b & n & E & Hwf & Hb).
  destruct (realloc_correct h b n 2000 Hwf Hb ltac:(lia)) as (r & h' & E' & Hwf' & _).
  exists h, b, n, r, h'. split_and!; assumption.
Defined.

Lemma calloc_correct_witness :
  exists h', calloc 3 700 small_heap = Ok (0xc010100c, h') /\ mem (pages h') (0xc010100c + 2099) = 0.
Proof.
  assert (address (calloc 3 700 small_heap) = Some 0xc010100c) as Ha by (vm_compute; reflexivity).
  destruct (calloc_correct 3 700 small_heap small_heap_wf ltac:(lia) ltac:(lia) ltac:(lia))
    as (r & h & E & Hwf & _ & Hr).
  rewrite E in Ha. injection Ha as ->. destruct Hr as [[E0 _]|(n & _ & _ & Hz & _)]; [discriminate E0|].
  exists h. split; [assumption|]. apply Hz. lia.
Defined.

(** ** The interface *)

Definition live (h : heap) (b : Z) : Prop := exists n, allocated h b n.

Lemma live_same h h' : (forall c m, allocated h' c m <-> allocated h c m) ->
  NULL = NULL /\ forall q, live h' q <-> live h q.
Proof. intros Hall. split; [done|]. intros q. unfold live. by setoid_rewrite Hall. Qed.

Lemma live_handed h h' r n : r <> NULL -> (forall m, ~ allocated h r m) ->
  (forall c m, allocated h' c m <-> (c = r /\ m = n) \/ allocated h c m) ->
  r <> NULL /\ ~ live h r /\ forall q, live h' q <-> q = r \/ live h q.
Proof.
  intros Hn Hnew Hall. split; [done|]. split; [intros [m Hm]; by apply (Hnew m)|]. intros q. unfold live.
  setoid_rewrite Hall. split; [intros (m & [[-> _]|?]); eauto|intros [->|(m & ?)]; eauto].
Qed.

#[export, refine] Instance malloc_allocator : Allocator heap := {|
  al_malloc := malloc;
  al_calloc := calloc;
  al_free := free;
  al_wf := heap_wf;
  al_live := live
|}.
Proof.
  - intros n h Hwf Hn. destruct (malloc_ok n h Hwf ltac:(lia)) as (r & h' & E & Hwf' & _ & Hr).
    exists r, h'. split; [exact E|]. split; [exact Hwf'|].
    destruct Hr as [[-> Hall]|(k & Hnull & _ & Hnew & Hall)]; [left; by apply live_same|right; by apply (live_handed h h' r k)].
  - intros a b h Hwf Ha Hb Hab. destruct (calloc_ok a b h Hwf Ha Hb ltac:(lia)) as (r & h' & E & Hwf' & _ & Hr).
    exists r, h'. split; [exact E|]. split; [exact Hwf'|].
    destruct Hr as [[-> Hall]|(k & Hnull & _ & Hnew & _ & Hall)]; [left; by apply live_same|right; by apply (live_handed h h' r k)].
  - intros p h Hwf [n Hp]. destruct (free_allocated h p n Hwf Hp) as (h' & E & Hwf' & Hall & _).
    exists h'. split_and!; try done. intros q. unfold live. setoid_rewrite Hall.
    split; [intros (m & ? & ?); eauto|intros (? & m & ?); eauto].
  - done.
  - intros h p Hwf [n Hp]. destruct (allocated_in h p n (proj1 Hwf) Hp) as (a & x & Ea & ? & ? & ? & ?).
    pose proof (arena_bound h a x (proj1 Hwf) Ea). lia.
Defined.

(** ** Requests whose size wraps around *)

Definition the_arenas (r : res (Z * heap)) : list (Z * arena) :=
  match r with Ok (_, h) => map_to_list (arenas h) | _ => [] end.

(** The size computations of [malloc] and [calloc] wrap around: a request
    for [2^32 - 1] bytes gets one page, and one for [65282 * 65792] bytes, more
    than [2^32], passes the overflow check of [calloc] and gets 17 pages. *)
Theorem malloc_size_wraps :
  the_arenas (malloc (2 ^ 32 - 1) small_heap) = [(0xc0101000, Arena ARENA_MAGIC None 1)] /\
  address (malloc (2 ^ 32 - 1) small_heap) = Some 0xc010100c /\
  the_arenas (calloc 65282 65792 small_heap) = [(0xc0101000, Arena ARENA_MAGIC None 17)] /\
  address (calloc 65282 65792 small_heap) = Some 0xc010100c.
Proof. split_and!; vm_compute; reflexivity. Qed.
