(* ===== verification/Hash.v ===== *)
(** * Hash tables (lib/kernel/hash.c)

    A table of chains that grows and shrinks with the number of its elements.
    Elements are known by their address; the hash and the comparison are
    functions of the elements, as in the source.  A chain is the sequence of
    its elements (ListTheorems.v shows that list.c implements it).  The array
    of chains is a block of Malloc.v. *)

From S2P Require Import Prelude Vaddr Bitmap PageAlloc Palloc Malloc.
Local Open Scope Z_scope.

(** ** The code *)

Definition FNV_32_PRIME : Z := 16777619.
Definition FNV_32_BASIS : Z := 2166136261.

(** The loop of [hash_bytes], over the bytes that are left. *)
Fixpoint hash_bytes_loop (hash : Z) (buf : list Z) : Z :=
  match buf with
  | [] => hash
  | b :: buf => hash_bytes_loop (Z.lxor (u32 (hash * FNV_32_PRIME)) b) buf
  end.
Definition hash_bytes (buf : list Z) : Z := hash_bytes_loop FNV_32_BASIS buf.

(** A string is the bytes before its terminator. *)
Fixpoint hash_string_loop (hash : Z) (s : list Z) : res Z :=
  match s with
  | [] => Fault
  | c :: s => if c =? 0 then Ok hash
              else hash_string_loop (Z.lxor (u32 (hash * FNV_32_PRIME)) c) s
  end.
Definition hash_string (s : list Z) : res Z := hash_string_loop FNV_32_BASIS s.

(** The four bytes of an [int], least significant first. *)
Definition hash_int (i : Z) : Z :=
  hash_bytes [u32 i mod 256; u32 i / 256 mod 256; u32 i / 2 ^ 16 mod 256; u32 i / 2 ^ 24].

Definition turn_off_least_1bit (x : Z) : Z := Z.land x (u32 (x - 1)).
Definition is_power_of_2 (x : Z) : bool := negb (x =? 0) && (turn_off_least_1bit x =? 0).

Definition BEST_ELEMS_PER_BUCKET : Z := 2.
Definition sizeof_list : Z := 16.

(** [buckets]: the address of the array; [chains]: what it holds. *)
Record table := Table {
  elem_cnt : Z;
  bucket_cnt : Z;
  buckets : Z;
  chains : list (list Z)
}.

Definition set_elem_cnt (x : Z) (t : table) : table := Table x (bucket_cnt t) (buckets t) (chains t).
Definition set_chains (x : list (list Z)) (t : table) : table :=
  Table (elem_cnt t) (bucket_cnt t) (buckets t) x.

Fixpoint round_down_loop (fuel : nat) (n : Z) : res Z :=
  match fuel with
  | O => NoFuel
  | S fuel => if is_power_of_2 n then Ok n else round_down_loop fuel (turn_off_least_1bit n)
  end.

Section Table.

(** The hash function and the order of the elements. *)
Variable hash : Z -> Z.
Variable less : Z -> Z -> bool.

Definition state : Type := (table * heap)%type.

Definition on_heap {A : Type} (m : M heap A) : M state A :=
  fun s => r <-! m s.2;; Ok (r.1, (s.1, r.2)).
Definition on_table (f : table -> table) : M state unit := modify (fun s => (f s.1, s.2)).

(** Chain number [i]. *)
Definition chain (i : nat) : M state (list Z) :=
  s <- get;; lift (res_of_option (chains s.1 !! i)).
Definition put_chain (i : nat) (c : list Z) : M state unit :=
  on_table (fun t => set_chains (<[i := c]> (chains t)) t).

Definition find_bucket (e : Z) : M state nat :=
  s <- get;; ret (Z.to_nat (Z.land (hash e) (u32 (bucket_cnt s.1 - 1)))).

Fixpoint find_in (c : list Z) (e : Z) : option Z :=
  match c with
  | [] => None
  | hi :: c => if negb (less hi e) && negb (less e hi) then Some hi else find_in c e
  end.
Definition find_elem (bucket : nat) (e : Z) : M state (option Z) :=
  c <- chain bucket;; ret (find_in c e).

Definition insert_elem (bucket : nat) (e : Z) : M state unit :=
  on_table (fun t => set_elem_cnt (u32 (elem_cnt t + 1)) t);;;
  c <- chain bucket;; put_chain bucket (e :: c).

(** [list_remove] takes the element out of the chain it is in. *)
Definition remove_elem (e : Z) : M state unit :=
  on_table (fun t => set_elem_cnt (u32 (elem_cnt t - 1)) t);;;
  on_table (fun t => set_chains (List.filter (fun x => negb (x =? e)) <$> chains t) t).

(** The elements [es] of one old chain move to the new ones. *)
Fixpoint move_chain (es : list Z) : M state unit :=
  match es with
  | [] => ret tt
  | e :: es =>
      b <- find_bucket e;;
      c <- chain b;;
      put_chain b (e :: c);;;
      move_chain es
  end.
Fixpoint move_chains (old : list (list Z)) : M state unit :=
  match old with
  | [] => ret tt
  | es :: old => move_chain es;;; move_chains old
  end.

Definition new_count (n : Z) : res Z :=
  let new_bucket_cnt := n / BEST_ELEMS_PER_BUCKET in
  let new_bucket_cnt := if new_bucket_cnt <? 4 then 4 else new_bucket_cnt in
  round_down_loop 33 new_bucket_cnt.

Definition rehash : M state unit :=
  s <- get;;
  let old := s.1 in
  new_bucket_cnt <- lift (new_count (elem_cnt old));;
  if new_bucket_cnt =? bucket_cnt old then ret tt
  else
    new_buckets <- on_heap (malloc (u32 (sizeof_list * new_bucket_cnt)));;
    if new_buckets =? NULL then ret tt
    else
      on_table (fun t => Table (elem_cnt t) new_bucket_cnt new_buckets
                           (replicate (Z.to_nat new_bucket_cnt) []));;;
      move_chains (chains old);;;
      on_heap (Malloc.free (buckets old)).

(** A destructor and an action may use memory, not the table. *)
Definition action : Type := Z -> M heap unit.

Fixpoint clear_chain (destructor : action) (i : nat) (es : list Z) : M state unit :=
  match es with
  | [] => ret tt
  | e :: es => put_chain i es;;; on_heap (destructor e);;; clear_chain destructor i es
  end.
Fixpoint clear_chains (destructor : option action) (n i : nat) : M state unit :=
  match n with
  | O => ret tt
  | S n =>
      (match destructor with
       | Some f => c <- chain i;; clear_chain f i c
       | None => ret tt
       end);;;
      put_chain i [];;;
      clear_chains destructor n (S i)
  end.
Definition hash_clear (destructor : option action) : M state unit :=
  s <- get;;
  clear_chains destructor (Z.to_nat (bucket_cnt s.1)) 0;;;
  on_table (set_elem_cnt 0).

(** [garbage]: what a chain of the new array looks like before. *)
Definition hash_init (garbage : list Z) : M state bool :=
  a <- on_heap (malloc (u32 (sizeof_list * 4)));;
  on_table (fun _ => Table 0 4 a (replicate 4 garbage));;;
  if negb (a =? NULL) then hash_clear None;;; ret true else ret false.

Definition hash_destroy (destructor : option action) : M state unit :=
  (match destructor with Some f => hash_clear (Some f) | None => ret tt end);;;
  s <- get;;
  on_heap (Malloc.free (buckets s.1)).

Definition hash_insert (new : Z) : M state (option Z) :=
  bucket <- find_bucket new;;
  old <- find_elem bucket new;;
  (match old with None => insert_elem bucket new | Some _ => ret tt end);;;
  rehash;;;
  ret old.

Definition hash_replace (new : Z) : M state (option Z) :=
  bucket <- find_bucket new;;
  old <- find_elem bucket new;;
  (match old with Some x => remove_elem x | None => ret tt end);;;
  insert_elem bucket new;;;
  rehash;;;
  ret old.

Definition hash_find (e : Z) : M state (option Z) :=
  bucket <- find_bucket e;;
  find_elem bucket e.

Definition hash_delete (e : Z) : M state (option Z) :=
  bucket <- find_bucket e;;
  found <- find_elem bucket e;;
  (match found with Some x => remove_elem x;;; rehash | None => ret tt end);;;
  ret found.

Fixpoint apply_chain (f : action) (es : list Z) : M state unit :=
  match es with
  | [] => ret tt
  | e :: es => on_heap (f e);;; apply_chain f es
  end.
Fixpoint apply_chains (f : action) (n i : nat) : M state unit :=
  match n with
  | O => ret tt
  | S n => c <- chain i;; apply_chain f c;;; apply_chains f n (S i)
  end.
Definition hash_apply (f : action) : M state unit :=
  s <- get;; apply_chains f (Z.to_nat (bucket_cnt s.1)) 0.

Definition hash_size : M state Z := s <- get;; ret (elem_cnt s.1).
Definition hash_empty : M state bool := s <- get;; ret (elem_cnt s.1 =? 0).

(** Where an iterator stands: on the head of its chain, on an element, or past
    the last chain. *)
Inductive cursor := AtHead | AtElem (e : Z) | AtEnd.
Record hash_iterator := Iterator { it_bucket : nat; it_elem : cursor }.

Definition hash_first : hash_iterator := Iterator 0 AtHead.

(** [list_next] in the chain [c]; none is the end of the chain. *)
Fixpoint next_after (e : Z) (c : list Z) : res (option Z) :=
  match c with
  | [] => Fault
  | x :: c => if x =? e then Ok (head c) else next_after e c
  end.

(** The loop of [hash_next]: [n] chains are left after this one. *)
Fixpoint next_chain (n : nat) (b : nat) (e : option Z) : M state hash_iterator :=
  match e with
  | Some x => ret (Iterator b (AtElem x))
  | None =>
      match n with
      | O => ret (Iterator (S b) AtEnd)
      | S n => c <- chain (S b);; next_chain n (S b) (head c)
      end
  end.

Definition hash_cur (i : hash_iterator) : option Z :=
  match it_elem i with AtElem e => Some e | _ => None end.

Definition hash_next (i : hash_iterator) : M state (option Z * hash_iterator) :=
  s <- get;;
  e <- (match it_elem i with
        | AtHead => c <- chain (it_bucket i);; ret (head c)
        | AtElem e => c <- chain (it_bucket i);; lift (next_after e c)
        | AtEnd => fault
        end);;
  i' <- next_chain (Z.to_nat (bucket_cnt s.1) - S (it_bucket i)) (it_bucket i) e;;
  ret (hash_cur i', i').

End Table.

(** ** Powers of two *)

(** Clearing the lowest bit of [2^k * (2 m + 1)]. *)
Lemma turn_off_least_spec k m : 0 <= k -> 0 <= m -> 2 ^ k * (2 * m + 1) < 2 ^ 32 ->
  turn_off_least_1bit (2 ^ k * (2 * m + 1)) = 2 ^ (k + 1) * m.
Proof.
  intros Hk Hm Hb. assert (0 < 2 ^ k) by (apply Z.pow_pos_nonneg; lia).
  unfold turn_off_least_1bit. rewrite u32_id by nia.
  replace (2 ^ k * (2 * m + 1)) with (Z.shiftl (2 * m + 1) k) by (rewrite Z.shiftl_mul_pow2 by lia; lia).
  assert (Z.shiftl (2 * m + 1) k - 1 = Z.lor (Z.shiftl (2 * m) k) (Z.ones k)) as ->.
  { rewrite <- Z.lxor_lor, <- Z.add_nocarry_lxor.
    - rewrite !Z.shiftl_mul_pow2, Z.ones_equiv by lia. lia.
    - apply Z.bits_inj'. intros n Hn. rewrite Z.land_spec, Z.bits_0, Z.shiftl_spec by lia.
      destruct (Z.ltb_spec n k).
      + by rewrite Z.testbit_neg_r by lia.
      + rewrite Z.ones_spec_high by lia. apply andb_false_r.
    - apply Z.bits_inj'. intros n Hn. rewrite Z.land_spec, Z.bits_0, Z.shiftl_spec by lia.
      destruct (Z.ltb_spec n k).
      + by rewrite Z.testbit_neg_r by lia.
      + rewrite Z.ones_spec_high by lia. apply andb_false_r. }
  replace (2 ^ (k + 1) * m) with (Z.shiftl (2 * m) k)
    by (rewrite Z.shiftl_mul_pow2, Z.pow_add_r by lia; lia).
  apply Z.bits_inj'. intros n Hn. rewrite Z.land_spec, Z.lor_spec, !Z.shiftl_spec by lia.
  destruct (Z.ltb_spec n k); [by rewrite !(Z.testbit_neg_r _ (n - k)) by lia|].
  rewrite Z.ones_spec_high, orb_false_r by lia.
  destruct (Z.eq_dec n k) as [->|].
  - rewrite Z.sub_diag, Z.testbit_even_0. apply andb_false_r.
  - replace (n - k) with (Z.succ (n - k - 1)) by lia.
    rewrite Z.testbit_odd_succ, Z.testbit_even_succ by lia. apply andb_diag.
Qed.

Lemma odd_part y : 0 < y -> exists i m, 0 <= i /\ 0 <= m /\ y = 2 ^ i * (2 * m + 1).
Proof.
  intros Hy. assert (0 <= y) as H0 by lia. revert Hy.
  apply (Zlt_0_ind (fun y => 0 < y -> exists i m, 0 <= i /\ 0 <= m /\ y = 2 ^ i * (2 * m + 1)));
    [|exact H0].
  clear y H0. intros y IHy _ Hy. destruct (Z.Even_or_Odd y) as [[z Hz]|[z Hz]].
  - destruct (IHy z) as (i & m & ? & ? & ?); [lia..|]. exists (i + 1), m.
    rewrite Z.pow_add_r by lia. lia.
  - exists 0, z. lia.
Qed.

(** The largest power of two below [n]. *)
Lemma round_down_ok fuel : forall k y, 0 <= k -> 0 < y -> 2 ^ k * y < 2 ^ 32 ->
  32 - k < Z.of_nat fuel -> exists j, round_down_loop fuel (2 ^ k * y) = Ok (2 ^ j) /\
    k <= j < 32 /\ 2 ^ j <= 2 ^ k * y < 2 * 2 ^ j.
Proof.
  induction fuel as [|fuel IH]; intros k y Hk Hy Hb Hf; [|cbn [round_down_loop]].
  { exfalso. assert (k < 32); [|lia]. apply (Z.pow_lt_mono_r_iff 2); [lia..|]. nia. }
  destruct (odd_part y Hy) as (i & m & Hi & Hm & ->).
  rewrite Z.mul_assoc, <- Z.pow_add_r in * by lia. assert (0 < 2 ^ (k + i)) by (apply Z.pow_pos_nonneg; lia).
  assert (k + i < 32) by (apply (Z.pow_lt_mono_r_iff 2); [lia..|nia]).
  assert (0 < 2 ^ (k + i) * (2 * m + 1)) by (apply Z.mul_pos_pos; lia).
  unfold is_power_of_2. rewrite (proj2 (Z.eqb_neq _ 0)), turn_off_least_spec by lia. cbn [negb andb].
  destruct (Z.eq_dec m 0) as [->|Hm0].
  - rewrite Z.mul_0_r. cbn [Z.eqb]. exists (k + i). rewrite Z.mul_1_r. split; [done|]. lia.
  - assert (0 < 2 ^ (k + i + 1)) by (apply Z.pow_pos_nonneg; lia).
    assert (2 ^ (k + i + 1) = 2 * 2 ^ (k + i)) as E2 by (rewrite <- Z.pow_succ_r by lia; f_equal; lia).
    rewrite (proj2 (Z.eqb_neq _ 0)) by (assert (0 < 2 ^ (k + i + 1) * m) by (apply Z.mul_pos_pos; lia); lia).
    destruct (IH (k + i + 1) m) as (j & E & Hj & Hr); [lia|lia|nia|lia|].
    exists j. split; [exact E|]. split; [lia|]. rewrite E2 in Hr.
    assert (2 ^ j = 2 * 2 ^ (j - 1)) as Ej by (rewrite <- Z.pow_succ_r by lia; f_equal; lia).
    rewrite Ej in *. set (p := 2 ^ (k + i)) in *. set (q := 2 ^ (j - 1)) in *.
    assert (exists c, q = c * p) as [c Hc].
    { exists (2 ^ (j - 1 - (k + i))). unfold p, q. rewrite <- Z.pow_add_r by lia. f_equal. lia. }
    rewrite Hc in *. assert (m < 2 * c) by (apply (Z.mul_lt_mono_pos_l p); lia). nia.
Qed.

(** The number of buckets for [n] elements. *)
Lemma new_count_ok n : 0 <= n < 2 ^ 28 ->
  exists j, new_count n = Ok (2 ^ j) /\ 2 <= j <= 27 /\
    (8 <= n -> 2 * 2 ^ j <= n < 4 * 2 ^ j) /\ (n < 8 -> j = 2).
Proof.
  intros Hn. unfold new_count, BEST_ELEMS_PER_BUCKET.
  set (c := if n / 2 <? 4 then 4 else n / 2).
  assert (4 <= c < 2 ^ 27 /\ (8 <= n -> c = n / 2) /\ (n < 8 -> c = 4)) as (Hc & Hbig & Hsmall).
  { unfold c. destruct (Z.ltb_spec (n / 2) 4); Z.to_euclidean_division_equations; lia. }
  destruct (round_down_ok 33 0 c) as (j & E & Hj & Hr); [lia..|].
  rewrite Z.pow_0_r, Z.mul_1_l in *. exists j. split; [exact E|].
  assert (2 <= j) by (apply Z.lt_succ_r; apply (Z.pow_lt_mono_r_iff 2); [lia..|];
    rewrite Z.pow_succ_r by lia; lia).
  assert (j < 28) by (apply (Z.pow_lt_mono_r_iff 2); lia).
  split; [lia|]. split.
  - intros H8. rewrite (Hbig H8) in Hr. Z.to_euclidean_division_equations; lia.
  - intros H8. rewrite (Hsmall H8) in Hr. assert (j < 3); [|lia].
    apply (Z.pow_lt_mono_r_iff 2); lia.
Qed.

(** ** What a table holds *)

Definition elems (t : table) : list Z := concat (chains t).

(** Replacing one chain. *)
Lemma concat_insert (cs : list (list Z)) i c c' : cs !! i = Some c ->
  exists r, concat cs ≡ₚ c ++ r /\ concat (<[i := c']> cs) ≡ₚ c' ++ r.
Proof.
  intros E. exists (concat (take i cs) ++ concat (drop (S i) cs)).
  rewrite <- (take_drop_middle cs i c E) at 1. rewrite insert_take_drop by (by eapply lookup_lt_Some).
  rewrite !concat_app. cbn. rewrite !(Permutation_app_swap_app (concat _)). done.
Qed.

Lemma elem_of_chains (cs : list (list Z)) e :
  e ∈ concat cs <-> exists i c, cs !! i = Some c /\ e ∈ c.
Proof.
  rewrite list_elem_of_In, List.in_concat. split.
  - intros (c & Hc & He). rewrite <- !list_elem_of_In in *.
    apply list_elem_of_lookup_1 in Hc as [i Hi]. by exists i, c.
  - intros (i & c & Hi & He). exists c. rewrite <- !list_elem_of_In. split; [|done].
    by eapply list_elem_of_lookup_2.
Qed.

Lemma concat_filter (f : Z -> bool) (cs : list (list Z)) :
  concat (List.filter f <$> cs) = List.filter f (concat cs).
Proof. induction cs as [|c cs IH]; [done|]. cbn. by rewrite IH, List.filter_app. Qed.

Section Correct.

Context (hash : Z -> Z) (less : Z -> Z -> bool).

Definition eqv (a b : Z) : Prop := less a b = false /\ less b a = false.

(** What the comments in hash.h ask of the two functions. *)
Class HashLaws : Prop := {
  hash_range e : 0 <= hash e < 2 ^ 32;
  less_irrefl a : less a a = false;
  eqv_trans a b c : eqv a b -> eqv b c -> eqv a c;
  hash_eqv a b : eqv a b -> hash a = hash b
}.
Context `{HL : !HashLaws}.

Lemma eqv_refl a : eqv a a.
Proof. split; apply less_irrefl. Qed.
Lemma eqv_sym a b : eqv a b -> eqv b a.
Proof. unfold eqv. tauto. Qed.

(** No two elements are equal. *)
Definition distinct (l : list Z) : Prop :=
  NoDup l /\ forall x y, x ∈ l -> y ∈ l -> eqv x y -> x = y.

#[global] Instance distinct_proper : Proper ((≡ₚ) ==> iff) distinct.
Proof.
  intros l l' Hp. unfold distinct. rewrite Hp. split; intros [? Hd]; (split; [done|]); intros x y.
  - rewrite <- Hp. apply Hd.
  - rewrite Hp. apply Hd.
Qed.

(** The chains are where the hash says. *)
Record placed (t : table) : Prop := Placed {
  pl_cnt : exists j, 2 <= j <= 31 /\ bucket_cnt t = 2 ^ j;
  pl_len : length (chains t) = Z.to_nat (bucket_cnt t);
  pl_place i c e : chains t !! i = Some c -> e ∈ c -> i = Z.to_nat (hash e mod bucket_cnt t)
}.

Record table_wf (t : table) (h : heap) : Prop := TableWf {
  tw_placed : placed t;
  tw_distinct : distinct (elems t);
  tw_size : elem_cnt t = Z.of_nat (length (elems t));
  tw_heap : heap_wf h;
  tw_block : exists n, allocated h (buckets t) n /\ sizeof_list * bucket_cnt t <= n
}.

Lemma find_in_Some l e x : find_in less l e = Some x -> x ∈ l /\ eqv x e.
Proof.
  induction l as [|y l IH]; [done|]. cbn. destruct (negb (less y e) && negb (less e y)) eqn:E.
  - intros [= <-]. apply andb_true_iff in E as [?%negb_true_iff ?%negb_true_iff].
    split; [set_solver|done].
  - intros [? ?]%IH. split; [set_solver|done].
Qed.

Lemma find_in_None l e : find_in less l e = None -> forall x, x ∈ l -> ~ eqv x e.
Proof.
  induction l as [|y l IH]; intros H x Hx; [set_solver|]. cbn in H.
  destruct (negb (less y e) && negb (less e y)) eqn:E; [done|].
  apply elem_of_cons in Hx as [->|Hx]; [|by apply IH]. intros [H1 H2]. by rewrite H1, H2 in E.
Qed.

Lemma find_in_intro l e x : distinct l -> x ∈ l -> eqv x e -> find_in less l e = Some x.
Proof.
  intros [_ Hd] Hx He. destruct (find_in less l e) as [y|] eqn:E.
  - apply find_in_Some in E as [Hy Hye]. f_equal. apply Hd; [done..|].
    apply (eqv_trans _ e); [done|by apply eqv_sym].
  - by destruct (find_in_None l e E x Hx).
Qed.

Lemma find_in_perm l l' e : distinct l -> l ≡ₚ l' -> find_in less l e = find_in less l' e.
Proof.
  intros Hd Hp. destruct (find_in less l e) as [x|] eqn:E.
  - apply find_in_Some in E as [Hx He]. symmetry. apply find_in_intro; [by rewrite <- Hp| |done].
    by rewrite <- Hp.
  - destruct (find_in less l' e) as [y|] eqn:E'; [|done]. apply find_in_Some in E' as [Hy He].
    rewrite <- Hp in Hy. by destruct (find_in_None l e E y Hy).
Qed.

(** ** Finding *)

Lemma pow2_bound j : 2 <= j <= 31 -> 4 <= 2 ^ j < 2 ^ 32.
Proof.
  intros Hj. split; [|apply Z.pow_lt_mono_r; lia].
  change 4 with (2 ^ 2). apply Z.pow_le_mono_r; lia.
Qed.

Lemma find_bucket_ok t h e : placed t ->
  exists i c, find_bucket hash e (t, h) = Ok (i, (t, h)) /\ i = Z.to_nat (hash e mod bucket_cnt t) /\
    chains t !! i = Some c.
Proof.
  intros [(j & Hj & Ej) Hl _]. pose proof (pow2_bound j Hj).
  assert (Z.land (hash e) (u32 (bucket_cnt t - 1)) = hash e mod bucket_cnt t) as E.
  { rewrite Ej, u32_id by lia. rewrite <- Z.land_ones by lia. f_equal. rewrite Z.ones_equiv. lia. }
  assert (0 <= hash e mod bucket_cnt t < bucket_cnt t) by (apply Z.mod_pos_bound; lia).
  destruct (lookup_lt_is_Some_2 (chains t) (Z.to_nat (hash e mod bucket_cnt t))) as [c Hc]; [lia|].
  eexists _, c. split; [|done]. unfold find_bucket. rewrite bind_get. cbn [fst]. by rewrite E.
Qed.

Lemma chain_ok t h i c : chains t !! i = Some c -> chain i (t, h) = Ok (c, (t, h)).
Proof. intros E. unfold chain. rewrite bind_get. cbn [fst]. by rewrite E. Qed.

(** An equal element can only be in the chain of the hash. *)
Lemma find_chain t e i c : placed t -> distinct (elems t) -> i = Z.to_nat (hash e mod bucket_cnt t) ->
  chains t !! i = Some c -> find_in less c e = find_in less (elems t) e.
Proof.
  intros Hp Hd Hi Hc. assert (forall x, x ∈ c -> x ∈ elems t) as Hsub
    by (intros x Hx; apply elem_of_chains; eauto).
  destruct (find_in less c e) as [x|] eqn:E.
  - apply find_in_Some in E as [Hx He]. symmetry. apply find_in_intro; auto.
  - destruct (find_in less (elems t) e) as [y|] eqn:E'; [|done]. apply find_in_Some in E' as [Hy He].
    apply elem_of_chains in Hy as (k & c' & Hk & Hy). pose proof (pl_place t Hp k c' y Hk Hy) as Ek.
    rewrite (hash_eqv y e He), <- Hi in Ek. subst k. rewrite Hc in Hk. injection Hk as <-.
    by destruct (find_in_None c e E y Hy).
Qed.

(** ** Changing one chain *)

Lemma placed_cons t e i c : placed t -> i = Z.to_nat (hash e mod bucket_cnt t) ->
  chains t !! i = Some c ->
  let t' := set_chains (<[i := e :: c]> (chains t)) t in
  placed t' /\ elems t' ≡ₚ e :: elems t.
Proof.
  intros [Hc Hl Hp] Hi Ec t'. split.
  - split; cbn; [done|by rewrite length_insert|]. intros k c' x Hk Hx.
    destruct (decide (k = i)) as [->|Hne].
    + rewrite list_lookup_insert_eq in Hk by (by eapply lookup_lt_Some). injection Hk as <-.
      apply elem_of_cons in Hx as [->|Hx]; [done|by apply (Hp i c)].
    + rewrite list_lookup_insert_ne in Hk by done. by apply (Hp k c').
  - destruct (concat_insert (chains t) i c (e :: c) Ec) as (r & H1 & H2). unfold elems. cbn.
    by rewrite H1, H2.
Qed.

Lemma insert_elem_ok t h e i c : placed t -> i = Z.to_nat (hash e mod bucket_cnt t) ->
  chains t !! i = Some c -> 0 <= elem_cnt t < 2 ^ 32 - 1 ->
  let t' := Table (elem_cnt t + 1) (bucket_cnt t) (buckets t) (<[i := e :: c]> (chains t)) in
  insert_elem i e (t, h) = Ok (tt, (t', h)) /\ placed t' /\ elems t' ≡ₚ e :: elems t.
Proof.
  intros Hp Hi Ec Hn t'. destruct (placed_cons t e i c Hp Hi Ec) as [Hp' Hperm]. split.
  - unfold insert_elem, on_table. rewrite bind_modify. cbn [fst snd].
    crun_by ltac:(by apply chain_ok). unfold put_chain, on_table, modify. cbn. by rewrite u32_id by lia.
  - split; [|done]. destruct Hp' as [? ? ?]. by split.
Qed.

(** The elements but [x]. *)
Definition without (x : Z) (l : list Z) : list Z := List.filter (fun y => negb (y =? x)) l.

Lemma without_perm x l : NoDup l -> x ∈ l -> l ≡ₚ x :: without x l.
Proof.
  induction l as [|y l IH]; intros Hnd Hx; [set_solver|]. apply NoDup_cons in Hnd as [Hy Hnd].
  cbn. destruct (Z.eqb_spec y x) as [->|Hne]; cbn.
  - f_equiv. unfold without. rewrite bfilter_all; [done|]. intros z Hz. apply negb_true_iff, Z.eqb_neq.
    by intros ->.
  - rewrite IH at 1; [apply perm_swap|done|set_solver].
Qed.

Lemma remove_elem_ok t h x : placed t -> NoDup (elems t) -> x ∈ elems t ->
  elem_cnt t = Z.of_nat (length (elems t)) -> elem_cnt t < 2 ^ 32 ->
  let t' := Table (elem_cnt t - 1) (bucket_cnt t) (buckets t) (without x <$> chains t) in
  remove_elem x (t, h) = Ok (tt, (t', h)) /\ placed t' /\ elems t' = without x (elems t) /\
  elem_cnt t' = Z.of_nat (length (elems t')).
Proof.
  intros [Hc Hl Hp] Hnd Hx Hn Hb t'.
  assert (elems t' = without x (elems t)) as He by apply concat_filter.
  pose proof (without_perm x (elems t) Hnd Hx) as Hw. apply Permutation_length in Hw. cbn [length] in Hw.
  split_and!; [|split; cbn|done|].
  - unfold remove_elem, on_table. rewrite bind_modify. unfold modify. cbn. by rewrite u32_id by lia.
  - done.
  - by rewrite length_fmap.
  - intros i c e. rewrite list_lookup_fmap. destruct (chains t !! i) as [c0|] eqn:E0; [|done].
    intros [= <-] [_ He0]%elem_of_bfilter. by apply (Hp i c0).
  - rewrite He. cbn. lia.
Qed.

(** ** Changing the number of chains *)

Lemma move_chain_ok es : forall t h, placed t ->
  exists t', move_chain hash es (t, h) = Ok (tt, (t', h)) /\ placed t' /\ elems t' ≡ₚ es ++ elems t /\
    elem_cnt t' = elem_cnt t /\ bucket_cnt t' = bucket_cnt t /\ buckets t' = buckets t.
Proof.
  induction es as [|e es IH]; intros t h Hp; [by exists t|].
  destruct (find_bucket_ok t h e Hp) as (i & c & E & Hi & Ec). cbn [move_chain]. crun E.
  crun_by ltac:(by apply chain_ok). destruct (placed_cons t e i c Hp Hi Ec) as [Hp1 Hperm].
  unfold put_chain, on_table. rewrite bind_modify. cbn [fst snd].
  destruct (IH _ h Hp1) as (t' & E' & Hp' & Hperm' & ?). exists t'. split_and!; try done; [|by apply H..].
  rewrite Hperm', Hperm. cbn. by rewrite Permutation_middle.
Qed.

Lemma move_chains_ok old : forall t h, placed t ->
  exists t', move_chains hash old (t, h) = Ok (tt, (t', h)) /\ placed t' /\
    elems t' ≡ₚ concat old ++ elems t /\
    elem_cnt t' = elem_cnt t /\ bucket_cnt t' = bucket_cnt t /\ buckets t' = buckets t.
Proof.
  induction old as [|es old IH]; intros t h Hp; [by exists t|]. cbn [move_chains].
  destruct (move_chain_ok es t h Hp) as (t1 & E1 & Hp1 & Hperm1 & Ha & Hb & Hc). crun E1.
  destruct (IH t1 h Hp1) as (t' & E' & Hp' & Hperm' & Ha' & Hb' & Hc'). exists t'.
  split_and!; try done; [|congruence..]. rewrite Hperm', Hperm1. cbn.
  by rewrite (Permutation_app_comm es (concat old)), <- !app_assoc.
Qed.

Lemma concat_nil n : concat (replicate n ([] : list Z)) = [].
Proof. induction n; [done|done]. Qed.

(** The blocks of other users of the heap stay. *)
Definition frame (t : table) (h : heap) (t' : table) (h' : heap) : Prop :=
  forall c m, c <> buckets t -> allocated h c m ->
    c <> buckets t' /\ allocated h' c m /\
    forall z, c <= z < c + m -> mem (pages h') z = mem (pages h) z.

Lemma frame_refl t h t' : buckets t' = buckets t -> frame t h t' h.
Proof. intros E c m Hc Hm. rewrite E. done. Qed.

Lemma on_heap_ok {A} (m : M heap A) t h r h' : m h = Ok (r, h') -> on_heap m (t, h) = Ok (r, (t, h')).
Proof. intros E. unfold on_heap. cbn [fst snd]. by rewrite E. Qed.

Lemma rehash_ok t h : table_wf t h -> Z.of_nat (length (elems t)) < 2 ^ 28 ->
  exists t' h', rehash hash (t, h) = Ok (tt, (t', h')) /\ table_wf t' h' /\ elems t' ≡ₚ elems t /\
    frame t h t' h'.
Proof.
  intros [Hp Hd Hn Hh (n & Hb & Hbn)] Hlt. unfold rehash. rewrite bind_get. cbn [fst].
  destruct (new_count_ok (elem_cnt t)) as (j & Ej & Hj & _); [lia|].
  pose proof (pow2_bound j ltac:(lia)). assert (2 ^ j < 2 ^ 28) by (apply Z.pow_lt_mono_r; lia).
  unfold lift. unfold bind at 1. rewrite Ej. cbn [res_bind fst snd].
  destruct (Z.eqb_spec (2 ^ j) (bucket_cnt t)).
  { exists t, h. split_and!; try done. split; try done. by exists n. }
  unfold sizeof_list in *. rewrite u32_id by lia.
  destruct (malloc_ok (16 * 2 ^ j) h Hh ltac:(lia)) as (r & h1 & E & Hh1 & Hmem & Hr).
  crun (on_heap_ok _ t h r h1 E). destruct Hr as [[-> Hall]|(n1 & Hr0 & Hn1 & Hnew & Hall)].
  { exists t, h1. split_and!; try done.
    - split; try done. exists n. split; [by apply Hall|done].
    - intros c m Hc Hm. split_and!; [done|by apply Hall|by rewrite Hmem]. }
  rewrite (proj2 (Z.eqb_neq r NULL)) by done. unfold on_table. rewrite bind_modify. cbn [fst snd].
  set (t1 := Table (elem_cnt t) (2 ^ j) r (replicate (Z.to_nat (2 ^ j)) [])).
  assert (placed t1) as Hp1.
  { split; cbn; [exists j; split; [lia|done]|apply length_replicate|].
    intros i c e [-> _]%lookup_replicate. set_solver. }
  destruct (move_chains_ok (chains t) t1 h1 Hp1) as (t' & E' & Hp' & Hperm & Ee & Ec & Eb). crun E'.
  assert (allocated h1 (buckets t) n) as Hold by (apply Hall; by right).
  destruct (free_allocated h1 (buckets t) n Hh1 Hold) as (h' & Ef & Hh' & Hall' & Hmem').
  exists t', h'. split; [by rewrite (on_heap_ok _ t' h1 tt h' Ef)|].
  assert (elems t' ≡ₚ elems t) as Hperm'.
  { rewrite Hperm. unfold elems at 1. cbn. by rewrite concat_nil, app_nil_r. }
  cbn in Ee, Ec, Eb. split_and!; [|done|].
  - split; [done|by rewrite Hperm'|by rewrite Ee, Hperm'|done|]. exists n1. rewrite Eb, Ec. split; [|done].
    apply Hall'. split; [intros ->; by apply (Hnew n)|]. apply Hall. by left.
  - intros c m Hc Hm. assert (allocated h1 c m) by (apply Hall; by right).
    assert (allocated h' c m) by (by apply Hall'). rewrite Eb. split_and!; [|done|].
    + intros ->. by apply (Hnew m).
    + intros z Hz. by rewrite (Hmem' c m z), Hmem by done.
Qed.

(** ** The operations *)

Inductive op := OpInsert (e : Z) | OpReplace (e : Z) | OpFind (e : Z) | OpDelete (e : Z).

Definition run_op (o : op) : M state (option Z) :=
  match o with
  | OpInsert e => hash_insert hash less e
  | OpReplace e => hash_replace hash less e
  | OpFind e => hash_find hash less e
  | OpDelete e => hash_delete hash less e
  end.

Fixpoint run_ops (os : list op) : M state (list (option Z)) :=
  match os with
  | [] => ret []
  | o :: os => a <- run_op o;; r <- run_ops os;; ret (a :: r)
  end.

(** The same operations on a plain list of elements. *)
Definition spec_op (o : op) (l : list Z) : option Z * list Z :=
  match o with
  | OpInsert e => (find_in less l e, match find_in less l e with Some _ => l | None => e :: l end)
  | OpReplace e => (find_in less l e,
      e :: match find_in less l e with Some x => without x l | None => l end)
  | OpFind e => (find_in less l e, l)
  | OpDelete e => (find_in less l e, match find_in less l e with Some x => without x l | None => l end)
  end.

Fixpoint spec_ops (os : list op) (l : list Z) : list (option Z) * list Z :=
  match os with
  | [] => ([], l)
  | o :: os => let r := spec_op o l in let r' := spec_ops os r.2 in (r.1 :: r'.1, r'.2)
  end.

Lemma distinct_cons e l : distinct l -> (forall x, x ∈ l -> ~ eqv x e) -> distinct (e :: l).
Proof.
  intros [Hnd Hd] Hn. split.
  - apply NoDup_cons. split; [|done]. intros He. by apply (Hn e He), eqv_refl.
  - intros x y [->|Hx]%elem_of_cons [->|Hy]%elem_of_cons He; [done|..].
    + apply eqv_sym in He. by destruct (Hn y Hy).
    + by destruct (Hn x Hx).
    + by apply Hd.
Qed.

Lemma distinct_without x l : distinct l -> distinct (without x l).
Proof.
  intros [Hnd Hd]. split; [by apply NoDup_bfilter|]. unfold without.
  intros a b [_ ?]%elem_of_bfilter [_ ?]%elem_of_bfilter. by apply Hd.
Qed.

Lemma without_none x e l : distinct l -> x ∈ l -> eqv x e ->
  forall y, y ∈ without x l -> ~ eqv y e.
Proof.
  intros [_ Hd] Hx He y [Hy Hl]%elem_of_bfilter Hye. apply negb_true_iff, Z.eqb_neq in Hy.
  apply Hy. apply Hd; [done..|]. apply (eqv_trans _ e); [done|by apply eqv_sym].
Qed.

(** The table after an element was added. *)
Lemma insert_wf t h e i c : table_wf t h -> i = Z.to_nat (hash e mod bucket_cnt t) ->
  chains t !! i = Some c -> (forall x, x ∈ elems t -> ~ eqv x e) -> elem_cnt t < 2 ^ 28 ->
  exists t', insert_elem i e (t, h) = Ok (tt, (t', h)) /\ table_wf t' h /\ elems t' ≡ₚ e :: elems t /\
    buckets t' = buckets t.
Proof.
  intros [Hp Hd Hn Hh Hb] Hi Ec Hnone Hlt.
  destruct (insert_elem_ok t h e i c Hp Hi Ec ltac:(lia)) as (E & Hp' & Hperm).
  eexists. split; [exact E|]. split_and!; [|done..]. split; [done| | |done|done].
  - rewrite Hperm. by apply distinct_cons.
  - rewrite Hperm. cbn. lia.
Qed.

Lemma remove_wf t h x : table_wf t h -> x ∈ elems t -> elem_cnt t < 2 ^ 28 ->
  exists t', remove_elem x (t, h) = Ok (tt, (t', h)) /\ table_wf t' h /\ elems t' = without x (elems t) /\
    buckets t' = buckets t /\ bucket_cnt t' = bucket_cnt t.
Proof.
  intros [Hp Hd Hn Hh Hb] Hx Hlt.
  destruct (remove_elem_ok t h x Hp (proj1 Hd) Hx Hn ltac:(lia)) as (E & Hp' & Ee & Hn').
  eexists. split; [exact E|]. split_and!; [|done..]. split; [done| |done|done|done].
  rewrite Ee. by apply distinct_without.
Qed.

Lemma find_ok t h e : table_wf t h ->
  exists i c, find_bucket hash e (t, h) = Ok (i, (t, h)) /\ i = Z.to_nat (hash e mod bucket_cnt t) /\
    chains t !! i = Some c /\ find_elem less i e (t, h) = Ok (find_in less (elems t) e, (t, h)).
Proof.
  intros [Hp Hd _ _ _]. destruct (find_bucket_ok t h e Hp) as (i & c & E & Hi & Ec).
  exists i, c. split_and!; try done. unfold find_elem. crun_by ltac:(by apply chain_ok).
  unfold ret. by rewrite (find_chain t e i c).
Qed.

Lemma frame_trans t1 h1 t2 h2 t3 h3 : frame t1 h1 t2 h2 -> frame t2 h2 t3 h3 -> frame t1 h1 t3 h3.
Proof.
  intros H1 H2 c m Hc Hm. destruct (H1 c m Hc Hm) as (Hc2 & Hm2 & Hz2).
  destruct (H2 c m Hc2 Hm2) as (Hc3 & Hm3 & Hz3). split_and!; [done..|].
  intros z Hz. by rewrite Hz3, Hz2.
Qed.

Lemma grow_ok t h e i c : table_wf t h -> i = Z.to_nat (hash e mod bucket_cnt t) ->
  chains t !! i = Some c -> (forall x, x ∈ elems t -> ~ eqv x e) ->
  Z.of_nat (length (elems t)) < 2 ^ 28 - 1 ->
  exists t1 t' h', insert_elem i e (t, h) = Ok (tt, (t1, h)) /\ rehash hash (t1, h) = Ok (tt, (t', h')) /\
    table_wf t' h' /\ elems t' ≡ₚ e :: elems t /\ frame t h t' h'.
Proof.
  intros Hw Hi Ec Hnone Hlt. pose proof (tw_size t h Hw).
  destruct (insert_wf t h e i c Hw Hi Ec Hnone ltac:(lia)) as (t1 & E1 & Hw1 & Hp1 & Hb1).
  destruct (rehash_ok t1 h Hw1) as (t' & h' & Er & Hw' & Hperm & Hfr). { rewrite Hp1. cbn. lia. }
  exists t1, t', h'. split_and!; [done..|by rewrite Hperm|].
  apply (frame_trans t h t1 h); [by apply frame_refl|done].
Qed.

Lemma run_op_ok o t h : table_wf t h -> Z.of_nat (length (elems t)) < 2 ^ 28 - 1 ->
  exists t' h', run_op o (t, h) = Ok ((spec_op o (elems t)).1, (t', h')) /\ table_wf t' h' /\
    elems t' ≡ₚ (spec_op o (elems t)).2 /\ frame t h t' h'.
Proof.
  intros Hw Hlt. pose proof (tw_size t h Hw) as Hn. pose proof (tw_distinct t h Hw) as Hd.
  set (e := match o with OpInsert e | OpReplace e | OpFind e | OpDelete e => e end).
  destruct (find_ok t h e Hw) as (i & c & Eb & Hi & Ec & Ef).
  destruct o as [?|?|?|?]; cbn in e; subst e; cbn [run_op spec_op fst snd];
    unfold hash_insert, hash_replace, hash_find, hash_delete; crun Eb;
    [crun Ef; destruct (find_in less (elems t) e0) as [x|] eqn:E..
    |by exists t, h; split_and!; [..|apply frame_refl]
    |crun Ef; destruct (find_in less (elems t) e0) as [x|] eqn:E].
  - destruct (rehash_ok t h Hw ltac:(lia)) as (t' & h' & Er & ?). exists t', h'. by rewrite bind_ret; crun Er.
  - destruct (grow_ok t h e0 i c Hw Hi Ec (find_in_None _ _ E) Hlt) as (t1 & t' & h' & E1 & Er & ?).
    exists t', h'. crun E1. by crun Er.
  - destruct (find_in_Some _ _ _ E) as [Hx Hxe].
    destruct (remove_wf t h x Hw Hx ltac:(lia)) as (t1 & E1 & Hw1 & Ee1 & Hb1 & Hc1). crun E1.
    destruct (find_bucket_ok t1 h e0 (tw_placed t1 h Hw1)) as (i1 & c1 & _ & Hi1 & Ec1).
    rewrite Hc1, <- Hi in Hi1. subst i1.
    pose proof (without_perm x (elems t) (proj1 Hd) Hx) as Hw0%Permutation_length. cbn in Hw0.
    destruct (grow_ok t1 h e0 i c1 Hw1) as (t2 & t' & h' & E2 & Er & Hw' & Hperm & Hfr);
      rewrite ?Hc1, ?Ee1; [done|done|by apply without_none|lia|].
    exists t', h'. crun E2. crun Er. split_and!; [done..|by rewrite Hperm, Ee1|].
    apply (frame_trans t h t1 h); [by apply frame_refl|done].
  - rewrite bind_ret. destruct (grow_ok t h e0 i c Hw Hi Ec (find_in_None _ _ E) Hlt) as (t1 & t' & h' & E1 & Er & ?).
    exists t', h'. crun E1. by crun Er.
  - destruct (find_in_Some _ _ _ E) as [Hx Hxe].
    destruct (remove_wf t h x Hw Hx ltac:(lia)) as (t1 & E1 & Hw1 & Ee1 & Hb1 & Hc1).
    rewrite bind_assoc. crun E1.
    pose proof (without_perm x (elems t) (proj1 Hd) Hx) as Hw0%Permutation_length. cbn in Hw0.
    destruct (rehash_ok t1 h Hw1) as (t' & h' & Er & Hw' & Hperm & Hfr). { rewrite Ee1. lia. }
    exists t', h'. crun Er. split_and!; [done..|by rewrite Hperm, Ee1|].
    apply (frame_trans t h t1 h); [by apply frame_refl|done].
  - exists t, h. split_and!; [done..|by apply frame_refl].
Qed.

Lemma without_proper x l l' : l ≡ₚ l' -> without x l ≡ₚ without x l'.
Proof.
  intros Hp. unfold without. induction Hp as [|y l l' _ IH|y z l|l1 l2 l3 _ IH1 _ IH2]; cbn.
  - done.
  - destruct (y =? x); cbn; [done|by f_equiv].
  - destruct (y =? x), (z =? x); cbn; try done. apply perm_swap.
  - by rewrite IH1.
Qed.

Lemma spec_op_perm o l l' : distinct l -> l ≡ₚ l' ->
  (spec_op o l).1 = (spec_op o l').1 /\ (spec_op o l).2 ≡ₚ (spec_op o l').2.
Proof.
  intros Hd Hp. destruct o as [e|e|e|e]; cbn; rewrite (find_in_perm l l' e Hd Hp); (split; [done|]);
    destruct (find_in less l' e) as [x|]; try done; try (by f_equiv); rewrite (without_proper x l l' Hp); done.
Qed.

Lemma spec_op_length o l : (length (spec_op o l).2 <= S (length l))%nat.
Proof.
  pose proof (fun x => List.filter_length_le (fun y => negb (y =? x)) l) as H.
  destruct o as [e|e|e|e]; cbn; destruct (find_in less l e) as [x|]; cbn; unfold without;
    try (specialize (H x)); lia.
Qed.

Lemma run_ops_ok os : forall t h l, table_wf t h -> elems t ≡ₚ l ->
  Z.of_nat (length l + length os) < 2 ^ 28 ->
  exists t' h', run_ops os (t, h) = Ok ((spec_ops os l).1, (t', h')) /\ table_wf t' h' /\
    elems t' ≡ₚ (spec_ops os l).2 /\ frame t h t' h'.
Proof.
  induction os as [|o os IH]; intros t h l Hw Hp Hlt.
  - exists t, h. split_and!; [done..|by apply frame_refl].
  - cbn [run_ops spec_ops fst snd length] in *. pose proof (Permutation_length Hp).
    destruct (run_op_ok o t h Hw ltac:(lia)) as (t1 & h1 & E1 & Hw1 & Hp1 & Hf1).
    destruct (spec_op_perm o (elems t) l (tw_distinct t h Hw) Hp) as [Ha Hl]. rewrite Hl in Hp1.
    pose proof (spec_op_length o l).
    destruct (IH t1 h1 _ Hw1 Hp1 ltac:(lia)) as (t' & h' & E' & Hw' & Hp' & Hf').
    exists t', h'. crun E1. crun E'. rewrite Ha. split_and!; [done..|]. by apply (frame_trans t h t1 h1).
Qed.

(** ** Creation *)

Lemma clear_chains_none n : forall i t h,
  (forall k, (k < i)%nat -> chains t !! k = Some []) -> length (chains t) = (i + n)%nat ->
  clear_chains None n i (t, h) = Ok (tt, (set_chains (replicate (i + n) []) t, h)).
Proof.
  induction n as [|n IH]; intros i t h Hz Hl; cbn [clear_chains].
  - unfold ret. do 3 f_equal. destruct t as [ec bc b cs]. unfold set_chains. cbn in *. f_equal.
    apply list_eq. intros k. destruct (decide (k < i)%nat).
    + rewrite Hz by done. symmetry. apply lookup_replicate. split; [done|lia].
    + rewrite !lookup_ge_None_2; [done|rewrite length_replicate; lia|lia].
  - rewrite bind_ret. unfold put_chain, on_table. rewrite bind_modify. cbn [fst snd]. rewrite IH.
    + replace (S i + n)%nat with (i + S n)%nat by lia. done.
    + intros k Hk. cbn. destruct (decide (k = i)) as [->|]; [apply list_lookup_insert_eq; lia|].
      rewrite list_lookup_insert_ne by done. apply Hz. lia.
    + cbn. rewrite length_insert. lia.
Qed.

Lemma hash_init_ok garbage t0 h : heap_wf h ->
  exists b t h', hash_init garbage (t0, h) = Ok (b, (t, h')) /\ heap_wf h' /\
    (if b : bool then table_wf t h' /\ elems t = [] else buckets t = NULL).
Proof.
  intros Hh. unfold hash_init, sizeof_list. rewrite u32_id by lia.
  destruct (malloc_ok (16 * 4) h Hh ltac:(lia)) as (r & h1 & E & Hh1 & Hmem & Hr).
  crun (on_heap_ok _ t0 h r h1 E). unfold on_table. rewrite bind_modify. cbn [fst snd].
  destruct Hr as [[-> _]|(n & Hr0 & Hn & _ & Hall)].
  { by eexists false, _, h1. }
  rewrite (proj2 (Z.eqb_neq r NULL)) by done. cbn [negb]. unfold hash_clear. rewrite !bind_assoc, bind_get.
  cbn [fst bucket_cnt]. rewrite bind_assoc. crun_by ltac:(apply (clear_chains_none 4 0); [lia|done]).
  unfold on_table. rewrite bind_modify. eexists true, _, h1. split; [done|]. split; [done|]. split; [|done].
  split; [split|..]; cbn; try done.
  - exists 2. lia.
  - intros i c e Hc. apply (lookup_replicate 4 ([] : list Z) c i) in Hc as [-> _]. set_solver.
  - split; [constructor|set_solver].
  - exists n. split; [apply Hall; by left|unfold sizeof_list; lia].
Qed.

(** ** Iteration *)

(** The loop of the iteration idiom of the comment before [hash_first]. *)
Fixpoint visit (fuel : nat) (i : hash_iterator) : M state (list Z) :=
  match fuel with
  | O => nofuel
  | S fuel =>
      r <- hash_next i;;
      match r.1 with
      | Some e => l <- visit fuel r.2;; ret (e :: l)
      | None => ret []
      end
  end.

(** The elements from chain [b] on, after the prefix of chain [b] is done. *)
Definition rest (t : table) (b : nat) (c : list Z) : list Z := c ++ concat (drop (S b) (chains t)).

Lemma next_chain_ok n : forall t h b c0 c, chains t !! b = Some c0 ->
  length (chains t) = (S b + n)%nat ->
  exists b' c', next_chain n b (head c) (t, h) =
    Ok (Iterator b' (match head c' with Some e => AtElem e | None => AtEnd end), (t, h)) /\
    rest t b c = rest t b' c' /\ (head c' = None -> rest t b c = []) /\
    (forall e l, c' = e :: l -> (b' = b /\ c' = c) \/ chains t !! b' = Some c').
Proof.
  induction n as [|n IH]; intros t h b c0 c Ec Hl; destruct c as [|e c].
  - cbn [next_chain head]. exists (S b), []. unfold rest. cbn [head].
    rewrite !drop_ge by lia. done.
  - exists b, (e :: c). cbn. split_and!; try done. by left.
  - cbn [next_chain head]. destruct (lookup_lt_is_Some_2 (chains t) (S b)) as [c1 Hc1]; [lia|].
    crun_by ltac:(by apply chain_ok).
    destruct (IH t h (S b) c1 c1 Hc1) as (b' & c' & E & Hr & Hn & Hc); [lia|].
    assert (rest t b [] = rest t (S b) c1) as E1.
    { unfold rest. cbn [app]. by rewrite (drop_S (chains t) c1 (S b) Hc1). }
    exists b', c'. rewrite E, E1. split_and!; try done. intros e' l El.
    destruct (Hc e' l El) as [[-> ->]|?]; [by right|by right].
  - exists b, (e :: c). cbn. split_and!; try done. by left.
Qed.

Lemma next_after_ok pre e c : NoDup (pre ++ e :: c) -> next_after e (pre ++ e :: c) = Ok (head c).
Proof.
  induction pre as [|x pre IH]; cbn; intros Hnd.
  - by rewrite Z.eqb_refl.
  - apply NoDup_cons in Hnd as [Hx Hnd]. rewrite (proj2 (Z.eqb_neq x e)); [by apply IH|].
    intros ->. apply Hx. set_solver.
Qed.

Lemma chain_NoDup t i c : NoDup (elems t) -> chains t !! i = Some c -> NoDup c.
Proof.
  intros Hnd E. destruct (concat_insert (chains t) i c c E) as (r & H1 & _).
  unfold elems in Hnd. rewrite H1 in Hnd. by apply NoDup_app in Hnd as [? _].
Qed.

Lemma visit_ok fuel : forall t h b pre c cur, placed t -> NoDup (elems t) ->
  chains t !! b = Some (pre ++ c) ->
  match cur with AtHead => pre = [] | AtElem e => exists p, pre = p ++ [e] | AtEnd => False end ->
  (length (rest t b c) < fuel)%nat ->
  visit fuel (Iterator b cur) (t, h) = Ok (rest t b c, (t, h)).
Proof.
  induction fuel as [|fuel IH]; intros t h b pre c cur Hp Hnd Ec Hcur Hf; [lia|].
  cbn [visit]. unfold hash_next. rewrite !bind_assoc, bind_get. cbn [fst snd it_elem it_bucket].
  pose proof (pl_len t Hp) as Hlen. pose proof (lookup_lt_Some _ _ _ Ec) as Hb.
  rewrite bind_assoc. rewrite (bind_ok _ _ (t, h) (head c) (t, h)).
  2: { destruct cur as [|e|]; [|destruct Hcur as [p ->]|done].
       - subst pre. by crun_by ltac:(apply chain_ok; exact Ec).
       - crun_by ltac:(apply chain_ok; exact Ec). unfold lift. rewrite <- app_assoc. cbn [app].
         rewrite next_after_ok; [done|]. apply (chain_NoDup t b); [done|]. by rewrite <- app_assoc in Ec. }
  destruct (next_chain_ok (Z.to_nat (bucket_cnt t) - S b) t h b (pre ++ c) c Ec) as (b' & c' & E & Hr & Hn & Hc);
    [lia|]. rewrite bind_assoc. crun E. rewrite bind_ret. cbn [fst snd]. rewrite Hr in *.
  destruct c' as [|e l]; cbn [head hash_cur it_elem].
  - unfold ret. by rewrite (Hn eq_refl).
  - destruct (Hc e l eq_refl) as [[-> <-]|Ec'].
    + crun_by ltac:(apply (IH t h b (pre ++ [e]) l (AtElem e) Hp Hnd); [by rewrite <- app_assoc|by exists pre|];
        unfold rest in *; cbn in Hf; lia). done.
    + crun_by ltac:(apply (IH t h b' [e] l (AtElem e) Hp Hnd); [done|by exists []|];
        unfold rest in *; cbn in Hf; lia). done.
Qed.

(** An action on one element after the other. *)
Fixpoint each (f : action) (l : list Z) : M heap unit :=
  match l with
  | [] => ret tt
  | e :: l => f e;;; each f l
  end.

Lemma each_app f l l' h : each f (l ++ l') h = (each f l;;; each f l') h.
Proof.
  revert h. induction l as [|e l IH]; intros h; [done|]. cbn. rewrite bind_assoc.
  unfold bind, res_bind. destruct (f e h) as [[[] h1]| | |]; [|done..]. apply IH.
Qed.

(** Running [m] on the heap of a table that does not change. *)
Lemma on_heap_seq {A} (m : M heap unit) (k : unit -> M state A) t h :
  bind (on_heap m) k (t, h) = (r <-! m h;; k tt (t, r.2)).
Proof. unfold bind, on_heap. cbn. destruct (m h) as [[[] h1]| | |]; done. Qed.

Lemma apply_chain_ok f es : forall t h, apply_chain f es (t, h) = on_heap (each f es) (t, h).
Proof.
  induction es as [|e es IH]; intros t h; [done|]. cbn [apply_chain]. rewrite on_heap_seq.
  unfold on_heap. cbn. unfold bind. destruct (f e h) as [[[] h1]| | |]; [|done..]. cbn. apply IH.
Qed.

Lemma apply_chains_ok f n : forall i t h, length (chains t) = (i + n)%nat ->
  apply_chains f n i (t, h) = on_heap (each f (concat (drop i (chains t)))) (t, h).
Proof.
  induction n as [|n IH]; intros i t h Hl.
  - by rewrite drop_ge by lia.
  - cbn [apply_chains]. destruct (lookup_lt_is_Some_2 (chains t) i) as [c Hc]; [lia|].
    crun_by ltac:(by apply chain_ok). rewrite (drop_S _ c i Hc). cbn [concat].
    unfold bind at 1. rewrite apply_chain_ok. unfold on_heap. cbn. rewrite each_app. unfold bind.
    destruct (each f c h) as [[[] h1]| | |]; [|done..]. cbn. apply IH. lia.
Qed.

Lemma clear_chain_ok f es : forall i t h, (i < length (chains t))%nat -> chains t !! i = Some es ->
  clear_chain f i es (t, h)
  = (r <-! each f es h;; Ok (tt, (set_chains (<[i := []]> (chains t)) t, r.2))).
Proof.
  induction es as [|e es IH]; intros i t h Hi Ec; cbn [clear_chain each].
  - unfold ret. cbn. rewrite list_insert_id by done. by destruct t.
  - unfold put_chain, on_table. rewrite bind_modify, on_heap_seq. cbn [fst snd].
    unfold bind. destruct (f e h) as [[[] h1]| | |]; [|done..]. cbn [res_bind fst snd].
    rewrite IH; cbn; [|by rewrite length_insert|by apply list_lookup_insert_eq].
    by rewrite list_insert_insert_eq.
Qed.

Lemma clear_chains_ok f n : forall i t h, length (chains t) = (i + n)%nat ->
  (forall k, (k < i)%nat -> chains t !! k = Some []) ->
  clear_chains (Some f) n i (t, h)
  = (r <-! each f (concat (drop i (chains t))) h;;
     Ok (tt, (set_chains (replicate (i + n) []) t, r.2))).
Proof.
  induction n as [|n IH]; intros i t h Hl Hz.
  - rewrite drop_ge by lia. exact (clear_chains_none 0 i t h Hz Hl).
  - cbn [clear_chains]. destruct (lookup_lt_is_Some_2 (chains t) i) as [c Hc]; [lia|].
    rewrite bind_assoc. crun_by ltac:(by apply chain_ok). rewrite (drop_S _ c i Hc). cbn [concat].
    rewrite each_app. unfold bind at 1 3. rewrite clear_chain_ok by (done || lia).
    destruct (each f c h) as [[[] h1]| | |]; [|done..]. cbn [res_bind fst snd].
    unfold put_chain, on_table. rewrite bind_modify. cbn [fst snd set_chains chains].
    rewrite list_insert_insert_eq. rewrite IH; cbn.
    + rewrite drop_insert_lt by lia. replace (i + S n)%nat with (S (i + n)) by lia. done.
    + rewrite length_insert. lia.
    + intros k Hk. destruct (decide (k = i)) as [->|]; [apply list_lookup_insert_eq; lia|].
      rewrite list_lookup_insert_ne by done. apply Hz. lia.
Qed.

(** ** The properties *)

(** C8: every sequence of insertions, replacements, searches and deletions
    answers as the same sequence on a plain collection of elements does, with
    the same elements in the end, whatever memory the rehashing gets; it never
    panics and leaves the other blocks of the heap alone. *)
Theorem hash_table_refines os t h l :
  table_wf t h -> elems t ≡ₚ l -> Z.of_nat (length l + length os) < 2 ^ 28 ->
  exists t' h', run_ops os (t, h) = Ok ((spec_ops os l).1, (t', h')) /\ table_wf t' h' /\
    elems t' ≡ₚ (spec_ops os l).2 /\ frame t h t' h'.
Proof. intros Hw Hp Hn. by apply run_ops_ok. Qed.

(** The iterator yields every element of the table once and then null;
    [hash_apply] calls its action on the same elements in the same order, and
    [hash_clear] its destructor, which leaves the table empty. *)
Theorem hash_iteration t h f :
  table_wf t h ->
  visit (S (length (elems t))) hash_first (t, h) = Ok (elems t, (t, h)) /\
  hash_apply f (t, h) = on_heap (each f (elems t)) (t, h) /\
  hash_clear (Some f) (t, h)
  = (r <-! each f (elems t) h;;
     Ok (tt, (Table 0 (bucket_cnt t) (buckets t) (replicate (Z.to_nat (bucket_cnt t)) []), r.2))).
Proof.
  intros [Hp [Hnd _] _ _ _]. pose proof (pl_len t Hp) as Hl. destruct (pl_cnt t Hp) as (j & Hj & Ej).
  pose proof (pow2_bound j Hj).
  destruct (lookup_lt_is_Some_2 (chains t) 0) as [c Hc]; [lia|].
  assert (elems t = rest t 0 c) as Ee.
  { unfold elems, rest. rewrite <- (drop_0 (chains t)) at 1. by rewrite (drop_S _ c 0 Hc). }
  split_and!.
  - rewrite Ee. apply (visit_ok _ t h 0 [] c); try done. lia.
  - unfold hash_apply. rewrite bind_get. cbn [fst]. by rewrite apply_chains_ok by lia.
  - unfold hash_clear. rewrite bind_get. cbn [fst]. unfold bind. rewrite clear_chains_ok by lia.
    rewrite drop_0. unfold elems. destruct (each f _ h) as [[[] h1]| | |]; done.
Qed.

End Correct.

(** ** A concrete table *)

Module Demo.

(** Elements compared by their remainder, hashed as integers. *)
Definition hash (e : Z) : Z := hash_int (e mod 7).
Definition less (a b : Z) : bool := a mod 7 <? b mod 7.

Lemma hash_demo_range e : 0 <= hash e < 2 ^ 32.
Proof.
  unfold hash. assert (0 <= e mod 7 < 7) as H by (apply Z.mod_pos_bound; lia).
  assert (e mod 7 ∈ seqZ 0 7) as Hin by (apply elem_of_seqZ; lia). revert Hin. generalize (e mod 7).
  intros x Hx. assert (Forall (fun x => 0 <= hash_int x < 2 ^ 32) (seqZ 0 7)) as HF by by_compute.
  rewrite Forall_forall in HF. by apply HF.
Qed.

#[global] Instance demo_laws : HashLaws hash less.
Proof.
  assert (forall a b, eqv less a b <-> a mod 7 = b mod 7) as H.
  { intros a b. unfold eqv, less. rewrite !Z.ltb_ge. lia. }
  split.
  - apply hash_demo_range.
  - intros a. apply Z.ltb_irrefl.
  - intros a b c. rewrite !H. congruence.
  - intros a b He%H. unfold hash. by rewrite He.
Qed.

Definition table0 : table := Table 0 0 0 [].

Lemma demo_start : exists t h, hash_init [] (table0, small_heap) = Ok (true, (t, h)) /\
  table_wf hash less t h /\ elems t = [].
Proof.
  destruct (hash_init_ok hash less [] table0 small_heap small_heap_wf) as (b & t & h & E & _ & Hb).
  assert (match hash_init [] (table0, small_heap) with Ok (b, _) => b | _ => false end = true) as Hr
    by (vm_compute; reflexivity).
  rewrite E in Hr. subst b. exists t, h. split; [exact E|exact Hb].
Qed.

Definition demo_ops : list op :=
  [OpInsert 100; OpInsert 101; OpInsert 107; OpFind 94; OpReplace 114; OpDelete 3; OpFind 10].

End Demo.

Lemma hash_table_refines_witness :
  exists t h t' h', table_wf Demo.hash Demo.less t h /\
    run_ops Demo.hash Demo.less Demo.demo_ops (t, h)
    = Ok ([None; None; Some 100; Some 101; Some 100; Some 101; None], (t', h')) /\
    elems t' ≡ₚ [114].
Proof.
  destruct Demo.demo_start as (t & h & _ & Hw & He).
  destruct (hash_table_refines Demo.hash Demo.less Demo.demo_ops t h [] Hw) as (t' & h' & E & _ & Hp & _).
  - rewrite He. constructor.
  - cbn. lia.
  - exists t, h, t', h'. split; [exact Hw|]. split; [exact E|exact Hp].
Defined.

Lemma hash_iteration_witness :
  exists t h, table_wf Demo.hash Demo.less t h /\ visit 1 hash_first (t, h) = Ok ([], (t, h)).
Proof.
  destruct Demo.demo_start as (t & h & _ & Hw & He).
  destruct (hash_iteration Demo.hash Demo.less t h (fun _ => ret tt) Hw) as (E & _).
  exists t, h. rewrite He in E. split; [exact Hw|exact E].
Defined.
