(* ===== verification/Arith.v ===== *)
(** * 64-bit division (lib/arithmetic.c)

    The routines the compiler calls for 64-bit division and remainder, built
    from the 64-by-32-bit division instruction. *)

From S2P Require Import Prelude.
Local Open Scope Z_scope.

(** ** The code *)

(** A divide error is raised for a zero divisor and for a quotient that does
    not fit in 32 bits. *)
Definition divl (n d : Z) : res Z :=
  if d =? 0 then Fault
  else if n / d <? 2 ^ 32 then Ok (n / d) else Fault.

Definition nlz (x : Z) : Z :=
  let n := 0 in
  let '(n, x) := if x <=? 0x0000FFFF then (n + 16, u32 (Z.shiftl x 16)) else (n, x) in
  let '(n, x) := if x <=? 0x00FFFFFF then (n + 8, u32 (Z.shiftl x 8)) else (n, x) in
  let '(n, x) := if x <=? 0x0FFFFFFF then (n + 4, u32 (Z.shiftl x 4)) else (n, x) in
  let '(n, x) := if x <=? 0x3FFFFFFF then (n + 2, u32 (Z.shiftl x 2)) else (n, x) in
  if x <=? 0x7FFFFFFF then n + 1 else n.

Definition udiv64 (n d : Z) : res Z :=
  if Z.shiftr d 32 =? 0 then
    let b := 2 ^ 32 in
    let n1 := u32 (Z.shiftr n 32) in
    let n0 := u32 n in
    let d0 := u32 d in
    if d0 =? 0 then Fault
    else
      q <-! divl (u64 (b * (n1 mod d0) + n0)) d0;;
      Ok (u64 (q + b * (n1 / d0)))
  else if n <? d then Ok 0
  else
    let d1 := u32 (Z.shiftr d 32) in
    let s := nlz d1 in
    q <-! divl (Z.shiftr n 1) (u32 (Z.shiftr (u64 (Z.shiftl d s)) 32));;
    let q := Z.shiftr q (31 - s) in
    Ok (if u64 (n - u64 (u64 (q - 1) * d)) <? d then u64 (q - 1) else q).

Definition umod64 (n d : Z) : res Z :=
  q <-! udiv64 n d;; Ok (u32 (u64 (n - u64 (d * q)))).

(** [-(uint64_t) n] and [-(int64_t) q_abs] wrap around. *)
Definition sdiv64 (n d : Z) : res Z :=
  let n_abs := if n >=? 0 then u64 n else u64 (- u64 n) in
  let d_abs := if d >=? 0 then u64 d else u64 (- u64 d) in
  q_abs <-! udiv64 n_abs d_abs;;
  Ok (if eqb (n <? 0) (d <? 0) then i64 q_abs else i64 (- i64 q_abs)).

Definition smod64 (n d : Z) : res Z :=
  q <-! sdiv64 n d;; Ok (i32 (i64 (n - i64 (d * q)))).

Definition __divdi3 (n d : Z) : res Z := sdiv64 n d.
Definition __moddi3 (n d : Z) : res Z := smod64 n d.
Definition __udivdi3 (n d : Z) : res Z := udiv64 n d.
Definition __umoddi3 (n d : Z) : res Z := umod64 n d.

(** ** Leading zeroes *)

Lemma shl_bound x k m : 0 <= x -> 0 <= k -> x < 2 ^ m -> m + k = 32 -> 0 <= m ->
  u32 (Z.shiftl x k) = x * 2 ^ k.
Proof.
  intros Hx Hk Hm Hs Hm0. rewrite Z.shiftl_mul_pow2 by lia. apply u32_id.
  assert (0 < 2 ^ k) by (apply Z.pow_pos_nonneg; lia).
  assert (2 ^ m * 2 ^ k = 4294967296) by (rewrite <- Z.pow_add_r, Hs by lia; reflexivity). nia.
Qed.

Lemma nlz_ok x : 0 < x < 2 ^ 32 -> 0 <= nlz x <= 31 /\ 2 ^ 31 <= x * 2 ^ nlz x < 2 ^ 32.
Proof.
  intros Hx. unfold nlz.
  destruct (Z.leb_spec x 0xFFFF); [rewrite (shl_bound x 16 16) by lia|];
  lazymatch goal with |- context [?y <=? 0xFFFFFF] =>
    destruct (Z.leb_spec y 0xFFFFFF); [rewrite (shl_bound y 8 24) by lia|] end;
  lazymatch goal with |- context [?y <=? 0xFFFFFFF] =>
    destruct (Z.leb_spec y 0xFFFFFFF); [rewrite (shl_bound y 4 28) by lia|] end;
  lazymatch goal with |- context [?y <=? 0x3FFFFFFF] =>
    destruct (Z.leb_spec y 0x3FFFFFFF); [rewrite (shl_bound y 2 30) by lia|] end;
  lazymatch goal with |- context [?y <=? 0x7FFFFFFF] => destruct (Z.leb_spec y 0x7FFFFFFF) end;
  cbn [Z.add Z.pow Z.pow_pos Pos.iter Z.mul Pos.mul Pos.add Pos.add_carry Pos.succ]; lia.
Qed.

(** ** The quotient *)

Lemma divl_ok n d : 0 <= n -> 0 < d -> n < d * 2 ^ 32 -> divl n d = Ok (n / d).
Proof.
  intros Hn Hd Hq. unfold divl. rewrite (proj2 (Z.eqb_neq d 0)) by lia.
  rewrite (proj2 (Z.ltb_lt _ _)); [done|]. apply Z.div_lt_upper_bound; lia.
Qed.

(** A divisor [D] a little below [d] gives the quotient or one more. *)
Lemma near_quotient n d D : 0 <= n -> 0 < D <= d -> n * (d - D) <= d * D ->
  n / d <= n / D <= n / d + 1.
Proof.
  intros Hn HD Hnd. split.
  - apply Z.div_le_compat_l; lia.
  - assert (n / D - 1 <= n / d); [|lia]. apply Z.div_le_lower_bound; [lia|].
    pose proof (Z.mul_div_le n D ltac:(lia)) as Hq. set (q := n / D) in *.
    assert (0 <= q) by (apply Z.div_pos; lia).
    assert (q * (d - D) <= d); [|nia]. apply (Z.mul_le_mono_pos_r _ _ D); [lia|]. nia.
Qed.

Lemma div_small_divisor n d : 0 <= n < 2 ^ 64 -> 0 < d < 2 ^ 32 ->
  (2 ^ 32 * ((n / 2 ^ 32) mod d) + n mod 2 ^ 32) / d + 2 ^ 32 * (n / 2 ^ 32 / d) = n / d.
Proof.
  intros Hn Hd. pose proof (Z.div_mod n (2 ^ 32) ltac:(lia)) as En.
  set (n1 := n / 2 ^ 32) in *. set (n0 := n mod 2 ^ 32) in *.
  pose proof (Z.div_mod n1 d ltac:(lia)) as E1.
  replace n with (2 ^ 32 * (n1 mod d) + n0 + (2 ^ 32 * (n1 / d)) * d) by lia.
  rewrite Z.div_add by lia. done.
Qed.

(** The estimate for a divisor of more than 32 bits, with [2^s * t = 2^32]. *)
Lemma estimate n d p t d1 : 0 <= n < 2 ^ 64 -> 0 < p -> 2 <= t -> p * t = 2 ^ 32 ->
  d1 = d / 2 ^ 32 -> 0 < d < 2 ^ 64 -> 2 ^ 31 <= d1 * p < 2 ^ 32 ->
  let v := d * p / 2 ^ 32 in
  d * p < 2 ^ 64 /\ 2 ^ 31 <= v < 2 ^ 32 /\ n / d <= n / (v * t) <= n / d + 1.
Proof.
  intros Hn Hp Ht Hpt Ed Hd Hd1 v. pose proof (Z.div_mod d (2 ^ 32) ltac:(lia)) as E.
  pose proof (Z.mod_pos_bound d (2 ^ 32) ltac:(lia)). rewrite <- Ed in E.
  assert (d1 < t) by (apply (Z.mul_lt_mono_pos_r p); lia).
  assert (d1 * p <= (t - 1) * p) by (apply Z.mul_le_mono_nonneg_r; lia).
  assert (d1 * p <= 2 ^ 32 - p) as Hle by lia.
  assert (d * p <= (2 ^ 32 * d1 + (2 ^ 32 - 1)) * p) by (apply Z.mul_le_mono_nonneg_r; lia).
  assert (2 ^ 32 * d1 * p <= d * p) by (apply Z.mul_le_mono_nonneg_r; lia).
  assert (d * p < 2 ^ 64) as Hb by lia.
  assert (v = d / t) as Ev.
  { unfold v. rewrite <- Hpt, (Z.mul_comm d p). apply Z.div_mul_cancel_l; lia. }
  assert (2 ^ 31 <= v < 2 ^ 32) as Hv.
  { unfold v. split; [apply Z.div_le_lower_bound; lia|apply Z.div_lt_upper_bound; lia]. }
  split; [done|]. split; [done|].
  pose proof (Z.div_mod d t ltac:(lia)) as Edt. pose proof (Z.mod_pos_bound d t ltac:(lia)).
  rewrite <- Ev in Edt. assert (2 ^ 31 * t <= v * t) by (apply Z.mul_le_mono_nonneg_r; lia).
  apply near_quotient; [lia|lia|].
  assert (n * (d - v * t) <= 2 ^ 64 * (t - 1)) by (apply Z.mul_le_mono_nonneg; lia).
  assert ((2 ^ 31 * t) * (2 ^ 31 * t) <= d * (v * t)) by (apply Z.mul_le_mono_nonneg; lia).
  pose proof (Z.square_nonneg (t - 2)). lia.
Qed.

Lemma udiv64_ok n d : 0 <= n < 2 ^ 64 -> 0 < d < 2 ^ 64 -> udiv64 n d = Ok (n / d).
Proof.
  intros Hn Hd. unfold udiv64. rewrite !Z.shiftr_div_pow2 by lia.
  assert (0 <= n / 2 ^ 32 < 2 ^ 32) by (split; [apply Z.div_pos|apply Z.div_lt_upper_bound]; lia).
  assert (0 <= d / 2 ^ 32 < 2 ^ 32) by (split; [apply Z.div_pos|apply Z.div_lt_upper_bound]; lia).
  assert (0 <= n / d <= n) by (split; [apply Z.div_pos; lia|apply Z.div_le_upper_bound; nia]).
  rewrite (u32_id (n / 2 ^ 32)), (u32_id (d / 2 ^ 32)) by lia.
  destruct (Z.eqb_spec (d / 2 ^ 32) 0) as [E0|Hd1].
  - assert (d < 2 ^ 32) by (apply Z.div_small_iff in E0; lia).
    rewrite (u32_id d), (proj2 (Z.eqb_neq d 0)) by lia.
    pose proof (Z.mod_pos_bound (n / 2 ^ 32) d ltac:(lia)). unfold uwrap at 2.
    pose proof (Z.mod_pos_bound n (2 ^ 32) ltac:(lia)).
    rewrite u64_id, divl_ok by lia. cbn [res_bind]. rewrite div_small_divisor by lia.
    by rewrite u64_id by lia.
  - destruct (Z.ltb_spec n d) as [Hlt|Hge]; [by rewrite Z.div_small by lia|].
    destruct (nlz_ok (d / 2 ^ 32)) as [Hs Hn1]; [lia|]. set (s := nlz (d / 2 ^ 32)) in *.
    assert (2 ^ (32 - s) = 2 * 2 ^ (31 - s)) as Et by (rewrite <- Z.pow_succ_r by lia; f_equal; lia).
    assert (0 < 2 ^ (31 - s)) by (apply Z.pow_pos_nonneg; lia).
    destruct (estimate n d (2 ^ s) (2 ^ (32 - s)) (d / 2 ^ 32)) as (Hb & Hv & Hq); try (done || lia).
    { rewrite <- Z.pow_add_r by lia. f_equal; lia. }
    rewrite Z.shiftl_mul_pow2, u64_id by nia. set (v := d * 2 ^ s / 2 ^ 32) in *.
    rewrite (u32_id v), divl_ok by (try apply Z.div_lt_upper_bound; try apply Z.div_pos; lia).
    cbn [res_bind]. rewrite Z.shiftr_div_pow2, !Z.div_div by lia.
    replace (2 ^ 1 * (v * 2 ^ (31 - s))) with (v * 2 ^ (32 - s)) by lia.
    set (q := n / (v * 2 ^ (32 - s))) in *. pose proof (Z.div_mod n d ltac:(lia)) as E.
    pose proof (Z.mod_pos_bound n d ltac:(lia)). assert (1 <= n / d) by (apply Z.div_le_lower_bound; lia).
    rewrite (u64_id (q - 1)) by lia. f_equal.
    assert (q = n / d \/ q = n / d + 1) as [->| ->] by lia.
    + rewrite (u64_id ((n / d - 1) * d)), u64_id by nia.
      by rewrite (proj2 (Z.ltb_ge _ _)) by nia.
    + replace (n / d + 1 - 1) with (n / d) by lia. rewrite (u64_id (n / d * d)), u64_id by nia.
      by rewrite (proj2 (Z.ltb_lt _ _)) by nia.
Qed.

(** ** Signed division *)

Lemma abs64 n : - 2 ^ 63 <= n < 2 ^ 63 -> (if n >=? 0 then u64 n else u64 (- u64 n)) = Z.abs n.
Proof.
  intros Hn. rewrite Z.geb_leb. destruct (Z.leb_spec 0 n); [rewrite u64_id; lia|].
  assert (u64 n = n + 2 ^ 64) as ->.
  { unfold uwrap. symmetry. apply (Z.mod_unique_pos _ _ (-1)); lia. }
  unfold uwrap. symmetry. rewrite Z.abs_neq by lia. apply (Z.mod_unique_pos _ _ (-1)); lia.
Qed.

Lemma i64_neg q : 0 <= q <= 2 ^ 63 -> i64 (- i64 q) = i64 (- q).
Proof.
  intros Hq. destruct (decide (q = 2 ^ 63)) as [->|]; [reflexivity|]. by rewrite (i64_id q) by lia.
Qed.

Lemma sdiv64_ok n d : - 2 ^ 63 <= n < 2 ^ 63 -> - 2 ^ 63 <= d < 2 ^ 63 -> d <> 0 ->
  sdiv64 n d = Ok (i64 (Z.quot n d)).
Proof.
  intros Hn Hd H0. unfold sdiv64. rewrite !abs64, udiv64_ok by lia. cbn [res_bind]. f_equal.
  assert (0 <= Z.abs n / Z.abs d <= 2 ^ 63).
  { split; [apply Z.div_pos; lia|apply Z.div_le_upper_bound; [lia|nia]]. }
  rewrite Z.quot_div by done. set (q := Z.abs n / Z.abs d) in *.
  destruct (Z.ltb_spec n 0), (Z.ltb_spec d 0); cbn [eqb]; rewrite ?i64_neg by lia.
  - rewrite !Z.sgn_neg by lia. f_equal; lia.
  - rewrite Z.sgn_neg, Z.sgn_pos by lia. f_equal; lia.
  - assert (n = 0 \/ 0 < n) as [->|] by lia; [by unfold q; rewrite Z.div_0_l by lia|].
    rewrite Z.sgn_pos, Z.sgn_neg by lia. f_equal; lia.
  - assert (n = 0 \/ 0 < n) as [->|] by lia; [by unfold q; rewrite Z.div_0_l by lia|].
    rewrite !Z.sgn_pos by lia. f_equal; lia.
Qed.

Lemma smod64_ok n d : - 2 ^ 63 <= n < 2 ^ 63 -> - 2 ^ 63 <= d < 2 ^ 63 -> d <> 0 ->
  smod64 n d = Ok (i32 (Z.rem n d)).
Proof.
  intros Hn Hd H0. unfold smod64. rewrite sdiv64_ok by done. cbn [res_bind]. do 2 f_equal.
  destruct (decide (n = - 2 ^ 63 /\ d = -1)) as [[-> ->]|Hne]; [reflexivity|].
  pose proof (Z.quot_rem n d H0) as E. pose proof (Z.rem_bound_abs n d H0).
  assert (Z.abs (Z.rem n d) <= Z.abs n) by (rewrite <- Z.rem_abs by done; apply Z.rem_le; lia).
  assert (Z.abs (Z.quot n d) <= Z.abs n /\ (d <> -1 -> d <> 1 -> Z.abs (Z.quot n d) < 2 ^ 63)) as [Hq1 Hq2].
  { rewrite <- Z.quot_abs by done. rewrite Z.quot_div_nonneg by lia. split.
    - apply Z.div_le_upper_bound; nia.
    - intros. apply Z.div_lt_upper_bound; nia. }
  assert (- 2 ^ 63 <= Z.quot n d < 2 ^ 63) as Hq.
  { destruct (Z.eq_dec d (-1)) as [->|]; [|destruct (Z.eq_dec d 1) as [->|]].
    - change (-1) with (- (1)). rewrite Z.quot_opp_r, Z.quot_1_r by lia. lia.
    - rewrite Z.quot_1_r. lia.
    - specialize (Hq2 ltac:(done) ltac:(done)). lia. }
  rewrite (i64_id (Z.quot n d)) by lia. assert (d * Z.quot n d = n - Z.rem n d) as -> by lia.
  pose proof (Z.rem_sign_mul n d H0).
  rewrite (i64_id (n - Z.rem n d)) by nia. rewrite i64_id by lia. lia.
Qed.

(** ** The properties *)

(** C25: the 64-bit division routines compute the quotient, truncated towards
    zero, for every divisor but zero, and never raise a divide error; the one
    quotient that is not representable, of the least number by -1, wraps. *)
Theorem div64_correct :
  (forall n d, 0 <= n < 2 ^ 64 -> 0 < d < 2 ^ 64 -> __udivdi3 n d = Ok (n / d)) /\
  (forall n d, - 2 ^ 63 <= n < 2 ^ 63 -> - 2 ^ 63 <= d < 2 ^ 63 -> d <> 0 ->
     __divdi3 n d = Ok (i64 (Z.quot n d))) /\
  (forall n, 0 <= n < 2 ^ 64 -> __udivdi3 n 0 = Fault).
Proof.
  split_and!; [apply udiv64_ok|apply sdiv64_ok|]. done.
Qed.

(** The remainder routines return the remainder cut to 32 bits, which is
    wrong as soon as the remainder needs more. *)
Theorem mod64_truncated :
  (forall n d, 0 <= n < 2 ^ 64 -> 0 < d < 2 ^ 64 -> __umoddi3 n d = Ok (u32 (n mod d))) /\
  (forall n d, - 2 ^ 63 <= n < 2 ^ 63 -> - 2 ^ 63 <= d < 2 ^ 63 -> d <> 0 ->
     __moddi3 n d = Ok (i32 (Z.rem n d))) /\
  __umoddi3 (2 ^ 33 + 5) (2 ^ 40) = Ok 5 /\ __moddi3 (2 ^ 31) (2 ^ 40) = Ok (- 2 ^ 31).
Proof.
  split_and!; [|apply smod64_ok|reflexivity..]. intros n d Hn Hd.
  unfold __umoddi3, umod64. rewrite udiv64_ok by done. cbn [res_bind].
  pose proof (Z.div_mod n d ltac:(lia)). pose proof (Z.mod_pos_bound n d ltac:(lia)).
  assert (0 <= n / d) by (apply Z.div_pos; lia).
  rewrite (u64_id (d * (n / d))), u64_id by nia. do 2 f_equal. lia.
Qed.
