(* ===== verification/Sorting.v ===== *)
(** * Sorting and searching arrays (lib/stdlib.c)

    Heap sort and binary search on an array of [cnt] elements of [size] bytes.
    The array is the list of its bytes; an element is known by its bytes, and
    the comparison function is a function of the bytes of two elements. *)

From S2P Require Import Prelude.
Local Open Scope Z_scope.

(** ** The code *)

Section Code.

Variable size : nat.
Variable compare : list Z -> list Z -> Z.

(** One byte of the array. *)
Definition byte_at (array : list Z) (i : nat) : res Z := res_of_option (array !! i).

(** The element that starts at a byte offset. *)
Definition element (array : list Z) (ofs : nat) : list Z := take size (drop ofs array).

(** [n] bytes are left to swap, from byte [i] of the elements on. *)
Fixpoint do_swap_loop (n : nat) (array : list Z) (a b i : nat) : res (list Z) :=
  match n with
  | O => Ok array
  | S n =>
      t <-! byte_at array (a + i);;
      y <-! byte_at array (b + i);;
      do_swap_loop n (<[(b + i)%nat := t]> (<[(a + i)%nat := y]> array)) a b (S i)
  end.

Definition do_swap (array : list Z) (a_idx b_idx : nat) : res (list Z) :=
  do_swap_loop size array ((a_idx - 1) * size) ((b_idx - 1) * size) 0.

Definition do_compare (array : list Z) (a_idx b_idx : nat) : Z :=
  compare (element array ((a_idx - 1) * size)) (element array ((b_idx - 1) * size)).

(** The child of [i], or [i] itself, that holds the largest element. *)
Definition max_child (array : list Z) (i cnt : nat) : nat :=
  let left := (2 * i)%nat in
  let right := (2 * i + 1)%nat in
  let max := i in
  let max := if (left <=? cnt)%nat && (do_compare array left max >? 0) then left else max in
  if (right <=? cnt)%nat && (do_compare array right max >? 0) then right else max.

Fixpoint heapify (fuel : nat) (array : list Z) (i cnt : nat) : res (list Z) :=
  match fuel with
  | O => NoFuel
  | S fuel =>
      let max := max_child array i cnt in
      if (max =? i)%nat then Ok array
      else
        array <-! do_swap array i max;;
        heapify fuel array max cnt
  end.

Fixpoint build_loop (i : nat) (array : list Z) (cnt : nat) : res (list Z) :=
  match i with
  | O => Ok array
  | S i' => array <-! heapify (S cnt) array i cnt;; build_loop i' array cnt
  end.

Fixpoint sort_loop (i : nat) (array : list Z) : res (list Z) :=
  match i with
  | O => Ok array
  | S i' =>
      if (1 <? i)%nat then
        array <-! do_swap array 1 i;;
        array <-! heapify (S i) array 1 (i - 1);;
        sort_loop i' array
      else Ok array
  end.

Definition sort (array : list Z) (cnt : nat) : res (list Z) :=
  res_assert (0 <? size)%nat;;!
  array <-! build_loop (cnt / 2) array cnt;;
  sort_loop cnt array.

(** [compare_thunk] only passes its arguments on. *)
Definition qsort (array : list Z) (cnt : nat) : res (list Z) := sort array cnt.

(** [first] and [last] are byte offsets into the array. *)
Fixpoint binary_search_loop (fuel : nat) (key array : list Z) (first last : nat) : res (option nat) :=
  match fuel with
  | O => NoFuel
  | S fuel =>
      if (first <? last)%nat then
        let range := ((last - first) / size)%nat in
        let middle := (first + (range / 2) * size)%nat in
        let cmp := compare key (element array middle) in
        if cmp <? 0 then binary_search_loop fuel key array first middle
        else if cmp >? 0 then binary_search_loop fuel key array (middle + size) last
        else Ok (Some middle)
      else Ok None
  end.

Definition binary_search (key array : list Z) (cnt : nat) : res (option nat) :=
  binary_search_loop (S cnt) key array 0 (size * cnt).

Definition bsearch (key array : list Z) (cnt : nat) : res (option nat) := binary_search key array cnt.

End Code.

(** ** Elements *)

Section Elements.

Context (size : nat) (size_pos : (0 < size)%nat).

(** Every element has [size] bytes. *)
Definition sized (es : list (list Z)) : Prop := Forall (fun e => length e = size) es.

Lemma concat_lookup es k r : sized es -> (r < size)%nat ->
  concat es !! (k * size + r)%nat = (e ← es !! k; e !! r).
Proof.
  intros Hs Hr. revert k. induction Hs as [|e es He Hs IH]; intros k; [done|].
  cbn [concat]. destruct k as [|k]; cbn [lookup list_lookup].
  - rewrite lookup_app_l by lia. done.
  - rewrite lookup_app_r by lia. rewrite He.
    replace (S k * size + r - size)%nat with (k * size + r)%nat by lia. apply IH.
Qed.

Lemma concat_length es : sized es -> length (concat es) = (length es * size)%nat.
Proof. induction 1 as [|e es He Hs IH]; [done|]. cbn. rewrite length_app, He, IH. done. Qed.

(** An array is known by its elements. *)
Lemma array_eq es array : sized es -> length array = (length es * size)%nat ->
  (forall k r e, es !! k = Some e -> (r < size)%nat -> array !! (k * size + r)%nat = e !! r) ->
  array = concat es.
Proof.
  intros Hs Hl Hx. apply list_eq. intros j.
  destruct (decide (j < length es * size)%nat) as [Hj|Hj].
  - pose proof (Nat.div_mod_eq j size) as E. pose proof (Nat.mod_upper_bound j size ltac:(lia)).
    set (k := (j / size)%nat) in *. set (r := (j mod size)%nat) in *.
    destruct (lookup_lt_is_Some_2 es k) as [e He]; [nia|].
    replace j with (k * size + r)%nat by lia. rewrite (Hx k r e) by done.
    by rewrite concat_lookup, He by done.
  - rewrite !lookup_ge_None_2; [done|rewrite concat_length by done; lia|lia].
Qed.

Lemma element_ok es k e : sized es -> es !! k = Some e -> element size (concat es) (k * size) = e.
Proof.
  intros Hs He. assert (length e = size) as Hl by exact (Forall_lookup_1 _ _ _ _ Hs He).
  unfold element. apply list_eq. intros r. destruct (decide (r < size)%nat).
  - rewrite lookup_take_lt, lookup_drop by done. by rewrite concat_lookup, He by done.
  - rewrite lookup_take_ge by lia. by rewrite lookup_ge_None_2 by lia.
Qed.

Lemma do_swap_loop_ok n : forall array a b i,
  (a + i + n <= b + i \/ b + i + n <= a + i)%nat ->
  (a + i + n <= length array)%nat -> (b + i + n <= length array)%nat ->
  exists array', do_swap_loop n array a b i = Ok array' /\ length array' = length array /\
    forall j, array' !! j =
      if decide (a + i <= j < a + i + n)%nat then array !! (b + (j - a))%nat
      else if decide (b + i <= j < b + i + n)%nat then array !! (a + (j - b))%nat
      else array !! j.
Proof.
  induction n as [|n IH]; intros array a b i Hab Ha Hb.
  - exists array. split; [done|]. split; [done|]. intros j. repeat case_decide; done || lia.
  - cbn [do_swap_loop]. unfold byte_at.
    destruct (lookup_lt_is_Some_2 array (a + i)) as [x Hx]; [lia|].
    destruct (lookup_lt_is_Some_2 array (b + i)) as [y Hy]; [lia|].
    rewrite Hx, Hy. cbn [res_of_option res_bind].
    destruct (IH (<[(b + i)%nat := x]> (<[(a + i)%nat := y]> array)) a b (S i)) as (array' & E & Hl & Hj);
      [lia|rewrite !length_insert; lia..|].
    exists array'. split; [exact E|]. rewrite !length_insert in Hl. split; [done|]. intros j. rewrite Hj.
    repeat case_decide; rewrite ?list_lookup_insert, ?length_insert; repeat case_decide; subst;
      try lia; try congruence; try done;
      try (replace (b + (j - a))%nat with (b + i)%nat in * by lia; congruence);
      try (replace (a + (j - b))%nat with (a + i)%nat in * by lia; congruence).
Qed.

(** Swapping the elements number [a] and [b], counted from one. *)
Definition swapped (es : list (list Z)) (a b : nat) (x y : list Z) : list (list Z) :=
  <[(b - 1)%nat := x]> (<[(a - 1)%nat := y]> es).

Lemma sized_insert es k e : sized es -> length e = size -> sized (<[k := e]> es).
Proof. intros Hs He. by apply Forall_insert. Qed.

Lemma sized_lookup es k e : sized es -> es !! k = Some e -> length e = size.
Proof. intros Hs He. exact (Forall_lookup_1 _ _ _ _ Hs He). Qed.

Lemma do_swap_ok es a b x y : sized es -> (1 <= a)%nat -> (1 <= b)%nat -> a <> b ->
  es !! (a - 1)%nat = Some x -> es !! (b - 1)%nat = Some y ->
  sized (swapped es a b x y) /\ do_swap size (concat es) a b = Ok (concat (swapped es a b x y)).
Proof.
  intros Hs Ha Hb Hne Hx Hy. pose proof (sized_lookup es _ x Hs Hx). pose proof (sized_lookup es _ y Hs Hy).
  assert (sized (swapped es a b x y)) as Hs' by (by apply sized_insert; [apply sized_insert|]).
  split; [done|]. pose proof (lookup_lt_Some _ _ _ Hx). pose proof (lookup_lt_Some _ _ _ Hy).
  pose proof (concat_length es Hs) as Hl. unfold do_swap.
  set (p := (a - 1)%nat) in *. set (q := (b - 1)%nat) in *.
  assert (p <> q) as Hpq by lia.
  assert ((p + 1) * size <= q * size \/ (q + 1) * size <= p * size)%nat as Hd
    by (assert (p + 1 <= q \/ q + 1 <= p)%nat as [?|?] by lia; [left|right]; by apply Nat.mul_le_mono_r).
  assert ((p + 1) * size <= length es * size)%nat by (apply Nat.mul_le_mono_r; lia).
  assert ((q + 1) * size <= length es * size)%nat by (apply Nat.mul_le_mono_r; lia).
  destruct (do_swap_loop_ok size (concat es) (p * size) (q * size) 0) as (array' & E & Hl' & Hj); [lia..|].
  rewrite E. f_equal. apply array_eq; [done|unfold swapped; rewrite !length_insert; lia|].
  intros k r e He Hr. rewrite Hj. unfold swapped in He. fold p q in He.
  assert (forall k', k' <> k -> (k' + 1) * size <= k * size \/ (k + 1) * size <= k' * size)%nat as Hk
    by (intros k' Hk'; assert (k' + 1 <= k \/ k + 1 <= k')%nat as [?|?] by lia; [left|right];
        by apply Nat.mul_le_mono_r).
  destruct (decide (k = q)) as [->|Hkq]; [|destruct (decide (k = p)) as [->|Hkp]].
  - rewrite list_lookup_insert_eq in He by (rewrite length_insert; lia). injection He as <-.
    rewrite decide_False, decide_True by (specialize (Hk p); lia).
    replace (p * size + (q * size + r - q * size))%nat with (p * size + r)%nat by lia.
    by rewrite concat_lookup, Hx by done.
  - rewrite list_lookup_insert_ne, list_lookup_insert_eq in He by lia. injection He as <-.
    rewrite decide_True by lia.
    replace (q * size + (p * size + r - p * size))%nat with (q * size + r)%nat by lia.
    by rewrite concat_lookup, Hy by done.
  - rewrite !list_lookup_insert_ne in He by lia.
    rewrite !decide_False by (pose proof (Hk p); pose proof (Hk q); lia).
    by rewrite concat_lookup, He by done.
Qed.

Lemma swapped_perm es a b x y : es !! (a - 1)%nat = Some x -> es !! (b - 1)%nat = Some y ->
  swapped es a b x y ≡ₚ es.
Proof. intros Hx Hy. by apply Permutation_insert_swap. Qed.

(** ** Heaps *)

Context (compare : list Z -> list Z -> Z).

(** What the comment before [sort] asks of the comparison. *)
Class CompareLaws : Prop := {
  compare_sign x y : compare x y > 0 <-> compare y x < 0;
  compare_trans x y z : compare x y <= 0 -> compare y z <= 0 -> compare x z <= 0
}.
Context `{CL : !CompareLaws}.

Lemma compare_flip x y : compare x y > 0 -> compare y x <= 0.
Proof. rewrite compare_sign. lia. Qed.
Lemma compare_refl x : compare x x <= 0.
Proof. pose proof (compare_sign x x). lia. Qed.

Abbreviation le x y := (compare x y <= 0).

(** Element number [i], counted from one. *)
Definition val (es : list (list Z)) (i : nat) : list Z := default [] (es !! (i - 1)%nat).

(** No child is greater than its parent, from node [lo] on, but for [skip]. *)
Definition ordered (es : list (list Z)) (lo n skip : nat) : Prop :=
  forall j k, (lo <= j)%nat -> j <> skip -> (k = 2 * j \/ k = 2 * j + 1)%nat -> (k <= n)%nat ->
    le (val es k) (val es j).

(** The children of [i] are not greater than the parent of [i]. *)
Definition under_parent (es : list (list Z)) (lo n i : nat) : Prop :=
  forall p k, (lo <= p)%nat -> (i = 2 * p \/ i = 2 * p + 1)%nat -> (k = 2 * i \/ k = 2 * i + 1)%nat ->
    (k <= n)%nat -> le (val es k) (val es p).

Lemma val_lookup es i : (1 <= i <= length es)%nat -> es !! (i - 1)%nat = Some (val es i).
Proof.
  intros Hi. destruct (lookup_lt_is_Some_2 es (i - 1)) as [x Hx]; [lia|]. unfold val. by rewrite Hx.
Qed.

Lemma val_swapped es a b j : (1 <= a <= length es)%nat -> (1 <= b <= length es)%nat -> (1 <= j)%nat ->
  val (swapped es a b (val es a) (val es b)) j
  = if decide (j = b) then val es a else if decide (j = a) then val es b else val es j.
Proof.
  intros Ha Hb Hj. unfold swapped. unfold val at 1. repeat case_decide; subst.
  - by rewrite list_lookup_insert_eq by (rewrite length_insert; lia).
  - by rewrite list_lookup_insert_ne, list_lookup_insert_eq by lia.
  - by rewrite !list_lookup_insert_ne by lia.
Qed.

Lemma do_compare_ok es a b : sized es -> (1 <= a <= length es)%nat -> (1 <= b <= length es)%nat ->
  do_compare size compare (concat es) a b = compare (val es a) (val es b).
Proof.
  intros Hs Ha Hb. unfold do_compare. by rewrite !(element_ok es _ (val es _)) by (try apply val_lookup; done).
Qed.

Lemma max_child_ok es i n : sized es -> (1 <= i <= n)%nat -> (n <= length es)%nat ->
  let m := max_child size compare (concat es) i n in
  (m = i \/ m = 2 * i \/ m = 2 * i + 1)%nat /\ (m <= n)%nat /\
  le (val es i) (val es m) /\
  forall k, (k = 2 * i \/ k = 2 * i + 1)%nat -> (k <= n)%nat -> le (val es k) (val es m).
Proof.
  intros Hs Hi Hn m. unfold m, max_child.
  set (m1 := if (2 * i <=? n)%nat && _ then (2 * i)%nat else i).
  assert ((m1 = i \/ m1 = 2 * i)%nat /\ (m1 <= n)%nat /\ le (val es i) (val es m1) /\
    ((2 * i <= n)%nat -> le (val es (2 * i)) (val es m1))) as (Hm1 & Hm1n & Hi1 & Hl1).
  { unfold m1. destruct (Nat.leb_spec (2 * i) n) as [Hl|Hl]; cbn [andb].
    - rewrite do_compare_ok by (done || lia). rewrite Z.gtb_ltb.
      destruct (Z.ltb_spec 0 (compare (val es (2 * i)) (val es i))).
      + split_and!; [lia|lia|apply compare_flip; lia|intros _; apply compare_refl].
      + split_and!; [lia|lia|apply compare_refl|done].
    - split_and!; [lia|lia|apply compare_refl|lia]. }
  destruct (Nat.leb_spec (2 * i + 1) n) as [Hr|Hr]; cbn [andb].
  - rewrite do_compare_ok by (done || lia). rewrite Z.gtb_ltb.
    destruct (Z.ltb_spec 0 (compare (val es (2 * i + 1)) (val es m1))) as [Hc|Hc].
    + assert (le (val es m1) (val es (2 * i + 1))) as Hle by (apply compare_flip; lia).
      split_and!; [lia|lia|by apply (compare_trans _ (val es m1))|].
      intros k [->| ->] Hk; [|apply compare_refl]. apply (compare_trans _ (val es m1)); [auto|done].
    + split_and!; [lia|lia|done|]. intros k [->| ->] Hk; [auto|done].
  - split_and!; [lia|lia|done|]. intros k [->| ->] Hk; [auto|lia].
Qed.

(** One swap moves the disorder down. *)
Lemma swap_ordered es lo n i m : (1 <= lo <= i)%nat -> (n <= length es)%nat ->
  (m = 2 * i \/ m = 2 * i + 1)%nat -> (m <= n)%nat ->
  ordered es lo n i -> under_parent es lo n i ->
  le (val es i) (val es m) ->
  (forall k, (k = 2 * i \/ k = 2 * i + 1)%nat -> (k <= n)%nat -> le (val es k) (val es m)) ->
  let es' := swapped es i m (val es i) (val es m) in
  ordered es' lo n m /\ under_parent es' lo n m.
Proof.
  intros Hlo Hn Hm Hmn Ho Hu Him Hk es'. split.
  - intros j k Hj Hjm Hjk Hkn. unfold es'. rewrite !val_swapped by lia.
    repeat case_decide; subst; try lia; try done.
    + apply (Hu j m); lia.
    + apply Hk; lia.
    + apply (Ho j k); lia.
  - intros p k Hp Hpm Hmk Hkn. unfold es'. rewrite !val_swapped by lia.
    repeat case_decide; subst; try lia. apply (Ho m k); lia.
Qed.

(** The part of the array beyond [n] stays, and so does what is in it. *)
Definition same_beyond (es es' : list (list Z)) (lo n : nat) : Prop :=
  es ≡ₚ es' /\ (forall j, (1 <= j < lo \/ n < j)%nat -> val es' j = val es j) /\
  forall j, (1 <= j <= n)%nat -> exists j', (1 <= j' <= n)%nat /\ val es' j = val es j'.

Lemma heapify_ok fuel : forall es lo n i, sized es -> (1 <= lo <= i)%nat -> (i <= n)%nat ->
  (n <= length es)%nat -> (n < fuel + i)%nat -> ordered es lo n i -> under_parent es lo n i ->
  exists es', heapify size compare fuel (concat es) i n = Ok (concat es') /\ sized es' /\
    ordered es' lo n 0 /\ same_beyond es es' lo n.
Proof.
  induction fuel as [|fuel IH]; intros es lo n i Hs Hlo Hi Hn Hf Ho Hu; [lia|]. cbn [heapify].
  destruct (max_child_ok es i n Hs ltac:(lia) Hn) as (Hm & Hmn & Him & Hk).
  set (m := max_child size compare (concat es) i n) in *.
  destruct (Nat.eqb_spec m i) as [E|Hne].
  - exists es. split; [done|]. split; [done|]. split; [|split_and!; [done|done|eauto]].
    intros j k Hj _ Hjk Hkn. destruct (decide (j = i)) as [->|]; [rewrite E in *; auto|by apply Ho].
  - assert (m = 2 * i \/ m = 2 * i + 1)%nat as Hm' by lia.
    destruct (do_swap_ok es i m (val es i) (val es m) Hs) as [Hs1 E1]; try (apply val_lookup; lia); try lia.
    rewrite E1. cbn [res_bind]. set (es1 := swapped es i m _ _) in *.
    destruct (swap_ordered es lo n i m Hlo Hn Hm' Hmn Ho Hu Him Hk) as [Ho1 Hu1]. fold es1 in Ho1, Hu1.
    assert (es1 ≡ₚ es) as Hp by (apply swapped_perm; apply val_lookup; lia).
    destruct (IH es1 lo n m Hs1) as (es' & E' & Hs' & Ho' & Hp' & Hb' & Hin'); try (done || lia).
    { rewrite Hp. lia. }
    exists es'. split_and!; try done. split_and!.
    + by rewrite <- Hp.
    + intros j Hj. rewrite Hb' by lia. unfold es1. rewrite val_swapped by lia. by rewrite !decide_False by lia.
    + intros j Hj. destruct (Hin' j Hj) as (j' & Hj' & ->). unfold es1. rewrite val_swapped by lia.
      repeat case_decide; [exists i|exists m|exists j']; (split; [lia|done]).
Qed.

(** The loop that builds the heap. *)
Lemma build_ok i : forall es n, sized es -> (n <= length es)%nat -> (2 * i <= n)%nat ->
  ordered es (S i) n 0 ->
  exists es', build_loop size compare i (concat es) n = Ok (concat es') /\ sized es' /\
    ordered es' 1 n 0 /\ es ≡ₚ es'.
Proof.
  induction i as [|i IH]; intros es n Hs Hn Hi Ho; [by exists es|]. cbn [build_loop].
  destruct (heapify_ok (S n) es (S i) n (S i) Hs) as (es1 & E1 & Hs1 & Ho1 & Hp1 & _); try lia.
  { intros j k Hj Hne. apply Ho; lia. }
  { intros p k Hp Hsp Hk Hkn. lia. }
  rewrite E1. cbn [res_bind]. destruct (IH es1 n Hs1) as (es' & E' & Hs' & Ho' & Hp'); try (done || lia).
  { rewrite <- Hp1. lia. }
  exists es'. split_and!; try done. by rewrite Hp1.
Qed.

(** The root of a heap is its greatest element. *)
Lemma root_max es n j : ordered es 1 n 0 -> (1 <= j <= n)%nat -> le (val es j) (val es 1).
Proof.
  intros Ho. revert j. induction j as [j IH] using lt_wf_ind. intros Hj.
  destruct (decide (j = 1%nat)) as [->|]; [apply compare_refl|].
  pose proof (Nat.div_mod_eq j 2). pose proof (Nat.mod_upper_bound j 2 ltac:(lia)).
  apply (compare_trans _ (val es (j / 2)%nat)); [apply Ho; lia|apply IH; lia].
Qed.

(** From [i + 1] on the array is sorted and not below the rest. *)
Definition sorted_from (es : list (list Z)) (i : nat) : Prop :=
  forall j k, (1 <= j < k)%nat -> (i < k <= length es)%nat -> le (val es j) (val es k).

Lemma sort_loop_ok i : forall es, sized es -> (i <= length es)%nat -> ordered es 1 i 0 ->
  sorted_from es i ->
  exists es', sort_loop size compare i (concat es) = Ok (concat es') /\ sized es' /\ es ≡ₚ es' /\
    sorted_from es' 1.
Proof.
  induction i as [|i IH]; intros es Hs Hi Ho Hsf; cbn [sort_loop].
  { exists es. split_and!; try done. intros j k Hj Hk. apply Hsf; lia. }
  destruct (Nat.ltb_spec 1 (S i)) as [Hlt|]; [|by exists es; replace (S i) with 1%nat in Hsf by lia].
  destruct (do_swap_ok es 1 (S i) (val es 1) (val es (S i)) Hs) as [Hs1 E1]; try (apply val_lookup; lia); try lia.
  rewrite E1. cbn [res_bind]. set (es1 := swapped es 1 (S i) _ _) in *.
  assert (es1 ≡ₚ es) as Hp1 by (apply swapped_perm; apply val_lookup; lia).
  assert (forall j, (1 <= j)%nat -> val es1 j =
    if decide (j = S i) then val es 1 else if decide (j = 1)%nat then val es (S i) else val es j) as Hv
    by (intros j Hj; unfold es1; apply val_swapped; lia).
  replace (S i - 1)%nat with i by lia.
  destruct (heapify_ok (S (S i)) es1 1 i 1 Hs1) as (es2 & E2 & Hs2 & Ho2 & Hp2 & Hb2 & Hin2); try lia.
  { rewrite Hp1. lia. }
  { intros j k Hj Hne Hk Hkn. rewrite !Hv by lia. repeat case_decide; try lia. apply Ho; lia. }
  { intros p k Hp Hsp. lia. }
  rewrite E2. cbn [res_bind]. pose proof (Permutation_length Hp1). pose proof (Permutation_length Hp2).
  assert (forall j, (1 <= j <= i)%nat -> exists j', (1 <= j' <= S i)%nat /\ val es2 j = val es j') as Hin.
  { intros j Hj. destruct (Hin2 j Hj) as (j' & Hj' & ->). rewrite Hv by lia.
    repeat case_decide; [exists 1%nat|exists (S i)|exists j']; (split; [lia|done]). }
  destruct (IH es2 Hs2) as (es' & E' & Hs' & Hp' & Hsf'); [lia|done| |].
  { intros j k Hj Hk. rewrite (Hb2 k), Hv by lia. destruct (decide (j <= i)%nat).
    - destruct (Hin j ltac:(lia)) as (j' & Hj' & ->). repeat case_decide; try lia.
      + apply (root_max es (S i)); [done|lia].
      + apply Hsf; lia.
    - rewrite (Hb2 j), Hv by lia. repeat case_decide; try lia; apply Hsf; lia. }
  exists es'. split_and!; try done. by rewrite <- Hp', <- Hp2, Hp1.
Qed.

Lemma sort_ok es : sized es ->
  exists es', sort size compare (concat es) (length es) = Ok (concat es') /\ sized es' /\ es ≡ₚ es' /\
    forall j k x y, (j < k)%nat -> es' !! j = Some x -> es' !! k = Some y -> compare x y <= 0.
Proof.
  intros Hs. unfold sort, res_assert. rewrite (proj2 (Nat.ltb_lt 0 size)) by done. cbn [res_bind].
  set (n := length es). pose proof (Nat.div_mod_eq n 2). pose proof (Nat.mod_upper_bound n 2 ltac:(lia)).
  destruct (build_ok (n / 2) es n Hs) as (es1 & E1 & Hs1 & Ho1 & Hp1); [lia..| |].
  { intros j k Hj _ Hk Hkn. lia. }
  rewrite E1. cbn [res_bind]. pose proof (Permutation_length Hp1).
  destruct (sort_loop_ok n es1 Hs1) as (es' & E' & Hs' & Hp' & Hsf'); [lia|done|intros j k; lia|].
  exists es'. split_and!; [done|done|by rewrite Hp1|]. intros j k x y Hjk Hx Hy.
  assert (val es' (S j) = x) as <- by (unfold val; by replace (S j - 1)%nat with j by lia; rewrite Hx).
  assert (val es' (S k) = y) as <- by (unfold val; by replace (S k - 1)%nat with k by lia; rewrite Hy).
  apply lookup_lt_Some in Hy. apply Hsf'; lia.
Qed.

(** ** Searching *)

Definition sorted (es : list (list Z)) : Prop :=
  forall j k x y, (j <= k)%nat -> es !! j = Some x -> es !! k = Some y -> compare x y <= 0.

Lemma search_loop_ok fuel : forall key es f l, sized es -> sorted es -> (f <= l <= length es)%nat ->
  (l - f < fuel)%nat ->
  (forall k e, (k < f)%nat -> es !! k = Some e -> compare key e > 0) ->
  (forall k e, (l <= k)%nat -> es !! k = Some e -> compare key e < 0) ->
  exists r, binary_search_loop size compare fuel key (concat es) (f * size) (l * size) = Ok r /\
    match r with
    | Some o => exists k e, o = (k * size)%nat /\ es !! k = Some e /\ compare key e = 0
    | None => forall e, e ∈ es -> compare key e <> 0
    end.
Proof.
  induction fuel as [|fuel IH]; intros key es f l Hs Hso Hfl Hfu Hf Hl; [lia|]. cbn [binary_search_loop].
  destruct (Nat.ltb_spec (f * size) (l * size)) as [Hlt|Hge].
  2: { exists None. split; [done|]. intros e He. apply list_elem_of_lookup_1 in He as [k Hk].
       assert (l <= f)%nat by nia.
       destruct (decide (k < f)%nat);
         [specialize (Hf k e ltac:(lia) Hk)|specialize (Hl k e ltac:(lia) Hk)]; lia. }
  assert (f < l)%nat by nia.
  replace ((l * size - f * size) / size)%nat with (l - f)%nat
    by (rewrite <- Nat.mul_sub_distr_r; symmetry; apply Nat.div_mul; lia).
  pose proof (Nat.div_mod_eq (l - f) 2). pose proof (Nat.mod_upper_bound (l - f) 2 ltac:(lia)).
  set (h := ((l - f) / 2)%nat) in *. rewrite <- Nat.mul_add_distr_r. set (m := (f + h)%nat).
  destruct (lookup_lt_is_Some_2 es m) as [e He]; [lia|]. rewrite (element_ok es m e Hs He).
  destruct (Z.ltb_spec (compare key e) 0) as [Hc|Hc].
  - apply IH; try (done || lia). intros k e' Hk He'. destruct (Z.ltb_spec (compare key e') 0) as [|Hge]; [done|].
    assert (compare e' key <= 0) as Hek by (pose proof (compare_sign e' key); lia).
    pose proof (compare_trans e e' key (Hso m k e e' Hk He He') Hek). pose proof (compare_sign e key). lia.
  - rewrite Z.gtb_ltb. destruct (Z.ltb_spec 0 (compare key e)) as [Hc2|Hc2].
    + replace (m * size + size)%nat with ((S m) * size)%nat by lia.
      apply IH; try (done || lia). intros k e' Hk He'. destruct (Z.gtb_spec (compare key e') 0) as [|Hle]; [lia|].
      pose proof (compare_trans key e' e Hle (Hso k m e' e ltac:(lia) He' He)). lia.
    + exists (Some (m * size)%nat). split; [done|]. exists m, e. split_and!; [done..|lia].
Qed.

End Elements.

(** ** The properties *)

(** C24: [sort] (and [qsort]) terminates and rearranges the elements of the
    array, byte by byte, into ascending order, for every element size and
    every comparison that orders the elements. *)
Theorem sort_correct size compare es :
  (0 < size)%nat -> CompareLaws compare -> sized size es ->
  exists es', qsort size compare (concat es) (length es) = Ok (concat es') /\ sized size es' /\
    es ≡ₚ es' /\
    forall j k x y, (j < k)%nat -> es' !! j = Some x -> es' !! k = Some y -> compare x y <= 0.
Proof. intros Hs HC Hes. by apply sort_ok. Qed.

(** On a sorted array [binary_search] (and [bsearch]) terminates and
    returns the address of an element equal to the key if there is one, and
    null otherwise. *)
Theorem binary_search_correct size compare key es :
  (0 < size)%nat -> CompareLaws compare -> sized size es -> sorted compare es ->
  exists r, bsearch size compare key (concat es) (length es) = Ok r /\
    match r with
    | Some o => exists k e, o = (k * size)%nat /\ es !! k = Some e /\ compare key e = 0
    | None => forall e, e ∈ es -> compare key e <> 0
    end.
Proof.
  intros Hs HC Hes Hso. unfold bsearch, binary_search. rewrite Nat.mul_comm.
  apply (search_loop_ok size Hs compare (S (length es)) key es 0 (length es)); try (done || lia).
  intros k e Hk He%lookup_lt_Some. lia.
Qed.

(** ** Two-byte numbers *)

Definition number (e : list Z) : Z := match e with [a; b] => a + 256 * b | _ => 0 end.
Definition by_number (x y : list Z) : Z := number x - number y.

#[export] Instance by_number_laws : CompareLaws by_number.
Proof. unfold by_number. split; intros; lia. Qed.

Lemma sort_correct_witness :
  exists es', qsort 2 by_number [7; 1; 9; 0; 3; 1; 9; 0] 4 = Ok (concat es') /\
    es' ≡ₚ [[7; 1]; [9; 0]; [3; 1]; [9; 0]] /\
    concat es' = [9; 0; 9; 0; 3; 1; 7; 1].
Proof.
  destruct (sort_correct 2 by_number [[7; 1]; [9; 0]; [3; 1]; [9; 0]] ltac:(lia) _ ltac:(by repeat constructor))
    as (es' & E & _ & Hp & _).
  exists es'. split; [exact E|]. split; [by rewrite Hp|].
  assert (qsort 2 by_number [7; 1; 9; 0; 3; 1; 9; 0] 4 = Ok [9; 0; 9; 0; 3; 1; 7; 1]) as E'
    by (vm_compute; reflexivity).
  change (concat [[7; 1]; [9; 0]; [3; 1]; [9; 0]]) with [7; 1; 9; 0; 3; 1; 9; 0] in E.
  change (length [[7; 1]; [9; 0]; [3; 1]; [9; 0]]) with 4%nat in E. congruence.
Defined.

Lemma binary_search_correct_witness :
  exists r, bsearch 2 by_number [3; 1] [9; 0; 3; 1; 7; 1] 3 = Ok r /\ r = Some 2%nat.
Proof.
  destruct (binary_search_correct 2 by_number [3; 1] [[9; 0]; [3; 1]; [7; 1]] ltac:(lia) _
    ltac:(by repeat constructor)) as (r & E & _).
  - intros j k x y Hjk Hx Hy. destruct j as [|[|[|j]]], k as [|[|[|k]]]; try lia; try done;
      cbn in Hx, Hy; simplify_eq; vm_compute; done.
  - exists r. split; [exact E|]. vm_compute in E. by injection E as <-.
Defined.
