(* ===== verification/CString.v ===== *)
(** * Strings and blocks of bytes (lib/string.c, lib/ctype.h, atoi of lib/stdlib.c)

    Memory is a finite map from addresses to bytes; reading or writing an
    address outside of it is a fault.  A loop that only the contents of memory
    stop takes a bound on its iterations; the lemmas show that the length of
    the string plus one is enough. *)

From S2P Require Import Prelude.
Local Open Scope Z_scope.

Abbreviation memory := (gmap Z Z).

(** ** The code *)

(** [lim] bounds an inner [strchr], [fuel] the loop itself. *)
Definition load (p : Z) : M memory Z := m <- get;; lift (res_of_option (m !! p)).
Definition store (p b : Z) : M memory unit :=
  m <- get;;
  match m !! p with
  | Some _ => put (<[p := u8 b]> m)
  | None => fault
  end.

(** [p != NULL || size == 0]. *)
Definition assert_block (p : Z) (size : nat) : M memory unit :=
  assert (negb (p =? NULL) || (size =? 0)%nat).

Fixpoint copy_up (size : nat) (dst src : Z) : M memory unit :=
  match size with
  | O => ret tt
  | S size => b <- load src;; store dst b;;; copy_up size (dst + 1) (src + 1)
  end.

(** [dst] and [src] point past the bytes still to be copied. *)
Fixpoint copy_down (size : nat) (dst src : Z) : M memory unit :=
  match size with
  | O => ret tt
  | S size => b <- load (src - 1);; store (dst - 1) b;;; copy_down size (dst - 1) (src - 1)
  end.

Definition memcpy (dst src : Z) (size : nat) : M memory Z :=
  assert_block dst size;;;
  assert_block src size;;;
  copy_up size dst src;;;
  ret dst.

(** The source returns the pointer it moved, not the one it was given. *)
Definition memmove (dst src : Z) (size : nat) : M memory Z :=
  assert_block dst size;;;
  assert_block src size;;;
  if dst <? src then
    copy_up size dst src;;;
    ret (dst + Z.of_nat size)
  else
    copy_down size (dst + Z.of_nat size) (src + Z.of_nat size);;;
    ret dst.

Fixpoint memcmp_loop (size : nat) (a b : Z) : M memory Z :=
  match size with
  | O => ret 0
  | S size =>
      x <- load a;;
      y <- load b;;
      if negb (x =? y) then ret (if x >? y then 1 else -1)
      else memcmp_loop size (a + 1) (b + 1)
  end.
Definition memcmp (a b : Z) (size : nat) : M memory Z :=
  assert_block a size;;;
  assert_block b size;;;
  memcmp_loop size a b.

Definition assert_string (p : Z) : M memory unit := assert (negb (p =? NULL)).

Fixpoint strcmp_loop (fuel : nat) (a b : Z) : M memory Z :=
  match fuel with
  | O => nofuel
  | S fuel =>
      x <- load a;;
      y <- load b;;
      if negb (x =? 0) && (x =? y) then strcmp_loop fuel (a + 1) (b + 1)
      else ret (if x <? y then -1 else b2z (x >? y))
  end.
Definition strcmp (fuel : nat) (a b : Z) : M memory Z :=
  assert_string a;;;
  assert_string b;;;
  strcmp_loop fuel a b.

Fixpoint memchr_loop (size : nat) (block ch : Z) : M memory Z :=
  match size with
  | O => ret NULL
  | S size => x <- load block;; if x =? ch then ret block else memchr_loop size (block + 1) ch
  end.
Definition memchr (block ch : Z) (size : nat) : M memory Z :=
  assert_block block size;;;
  memchr_loop size block (u8 ch).

Fixpoint strchr_loop (fuel : nat) (string c : Z) : M memory Z :=
  match fuel with
  | O => nofuel
  | S fuel =>
      x <- load string;;
      if x =? c then ret string
      else if x =? 0 then ret NULL
      else strchr_loop fuel (string + 1) c
  end.
Definition strchr (fuel : nat) (string c : Z) : M memory Z :=
  assert_string string;;;
  strchr_loop fuel string (u8 c).

(** [inside]: whether a character found in the set ends the loop
    ([strcspn]) or one that is not ([strspn]). *)
Fixpoint span_loop (inside : bool) (lim fuel : nat) (string set length : Z) : M memory Z :=
  match fuel with
  | O => nofuel
  | S fuel =>
      x <- load (string + length);;
      if x =? 0 then ret length
      else
        r <- strchr lim set x;;
        if eqb inside (negb (r =? NULL)) then ret length
        else span_loop inside lim fuel string set (length + 1)
  end.
Definition strcspn (fuel : nat) (string stop : Z) : M memory Z := span_loop true fuel fuel string stop 0.
Definition strspn (fuel : nat) (string skip : Z) : M memory Z := span_loop false fuel fuel string skip 0.

Fixpoint strpbrk_loop (lim fuel : nat) (string stop : Z) : M memory Z :=
  match fuel with
  | O => nofuel
  | S fuel =>
      x <- load string;;
      if x =? 0 then ret NULL
      else
        r <- strchr lim stop x;;
        if negb (r =? NULL) then ret string else strpbrk_loop lim fuel (string + 1) stop
  end.
Definition strpbrk (fuel : nat) (string stop : Z) : M memory Z := strpbrk_loop fuel fuel string stop.

Fixpoint strrchr_loop (fuel : nat) (string c p : Z) : M memory Z :=
  match fuel with
  | O => nofuel
  | S fuel =>
      x <- load string;;
      if x =? 0 then ret p
      else strrchr_loop fuel (string + 1) c (if x =? c then string else p)
  end.
Definition strrchr (fuel : nat) (string c : Z) : M memory Z := strrchr_loop fuel string (u8 c) NULL.

Fixpoint strlen_loop (fuel : nat) (string p : Z) : M memory Z :=
  match fuel with
  | O => nofuel
  | S fuel => x <- load p;; if x =? 0 then ret (p - string) else strlen_loop fuel string (p + 1)
  end.
Definition strlen (fuel : nat) (string : Z) : M memory Z :=
  assert_string string;;;
  strlen_loop fuel string string.

(** [n] characters of [maxlen] are left. *)
Fixpoint strnlen_loop (n : nat) (string length : Z) : M memory Z :=
  x <- load (string + length);;
  if x =? 0 then ret length
  else match n with
       | O => ret length
       | S n => strnlen_loop n string (length + 1)
       end.
Definition strnlen (string : Z) (maxlen : nat) : M memory Z := strnlen_loop maxlen string 0.

(** [n] positions are left to try, after position [i]. *)
Fixpoint strstr_loop (n : nat) (haystack needle : Z) (needle_len : nat) (i : Z) : M memory Z :=
  r <- memcmp (haystack + i) needle needle_len;;
  if r =? 0 then ret (haystack + i)
  else match n with
       | O => ret NULL
       | S n => strstr_loop n haystack needle needle_len (i + 1)
       end.
Definition strstr (fuel : nat) (haystack needle : Z) : M memory Z :=
  haystack_len <- strlen fuel haystack;;
  needle_len <- strlen fuel needle;;
  if needle_len <=? haystack_len
  then strstr_loop (Z.to_nat (haystack_len - needle_len)) haystack needle (Z.to_nat needle_len) 0
  else ret NULL.

(** The end of the delimiters at [s]; none at the end of the string. *)
Fixpoint skip_delims (lim fuel : nat) (s delimiters : Z) : M memory (option Z * Z) :=
  match fuel with
  | O => nofuel
  | S fuel =>
      x <- load s;;
      r <- strchr lim delimiters x;;
      if negb (r =? NULL) then
        if x =? 0 then ret (None, s) else skip_delims lim fuel (s + 1) delimiters
      else ret (Some s, s)
  end.
Fixpoint skip_token (lim fuel : nat) (s delimiters : Z) : M memory Z :=
  match fuel with
  | O => nofuel
  | S fuel =>
      x <- load s;;
      r <- strchr lim delimiters x;;
      if r =? NULL then skip_token lim fuel (s + 1) delimiters else ret s
  end.

(** The token and the new value of [*save_ptr]. *)
Definition strtok_r (fuel : nat) (s delimiters save : Z) : M memory (Z * Z) :=
  assert_string delimiters;;;
  let s := if s =? NULL then save else s in
  assert_string s;;;
  r <- skip_delims fuel fuel s delimiters;;
  match r.1 with
  | None => ret (NULL, r.2)
  | Some token =>
      s <- skip_token fuel fuel token delimiters;;
      x <- load s;;
      if negb (x =? 0) then store s 0;;; ret (token, s + 1) else ret (token, s)
  end.

Fixpoint set_loop (size : nat) (dst value : Z) : M memory unit :=
  match size with
  | O => ret tt
  | S size => store dst value;;; set_loop size (dst + 1) value
  end.
Definition memset (dst value : Z) (size : nat) : M memory Z :=
  assert_block dst size;;;
  set_loop size dst value;;;
  ret dst.

Definition strlcpy (fuel : nat) (dst src size : Z) : M memory Z :=
  assert_string dst;;;
  assert_string src;;;
  src_len <- strlen fuel src;;
  (if size >? 0 then
     let dst_len := size - 1 in
     let dst_len := if src_len <? dst_len then src_len else dst_len in
     memcpy dst src (Z.to_nat dst_len);;;
     store (dst + dst_len) 0
   else ret tt);;;
  ret src_len.

Definition strlcat (fuel : nat) (dst src size : Z) : M memory Z :=
  assert_string dst;;;
  assert_string src;;;
  src_len <- strlen fuel src;;
  dst_len <- strlen fuel dst;;
  (if (size >? 0) && (dst_len <? size) then
     let copy_cnt := size - dst_len - 1 in
     let copy_cnt := if src_len <? copy_cnt then src_len else copy_cnt in
     memcpy (dst + dst_len) src (Z.to_nat copy_cnt);;;
     store (dst + dst_len + copy_cnt) 0
   else ret tt);;;
  ret (u32 (src_len + dst_len)).

(** ** Characters and numbers *)

Definition isdigit (c : Z) : bool := (48 <=? c) && (c <=? 57).
Definition isspace (c : Z) : bool :=
  (c =? 32) || (c =? 12) || (c =? 10) || (c =? 13) || (c =? 9) || (c =? 11).

(** Signed arithmetic that does not fit in an [int] is undefined. *)
Definition int_arith (z : Z) : M memory Z := if i32 z =? z then ret z else fault.

Fixpoint skip_space (fuel : nat) (s : Z) : M memory Z :=
  match fuel with
  | O => nofuel
  | S fuel => x <- load s;; if isspace x then skip_space fuel (s + 1) else ret s
  end.
Fixpoint digits_loop (fuel : nat) (s value : Z) : M memory Z :=
  match fuel with
  | O => nofuel
  | S fuel =>
      x <- load s;;
      if isdigit x then
        v <- int_arith (value * 10);;
        v <- int_arith (v - (x - 48));;
        digits_loop fuel (s + 1) v
      else ret value
  end.

Definition atoi (fuel : nat) (s : Z) : M memory Z :=
  assert_string s;;;
  s <- skip_space fuel s;;
  x <- load s;;
  let '(s, negative) :=
    if x =? 43 then (s + 1, false) else if x =? 45 then (s + 1, true) else (s, false) in
  value <- digits_loop fuel s 0;;
  if negb (negative : bool) then int_arith (- value) else ret value.

(** ** Strings in memory *)

(** The bytes [l] at [p]. *)
Fixpoint bytes (m : memory) (p : Z) (l : list Z) : Prop :=
  match l with
  | [] => True
  | b :: l => m !! p = Some b /\ 0 <= b < 256 /\ bytes m (p + 1) l
  end.

(** The string [s] and its terminator at [p]. *)
Fixpoint cstr (m : memory) (p : Z) (s : list Z) : Prop :=
  match s with
  | [] => m !! p = Some 0
  | c :: s => m !! p = Some c /\ 0 < c < 256 /\ cstr m (p + 1) s
  end.

Lemma load_ok m p b : m !! p = Some b -> load p m = Ok (b, m).
Proof. intros E. unfold load. rewrite bind_get, E. done. Qed.

Lemma store_ok m p b v : m !! p = Some b -> 0 <= v < 256 -> store p v m = Ok (tt, <[p := v]> m).
Proof. intros E Hv. unfold store, uwrap. rewrite bind_get, E, Z.mod_small by lia. done. Qed.

Lemma assert_string_ok {A} p (k : unit -> M memory A) m : p <> 0 -> bind (assert_string p) k m = k tt m.
Proof. intros Hp. apply bind_assert. by rewrite (proj2 (Z.eqb_neq p NULL)). Qed.

Lemma assert_block_ok {A} p n (k : unit -> M memory A) m : p <> 0 -> bind (assert_block p n) k m = k tt m.
Proof. intros Hp. apply bind_assert. by rewrite (proj2 (Z.eqb_neq p NULL)). Qed.

Lemma bytes_app m p l l' : bytes m p (l ++ l') <-> bytes m p l /\ bytes m (p + Z.of_nat (length l)) l'.
Proof.
  revert p. induction l as [|b l IH]; intros p; cbn [app bytes length].
  - rewrite Z.add_0_r. tauto.
  - rewrite IH. replace (p + 1 + Z.of_nat (length l)) with (p + Z.of_nat (S (length l))) by lia. tauto.
Qed.

Lemma bytes_lookup m p l i b : bytes m p l -> l !! i = Some b ->
  m !! (p + Z.of_nat i) = Some b /\ 0 <= b < 256.
Proof.
  revert p i. induction l as [|x l IH]; intros p i; [done|]. cbn [bytes]. intros (Hx & Hr & Hl).
  destruct i as [|i]; cbn.
  - intros [= <-]. by rewrite Z.add_0_r.
  - intros Hi. replace (p + Z.of_nat (S i)) with (p + 1 + Z.of_nat i) by lia. by apply IH.
Qed.

Lemma cstr_bytes m p s : cstr m p s <-> bytes m p (s ++ [0]) /\ Forall (fun c => 0 < c < 256) s.
Proof.
  revert p. induction s as [|c s IH]; intros p; cbn.
  - split; [intros E; split_and!; done || lia|tauto].
  - rewrite IH, Forall_cons. split; [intros (? & ? & ? & ?)|intros ((? & ? & ?) & ? & ?)]; split_and!; done || lia.
Qed.

(** ** Reading *)

Lemma strlen_loop_ok fuel : forall m string p s, cstr m p s -> (length s < fuel)%nat ->
  strlen_loop fuel string p m = Ok (p - string + Z.of_nat (length s), m).
Proof.
  induction fuel as [|fuel IH]; intros m string p s Hs Hf; [lia|]. cbn [strlen_loop].
  destruct s as [|c s]; cbn in Hs.
  - crun (load_ok m p 0 Hs). cbn. unfold ret. do 2 f_equal. lia.
  - destruct Hs as (E & Hc & Hs). crun (load_ok m p c E). rewrite (proj2 (Z.eqb_neq c 0)) by lia.
    cbn in Hf. rewrite (IH m string (p + 1) s Hs) by lia. cbn [length]. do 2 f_equal. lia.
Qed.

Lemma strlen_ok fuel m p s : p <> 0 -> cstr m p s -> (length s < fuel)%nat ->
  strlen fuel p m = Ok (Z.of_nat (length s), m).
Proof.
  intros Hp Hs Hf. unfold strlen. rewrite assert_string_ok, (strlen_loop_ok fuel m p p s) by done.
  do 2 f_equal. lia.
Qed.

(** The position of the first byte [c] of the string and its terminator. *)
Fixpoint index (c : Z) (l : list Z) : option nat :=
  match l with
  | [] => None
  | x :: l => if x =? c then Some O else S <$> index c l
  end.
Definition pointer (p : Z) (o : option nat) : Z :=
  match o with Some i => p + Z.of_nat i | None => NULL end.

Lemma index_Some c l i : index c l = Some i <-> l !! i = Some c /\ forall j, (j < i)%nat -> l !! j <> Some c.
Proof.
  revert i. induction l as [|x l IH]; intros i; cbn; [split; [done|intros [? _]; done]|].
  destruct (Z.eqb_spec x c) as [->|Hne].
  - split; [intros [= <-]; split; [done|lia]|]. intros [_ H]. destruct i as [|i]; [done|].
    destruct (H 0%nat); [lia|done].
  - destruct i as [|i].
    + split; [by destruct (index c l)|]. intros [[= ->] _]. done.
    + assert (S <$> index c l = Some (S i) <-> index c l = Some i) as ->
        by (destruct (index c l); cbn; split; congruence).
      rewrite IH. split.
      * intros [H1 H2]. split; [done|]. intros [|j] Hj; [cbn; congruence|]. apply H2. lia.
      * intros [H1 H2]. split; [done|]. intros j Hj. apply (H2 (S j)). lia.
Qed.

Lemma index_None c l : index c l = None <-> c ∉ l.
Proof.
  induction l as [|x l IH]; cbn; [set_solver|]. destruct (Z.eqb_spec x c) as [->|Hne].
  - split; [done|]. set_solver.
  - rewrite elem_of_cons. assert (S <$> index c l = None <-> index c l = None) as -> by (by destruct (index c l)).
    rewrite IH. split; [|tauto]. intros H [->|?]; tauto.
Qed.

(** Positions move along with the pointer. *)
Lemma pointer_S p o : pointer (p + 1) o = pointer p (S <$> o).
Proof. destruct o; cbn; [lia|done]. Qed.

Lemma strchr_loop_ok fuel : forall m p c s, cstr m p s -> (length s < fuel)%nat ->
  strchr_loop fuel p c m = Ok (pointer p (index c (s ++ [0])), m).
Proof.
  induction fuel as [|fuel IH]; intros m p c s Hs Hf; [lia|]. cbn [strchr_loop].
  destruct s as [|x s]; cbn in Hs; cbn [app index].
  - crun (load_ok m p 0 Hs). destruct (Z.eqb_spec 0 c) as [<-|]; cbn; [unfold ret; do 2 f_equal; lia|done].
  - destruct Hs as (E & Hx & Hs). crun (load_ok m p x E).
    destruct (Z.eqb_spec x c) as [->|Hne]; [unfold ret; cbn; do 2 f_equal; lia|].
    rewrite (proj2 (Z.eqb_neq x 0)) by lia. cbn in Hf. rewrite (IH m (p + 1) c s Hs) by lia.
    by rewrite pointer_S.
Qed.

Lemma strchr_ok fuel m p c s : p <> 0 -> 0 <= c < 256 -> cstr m p s -> (length s < fuel)%nat ->
  strchr fuel p c m = Ok (pointer p (index c (s ++ [0])), m).
Proof.
  intros Hp Hc Hs Hf. unfold strchr, uwrap. rewrite assert_string_ok, Z.mod_small by (done || lia).
  by apply strchr_loop_ok.
Qed.

(** A pointer found is not null, the string being above address zero. *)
Lemma pointer_null p o : 0 < p -> (pointer p o =? NULL) = match o with Some _ => false | None => true end.
Proof. intros Hp. destruct o; cbn; [apply Z.eqb_neq; unfold NULL; lia|done]. Qed.

(** Whether [c] is one of the characters of [set]. *)
Definition among (c : Z) (set : list Z) : bool := bool_decide (c ∈ set).

Lemma strchr_test fuel m p c set : 0 < p -> 0 < c < 256 -> cstr m p set -> (length set < fuel)%nat ->
  exists r, strchr fuel p c m = Ok (r, m) /\ negb (r =? NULL) = among c set.
Proof.
  intros Hp Hc Hs Hf. eexists. split; [apply (strchr_ok fuel m p c set); done || lia|].
  rewrite pointer_null by done. unfold among.
  destruct (index c (set ++ [0])) as [i|] eqn:E; cbn.
  - apply index_Some in E as [Hi%list_elem_of_lookup_2 _]. apply elem_of_app in Hi as [Hi|Hi].
    + by rewrite bool_decide_true.
    + apply list_elem_of_singleton in Hi. lia.
  - apply index_None in E. rewrite bool_decide_false; [done|]. set_solver.
Qed.

(** The length of the longest prefix of characters with property [f]. *)
Fixpoint prefix_len (f : Z -> bool) (s : list Z) : nat :=
  match s with
  | [] => O
  | c :: s => if f c then S (prefix_len f s) else O
  end.

Lemma span_loop_ok inside lim set q fuel : forall m p n s, 0 < q -> cstr m (p + n) s ->
  cstr m q set -> (length s < fuel)%nat -> (length set < lim)%nat ->
  span_loop inside lim fuel p q n m
  = Ok (n + Z.of_nat (prefix_len (fun c => negb (eqb inside (among c set))) s), m).
Proof.
  induction fuel as [|fuel IH]; intros m p n s Hq Hs Hset Hf Hl; [lia|]. cbn [span_loop].
  destruct s as [|c s]; cbn in Hs; cbn [prefix_len].
  - crun (load_ok m (p + n) 0 Hs). cbn. unfold ret. do 2 f_equal. lia.
  - destruct Hs as (E & Hc & Hs). crun (load_ok m _ c E). rewrite (proj2 (Z.eqb_neq c 0)) by lia.
    destruct (strchr_test lim m q c set Hq Hc Hset Hl) as (r & Er & Hr). crun Er. rewrite Hr.
    destruct (eqb inside (among c set)); cbn [negb].
    + unfold ret. do 2 f_equal. cbn. lia.
    + rewrite <- Z.add_assoc in Hs. cbn in Hf. rewrite (IH m p (n + 1) s) by (done || lia).
      do 2 f_equal. lia.
Qed.

Lemma memcmp_loop_ok : forall l l' m a b, length l = length l' -> bytes m a l -> bytes m b l' ->
  exists r, memcmp_loop (length l) a b m = Ok (r, m) /\ (r = 0 <-> l = l').
Proof.
  induction l as [|x l IH]; intros [|y l'] m a b Hl Ha Hb; cbn in Hl; try lia; cbn [memcmp_loop length].
  { by exists 0. }
  destruct Ha as (Ex & Hx & Ha), Hb as (Ey & Hy & Hb). crun (load_ok m a x Ex). crun (load_ok m b y Ey).
  destruct (Z.eqb_spec x y) as [->|Hne]; cbn [negb].
  - destruct (IH l' m (a + 1) (b + 1)) as (r & E & Hr); [lia|done..|]. exists r. split; [done|].
    rewrite Hr. split; congruence.
  - eexists. split; [done|]. split; [by destruct (x >? y)|congruence].
Qed.

Lemma memcmp_ok l l' m a b : a <> 0 -> b <> 0 -> length l = length l' -> bytes m a l -> bytes m b l' ->
  exists r, memcmp a b (length l) m = Ok (r, m) /\ (r = 0 <-> l = l').
Proof.
  intros Ha Hb Hl Hm Hm'. unfold memcmp. rewrite !assert_block_ok by done. by apply (memcmp_loop_ok l l').
Qed.

(** The order of [strcmp]: by the first character that differs. *)
Fixpoint lex (s t : list Z) : Z :=
  match s, t with
  | [], [] => 0
  | [], _ => -1
  | _, [] => 1
  | x :: s, y :: t => if x <? y then -1 else if x >? y then 1 else lex s t
  end.

Lemma strcmp_loop_ok fuel : forall m a b s t, cstr m a s -> cstr m b t -> (length s < fuel)%nat ->
  strcmp_loop fuel a b m = Ok (lex s t, m).
Proof.
  induction fuel as [|fuel IH]; intros m a b s t Hs Ht Hf; [lia|]. cbn [strcmp_loop].
  destruct s as [|x s], t as [|y t]; cbn in Hs, Ht; cbn [lex].
  - by crun (load_ok m a 0 Hs); crun (load_ok m b 0 Ht).
  - destruct Ht as (Ey & Hy & Ht). crun (load_ok m a 0 Hs). crun (load_ok m b y Ey). cbn [Z.eqb negb andb].
    by rewrite (proj2 (Z.ltb_lt 0 y)) by lia.
  - destruct Hs as (Ex & Hx & Hs). crun (load_ok m a x Ex). crun (load_ok m b 0 Ht).
    rewrite (proj2 (Z.eqb_neq x 0)) by lia. cbn [negb andb]. rewrite (proj2 (Z.ltb_ge x 0)) by lia.
    rewrite Z.gtb_ltb, (proj2 (Z.ltb_lt 0 x)) by lia. done.
  - destruct Hs as (Ex & Hx & Hs), Ht as (Ey & Hy & Ht). crun (load_ok m a x Ex). crun (load_ok m b y Ey).
    rewrite (proj2 (Z.eqb_neq x 0)) by lia. cbn [negb andb]. cbn in Hf. rewrite Z.gtb_ltb.
    destruct (Z.eqb_spec x y) as [->|Hne].
    + rewrite Z.ltb_irrefl. apply IH; [done..|lia].
    + unfold ret. destruct (Z.ltb_spec x y), (Z.ltb_spec y x); try done; lia.
Qed.

(** ** Writing *)

(** Bytes that can be read and written. *)
Definition mapped (m : memory) (p : Z) (n : nat) : Prop :=
  forall a, p <= a < p + Z.of_nat n -> exists b, m !! a = Some b /\ 0 <= b < 256.

(** [n] bytes at [src] were copied to [dst]. *)
Definition copied (n : nat) (dst src : Z) (m m' : memory) : Prop :=
  forall a, m' !! a = if decide (dst <= a < dst + Z.of_nat n) then m !! (src + (a - dst)) else m !! a.

Lemma mapped_insert m p n a v : mapped m p n -> 0 <= v < 256 -> mapped (<[a := v]> m) p n.
Proof.
  intros Hm Hv x Hx. destruct (decide (x = a)) as [->|]; [rewrite lookup_insert_eq; eauto|].
  rewrite lookup_insert_ne by done. by apply Hm.
Qed.

Lemma mapped_sub m p n p' n' : mapped m p n -> p <= p' -> p' + Z.of_nat n' <= p + Z.of_nat n ->
  mapped m p' n'.
Proof. intros Hm H1 H2 a Ha. apply Hm. lia. Qed.

Lemma copy_up_ok n : forall m dst src, mapped m dst n -> mapped m src n ->
  dst <= src \/ src + Z.of_nat n <= dst ->
  exists m', copy_up n dst src m = Ok (tt, m') /\ copied n dst src m m'.
Proof.
  induction n as [|n IH]; intros m dst src Hd Hs Ho.
  - exists m. split; [done|]. intros a. by rewrite decide_False by lia.
  - cbn [copy_up]. destruct (Hs src) as (b & Eb & Hb); [lia|]. destruct (Hd dst) as (b0 & Eb0 & _); [lia|].
    crun (load_ok m src b Eb). crun (store_ok m dst b0 b Eb0 Hb).
    destruct (IH (<[dst := b]> m) (dst + 1) (src + 1)) as (m' & E & Hc).
    { apply mapped_insert; [|done]. apply (mapped_sub m dst (S n)); [done|lia..]. }
    { apply mapped_insert; [|done]. apply (mapped_sub m src (S n)); [done|lia..]. }
    { lia. }
    exists m'. split; [done|]. intros a. rewrite Hc. destruct (decide (a = dst)) as [->|Hne].
    + rewrite decide_False, decide_True, lookup_insert_eq by lia. rewrite <- Eb. f_equal. lia.
    + replace (src + 1 + (a - (dst + 1))) with (src + (a - dst)) by lia.
      repeat case_decide; try lia; rewrite lookup_insert_ne by lia; done.
Qed.

Lemma copy_down_ok n : forall m dst src, mapped m dst n -> mapped m src n ->
  src <= dst \/ dst + Z.of_nat n <= src ->
  exists m', copy_down n (dst + Z.of_nat n) (src + Z.of_nat n) m = Ok (tt, m') /\ copied n dst src m m'.
Proof.
  induction n as [|n IH]; intros m dst src Hd Hs Ho.
  - exists m. split; [done|]. intros a. by rewrite decide_False by lia.
  - cbn [copy_down]. replace (dst + Z.of_nat (S n) - 1) with (dst + Z.of_nat n) by lia.
    replace (src + Z.of_nat (S n) - 1) with (src + Z.of_nat n) by lia.
    destruct (Hs (src + Z.of_nat n)) as (b & Eb & Hb); [lia|].
    destruct (Hd (dst + Z.of_nat n)) as (b0 & Eb0 & _); [lia|].
    crun (load_ok m _ b Eb). crun (store_ok m _ b0 b Eb0 Hb).
    destruct (IH (<[dst + Z.of_nat n := b]> m) dst src) as (m' & E & Hc).
    { apply mapped_insert; [|done]. apply (mapped_sub m dst (S n)); [done|lia..]. }
    { apply mapped_insert; [|done]. apply (mapped_sub m src (S n)); [done|lia..]. }
    { lia. }
    exists m'. split; [done|]. intros a. rewrite Hc. destruct (decide (a = dst + Z.of_nat n)) as [->|Hne].
    + rewrite decide_False, decide_True, lookup_insert_eq by lia. rewrite <- Eb. f_equal. lia.
    + repeat case_decide; try lia; rewrite lookup_insert_ne by lia; done.
Qed.

(** [memmove] copies the bytes as they were before the call, whether the
    blocks overlap or not, and changes nothing else; what it returns is the end
    of the destination when it copies upwards, not the destination. *)
Theorem memmove_correct m dst src n :
  dst <> 0 -> src <> 0 -> mapped m dst n -> mapped m src n ->
  exists m', memmove dst src n m = Ok (if dst <? src then dst + Z.of_nat n else dst, m') /\
    copied n dst src m m'.
Proof.
  intros Hd Hs Hmd Hms. unfold memmove. rewrite !assert_block_ok by done.
  destruct (Z.ltb_spec dst src).
  - destruct (copy_up_ok n m dst src Hmd Hms ltac:(lia)) as (m' & E & Hc). exists m'. by crun E.
  - destruct (copy_down_ok n m dst src Hmd Hms ltac:(lia)) as (m' & E & Hc). exists m'. by crun E.
Qed.

Lemma memcpy_ok m dst src n : dst <> 0 -> src <> 0 -> mapped m dst n -> mapped m src n ->
  dst + Z.of_nat n <= src \/ src + Z.of_nat n <= dst ->
  exists m', memcpy dst src n m = Ok (dst, m') /\ copied n dst src m m'.
Proof.
  intros Hd Hs Hmd Hms Ho. unfold memcpy. rewrite !assert_block_ok by done.
  destruct (copy_up_ok n m dst src Hmd Hms ltac:(lia)) as (m' & E & Hc). exists m'. by crun E.
Qed.

(** ** Strings under changes of memory *)

Lemma cstr_frame m m' p s : cstr m p s ->
  (forall a, p <= a <= p + Z.of_nat (length s) -> m' !! a = m !! a) -> cstr m' p s.
Proof.
  revert p. induction s as [|c s IH]; intros p; cbn [cstr length]; intros Hs Hm.
  - by rewrite Hm by lia.
  - destruct Hs as (E & Hc & Hs). split_and!; [by rewrite Hm by lia|lia|lia|]. apply IH; [done|].
    intros a Ha. apply Hm. lia.
Qed.

(** The rest of a string, and its beginning when it is cut with a null byte. *)
Lemma cstr_drop m p s k : (k <= length s)%nat -> cstr m p s -> cstr m (p + Z.of_nat k) (drop k s).
Proof.
  revert p s. induction k as [|k IH]; intros p s Hk Hs; [by rewrite Z.add_0_r|].
  destruct s as [|c s]; cbn in Hk; [lia|]. destruct Hs as (_ & _ & Hs). cbn [drop].
  replace (p + Z.of_nat (S k)) with (p + 1 + Z.of_nat k) by lia. apply IH; [lia|done].
Qed.

Lemma cstr_cut m p s k : (k <= length s)%nat -> cstr m p s ->
  cstr (<[p + Z.of_nat k := 0]> m) p (take k s).
Proof.
  revert p s. induction k as [|k IH]; intros p s Hk Hs.
  - rewrite take_0, Z.add_0_r. apply lookup_insert_eq.
  - destruct s as [|c s]; cbn in Hk; [lia|]. destruct Hs as (E & Hc & Hs). cbn [take cstr].
    rewrite lookup_insert_ne by lia. split_and!; [done|lia|lia|].
    replace (p + Z.of_nat (S k)) with (p + 1 + Z.of_nat k) by lia. apply IH; [lia|done].
Qed.

(** ** Tokens *)

Lemma prefix_len_le f s : (prefix_len f s <= length s)%nat.
Proof. induction s as [|c s IH]; cbn; [lia|]. destruct (f c); lia. Qed.

Lemma prefix_len_ext f g s : (forall c, f c = g c) -> prefix_len f s = prefix_len g s.
Proof. intros H. induction s as [|c s IH]; cbn; [done|]. by rewrite H, IH. Qed.

Lemma skip_delims_ok lim set q fuel : forall m p s, 0 < q -> cstr m p s -> cstr m q set ->
  (length s < fuel)%nat -> (length set < lim)%nat ->
  skip_delims lim fuel p q m =
  let k := prefix_len (fun c => among c set) s in
  Ok ((if decide (k = length s) then (None, p + Z.of_nat k) else (Some (p + Z.of_nat k), p + Z.of_nat k)), m).
Proof.
  induction fuel as [|fuel IH]; intros m p s Hq Hs Hset Hf Hl; [lia|]. cbn [skip_delims].
  destruct s as [|c s]; cbn in Hs; cbn [prefix_len length].
  - crun (load_ok m p 0 Hs). crun (strchr_ok lim m q 0 set ltac:(lia) ltac:(lia) Hset Hl).
    assert (index 0 (set ++ [0]) <> None) as Hi by (rewrite index_None; set_solver).
    rewrite pointer_null by done. destruct (index 0 (set ++ [0])); [|done]. cbn. by rewrite Z.add_0_r.
  - destruct Hs as (E & Hc & Hs). crun (load_ok m p c E).
    destruct (strchr_test lim m q c set Hq Hc Hset Hl) as (r & Er & Hr). crun Er. rewrite Hr.
    rewrite (proj2 (Z.eqb_neq c 0)) by lia. destruct (among c set).
    + cbn in Hf. rewrite (IH m (p + 1) s) by (done || lia). cbn zeta.
      set (k := prefix_len _ s). replace (p + 1 + Z.of_nat k) with (p + Z.of_nat (S k)) by lia.
      repeat case_decide; done || lia.
    + cbn. by rewrite Z.add_0_r.
Qed.

Lemma skip_token_ok lim set q fuel : forall m p s, 0 < q -> cstr m p s -> cstr m q set ->
  (length s < fuel)%nat -> (length set < lim)%nat ->
  skip_token lim fuel p q m = Ok (p + Z.of_nat (prefix_len (fun c => negb (among c set)) s), m).
Proof.
  induction fuel as [|fuel IH]; intros m p s Hq Hs Hset Hf Hl; [lia|]. cbn [skip_token].
  destruct s as [|c s]; cbn in Hs; cbn [prefix_len].
  - crun (load_ok m p 0 Hs). crun (strchr_ok lim m q 0 set ltac:(lia) ltac:(lia) Hset Hl).
    assert (index 0 (set ++ [0]) <> None) as Hi by (rewrite index_None; set_solver).
    rewrite pointer_null by done. destruct (index 0 (set ++ [0])); [|done]. cbn. by rewrite Z.add_0_r.
  - destruct Hs as (E & Hc & Hs). crun (load_ok m p c E).
    destruct (strchr_test lim m q c set Hq Hc Hset Hl) as (r & Er & Hr). crun Er.
    assert ((r =? NULL) = negb (among c set)) as -> by (rewrite <- Hr; by destruct (r =? NULL)).
    destruct (among c set); cbn [negb].
    + cbn. by rewrite Z.add_0_r.
    + cbn in Hf. rewrite (IH m (p + 1) s) by (done || lia). do 2 f_equal. lia.
Qed.

(** The nonempty words of a string; [cur] is the word read so far, backwards. *)
Fixpoint words_from (set cur s : list Z) : list (list Z) :=
  match s with
  | [] => match cur with [] => [] | _ => [rev cur] end
  | c :: s =>
      if among c set then
        match cur with
        | [] => words_from set [] s
        | _ => rev cur :: words_from set [] s
        end
      else words_from set (c :: cur) s
  end.
Definition words (set s : list Z) : list (list Z) := words_from set [] s.

Lemma words_cur set s : forall cur, cur <> [] ->
  let k := prefix_len (fun c => negb (among c set)) s in
  words_from set cur s = (rev cur ++ take k s) :: words set (drop (S k) s).
Proof.
  induction s as [|c s IH]; intros cur Hc; cbn [words_from prefix_len].
  - destruct cur; [done|]. cbn. by rewrite app_nil_r.
  - destruct (among c set); cbn [negb].
    + destruct cur; [done|]. cbn [take drop]. by rewrite app_nil_r.
    + rewrite IH by done. cbn [rev take drop]. by rewrite <- app_assoc.
Qed.

Lemma words_skip set s :
  let k := prefix_len (fun c => among c set) s in
  let t := drop k s in
  let n := prefix_len (fun c => negb (among c set)) t in
  words set s = match t with [] => [] | _ => take n t :: words set (drop (S n) t) end.
Proof.
  unfold words. induction s as [|c s IH]; [done|]. cbn [words_from prefix_len].
  destruct (among c set) eqn:E; [exact IH|]. cbn zeta. rewrite drop_0. cbn [prefix_len].
  rewrite E. cbn [negb]. rewrite words_cur by done. done.
Qed.

(** One call: [p] is where the tokenizer stands, [s] what is left there. *)
Lemma strtok_call fuel m arg save q p s set : 0 < p -> 0 < q ->
  p = (if arg =? NULL then save else arg) -> cstr m p s -> cstr m q set ->
  (length s < fuel)%nat -> (length set < fuel)%nat ->
  match words set s with
  | [] => exists save', strtok_r fuel arg q save m = Ok ((NULL, save'), m)
  | w :: ws => exists token save' s' m', strtok_r fuel arg q save m = Ok ((token, save'), m') /\
      words set s' = ws /\ cstr m' token w /\ cstr m' save' s' /\
      p <= token /\ token + Z.of_nat (length w) <= save' <= p + Z.of_nat (length s) /\
      save' + Z.of_nat (length s') = p + Z.of_nat (length s) /\ (length s' < length s)%nat /\
      (s' <> [] -> token + Z.of_nat (length w) < save') /\
      forall a, a < p \/ p + Z.of_nat (length s) <= a \/ save' <= a -> m' !! a = m !! a
  end.
Proof.
  intros Hp Hq Ep Hs Hset Hf Hf'. unfold strtok_r. rewrite assert_string_ok by lia. cbn zeta.
  rewrite <- Ep. rewrite assert_string_ok by lia.
  crun (skip_delims_ok fuel set q fuel m p s Hq Hs Hset Hf Hf'). cbn zeta.
  rewrite (words_skip set s). set (k := prefix_len (fun c => among c set) s).
  pose proof (prefix_len_le (fun c => among c set) s) as Hk. fold k in Hk. cbn zeta.
  destruct (decide (k = length s)) as [Ek|Hne]; cbn [fst snd].
  { rewrite drop_ge by lia. by eexists. }
  pose proof (cstr_drop m p s k Hk Hs) as Ht. set (t := drop k s) in *.
  assert (length t = (length s - k)%nat) as Hlt by apply length_drop.
  set (n := prefix_len (fun c => negb (among c set)) t).
  pose proof (prefix_len_le (fun c => negb (among c set)) t) as Hn. fold n in Hn.
  assert (0 < n)%nat as Hn0.
  { unfold n, t. clear -Hne Hk. subst k. induction s as [|c s IH]; cbn in *; [done|].
    destruct (among c set) eqn:E; cbn; [apply IH; lia|]. rewrite E. cbn. lia. }
  crun (skip_token_ok fuel set q fuel m _ t Hq Ht Hset ltac:(lia) Hf'). fold n.
  set (tok := p + Z.of_nat k) in *. pose proof (cstr_drop m tok t n Hn Ht) as Hr.
  assert (forall A (x y : A), match t with [] => x | _ :: _ => y end = y) as ->
    by (intros; destruct t; [cbn in Hlt; lia|done]).
  destruct (drop n t) as [|c r] eqn:Er.
  - cbn in Hr. crun (load_ok m _ 0 Hr). cbn [Z.eqb negb].
    assert (length t = n) as Hl by (apply (f_equal length) in Er; rewrite length_drop in Er; cbn in Er; lia).
    exists tok, (tok + Z.of_nat n), [], m. rewrite (drop_ge t (S n)), (take_ge t n) by lia.
    split_and!; try (done || (cbn [length]; lia)).
  - destruct Hr as (Ec & Hc & Hr). crun (load_ok m _ c Ec). rewrite (proj2 (Z.eqb_neq c 0)) by lia.
    cbn [negb]. crun (store_ok m _ c 0 Ec ltac:(lia)).
    assert (drop (S n) t = r) as Er' by (rewrite <- Nat.add_1_r, <- drop_drop, Er; done).
    assert (length t = n + S (length r))%nat as Hl
      by (apply (f_equal length) in Er; rewrite length_drop in Er; cbn in Er; lia).
    eexists tok, _, r, _. rewrite Er', length_take_le by done. split_and!; try (done || lia).
    + by apply cstr_cut.
    + apply (cstr_frame m); [done|]. intros a Ha. apply lookup_insert_ne. lia.
    + intros a Ha. apply lookup_insert_ne. lia.
Qed.

(** The loop of the example in the comment of [strtok_r]. *)
Fixpoint tokens (n fuel : nat) (arg q save : Z) : M memory (list Z) :=
  match n with
  | O => nofuel
  | S n =>
      r <- strtok_r fuel arg q save;;
      if r.1 =? NULL then ret []
      else l <- tokens n fuel NULL q r.2;; ret (r.1 :: l)
  end.

Lemma tokens_ok n : forall fuel m arg save q p s set, 0 < p -> 0 < q ->
  p = (if arg =? NULL then save else arg) -> cstr m p s -> cstr m q set ->
  q + Z.of_nat (length set) < p \/ p + Z.of_nat (length s) < q ->
  (length s < fuel)%nat -> (length set < fuel)%nat -> (length s < n)%nat ->
  exists ptrs m', tokens n fuel arg q save m = Ok (ptrs, m') /\ Forall2 (cstr m') ptrs (words set s) /\
    forall a, a < p \/ p + Z.of_nat (length s) <= a -> m' !! a = m !! a.
Proof.
  induction n as [|n IH]; intros fuel m arg save q p s set Hp Hq Ep Hs Hset Hd Hf Hf' Hn; [lia|].
  cbn [tokens]. pose proof (strtok_call fuel m arg save q p s set Hp Hq Ep Hs Hset Hf Hf') as Hcall.
  destruct (words set s) as [|w ws].
  - destruct Hcall as (save' & E). exists [], m. crun E. split_and!; [done|constructor|done].
  - destruct Hcall as (tok & save' & s' & m1 & E & Hws & Hw & Hs' & Hpt & Hts & Hend & Hlen & Hlt & Hm1).
    crun E. cbn [fst snd]. rewrite (proj2 (Z.eqb_neq tok NULL)) by (unfold NULL; lia).
    destruct (IH fuel m1 NULL save' q save' s' set) as (ptrs & m' & E' & Hall & Hm'); try (done || lia).
    { apply (cstr_frame m); [done|]. intros a Ha. apply Hm1. lia. }
    exists (tok :: ptrs), m'. crun E'. split; [done|]. split.
    + rewrite <- Hws. constructor; [|done]. apply (cstr_frame m1); [done|]. intros a Ha. apply Hm'.
      destruct s' as [|c s']; [cbn [length] in *; lia|]. specialize (Hlt ltac:(done)). lia.
    + intros a Ha. rewrite Hm' by lia. apply Hm1. lia.
Qed.

(** C32: calling [strtok_r] until it returns null splits a string into its
    nonempty words: each pointer returned is one of them, in order, as a string
    of its own, and only the string itself is modified. *)
Theorem strtok_r_tokenizes fuel m p q s set :
  0 < p -> 0 < q -> cstr m p s -> cstr m q set ->
  q + Z.of_nat (length set) < p \/ p + Z.of_nat (length s) < q ->
  (length s < fuel)%nat -> (length set < fuel)%nat ->
  exists ptrs m', tokens fuel fuel p q 0 m = Ok (ptrs, m') /\ Forall2 (cstr m') ptrs (words set s) /\
    forall a, a < p \/ p + Z.of_nat (length s) <= a -> m' !! a = m !! a.
Proof.
  intros Hp Hq Hs Hset Hd Hf Hf'. apply tokens_ok; try (done || lia).
  rewrite (proj2 (Z.eqb_neq p NULL)); [done|unfold NULL; lia].
Qed.

(** ** Comparing and searching *)

Lemma strcmp_zero : forall s t, Forall (fun c => 0 < c < 256) s -> Forall (fun c => 0 < c < 256) t ->
  lex s t = 0 <-> s = t.
Proof.
  induction s as [|x s IH]; intros [|y t] Hs Ht; cbn; try done.
  apply Forall_cons in Hs as [_ Hs]. apply Forall_cons in Ht as [_ Ht]. rewrite Z.gtb_ltb.
  destruct (Z.ltb_spec x y), (Z.ltb_spec y x); [lia|split; [done|intros [= ??]; lia]..|].
  rewrite IH by done. replace y with x by lia. split; congruence.
Qed.

Lemma strrchr_loop_ok fuel : forall m p c s r, cstr m p s -> (length s < fuel)%nat ->
  exists v, strrchr_loop fuel p c r m = Ok (v, m) /\
    ((c ∉ s /\ v = r) \/ exists i, v = p + Z.of_nat i /\ s !! i = Some c /\
       forall j, (i < j)%nat -> s !! j <> Some c).
Proof.
  induction fuel as [|fuel IH]; intros m p c s r Hs Hf; [lia|]. cbn [strrchr_loop].
  destruct s as [|x s]; cbn in Hs.
  - crun (load_ok m p 0 Hs). exists r. split; [done|]. left. set_solver.
  - destruct Hs as (E & Hx & Hs). crun (load_ok m p x E). rewrite (proj2 (Z.eqb_neq x 0)) by lia.
    cbn in Hf. destruct (IH m (p + 1) c s (if x =? c then p else r) Hs ltac:(lia)) as (v & Ev & Hv).
    exists v. split; [done|]. destruct Hv as [[Hn ->]|(i & -> & Hi & Hj)].
    + destruct (Z.eqb_spec x c) as [->|Hne]; [right|left; set_solver]. exists 0%nat.
      split_and!; [lia|done|]. intros [|j] Hj; [lia|]. intros Hc. apply Hn.
      by eapply list_elem_of_lookup_2.
    + right. exists (S i). split_and!; [lia|done|]. intros [|j] Hj'; [lia|]. apply Hj. lia.
Qed.

Lemma strnlen_loop_ok n : forall m p k s, cstr m (p + k) s ->
  strnlen_loop n p k m = Ok (k + Z.of_nat (Nat.min n (length s)), m).
Proof.
  induction n as [|n IH]; intros m p k s Hs; destruct s as [|c s]; cbn in Hs; cbn [strnlen_loop].
  1, 3: crun (load_ok m _ 0 Hs); unfold ret; cbn; do 2 f_equal; lia.
  all: destruct Hs as (E & Hc & Hs); crun (load_ok m _ c E); rewrite (proj2 (Z.eqb_neq c 0)) by lia.
  - unfold ret. cbn. do 2 f_equal. lia.
  - rewrite <- Z.add_assoc in Hs. rewrite (IH m p (k + 1) s) by done. do 2 f_equal. cbn. lia.
Qed.

(** Whether [t] occurs in [s] at position [i]. *)
Definition occurs (t s : list Z) (i : nat) : Prop :=
  (i + length t <= length s)%nat /\ take (length t) (drop i s) = t.

Lemma strstr_loop_ok n : forall m p q s t i, 0 < p -> 0 < q -> bytes m p s -> bytes m q t ->
  (i + n + length t = length s)%nat ->
  exists r, strstr_loop n p q (length t) (Z.of_nat i) m = Ok (r, m) /\
    ((r = NULL /\ forall j, (i <= j <= i + n)%nat -> ~ occurs t s j) \/
     exists k, r = p + Z.of_nat k /\ (i <= k <= i + n)%nat /\ occurs t s k /\
       forall j, (i <= j < k)%nat -> ~ occurs t s j).
Proof.
  induction n as [|n IH]; intros m p q s t i Hp Hq Hs Ht Hl; cbn [strstr_loop].
  all: assert (length (take (length t) (drop i s)) = length t) as Hlt
    by (rewrite length_take, length_drop; lia).
  all: assert (bytes m (p + Z.of_nat i) (take (length t) (drop i s))) as Hb by
    (rewrite <- (take_drop i s), <- (take_drop (length t) (drop i s)), !bytes_app in Hs;
     destruct Hs as (_ & Hs & _); by rewrite length_take_le in Hs by lia).
  all: destruct (memcmp_ok _ t m (p + Z.of_nat i) q ltac:(lia) ltac:(lia) Hlt Hb Ht) as (r & E & Hr);
    rewrite Hlt in E; crun E;
    destruct (Z.eqb_spec r 0) as [->|Hne];
    [eexists; split; [done|]; right; exists i; split_and!; [done|lia|lia|split; [lia|by apply Hr]|lia]|].
  all: assert (~ occurs t s i) as Hno by (intros [_ Ho]; by apply Hne, Hr).
  - exists NULL. split; [done|]. left. split; [done|]. intros j Hj. by replace j with i by lia.
  - replace (Z.of_nat i + 1) with (Z.of_nat (S i)) by lia.
    destruct (IH m p q s t (S i) Hp Hq Hs Ht ltac:(lia)) as (v & Ev & Hv). exists v. split; [done|].
    destruct Hv as [[-> Hn]|(k & -> & Hk & Ho & Hn)]; [left|right].
    + split; [done|]. intros j Hj. destruct (decide (j = i)) as [->|]; [done|]. apply Hn. lia.
    + exists k. split_and!; [done|lia|lia|done|]. intros j Hj.
      destruct (decide (j = i)) as [->|]; [done|]. apply Hn. lia.
Qed.


Lemma string_mapped m p s : cstr m p s -> mapped m p (S (length s)).
Proof.
  intros Hs a Ha. apply cstr_bytes in Hs as [Hb _].
  destruct (lookup_lt_is_Some_2 (s ++ [0]) (Z.to_nat (a - p))) as [b Eb]; [rewrite length_app; cbn; lia|].
  destruct (bytes_lookup _ _ _ _ _ Hb Eb) as [E Hr]. rewrite Z2Nat.id in E by lia.
  replace (p + (a - p)) with a in E by lia. eauto.
Qed.

Lemma cstr_copied m m' p q s k : cstr m p s -> (k <= length s)%nat ->
  (forall i, (i < k)%nat -> m' !! (q + Z.of_nat i) = m !! (p + Z.of_nat i)) ->
  m' !! (q + Z.of_nat k) = Some 0 -> cstr m' q (take k s).
Proof.
  revert p q s. induction k as [|k IH]; intros p q s Hs Hk Hc H0.
  - rewrite take_0. cbn. by rewrite Z.add_0_r in H0.
  - destruct s as [|c s]; cbn in Hk; [lia|]. destruct Hs as (E & Hr & Hs). cbn [take cstr].
    specialize (Hc 0%nat ltac:(lia)) as Hc0. rewrite !Z.add_0_r in Hc0. split_and!; [congruence|lia|lia|].
    apply (IH (p + 1)); [done|lia| |by replace (q + 1 + Z.of_nat k) with (q + Z.of_nat (S k)) by lia].
    intros i Hi. specialize (Hc (S i) ltac:(lia)).
    by replace (q + Z.of_nat (S i)) with (q + 1 + Z.of_nat i) in Hc by lia;
      replace (p + Z.of_nat (S i)) with (p + 1 + Z.of_nat i) in Hc by lia.
Qed.

(** [strlcpy] leaves a string of at most [size - 1] characters. *)
Lemma strlcpy_ok fuel m dst src s size : 0 < dst -> 0 < src -> cstr m src s -> (length s < fuel)%nat ->
  (0 < size)%nat -> mapped m dst size ->
  dst + Z.of_nat size <= src \/ src + Z.of_nat (length s) < dst ->
  exists m', strlcpy fuel dst src (Z.of_nat size) m = Ok (Z.of_nat (length s), m') /\
    cstr m' dst (take (size - 1) s) /\
    forall a, a < dst \/ dst + Z.of_nat size <= a -> m' !! a = m !! a.
Proof.
  intros Hd Hs Hc Hf Hsz Hm Ho. unfold strlcpy. rewrite !assert_string_ok by lia.
  crun (strlen_ok fuel m src s ltac:(lia) Hc Hf). rewrite Z.gtb_ltb, (proj2 (Z.ltb_lt 0 _)) by lia.
  set (k := Nat.min (size - 1) (length s)).
  assert ((if Z.of_nat (length s) <? Z.of_nat size - 1 then Z.of_nat (length s) else Z.of_nat size - 1)
    = Z.of_nat k) as -> by (destruct (Z.ltb_spec (Z.of_nat (length s)) (Z.of_nat size - 1)); lia).
  rewrite Nat2Z.id, !bind_assoc.
  destruct (memcpy_ok m dst src k) as (m1 & E1 & Hc1); [lia|lia|..|lia|].
  { apply (mapped_sub m dst size); [done|lia..]. }
  { apply (mapped_sub m src (S (length s))); [by apply string_mapped|lia..]. }
  crun E1. destruct (Hm (dst + Z.of_nat k)) as (b & Eb & _); [lia|].
  assert (m1 !! (dst + Z.of_nat k) = Some b) as Eb1 by (rewrite Hc1, decide_False by lia; done).
  crun (store_ok m1 _ b 0 Eb1 ltac:(lia)). eexists. split; [done|]. split.
  - replace (take (size - 1) s) with (take k s).
    2: { unfold k. destruct (decide (size - 1 <= length s)%nat); [by rewrite Nat.min_l by lia|].
         rewrite Nat.min_r by lia. by rewrite !take_ge by lia. }
    apply (cstr_copied m _ src); [done|lia| |apply lookup_insert_eq].
    intros i Hi. rewrite lookup_insert_ne by lia. rewrite Hc1, decide_True by lia. f_equal. lia.
  - intros a Ha. rewrite lookup_insert_ne by lia. by rewrite Hc1, decide_False by lia.
Qed.

(** ** A concrete memory *)

Module Demo.

(** The string [s] at [p]. *)
Fixpoint write (p : Z) (s : list Z) (m : memory) : memory :=
  match s with
  | [] => <[p := 0]> m
  | c :: s => <[p := c]> (write (p + 1) s m)
  end.

(** "args-many a  b" at 1000 and " " at 2000. *)
Definition command : list Z := [97; 114; 103; 115; 45; 109; 97; 110; 121; 32; 97; 32; 32; 98].
Definition mem0 : memory := write 1000 command (write 2000 [32] ∅).

End Demo.

Lemma strtok_r_tokenizes_witness :
  exists ptrs m', tokens 20 20 1000 2000 0 Demo.mem0 = Ok (ptrs, m') /\
    words [32] Demo.command = [[97; 114; 103; 115; 45; 109; 97; 110; 121]; [97]; [98]] /\
    Forall2 (cstr m') ptrs (words [32] Demo.command).
Proof.
  destruct (strtok_r_tokenizes 20 Demo.mem0 1000 2000 Demo.command [32]) as (ptrs & m' & E & Hall & _);
    [lia|lia|vm_compute; split_and!; done|vm_compute; split_and!; done|cbn; lia|cbn; lia|cbn; lia|].
  exists ptrs, m'. split; [exact E|]. split; [vm_compute; reflexivity|exact Hall].
Defined.


Lemma memmove_correct_witness :
  exists m', memmove 1000 1005 4 Demo.mem0 = Ok (1004, m') /\ m' !! 1000 = Some 109.
Proof.
  destruct (memmove_correct Demo.mem0 1000 1005 4) as (m' & E & Hc); [done|done|..].
  1, 2: intros a Ha; assert (exists i : nat, (i < 10)%nat /\ a = 1000 + Z.of_nat i) as (i & Hi & ->)
    by (exists (Z.to_nat (a - 1000)); lia);
    do 10 (destruct i as [|i]; [eexists; split; [vm_compute; reflexivity|lia]|]); lia.
  exists m'. split; [exact E|]. rewrite (Hc 1000). vm_compute. reflexivity.
Defined.
