(* ===== verification/Pagedir.v ===== *)
(** * Page directories (userprog/pagedir.c)

    A page directory and its page tables are pages of 1024 entries.  Their
    contents are kept apart from the bytes of memory, known by the address of
    the page; the pages come from the allocator of Palloc.v.  [cr3] is the
    register with the physical address of the active directory. *)

From S2P Require Import Prelude Vaddr Bitmap PageAlloc Palloc.
Local Open Scope Z_scope.

(** ** The code *)

Record mmu := Mmu {
  frames : pools;
  tables : gmap Z (list Z);
  cr3 : Z;
  init_page_dir : Z;
  init_ram_pages : Z
}.

Definition set_frames (x : pools) (s : mmu) : mmu :=
  Mmu x (tables s) (cr3 s) (init_page_dir s) (init_ram_pages s).
Definition set_tables (x : gmap Z (list Z)) (s : mmu) : mmu :=
  Mmu (frames s) x (cr3 s) (init_page_dir s) (init_ram_pages s).
Definition set_cr3 (x : Z) (s : mmu) : mmu :=
  Mmu (frames s) (tables s) x (init_page_dir s) (init_ram_pages s).

Definition paging {A : Type} (m : M pools A) : M mmu A :=
  fun s => r <-! m (frames s);; Ok (r.1, set_frames r.2 s).

(** A page of entries. *)
Definition get_table (p : Z) : M mmu (list Z) :=
  s <- get;; lift (res_of_option (tables s !! p)).
Definition put_table (p : Z) (es : list Z) : M mmu unit :=
  modify (fun s => set_tables (<[p := es]> (tables s)) s).
Definition drop_table (p : Z) : M mmu unit :=
  modify (fun s => set_tables (delete p (tables s)) s).

(** The entry at an address: [pd + i] and [&pt[i]] are addresses of entries. *)
Definition entry (p i : Z) : Z := u32 (p + 4 * i).
Definition load_entry (a : Z) : M mmu Z :=
  es <- get_table (pg_round_down a);;
  lift (res_of_option (es !! Z.to_nat (pg_ofs a / 4))).
Definition store_entry (a v : Z) : M mmu unit :=
  es <- get_table (pg_round_down a);;
  put_table (pg_round_down a) (<[Z.to_nat (pg_ofs a / 4) := u32 v]> es).

Definition pagedir_create : M mmu Z :=
  pd <- paging (palloc_get_page 0);;
  (if negb (pd =? NULL) then
     s <- get;; es <- get_table (init_page_dir s);; put_table pd es
   else ret tt);;;
  ret pd.

(** The entries from [i] on of a page table: [n] are left. *)
Fixpoint destroy_table (n : nat) (pt i : Z) : M mmu unit :=
  match n with
  | O => ret tt
  | S n =>
      pte <- load_entry (entry pt i);;
      (if negb (Z.land pte PTE_P =? 0) then
         pg <- lift (pte_get_page pte);; paging (palloc_free_page pg)
       else ret tt);;;
      destroy_table n pt (i + 1)
  end.

Fixpoint destroy_dir (n : nat) (pd i : Z) : M mmu unit :=
  match n with
  | O => ret tt
  | S n =>
      pde <- load_entry (entry pd i);;
      (if negb (Z.land pde PTE_P =? 0) then
         pt <- lift (pde_get_pt pde);;
         destroy_table 1024 pt 0;;;
         paging (palloc_free_page pt);;;
         drop_table pt
       else ret tt);;;
      destroy_dir n pd (i + 1)
  end.

Definition pagedir_destroy (pd : Z) : M mmu unit :=
  if pd =? NULL then ret tt
  else
    s <- get;;
    assert (negb (pd =? init_page_dir s));;;
    destroy_dir (Z.to_nat (pd_no PHYS_BASE)) pd 0;;;
    paging (palloc_free_page pd);;;
    drop_table pd.

Definition lookup_page (pd vaddr : Z) (create : bool) : M mmu Z :=
  assert (negb (pd =? NULL));;;
  assert (negb create || is_user_vaddr vaddr);;;
  let pde := entry pd (pd_no vaddr) in
  e <- load_entry pde;;
  ok <- (if e =? 0 then
           if create then
             pt <- paging (palloc_get_page PAL_ZERO);;
             if pt =? NULL then ret false
             else
               put_table pt (replicate 1024 0);;;
               e <- lift (pde_create pt);;
               store_entry pde e;;;
               ret true
           else ret false
         else ret true);;
  if ok : bool then
    e <- load_entry pde;;
    pt <- lift (pde_get_pt e);;
    ret (entry pt (pt_no vaddr))
  else ret NULL.

Definition pagedir_activate (pd : Z) : M mmu unit :=
  s <- get;;
  let pd := if pd =? NULL then init_page_dir s else pd in
  p <- lift (vtop pd);;
  modify (set_cr3 p).

Definition active_pd : M mmu Z := s <- get;; lift (ptov (cr3 s)).

Definition invalidate_pagedir (pd : Z) : M mmu unit :=
  a <- active_pd;;
  if a =? pd then pagedir_activate pd else ret tt.

Definition pagedir_set_page (pd upage kpage : Z) (writable : bool) : M mmu bool :=
  assert (pg_ofs upage =? 0);;;
  assert (pg_ofs kpage =? 0);;;
  assert (is_user_vaddr upage);;;
  s <- get;;
  p <- lift (vtop kpage);;
  assert (Z.shiftr p PTSHIFT <? init_ram_pages s);;;
  assert (negb (pd =? init_page_dir s));;;
  pte <- lookup_page pd upage true;;
  if negb (pte =? NULL) then
    e <- load_entry pte;;
    assert (Z.land e PTE_P =? 0);;;
    v <- lift (pte_create_user kpage writable);;
    store_entry pte v;;;
    ret true
  else ret false.

Definition pagedir_get_page (pd uaddr : Z) : M mmu Z :=
  assert (is_user_vaddr uaddr);;;
  pte <- lookup_page pd uaddr false;;
  if negb (pte =? NULL) then
    e <- load_entry pte;;
    if negb (Z.land e PTE_P =? 0) then
      p <- lift (pte_get_page e);; ret (u32 (p + pg_ofs uaddr))
    else ret NULL
  else ret NULL.

(** [~f] as a 32-bit mask. *)
Definition without_flag (f : Z) : Z := 2 ^ 32 - 1 - f.

Definition pagedir_clear_page (pd upage : Z) : M mmu unit :=
  assert (pg_ofs upage =? 0);;;
  assert (is_user_vaddr upage);;;
  pte <- lookup_page pd upage false;;
  if negb (pte =? NULL) then
    e <- load_entry pte;;
    if negb (Z.land e PTE_P =? 0) then
      store_entry pte (Z.land e (without_flag PTE_P));;;
      invalidate_pagedir pd
    else ret tt
  else ret tt.

Definition pagedir_test (flag pd vpage : Z) : M mmu bool :=
  pte <- lookup_page pd vpage false;;
  if negb (pte =? NULL) then
    e <- load_entry pte;; ret (negb (Z.land e flag =? 0))
  else ret false.
Definition pagedir_is_dirty (pd vpage : Z) : M mmu bool := pagedir_test PTE_D pd vpage.
Definition pagedir_is_accessed (pd vpage : Z) : M mmu bool := pagedir_test PTE_A pd vpage.

Definition pagedir_update (flag pd vpage : Z) (value : bool) : M mmu unit :=
  pte <- lookup_page pd vpage false;;
  if negb (pte =? NULL) then
    e <- load_entry pte;;
    if value then store_entry pte (Z.lor e flag)
    else
      store_entry pte (Z.land e (without_flag flag));;;
      invalidate_pagedir pd
  else ret tt.
Definition pagedir_set_dirty (pd vpage : Z) (dirty : bool) : M mmu unit :=
  pagedir_update PTE_D pd vpage dirty.
Definition pagedir_set_accessed (pd vpage : Z) (accessed : bool) : M mmu unit :=
  pagedir_update PTE_A pd vpage accessed.

Definition pagedir_is_mapped (pd vpage : Z) : M mmu bool :=
  pte <- lookup_page pd vpage false;;
  ret (negb (pte =? NULL)).

(** ** Entries *)

Definition page_ok (p : Z) : Prop := PHYS_BASE <= p /\ p + 4096 <= 2 ^ 32 /\ p mod 4096 = 0.

Lemma entry_parts_of p i : page_ok p -> 0 <= i < 1024 ->
  entry p i <> NULL /\ pg_round_down (entry p i) = p /\ Z.to_nat (pg_ofs (entry p i) / 4) = Z.to_nat i.
Proof.
  unfold page_ok, PHYS_BASE. intros (H0 & H1 & H2) Hi. unfold entry. rewrite u32_id by lia.
  destruct (page_parts p (4 * i)) as [-> ->]; [lia..|]. split_and!; [unfold NULL; lia|done|].
  f_equal. rewrite Z.mul_comm. apply Z.div_mul. lia.
Qed.

Lemma load_entry_ok s p i es e : page_ok p -> 0 <= i < 1024 -> tables s !! p = Some es ->
  es !! Z.to_nat i = Some e -> load_entry (entry p i) s = Ok (e, s).
Proof.
  intros Hp Hi Et Ee. destruct (entry_parts_of p i Hp Hi) as (_ & E1 & E2).
  unfold load_entry, get_table. rewrite E1, E2, bind_assoc, bind_get, Et.
  unfold bind, lift. cbn. by rewrite Ee.
Qed.

Lemma store_entry_ok s p i es v : page_ok p -> 0 <= i < 1024 -> tables s !! p = Some es -> 0 <= v < 2 ^ 32 ->
  store_entry (entry p i) v s = Ok (tt, set_tables (<[p := <[Z.to_nat i := v]> es]> (tables s)) s).
Proof.
  intros Hp Hi Et Hv. destruct (entry_parts_of p i Hp Hi) as (_ & E1 & E2).
  unfold store_entry, get_table. rewrite E1, E2, bind_assoc, bind_get, Et.
  unfold bind, lift. cbn. by rewrite (u32_id v) by lia.
Qed.

Lemma lor_flags p f : 0 <= p < 2 ^ 32 -> 0 < f < 4096 -> 0 < Z.lor p f < 2 ^ 32.
Proof.
  intros Hp Hf. assert (0 <= Z.lor p f) by (apply Z.lor_nonneg; lia).
  assert (Z.lor p f <> 0) by (intros E%Z.lor_eq_0_iff; lia).
  split; [lia|]. assert (Z.log2 (Z.lor p f) < 32); [|apply Z.log2_lt_pow2; lia].
  rewrite Z.log2_lor by lia. apply Z.max_lub_lt; [destruct (decide (p = 0)) as [->|]; [done|]|];
    apply Z.log2_lt_pow2; lia.
Qed.

(** What a directory entry for the page table [pt] is. *)
Lemma pde_facts pt : page_ok pt ->
  exists e, pde_create pt = Ok e /\ 0 < e < 2 ^ 32 /\ pde_get_pt e = Ok pt /\ Z.land e PTE_P <> 0.
Proof.
  intros (H0 & H1 & H2). unfold PHYS_BASE in *. pose proof (Z.mod_pos_bound pt 4096 ltac:(lia)).
  assert (pg_ofs pt = 0) as Ho by (rewrite pg_ofs_mod by lia; done).
  set (p := pt - PHYS_BASE). assert ((pt - PHYS_BASE) mod 4096 = 0) as Hp.
  { unfold PHYS_BASE. Z.to_euclidean_division_equations; lia. }
  unfold pde_create, vtop, is_kernel_vaddr. rewrite Ho, (proj2 (Z.leb_le PHYS_BASE pt)) by (unfold PHYS_BASE; lia).
  cbn [res_assert res_bind Z.eqb]. rewrite u32_id by (unfold PHYS_BASE; lia). fold p.
  rewrite <- !Z.lor_assoc. change (Z.lor PTE_U (Z.lor PTE_P PTE_W)) with 7.
  destruct (entry_parts p 7) as [Ha Hf]; [unfold p, PHYS_BASE; lia|exact Hp|lia|].
  eexists. split; [reflexivity|]. unfold pde_get_pt. rewrite (Hf PTE_P), Ha by (unfold PTE_P; lia).
  change (Z.land 7 PTE_P) with 1. cbn [Z.eqb negb res_assert res_bind].
  rewrite ptov_ok by (unfold p, PHYS_BASE; lia).
  split; [apply lor_flags; unfold p, PHYS_BASE; lia|]. split; [f_equal; unfold p; lia|done].
Qed.

(** The physical address in an entry is below 1 GB. *)
Definition pte_ok (e : Z) : Prop := 0 <= e < 2 ^ 32 /\ Z.land e PTE_ADDR < 2 ^ 30.

Definition present (e : Z) : bool := negb (Z.land e PTE_P =? 0).

Lemma pte_facts k w : page_ok k ->
  exists e, pte_create_user k w = Ok e /\ pte_ok e /\ present e = true /\ pte_get_page e = Ok k /\
    Z.land e PTE_ADDR = k - PHYS_BASE /\ (Z.land e PTE_W =? 0) = negb w /\
    Z.land e PTE_D = 0 /\ Z.land e PTE_A = 0.
Proof.
  intros (H0 & H1 & H2). unfold PHYS_BASE in *.
  assert (pg_ofs k = 0) as Ho by (rewrite pg_ofs_mod by lia; done).
  set (p := k - PHYS_BASE). assert ((k - PHYS_BASE) mod 4096 = 0) as Hp.
  { unfold PHYS_BASE. Z.to_euclidean_division_equations; lia. }
  unfold pte_create_user, pte_create_kernel, vtop, is_kernel_vaddr.
  rewrite Ho, (proj2 (Z.leb_le PHYS_BASE k)) by (unfold PHYS_BASE; lia).
  cbn [res_assert res_bind Z.eqb]. rewrite u32_id by (unfold PHYS_BASE; lia). fold p.
  rewrite <- !Z.lor_assoc. set (f := Z.lor PTE_P _).
  assert (0 < f < 4096) as Hf by (by destruct w).
  destruct (entry_parts p f) as [Ha Hg]; [unfold p, PHYS_BASE; lia|exact Hp|lia|].
  eexists. split; [reflexivity|]. unfold present, pte_get_page, pte_ok. rewrite Ha, !Hg by (by vm_compute).
  rewrite ptov_ok by (unfold p, PHYS_BASE; lia).
  pose proof (lor_flags p f ltac:(unfold p, PHYS_BASE; lia) Hf).
  split_and!; try (by destruct w); try (unfold p, PHYS_BASE in *; lia). f_equal. unfold p. lia.
Qed.

(** ** The page walk *)

Definition table_ok (es : list Z) : Prop := length es = 1024%nat /\ Forall pte_ok es.

(** The page table of the [i]-th user entry of a directory with entries [es]. *)
Definition dir_entry (s : mmu) (pd : Z) (e pt : Z) : Prop :=
  pde_create pt = Ok e /\ page_ok pt /\ pt <> pd /\ used (frames s) pt /\
  exists ts, tables s !! pt = Some ts /\ table_ok ts.

Record dir_wf (s : mmu) (pd : Z) (es : list Z) : Prop := DirWf {
  dw_page : page_ok pd;
  dw_used : used (frames s) pd;
  dw_entries : tables s !! pd = Some es /\ length es = 1024%nat;
  dw_pde i e : 0 <= i < 768 -> es !! Z.to_nat i = Some e -> e = 0 \/ exists pt, dir_entry s pd e pt;
  dw_inj i j e : 0 <= i < 768 -> 0 <= j < 768 -> es !! Z.to_nat i = Some e -> es !! Z.to_nat j = Some e ->
    e <> 0 -> i = j
}.

(** The allocator, above [PHYS_BASE], and the active directory. *)
Record mmu_wf (s : mmu) : Prop := MmuWf {
  mw_pools : pools_wf (frames s);
  mw_high : PHYS_BASE <= base (kernel_pool (frames s)) /\ PHYS_BASE <= base (user_pool (frames s));
  mw_cr3 : 0 <= cr3 s < 2 ^ 30
}.

(** The page table and the entry of a user address, if it has one. *)
Definition walk (s : mmu) (pd va : Z) : option (Z * Z) :=
  es ← tables s !! pd;
  e ← es !! Z.to_nat (pd_no va);
  if e =? 0 then None
  else
    match pde_get_pt e with
    | Ok pt => ts ← tables s !! pt; e' ← ts !! Z.to_nat (pt_no va); Some (pt, e')
    | _ => None
    end.

(** The kernel address of the byte at a user address. *)
Definition translate (s : mmu) (pd va : Z) : option Z :=
  p ← walk s pd va;
  if present p.2 then Some (Z.land p.2 PTE_ADDR + PHYS_BASE + pg_ofs va) else None.

Definition same_page (va va' : Z) : Prop := va / 4096 = va' / 4096.

#[export] Instance same_page_dec va va' : Decision (same_page va va').
Proof. unfold same_page. apply _. Defined.

Lemma user_parts va : 0 <= va < PHYS_BASE ->
  va = pd_no va * 2 ^ 22 + pt_no va * 2 ^ 12 + pg_ofs va /\
  0 <= pd_no va < 768 /\ 0 <= pt_no va < 1024 /\ 0 <= pg_ofs va < 4096.
Proof. unfold PHYS_BASE. intros Hv. pose proof (vaddr_parts va ltac:(lia)). lia. Qed.

Lemma same_page_parts va va' : 0 <= va < PHYS_BASE -> 0 <= va' < PHYS_BASE ->
  same_page va va' <-> pd_no va = pd_no va' /\ pt_no va = pt_no va'.
Proof.
  intros Hv Hv'. pose proof (user_parts va Hv). pose proof (user_parts va' Hv'). unfold same_page.
  Z.to_euclidean_division_equations; lia.
Qed.

Lemma walk_same s pd va va' : 0 <= va < PHYS_BASE -> 0 <= va' < PHYS_BASE -> same_page va va' ->
  walk s pd va' = walk s pd va.
Proof. intros Hv Hv' [E1 E2]%same_page_parts; [|done..]. unfold walk. by rewrite E1, E2. Qed.

(** What is behind a directory entry. *)
Lemma walk_cases s pd es va : dir_wf s pd es -> 0 <= va < PHYS_BASE ->
  exists e, es !! Z.to_nat (pd_no va) = Some e /\
  ((e = 0 /\ walk s pd va = None) \/
   exists pt ts e', dir_entry s pd e pt /\ pde_get_pt e = Ok pt /\ e <> 0 /\
     tables s !! pt = Some ts /\ table_ok ts /\ ts !! Z.to_nat (pt_no va) = Some e' /\
     walk s pd va = Some (pt, e')).
Proof.
  intros Hw Hv. destruct (user_parts va Hv) as (_ & Hpd & Hpt & _). destruct (dw_entries s pd es Hw) as [Ees Hl].
  destruct (lookup_lt_is_Some_2 es (Z.to_nat (pd_no va))) as [e Ee]; [lia|]. exists e. split; [done|].
  unfold walk. rewrite Ees. cbn [mbind option_bind]. rewrite Ee. cbn [mbind option_bind].
  destruct (dw_pde s pd es Hw _ e Hpd Ee) as [->|(pt & Hd)]; [by left|right].
  pose proof Hd as (Hc & Hp & _ & _ & ts & Et & Hts).
  destruct (pde_facts pt Hp) as (e0 & Hc' & He0 & Hg & _). rewrite Hc in Hc'. injection Hc' as <-.
  destruct (lookup_lt_is_Some_2 ts (Z.to_nat (pt_no va))) as [e' Ee']; [destruct Hts; lia|].
  exists pt, ts, e'. rewrite (proj2 (Z.eqb_neq e 0)), Hg by lia. rewrite Et. cbn [mbind option_bind].
  rewrite Ee'. split_and!; done || lia.
Qed.

(** [lookup_page] without creation is the walk. *)
Lemma lookup_page_ok s pd es va : dir_wf s pd es -> 0 <= va < PHYS_BASE ->
  (walk s pd va = None /\ lookup_page pd va false s = Ok (NULL, s)) \/
  exists pt ts e, walk s pd va = Some (pt, e) /\ lookup_page pd va false s = Ok (entry pt (pt_no va), s) /\
    tables s !! pt = Some ts /\ table_ok ts /\ page_ok pt /\ pt <> pd /\
    ts !! Z.to_nat (pt_no va) = Some e.
Proof.
  intros Hw Hv. destruct (user_parts va Hv) as (_ & Hpd & Hpt & _).
  pose proof (dw_page s pd es Hw) as Hp. destruct (dw_entries s pd es Hw) as [Ees _].
  destruct (walk_cases s pd es va Hw Hv) as (e & Ee & Hc). unfold lookup_page.
  assert (pd <> 0) by (unfold page_ok, PHYS_BASE in Hp; lia).
  cassert ltac:(by rewrite (proj2 (Z.eqb_neq pd NULL))). cassert ltac:(done).
  crun (load_entry_ok s pd (pd_no va) es e Hp ltac:(lia) Ees Ee).
  destruct Hc as [[-> Hn]|(pt & ts & e' & (_ & Hpt' & Hne & _) & Hg & He0 & Et & Hts & Ee' & Hwk)].
  - left. done.
  - right. exists pt, ts, e'. rewrite (proj2 (Z.eqb_neq e 0)) by done. rewrite bind_ret.
    crun (load_entry_ok s pd (pd_no va) es e Hp ltac:(lia) Ees Ee).
    rewrite (bind_ok _ _ s pt s) by (unfold lift; by rewrite Hg). done.
Qed.

Lemma pte_addr e : pte_ok e -> Z.land e PTE_ADDR = 4096 * (e / 4096) /\
  0 <= Z.land e PTE_ADDR <= 2 ^ 30 - 4096.
Proof.
  intros [H0 H1]. change PTE_ADDR with (2 ^ 32 - 1 - PGMASK) in *. rewrite land_not_pgmask in * by done.
  Z.to_euclidean_division_equations; lia.
Qed.

Lemma pte_get_page_ok e : pte_ok e -> pte_get_page e = Ok (Z.land e PTE_ADDR + PHYS_BASE).
Proof.
  intros [H0 H1]. apply ptov_ok. split; [|done]. apply Z.land_nonneg. by right.
Qed.

(** [pagedir_get_page] is the translation. *)
Lemma get_page_ok s pd es va : dir_wf s pd es -> 0 <= va < PHYS_BASE ->
  pagedir_get_page pd va s = Ok (match translate s pd va with Some k => k | None => NULL end, s).
Proof.
  intros Hw Hv. unfold pagedir_get_page, translate.
  cassert ltac:(unfold is_user_vaddr; apply Z.ltb_lt; lia).
  destruct (lookup_page_ok s pd es va Hw Hv) as [[-> E]|(pt & ts & e & -> & E & Et & Hts & Hp & _ & Ee)].
  - by crun E.
  - crun E. destruct (user_parts va Hv) as (_ & _ & Hpt & Ho).
    destruct (entry_parts_of pt (pt_no va) Hp Hpt) as (Hnull & _ & _).
    rewrite (proj2 (Z.eqb_neq _ NULL)) by done. cbn [negb].
    crun (load_entry_ok s pt (pt_no va) ts e Hp Hpt Et Ee). cbn [mbind option_bind snd]. fold (present e).
    destruct (present e); [|done]. pose proof (Forall_lookup_1 _ _ _ _ (proj2 Hts) Ee) as He.
    rewrite (bind_ok _ _ s _ s) by (unfold lift; rewrite pte_get_page_ok by done; reflexivity).
    unfold ret. pose proof (pte_addr e He).
    rewrite u32_id by (unfold PHYS_BASE; lia). done.
Qed.

(** ** Changing one entry *)

(** The pages a directory consists of. *)
Definition owned (s : mmu) (pd : Z) (es : list Z) (p : Z) : Prop :=
  p = pd \/ exists i e, 0 <= i < 768 /\ es !! Z.to_nat i = Some e /\ dir_entry s pd e p.

(** Pages in use that are not part of the directory stay as they are. *)
Definition others_kept (s : mmu) (pd : Z) (es : list Z) (s' : mmu) : Prop :=
  forall p, used (frames s) p -> ~ owned s pd es p ->
    tables s' !! p = tables s !! p /\ used (frames s') p.

Definition with_entry (pt i v : Z) (ts : list Z) (s : mmu) : mmu :=
  set_tables (<[pt := <[Z.to_nat i := v]> ts]> (tables s)) s.

Lemma table_ok_insert ts i v : table_ok ts -> pte_ok v -> table_ok (<[i := v]> ts).
Proof. intros [Hl Hf] Hv. split; [by rewrite length_insert|]. by apply Forall_insert. Qed.

Lemma dir_entry_eq s pd e pt pt' : dir_entry s pd e pt -> dir_entry s pd e pt' -> pt = pt'.
Proof.
  intros (H1 & Hp & _) (H2 & Hp' & _). destruct (pde_facts pt Hp) as (a & Ha & _ & Hg & _).
  destruct (pde_facts pt' Hp') as (b & Hb & _ & Hg' & _). congruence.
Qed.

Lemma walk_store s pd es va pt e0 ts v : dir_wf s pd es -> 0 <= va < PHYS_BASE ->
  walk s pd va = Some (pt, e0) -> tables s !! pt = Some ts -> pte_ok v ->
  let s' := with_entry pt (pt_no va) v ts s in
  dir_wf s' pd es /\ others_kept s pd es s' /\
  (forall va', 0 <= va' < PHYS_BASE -> same_page va va' -> walk s' pd va' = Some (pt, v)) /\
  (forall va', 0 <= va' < PHYS_BASE -> ~ same_page va va' -> walk s' pd va' = walk s pd va').
Proof.
  intros Hw Hv Hwk Et Hvok s'. destruct (user_parts va Hv) as (_ & Hpd & Hpt & _).
  destruct (walk_cases s pd es va Hw Hv) as (e & Ee & [[_ Hn]|(pt1 & ts1 & e1 & Hd & Hg & He0 & Et1 & Hts & Ee1 & Hwk1)]);
    [congruence|]. rewrite Hwk in Hwk1. injection Hwk1 as <- <-. rewrite Et in Et1. injection Et1 as <-.
  destruct (dw_entries s pd es Hw) as [Ees Hl]. pose proof Hd as (Hc & Hp & Hne & Hu & _).
  assert (tables s' !! pd = Some es) as Ees' by (cbn; by rewrite lookup_insert_ne).
  assert (forall p e, dir_entry s pd e p -> dir_entry s' pd e p) as Hkeep.
  { intros p e' (H1 & H2 & H3 & H4 & ts' & H5 & H6). split_and!; try done. cbn.
    destruct (decide (p = pt)) as [->|]; [|rewrite lookup_insert_ne by done; eauto].
    rewrite lookup_insert_eq. eexists. split; [done|]. by apply table_ok_insert. }
  split_and!.
  - destruct Hw as [? ? ? Hpde Hinj]. split; try done. intros i e' Hi Ei.
    destruct (Hpde i e' Hi Ei) as [?|(p & Hp')]; [by left|right]. eauto.
  - intros p Hup Hno. split; [|done]. cbn. rewrite lookup_insert_ne; [done|]. intros ->. apply Hno. right.
    exists (pd_no va), e. done.
  - intros va' Hv' (E1 & E2)%same_page_parts; [|done..]. unfold walk. rewrite Ees'. cbn [mbind option_bind].
    rewrite <- E1, Ee. cbn [mbind option_bind]. rewrite (proj2 (Z.eqb_neq e 0)), Hg by done.
    cbn [tables s' with_entry set_tables]. rewrite lookup_insert_eq. cbn [mbind option_bind].
    rewrite <- E2, list_lookup_insert_eq; [done|]. destruct Hts. lia.
  - intros va' Hv' Hns. destruct (user_parts va' Hv') as (_ & Hpd' & Hpt' & _).
    destruct (walk_cases s pd es va' Hw Hv') as (e' & Ee' & Hc').
    unfold walk. rewrite Ees', Ees. cbn [mbind option_bind]. rewrite Ee'. cbn [mbind option_bind].
    destruct Hc' as [[-> _]|(pt' & ts' & e2 & Hd' & Hg' & He' & Et' & Hts' & Ee2 & _)]; [done|].
    rewrite (proj2 (Z.eqb_neq e' 0)), Hg' by done. cbn [tables s' with_entry set_tables].
    destruct (decide (pt' = pt)) as [->|Hnp]; [|by rewrite lookup_insert_ne].
    assert (e' = e) as -> by (destruct Hd as (? & _), Hd' as (? & _); congruence).
    assert (pd_no va = pd_no va') as Epd by (apply (dw_inj s pd es Hw _ _ e); done || lia).
    rewrite lookup_insert_eq, Et. cbn [mbind option_bind]. rewrite list_lookup_insert_ne; [done|].
    intros E. apply Hns, same_page_parts; [done..|]. split; [done|lia].
Qed.

(** Storing an entry through the pointer [lookup_page] returned. *)
Lemma store_found s pt va ts v : page_ok pt -> 0 <= va < PHYS_BASE -> tables s !! pt = Some ts ->
  pte_ok v -> store_entry (entry pt (pt_no va)) v s = Ok (tt, with_entry pt (pt_no va) v ts s).
Proof.
  intros Hp Hv Et [Hv0 _]. destruct (user_parts va Hv) as (_ & _ & Hpt & _). by apply store_entry_ok.
Qed.

(** ** Creating a page table *)

Lemma taken_high u s pg s' : pools_wf s -> PHYS_BASE <= base (the_pool u s) -> taken u s pg s' ->
  page_ok pg /\ base (kernel_pool s') = base (kernel_pool s) /\ base (user_pool s') = base (user_pool s).
Proof.
  intros Hwf Hb (i & b' & m & Hi & _ & _ & -> & ->).
  destruct (page_bound _ i (the_pool_wf u s Hwf) Hi) as (Hp & Hm & _).
  split; [|by destruct u]. unfold page_ok, page in *. lia.
Qed.

Lemma zeros_ok : table_ok (replicate 1024 0).
Proof. split; [done|]. apply Forall_replicate. split; [lia|done]. Qed.

Definition with_table (f : pools) (pd : Z) (es : list Z) (i e pt : Z) (s : mmu) : mmu :=
  set_tables (<[pd := <[Z.to_nat i := e]> es]> (<[pt := replicate 1024 0]> (tables s))) (set_frames f s).

Lemma new_table_ok s pd es va pt f e : mmu_wf s -> dir_wf s pd es -> 0 <= va < PHYS_BASE ->
  walk s pd va = None -> taken false (frames s) pt f -> pde_create pt = Ok e ->
  let s' := with_table f pd es (pd_no va) e pt s in
  let es' := <[Z.to_nat (pd_no va) := e]> es in
  mmu_wf s' /\ dir_wf s' pd es' /\ others_kept s pd es s' /\ page_ok pt /\ pt <> pd /\
  (forall va', 0 <= va' < PHYS_BASE -> pd_no va' = pd_no va -> walk s' pd va' = Some (pt, 0)) /\
  (forall va', 0 <= va' < PHYS_BASE -> pd_no va' <> pd_no va -> walk s' pd va' = walk s pd va').
Proof.
  intros [Hpw [Hkb Hub] Hcr] Hw Hv Hn Hg He s' es'. destruct (user_parts va Hv) as (_ & Hpd & Hpt & _).
  destruct (walk_cases s pd es va Hw Hv) as (e0 & Ee0 & [[-> _]|(? & ? & ? & _ & _ & _ & _ & _ & _ & ?)]);
    [|congruence].
  pose proof (taken_fresh false (frames s) pt f Hpw Hg) as Hfresh.
  pose proof (fun q => taken_used false (frames s) pt f q Hpw Hg) as Hused.
  destruct (taken_high false (frames s) pt f Hpw Hkb Hg) as (Hp & Hk' & Hu').
  pose proof (taken_wf false (frames s) pt f Hpw Hg) as Hpw'.
  destruct Hw as [Hpg Hus [Ees Hl] Hpde Hinj]. assert (pt <> pd) as Hne by (intros ->; by apply Hfresh).
  destruct (pde_facts pt Hp) as (e1 & He1 & Hr & Hgp & _). rewrite He in He1. injection He1 as <-.
  assert (tables s' !! pd = Some es') as Ees' by (cbn; apply lookup_insert_eq).
  assert (forall p, p <> pd -> p <> pt -> tables s' !! p = tables s !! p) as Hoth
    by (intros p H1 H2; cbn; by rewrite !lookup_insert_ne).
  assert (tables s' !! pt = Some (replicate 1024 0)) as Ept
    by (cbn; rewrite lookup_insert_ne by done; apply lookup_insert_eq).
  assert (forall p x, dir_entry s pd x p -> dir_entry s' pd x p) as Hkeep.
  { intros p x (H1 & H2 & H3 & H4 & ts & H5 & H6). split_and!; try done; [by apply Hused; right|].
    exists ts. rewrite Hoth; [done|done|]. by intros ->. }
  assert (dir_entry s' pd e pt) as Hnew.
  { split_and!; try done; [by apply Hused; left|]. eexists. split; [exact Ept|apply zeros_ok]. }
  assert (forall i x, 0 <= i < 768 -> es !! Z.to_nat i = Some x -> x <> e) as Hxe.
  { intros i x Hi Hx ->. destruct (Hpde i e Hi Hx) as [->|(p & Hd)]; [lia|].
    apply Hfresh. destruct (Hkeep p e Hd) as (Hcp & Hpp & _). destruct Hd as (_ & _ & _ & Hup & _).
    destruct (pde_facts p Hpp) as (e2 & He2 & _ & Hg2 & _). congruence. }
  split_and!; try done.
  - split; cbn; [done|by rewrite Hk', Hu'|done].
  - split; try done; [by apply Hused; right|split; [done|unfold es'; by rewrite length_insert]| |].
    + intros i x Hi. unfold es'. destruct (decide (i = pd_no va)) as [->|Hi'].
      * rewrite list_lookup_insert_eq by lia. intros [= <-]. eauto.
      * rewrite list_lookup_insert_ne by lia. intros Hx. destruct (Hpde i x Hi Hx) as [?|(p & Hd)]; [by left|eauto].
    + intros i j x Hi Hj. unfold es'. destruct (decide (i = pd_no va)) as [->|Hi'], (decide (j = pd_no va)) as [->|Hj'].
      * done.
      * rewrite list_lookup_insert_eq, list_lookup_insert_ne by lia. intros [= <-] Hx. by destruct (Hxe j e Hj Hx).
      * rewrite list_lookup_insert_ne, list_lookup_insert_eq by lia. intros Hx [= <-]. by destruct (Hxe i e Hi Hx).
      * rewrite !list_lookup_insert_ne by lia. by apply Hinj.
  - intros p Hup Hno. assert (p <> pd) by (intros ->; apply Hno; by left).
    split; [|by apply Hused; right]. apply Hoth; [done|]. by intros ->.
  - intros va' Hv' Epd. destruct (user_parts va' Hv') as (_ & _ & Hpt' & _). unfold walk.
    rewrite Ees'. cbn [mbind option_bind]. unfold es'. rewrite Epd, list_lookup_insert_eq by lia.
    cbn [mbind option_bind]. rewrite (proj2 (Z.eqb_neq e 0)), Hgp, Ept by lia. cbn [mbind option_bind].
    rewrite lookup_replicate_2; [done|lia].
  - intros va' Hv' Epd. destruct (user_parts va' Hv') as (_ & Hpd' & Hpt' & _). unfold walk.
    rewrite Ees', Ees. cbn [mbind option_bind]. unfold es'. rewrite list_lookup_insert_ne by lia.
    destruct (es !! Z.to_nat (pd_no va')) as [x|] eqn:Ex; [|done]. cbn [mbind option_bind].
    destruct (Z.eqb_spec x 0) as [|Hx0]; [done|]. destruct (Hpde _ x Hpd' Ex) as [?|(p & Hd)]; [done|].
    pose proof Hd as (Hcp & Hpp & Hpn & Hup & _). destruct (pde_facts p Hpp) as (x' & Hx' & _ & Hgx & _).
    rewrite Hcp in Hx'. injection Hx' as <-. rewrite Hgx, Hoth; [done|done|]. by intros ->.
Qed.

(** [lookup_page] with creation: memory may run out; otherwise there is an
    entry now, and no address changed its translation. *)
Definition created (s : mmu) (pd : Z) (es : list Z) (va : Z) (s' : mmu) (pt e : Z) : Prop :=
  exists es' ts, mmu_wf s' /\ dir_wf s' pd es' /\ others_kept s pd es s' /\
    (forall p, used (frames s) p -> owned s' pd es' p -> owned s pd es p) /\
    walk s' pd va = Some (pt, e) /\ tables s' !! pt = Some ts /\ page_ok pt /\
    ts !! Z.to_nat (pt_no va) = Some e /\ (present e = true -> walk s pd va = Some (pt, e)) /\
    (forall va', 0 <= va' < PHYS_BASE -> translate s' pd va' = translate s pd va').

Lemma owned_new s pd es va pt f e p : mmu_wf s -> dir_wf s pd es -> 0 <= va < PHYS_BASE ->
  taken false (frames s) pt f -> pde_create pt = Ok e -> page_ok pt ->
  used (frames s) p ->
  owned (with_table f pd es (pd_no va) e pt s) pd (<[Z.to_nat (pd_no va) := e]> es) p -> owned s pd es p.
Proof.
  intros [Hpw _ _] Hw Hv Hg He Hpt Hup [->|(i & x & Hi & Hx & Hd)]; [by left|right].
  destruct (user_parts va Hv) as (_ & Hpd & _). destruct (dw_entries s pd es Hw) as [_ Hl].
  pose proof (taken_fresh false (frames s) pt f Hpw Hg) as Hfresh.
  assert (p <> pt) as Hne by (by intros ->). pose proof Hd as (Hc & Hp & Hpn & _ & ts & Et & Hts).
  destruct (decide (i = pd_no va)) as [->|Hi'].
  - rewrite list_lookup_insert_eq in Hx by lia. injection Hx as <-. exfalso. apply Hne.
    destruct (pde_facts p Hp) as (e1 & He1 & _ & Hg1 & _).
    destruct (pde_facts pt Hpt) as (e2 & He2 & _ & Hg2 & _). congruence.
  - rewrite list_lookup_insert_ne in Hx by lia. exists i, x. split; [done|]. split; [done|].
    unfold dir_entry. split_and!; try done. exists ts. cbn in Et. by rewrite !lookup_insert_ne in Et.
Qed.

Lemma lookup_create_ok s pd es va : mmu_wf s -> dir_wf s pd es -> 0 <= va < PHYS_BASE ->
  (lookup_page pd va true s = Ok (NULL, s) /\ walk s pd va = None /\ palloc_get_page PAL_ZERO (frames s) = Ok (NULL, frames s)) \/
  exists s' pt e, lookup_page pd va true s = Ok (entry pt (pt_no va), s') /\ created s pd es va s' pt e.
Proof.
  intros Hm Hw Hv. destruct (user_parts va Hv) as (_ & Hpd & Hpt & _).
  pose proof (dw_page s pd es Hw) as Hp. destruct (dw_entries s pd es Hw) as [Ees Hl].
  destruct (walk_cases s pd es va Hw Hv) as (e & Ee & Hc). unfold lookup_page.
  assert (pd <> 0) by (unfold page_ok, PHYS_BASE in Hp; lia).
  cassert ltac:(by rewrite (proj2 (Z.eqb_neq pd NULL))).
  cassert ltac:(unfold is_user_vaddr; apply Z.ltb_lt; lia).
  crun (load_entry_ok s pd (pd_no va) es e Hp ltac:(lia) Ees Ee).
  destruct Hc as [[-> Hn]|(pt & ts & e' & (_ & Hpt' & Hne & _) & Hg & He0 & Et & Hts & Ee' & Hwk)].
  - cbn [Z.eqb]. rewrite bind_assoc.
    destruct (get_page_cases PAL_ZERO (frames s) (mw_pools s Hm) eq_refl) as [E|(pt & f & E & _ & Hg)].
    { left. rewrite (bind_ok _ _ s NULL s) by (unfold paging; rewrite E; by destruct s). done. }
    right. rewrite (bind_ok _ _ s pt (set_frames f s)) by (unfold paging; by rewrite E).
    destruct (taken_high false (frames s) pt f (mw_pools s Hm) (proj1 (mw_high s Hm)) Hg) as (Hpok & _ & _).
    assert (pt <> NULL) by (unfold page_ok, PHYS_BASE, NULL in *; lia).
    rewrite (proj2 (Z.eqb_neq pt NULL)) by done. destruct (pde_facts pt Hpok) as (e & He & Hr & Hgp & _).
    destruct (new_table_ok s pd es va pt f e Hm Hw Hv Hn Hg He)
      as (Hm' & Hw' & Hk & _ & Hne & Hwk & Hwk').
    unfold put_table. rewrite !bind_assoc, bind_modify, bind_assoc.
    rewrite (bind_ok _ _ _ e _) by (unfold lift; rewrite He; reflexivity). rewrite bind_assoc.
    crun_by ltac:(apply (store_entry_ok _ pd (pd_no va) es e Hp); [lia|cbn; by rewrite lookup_insert_ne|lia]).
    rewrite bind_ret. set (s' := with_table f pd es (pd_no va) e pt s) in *.
    lazymatch goal with |- context [set_tables ?t ?x] => change (set_tables t x) with s' end.
    assert (tables s' !! pd = Some (<[Z.to_nat (pd_no va) := e]> es)) as Ees' by apply lookup_insert_eq.
    crun_by ltac:(apply (load_entry_ok s' pd (pd_no va) _ e Hp ltac:(lia) Ees');
                  apply list_lookup_insert_eq; lia).
    rewrite (bind_ok _ _ s' pt s') by (unfold lift; by rewrite Hgp).
    exists s', pt, 0. split; [done|]. exists (<[Z.to_nat (pd_no va) := e]> es), (replicate 1024 0).
    split_and!; try done.
    + intros p Hup. by apply owned_new.
    + by apply Hwk.
    + cbn. rewrite lookup_insert_ne by done. apply lookup_insert_eq.
    + apply lookup_replicate_2. lia.
    + intros va' Hv'. unfold translate. destruct (decide (pd_no va' = pd_no va)) as [Epd|].
      * rewrite (Hwk va' Hv' Epd). destruct (walk_cases s pd es va' Hw Hv') as (x & Ex & Hx).
        rewrite Epd, Ee in Ex. injection Ex as <-. destruct Hx as [[_ ->]|(? & ? & ? & _ & _ & ? & _)]; done.
      * by rewrite (Hwk' va' Hv').
  - right. rewrite (proj2 (Z.eqb_neq e 0)) by done. rewrite bind_ret.
    crun (load_entry_ok s pd (pd_no va) es e Hp ltac:(lia) Ees Ee).
    rewrite (bind_ok _ _ s pt s) by (unfold lift; by rewrite Hg).
    exists s, pt, e'. split; [done|]. exists es, ts. by split_and!.
Qed.

(** ** Flags *)

Lemma flag_set e f : pte_ok e -> 0 < f < 4096 -> Z.land f PTE_ADDR = 0 ->
  pte_ok (Z.lor e f) /\ Z.land (Z.lor e f) PTE_ADDR = Z.land e PTE_ADDR /\ Z.land (Z.lor e f) f = f /\
  forall g, Z.land f g = 0 -> Z.land (Z.lor e f) g = Z.land e g.
Proof.
  intros [H0 H1] Hf Ha.
  assert (forall g, Z.land f g = 0 -> Z.land (Z.lor e f) g = Z.land e g) as Hg.
  { intros g Hg. by rewrite Z.land_lor_distr_l, Hg, Z.lor_0_r. }
  split_and!; [split| | |]; rewrite ?(Hg PTE_ADDR) by done; try done.
  - pose proof (lor_flags e f H0 Hf). lia.
  - rewrite Z.land_lor_distr_l, Z.land_diag. apply Z.bits_inj'. intros n _.
    rewrite Z.lor_spec, Z.land_spec. destruct (Z.testbit f n); [apply orb_true_r|].
    by rewrite andb_false_r.
Qed.

Lemma flag_clear e f : pte_ok e -> Z.land (without_flag f) PTE_ADDR = PTE_ADDR -> Z.land (without_flag f) f = 0 ->
  pte_ok (Z.land e (without_flag f)) /\
  Z.land (Z.land e (without_flag f)) PTE_ADDR = Z.land e PTE_ADDR /\
  Z.land (Z.land e (without_flag f)) f = 0 /\
  forall g, Z.land (without_flag f) g = g -> Z.land (Z.land e (without_flag f)) g = Z.land e g.
Proof.
  intros [H0 H1] Ha Hf.
  assert (forall g, Z.land (without_flag f) g = g -> Z.land (Z.land e (without_flag f)) g = Z.land e g) as Hg.
  { intros g Hg. by rewrite <- Z.land_assoc, Hg. }
  split_and!; [split| | |]; rewrite ?(Hg PTE_ADDR) by done; try done.
  - split; [apply Z.land_nonneg; lia|].
    assert (Z.land e (without_flag f) <= e); [|lia]. apply Z.ldiff_le; [lia|].
    apply Z.bits_inj'. intros n _. rewrite Z.ldiff_spec, Z.land_spec, Z.bits_0.
    destruct (Z.testbit e n); [by rewrite andb_false_r|done].
  - by rewrite <- Z.land_assoc, Hf, Z.land_0_r.
Qed.

Lemma invalidate_ok s pd : mmu_wf s -> page_ok pd -> invalidate_pagedir pd s = Ok (tt, s).
Proof.
  intros Hm (H0 & H1 & _). pose proof (mw_cr3 s Hm). unfold PHYS_BASE in *.
  unfold invalidate_pagedir, active_pd. rewrite bind_assoc, bind_get.
  rewrite (bind_ok _ _ s (cr3 s + PHYS_BASE) s) by (unfold lift; by rewrite ptov_ok).
  destruct (Z.eqb_spec (cr3 s + PHYS_BASE) pd) as [E|]; [|done]. unfold PHYS_BASE in E.
  unfold pagedir_activate. rewrite bind_get, (proj2 (Z.eqb_neq pd NULL)) by (unfold NULL; lia).
  unfold vtop, is_kernel_vaddr. rewrite (proj2 (Z.leb_le PHYS_BASE pd)) by (unfold PHYS_BASE; lia).
  cbn [res_assert res_bind]. rewrite u32_id by (unfold PHYS_BASE; lia).
  unfold bind, lift, modify. cbn. do 2 f_equal. unfold set_cr3. destruct s. cbn in *. f_equal. unfold PHYS_BASE. lia.
Qed.

(** Rewriting the entry of an address. *)
Lemma update_ok s pd es va pt ts e v : mmu_wf s -> dir_wf s pd es -> 0 <= va < PHYS_BASE ->
  walk s pd va = Some (pt, e) -> tables s !! pt = Some ts -> pte_ok v ->
  let s' := with_entry pt (pt_no va) v ts s in
  mmu_wf s' /\ dir_wf s' pd es /\ others_kept s pd es s' /\ walk s' pd va = Some (pt, v) /\
  forall va', 0 <= va' < PHYS_BASE -> translate s' pd va' =
    if decide (same_page va va') then
      if present v then Some (Z.land v PTE_ADDR + PHYS_BASE + pg_ofs va') else None
    else translate s pd va'.
Proof.
  intros Hm Hw Hv Hwk Et Hvok s'. destruct (walk_store s pd es va pt e ts v Hw Hv Hwk Et Hvok)
    as (Hw' & Hk & Hs & Hn). split_and!; [by destruct Hm|done..|by apply Hs|].
  intros va' Hv'. unfold translate. fold s' in Hs, Hn. case_decide; [by rewrite Hs|by rewrite Hn].
Qed.

(** ** The properties *)

(** The new mapping of a directory after a call. *)
Definition remapped (s : mmu) (pd : Z) (es : list Z) (va : Z) (k : option Z) (s' : mmu) : Prop :=
  mmu_wf s' /\ (exists es', dir_wf s' pd es') /\ others_kept s pd es s' /\
  forall va', 0 <= va' < PHYS_BASE -> translate s' pd va' =
    if decide (same_page va va') then (fun k => k + pg_ofs va') <$> k else translate s pd va'.

Lemma set_page_ok s pd es upage kpage w :
  mmu_wf s -> dir_wf s pd es -> pd <> init_page_dir s ->
  0 <= upage < PHYS_BASE -> upage mod 4096 = 0 ->
  page_ok kpage -> (kpage - PHYS_BASE) / 4096 < init_ram_pages s ->
  translate s pd upage = None ->
  exists b s', pagedir_set_page pd upage kpage w s = Ok (b, s') /\
    if b then remapped s pd es upage (Some kpage) s' /\
      forall va, 0 <= va < PHYS_BASE -> same_page upage va ->
        pagedir_get_page pd va s' = Ok (kpage + pg_ofs va, s')
    else s' = s /\ palloc_get_page PAL_ZERO (frames s) = Ok (NULL, frames s).
Proof.
  intros Hm Hw Hne Hv Hal Hk Hram Hnone. pose proof Hk as (Hk0 & Hk1 & Hk2). unfold PHYS_BASE in Hk0.
  unfold pagedir_set_page. cassert ltac:(rewrite pg_ofs_mod, Hal; [done|lia]).
  cassert ltac:(rewrite pg_ofs_mod, Hk2; [done|lia]).
  cassert ltac:(unfold is_user_vaddr; apply Z.ltb_lt; lia). rewrite bind_get.
  unfold vtop, is_kernel_vaddr. rewrite (proj2 (Z.leb_le PHYS_BASE kpage)) by (unfold PHYS_BASE; lia).
  cbn [res_assert res_bind]. rewrite u32_id by (unfold PHYS_BASE; lia). unfold lift at 1. cbn [res_bind].
  rewrite (bind_ok _ _ s (kpage - PHYS_BASE) s) by reflexivity.
  cassert ltac:(rewrite Z.shiftr_div_pow2 by done; by apply Z.ltb_lt).
  cassert ltac:(by rewrite (proj2 (Z.eqb_neq pd (init_page_dir s)))).
  destruct (lookup_create_ok s pd es upage Hm Hw Hv) as [(E & _ & Hfull)|(s1 & pt & e & E & es1 & ts & Hc)].
  { exists false, s. by crun E. }
  destruct Hc as (Hm1 & Hw1 & Hk1' & Hown & Hwk & Et & Hp & Ee & Hpres & Htr).
  destruct (user_parts upage Hv) as (_ & _ & Hpt & _).
  destruct (entry_parts_of pt (pt_no upage) Hp Hpt) as (Hnull & _). crun E.
  rewrite (proj2 (Z.eqb_neq _ NULL)) by done. cbn [negb].
  crun (load_entry_ok s1 pt (pt_no upage) ts e Hp Hpt Et Ee).
  assert (present e = false) as Hpr.
  { destruct (present e) eqn:Ep; [|done]. unfold translate in Hnone. rewrite (Hpres eq_refl) in Hnone.
    cbn [mbind option_bind snd] in Hnone. by rewrite Ep in Hnone. }
  cassert ltac:(unfold present in Hpr; by apply negb_false_iff in Hpr).
  destruct (pte_facts kpage w Hk) as (v & Ev & Hv' & Hpv & _ & Hav & _).
  rewrite (bind_ok _ _ s1 v s1) by (unfold lift; by rewrite Ev).
  crun (store_found s1 pt upage ts v Hp Hv Et Hv'). eexists true, _. split; [done|].
  destruct (update_ok s1 pd es1 upage pt ts e v Hm1 Hw1 Hv Hwk Et Hv') as (Hm2 & Hw2 & Hk2' & _ & Htr2).
  set (s2 := with_entry _ _ _ _ s1) in *. assert (remapped s pd es upage (Some kpage) s2) as Hre.
  { split_and!; [done|by exists es1| |].
    - intros p Hup Hno. destruct (Hk1' p Hup Hno) as [E1 Hu1]. destruct (Hk2' p Hu1) as [E2 Hu2].
      { intros Ho. by apply Hno, Hown. }
      split; [congruence|done].
    - intros va' Hva'. rewrite Htr2, Htr, Hpv, Hav by done. case_decide; [|done]. cbn. f_equal. lia. }
  split; [done|]. intros va Hva Hsame. rewrite (get_page_ok s2 pd es1 va Hw2 Hva).
  destruct Hre as (_ & _ & _ & Hre). rewrite Hre, decide_True by done. done.
Qed.

(** A directory whose user entries are all zero maps nothing. *)
Lemma empty_dir_ok s pd es : page_ok pd -> used (frames s) pd -> tables s !! pd = Some es ->
  length es = 1024%nat -> (forall i, (i < 768)%nat -> es !! i = Some 0) ->
  dir_wf s pd es /\ forall va, 0 <= va < PHYS_BASE -> translate s pd va = None.
Proof.
  intros Hp Hu Et Hl Hz. split.
  - split; [done..| |].
    + intros i e Hi. rewrite Hz by lia. intros [= <-]. by left.
    + intros i j e Hi Hj. rewrite Hz by lia. by intros [= <-].
  - intros va Hv. destruct (user_parts va Hv) as (_ & Hi & _). unfold translate, walk. rewrite Et.
    cbn [mbind option_bind]. by rewrite Hz by lia.
Qed.

Lemma create_ok s es :
  mmu_wf s -> tables s !! init_page_dir s = Some es -> length es = 1024%nat ->
  (forall i, (i < 768)%nat -> es !! i = Some 0) ->
  pagedir_create s = Ok (NULL, s) \/
  exists pd s', pagedir_create s = Ok (pd, s') /\ ~ used (frames s) pd /\ mmu_wf s' /\ dir_wf s' pd es /\
    (forall va, 0 <= va < PHYS_BASE -> translate s' pd va = None) /\
    (forall p, used (frames s') p <-> p = pd \/ used (frames s) p) /\
    (forall p, p <> pd -> tables s' !! p = tables s !! p).
Proof.
  intros [Hpw [Hkb Hub] Hcr] Et Hl Hz. unfold pagedir_create.
  destruct (get_page_cases 0 (frames s) Hpw eq_refl) as [E|(pd & f & E & Hn & Ht)].
  { left. rewrite (bind_ok _ _ s NULL s) by (unfold paging; rewrite E; by destruct s). done. }
  right. rewrite (bind_ok _ _ s pd (set_frames f s)) by (unfold paging; by rewrite E).
  rewrite (proj2 (Z.eqb_neq pd NULL)) by done. cbn [negb]. rewrite bind_assoc, bind_get, bind_assoc.
  change (has_flag 0 PAL_USER) with false in Ht.
  rewrite (bind_ok _ _ _ es (set_frames f s)) by (unfold get_table; cbn; by rewrite Et).
  destruct (taken_high false (frames s) pd f Hpw Hkb Ht) as (Hp & Hk' & Hu').
  pose proof (fun q => taken_used false (frames s) pd f q Hpw Ht) as Hused.
  set (s' := set_tables (<[pd := es]> (tables s)) (set_frames f s)). exists pd, s'. split; [done|].
  destruct (empty_dir_ok s' pd es Hp) as [Hw Htr]; try done.
  { by apply Hused; left. }
  { apply lookup_insert_eq. }
  split_and!; try done.
  - by apply (taken_fresh false (frames s) pd f).
  - split; cbn; [by apply (taken_wf false (frames s) pd f)|by rewrite Hk', Hu'|done].
  - intros p Hne. cbn. by rewrite lookup_insert_ne.
Qed.

(** C19: [pagedir_set_page] of an unmapped page maps exactly that page, and
    [pagedir_get_page] then finds it; when no page table can be allocated it
    returns false and nothing changes; pages in use that are not part of the
    directory are never touched. *)
Theorem pagedir_set_page_correct s pd es upage kpage w :
  mmu_wf s -> dir_wf s pd es -> pd <> init_page_dir s ->
  0 <= upage < PHYS_BASE -> upage mod 4096 = 0 ->
  page_ok kpage -> (kpage - PHYS_BASE) / 4096 < init_ram_pages s ->
  translate s pd upage = None ->
  exists b s', pagedir_set_page pd upage kpage w s = Ok (b, s') /\
    if b then remapped s pd es upage (Some kpage) s' /\
      forall va, 0 <= va < PHYS_BASE -> same_page upage va ->
        pagedir_get_page pd va s' = Ok (kpage + pg_ofs va, s')
    else s' = s /\ palloc_get_page PAL_ZERO (frames s) = Ok (NULL, frames s).
Proof. intros. by apply set_page_ok. Qed.

Lemma test_ok f s pd es va : dir_wf s pd es -> 0 <= va < PHYS_BASE ->
  pagedir_test f pd va s
  = Ok (match walk s pd va with Some (_, e) => negb (Z.land e f =? 0) | None => false end, s).
Proof.
  intros Hw Hv. unfold pagedir_test.
  destruct (lookup_page_ok s pd es va Hw Hv) as [[-> E]|(pt & ts & e & -> & E & Et & Hts & Hp & _ & Ee)]; crun E.
  - done.
  - destruct (user_parts va Hv) as (_ & _ & Hpt & _).
    destruct (entry_parts_of pt (pt_no va) Hp Hpt) as (Hnull & _ & _).
    rewrite (proj2 (Z.eqb_neq _ NULL)) by done. cbn [negb].
    by crun (load_entry_ok s pt (pt_no va) ts e Hp Hpt Et Ee).
Qed.

(** A flag that is no address bit and not the present bit. *)
Record is_flag (f : Z) : Prop := IsFlag {
  if_range : 0 < f < 4096;
  if_addr : Z.land f PTE_ADDR = 0 /\ Z.land (without_flag f) PTE_ADDR = PTE_ADDR;
  if_self : Z.land (without_flag f) f = 0;
  if_present : Z.land f PTE_P = 0 /\ Z.land (without_flag f) PTE_P = PTE_P
}.
Lemma dirty_flag : is_flag PTE_D.
Proof. by split. Qed.
Lemma accessed_flag : is_flag PTE_A.
Proof. by split. Qed.

(** The entry of [va] got the flag set or cleared; nothing else changed. *)
Definition flagged (f : Z) (s : mmu) (pd : Z) (es : list Z) (va : Z) (value : bool) (s' : mmu) : Prop :=
  mmu_wf s' /\ dir_wf s' pd es /\ others_kept s pd es s' /\
  (forall va', 0 <= va' < PHYS_BASE -> translate s' pd va' = translate s pd va') /\
  pagedir_test f pd va s' = Ok (match walk s pd va with Some _ => value | None => false end, s').

Lemma flag_value e f value : pte_ok e -> is_flag f ->
  let v := if value : bool then Z.lor e f else Z.land e (without_flag f) in
  pte_ok v /\ Z.land v PTE_ADDR = Z.land e PTE_ADDR /\ present v = present e /\ negb (Z.land v f =? 0) = value.
Proof.
  intros He [Hr [Ha Ha'] Hs [Hp Hp']] v. unfold v, present. destruct value.
  - destruct (flag_set e f He Hr Ha) as (H1 & H2 & H3 & H4). rewrite H2, H3, (H4 PTE_P) by done.
    split_and!; try done. by rewrite (proj2 (Z.eqb_neq f 0)) by lia.
  - destruct (flag_clear e f He Ha' Hs) as (H1 & H2 & H3 & H4). by rewrite H2, H3, (H4 PTE_P).
Qed.

Lemma flag_update_ok f s pd es va value : is_flag f -> mmu_wf s -> dir_wf s pd es -> 0 <= va < PHYS_BASE ->
  exists s', pagedir_update f pd va value s = Ok (tt, s') /\ flagged f s pd es va value s'.
Proof.
  intros Hf Hm Hw Hv. unfold pagedir_update.
  destruct (lookup_page_ok s pd es va Hw Hv) as [[Hwk E]|(pt & ts & e & Hwk & E & Et & Hts & Hp & _ & Ee)]; crun E.
  { exists s. split; [done|]. split_and!; try done. rewrite (test_ok f s pd es va Hw Hv). by rewrite Hwk. }
  destruct (user_parts va Hv) as (_ & _ & Hpt & _).
  destruct (entry_parts_of pt (pt_no va) Hp Hpt) as (Hnull & _ & _).
  rewrite (proj2 (Z.eqb_neq _ NULL)) by done. cbn [negb].
  crun (load_entry_ok s pt (pt_no va) ts e Hp Hpt Et Ee).
  pose proof (Forall_lookup_1 _ _ _ _ (proj2 Hts) Ee) as He.
  destruct (flag_value e f value He Hf) as (Hvok & Hva & Hvp & Hvf). cbn zeta in *.
  set (v := if value then Z.lor e f else Z.land e (without_flag f)) in *.
  destruct (update_ok s pd es va pt ts e v Hm Hw Hv Hwk Et Hvok) as (Hm' & Hw' & Hk & Hwk' & Htr).
  set (s' := with_entry pt (pt_no va) v ts s) in *. exists s'. split.
  - pose proof (store_found s pt va ts v Hp Hv Et Hvok) as Est. fold s' in Est. unfold v in Est.
    destruct value; [exact Est|]. crun Est. apply invalidate_ok; [done|]. apply Hw.
  - split_and!; try done.
    + intros va' Hv'. rewrite Htr by done. case_decide as Hs; [|done]. unfold translate.
      rewrite (walk_same s pd va va'), Hwk by done. cbn [mbind option_bind snd]. by rewrite Hvp, Hva.
    + rewrite (test_ok f s' pd es va Hw' Hv). by rewrite Hwk', Hwk, Hvf.
Qed.

(** [pagedir_clear_page] unmaps exactly its page; setting or clearing the
    dirty and the accessed bit is seen by the corresponding test and changes
    no translation. *)
Theorem pagedir_update_correct s pd es va value :
  mmu_wf s -> dir_wf s pd es -> 0 <= va < PHYS_BASE ->
  (va mod 4096 = 0 ->
   exists s', pagedir_clear_page pd va s = Ok (tt, s') /\ remapped s pd es va None s') /\
  (exists s', pagedir_set_dirty pd va value s = Ok (tt, s') /\ flagged PTE_D s pd es va value s') /\
  (exists s', pagedir_set_accessed pd va value s = Ok (tt, s') /\ flagged PTE_A s pd es va value s').
Proof.
  intros Hm Hw Hv. split; [|split; apply flag_update_ok; done || apply dirty_flag || apply accessed_flag].
  intros Hal. unfold pagedir_clear_page. cassert ltac:(rewrite pg_ofs_mod, Hal; [done|lia]).
  cassert ltac:(unfold is_user_vaddr; apply Z.ltb_lt; lia).
  assert (translate s pd va = None -> remapped s pd es va None s) as Hsame.
  { intros Hn. split_and!; try done; [by exists es|]. intros va' Hv'. case_decide as Hs; [|done]. cbn.
    unfold translate in *. rewrite (walk_same s pd va va') by done.
    destruct (walk s pd va) as [[pt e]|]; [|done]. cbn in *. by destruct (present e). }
  destruct (lookup_page_ok s pd es va Hw Hv) as [[Hwk E]|(pt & ts & e & Hwk & E & Et & Hts & Hp & _ & Ee)]; crun E.
  { exists s. split; [done|]. apply Hsame. unfold translate. by rewrite Hwk. }
  destruct (user_parts va Hv) as (_ & _ & Hpt & _).
  destruct (entry_parts_of pt (pt_no va) Hp Hpt) as (Hnull & _ & _).
  rewrite (proj2 (Z.eqb_neq _ NULL)) by done. cbn [negb].
  crun (load_entry_ok s pt (pt_no va) ts e Hp Hpt Et Ee). fold (present e).
  destruct (present e) eqn:Epr.
  2: { exists s. split; [done|]. apply Hsame. unfold translate. rewrite Hwk. cbn. by rewrite Epr. }
  pose proof (Forall_lookup_1 _ _ _ _ (proj2 Hts) Ee) as He.
  destruct (flag_clear e PTE_P He eq_refl eq_refl) as (Hvok & _ & Hvp & _).
  destruct (update_ok s pd es va pt ts e _ Hm Hw Hv Hwk Et Hvok) as (Hm' & Hw' & Hk & _ & Htr).
  eexists. split; [crun (store_found s pt va ts _ Hp Hv Et Hvok); apply invalidate_ok; [done|apply Hw]|].
  split_and!; [done|by exists es|done|]. intros va' Hv'. rewrite Htr by done. unfold present. by rewrite Hvp.
Qed.

(** ** Destroying a directory *)

(** The pages the present entries of a table point to. *)
Fixpoint pages_of (ts : list Z) : list Z :=
  match ts with
  | [] => []
  | e :: ts => if present e then (Z.land e PTE_ADDR + PHYS_BASE) :: pages_of ts else pages_of ts
  end.

(** The page tables of the entries of a directory and the pages they map. *)
Fixpoint dir_pages (t : gmap Z (list Z)) (es : list Z) : list Z :=
  match es with
  | [] => []
  | e :: es =>
      match (if present e then pde_get_pt e else Panic) with
      | Ok pt => pages_of (default [] (t !! pt)) ++ pt :: dir_pages t es
      | _ => dir_pages t es
      end
  end.

(** The pages [ps] were freed, and nothing else. *)
Definition freed (ps : list Z) (f f' : pools) : Prop :=
  pools_wf f' /\ forall q, used f' q <-> used f q /\ q ∉ ps.

Lemma freed_nil f : pools_wf f -> freed [] f f.
Proof. intros Hf. split; [done|]. intros q. set_solver. Qed.

Lemma freed_app ps qs f1 f2 f3 : freed ps f1 f2 -> freed qs f2 f3 -> freed (ps ++ qs) f1 f3.
Proof. intros [_ H1] [Hw H2]. split; [done|]. intros q. rewrite H2, H1, elem_of_app. tauto. Qed.

Lemma free_one f p : pools_wf f -> used f p ->
  exists f', palloc_free_page p f = Ok (tt, f') /\ freed [p] f f'.
Proof.
  intros Hf Hp. destruct (@pa_free_ok pools palloc_allocator f p Hf Hp) as [f' E].
  pose proof (@pa_free_wf pools palloc_allocator f p f' Hf Hp E) as Hw.
  pose proof (fun q => @pa_free_used pools palloc_allocator f p f' q Hf Hp E) as Hq. cbn in E, Hw, Hq.
  unfold free_page in E. apply res_bind_inv in E as ([[] f1] & E1 & [= <-]). exists f1.
  split; [done|]. split; [done|]. intros q. rewrite Hq, list_elem_of_singleton. tauto.
Qed.

Lemma destroy_table_ok n : forall s pt ts i, page_ok pt -> tables s !! pt = Some ts -> table_ok ts ->
  (i + n = 1024)%nat -> pools_wf (frames s) ->
  NoDup (pages_of (drop i ts)) -> (forall q, q ∈ pages_of (drop i ts) -> used (frames s) q) ->
  exists f, destroy_table n pt (Z.of_nat i) s = Ok (tt, set_frames f s) /\
    freed (pages_of (drop i ts)) (frames s) f.
Proof.
  induction n as [|n IH]; intros s pt ts i Hp Et Hts Hn Hf Hnd Hu; cbn [destroy_table].
  - exists (frames s). rewrite drop_ge by (destruct Hts; lia). split; [by destruct s|by apply freed_nil].
  - destruct (lookup_lt_is_Some_2 ts i) as [e Ee]; [destruct Hts; lia|].
    crun_by ltac:(apply (load_entry_ok s pt (Z.of_nat i) ts e Hp); [lia|done|by rewrite Nat2Z.id]).
    pose proof (Forall_lookup_1 _ _ _ _ (proj2 Hts) Ee) as He.
    rewrite (drop_S ts e i Ee) in Hnd, Hu |- *. cbn [pages_of] in Hnd, Hu |- *. fold (present e).
    replace (Z.of_nat i + 1) with (Z.of_nat (S i)) by lia. destruct (present e).
    + apply NoDup_cons in Hnd as [Hni Hnd].
      destruct (free_one (frames s) (Z.land e PTE_ADDR + PHYS_BASE) Hf) as (f1 & E1 & Hf1); [set_solver|].
      rewrite !bind_assoc. rewrite (bind_ok _ _ s _ s) by (unfold lift; rewrite pte_get_page_ok by done; reflexivity).
      rewrite (bind_ok _ _ s tt (set_frames f1 s)) by (unfold paging; by rewrite E1).
      destruct (IH (set_frames f1 s) pt ts (S i) Hp Et Hts ltac:(lia) (proj1 Hf1) Hnd) as (f2 & E2 & Hf2).
      { intros q Hq. apply Hf1. split; [apply Hu; set_solver|]. intros ->%list_elem_of_singleton. done. }
      exists f2. rewrite E2. split; [by destruct s|]. by apply (freed_app [_] _ _ f1).
    + rewrite bind_ret. apply IH; done || lia.
Qed.

Lemma dir_pages_pt t es k e pt : es !! k = Some e -> present e = true -> pde_get_pt e = Ok pt ->
  pt ∈ dir_pages t es.
Proof.
  revert k. induction es as [|x es IH]; intros k; [done|]. destruct k as [|k]; cbn [dir_pages].
  - intros [= ->] -> ->. set_solver.
  - intros Hk Hp Hg. destruct (if present x then pde_get_pt x else Panic); try (by eapply IH).
    apply elem_of_app. right. apply elem_of_cons. right. by eapply IH.
Qed.

Lemma dir_pages_delete t es pt : pt ∉ dir_pages t es -> dir_pages (delete pt t) es = dir_pages t es.
Proof.
  induction es as [|e es IH]; cbn [dir_pages]; [done|].
  destruct (if present e then pde_get_pt e else Panic) as [p| | |]; [|by apply IH..].
  intros Hn. assert (p <> pt) by set_solver. rewrite lookup_delete_ne, IH by set_solver. done.
Qed.

(** The user entries from [i] on can be destroyed. *)
Definition destroyable (s : mmu) (pd : Z) (es : list Z) (i : nat) : Prop :=
  forall k e, (i <= k < 768)%nat -> es !! k = Some e -> e = 0 \/
    exists pt ts, pde_create pt = Ok e /\ page_ok pt /\ pt <> pd /\ tables s !! pt = Some ts /\ table_ok ts.

Lemma destroy_dir_ok n : forall s pd es i, page_ok pd -> tables s !! pd = Some es -> length es = 1024%nat ->
  (i + n = 768)%nat -> pools_wf (frames s) -> destroyable s pd es i ->
  let ps := dir_pages (tables s) (drop i (take 768 es)) in
  NoDup ps -> (forall q, q ∈ ps -> used (frames s) q) ->
  exists s', destroy_dir n pd (Z.of_nat i) s = Ok (tt, s') /\ freed ps (frames s) (frames s') /\
    tables s' !! pd = Some es /\ (forall p, p ∉ ps -> tables s' !! p = tables s !! p).
Proof.
  induction n as [|n IH]; intros s pd es i Hp Ees Hl Hn Hf Hd ps Hnd Hu; cbn [destroy_dir].
  - exists s. unfold ps. rewrite drop_ge by (rewrite length_take; lia). split_and!; try done. by apply freed_nil.
  - destruct (lookup_lt_is_Some_2 es i) as [e Ee]; [lia|].
    crun_by ltac:(apply (load_entry_ok s pd (Z.of_nat i) es e Hp); [lia|done|by rewrite Nat2Z.id]).
    assert (take 768 es !! i = Some e) as Ei by (rewrite lookup_take_lt by lia; done).
    unfold ps in *. clear ps. rewrite (drop_S _ e i Ei) in Hnd, Hu |- *. cbn [dir_pages] in Hnd, Hu |- *.
    fold (present e). replace (Z.of_nat i + 1) with (Z.of_nat (S i)) by lia.
    set (rest := drop (S i) (take 768 es)) in *.
    destruct (Hd i e ltac:(lia) Ee) as [->|(pt & ts & Hc & Hpt & Hne & Et & Hts)].
    { change (present 0) with false in *. cbv match in Hnd, Hu |- *. rewrite bind_ret. apply IH; try (done || lia).
      intros k e' Hk. apply Hd. lia. }
    destruct (pde_facts pt Hpt) as (e' & Hc' & Hr & Hg & Hpe). rewrite Hc in Hc'. injection Hc' as <-.
    assert (present e = true) as Hpr by (unfold present; by rewrite (proj2 (Z.eqb_neq _ 0))).
    rewrite Hpr, Hg, Et in Hnd, Hu |- *. change (default [] (Some ts)) with ts in Hnd, Hu |- *.
    apply NoDup_app in Hnd as (Hnd1 & Hx & Hnd2). apply NoDup_cons in Hnd2 as [Hpn Hnd2].
    assert (forall q, q ∈ pages_of ts \/ q = pt \/ q ∈ dir_pages (tables s) rest -> used (frames s) q) as Hu'
      by (intros q Hq; apply Hu; rewrite elem_of_app, elem_of_cons; tauto).
    assert (forall q, q ∈ pages_of ts -> q <> pt /\ q ∉ dir_pages (tables s) rest) as Hx'
      by (intros q Hq; specialize (Hx q Hq); rewrite elem_of_cons in Hx; tauto).
    rewrite !bind_assoc, (bind_ok _ _ s pt s) by reflexivity.
    destruct (destroy_table_ok 1024 s pt ts 0 Hpt Et Hts eq_refl Hf) as (f1 & E1 & Hf1);
      [done|intros q Hq; apply Hu'; by left|]. rewrite drop_0 in Hf1. change (Z.of_nat 0) with 0 in E1. rewrite !bind_assoc. crun E1.
    destruct (free_one f1 pt (proj1 Hf1)) as (f2 & E2 & Hf2).
    { apply Hf1. split; [apply Hu'; tauto|]. intros Hin. by destruct (Hx' pt Hin). }
    rewrite bind_assoc, (bind_ok _ _ _ tt (set_frames f2 s)) by (unfold paging; cbn; by rewrite E2).
    unfold drop_table. rewrite bind_modify.
    set (s2 := set_tables _ _). assert (tables s2 = delete pt (tables s)) as Et2 by done.
    pose proof (freed_app _ _ _ _ _ Hf1 Hf2) as Hf12.
    destruct (IH s2 pd es (S i)) as (s' & E' & Hf' & Ees' & Hoth); try (done || lia).
    + rewrite Et2, lookup_delete_ne by done. done.
    + apply Hf2.
    + intros k e' Hk Ek. destruct (Hd k e' ltac:(lia) Ek) as [->|(pt' & ts' & Hc' & Hpt' & Hne' & Et' & Hts')];
        [by left|right]. exists pt', ts'. split_and!; try done. rewrite Et2, lookup_delete_ne; [done|]. intros ->.
      apply Hpn. destruct (pde_facts pt' Hpt') as (x & Hcx & _ & Hgx & Hpx). rewrite Hc' in Hcx. injection Hcx as <-.
      apply (dir_pages_pt _ _ (k - S i) e'); [|unfold present; by rewrite (proj2 (Z.eqb_neq _ 0))|done].
      unfold rest. rewrite lookup_drop, lookup_take_lt by lia. by replace (S i + (k - S i))%nat with k by lia.
    + rewrite Et2. fold rest. by rewrite dir_pages_delete.
    + fold rest. rewrite Et2, dir_pages_delete by done. intros q Hq. apply Hf12. split; [apply Hu'; tauto|].
      intros [Hin|Hin]%elem_of_app; [by destruct (Hx' q Hin)|]. apply list_elem_of_singleton in Hin. by subst.
    + exists s'. split; [done|]. fold rest in Hf', Hoth. rewrite Et2, dir_pages_delete in Hf', Hoth by done.
      split_and!; [|done|].
      * replace (pages_of ts ++ pt :: dir_pages (tables s) rest) with
          ((pages_of ts ++ [pt]) ++ dir_pages (tables s) rest) by (by rewrite <- app_assoc).
        by apply (freed_app _ _ _ f2).
      * intros p Hpp. rewrite elem_of_app, elem_of_cons in Hpp. rewrite Hoth by tauto. rewrite lookup_delete_ne; [done|].
        intros ->. tauto.
Qed.

(** A new page directory is a fresh page with the kernel's half of
    [init_page_dir] and maps no user address; without memory there is none
    and nothing changes. *)
Theorem pagedir_create_correct s es :
  mmu_wf s -> tables s !! init_page_dir s = Some es -> length es = 1024%nat ->
  (forall i, (i < 768)%nat -> es !! i = Some 0) ->
  pagedir_create s = Ok (NULL, s) \/
  exists pd s', pagedir_create s = Ok (pd, s') /\ ~ used (frames s) pd /\ mmu_wf s' /\ dir_wf s' pd es /\
    (forall va, 0 <= va < PHYS_BASE -> translate s' pd va = None) /\
    (forall p, used (frames s') p <-> p = pd \/ used (frames s) p) /\
    (forall p, p <> pd -> tables s' !! p = tables s !! p).
Proof. intros Hm. by apply create_ok. Qed.

(** C20: destroying a directory whose pages are in use and none mapped twice
    frees exactly the directory, its page tables and the pages they map, and
    never panics. *)
Theorem pagedir_destroy_correct s pd es :
  mmu_wf s -> dir_wf s pd es -> pd <> init_page_dir s ->
  let ps := dir_pages (tables s) (take 768 es) in
  NoDup (ps ++ [pd]) -> (forall q, q ∈ ps -> used (frames s) q) ->
  exists s', pagedir_destroy pd s = Ok (tt, s') /\ tables s' !! pd = None /\
    (forall q, used (frames s') q <-> used (frames s) q /\ q ∉ ps ++ [pd]) /\
    forall p, p ∉ ps ++ [pd] -> tables s' !! p = tables s !! p.
Proof.
  intros Hm Hw Hne ps Hnd Hu. pose proof Hw as [Hp Hup [Ees Hl] Hpde _].
  apply NoDup_app in Hnd as (Hnd & Hx & _).
  unfold pagedir_destroy. rewrite (proj2 (Z.eqb_neq pd NULL)) by (unfold page_ok, PHYS_BASE, NULL in *; lia).
  rewrite bind_get. cassert ltac:(by rewrite (proj2 (Z.eqb_neq pd (init_page_dir s)))).
  destruct (destroy_dir_ok 768 s pd es 0 Hp Ees Hl eq_refl (mw_pools s Hm)) as (s1 & E1 & Hf1 & _ & Hoth1).
  { intros k e Hk Ek. destruct (Hpde (Z.of_nat k) e ltac:(lia)) as [?|(pt & H1 & H2 & H3 & _ & ts & H5 & H6)];
      [by rewrite Nat2Z.id|by left|right]. by exists pt, ts. }
  { by rewrite drop_0. }
  { by rewrite drop_0. }
  rewrite drop_0 in Hf1, Hoth1. fold ps in Hf1, Hoth1. change (Z.of_nat 0) with 0 in E1.
  change (Z.to_nat (pd_no PHYS_BASE)) with 768%nat. crun E1. clear E1.
  destruct (free_one (frames s1) pd (proj1 Hf1)) as (f2 & E2 & Hf2).
  { apply Hf1. split; [done|]. intros Hin. apply (Hx pd Hin). set_solver. }
  rewrite (bind_ok _ _ s1 tt (set_frames f2 s1)) by (unfold paging; by rewrite E2).
  eexists. split; [done|]. cbn. split; [apply lookup_delete_eq|]. split.
  - intros q. by apply (freed_app _ _ _ (frames s1)).
  - intros p Hpp. rewrite elem_of_app, list_elem_of_singleton in Hpp.
    rewrite lookup_delete_ne by (intros ->; tauto). apply Hoth1. tauto.
Qed.

(** C35: [pagedir_is_mapped] only asks whether there is a page table: as soon
    as one page of a 4 MB region is mapped it says yes for all of them, also
    for those that [pagedir_get_page] does not find. *)
Theorem pagedir_is_mapped_imprecise s pd es va va' k :
  dir_wf s pd es -> 0 <= va < PHYS_BASE -> 0 <= va' < PHYS_BASE -> pd_no va = pd_no va' ->
  translate s pd va = Some k -> translate s pd va' = None ->
  pagedir_is_mapped pd va' s = Ok (true, s) /\ pagedir_get_page pd va' s = Ok (NULL, s).
Proof.
  intros Hw Hv Hv' Epd Hk Hn. rewrite (get_page_ok s pd es va' Hw Hv'), Hn. split; [|done].
  unfold pagedir_is_mapped.
  destruct (lookup_page_ok s pd es va' Hw Hv') as [[Hwk E]|(pt & ts & e & _ & E & _ & _ & Hp & _)].
  - exfalso. destruct (walk_cases s pd es va' Hw Hv') as (x & Ex & [[-> _]|(? & ? & ? & _ & _ & _ & _ & _ & _ & ?)]);
      [|congruence].
    unfold translate in Hk. destruct (walk_cases s pd es va Hw Hv) as (y & Ey & Hy). rewrite Epd, Ex in Ey.
    injection Ey as <-. destruct Hy as [[_ Hy]|(? & ? & ? & _ & _ & ? & _)]; [by rewrite Hy in Hk|done].
  - crun E. destruct (user_parts va' Hv') as (_ & _ & Hpt & _).
    destruct (entry_parts_of pt (pt_no va') Hp Hpt) as (Hnull & _). unfold ret.
    by rewrite (proj2 (Z.eqb_neq _ NULL)).
Qed.

(** ** An address space on a small machine *)

Module Demo.

Definition init_entries : list Z := replicate 768 0 ++ replicate 256 0x103003.

(** Before the first process, with one user page handed out. *)
Definition boot_mmu : mmu := Mmu small_pools {[0xc0002000 := init_entries]} 0x2000 0xc0002000 300.

Definition state_of {A : Type} (r : res (A * mmu)) : mmu :=
  match r with Ok (_, s) => s | _ => boot_mmu end.
Definition value_of {A : Type} (r : res (A * mmu)) : option A :=
  match r with Ok (a, _) => Some a | _ => None end.

Definition user_page : Z := 0xc0117000.
Definition dir : Z := 0xc0101000.
Definition boot1 : mmu := state_of (paging (palloc_get_page PAL_USER) boot_mmu).
Definition boot2 : mmu := state_of (pagedir_create boot1).
Definition boot3 : mmu := state_of (pagedir_set_page dir 0x8048000 user_page true boot2).

Lemma value_of_ok {A : Type} (r : res (A * mmu)) a s b :
  r = Ok (a, s) -> value_of r = Some b -> a = b /\ state_of r = s.
Proof. intros -> [= ->]. split; reflexivity. Qed.

Lemma init_entries_zero i : (i < 768)%nat -> init_entries !! i = Some 0.
Proof. intros Hi. unfold init_entries. rewrite lookup_app_l by (rewrite length_replicate; lia). by apply lookup_replicate_2. Qed.

Lemma boot1_ok : mmu_wf boot1 /\ used (frames boot1) user_page.
Proof.
  destruct (get_page_cases PAL_USER small_pools (proj1 small_pools_wf) eq_refl) as [E|(pg & f & E & _ & Ht)].
  - exfalso. assert (result (palloc_get_page PAL_USER small_pools) = Some user_page) as Hr by by_compute.
    rewrite E in Hr. discriminate Hr.
  - assert (paging (palloc_get_page PAL_USER) boot_mmu = Ok (pg, set_frames f boot_mmu)) as E1
      by (unfold paging; cbn [frames boot_mmu]; rewrite E; reflexivity).
    destruct (value_of_ok _ _ _ user_page E1) as [-> E2]; [by_compute|]. unfold boot1. rewrite E2.
    clear E E1 E2. change (has_flag PAL_USER PAL_USER) with true in Ht.
    destruct (taken_high true small_pools user_page f (proj1 small_pools_wf)) as (_ & Hk & Hu); [by_compute|exact Ht|].
    split; [split; cbn [frames set_frames]|].
    + by apply (taken_wf true small_pools user_page f (proj1 small_pools_wf)).
    + rewrite Hk, Hu. by_compute.
    + by_compute.
    + apply (taken_used true small_pools user_page f _ (proj1 small_pools_wf) Ht). by left.
Qed.

Lemma boot2_ok : mmu_wf boot2 /\ dir_wf boot2 dir init_entries /\ used (frames boot2) user_page /\
  forall va, 0 <= va < PHYS_BASE -> translate boot2 dir va = None.
Proof.
  destruct boot1_ok as [Hm Hu].
  destruct (create_ok boot1 init_entries Hm) as [E|(pd & s & E & _ & Hm' & Hw & Htr & Hus & _)];
    [by_compute|by_compute|apply init_entries_zero|..].
  - exfalso. destruct (value_of_ok _ _ _ dir E) as [Hd _]; [by_compute|]. discriminate Hd.
  - destruct (value_of_ok _ _ _ dir E) as [-> E2]; [by_compute|]. unfold boot2. rewrite E2. clear E E2.
    split_and!; try assumption. apply Hus. by right.
Qed.

Lemma boot3_ok : mmu_wf boot3 /\ (exists es, dir_wf boot3 dir es) /\ used (frames boot3) user_page.
Proof.
  destruct boot2_ok as (Hm & Hw & Hu & Htr).
  destruct (set_page_ok boot2 dir init_entries 0x8048000 user_page true Hm Hw) as (b & s & E & Hb);
    [by_compute|by_compute|by_compute|by_compute|by_compute|apply Htr; by_compute|].
  destruct (value_of_ok _ _ _ true E) as [-> E2]; [by_compute|]. unfold boot3. rewrite E2. clear E E2.
  destruct Hb as [(Hm' & Hw' & Hk & _) _]. split_and!; try assumption.
  apply (Hk user_page Hu). intros [Hd|(i & e & Hi & He & Hd)]; [discriminate Hd|].
  rewrite init_entries_zero in He by lia. injection He as <-. destruct Hd as (Hc & Hp & _).
  destruct (pde_facts user_page Hp) as (e & He & ? & _). rewrite Hc in He. injection He as <-. lia.
Qed.

Lemma boot3_dir es : dir_wf boot3 dir es -> es = default [] (tables boot3 !! dir).
Proof. intros Hw. destruct (dw_entries boot3 dir es Hw) as [E _]. by rewrite E. Qed.

Lemma pagedir_create_correct_witness :
  exists s, pagedir_create boot1 = Ok (dir, s) /\ dir_wf s dir init_entries /\ used (frames s) user_page.
Proof.
  destruct boot1_ok as [Hm Hu].
  destruct (pagedir_create_correct boot1 init_entries Hm) as [E|(pd & s & E & _ & _ & Hw & _ & Hus & _)];
    [by_compute|by_compute|apply init_entries_zero|..].
  - exfalso. destruct (value_of_ok _ _ _ dir E) as [Hd _]; [by_compute|]. discriminate Hd.
  - destruct (value_of_ok _ _ _ dir E) as [-> _]; [by_compute|]. exists s. split; [exact E|].
    split; [exact Hw|]. apply Hus. by right.
Defined.

Lemma pagedir_set_page_correct_witness :
  exists s, pagedir_set_page dir 0x8048000 user_page true boot2 = Ok (true, s) /\
    pagedir_get_page dir 0x8048abc s = Ok (0xc0117abc, s).
Proof.
  destruct boot2_ok as (Hm & Hw & Hu & Htr).
  destruct (pagedir_set_page_correct boot2 dir init_entries 0x8048000 user_page true Hm Hw) as (b & s & E & Hb);
    [by_compute|by_compute|by_compute|by_compute|by_compute|apply Htr; by_compute|].
  destruct (value_of_ok _ _ _ true E) as [-> _]; [by_compute|]. exists s. split; [exact E|].
  destruct Hb as [_ Hget]. apply (Hget 0x8048abc); by_compute.
Defined.

Lemma pagedir_update_correct_witness :
  exists s, pagedir_clear_page dir 0x8048000 boot3 = Ok (tt, s) /\ translate s dir 0x8048abc = None.
Proof.
  destruct boot3_ok as (Hm & (es & Hw) & Hu).
  destruct (pagedir_update_correct boot3 dir es 0x8048000 true Hm Hw ltac:(by_compute)) as [Hc _].
  destruct (Hc ltac:(by_compute)) as (s & E & _ & _ & _ & Htr). exists s. split; [exact E|]. clear E.
  rewrite (Htr 0x8048abc ltac:(by_compute)). by_compute.
Defined.

Lemma pagedir_destroy_correct_witness :
  exists s, pagedir_destroy dir boot3 = Ok (tt, s) /\ ~ used (frames s) user_page.
Proof.
  destruct boot3_ok as (Hm & (es & Hw) & Hu). pose proof (boot3_dir es Hw) as Hes.
  assert (dir_pages (tables boot3) (take 768 es) = [user_page; 0xc0102000]) as Hps
    by (rewrite Hes; by_compute).
  destruct (pagedir_destroy_correct boot3 dir es Hm Hw ltac:(by_compute)) as (s & E & _ & Hus & _).
  - rewrite Hps. by_compute.
  - rewrite Hps. intros q [-> | ->%list_elem_of_singleton]%elem_of_cons; [exact Hu|].
    destruct (dw_pde boot3 dir es Hw 32 0x102007 ltac:(lia)) as [He|(pt & Hc & Hp & _ & Hpu & _)];
      [rewrite Hes; by_compute|discriminate He|].
    destruct (pde_facts pt Hp) as (e & He & _ & Hg & _). rewrite Hc in He. injection He as <-.
    assert (pde_get_pt 0x102007 = Ok 0xc0102000) as Hg' by reflexivity. rewrite Hg in Hg'.
    injection Hg' as ->. exact Hpu.
  - exists s. split; [exact E|]. clear E. rewrite Hus, Hps. intros [_ Hn]. apply Hn. by left.
Defined.

Lemma pagedir_is_mapped_imprecise_witness :
  pagedir_is_mapped dir 0x8049000 boot3 = Ok (true, boot3) /\ pagedir_get_page dir 0x8049000 boot3 = Ok (NULL, boot3).
Proof.
  destruct boot3_ok as (Hm & (es & Hw) & Hu).
  apply (pagedir_is_mapped_imprecise boot3 dir es 0x8048000 0x8049000 user_page Hw); by_compute.
Defined.

End Demo.
