(* ===== verification/BlockDev.v ===== *)
(** * What a block device promises

    The interface between devices/block.c and its clients (the file system):
    reading and writing one sector of a device, and the contents they see.
    Block.v discharges it for every device that is registered there. *)

From S2P Require Import Prelude.
Local Open Scope Z_scope.

Definition BLOCK_SECTOR_SIZE : Z := 512.

Definition byte (z : Z) : Prop := 0 <= z < 256.

Definition sector_ok (b : list Z) : Prop := length b = 512%nat /\ Forall byte b.

(** The device afterwards: still well formed, with the contents [data]. *)
Definition device_with {D : Type} (wf : D -> Prop) (size : D -> Z) (contents : D -> Z -> list Z)
    (d : D) (data : Z -> list Z) (d' : D) : Prop :=
  wf d' /\ size d' = size d /\ forall j, 0 <= j < size d -> contents d' j = data j.

Class BlockDevice (D : Type) := {
  (** [block_size], [block_read] and [block_write] of the device. *)
  bd_size : D -> Z;
  bd_read : Z -> M D (list Z);
  bd_write : Z -> list Z -> M D unit;
  (** The device is well formed; the contents of a sector. *)
  bd_wf : D -> Prop;
  bd_data : D -> Z -> list Z;

  (** The sectors of an IDE disk are numbered with 28 bits. *)
  bd_size_ok d : bd_wf d -> 0 <= bd_size d <= 2 ^ 28;
  bd_data_ok d i : bd_wf d -> 0 <= i < bd_size d -> sector_ok (bd_data d i);
  bd_read_ok d i : bd_wf d -> 0 <= i < bd_size d ->
    exists d', bd_read i d = Ok (bd_data d i, d') /\ device_with bd_wf bd_size bd_data d (bd_data d) d';
  bd_write_ok d i b : bd_wf d -> 0 <= i < bd_size d -> sector_ok b ->
    exists d', bd_write i b d = Ok (tt, d') /\
      device_with bd_wf bd_size bd_data d (fun j => if decide (j = i) then b else bd_data d j) d';
  bd_past_end d i b : bd_wf d -> bd_size d <= i -> bd_read i d = Panic /\ bd_write i b d = Panic
}.
