(* ===== verification/Bytes.v ===== *)
(** * Numbers as bytes and byte arrays

    Little-endian numbers in memory and on disk, and stores into an array of
    bytes that fail outside of it. *)

From S2P Require Import Prelude BlockDev.
Local Open Scope Z_scope.

Definition le16 (z : Z) : list Z := [z mod 256; z / 256 mod 256].
Definition le32 (z : Z) : list Z := le16 (z mod 65536) ++ le16 (z / 65536).
Definition of_le (bs : list Z) : Z := foldr (fun b v => b + 256 * v) 0 bs.

(** The [n] bytes at offset [ofs]. *)
Definition slice (ofs n : Z) (bs : list Z) : list Z := take (Z.to_nat n) (drop (Z.to_nat ofs) bs).

(** [bs] with [xs] stored at offset [ofs]. *)
Definition overlay (ofs : Z) (xs bs : list Z) : list Z :=
  take (Z.to_nat ofs) bs ++ xs ++ drop (Z.to_nat ofs + length xs) bs.

(** [memcpy] into an array: a fault outside of it. *)
Definition store_bytes (ofs : Z) (xs bs : list Z) : res (list Z) :=
  if (0 <=? ofs) && (ofs + Z.of_nat (length xs) <=? Z.of_nat (length bs)) then Ok (overlay ofs xs bs) else Fault.

(** [memcpy] out of an array. *)
Definition load_bytes (ofs n : Z) (bs : list Z) : res (list Z) :=
  if (0 <=? ofs) && (ofs + n <=? Z.of_nat (length bs)) then Ok (slice ofs n bs) else Fault.

Lemma byte_mod z : byte (z mod 256).
Proof. by apply Z.mod_pos_bound. Qed.

Lemma le32_length z : length (le32 z) = 4%nat.
Proof. done. Qed.

Lemma le32_bytes z : Forall byte (le32 z).
Proof. repeat constructor; apply byte_mod. Qed.

Lemma of_le32 z rest : 0 <= z < 2 ^ 32 -> of_le (take 4 (le32 z ++ rest)) = z.
Proof.
  intros Hz. unfold le32, le16, of_le. cbn [take app foldr]. rewrite take_0. cbn [foldr].
  Z.to_euclidean_division_equations; lia. Qed.

Lemma length_slice ofs n bs : 0 <= ofs -> 0 <= n -> ofs + n <= Z.of_nat (length bs) ->
  length (slice ofs n bs) = Z.to_nat n.
Proof. intros. unfold slice. rewrite length_take, length_drop. lia. Qed.

Lemma slice_bytes ofs n bs : Forall byte bs -> Forall byte (slice ofs n bs).
Proof. intros Hb. by apply Forall_take, Forall_drop. Qed.

Lemma lookup_slice ofs n bs (k : nat) : 0 <= ofs -> Z.of_nat k < n ->
  slice ofs n bs !! k = bs !! (Z.to_nat ofs + k)%nat.
Proof. intros. unfold slice. rewrite lookup_take_lt by lia. by rewrite lookup_drop. Qed.

Lemma length_overlay ofs xs bs : 0 <= ofs -> ofs + Z.of_nat (length xs) <= Z.of_nat (length bs) ->
  length (overlay ofs xs bs) = length bs.
Proof. intros. unfold overlay. rewrite !length_app, length_take, length_drop. lia. Qed.

Lemma overlay_bytes ofs xs bs : Forall byte xs -> Forall byte bs -> Forall byte (overlay ofs xs bs).
Proof. intros. unfold overlay. by repeat apply Forall_app_2; try apply Forall_take; try apply Forall_drop. Qed.

Lemma lookup_overlay ofs xs bs (k : nat) : 0 <= ofs -> ofs + Z.of_nat (length xs) <= Z.of_nat (length bs) ->
  overlay ofs xs bs !! k =
    if decide (ofs <= Z.of_nat k < ofs + Z.of_nat (length xs)) then xs !! (k - Z.to_nat ofs)%nat else bs !! k.
Proof.
  intros H0 Hl. unfold overlay. assert (length (take (Z.to_nat ofs) bs) = Z.to_nat ofs) as Ht
    by (rewrite length_take; lia). case_decide as Hk.
  - rewrite lookup_app_r by lia. rewrite Ht, lookup_app_l by lia. done.
  - destruct (decide (Z.of_nat k < ofs)).
    + rewrite lookup_app_l by lia. by rewrite lookup_take_lt by lia.
    + rewrite lookup_app_r by lia. rewrite Ht, lookup_app_r by lia. rewrite lookup_drop. f_equal. lia.
Qed.

Lemma store_bytes_ok ofs xs bs : 0 <= ofs -> ofs + Z.of_nat (length xs) <= Z.of_nat (length bs) ->
  store_bytes ofs xs bs = Ok (overlay ofs xs bs).
Proof. intros. unfold store_bytes. by rewrite (proj2 (Z.leb_le _ _)), (proj2 (Z.leb_le _ _)) by lia. Qed.

Lemma load_bytes_ok ofs n bs : 0 <= ofs -> ofs + n <= Z.of_nat (length bs) ->
  load_bytes ofs n bs = Ok (slice ofs n bs).
Proof. intros. unfold load_bytes. by rewrite (proj2 (Z.leb_le _ _)), (proj2 (Z.leb_le _ _)) by lia. Qed.

Lemma of_le_bound bs : Forall byte bs -> 0 <= of_le bs < 256 ^ Z.of_nat (length bs).
Proof.
  induction 1 as [|b bs Hb _ IH]; [done|]. cbn [of_le foldr length] in *. unfold byte in Hb. fold (of_le bs).
  rewrite Nat2Z.inj_succ, Z.pow_succ_r by lia. lia.
Qed.

(** A number of at most four bytes. *)
Lemma of_le_slice ofs n bs : Forall byte bs -> 0 <= n <= 4 -> 0 <= of_le (slice ofs n bs) < 2 ^ 32.
Proof.
  intros Hb Hn. destruct (of_le_bound (slice ofs n bs) (slice_bytes ofs n bs Hb)) as [H0 H1]. split; [done|].
  eapply Z.lt_le_trans; [exact H1|]. change (2 ^ 32) with (256 ^ 4). apply Z.pow_le_mono_r; [lia|].
  unfold slice. rewrite length_take. lia.
Qed.

Lemma overlay_nil ofs bs : 0 <= ofs -> overlay ofs [] bs = bs.
Proof. intros. unfold overlay. cbn [length app]. by rewrite Nat.add_0_r, take_drop. Qed.

Lemma overlay_app ofs xs ys bs : 0 <= ofs -> ofs + Z.of_nat (length (xs ++ ys)) <= Z.of_nat (length bs) ->
  overlay (ofs + Z.of_nat (length xs)) ys (overlay ofs xs bs) = overlay ofs (xs ++ ys) bs.
Proof.
  intros H0 Hl. rewrite length_app in Hl. apply list_eq. intros k.
  rewrite (lookup_overlay (ofs + _)) by (rewrite ?length_overlay by lia; lia).
  rewrite !lookup_overlay by (rewrite ?length_app; lia). rewrite length_app.
  repeat case_decide; try lia; try done.
  - rewrite lookup_app_r by lia. f_equal. lia.
  - by rewrite lookup_app_l by lia.
Qed.

Lemma overlay_whole xs bs : length xs = length bs -> overlay 0 xs bs = xs.
Proof. intros E. unfold overlay. rewrite drop_ge by lia. by rewrite app_nil_r. Qed.

Lemma slice_nil ofs bs : slice ofs 0 bs = [].
Proof. done. Qed.

Lemma slice_whole n bs : n = Z.of_nat (length bs) -> slice 0 n bs = bs.
Proof. intros ->. unfold slice. rewrite Nat2Z.id. apply firstn_all. Qed.

Lemma slice_app ofs n k bs : 0 <= ofs -> 0 <= n -> 0 <= k ->
  slice ofs n bs ++ slice (ofs + n) k bs = slice ofs (n + k) bs.
Proof.
  intros. unfold slice. rewrite !Z2Nat.inj_add, <- drop_drop by lia. by rewrite take_take_drop.
Qed.
