(* ===== verification/Block.v ===== *)
(** * Block devices and partitions (devices/block.c, devices/partition.c)

    A block device is an IDE disk or a partition of another device; a device
    is known by its address.  The drive behind a disk is a parameter that
    reads back what was written (class [Drive]); ide.c only adds its check of
    the sector number.  Console messages are left out.  The last part of
    threads/init.c, which gives devices their roles, is here as well. *)

From S2P Require Import Prelude Alloc BlockDev.
Local Open Scope Z_scope.

(** An IDE drive: 512-byte sectors that keep what was written. *)
Class Drive (K : Type) := {
  dk_read : Z -> K -> list Z;
  dk_write : Z -> list Z -> K -> K;
  dk_read_ok k i : sector_ok (dk_read i k);
  dk_read_same k i b : sector_ok b -> dk_read i (dk_write i b k) = b;
  dk_read_other k i j b : i <> j -> dk_read j (dk_write i b k) = dk_read j k
}.

Inductive block_type :=
  | BLOCK_KERNEL | BLOCK_FILESYS | BLOCK_SCRATCH | BLOCK_SWAP | BLOCK_RAW | BLOCK_FOREIGN.

#[export] Instance block_type_dec : EqDecision block_type.
Proof. solve_decision. Defined.

(** [type < BLOCK_ROLE_CNT]. *)
Definition is_role (type : block_type) : bool :=
  match type with BLOCK_RAW | BLOCK_FOREIGN => false | _ => true end.

(** [ops] and [aux]: the driver and what it was registered for. *)
Inductive operations :=
  | ide_operations (disk : Z)
  | partition_operations (block start : Z).

Record block := Block {
  name : list Z;
  type : block_type;
  size : Z;
  ops : operations;
  read_cnt : Z;
  write_cnt : Z
}.

Section Code.
Context {H : Type} `{HA : Allocator H} {K : Type} `{HK : Drive K}.

(** [all_blocks], [block_by_role], the drives, and the memory behind it. *)
Record devices := Devices {
  heap : H;
  drives : gmap Z K;
  blocks : gmap Z block;
  all_blocks : list Z;
  block_by_role : list (block_type * Z)
}.

Definition set_heap (x : H) (s : devices) : devices :=
  Devices x (drives s) (blocks s) (all_blocks s) (block_by_role s).
Definition set_drives (x : gmap Z K) (s : devices) : devices :=
  Devices (heap s) x (blocks s) (all_blocks s) (block_by_role s).
Definition set_blocks (x : gmap Z block) (s : devices) : devices :=
  Devices (heap s) (drives s) x (all_blocks s) (block_by_role s).
Definition set_all_blocks (x : list Z) (s : devices) : devices :=
  Devices (heap s) (drives s) (blocks s) x (block_by_role s).
Definition set_roles (x : list (block_type * Z)) (s : devices) : devices :=
  Devices (heap s) (drives s) (blocks s) (all_blocks s) x.

Definition allocating {A : Type} (m : M H A) : M devices A :=
  fun s => r <-! m (heap s);; Ok (r.1, set_heap r.2 s).

Definition get_block (b : Z) : M devices block := s <- get;; lift (res_of_option (blocks s !! b)).
Definition put_block (b : Z) (x : block) : M devices unit := modify (fun s => set_blocks (<[b := x]> (blocks s)) s).
Definition get_drive (d : Z) : M devices K := s <- get;; lift (res_of_option (drives s !! d)).

Definition with_read_cnt (x : Z) (b : block) : block :=
  Block (name b) (type b) (size b) (ops b) x (write_cnt b).
Definition with_write_cnt (x : Z) (b : block) : block :=
  Block (name b) (type b) (size b) (ops b) (read_cnt b) x.

(** ** Roles and names *)

Definition role_of (l : list (block_type * Z)) (role : block_type) : Z :=
  match list_find (fun p => p.1 = role) l with Some (_, p) => p.2 | None => NULL end.

Definition block_get_role (role : block_type) : M devices Z :=
  assert (is_role role);;;
  gets (fun s => role_of (block_by_role s) role).

Definition block_set_role (role : block_type) (b : Z) : M devices unit :=
  assert (is_role role);;;
  modify (fun s => set_roles ((role, b) :: block_by_role s) s).

(** The elements of [all_blocks] from one device on; the end is null. *)
Definition block_first : M devices Z := gets (fun s => default NULL (head (all_blocks s))).
Definition block_next (b : Z) : M devices Z :=
  gets (fun s =>
    match list_find (eq b) (all_blocks s) with
    | Some (i, _) => default NULL (all_blocks s !! S i)
    | None => NULL
    end).

Fixpoint by_name_loop (nm : list Z) (l : list Z) : M devices Z :=
  match l with
  | [] => ret NULL
  | b :: l => x <- get_block b;; if bool_decide (nm = name x) then ret b else by_name_loop nm l
  end.
Definition block_get_by_name (nm : list Z) : M devices Z := l <- gets all_blocks;; by_name_loop nm l.

Definition block_size (b : Z) : M devices Z := x <- get_block b;; ret (size x).
Definition block_name (b : Z) : M devices (list Z) := x <- get_block b;; ret (name x).
Definition block_type_of (b : Z) : M devices block_type := x <- get_block b;; ret (type x).

(** ** Reading and writing *)

Definition check_sector (x : block) (sector : Z) : M devices unit :=
  if size x <=? sector then panic else ret tt.

(** [select_sector] checks the number; the rest is the drive. *)
Definition ide_read (d sec_no : Z) : M devices (list Z) :=
  assert (sec_no <? Z.shiftl 1 28);;;
  k <- get_drive d;; ret (dk_read sec_no k).
Definition ide_write (d sec_no : Z) (buffer : list Z) : M devices unit :=
  assert (sec_no <? Z.shiftl 1 28);;;
  k <- get_drive d;; modify (fun s => set_drives (<[d := dk_write sec_no buffer k]> (drives s)) s).

(** [n] bounds the partitions inside partitions. *)
Fixpoint read_from (n : nat) (b sector : Z) : M devices (list Z) :=
  match n with
  | O => nofuel
  | S n =>
      x <- get_block b;;
      check_sector x sector;;;
      buffer <- (match ops x with
                 | ide_operations d => ide_read d sector
                 | partition_operations b' start => read_from n b' (u32 (start + sector))
                 end);;
      x <- get_block b;;
      put_block b (with_read_cnt (u64 (read_cnt x + 1)) x);;;
      ret buffer
  end.

Fixpoint write_to (n : nat) (b sector : Z) (buffer : list Z) : M devices unit :=
  match n with
  | O => nofuel
  | S n =>
      x <- get_block b;;
      check_sector x sector;;;
      assert (negb (bool_decide (type x = BLOCK_FOREIGN)));;;
      (match ops x with
       | ide_operations d => ide_write d sector buffer
       | partition_operations b' start => write_to n b' (u32 (start + sector)) buffer
       end);;;
      x <- get_block b;;
      put_block b (with_write_cnt (u64 (write_cnt x + 1)) x)
  end.

Definition block_read (b sector : Z) : M devices (list Z) :=
  s <- get;; read_from (length (all_blocks s)) b sector.
Definition block_write (b sector : Z) (buffer : list Z) : M devices unit :=
  s <- get;; write_to (length (all_blocks s)) b sector buffer.

Definition sizeof_block : Z := 56.

Definition block_register (nm : list Z) (ty : block_type) (sz : Z) (op : operations) : M devices Z :=
  b <- allocating (al_malloc sizeof_block);;
  if b =? NULL then panic
  else
    modify (fun s => set_all_blocks (all_blocks s ++ [b]) s);;;
    put_block b (Block (take 15 nm) ty sz op 0 0);;;
    ret b.

(** ** Roles of the devices (threads/init.c) *)

Fixpoint first_of_type (role : block_type) (l : list Z) : M devices Z :=
  match l with
  | [] => ret NULL
  | b :: l => t <- block_type_of b;; if bool_decide (t = role) then ret b else first_of_type role l
  end.

Definition locate_block_device (role : block_type) (nm : option (list Z)) : M devices unit :=
  b <- (match nm with
        | Some nm => b <- block_get_by_name nm;; if b =? NULL then panic else ret b
        | None => l <- gets all_blocks;; first_of_type role l
        end);;
  if negb (b =? NULL) then block_set_role role b else ret tt.

(** ** Devices and the sectors behind them *)

(** The part of a device that reading and writing leave alone. *)
Definition static (x : block) : list Z * block_type * Z * operations := (name x, type x, size x, ops x).

Definition same_blocks (s s' : devices) : Prop :=
  heap s' = heap s /\ all_blocks s' = all_blocks s /\ block_by_role s' = block_by_role s /\
  forall b, static <$> blocks s' !! b = static <$> blocks s !! b.

Definition block_ok (s : devices) (b : Z) (x : block) : Prop :=
  0 <= size x < 2 ^ 32 /\
  match ops x with
  | ide_operations d => is_Some (drives s !! d) /\ size x <= 2 ^ 28
  | partition_operations b' start =>
      exists x', blocks s !! b' = Some x' /\ 0 <= start /\ start + size x <= size x' /\
        type x' <> BLOCK_FOREIGN
  end.

(** Every device is listed, after the device it is a partition of. *)
Record devices_wf (s : devices) : Prop := DevicesWf {
  dv_listed b x : blocks s !! b = Some x -> b ∈ all_blocks s;
  dv_known b : b ∈ all_blocks s -> is_Some (blocks s !! b);
  dv_block b x : blocks s !! b = Some x -> block_ok s b x;
  dv_order l1 b l2 x b' start : all_blocks s = l1 ++ b :: l2 -> blocks s !! b = Some x ->
    ops x = partition_operations b' start -> b' ∈ l1
}.

(** The drive a device is on, and its first sector there. *)
Fixpoint origin (n : nat) (s : devices) (b : Z) : option (Z * Z) :=
  match n with
  | O => None
  | S n =>
      x ← blocks s !! b;
      match ops x with
      | ide_operations d => Some (d, 0)
      | partition_operations b' start => p ← origin n s b'; Some (p.1, p.2 + start)
      end
  end.

Lemma same_blocks_refl s : same_blocks s s.
Proof. done. Qed.

Lemma same_blocks_trans s1 s2 s3 : same_blocks s1 s2 -> same_blocks s2 s3 -> same_blocks s1 s3.
Proof.
  intros (H1 & H2 & H3 & H4) (H5 & H6 & H7 & H8). split_and!; [congruence..|]. intros b. by rewrite H8.
Qed.

Lemma same_blocks_lookup s s' b x : same_blocks s s' -> blocks s !! b = Some x ->
  exists x', blocks s' !! b = Some x' /\ static x' = static x.
Proof.
  intros (_ & _ & _ & Hs) Hb. specialize (Hs b). rewrite Hb in Hs.
  destruct (blocks s' !! b) as [x'|]; [|done]. exists x'. split; [done|]. exact (Some_inj _ _ Hs).
Qed.

Lemma same_blocks_put s b x x' : blocks s !! b = Some x -> static x' = static x ->
  same_blocks s (set_blocks (<[b := x']> (blocks s)) s).
Proof.
  intros Hb Hx. split_and!; try done. intros c. cbn. destruct (decide (c = b)) as [->|].
  - rewrite lookup_insert_eq, Hb. exact (f_equal Some Hx).
  - by rewrite lookup_insert_ne.
Qed.

(** What is seen of a device that sits at sector [o] of the drive [k]. *)
Definition placed (n : nat) (s : devices) (b : Z) (x : block) (d o : Z) (k : K) : Prop :=
  origin n s b = Some (d, o) /\ drives s !! d = Some k /\ 0 <= o /\ o + size x <= 2 ^ 28 /\
  (forall i, 0 <= i < size x ->
     exists s', read_from n b i s = Ok (dk_read (o + i) k, s') /\ same_blocks s s' /\ drives s' = drives s) /\
  (type x <> BLOCK_FOREIGN -> forall i buf, 0 <= i < size x ->
     exists s', write_to n b i buf s = Ok (tt, s') /\ same_blocks s s' /\
       drives s' = <[d := dk_write (o + i) buf k]> (drives s)).

Lemma get_block_ok s b x : blocks s !! b = Some x -> get_block b s = Ok (x, s).
Proof. intros E. unfold get_block, get, bind, lift. cbn. by rewrite E. Qed.

Lemma check_sector_ok s x i : 0 <= i < size x -> check_sector x i s = Ok (tt, s).
Proof. intros Hi. unfold check_sector. by rewrite (proj2 (Z.leb_gt (size x) i)) by lia. Qed.

(** Counting the access is the last step. *)
Lemma counted s1 s2 b x : blocks s1 !! b = Some x -> same_blocks s1 s2 ->
  exists x', blocks s2 !! b = Some x' /\
    (forall c, same_blocks s1 (set_blocks (<[b := with_read_cnt c x']> (blocks s2)) s2)) /\
    (forall c, same_blocks s1 (set_blocks (<[b := with_write_cnt c x']> (blocks s2)) s2)).
Proof.
  intros Hb Hs. destruct (same_blocks_lookup s1 s2 b x Hs Hb) as (x' & Hb' & Hx').
  exists x'. split; [done|]. split; intros c; eapply same_blocks_trans; [exact Hs| |exact Hs|];
    by eapply same_blocks_put.
Qed.

Lemma placed_ok n s : devices_wf s -> forall b x l1 l2, blocks s !! b = Some x ->
  all_blocks s = l1 ++ b :: l2 -> (length l1 < n)%nat -> exists d o k, placed n s b x d o k.
Proof.
  intros Hwf. induction n as [|n IH]; intros b x l1 l2 Hb Hl Hn; [lia|].
  destruct (dv_block s Hwf b x Hb) as [Hsz Hops]. unfold placed. cbn [origin read_from write_to]. rewrite Hb.
  cbn [mbind option_bind]. destruct (ops x) as [d|b' st] eqn:Eops.
  - destruct Hops as [[k Hk] Hcap]. exists d, 0, k. split_and!; try (done || lia).
    + intros i Hi. destruct (counted s s b x Hb (same_blocks_refl s)) as (x' & Hb' & Hr & _).
      rewrite Hb in Hb'. injection Hb' as <-. crun (get_block_ok s b x Hb). crun (check_sector_ok s x i Hi).
      rewrite Eops. unfold ide_read. rewrite bind_assoc.
      cassert ltac:(change (Z.shiftl 1 28) with (2 ^ 28); apply Z.ltb_lt; lia).
      rewrite bind_assoc, (bind_ok _ _ s k s) by (unfold get_drive, get, bind, lift; cbn; by rewrite Hk).
      rewrite bind_ret. crun (get_block_ok s b x Hb). unfold put_block. rewrite bind_modify.
      eexists. split; [done|]. split; [apply Hr|done].
    + intros Hty i buf Hi. crun (get_block_ok s b x Hb). crun (check_sector_ok s x i Hi).
      cassert ltac:(by rewrite bool_decide_eq_false_2). rewrite Eops. unfold ide_write. rewrite bind_assoc.
      cassert ltac:(change (Z.shiftl 1 28) with (2 ^ 28); apply Z.ltb_lt; lia).
      rewrite bind_assoc, (bind_ok _ _ s k s) by (unfold get_drive, get, bind, lift; cbn; by rewrite Hk).
      rewrite bind_modify. set (s1 := set_drives _ s).
      destruct (counted s s1 b x Hb ltac:(done)) as (x' & Hb' & _ & Hw'). crun (get_block_ok s1 b x' Hb').
      eexists. split; [done|]. split; [apply Hw'|done].
  - destruct Hops as (x' & Hb' & Hst & Hfit & Hty'). pose proof (dv_order s Hwf l1 b l2 x b' st Hl Hb Eops) as Hin.
    apply list_elem_of_split in Hin as (l3 & l4 & ->).
    destruct (IH b' x' l3 (l4 ++ b :: l2) Hb') as (d & o & k & Hor & Hk & Ho & Hos & Hrd & Hwr).
    { by rewrite Hl, <- app_assoc. }
    { rewrite length_app in Hn. cbn in Hn. lia. }
    exists d, (o + st), k. rewrite Hor. split_and!; try (done || lia).
    + intros i Hi. destruct (Hrd (st + i) ltac:(lia)) as (s1 & E1 & Hs1 & Hd1).
      destruct (counted s s1 b x Hb Hs1) as (y & Hy & Hr & _). crun (get_block_ok s b x Hb).
      crun (check_sector_ok s x i Hi). rewrite Eops, u32_id by lia. crun E1. crun (get_block_ok s1 b y Hy).
      unfold put_block. rewrite bind_modify. eexists.
      split; [unfold ret; by replace (o + st + i) with (o + (st + i)) by lia|]. split; [apply Hr|done].
    + intros Hty i buf Hi. destruct (Hwr Hty' (st + i) buf ltac:(lia)) as (s1 & E1 & Hs1 & Hd1).
      destruct (counted s s1 b x Hb Hs1) as (y & Hy & _ & Hw'). crun (get_block_ok s b x Hb).
      crun (check_sector_ok s x i Hi). cassert ltac:(by rewrite bool_decide_eq_false_2).
      rewrite Eops, u32_id by lia. crun E1. crun (get_block_ok s1 b y Hy). eexists.
      split; [done|]. split; [apply Hw'|]. cbn. rewrite Hd1. by replace (o + st + i) with (o + (st + i)) by lia.
Qed.

(** Nothing but the drives and the counters of the devices differ. *)
Lemma devices_wf_same s s' : devices_wf s -> same_blocks s s' ->
  (forall d, is_Some (drives s !! d) -> is_Some (drives s' !! d)) -> devices_wf s'.
Proof.
  intros Hwf Hs Hd. pose proof Hs as (_ & Hall & _ & Hst).
  assert (forall b x', blocks s' !! b = Some x' -> exists x, blocks s !! b = Some x /\ static x' = static x) as Hback.
  { intros b x' Hx'. specialize (Hst b). rewrite Hx' in Hst. destruct (blocks s !! b) as [x|]; [|done].
    exists x. split; [done|]. exact (Some_inj _ _ Hst). }
  split.
  - intros b x' Hx'. rewrite Hall. destruct (Hback b x' Hx') as (x & Hx & _). by apply (dv_listed s Hwf b x).
  - intros b. rewrite Hall. intros [x Hx]%(dv_known s Hwf).
    destruct (same_blocks_lookup s s' b x Hs Hx) as (x' & Hx' & _). by exists x'.
  - intros b x' Hx'. destruct (Hback b x' Hx') as (x & Hx & [= _ _ Hsz Hop]).
    destruct (dv_block s Hwf b x Hx) as [H1 H2]. split; [by rewrite Hsz|]. rewrite Hop, Hsz.
    destruct (ops x) as [d|b' st]; [by split; [apply Hd|]; apply H2|].
    destruct H2 as (y & Hy & Hst0 & Hfit & Hty). destruct (same_blocks_lookup s s' b' y Hs Hy) as (y' & Hy' & [= _ Ht Hs' _]).
    exists y'. split; [done|]. rewrite Hs', Ht. done.
  - intros l1 b l2 x' b' st Hl Hx' Hop. rewrite Hall in Hl. destruct (Hback b x' Hx') as (x & Hx & [= _ _ _ Ho]).
    apply (dv_order s Hwf l1 b l2 x b' st Hl Hx). congruence.
Qed.

Lemma origin_same n s s' : same_blocks s s' -> forall b, origin n s' b = origin n s b.
Proof.
  intros (_ & _ & _ & Hst). induction n as [|n IH]; intros b; [done|]. cbn [origin]. specialize (Hst b).
  destruct (blocks s !! b) as [x|] eqn:E1, (blocks s' !! b) as [x'|] eqn:E2; try done.
  apply Some_inj in Hst. injection Hst as _ _ _ Ho. cbn [mbind option_bind]. rewrite Ho.
  destruct (ops x) as [d|b' st]; [done|]. by rewrite IH.
Qed.

(** The contents of a sector of a device. *)
Definition device_data (b : Z) (s : devices) (i : Z) : list Z :=
  match origin (length (all_blocks s)) s b with
  | Some (d, o) => match drives s !! d with Some k => dk_read (o + i) k | None => [] end
  | None => []
  end.

Definition device_size (b : Z) (s : devices) : Z :=
  match blocks s !! b with Some x => size x | None => 0 end.

Definition device_wf (b : Z) (s : devices) : Prop :=
  devices_wf s /\ exists x, blocks s !! b = Some x /\ type x <> BLOCK_FOREIGN.

Lemma device_placed b s : devices_wf s -> forall x, blocks s !! b = Some x ->
  exists d o k, placed (length (all_blocks s)) s b x d o k.
Proof.
  intros Hwf x Hx. destruct (list_elem_of_split (all_blocks s) b) as (l1 & l2 & Hl).
  { by apply (dv_listed s Hwf b x). }
  apply (placed_ok (length (all_blocks s)) s Hwf b x l1 l2 Hx Hl). rewrite Hl, length_app. cbn. lia.
Qed.

Lemma device_same b s s' x : device_wf b s -> blocks s !! b = Some x -> same_blocks s s' ->
  (forall d, is_Some (drives s !! d) -> is_Some (drives s' !! d)) ->
  device_wf b s' /\ device_size b s' = device_size b s.
Proof.
  intros [Hwf (y & Hy & Hty)] Hx Hs Hd. rewrite Hx in Hy. injection Hy as <-.
  destruct (same_blocks_lookup s s' b x Hs Hx) as (x' & Hx' & [= _ Ht Hsz _]).
  split; [split; [by apply (devices_wf_same s s')|]|].
  - exists x'. by rewrite Ht.
  - unfold device_size. by rewrite Hx, Hx', Hsz.
Qed.

(** Every registered device, foreign ones apart, is a block device. *)
#[export, refine] Instance block_device (b : Z) : BlockDevice devices := {|
  bd_size := device_size b;
  bd_read := block_read b;
  bd_write := block_write b;
  bd_wf := device_wf b;
  bd_data := device_data b
|}.
Proof.
  - intros s [Hwf (x & Hx & _)]. unfold device_size. rewrite Hx.
    destruct (device_placed b s Hwf x Hx) as (d & o & k & _ & _ & ? & ? & _).
    destruct (dv_block s Hwf b x Hx) as [? _]. lia.
  - intros s i [Hwf (x & Hx & _)] _. destruct (device_placed b s Hwf x Hx) as (d & o & k & Hor & Hk & _).
    unfold device_data. rewrite Hor, Hk. apply dk_read_ok.
  - intros s i Hd Hi. pose proof Hd as [Hwf (x & Hx & Hty)].
    destruct (device_placed b s Hwf x Hx) as (d & o & k & Hor & Hk & _ & _ & Hrd & _).
    unfold device_size in Hi. rewrite Hx in Hi. destruct (Hrd i Hi) as (s' & E & Hs & Hdr).
    exists s'. unfold block_read. rewrite bind_get. unfold device_data at 1. rewrite Hor, Hk. split; [done|].
    destruct (device_same b s s' x Hd Hx Hs) as [Hw' Hsz]; [by rewrite Hdr|]. split_and!; [done..|].
    intros j _. unfold device_data. pose proof Hs as (_ & -> & _). by rewrite (origin_same _ s s' Hs), Hdr.
  - intros s i buf Hd Hi Hbuf. pose proof Hd as [Hwf (x & Hx & Hty)].
    destruct (device_placed b s Hwf x Hx) as (d & o & k & Hor & Hk & _ & _ & _ & Hwr).
    unfold device_size in Hi. rewrite Hx in Hi. destruct (Hwr Hty i buf Hi) as (s' & E & Hs & Hdr).
    exists s'. unfold block_write. rewrite bind_get. split; [done|].
    destruct (device_same b s s' x Hd Hx Hs) as [Hw' Hsz].
    { intros d'. rewrite Hdr. destruct (decide (d' = d)) as [->|]; [by rewrite lookup_insert_eq|by rewrite lookup_insert_ne]. }
    split_and!; [done..|]. intros j _. unfold device_data. pose proof Hs as (_ & -> & _).
    rewrite (origin_same _ s s' Hs), Hor, Hdr, lookup_insert_eq, Hk. case_decide as Hj.
    + subst j. by apply dk_read_same.
    + apply dk_read_other. lia.
  - intros s i buf [Hwf (x & Hx & Hty)] Hi. unfold device_size in Hi. rewrite Hx in Hi.
    unfold block_read, block_write. rewrite !bind_get.
    assert (exists n, length (all_blocks s) = S n) as [n ->].
    { pose proof (dv_listed s Hwf b x Hx). destruct (all_blocks s); [set_solver|by eexists]. }
    cbn [read_from write_to]. rewrite !(bind_ok _ _ s x s) by by apply get_block_ok.
    unfold check_sector. by rewrite (proj2 (Z.leb_le (size x) i)).
Defined.

End Code.

(** ** A drive in memory *)

Definition zero_sector : list Z := replicate 512 0.

Definition ram_read (i : Z) (k : gmap Z (list Z)) : list Z :=
  let b := default zero_sector (k !! i) in
  if bool_decide (length b = 512%nat) && forallb (fun z => (0 <=? z) && (z <? 256)) b then b else zero_sector.

Lemma ram_check b : bool_decide (length b = 512%nat) && forallb (fun z => (0 <=? z) && (z <? 256)) b = true <->
  sector_ok b.
Proof.
  unfold sector_ok, byte. rewrite andb_true_iff, bool_decide_eq_true, forallb_forall, Forall_forall.
  setoid_rewrite andb_true_iff. setoid_rewrite Z.leb_le. setoid_rewrite Z.ltb_lt. setoid_rewrite list_elem_of_In. done.
Qed.

#[export, refine] Instance ram_drive : Drive (gmap Z (list Z)) := {| dk_read := ram_read; dk_write i b := <[i := b]> |}.
Proof.
  - intros k i. unfold ram_read. destruct (_ && _) eqn:E; [by apply ram_check|].
    split; [done|]. by apply Forall_replicate.
  - intros k i b Hb. unfold ram_read. rewrite lookup_insert_eq. change (default zero_sector (Some b)) with b.
    by rewrite (proj2 (ram_check b) Hb).
  - intros k i j b Hne. unfold ram_read. by rewrite lookup_insert_ne.
Defined.
