(* ===== verification/Partition.v ===== *)
(** * Partition tables (devices/partition.c)

    Scanning a disk for partitions registers one block device for each
    partition that lies inside the disk.  Messages are left out, with the type
    names that only they use; the recursion on extended partitions takes
    fuel. *)

From S2P Require Import Prelude Alloc BlockDev Bytes Block.
Local Open Scope Z_scope.

(** ** The code *)

(** An entry of the table: the fields that are used. *)
Record partition_table_entry := Entry { etype : Z; eoffset : Z; esize : Z }.

Definition entry_at (pt : list Z) (i : Z) : partition_table_entry :=
  let e := 446 + 16 * i in
  Entry (of_le (slice (e + 4) 1 pt)) (of_le (slice (e + 8) 4 pt)) (of_le (slice (e + 12) 4 pt)).

Definition partitions (pt : list Z) : list partition_table_entry := entry_at pt <$> [0; 1; 2; 3].
Definition signature (pt : list Z) : Z := of_le (slice 510 2 pt).

Definition is_extended (t : Z) : bool := (t =? 0x05) || (t =? 0x0f) || (t =? 0x85) || (t =? 0xc5).

Definition type_of_partition (part_type : Z) : block_type :=
  if part_type =? 0x20 then BLOCK_KERNEL
  else if part_type =? 0x21 then BLOCK_FILESYS
  else if part_type =? 0x22 then BLOCK_SCRATCH
  else if part_type =? 0x23 then BLOCK_SWAP
  else BLOCK_FOREIGN.

(** The digits of a number of at most [n] digits, as [%d] prints them. *)
Fixpoint decimal (n : nat) (z : Z) : list Z :=
  match n with
  | O => []
  | S n => (if z <? 10 then [] else decimal n (z / 10)) ++ [48 + z mod 10]
  end.

Definition sizeof_partition : Z := 8.
Definition sizeof_partition_table : Z := 512.

Section Code.
Context {H : Type} `{HA : Allocator H} {K : Type} `{HK : Drive K}.
Notation devices := (@devices H K).

Definition found_partition (b part_type start sz part_nr : Z) : M devices unit :=
  bsz <- block_size b;;
  if bsz <=? start then ret tt
  else if (u32 (start + sz) <? start) || (bsz <? u32 (start + sz)) then ret tt
  else
    p <- allocating (al_malloc sizeof_partition);;
    if p =? NULL then panic
    else
      nm <- block_name b;;
      block_register (take 15 (nm ++ decimal 10 part_nr)) (type_of_partition part_type) sz
        (partition_operations b start);;;
      ret tt.

(** The entries of a table, with [nested] for the extended partitions. *)
Fixpoint scan_entries (nested : Z -> Z -> Z -> M devices Z) (b sector primary : Z)
    (es : list partition_table_entry) (part_nr : Z) : M devices Z :=
  match es with
  | [] => ret part_nr
  | e :: es =>
      part_nr <-
        (if (esize e =? 0) || (etype e =? 0) then ret part_nr
         else if is_extended (etype e) then
           if sector =? 0 then nested (eoffset e) (eoffset e) part_nr
           else nested (u32 (eoffset e + primary)) primary part_nr
         else
           found_partition b (etype e) (u32 (eoffset e + sector)) (esize e) (i32 (part_nr + 1));;;
           ret (i32 (part_nr + 1)));;
      scan_entries nested b sector primary es part_nr
  end.

Fixpoint read_partition_table (n : nat) (b sector primary_extended_sector part_nr : Z) : M devices Z :=
  match n with
  | O => nofuel
  | S n =>
      bsz <- block_size b;;
      if bsz <=? sector then ret part_nr
      else
        p <- allocating (al_malloc sizeof_partition_table);;
        if p =? NULL then panic
        else
          pt <- block_read b 0;;
          if negb (signature pt =? 0xaa55) then allocating (al_free p);;; ret part_nr
          else
            part_nr <- scan_entries (read_partition_table n b) b sector primary_extended_sector
                         (partitions pt) part_nr;;
            allocating (al_free p);;;
            ret part_nr
  end.

Definition partition_scan (n : nat) (b : Z) : M devices unit :=
  read_partition_table n b 0 0 0;;; ret tt.

(** ** Registering a device *)

Record devices_ok (s : devices) : Prop := DevicesOk {
  do_wf : devices_wf s;
  do_heap : al_wf (heap s);
  do_live c x : blocks s !! c = Some x -> al_live (heap s) c
}.

(** The devices [news] were registered, and nothing else. *)
Definition added (s : devices) (news : list Z) (s' : devices) : Prop :=
  all_blocks s' = all_blocks s ++ news /\ drives s' = drives s /\
  (forall c y, blocks s !! c = Some y -> exists y', blocks s' !! c = Some y' /\ static y' = static y) /\
  forall q, al_live (heap s) q ->
    al_live (heap s') q /\ (blocks s !! q = None -> blocks s' !! q = None).

Lemma added_nil s : added s [] s.
Proof. split_and!; [by rewrite app_nil_r|done|eauto|done]. Qed.

Lemma added_trans s1 s2 s3 l1 l2 : added s1 l1 s2 -> added s2 l2 s3 -> added s1 (l1 ++ l2) s3.
Proof.
  intros (A1 & D1 & B1 & L1) (A2 & D2 & B2 & L2). split_and!; [by rewrite A2, A1, app_assoc|congruence| |].
  - intros c y Hc. destruct (B1 c y Hc) as (y' & Hc' & E'). destruct (B2 c y' Hc') as (z & Hz & Ez).
    exists z. split; [done|]. congruence.
  - intros q Hq. destruct (L1 q Hq) as [Hq1 N1]. destruct (L2 q Hq1) as [Hq2 N2]. tauto.
Qed.

Lemma added_same s s' : same_blocks s s' -> drives s' = drives s -> added s [] s'.
Proof.
  intros Hs Hd. pose proof Hs as (Hh & Ha & _ & Hst). split_and!; [by rewrite app_nil_r|done| |].
  - intros c y. by apply same_blocks_lookup.
  - intros q. rewrite Hh. intros Hq. split; [done|]. intros Hn. specialize (Hst q). rewrite Hn in Hst.
    by destruct (blocks s' !! q).
Qed.

(** Memory is handed out and nothing else changes, or the kernel panics. *)
Lemma malloc_or_panic n s : devices_ok s -> 0 <= n < 2 ^ 31 ->
  exists p h', allocating (al_malloc n) s = Ok (p, set_heap h' s) /\ devices_ok (set_heap h' s) /\
    added s [] (set_heap h' s) /\ (p = NULL \/ (p <> NULL /\ ~ al_live (heap s) p /\ blocks s !! p = None /\ al_live h' p)).
Proof.
  intros [Hwf Hh Hl] Hn. destruct (al_malloc_ok n (heap s) Hh Hn) as (p & h' & E & Hh' & Hp).
  assert (forall q, al_live (heap s) q -> al_live h' q) as Hlv.
  { intros q Hq. destruct Hp as [[_ Hp]|(_ & _ & Hp)]; apply Hp; [|right]; done. }
  exists p, h'. split; [unfold allocating; by rewrite E|]. split; [|].
  - split; [|done|].
    + by destruct Hwf; split.
    + intros c x Hc. by apply Hlv, (Hl c x).
  - split; [split_and!; [by rewrite app_nil_r|done|by eauto|by intros q Hq; split; [apply Hlv|]]|].
    destruct Hp as [[-> _]|(Hn0 & Hfr & Hp)]; [by left|right]. split_and!; [done|done| |apply Hp; by left].
    destruct (blocks s !! p) as [x|] eqn:Ex; [|done]. destruct Hfr. by apply (Hl p x).
Qed.

Lemma block_ok_kept (s s' : devices) b x : block_ok s b x -> drives s' = drives s ->
  (forall c y, blocks s !! c = Some y -> blocks s' !! c = Some y) -> block_ok s' b x.
Proof.
  intros [Hsz Hops] Hd Hb. split; [done|]. rewrite Hd. destruct (ops x) as [d|b' st]; [done|].
  destruct Hops as (x' & Hx' & Hr). exists x'. split; [by apply Hb|done].
Qed.

(** A new device goes to the end of the list. *)
Lemma devices_wf_register (s : devices) c x : devices_wf s -> blocks s !! c = None -> block_ok s c x ->
  devices_wf (set_blocks (<[c := x]> (blocks s)) (set_all_blocks (all_blocks s ++ [c]) s)).
Proof.
  intros Hwf Hc Hx. assert (forall b y, blocks s !! b = Some y -> <[c := x]> (blocks s) !! b = Some y) as Hkeep.
  { intros b y Hb. rewrite lookup_insert_ne; [done|]. congruence. }
  split; cbn.
  - intros b y. destruct (decide (b = c)) as [->|Hne]; [set_solver|]. rewrite lookup_insert_ne by done.
    intros Hb%(dv_listed s Hwf). set_solver.
  - intros b [[y Hb]%(dv_known s Hwf)|Hb]%elem_of_app; [by rewrite (Hkeep b y Hb)|].
    apply list_elem_of_singleton in Hb as ->. by rewrite lookup_insert_eq.
  - intros b y. destruct (decide (b = c)) as [->|Hne].
    + rewrite lookup_insert_eq. intros [= <-]. by apply (block_ok_kept s).
    + rewrite lookup_insert_ne by done. intros Hb. by apply (block_ok_kept s); [apply (dv_block s Hwf)| |].
  - intros l1 b l2 y b' st Hl Hb Ho. destruct l2 as [|z l2 _] using rev_ind.
    + apply app_inj_tail in Hl as [<- <-]. rewrite lookup_insert_eq in Hb. injection Hb as <-.
      destruct Hx as [_ Hx]. rewrite Ho in Hx. destruct Hx as (x' & Hx' & _). by apply (dv_listed s Hwf b' x').
    + rewrite app_comm_cons, app_assoc in Hl. apply app_inj_tail in Hl as [Hl <-].
      assert (b <> c) as Hne.
      { intros ->. destruct (dv_known s Hwf c) as [y' Hy']; [rewrite Hl; set_solver|congruence]. }
      rewrite lookup_insert_ne in Hb by done. by apply (dv_order s Hwf l1 b l2 y b' st).
Qed.

Lemma register_ok nm ty sz op (s : devices) : devices_ok s -> block_ok s 0 (Block (take 15 nm) ty sz op 0 0) ->
  block_register nm ty sz op s = Panic \/
  exists c s', block_register nm ty sz op s = Ok (c, s') /\ devices_ok s' /\ added s [c] s' /\
    blocks s' !! c = Some (Block (take 15 nm) ty sz op 0 0).
Proof.
  intros Hok Hx. unfold block_register.
  destruct (malloc_or_panic sizeof_block s Hok ltac:(done)) as (p & h' & E & Hok' & Ha0 & Hp). crun E.
  destruct Hp as [->|(Hn & Hnew & Hfr & Hlive)]; [by left|right]. rewrite (proj2 (Z.eqb_neq p NULL)) by done.
  rewrite bind_modify. unfold put_block. rewrite bind_modify. eexists p, _. split; [done|].
  destruct Hok' as [Hwf Hh Hl]. split_and!.
  - split; [by apply (devices_wf_register (set_heap h' s) p)|done|]. cbn. intros c y.
    destruct (decide (c = p)) as [->|]; [by intros _|]. rewrite lookup_insert_ne by done. apply Hl.
  - split_and!; [done|done| |].
    + intros c y Hc. cbn. rewrite lookup_insert_ne; [by exists y|]. congruence.
    + intros q Hq. split; [by apply Ha0|]. intros Hq0. cbn. rewrite lookup_insert_ne; [done|]. by intros ->.
  - apply lookup_insert_eq.
Qed.

(** ** Scanning a table *)

(** An entry for a partition that lies inside a device of [bsz] sectors. *)
Definition wanted (bsz : Z) (e : partition_table_entry) : bool :=
  negb ((esize e =? 0) || (etype e =? 0)) && (eoffset e <? bsz) && (eoffset e + esize e <=? bsz).

Definition entry_ok (e : partition_table_entry) : Prop :=
  0 <= eoffset e < 2 ^ 32 /\ 0 <= esize e < 2 ^ 32 /\ is_extended (etype e) = false.

(** The device [c] is the partition of [b] that [e] describes. *)
Definition registered (b : Z) (s : devices) (c : Z) (e : partition_table_entry) : Prop :=
  exists y, blocks s !! c = Some y /\ type y = type_of_partition (etype e) /\ size y = esize e /\
    ops y = partition_operations b (eoffset e).

Lemma registered_kept b s l s' c e : added s l s' -> registered b s c e -> registered b s' c e.
Proof.
  intros (_ & _ & Hb & _) (y & Hy & H1 & H2 & H3). destruct (Hb c y Hy) as (y' & Hy' & [= _ E1 E2 E3]).
  exists y'. split_and!; congruence.
Qed.

Lemma found_partition_ok s b x e nr : devices_ok s -> blocks s !! b = Some x -> type x <> BLOCK_FOREIGN ->
  entry_ok e -> (esize e =? 0) || (etype e =? 0) = false ->
  found_partition b (etype e) (eoffset e) (esize e) nr s = Panic \/
  exists s' news, found_partition b (etype e) (eoffset e) (esize e) nr s = Ok (tt, s') /\ devices_ok s' /\
    added s news s' /\ Forall2 (registered b s') news (if wanted (size x) e then [e] else []).
Proof.
  intros Hok Hb Hty (Ho & Hs & _) Hne. unfold found_partition, block_size, wanted. rewrite Hne. cbn [negb andb].
  rewrite bind_assoc. crun (get_block_ok s b x Hb). rewrite bind_ret.
  destruct (dv_block s (do_wf s Hok) b x Hb) as [Hsz _]. destruct (Z.leb_spec (size x) (eoffset e)) as [Hpast|Hin].
  { right. exists s, []. rewrite (proj2 (Z.ltb_ge _ _)) by lia. split_and!; try done. apply added_nil. }
  rewrite (proj2 (Z.ltb_lt (eoffset e) (size x))) by lia. cbn [andb].
  assert ((u32 (eoffset e + esize e) <? eoffset e) || (size x <? u32 (eoffset e + esize e))
    = negb (eoffset e + esize e <=? size x)) as ->.
  { destruct (Z.leb_spec (eoffset e + esize e) (size x)) as [Hfit|Hno].
    - rewrite u32_id by lia. by rewrite !(proj2 (Z.ltb_ge _ _)) by lia.
    - cbn [negb]. apply orb_true_iff. rewrite !Z.ltb_lt. unfold u32, uwrap.
      Z.to_euclidean_division_equations; lia. }
  destruct (Z.leb_spec (eoffset e + esize e) (size x)) as [Hfit|Hno]; cbn [negb].
  2: { right. exists s, []. split_and!; try done. apply added_nil. }
  destruct (malloc_or_panic sizeof_partition s Hok ltac:(done)) as (p & h' & E & Hok' & Ha0 & Hp). crun E.
  destruct Hp as [->|(Hn & _)]; [by left|]. rewrite (proj2 (Z.eqb_neq p NULL)) by done.
  unfold block_name. rewrite bind_assoc. crun (get_block_ok (set_heap h' s) b x Hb). rewrite bind_ret.
  destruct (register_ok (take 15 (name x ++ decimal 10 nr)) (type_of_partition (etype e)) (esize e)
    (partition_operations b (eoffset e)) (set_heap h' s) Hok') as [Er|(c & s' & Er & Hs' & Ha & Hc)].
  { split; cbn [size ops]; [lia|]. exists x. split_and!; done || lia. }
  { left. unfold bind at 1. by rewrite Er. }
  right. exists s', [c]. crun Er. split_and!; try done.
  { exact (added_trans s (set_heap h' s) s' [] [c] Ha0 Ha). }
  constructor; [|constructor].
  eexists. split; [exact Hc|]. done.
Qed.

Lemma scan_entries_ok nested b x primary es : forall s nr, devices_ok s -> Forall entry_ok es ->
  (exists y, blocks s !! b = Some y /\ static y = static x) -> type x <> BLOCK_FOREIGN ->
  scan_entries nested b 0 primary es nr s = Panic \/
  exists r s' news, scan_entries nested b 0 primary es nr s = Ok (r, s') /\ devices_ok s' /\
    added s news s' /\ Forall2 (registered b s') news (List.filter (wanted (size x)) es).
Proof.
  induction es as [|e es IH]; intros s nr Hok Hes (y & Hy & Est) Hty; cbn [scan_entries List.filter];
    pose proof Est as [= _ Hty' Hsz _].
  { right. exists nr, s, []. split_and!; try done. apply added_nil. }
  inversion_clear Hes as [|?? He Hes']. pose proof He as (Ho & _ & Hext).
  destruct ((esize e =? 0) || (etype e =? 0)) eqn:Hemp.
  { rewrite bind_ret. unfold wanted at 1. rewrite Hemp. cbn [negb andb]. apply IH; try done.
    by exists y. }
  rewrite Hext, Z.add_0_r, u32_id by lia. rewrite bind_assoc.
  destruct (found_partition_ok s b y e (i32 (nr + 1)) Hok Hy ltac:(congruence) He Hemp)
    as [E|(s1 & n1 & E & Hok1 & Ha1 & Hr1)]; [left; unfold bind at 1; by rewrite E|].
  crun E. rewrite bind_ret. destruct (proj1 (proj2 (proj2 Ha1)) b y Hy) as (y1 & Hy1 & Ey1).
  destruct (IH s1 (i32 (nr + 1)) Hok1 Hes') as [E2|(r & s2 & n2 & E2 & Hok2 & Ha2 & Hr2)]; [|done|by left|].
  { exists y1. split; [done|]. congruence. }
  right. exists r, s2, (n1 ++ n2). split_and!; try done; [by eapply added_trans|].
  rewrite Hsz in Hr1.
  assert (Forall2 (registered b s2) n1 (if wanted (size x) e then [e] else [])) as Hr1'.
  { eapply Forall2_impl; [exact Hr1|]. intros c e'. by apply registered_kept with n2. }
  destruct (wanted (size x) e); exact (Forall2_app Hr1' Hr2).
Qed.

(** Reading a sector of a device changes only its counters. *)
Lemma read_sector_ok (s : devices) b x i : devices_wf s -> blocks s !! b = Some x -> 0 <= i < size x ->
  exists s', block_read b i s = Ok (device_data b s i, s') /\ same_blocks s s' /\ drives s' = drives s.
Proof.
  intros Hwf Hb Hi. destruct (device_placed b s Hwf x Hb) as (d & o & k & Hor & Hk & _ & _ & Hrd & _).
  destruct (Hrd i Hi) as (s' & E & Hs & Hd). exists s'. unfold block_read, device_data. by rewrite bind_get, Hor, Hk.
Qed.

Lemma devices_ok_same s s' : devices_ok s -> same_blocks s s' -> drives s' = drives s -> devices_ok s'.
Proof.
  intros [Hwf Hh Hl] Hs Hd. pose proof Hs as (Eh & _ & _ & Hst).
  split; [apply (devices_wf_same s s' Hwf Hs); by rewrite Hd|by rewrite Eh|].
  intros c x Hc. rewrite Eh. specialize (Hst c). rewrite Hc in Hst.
  destruct (blocks s !! c) as [y|] eqn:Ey; [by apply (Hl c y)|done].
Qed.

(** Freeing a block of memory that is not a device. *)
Lemma free_ok p s : devices_ok s -> al_live (heap s) p -> blocks s !! p = None ->
  exists h', allocating (al_free p) s = Ok (tt, set_heap h' s) /\ devices_ok (set_heap h' s) /\
    forall q, q <> p -> al_live (heap s) q -> al_live h' q.
Proof.
  intros [Hwf Hh Hl] Hp Hn. destruct (al_free_ok p (heap s) Hh Hp) as (h' & E & Hh' & Hlive).
  exists h'. split; [unfold allocating; by rewrite E|]. split; [|intros q Hq1 Hq2; by apply Hlive].
  split; [by destruct Hwf; split|done|]. intros c x Hc. apply Hlive. split; [|by apply (Hl c x)]. cbn in Hc. congruence.
Qed.

Lemma data_heap b (h : H) (s : devices) i : device_data b (set_heap h s) i = device_data b s i.
Proof.
  unfold device_data. cbn [all_blocks set_heap drives]. enough (forall n c, origin n (set_heap h s) c = origin n s c) as ->; [done|].
  induction n as [|n IH]; intros c; [done|]. cbn [origin]. cbn [blocks set_heap].
  destruct (blocks s !! c) as [x|]; [|done]. cbn [mbind option_bind]. destruct (ops x); [done|]. by rewrite IH.
Qed.

(** The table is a temporary block: [p] is not in use before. *)
Lemma added_freed s s1 news p h : added s news s1 -> ~ al_live (heap s) p ->
  (forall q, q <> p -> al_live (heap s1) q -> al_live h q) -> added s news (set_heap h s1).
Proof.
  intros (A & D & B & L) Hp Hf. split_and!; [done..|]. intros q Hq. destruct (L q Hq) as [Hq1 HN].
  split; [|done]. apply Hf; [|done]. by intros ->.
Qed.


(** ** Extended partitions *)

(** A run that does not return. *)
Definition no_return {A : Type} (r : res (A * devices)) : Prop := forall x, r <> Ok x.

Lemma no_return_bind {A B : Type} (m : M devices A) (k : A -> M devices B) s :
  no_return (m s) -> no_return (bind m k s).
Proof. intros Hm y. unfold bind. destruct (m s) as [x| | |] eqn:E; cbn; try done. by destruct (Hm x). Qed.

(** The sectors at which the scan looks for the table of an extended
    partition at offset [o]. *)
Definition visited (o sector primary : Z) : Prop :=
  sector = 0 \/ (primary = o /\ (sector = o \/ sector = 2 * o)).

Lemma extended_loops pt e es b o sz : partitions pt = e :: es -> signature pt = 0xaa55 ->
  esize e <> 0 -> is_extended (etype e) = true -> eoffset e = o -> 0 < o -> 2 * o < sz < 2 ^ 32 ->
  forall n s x sector primary nr, devices_ok s -> blocks s !! b = Some x -> size x = sz ->
    device_data b s 0 = pt -> visited o sector primary ->
    no_return (read_partition_table n b sector primary nr s).
Proof.
  intros Hpt Hsig Hsz Hext Heo Ho Ho2 n. induction n as [|n IH]; intros s x sector primary nr Hok Hb Hx Hdata Hv; [done|].
  assert (0 <= sector < sz) as Hsec by (destruct Hv as [->|(_ & [->| ->])]; lia).
  cbn [read_partition_table]. unfold block_size. rewrite bind_assoc. crun (get_block_ok s b x Hb).
  rewrite bind_ret, (proj2 (Z.leb_gt (size x) sector)) by lia.
  destruct (malloc_or_panic sizeof_partition_table s Hok ltac:(done)) as (p & h' & E & Hok' & _ & Hp). crun E.
  destruct Hp as [->|(Hn & _)]; [done|]. rewrite (proj2 (Z.eqb_neq p NULL)) by done.
  set (s1 := set_heap h' s) in *.
  destruct (read_sector_ok s1 b x 0 (do_wf s1 Hok') Hb ltac:(lia)) as (s2 & E2 & Hs2 & Hdr2).
  assert (device_data b s2 0 = pt) as Hdata2.
  { unfold device_data. pose proof Hs2 as (_ & -> & _). rewrite (origin_same _ s1 s2 Hs2), Hdr2.
    fold (device_data b s1 0). unfold s1. by rewrite data_heap. }
  unfold s1 in E2 at 2. rewrite data_heap, Hdata in E2. crun E2. rewrite Hsig, Hpt. cbn [Z.eqb negb Pos.eqb].
  destruct (same_blocks_lookup s1 s2 b x Hs2 Hb) as (y & Hy & [= _ _ Hysz _]).
  apply no_return_bind. cbn [scan_entries]. rewrite Hext, (proj2 (Z.eqb_neq (esize e) 0)) by done.
  assert (etype e =? 0 = false) as -> by (apply Z.eqb_neq; intros E0; by rewrite E0 in Hext). cbn [orb].
  apply no_return_bind. rewrite Heo. destruct (Z.eqb_spec sector 0) as [->|Hs0].
  - apply (IH s2 y); try done; [by apply (devices_ok_same s1)|congruence|]. right. split; [done|by left].
  - destruct Hv as [->|(-> & _)]; [done|]. rewrite u32_id by lia.
    apply (IH s2 y); try done; [by apply (devices_ok_same s1)|congruence|]. right. split; [done|right; lia].
Qed.


End Code.

(** ** A disk with a file system partition, and one with an extended partition *)

From S2P Require Import Bitmap Palloc Malloc.

Module Demo.

Definition mbr_entry (t o n : Z) : list Z := [0; 0; 0; 0; t; 0; 0; 0] ++ le32 o ++ le32 n.

(** A partition table: a file system of 64 sectors, and one that does not fit. *)
Definition mbr (t : Z) : list Z :=
  replicate 446 0 ++ mbr_entry t 1 64 ++ mbr_entry 0x83 60 100 ++ replicate 32 0 ++ [0x55; 0xaa].

Definition hda : list Z := [104; 100; 97].

Notation machine := (@devices Malloc.heap (gmap Z (list Z))).

Definition no_devices (t : Z) : machine :=
  Devices small_heap {[0 := {[0 := mbr t]}]} ∅ [] [].

Definition disk : Z := 0xc010100c.

Lemma no_devices_ok t : devices_ok (no_devices t).
Proof.
  split; [split|apply small_heap_wf|]; cbn; try done.
  intros b Hb. by apply elem_of_nil in Hb.
Qed.

Definition value_of {A : Type} (r : res (A * machine)) : option A :=
  match r with Ok (a, _) => Some a | _ => None end.

(** The disk is registered. *)
Lemma disk_registered t : exists s, block_register hda BLOCK_RAW 100 (ide_operations 0) (no_devices t) = Ok (disk, s) /\
  devices_ok s /\ drives s = drives (no_devices t) /\ all_blocks s = [disk] /\
  blocks s !! disk = Some (Block hda BLOCK_RAW 100 (ide_operations 0) 0 0).
Proof.
  assert (value_of (block_register hda BLOCK_RAW 100 (ide_operations 0) (no_devices t)) = Some disk) as Hv
    by (vm_compute; reflexivity).
  destruct (register_ok hda BLOCK_RAW 100 (ide_operations 0) (no_devices t) (no_devices_ok t))
    as [E|(c & s & E & Hok & (Ha & Hd & _) & Hc)].
  - split; [cbn; lia|]. split; [|cbn; lia]. eexists. reflexivity.
  - rewrite E in Hv. discriminate Hv.
  - rewrite E in Hv. injection Hv as ->. exists s. split_and!; assumption.
Qed.

Lemma disk_data t (s : machine) : drives s = drives (no_devices t) -> all_blocks s = [disk] ->
  blocks s !! disk = Some (Block hda BLOCK_RAW 100 (ide_operations 0) 0 0) ->
  device_data disk s 0 = ram_read 0 {[0 := mbr t]}.
Proof. intros Hd Ha Hb. unfold device_data. rewrite Ha. cbn [length origin]. rewrite Hb. cbn. by rewrite Hd. Qed.



End Demo.
