(* ===== verification/FsDef.v ===== *)
(** * The file system (filesys/inode.c, file.c, free-map.c, directory.c,
      filesys.c)

    The code.  In-memory inodes, open files and open directories are known by
    the addresses that the allocator hands out; the device and the allocator
    are interfaces (BlockDev.v, Alloc.v).  A buffer is an array of bytes: a
    copy outside of it is a fault.  Operations run one at a time; a thread
    that finds a semaphore or a lock taken would wait for ever, which is shown
    as running out of fuel.  [oom] records that an allocation has failed; no
    code reads it.  Messages are left out. *)

From S2P Require Import Prelude Bitmap Alloc BlockDev Bytes.
Local Open Scope Z_scope.

Definition INODE_MAGIC : Z := 0x494e4f44.
Definition FREE_MAP_SECTOR : Z := 0.
Definition ROOT_DIR_SECTOR : Z := 1.
Definition NAME_MAX : Z := 14.

(** The fields of the on-disk inode that are used; the rest is zero. *)
Record inode_disk := InodeDisk { start : Z; dlength : Z; magic : Z }.

Definition encode_inode (d : inode_disk) : list Z :=
  le32 (start d) ++ le32 (u32 (dlength d)) ++ le32 (magic d) ++ replicate 500 0.
Definition decode_inode (b : list Z) : inode_disk :=
  InodeDisk (of_le (slice 0 4 b)) (i32 (of_le (slice 4 4 b))) (of_le (slice 8 4 b)).

Record inode := Inode {
  isector : Z;
  open_cnt : Z;
  removed : bool;
  deny_write_cnt : Z;
  data : inode_disk;
  sema : Z
}.

Record file := File { finode : Z; fpos : Z; deny_write : bool }.
Record dir := Dir { dinode : Z; dpos : Z }.

Definition sizeof_inode : Z := 556.
Definition sizeof_file : Z := 12.
Definition sizeof_dir : Z := 8.
Definition sizeof_bitmap : Z := 8.
Definition sizeof_entry : Z := 20.

Definition with_open_cnt (x : Z) (i : inode) : inode :=
  Inode (isector i) x (removed i) (deny_write_cnt i) (data i) (sema i).
Definition with_removed (x : bool) (i : inode) : inode :=
  Inode (isector i) (open_cnt i) x (deny_write_cnt i) (data i) (sema i).
Definition with_deny (x : Z) (i : inode) : inode :=
  Inode (isector i) (open_cnt i) (removed i) x (data i) (sema i).
Definition with_sema (x : Z) (i : inode) : inode :=
  Inode (isector i) (open_cnt i) (removed i) (deny_write_cnt i) (data i) x.

(** [DIV_ROUND_UP] of an [off_t], as a [size_t]. *)
Definition bytes_to_sectors (size : Z) : Z :=
  u32 (Z.quot (i32 (size + BLOCK_SECTOR_SIZE - 1)) BLOCK_SECTOR_SIZE).

(** The elements of a bitmap as bytes, and back. *)
Definition words_bytes (ws : list Z) : list Z := mjoin (le32 <$> ws).
Fixpoint bytes_words (n : nat) (bs : list Z) : list Z :=
  match n with O => [] | S n => of_le (take 4 bs) :: bytes_words n (drop 4 bs) end.

(** Fields of a directory entry of 20 bytes. *)
Definition e_sector (e : list Z) : Z := of_le (slice 0 4 e).
Definition e_name (e : list Z) : list Z := slice 4 15 e.
Definition e_in_use (e : list Z) : bool := negb (of_le (slice 19 1 e) =? 0).

(** [strcmp] of a string with one in an array is zero; a fault if it runs over
    the end of the array. *)
Fixpoint streq (nm bs : list Z) : res bool :=
  match bs, nm with
  | [], _ => Fault
  | b :: _, [] => Ok (b =? 0)
  | b :: bs, c :: nm => if b =? c then streq nm bs else Ok false
  end.

(** The characters of a string in an array, up to the null byte; a fault if
    there is none. *)
Fixpoint cstring (bs : list Z) : res (list Z) :=
  match bs with
  | [] => Fault
  | b :: bs => if b =? 0 then Ok [] else s <-! cstring bs;; Ok (b :: s)
  end.

(** [strlcpy] of a string into an array of [n] bytes. *)
Definition strlcpy_into (n : Z) (s : list Z) : list Z := take (Z.to_nat (n - 1)) s ++ [0].

Section Code.
Context {H : Type} `{HA : Allocator H} {D : Type} `{HD : BlockDevice D}.

Record fs := Fs {
  heap : H;
  device : D;
  inodes : gmap Z inode;
  open_inodes : list Z;
  files : gmap Z file;
  dirs : gmap Z dir;
  free_map : bitmap;
  free_map_file : Z;
  lock_filesys : bool;
  oom : bool
}.

Definition set_heap (x : H) (s : fs) : fs :=
  Fs x (device s) (inodes s) (open_inodes s) (files s) (dirs s) (free_map s) (free_map_file s) (lock_filesys s) (oom s).
Definition set_device (x : D) (s : fs) : fs :=
  Fs (heap s) x (inodes s) (open_inodes s) (files s) (dirs s) (free_map s) (free_map_file s) (lock_filesys s) (oom s).
Definition set_inodes (x : gmap Z inode) (s : fs) : fs :=
  Fs (heap s) (device s) x (open_inodes s) (files s) (dirs s) (free_map s) (free_map_file s) (lock_filesys s) (oom s).
Definition set_open_inodes (x : list Z) (s : fs) : fs :=
  Fs (heap s) (device s) (inodes s) x (files s) (dirs s) (free_map s) (free_map_file s) (lock_filesys s) (oom s).
Definition set_files (x : gmap Z file) (s : fs) : fs :=
  Fs (heap s) (device s) (inodes s) (open_inodes s) x (dirs s) (free_map s) (free_map_file s) (lock_filesys s) (oom s).
Definition set_dirs (x : gmap Z dir) (s : fs) : fs :=
  Fs (heap s) (device s) (inodes s) (open_inodes s) (files s) x (free_map s) (free_map_file s) (lock_filesys s) (oom s).
Definition set_free_map (x : bitmap) (s : fs) : fs :=
  Fs (heap s) (device s) (inodes s) (open_inodes s) (files s) (dirs s) x (free_map_file s) (lock_filesys s) (oom s).
Definition set_free_map_file (x : Z) (s : fs) : fs :=
  Fs (heap s) (device s) (inodes s) (open_inodes s) (files s) (dirs s) (free_map s) x (lock_filesys s) (oom s).
Definition set_lock_filesys (x : bool) (s : fs) : fs :=
  Fs (heap s) (device s) (inodes s) (open_inodes s) (files s) (dirs s) (free_map s) (free_map_file s) x (oom s).
Definition set_oom (x : bool) (s : fs) : fs :=
  Fs (heap s) (device s) (inodes s) (open_inodes s) (files s) (dirs s) (free_map s) (free_map_file s) (lock_filesys s) x.

(** ** Memory, the device, the objects *)

Definition note_oom (p : Z) : M fs Z :=
  (if p =? NULL then modify (set_oom true) else ret tt);;; ret p.
Definition malloc (n : Z) : M fs Z :=
  p <- (fun s => r <-! al_malloc n (heap s);; Ok (r.1, set_heap r.2 s));; note_oom p.
Definition calloc (a b : Z) : M fs Z :=
  p <- (fun s => r <-! al_calloc a b (heap s);; Ok (r.1, set_heap r.2 s));; note_oom p.
Definition free (p : Z) : M fs unit :=
  fun s => r <-! al_free p (heap s);; Ok (r.1, set_heap r.2 s).

Definition block_size : M fs Z := gets (fun s => bd_size (device s)).
Definition block_read (sector : Z) : M fs (list Z) :=
  fun s => r <-! bd_read sector (device s);; Ok (r.1, set_device r.2 s).
Definition block_write (sector : Z) (buffer : list Z) : M fs unit :=
  fun s => r <-! bd_write sector buffer (device s);; Ok (r.1, set_device r.2 s).

Definition get_inode (a : Z) : M fs inode := s <- get;; lift (res_of_option (inodes s !! a)).
Definition put_inode (a : Z) (x : inode) : M fs unit := modify (fun s => set_inodes (<[a := x]> (inodes s)) s).
Definition drop_inode (a : Z) : M fs unit := modify (fun s => set_inodes (delete a (inodes s)) s).
Definition get_file (a : Z) : M fs file := s <- get;; lift (res_of_option (files s !! a)).
Definition put_file (a : Z) (x : file) : M fs unit := modify (fun s => set_files (<[a := x]> (files s)) s).
Definition drop_file (a : Z) : M fs unit := modify (fun s => set_files (delete a (files s)) s).
Definition get_dir (a : Z) : M fs dir := s <- get;; lift (res_of_option (dirs s !! a)).
Definition put_dir (a : Z) (x : dir) : M fs unit := modify (fun s => set_dirs (<[a := x]> (dirs s)) s).
Definition drop_dir (a : Z) : M fs unit := modify (fun s => set_dirs (delete a (dirs s)) s).

(** The semaphore of an inode: alone, a thread that waits waits for ever. *)
Definition sema_down (a : Z) : M fs unit :=
  i <- get_inode a;; if sema i =? 0 then nofuel else put_inode a (with_sema (sema i - 1) i).
Definition sema_up (a : Z) : M fs unit :=
  i <- get_inode a;; put_inode a (with_sema (sema i + 1) i).

Definition lock_acquire : M fs unit :=
  s <- get;; if lock_filesys s then nofuel else modify (set_lock_filesys true).
Definition lock_release : M fs unit :=
  s <- get;; assert (lock_filesys s);;; modify (set_lock_filesys false).

(** ** Reading and writing an inode *)

Definition byte_to_sector (inode pos : Z) : M fs Z :=
  assert (negb (inode =? NULL));;;
  i <- get_inode inode;;
  ret (if pos <? dlength (data i) then u32 (start (data i) + Z.quot pos BLOCK_SECTOR_SIZE) else u32 (-1)).

Definition inode_length (inode : Z) : M fs Z := i <- get_inode inode;; ret (dlength (data i)).

(** The number of bytes of the chunk at [offset], when [size] are wanted. *)
Definition chunk (len size offset : Z) : Z :=
  let sector_left := i32 (BLOCK_SECTOR_SIZE - Z.rem offset BLOCK_SECTOR_SIZE) in
  let inode_left := i32 (len - offset) in
  let min_left := if inode_left <? sector_left then inode_left else sector_left in
  if size <? min_left then size else min_left.

(** The loop of [inode_read_at]: the number of bytes read, the buffer and the
    bounce buffer.  Every round reads at least one byte. *)
Fixpoint read_loop (n : nat) (inode : Z) (buffer : list Z) (size offset bytes_read bounce : Z)
    : M fs (Z * list Z * Z) :=
  if negb (0 <? size) then ret (bytes_read, buffer, bounce)
  else
    match n with
    | O => nofuel
    | S n =>
        sector_idx <- byte_to_sector inode offset;;
        let sector_ofs := Z.rem offset BLOCK_SECTOR_SIZE in
        len <- inode_length inode;;
        let chunk_size := chunk len size offset in
        if chunk_size <=? 0 then ret (bytes_read, buffer, bounce)
        else if (sector_ofs =? 0) && (chunk_size =? BLOCK_SECTOR_SIZE) then
          b <- block_read sector_idx;;
          buffer <- lift (store_bytes bytes_read b buffer);;
          read_loop n inode buffer (i32 (size - chunk_size)) (i32 (offset + chunk_size))
            (i32 (bytes_read + chunk_size)) bounce
        else
          bounce <- (if bounce =? NULL then malloc BLOCK_SECTOR_SIZE else ret bounce);;
          if bounce =? NULL then ret (bytes_read, buffer, bounce)
          else
            b <- block_read sector_idx;;
            c <- lift (load_bytes sector_ofs chunk_size b);;
            buffer <- lift (store_bytes bytes_read c buffer);;
            read_loop n inode buffer (i32 (size - chunk_size)) (i32 (offset + chunk_size))
              (i32 (bytes_read + chunk_size)) bounce
    end.

Definition inode_read_at (inode : Z) (buffer : list Z) (size offset : Z) : M fs (Z * list Z) :=
  r <- read_loop (Z.to_nat size) inode buffer size offset 0 NULL;;
  free r.2;;;
  ret r.1.

Fixpoint write_loop (n : nat) (inode : Z) (buffer : list Z) (size offset bytes_written bounce : Z)
    : M fs (Z * Z) :=
  if negb (0 <? size) then ret (bytes_written, bounce)
  else
    match n with
    | O => nofuel
    | S n =>
        sector_idx <- byte_to_sector inode offset;;
        let sector_ofs := Z.rem offset BLOCK_SECTOR_SIZE in
        len <- inode_length inode;;
        let sector_left := i32 (BLOCK_SECTOR_SIZE - sector_ofs) in
        let chunk_size := chunk len size offset in
        if chunk_size <=? 0 then ret (bytes_written, bounce)
        else if (sector_ofs =? 0) && (chunk_size =? BLOCK_SECTOR_SIZE) then
          c <- lift (load_bytes bytes_written BLOCK_SECTOR_SIZE buffer);;
          block_write sector_idx c;;;
          write_loop n inode buffer (i32 (size - chunk_size)) (i32 (offset + chunk_size))
            (i32 (bytes_written + chunk_size)) bounce
        else
          bounce <- (if bounce =? NULL then malloc BLOCK_SECTOR_SIZE else ret bounce);;
          if bounce =? NULL then ret (bytes_written, bounce)
          else
            b <- (if (0 <? sector_ofs) || (chunk_size <? sector_left) then block_read sector_idx
                  else ret (replicate 512 0));;
            c <- lift (load_bytes bytes_written chunk_size buffer);;
            b <- lift (store_bytes sector_ofs c b);;
            block_write sector_idx b;;;
            write_loop n inode buffer (i32 (size - chunk_size)) (i32 (offset + chunk_size))
              (i32 (bytes_written + chunk_size)) bounce
    end.

Definition inode_write_at (inode : Z) (buffer : list Z) (size offset : Z) : M fs Z :=
  i <- get_inode inode;;
  if negb (deny_write_cnt i =? 0) then ret 0
  else
    sema_down inode;;;
    r <- write_loop (Z.to_nat size) inode buffer size offset 0 NULL;;
    sema_up inode;;;
    free r.2;;;
    ret r.1.

(** ** The free map *)

Definition file_read_at (file : Z) (buffer : list Z) (size file_ofs : Z) : M fs (Z * list Z) :=
  f <- get_file file;; inode_read_at (finode f) buffer size file_ofs.
Definition file_write_at (file : Z) (buffer : list Z) (size file_ofs : Z) : M fs Z :=
  f <- get_file file;; inode_write_at (finode f) buffer size file_ofs.

Definition bitmap_write (b : bitmap) (file : Z) : M fs bool :=
  let size := i32 (byte_cnt (bit_cnt b)) in
  n <- file_write_at file (words_bytes (bits b)) size 0;;
  ret (n =? size).

(** [bitmap_read], with the words that [file_read_at] leaves in the map. *)
Definition bitmap_read_file (b : bitmap) (file : Z) : M fs (bool * bitmap) :=
  if 0 <? bit_cnt b then
    r <- file_read_at file (words_bytes (bits b)) (i32 (byte_cnt (bit_cnt b))) 0;;
    lift (bitmap_read b (bytes_words (length (bits b)) r.2) r.1)
  else lift (bitmap_read b (bits b) 0).

(** The first of [cnt] sectors, if there are so many in a row. *)
Definition free_map_allocate (cnt : Z) : M fs (option Z) :=
  s <- get;;
  r <- lift (bitmap_scan_and_flip (free_map s) 0 cnt false);;
  modify (set_free_map r.2);;;
  let sector := r.1 in
  if sector =? BITMAP_ERROR then ret None
  else
    ok <- (if free_map_file s =? NULL then ret true else bitmap_write r.2 (free_map_file s));;
    if ok : bool then ret (Some sector)
    else
      s <- get;;
      b <- lift (bitmap_set_multiple (free_map s) sector cnt false);;
      modify (set_free_map b);;;
      ret None.

Definition free_map_release (sector cnt : Z) : M fs unit :=
  s <- get;;
  all <- lift (bitmap_all (free_map s) sector cnt);;
  assert all;;;
  b <- lift (bitmap_set_multiple (free_map s) sector cnt false);;
  modify (set_free_map b);;;
  bitmap_write b (free_map_file s);;;
  ret tt.

(** ** Inodes *)

Definition inode_init : M fs unit := modify (set_open_inodes []).

(** The sectors [st + i] and on, [n] of them, are cleared. *)
Fixpoint zero_loop (n : nat) (st i : Z) : M fs unit :=
  match n with
  | O => ret tt
  | S n => block_write (u32 (st + i)) (replicate 512 0);;; zero_loop n st (i + 1)
  end.

Definition inode_create (sector length : Z) : M fs bool :=
  assert (0 <=? length);;;
  p <- calloc 1 BLOCK_SECTOR_SIZE;;
  if p =? NULL then ret false
  else
    let sectors := bytes_to_sectors length in
    r <- free_map_allocate sectors;;
    success <-
      (match r with
       | Some st =>
           block_write sector (encode_inode (InodeDisk st length INODE_MAGIC));;;
           zero_loop (Z.to_nat sectors) st 0;;;
           ret true
       | None => ret false
       end);;
    free p;;;
    ret success.

Definition inode_reopen (inode : Z) : M fs Z :=
  (if negb (inode =? NULL) then
     i <- get_inode inode;; put_inode inode (with_open_cnt (i32 (open_cnt i + 1)) i)
   else ret tt);;;
  ret inode.

(** The first open inode for [sector]. *)
Fixpoint find_open (sector : Z) (l : list Z) : M fs Z :=
  match l with
  | [] => ret NULL
  | a :: l => i <- get_inode a;; if isector i =? sector then ret a else find_open sector l
  end.

Definition inode_open (sector : Z) : M fs Z :=
  s <- get;;
  a <- find_open sector (open_inodes s);;
  if negb (a =? NULL) then inode_reopen a
  else
    a <- malloc sizeof_inode;;
    if a =? NULL then ret NULL
    else
      modify (fun s => set_open_inodes (a :: open_inodes s) s);;;
      b <- block_read sector;;
      put_inode a (Inode sector 1 false 0 (decode_inode b) 1);;;
      ret a.

Definition inode_get_inumber (inode : Z) : M fs Z := i <- get_inode inode;; ret (isector i).

(** At the last reference the inode leaves the books before its sectors are
    released, which does not look at it; its memory is freed at the end. *)
Definition inode_close (inode : Z) : M fs unit :=
  if inode =? NULL then ret tt
  else
    i <- get_inode inode;;
    put_inode inode (with_open_cnt (i32 (open_cnt i - 1)) i);;;
    if i32 (open_cnt i - 1) =? 0 then
      modify (fun s => set_open_inodes (List.filter (fun a => negb (a =? inode)) (open_inodes s)) s);;;
      drop_inode inode;;;
      (if removed i then
         free_map_release (isector i) 1;;;
         free_map_release (start (data i)) (bytes_to_sectors (dlength (data i)))
       else ret tt);;;
      free inode
    else ret tt.

Definition inode_remove (inode : Z) : M fs unit :=
  assert (negb (inode =? NULL));;;
  i <- get_inode inode;; put_inode inode (with_removed true i).

Definition inode_deny_write (inode : Z) : M fs unit :=
  i <- get_inode inode;;
  put_inode inode (with_deny (i32 (deny_write_cnt i + 1)) i);;;
  assert (i32 (deny_write_cnt i + 1) <=? open_cnt i).

Definition inode_allow_write (inode : Z) : M fs unit :=
  i <- get_inode inode;;
  assert (0 <? deny_write_cnt i);;;
  assert (deny_write_cnt i <=? open_cnt i);;;
  put_inode inode (with_deny (i32 (deny_write_cnt i - 1)) i);;;
  assert (i32 (deny_write_cnt i - 1) <=? open_cnt i).

(** ** Files *)

Definition file_open (inode : Z) : M fs Z :=
  f <- calloc 1 sizeof_file;;
  if negb (inode =? NULL) && negb (f =? NULL) then
    put_file f (File inode 0 false);;; ret f
  else
    inode_close inode;;; free f;;; ret NULL.

Definition file_reopen (file : Z) : M fs Z :=
  f <- get_file file;; i <- inode_reopen (finode f);; file_open i.

Definition file_deny_write (file : Z) : M fs unit :=
  assert (negb (file =? NULL));;;
  f <- get_file file;;
  if negb (deny_write f) then
    put_file file (File (finode f) (fpos f) true);;; inode_deny_write (finode f)
  else ret tt.

Definition file_allow_write (file : Z) : M fs unit :=
  assert (negb (file =? NULL));;;
  f <- get_file file;;
  if deny_write f then
    put_file file (File (finode f) (fpos f) false);;; inode_allow_write (finode f)
  else ret tt.

Definition file_close (file : Z) : M fs unit :=
  if negb (file =? NULL) then
    file_allow_write file;;;
    f <- get_file file;;
    inode_close (finode f);;;
    free file;;;
    drop_file file
  else ret tt.

Definition file_get_inode (file : Z) : M fs Z := f <- get_file file;; ret (finode f).

Definition file_read (file : Z) (buffer : list Z) (size : Z) : M fs (Z * list Z) :=
  f <- get_file file;;
  r <- inode_read_at (finode f) buffer size (fpos f);;
  put_file file (File (finode f) (i32 (fpos f + r.1)) (deny_write f));;;
  ret r.

Definition file_write (file : Z) (buffer : list Z) (size : Z) : M fs Z :=
  f <- get_file file;;
  n <- inode_write_at (finode f) buffer size (fpos f);;
  put_file file (File (finode f) (i32 (fpos f + n)) (deny_write f));;;
  ret n.

Definition file_length (file : Z) : M fs Z :=
  assert (negb (file =? NULL));;; f <- get_file file;; inode_length (finode f).

Definition file_seek (file new_pos : Z) : M fs unit :=
  assert (negb (file =? NULL));;;
  assert (0 <=? new_pos);;;
  f <- get_file file;; put_file file (File (finode f) new_pos (deny_write f)).

Definition file_tell (file : Z) : M fs Z :=
  assert (negb (file =? NULL));;; f <- get_file file;; ret (fpos f).

(** ** The free map's file *)

(** [garbage]: what the memory for the bits holds before. *)
Definition free_map_init (garbage : list Z) : M fs unit :=
  n <- block_size;;
  p <- malloc sizeof_bitmap;;
  q <- (if p =? NULL then ret NULL else malloc (byte_cnt n));;
  b <- lift (bitmap_create n (negb (p =? NULL)) (if q =? NULL then None else Some garbage));;
  match b with
  | None => panic
  | Some b =>
      b <- lift (bitmap_mark b FREE_MAP_SECTOR);;
      b <- lift (bitmap_mark b ROOT_DIR_SECTOR);;
      modify (set_free_map b)
  end.

Definition free_map_open : M fs unit :=
  a <- inode_open FREE_MAP_SECTOR;;
  f <- file_open a;;
  modify (set_free_map_file f);;;
  if f =? NULL then panic
  else
    s <- get;;
    r <- bitmap_read_file (free_map s) f;;
    modify (set_free_map r.2);;;
    if negb r.1 then panic else ret tt.

Definition free_map_close : M fs unit := s <- get;; file_close (free_map_file s).

Definition free_map_create : M fs unit :=
  s <- get;;
  ok <- inode_create FREE_MAP_SECTOR (i32 (bitmap_file_size (free_map s)));;
  if negb ok then panic
  else
    a <- inode_open FREE_MAP_SECTOR;;
    f <- file_open a;;
    modify (set_free_map_file f);;;
    if f =? NULL then panic
    else
      s <- get;;
      ok <- bitmap_write (free_map s) f;;
      if negb ok then panic else ret tt.

(** ** Directories *)

Definition dir_create (sector entry_cnt : Z) : M fs bool :=
  inode_create sector (i32 (u32 (entry_cnt * sizeof_entry))).

Definition dir_open (inode : Z) : M fs Z :=
  d <- calloc 1 sizeof_dir;;
  if negb (inode =? NULL) && negb (d =? NULL) then
    put_dir d (Dir inode 0);;; ret d
  else
    inode_close inode;;; free d;;; ret NULL.

Definition dir_open_root : M fs Z := a <- inode_open ROOT_DIR_SECTOR;; dir_open a.

Definition dir_reopen (dir : Z) : M fs Z :=
  d <- get_dir dir;; a <- inode_reopen (dinode d);; dir_open a.

Definition dir_close (dir : Z) : M fs unit :=
  if negb (dir =? NULL) then
    d <- get_dir dir;;
    inode_close (dinode d);;;
    free dir;;;
    drop_dir dir
  else ret tt.

Definition dir_get_inode (dir : Z) : M fs Z := d <- get_dir dir;; ret (dinode d).

(** [uninit]: the bytes of a local entry before the first read. *)
Variable uninit : list Z.

(** More entries than an inode can hold. *)
Definition entries (inode : Z) : M fs nat :=
  len <- inode_length inode;; ret (S (Z.to_nat (len / sizeof_entry))).

Fixpoint lookup_loop (n : nat) (inode : Z) (nm e : list Z) (ofs : Z) : M fs (option (list Z * Z)) :=
  match n with
  | O => nofuel
  | S n =>
      r <- inode_read_at inode e sizeof_entry (i32 ofs);;
      if r.1 =? sizeof_entry then
        let e := r.2 in
        found <- (if e_in_use e then lift (streq nm (drop 4 e)) else ret false);;
        if found : bool then ret (Some (e, ofs)) else lookup_loop n inode nm e (u32 (ofs + sizeof_entry))
      else ret None
  end.

(** [ep] and [ofsp]: the entry and its offset. *)
Definition lookup (dir : Z) (nm : list Z) : M fs (option (list Z * Z)) :=
  assert (negb (dir =? NULL));;;
  d <- get_dir dir;;
  n <- entries (dinode d);;
  lookup_loop n (dinode d) nm uninit 0.

(** The inode, or null. *)
Definition dir_lookup (dir : Z) (nm : list Z) : M fs Z :=
  assert (negb (dir =? NULL));;;
  r <- lookup dir nm;;
  match r with Some (e, _) => inode_open (e_sector e) | None => ret NULL end.

Definition dir_lookup_file (nm : list Z) : M fs bool :=
  dir <- dir_open_root;;
  r <- lookup dir nm;;
  ret (match r with Some _ => true | None => false end).

Fixpoint slot_loop (n : nat) (inode : Z) (e : list Z) (ofs : Z) : M fs (list Z * Z) :=
  match n with
  | O => nofuel
  | S n =>
      r <- inode_read_at inode e sizeof_entry ofs;;
      if r.1 =? sizeof_entry then
        if negb (e_in_use r.2) then ret (r.2, ofs) else slot_loop n inode r.2 (i32 (ofs + sizeof_entry))
      else ret (r.2, ofs)
  end.

(** The assignments to the fields of an entry. *)
Definition set_in_use (v : bool) (e : list Z) : list Z := overlay 19 [if v then 1 else 0] e.
Definition set_name (nm e : list Z) : list Z := overlay 4 (strlcpy_into 15 nm) e.
Definition set_sector (sector : Z) (e : list Z) : list Z := overlay 0 (le32 sector) e.

Definition dir_add (dir : Z) (nm : list Z) (inode_sector : Z) : M fs bool :=
  assert (negb (dir =? NULL));;;
  if bool_decide (nm = []) || (NAME_MAX <? Z.of_nat (length nm)) then ret false
  else
    r <- lookup dir nm;;
    match r with
    | Some _ => ret false
    | None =>
        d <- get_dir dir;;
        n <- entries (dinode d);;
        r <- slot_loop n (dinode d) uninit 0;;
        let e := set_sector inode_sector (set_name nm (set_in_use true r.1)) in
        n <- inode_write_at (dinode d) e sizeof_entry r.2;;
        ret (n =? sizeof_entry)
    end.

Definition dir_remove (dir : Z) (nm : list Z) : M fs bool :=
  assert (negb (dir =? NULL));;;
  r <- lookup dir nm;;
  match r with
  | None => inode_close NULL;;; ret false
  | Some (e, ofs) =>
      inode <- inode_open (e_sector e);;
      success <-
        (if inode =? NULL then ret false
         else
           d <- get_dir dir;;
           n <- inode_write_at (dinode d) (set_in_use false e) sizeof_entry (i32 ofs);;
           if negb (n =? sizeof_entry) then ret false
           else inode_remove inode;;; ret true);;
      inode_close inode;;;
      ret success
  end.

(** The name of the next entry in use. *)
Fixpoint readdir_loop (n : nat) (dir : Z) (e : list Z) : M fs (option (list Z)) :=
  match n with
  | O => nofuel
  | S n =>
      d <- get_dir dir;;
      r <- inode_read_at (dinode d) e sizeof_entry (dpos d);;
      if r.1 =? sizeof_entry then
        put_dir dir (Dir (dinode d) (i32 (dpos d + sizeof_entry)));;;
        if e_in_use r.2 then s <- lift (cstring (drop 4 r.2));; ret (Some (take 14 s))
        else readdir_loop n dir r.2
      else ret None
  end.

Definition dir_readdir (dir : Z) : M fs (option (list Z)) :=
  d <- get_dir dir;; n <- entries (dinode d);; readdir_loop n dir uninit.

(** ** The file system *)

Definition filesys_create (nm : list Z) (initial_size : Z) : M fs bool :=
  dir <- dir_open_root;;
  r <- (if dir =? NULL then ret (false, 0)
        else
          a <- free_map_allocate 1;;
          match a with
          | None => ret (false, 0)
          | Some sector =>
              ok <- inode_create sector initial_size;;
              ok <- (if ok : bool then dir_add dir nm sector else ret false);;
              ret (ok, sector)
          end);;
  (if negb r.1 && negb (r.2 =? 0) then free_map_release r.2 1 else ret tt);;;
  dir_close dir;;;
  ret r.1.

Definition filesys_open (nm : list Z) : M fs Z :=
  lock_acquire;;;
  dir <- dir_open_root;;
  inode <- (if negb (dir =? NULL) then dir_lookup dir nm else ret NULL);;
  dir_close dir;;;
  lock_release;;;
  file_open inode.

Definition filesys_remove (nm : list Z) : M fs bool :=
  dir <- dir_open_root;;
  success <- (if negb (dir =? NULL) then dir_remove dir nm else ret false);;
  dir_close dir;;;
  ret success.

Definition do_format : M fs unit :=
  free_map_create;;;
  ok <- dir_create ROOT_DIR_SECTOR 16;;
  if negb ok then panic else free_map_close.

Definition filesys_init (garbage : list Z) (format : bool) : M fs unit :=
  inode_init;;;
  free_map_init garbage;;;
  (if format then do_format else ret tt);;;
  free_map_open;;;
  modify (set_lock_filesys false).

Definition filesys_done : M fs unit := free_map_close.

End Code.
