(* ===== verification/FsInode.v ===== *)
(** * Inodes: the invariant, reading and writing

    [N] maps the number of every inode, that is the sector it is in, to the
    first data sector and the contents of the file.  [layout] says that the
    disk and the free map hold these files, no two of which share a sector;
    [inv] adds the objects in memory, with one reference to an in-memory inode
    for each element of the multiset [refs]. *)

From stdpp Require Import gmultiset.
From S2P Require Import Prelude Bitmap Alloc BlockDev Bytes FsDef.
Local Open Scope Z_scope.

Record node := Node { nstart : Z; contents : list Z }.

Definition zlen {A : Type} (l : list A) : Z := Z.of_nat (length l).

(** The data sectors of a file of [len] bytes. *)
Definition nsec (len : Z) : Z := (len + 511) / 512.

Definition owns (i : Z) (n : node) (x : Z) : Prop :=
  x = i \/ nstart n <= x < nstart n + nsec (zlen (contents n)).

(** Byte [k] of the file is where it should be. *)
Definition stored (d : Z -> list Z) (n : node) : Prop :=
  forall k, 0 <= k < zlen (contents n) ->
    contents n !! Z.to_nat k = d (nstart n + k / 512) !! Z.to_nat (k mod 512).

Record node_ok (size : Z) (d : Z -> list Z) (i : Z) (n : node) : Prop := NodeOk {
  no_number : 0 <= i < size;
  no_start : 0 <= nstart n /\ nstart n + nsec (zlen (contents n)) <= size;
  no_length : zlen (contents n) < 2 ^ 31 - 511;
  no_apart : ~ (nstart n <= i < nstart n + nsec (zlen (contents n)));
  no_inode : d i = encode_inode (InodeDisk (nstart n) (zlen (contents n)) INODE_MAGIC);
  no_bytes : Forall byte (contents n);
  no_stored : stored d n
}.

Record layout (size : Z) (d : Z -> list Z) (fm : bitmap) (N : gmap Z node) : Prop := Layout {
  ly_node i n : N !! i = Some n -> node_ok size d i n;
  ly_apart i j ni nj x : N !! i = Some ni -> N !! j = Some nj -> owns i ni x -> owns j nj x -> i = j;
  ly_used i n x : N !! i = Some n -> owns i n x -> bit fm x = true;
  ly_map : bitmap_wf fm /\ bit_cnt fm = size
}.

Lemma assert_ok {S : Type} (b : bool) (s : S) : b = true -> assert b s = Ok (tt, s).
Proof. by intros ->. Qed.

Lemma nsec_bound len : 0 <= len -> len <= 512 * nsec len < len + 512.
Proof. intros. unfold nsec. Z.to_euclidean_division_equations; lia. Qed.

Lemma nsec_sector len k : 0 <= k < len -> 0 <= k / 512 < nsec len.
Proof. intros. unfold nsec. Z.to_euclidean_division_equations; lia. Qed.

Lemma zlen_nonneg {A} (l : list A) : 0 <= zlen l.
Proof. unfold zlen. lia. Qed.

Lemma owns_bound size d i n x : node_ok size d i n -> owns i n x -> 0 <= x < size.
Proof. intros [? ? ? ? ? ?] [->|?]; lia. Qed.

Lemma owns_sector i n k : 0 <= k < zlen (contents n) -> owns i n (nstart n + k / 512).
Proof. intros Hk. right. pose proof (nsec_sector _ _ Hk). lia. Qed.

(** Only the sectors of the files matter. *)
Lemma node_ok_ext size d d' i n : node_ok size d i n -> (forall x, owns i n x -> d' x = d x) -> node_ok size d' i n.
Proof.
  intros [H1 H2 H3 H4 H5 H6 H7] Hd. split; try done.
  - rewrite Hd; [done|by left].
  - intros k Hk. rewrite (H7 k Hk), Hd; [done|by apply owns_sector].
Qed.

Lemma layout_ext size d d' fm N : layout size d fm N -> (forall x, 0 <= x < size -> d' x = d x) -> layout size d' fm N.
Proof.
  intros [H1 H2 H3 H4] Hd. split; try done. intros i n Hi. apply (node_ok_ext size d); [by apply H1|].
  intros x Hx. apply Hd. by apply (owns_bound size d i n); [apply H1|].
Qed.

(** ** Writing part of a sector *)

Definition write_sector (d : Z -> list Z) (sec : Z) (b : list Z) (j : Z) : list Z :=
  if decide (j = sec) then b else d j.

Definition written (off : Z) (xs : list Z) (n : node) : node := Node (nstart n) (overlay off xs (contents n)).

Lemma zlen_overlay off xs bs : 0 <= off -> off + zlen xs <= zlen bs -> zlen (overlay off xs bs) = zlen bs.
Proof. intros. unfold zlen in *. by rewrite length_overlay. Qed.

Lemma owns_written off xs i n x : 0 <= off -> off + zlen xs <= zlen (contents n) ->
  owns i (written off xs n) x <-> owns i n x.
Proof. intros. unfold owns. cbn. by rewrite zlen_overlay. Qed.

(** The chunk at [off] lies in one sector. *)
Definition in_sector (off n : Z) : Prop := 0 <= off /\ 0 < n /\ off mod 512 + n <= 512.

Lemma stored_written d n off xs : stored d n -> in_sector off (zlen xs) -> off + zlen xs <= zlen (contents n) ->
  length (d (nstart n + off / 512)) = 512%nat ->
  stored (write_sector d (nstart n + off / 512) (overlay (off mod 512) xs (d (nstart n + off / 512)))) (written off xs n).
Proof.
  intros Hs (H0 & H1 & H2) Hle Hl k. cbn [written contents nstart]. rewrite zlen_overlay by lia. intros Hk. unfold zlen in *.
  pose proof (Z.mod_pos_bound off 512 ltac:(lia)). pose proof (Z.mod_pos_bound k 512 ltac:(lia)).
  rewrite lookup_overlay by lia. unfold write_sector.
  assert (k / 512 = off / 512 \/ k / 512 <> off / 512) as [E|E] by lia.
  - rewrite (decide_True (P := nstart n + k / 512 = nstart n + off / 512)) by lia. rewrite lookup_overlay by lia.
    rewrite (decide_ext (off <= Z.of_nat (Z.to_nat k) < off + Z.of_nat (length xs))
      (off mod 512 <= Z.of_nat (Z.to_nat (k mod 512)) < off mod 512 + Z.of_nat (length xs)))
      by (Z.to_euclidean_division_equations; lia).
    case_decide as Hd; [f_equal; Z.to_euclidean_division_equations; lia|]. rewrite (Hs k Hk). f_equal. by rewrite E.
  - rewrite (decide_False (P := nstart n + k / 512 = nstart n + off / 512)) by lia. rewrite decide_False; [by apply Hs|].
    intros Hd. apply E. Z.to_euclidean_division_equations; lia.
Qed.

Lemma layout_write size d fm N i n off xs : layout size d fm N -> N !! i = Some n ->
  in_sector off (zlen xs) -> off + zlen xs <= zlen (contents n) -> Forall byte xs ->
  length (d (nstart n + off / 512)) = 512%nat ->
  layout size (write_sector d (nstart n + off / 512) (overlay (off mod 512) xs (d (nstart n + off / 512)))) fm
    (<[i := written off xs n]> N).
Proof.
  intros [H1 H2 H3 H4] Hi Hin Hle Hby Hl. pose proof (H1 i n Hi) as Hn.
  assert (0 <= off < zlen (contents n)) as Hoff by (destruct Hin; lia).
  pose proof (owns_sector i n off Hoff) as Hown. set (sec := nstart n + off / 512) in *.
  assert (forall x, owns i (written off xs n) x <-> owns i n x) as Hsame by (intros x; apply owns_written; lia).
  assert (forall j nj, <[i := written off xs n]> N !! j = Some nj ->
    exists nj', N !! j = Some nj' /\ forall x, owns j nj x <-> owns j nj' x) as Hback.
  { intros j nj. destruct (decide (j = i)) as [->|Hne].
    - rewrite lookup_insert_eq. intros [= <-]. eauto.
    - rewrite lookup_insert_ne by done. eauto. }
  split; try done.
  - intros j nj. destruct (decide (j = i)) as [->|Hne].
    + rewrite lookup_insert_eq. intros [= <-]. destruct Hn as [A1 A2 A3 A4 A5 A6 A7].
      split; cbn [nstart contents written]; rewrite ?zlen_overlay by lia; try done.
      * unfold write_sector. rewrite decide_False; [done|]. intros ->. apply A4. unfold sec.
        pose proof (nsec_sector _ _ Hoff). lia.
      * by apply overlay_bytes.
      * by apply stored_written.
    + rewrite lookup_insert_ne by done. intros Hj. apply (node_ok_ext size d); [by apply H1|].
      intros x Hx. unfold write_sector. rewrite decide_False; [done|]. intros ->.
      apply Hne. by apply (H2 j i nj n sec).
  - intros j k nj nk x (nj' & Hj & Ej)%Hback (nk' & Hk & Ek)%Hback. rewrite Ej, Ek. by apply H2.
  - intros j nj x (nj' & Hj & Ej)%Hback. rewrite Ej. by apply H3.
Qed.

Section Proofs.
Context {H : Type} `{HA : Allocator H} {D : Type} `{HD : BlockDevice D}.
Notation fs := (@fs H D).

(** ** The invariant *)

Definition disk (s : fs) : Z -> list Z := bd_data (device s).
Definition disk_size (s : fs) : Z := bd_size (device s).

(** An address that is none of the objects. *)
Definition spare (s : fs) (p : Z) : Prop :=
  inodes s !! p = None /\ files s !! p = None /\ dirs s !! p = None.

Record inode_ok (N : gmap Z node) (refs denies : gmultiset Z) (a : Z) (i : inode) : Prop := InodeOk {
  io_node : exists n, N !! isector i = Some n /\ data i = InodeDisk (nstart n) (zlen (contents n)) INODE_MAGIC;
  io_open : open_cnt i = Z.of_nat (multiplicity a refs) /\ 0 < open_cnt i;
  io_deny : deny_write_cnt i = Z.of_nat (multiplicity a denies)
}.

Record inv (s : fs) (N : gmap Z node) (refs denies : gmultiset Z) : Prop := Inv {
  iv_heap : al_wf (heap s);
  iv_device : bd_wf (device s);
  iv_layout : layout (disk_size s) (disk s) (free_map s) N;
  iv_live a : ~ spare s a -> al_live (heap s) a;
  iv_kinds a i f : (inodes s !! a = Some i -> files s !! a = None /\ dirs s !! a = None) /\
    (files s !! a = Some f -> dirs s !! a = None);
  iv_listed a : a ∈ open_inodes s <-> is_Some (inodes s !! a);
  iv_inode a i : inodes s !! a = Some i -> inode_ok N refs denies a i;
  iv_unique a b i j : inodes s !! a = Some i -> inodes s !! b = Some j -> isector i = isector j -> a = b;
  iv_refs a : a ∈ refs -> is_Some (inodes s !! a);
  iv_few : Z.of_nat (size refs) < 2 ^ 31 - 1;
  iv_denies : denies ⊆ refs
}.

(** What an operation that only reads and writes files leaves alone. *)
Record quiet (s s' : fs) : Prop := Quiet {
  qt_inodes : inodes s' = inodes s;
  qt_open : open_inodes s' = open_inodes s;
  qt_files : files s' = files s;
  qt_dirs : dirs s' = dirs s;
  qt_map_file : free_map_file s' = free_map_file s;
  qt_lock : lock_filesys s' = lock_filesys s;
  qt_oom : oom s = true -> oom s' = true;
  qt_live p : al_live (heap s) p -> al_live (heap s') p;
  qt_size : disk_size s' = disk_size s
}.

Lemma quiet_refl s : quiet s s.
Proof. done. Qed.

Lemma quiet_trans s1 s2 s3 : quiet s1 s2 -> quiet s2 s3 -> quiet s1 s3.
Proof. intros [] []. split; try congruence; auto. Qed.

Lemma quiet_spare s s' p : quiet s s' -> spare s p -> spare s' p.
Proof. intros [] (? & ? & ?). split_and!; congruence. Qed.

Lemma spare_null s N refs denies : inv s N refs denies -> spare s NULL.
Proof.
  intros Hi. assert (~ ~ spare s NULL) as Hn.
  { intros Hs. pose proof (al_live_addr _ _ (iv_heap _ _ _ _ Hi) (iv_live _ _ _ _ Hi _ Hs)) as [[? _] _]. done. }
  unfold spare in *. destruct (inodes s !! NULL), (files s !! NULL), (dirs s !! NULL); try done;
    exfalso; apply Hn; by intros (? & ? & ?).
Qed.

(** Addresses of objects are not null. *)
Lemma inode_not_null s N refs denies a i : inv s N refs denies -> inodes s !! a = Some i -> a <> NULL.
Proof. intros Hi Ha ->. destruct (spare_null _ _ _ _ Hi) as (? & _). congruence. Qed.

(** The state with another device and another heap. *)
Lemma inv_quiet s s' N N' refs denies : inv s N refs denies -> quiet s s' ->
  al_wf (heap s') -> bd_wf (device s') -> layout (disk_size s') (disk s') (free_map s') N' ->
  (forall i n, N !! i = Some n -> exists n', N' !! i = Some n' /\ nstart n' = nstart n /\
     zlen (contents n') = zlen (contents n)) ->
  inv s' N' refs denies.
Proof.
  intros [I1 I2 I3 I4 I5 I6 I7 I8 I9 I10 I11] [Q1 Q2 Q3 Q4 Q5 Q6 Q7 Q8 Q9] Hh Hd Hl HN.
  unfold spare in *. split; unfold spare; rewrite ?Q1, ?Q2, ?Q3, ?Q4; try done.
  - intros a Ha. by apply Q8, I4.
  - intros a i Ha. destruct (I7 a i Ha) as [(n & Hn & Ed) J2 J3]. split; try done.
    destruct (HN _ _ Hn) as (n' & Hn' & E1 & E2). exists n'. split; [done|]. by rewrite E1, E2.
Qed.

Lemma inv_same s s' N refs denies : inv s N refs denies -> quiet s s' ->
  al_wf (heap s') -> bd_wf (device s') -> free_map s' = free_map s ->
  (forall x, 0 <= x < disk_size s -> disk s' x = disk s x) -> inv s' N refs denies.
Proof.
  intros Hi Hq Hh Hd Hm Hx. apply (inv_quiet s s' N); try done; [|eauto].
  rewrite (qt_size _ _ Hq), Hm. by apply (layout_ext _ (disk s)); [apply Hi|].
Qed.

(** ** Memory and the device *)

Lemma inode_data s N refs denies a i : inv s N refs denies -> inodes s !! a = Some i ->
  exists n, N !! isector i = Some n /\ data i = InodeDisk (nstart n) (zlen (contents n)) INODE_MAGIC /\
    node_ok (disk_size s) (disk s) (isector i) n.
Proof.
  intros Hi Ha. destruct (io_node _ _ _ _ _ (iv_inode _ _ _ _ Hi a i Ha)) as (n & Hn & Ed).
  exists n. split_and!; try done. by apply (ly_node _ _ _ _ (iv_layout _ _ _ _ Hi)).
Qed.

Lemma get_inode_ok (s : fs) a i : inodes s !! a = Some i -> get_inode a s = Ok (i, s).
Proof. intros E. unfold get_inode, get, bind, lift. cbn. by rewrite E. Qed.

(** A block handed out is new and spare. *)
Definition new_block (s : fs) (p : Z) (s' : fs) : Prop :=
  (p = NULL /\ oom s' = true) \/ (p <> NULL /\ ~ al_live (heap s) p /\ al_live (heap s') p /\ spare s' p).

Lemma spare_new s N refs denies p : inv s N refs denies -> ~ al_live (heap s) p -> spare s p.
Proof.
  intros Hi Hp. assert (~ ~ spare s p) as Hn by (intros Hs; apply Hp; by apply (iv_live _ _ _ _ Hi)).
  unfold spare in *. destruct (inodes s !! p), (files s !! p), (dirs s !! p); try done;
    exfalso; apply Hn; by intros (? & ? & ?).
Qed.

Lemma handed_ok s N refs denies p h' : inv s N refs denies -> handed al_wf al_live (heap s) p h' ->
  exists s', note_oom p (set_heap h' s) = Ok (p, s') /\ inv s' N refs denies /\ quiet s s' /\
    device s' = device s /\ free_map s' = free_map s /\ new_block s p s' /\ (p <> NULL -> oom s' = oom s).
Proof.
  intros Hi [Hw Hp]. assert (forall q, al_live (heap s) q -> al_live h' q) as Hlv.
  { intros q Hq. destruct Hp as [[_ Hp]|(_ & _ & Hp)]; apply Hp; [|right]; done. }
  unfold note_oom. destruct (Z.eqb_spec p NULL) as [Hn|Hn].
  - eexists. rewrite bind_modify. split; [done|].
    assert (quiet s (set_oom true (set_heap h' s))) as Hq by done.
    split; [by apply (inv_same s _ N refs denies Hi Hq); try apply Hi|]. split_and!; try done. by left.
  - exists (set_heap h' s). split; [done|]. assert (quiet s (set_heap h' s)) as Hq by done.
    split; [by apply (inv_same s _ N refs denies Hi Hq); try apply Hi|]. split_and!; try done. right.
    destruct Hp as [[? _]|(_ & Hnew & Hp)]; [done|]. split_and!; try done; [by apply Hp; left|..];
      by apply (spare_new s N refs denies p Hi Hnew).
Qed.

Lemma fs_malloc_ok s N refs denies n : inv s N refs denies -> 0 <= n < 2 ^ 31 ->
  exists p s', malloc n s = Ok (p, s') /\ inv s' N refs denies /\ quiet s s' /\
    device s' = device s /\ free_map s' = free_map s /\ new_block s p s' /\ (p <> NULL -> oom s' = oom s).
Proof.
  intros Hi Hn. destruct (al_malloc_ok n (heap s) (iv_heap _ _ _ _ Hi) Hn) as (p & h' & E & Hp).
  destruct (handed_ok s N refs denies p h' Hi Hp) as (s' & E' & Hr). exists p, s'.
  split; [|done]. unfold malloc, bind. by rewrite E.
Qed.

Lemma fs_calloc_ok s N refs denies a b : inv s N refs denies -> 0 <= a -> 0 <= b -> a * b < 2 ^ 31 ->
  exists p s', calloc a b s = Ok (p, s') /\ inv s' N refs denies /\ quiet s s' /\
    device s' = device s /\ free_map s' = free_map s /\ new_block s p s' /\ (p <> NULL -> oom s' = oom s).
Proof.
  intros Hi Ha Hb Hab. destruct (al_calloc_ok a b (heap s) (iv_heap _ _ _ _ Hi) Ha Hb Hab) as (p & h' & E & Hp).
  destruct (handed_ok s N refs denies p h' Hi Hp) as (s' & E' & Hr). exists p, s'.
  split; [|done]. unfold calloc, bind. by rewrite E.
Qed.

(** Freeing a spare block, or null. *)
Lemma fs_free_ok s N refs denies p : inv s N refs denies -> p = NULL \/ (al_live (heap s) p /\ spare s p) ->
  exists h', free p s = Ok (tt, set_heap h' s) /\ inv (set_heap h' s) N refs denies /\
    forall q, q <> p -> al_live (heap s) q -> al_live h' q.
Proof.
  intros Hi [->|[Hp Hs]].
  - exists (heap s). split; [unfold free; by rewrite al_free_null|]. split; [by destruct s|done].
  - destruct (al_free_ok p (heap s) (iv_heap _ _ _ _ Hi) Hp) as (h' & E & Hw & Hl).
    exists h'. split; [unfold free; by rewrite E|]. split; [|intros q Hq1 Hq2; by apply Hl].
    destruct Hi as [I1 I2 I3 I4 I5 I6 I7 I8 I9 I10 I11]. split; try done.
    intros a Ha. apply Hl. split; [by intros ->|by apply I4].
Qed.

(** An access to the device changes nothing else. *)
Definition device_step (s s' : fs) : Prop := exists d', s' = set_device d' s.

Lemma device_quiet s s' : device_step s s' -> disk_size s' = disk_size s -> quiet s s'.
Proof. by intros [d' ->] ?. Qed.

Lemma read_block_ok s N refs denies x : inv s N refs denies -> 0 <= x < disk_size s ->
  exists s', block_read x s = Ok (disk s x, s') /\ inv s' N refs denies /\ quiet s s' /\ device_step s s' /\
    sector_ok (disk s x) /\ forall y, 0 <= y < disk_size s -> disk s' y = disk s y.
Proof.
  intros Hi Hx. pose proof (iv_device _ _ _ _ Hi) as Hd.
  destruct (bd_read_ok (device s) x Hd Hx) as (d' & E & Hd' & Hsz & Hdata).
  exists (set_device d' s). assert (device_step s (set_device d' s)) as Hs by by exists d'.
  assert (quiet s (set_device d' s)) as Hq by by apply device_quiet.
  split; [unfold block_read; by rewrite E|]. split; [|split_and!; try done; by apply bd_data_ok].
  apply (inv_same s _ N refs denies Hi Hq); try done; apply Hi.
Qed.

Lemma write_block_ok s N refs denies x b : inv s N refs denies -> 0 <= x < disk_size s -> sector_ok b ->
  exists s', block_write x b s = Ok (tt, s') /\ quiet s s' /\ device_step s s' /\ bd_wf (device s') /\
    forall y, 0 <= y < disk_size s -> disk s' y = write_sector (disk s) x b y.
Proof.
  intros Hi Hx Hb. pose proof (iv_device _ _ _ _ Hi) as Hd.
  destruct (bd_write_ok (device s) x b Hd Hx Hb) as (d' & E & Hd' & Hsz & Hdata).
  exists (set_device d' s). assert (device_step s (set_device d' s)) as Hs by by exists d'.
  split; [unfold block_write; by rewrite E|]. split_and!; try done.
Qed.

Lemma inode_sector_ok s N refs denies i n off : inv s N refs denies -> N !! i = Some n ->
  0 <= off < zlen (contents n) -> 0 <= nstart n + off / 512 < disk_size s /\ sector_ok (disk s (nstart n + off / 512)).
Proof.
  intros Hi Hn Hoff. pose proof (ly_node _ _ _ _ (iv_layout _ _ _ _ Hi) i n Hn) as Hok.
  pose proof (owns_bound _ _ i n _ Hok (owns_sector i n off Hoff)) as Hx. split; [done|].
  apply bd_data_ok; [apply Hi|done].
Qed.

(** A chunk is written to the disk. *)
Lemma write_chunk_ok s N refs denies i n off xs : inv s N refs denies -> N !! i = Some n ->
  in_sector off (zlen xs) -> off + zlen xs <= zlen (contents n) -> Forall byte xs ->
  let sec := nstart n + off / 512 in
  exists s', block_write sec (overlay (off mod 512) xs (disk s sec)) s = Ok (tt, s') /\
    inv s' (<[i := written off xs n]> N) refs denies /\ quiet s s' /\ device_step s s'.
Proof.
  intros Hi Hn Hin Hle Hby sec. assert (0 <= off < zlen (contents n)) as Hoff by (destruct Hin; lia).
  destruct (inode_sector_ok s N refs denies i n off Hi Hn Hoff) as [Hx [Hl Hb]]. fold sec in Hx, Hl, Hb.
  pose proof (Z.mod_pos_bound off 512 ltac:(lia)). destruct Hin as (? & ? & ?). unfold zlen in *.
  destruct (write_block_ok s N refs denies sec (overlay (off mod 512) xs (disk s sec)) Hi Hx) as (s' & E & Hq & Hst & Hd & Hdata).
  { split; [rewrite length_overlay; lia|by apply overlay_bytes]. }
  exists s'. split_and!; try done. pose proof Hst as [d' Es]. apply (inv_quiet s s' N); try done.
  - rewrite Es. apply Hi.
  - rewrite (qt_size _ _ Hq). apply (layout_ext _ (write_sector (disk s) sec (overlay (off mod 512) xs (disk s sec)))); [|done].
    rewrite Es. by apply layout_write; [apply Hi|..].
  - intros j nj Hj. destruct (decide (j = i)) as [->|Hne].
    + rewrite lookup_insert_eq. eexists. split; [done|]. rewrite Hn in Hj. injection Hj as <-. cbn [nstart contents written].
      split; [done|]. by apply zlen_overlay; unfold zlen; lia.
    + rewrite lookup_insert_ne by done. eauto.
Qed.

(** The bytes of a chunk in its sector. *)
Lemma stored_slice d n off k : stored d n -> in_sector off k -> off + k <= zlen (contents n) ->
  length (d (nstart n + off / 512)) = 512%nat ->
  slice (off mod 512) k (d (nstart n + off / 512)) = slice off k (contents n).
Proof.
  intros Hs (H0 & H1 & H2) Hle Hl. pose proof (Z.mod_pos_bound off 512 ltac:(lia)). unfold zlen in *.
  apply list_eq_same_length with (n := Z.to_nat k); [by apply length_slice; lia..|].
  intros j x y Hj Hx Hy. rewrite lookup_slice in Hx, Hy by lia.
  specialize (Hs (off + Z.of_nat j)). unfold zlen in Hs.
  assert ((off + Z.of_nat j) / 512 = off / 512) as E1 by (Z.to_euclidean_division_equations; lia).
  assert ((off + Z.of_nat j) mod 512 = off mod 512 + Z.of_nat j) as E2 by (Z.to_euclidean_division_equations; lia).
  rewrite E1, E2 in Hs. rewrite !Z2Nat.inj_add, Nat2Z.id, Hx, Hy in Hs by lia. symmetry. apply (inj Some), Hs. lia.
Qed.

(** ** Chunks *)

Lemma byte_to_sector_ok s N refs denies a i n off : inv s N refs denies -> inodes s !! a = Some i ->
  N !! isector i = Some n -> 0 <= off ->
  byte_to_sector a off s = Ok (if decide (off < zlen (contents n)) then nstart n + off / 512 else 2 ^ 32 - 1, s).
Proof.
  intros Hi Ha Hn Hoff. unfold byte_to_sector.
  cassert ltac:(by rewrite (proj2 (Z.eqb_neq a NULL)) by by apply (inode_not_null s N refs denies a i)).
  crun (get_inode_ok s a i Ha). destruct (inode_data s N refs denies a i Hi Ha) as (n' & Hn' & -> & _).
  rewrite Hn in Hn'. injection Hn' as <-. cbn [dlength start]. unfold ret, BLOCK_SECTOR_SIZE.
  case_decide as Hd; [rewrite (proj2 (Z.ltb_lt _ _))|rewrite (proj2 (Z.ltb_ge _ _))]; try lia; [|done].
  destruct (inode_sector_ok s N refs denies _ n off Hi Hn ltac:(lia)) as [Hx _].
  pose proof (bd_size_ok _ (iv_device _ _ _ _ Hi)). unfold disk_size in Hx.
  by rewrite Z.quot_div_nonneg, u32_id by lia.
Qed.

Lemma inode_length_ok s N refs denies a i n : inv s N refs denies -> inodes s !! a = Some i ->
  N !! isector i = Some n -> inode_length a s = Ok (zlen (contents n), s).
Proof.
  intros Hi Ha Hn. unfold inode_length. crun (get_inode_ok s a i Ha).
  destruct (inode_data s N refs denies a i Hi Ha) as (n' & Hn' & -> & _). by rewrite Hn in Hn'; injection Hn' as <-.
Qed.

Lemma chunk_ok len size off : 0 <= len < 2 ^ 31 -> 0 <= size < 2 ^ 31 -> 0 <= off < 2 ^ 31 ->
  chunk len size off = Z.min size (Z.min (len - off) (512 - off mod 512)).
Proof.
  intros Hl Hs Ho. unfold chunk, BLOCK_SECTOR_SIZE. rewrite Z.rem_mod_nonneg by lia.
  pose proof (Z.mod_pos_bound off 512 ltac:(lia)). rewrite !i32_id by lia.
  destruct (Z.ltb_spec (len - off) (512 - off mod 512));
    [destruct (Z.ltb_spec size (len - off))|destruct (Z.ltb_spec size (512 - off mod 512))]; lia.
Qed.

(** ** The bounce buffer *)

Definition bounce_ok (s : fs) (p : Z) : Prop := p = NULL \/ (al_live (heap s) p /\ spare s p).

(** The bounce buffer is still the same, or it is new. *)
Definition bounce_step (s : fs) (p p' : Z) : Prop := p' = p \/ (p = NULL /\ ~ al_live (heap s) p').

Lemma bounce_quiet s s' p : quiet s s' -> bounce_ok s p -> bounce_ok s' p.
Proof. intros Hq [->|[Hl Hs]]; [by left|right]. split; [by apply Hq|by apply (quiet_spare s)]. Qed.

Lemma bounce_trans s s' p1 p2 p3 : quiet s s' -> bounce_step s p1 p2 -> bounce_step s' p2 p3 -> bounce_step s p1 p3.
Proof.
  intros Hq [->|[-> Hn]] [->|[-> Hn']]; try (by left); right; split; try done; intros Hl; by apply Hn', (qt_live _ _ Hq).
Qed.

Lemma get_bounce_ok s N refs denies p : inv s N refs denies -> bounce_ok s p ->
  exists p' s', (if p =? NULL then malloc BLOCK_SECTOR_SIZE else ret p) s = Ok (p', s') /\
    inv s' N refs denies /\ quiet s s' /\ device s' = device s /\ free_map s' = free_map s /\
    bounce_ok s' p' /\ bounce_step s p p' /\ (p' = NULL -> p = NULL /\ oom s' = true).
Proof.
  intros Hi Hp. destruct (Z.eqb_spec p NULL) as [->|Hn].
  - destruct (fs_malloc_ok s N refs denies BLOCK_SECTOR_SIZE Hi ltac:(done)) as (p' & s' & E & Hi' & Hq & Hd & Hm & Hb & _).
    exists p', s'. split_and!; try done.
    + destruct Hb as [[-> _]|(_ & _ & Hl & Hs)]; [by left|by right].
    + destruct Hb as [[-> _]|(_ & Hl & _)]; [by left|by right].
    + intros ->. by destruct Hb as [[_ Ho]|[? _]].
  - exists p, s. split_and!; try done. by left.
Qed.

(** The bytes that can be read or written. *)
Definition want (len size off : Z) : Z := Z.max 0 (Z.min size (len - off)).

(** The outcome of a loop: [k] of the bytes; less than all of them only when
    there is no memory for the bounce buffer. *)
Definition outcome (s : fs) (len size off p k : Z) (s' : fs) : Prop :=
  0 <= k <= want len size off /\
  (k = want len size off \/ (oom s' = true /\ p = NULL /\ (size < 512 -> k = 0))).

Lemma read_loop_ok n : forall s N refs denies a i nd buffer size off got p,
  inv s N refs denies -> inodes s !! a = Some i -> N !! isector i = Some nd ->
  0 <= off < 2 ^ 31 -> 0 <= size < 2 ^ 31 -> size <= Z.of_nat n -> 0 <= got ->
  got + size <= zlen buffer < 2 ^ 31 -> bounce_ok s p ->
  exists k p' s', read_loop n a buffer size off got p s
      = Ok (got + k, overlay got (slice off k (contents nd)) buffer, p', s') /\
    inv s' N refs denies /\ quiet s s' /\ free_map s' = free_map s /\ bounce_ok s' p' /\ bounce_step s p p' /\
    outcome s (zlen (contents nd)) size off p k s'.
Proof.
  induction n as [|n IH]; intros s N refs denies a i nd buffer size off got p Hi Ha Hnd Hoff Hsize Hn Hg Hbuf Hp;
    pose proof (zlen_nonneg (contents nd)) as Hlen0.
  { exists 0, p, s. cbn [read_loop]. rewrite (proj2 (Z.ltb_ge 0 size)) by lia. cbn [negb].
    rewrite slice_nil, overlay_nil, Z.add_0_r by lia. unfold outcome, want. split_and!; try (done || lia). by left. }
  pose proof (no_length _ _ _ _ (ly_node _ _ _ _ (iv_layout _ _ _ _ Hi) _ _ Hnd)) as Hlen.
  cbn [read_loop]. destruct (Z.ltb_spec 0 size) as [Hpos|Hz]; cbn [negb].
  2: { exists 0, p, s. rewrite slice_nil, overlay_nil, Z.add_0_r by lia. unfold outcome, want.
       split_and!; try (done || lia). by left. }
  crun (byte_to_sector_ok s N refs denies a i nd off Hi Ha Hnd ltac:(lia)).
  crun (inode_length_ok s N refs denies a i nd Hi Ha Hnd). rewrite chunk_ok by lia.
  pose proof (Z.mod_pos_bound off 512 ltac:(lia)).
  set (ch := Z.min size (Z.min (zlen (contents nd) - off) (512 - off mod 512))).
  destruct (Z.leb_spec ch 0) as [Hc|Hc].
  { exists 0, p, s. rewrite slice_nil, overlay_nil, Z.add_0_r by lia. unfold outcome, want.
    split_and!; try (done || lia). by left. }
  assert (ch <= size /\ ch <= zlen (contents nd) - off /\ ch <= 512 - off mod 512) as Hch by lia. clearbody ch.
  rewrite decide_True by lia. set (sec := nstart nd + off / 512) in *.
  destruct (inode_sector_ok s N refs denies _ nd off Hi Hnd ltac:(lia)) as [Hsec _]. fold sec in Hsec.
  assert (in_sector off ch) as Hin by (unfold in_sector; lia).
  (* The rest of the loop, once the chunk is in the buffer. *)
  assert (forall s1 p1, inv s1 N refs denies -> quiet s s1 -> free_map s1 = free_map s -> bounce_ok s1 p1 ->
    bounce_step s p p1 -> (p1 = NULL -> size < 512 -> False) ->
    exists k p' s', read_loop n a (overlay got (slice off ch (contents nd)) buffer) (i32 (size - ch)) (i32 (off + ch))
        (i32 (got + ch)) p1 s1 = Ok (got + k, overlay got (slice off k (contents nd)) buffer, p', s') /\
      inv s' N refs denies /\ quiet s s' /\ free_map s' = free_map s /\ bounce_ok s' p' /\ bounce_step s p p' /\
      outcome s (zlen (contents nd)) size off p k s') as Hrest.
  { intros s1 p1 Hi1 Hq1 Hm1 Hp1 Hst1 Hbig. rewrite !i32_id by lia.
    assert (length (slice off ch (contents nd)) = Z.to_nat ch) as Hcl by (apply length_slice; unfold zlen in *; lia).
    assert (inodes s1 !! a = Some i) as Ha1 by by rewrite (qt_inodes _ _ Hq1).
    destruct (IH s1 N refs denies a i nd (overlay got (slice off ch (contents nd)) buffer) (size - ch) (off + ch) (got + ch) p1)
      as (k & p' & s' & E & Hi' & Hq' & Hm' & Hp' & Hst' & Hk & Hout); try (done || lia).
    { rewrite zlen_overlay; unfold zlen in *; lia. }
    exists (ch + k), p', s'. rewrite E.
    assert (got + ch + k = got + (ch + k)) as -> by lia.
    unfold want in Hk, Hout. split; [|split_and!; try done; [by apply (quiet_trans s s1)|congruence|by apply (bounce_trans s s1 p p1)|]].
    - f_equal. f_equal. f_equal. f_equal. rewrite <- (slice_app off ch k) by lia.
      replace (got + ch) with (got + Z.of_nat (length (slice off ch (contents nd)))) by lia.
      apply overlay_app; [done|]. rewrite length_app, Hcl, length_slice; unfold zlen in *; lia.
    - unfold outcome, want. split; [lia|]. destruct Hout as [->|(Ho & -> & Hz)]; [left; lia|].
      right. split; [done|]. split; [|intros Hs; by destruct (Hbig eq_refl Hs)].
      destruct Hst1 as [Hst1|[-> _]]; done. }
  assert (Z.rem off BLOCK_SECTOR_SIZE = off mod 512) as -> by (unfold BLOCK_SECTOR_SIZE; apply Z.rem_mod_nonneg; lia).
  change BLOCK_SECTOR_SIZE with 512 at 1. destruct ((off mod 512 =? 0) && (ch =? 512)) eqn:Efull.
  - apply andb_true_iff in Efull as [E1%Z.eqb_eq E2%Z.eqb_eq].
    destruct (read_block_ok s N refs denies sec Hi Hsec) as (s1 & Er & Hi1 & Hq1 & [d' Hd1] & [Hsl Hsb] & _). crun Er.
    pose proof (stored_slice _ _ off ch (no_stored _ _ _ _ (ly_node _ _ _ _ (iv_layout _ _ _ _ Hi) _ _ Hnd)) Hin ltac:(lia) Hsl) as Hsli.
    fold sec in Hsli. rewrite E1, slice_whole in Hsli by lia. rewrite Hsli in Hsl |- *.
    rewrite (bind_ok _ _ s1 (overlay got (slice off ch (contents nd)) buffer) s1)
      by (unfold lift; rewrite store_bytes_ok by (unfold zlen in *; lia); reflexivity).
    apply Hrest; try done; [by subst s1|by apply (bounce_quiet s)|by left|]. intros _. lia.
  - destruct (get_bounce_ok s N refs denies p Hi Hp) as (p1 & s1 & Eb & Hi1 & Hq1 & Hd1 & Hm1 & Hp1 & Hst1 & Hnull).
    crun Eb. destruct (Z.eqb_spec p1 NULL) as [->|Hne].
    { destruct (Hnull eq_refl) as [-> Ho]. exists 0, NULL, s1. rewrite slice_nil, overlay_nil, Z.add_0_r by lia.
      unfold outcome, want. split_and!; try (done || lia). by right. }
    assert (disk s1 = disk s /\ disk_size s1 = disk_size s) as [Hdk Hsz] by (unfold disk, disk_size; by rewrite Hd1).
    destruct (read_block_ok s1 N refs denies sec Hi1 ltac:(by rewrite Hsz)) as (s2 & Er & Hi2 & Hq2 & [d' Hd2] & [Hsl Hsb] & _).
    crun Er. rewrite Hdk in *.
    pose proof (stored_slice _ _ off ch (no_stored _ _ _ _ (ly_node _ _ _ _ (iv_layout _ _ _ _ Hi) _ _ Hnd)) Hin ltac:(lia) Hsl) as Hsli.
    fold sec in Hsli. rewrite (bind_ok _ _ s2 (slice off ch (contents nd)) s2)
      by (unfold lift; rewrite load_bytes_ok, Hsli by lia; reflexivity).
    rewrite (bind_ok _ _ s2 (overlay got (slice off ch (contents nd)) buffer) s2)
      by (unfold lift; rewrite store_bytes_ok by (rewrite ?length_slice; unfold zlen in *; lia); reflexivity).
    apply Hrest; try done; [by apply (quiet_trans s s1)|by subst s2|by apply (bounce_quiet s1)].
Qed.

(** The bounce buffer is freed at the end. *)
Lemma free_bounce_ok s s' N refs denies p : inv s' N refs denies -> quiet s s' -> bounce_ok s' p -> bounce_step s NULL p ->
  exists s2, free p s' = Ok (tt, s2) /\ inv s2 N refs denies /\ quiet s s2 /\ free_map s2 = free_map s' /\
    device s2 = device s' /\ oom s2 = oom s'.
Proof.
  intros Hi Hq Hp Hst. destruct (fs_free_ok s' N refs denies p Hi Hp) as (h & E & Hi2 & Hl).
  exists (set_heap h s'). split_and!; try done. destruct Hq as [Q1 Q2 Q3 Q4 Q5 Q6 Q7 Q8 Q9]. split; try done.
  intros q Hlq. cbn. assert (q <> p) as Hne; [|by apply Hl, Q8].
  intros ->. destruct Hst as [->|[_ Hn]]; [|done].
  pose proof (al_live_addr _ _ (iv_heap _ _ _ _ Hi) (Q8 _ Hlq)) as [[? _] _]. done.
Qed.

Lemma inode_read_at_ok s N refs denies a i nd buffer size off :
  inv s N refs denies -> inodes s !! a = Some i -> N !! isector i = Some nd ->
  0 <= off < 2 ^ 31 -> 0 <= size <= zlen buffer -> zlen buffer < 2 ^ 31 ->
  exists k s', inode_read_at a buffer size off s = Ok (k, overlay 0 (slice off k (contents nd)) buffer, s') /\
    inv s' N refs denies /\ quiet s s' /\ free_map s' = free_map s /\
    outcome s (zlen (contents nd)) size off NULL k s'.
Proof.
  intros Hi Ha Hnd Hoff Hsz Hbuf. unfold inode_read_at.
  destruct (read_loop_ok (Z.to_nat size) s N refs denies a i nd buffer size off 0 NULL Hi Ha Hnd)
    as (k & p & s1 & E & Hi1 & Hq1 & Hm1 & Hp1 & Hst & Hk & Hout); try lia; [by left|]. crun E. cbn [fst snd].
  destruct (free_bounce_ok s s1 N refs denies p Hi1 Hq1 Hp1 Hst) as (s2 & E2 & Hi2 & Hq2 & Hm2 & _ & Ho2). crun E2.
  exists k, s2. split_and!; try done; [congruence|]. split; [done|]. by rewrite Ho2.
Qed.

(** ** Writing *)

Lemma written_app off xs ys n : 0 <= off -> off + zlen (xs ++ ys) <= zlen (contents n) ->
  written (off + zlen xs) ys (written off xs n) = written off (xs ++ ys) n.
Proof. intros. unfold written. cbn [nstart contents]. f_equal. by apply overlay_app. Qed.

Lemma written_nil off n : 0 <= off -> written off [] n = n.
Proof. intros. unfold written. rewrite overlay_nil by done. by destruct n. Qed.

Lemma write_loop_ok n : forall s N refs denies a i nd buffer size off done p,
  inv s N refs denies -> inodes s !! a = Some i -> N !! isector i = Some nd -> Forall byte buffer ->
  0 <= off < 2 ^ 31 -> 0 <= size < 2 ^ 31 -> size <= Z.of_nat n -> 0 <= done ->
  done + size <= zlen buffer < 2 ^ 31 -> bounce_ok s p ->
  exists k p' s', write_loop n a buffer size off done p s = Ok (done + k, p', s') /\
    inv s' (<[isector i := written off (slice done k buffer) nd]> N) refs denies /\
    quiet s s' /\ free_map s' = free_map s /\ bounce_ok s' p' /\ bounce_step s p p' /\
    outcome s (zlen (contents nd)) size off p k s'.
Proof.
  induction n as [|n IH]; intros s N refs denies a i nd buffer size off dn p Hi Ha Hnd Hby Hoff Hsize Hn Hg Hbuf Hp;
    pose proof (zlen_nonneg (contents nd)) as Hlen0.
  { exists 0, p, s. cbn [write_loop]. rewrite (proj2 (Z.ltb_ge 0 size)) by lia. cbn [negb].
    rewrite slice_nil, written_nil, insert_id, Z.add_0_r by done || lia. unfold outcome, want.
    split_and!; try (done || lia). by left. }
  pose proof (no_length _ _ _ _ (ly_node _ _ _ _ (iv_layout _ _ _ _ Hi) _ _ Hnd)) as Hlen.
  cbn [write_loop]. destruct (Z.ltb_spec 0 size) as [Hpos|Hz]; cbn [negb].
  2: { exists 0, p, s. rewrite slice_nil, written_nil, insert_id, Z.add_0_r by done || lia. unfold outcome, want.
       split_and!; try (done || lia). by left. }
  crun (byte_to_sector_ok s N refs denies a i nd off Hi Ha Hnd ltac:(lia)).
  crun (inode_length_ok s N refs denies a i nd Hi Ha Hnd). rewrite chunk_ok by lia.
  pose proof (Z.mod_pos_bound off 512 ltac:(lia)).
  set (ch := Z.min size (Z.min (zlen (contents nd) - off) (512 - off mod 512))).
  destruct (Z.leb_spec ch 0) as [Hc|Hc].
  { exists 0, p, s. rewrite slice_nil, written_nil, insert_id, Z.add_0_r by done || lia. unfold outcome, want.
    split_and!; try (done || lia). by left. }
  assert (ch <= size /\ ch <= zlen (contents nd) - off /\ ch <= 512 - off mod 512) as Hch by lia. clearbody ch.
  rewrite decide_True by lia. set (sec := nstart nd + off / 512) in *.
  destruct (inode_sector_ok s N refs denies _ nd off Hi Hnd ltac:(lia)) as [Hsec [Hsl _]]. fold sec in Hsec, Hsl.
  set (xs := slice dn ch buffer).
  assert (length xs = Z.to_nat ch) as Hcl by (apply length_slice; unfold zlen in *; lia).
  assert (zlen xs = ch) as Hzl by (unfold zlen; lia).
  assert (in_sector off (zlen xs)) as Hin by (unfold in_sector; lia).
  assert (Forall byte xs) as Hxb by by apply slice_bytes.
  (* The rest of the loop, once the chunk is on the disk. *)
  assert (forall s1 p1, inv s1 (<[isector i := written off xs nd]> N) refs denies -> quiet s s1 ->
    free_map s1 = free_map s -> bounce_ok s1 p1 -> bounce_step s p p1 -> (p1 = NULL -> size < 512 -> False) ->
    exists k p' s', write_loop n a buffer (i32 (size - ch)) (i32 (off + ch)) (i32 (dn + ch)) p1 s1
        = Ok (dn + k, p', s') /\
      inv s' (<[isector i := written off (slice dn k buffer) nd]> N) refs denies /\
      quiet s s' /\ free_map s' = free_map s /\ bounce_ok s' p' /\ bounce_step s p p' /\
      outcome s (zlen (contents nd)) size off p k s') as Hrest.
  { intros s1 p1 Hi1 Hq1 Hm1 Hp1 Hst1 Hbig. rewrite !i32_id by lia.
    assert (inodes s1 !! a = Some i) as Ha1 by by rewrite (qt_inodes _ _ Hq1).
    assert (zlen (contents (written off xs nd)) = zlen (contents nd)) as Hzw by (apply zlen_overlay; lia).
    destruct (IH s1 (<[isector i := written off xs nd]> N) refs denies a i (written off xs nd) buffer (size - ch) (off + ch) (dn + ch) p1)
      as (k & p' & s' & E & Hi' & Hq' & Hm' & Hp' & Hst' & Hk & Hout); try (done || lia); [apply lookup_insert_eq|].
    exists (ch + k), p', s'. rewrite E. rewrite insert_insert_eq in Hi'. rewrite Hzw in Hk, Hout. unfold want in Hk, Hout.
    assert (dn + ch + k = dn + (ch + k)) as -> by lia.
    split; [done|]. split; [|split_and!; try done; [by apply (quiet_trans s s1)|congruence|by apply (bounce_trans s s1 p p1)|]].
    - rewrite <- (slice_app dn ch k) by lia. fold xs. rewrite <- written_app; [by rewrite Hzl|lia|].
      unfold zlen in *. rewrite length_app, Hcl, length_slice; lia.
    - unfold outcome, want. split; [lia|]. destruct Hout as [->|(Ho & -> & Hz)]; [left; lia|].
      right. split; [done|]. split; [|intros Hs; by destruct (Hbig eq_refl Hs)].
      destruct Hst1 as [Hst1|[-> _]]; done. }
  assert (Z.rem off BLOCK_SECTOR_SIZE = off mod 512) as -> by (unfold BLOCK_SECTOR_SIZE; apply Z.rem_mod_nonneg; lia).
  change BLOCK_SECTOR_SIZE with 512 at 1. destruct ((off mod 512 =? 0) && (ch =? 512)) eqn:Efull.
  - apply andb_true_iff in Efull as [E1%Z.eqb_eq E2%Z.eqb_eq].
    destruct (write_chunk_ok s N refs denies _ nd off xs Hi Hnd Hin ltac:(lia) Hxb) as (s1 & Ew & Hi1 & Hq1 & [d' Hd1]).
    rewrite (bind_ok _ _ s xs s) by (unfold lift; change BLOCK_SECTOR_SIZE with 512;
      rewrite load_bytes_ok by (unfold zlen in *; lia); unfold xs; by rewrite E2).
    fold sec in Ew. rewrite E1, overlay_whole in Ew by lia. crun Ew.
    apply Hrest; try done; [by subst s1|by apply (bounce_quiet s)|by left|]. intros _. lia.
  - destruct (get_bounce_ok s N refs denies p Hi Hp) as (p1 & s1 & Eb & Hi1 & Hq1 & Hd1 & Hm1 & Hp1 & Hst1 & Hnull).
    crun Eb. destruct (Z.eqb_spec p1 NULL) as [->|Hne].
    { destruct (Hnull eq_refl) as [-> Ho]. exists 0, NULL, s1.
      rewrite slice_nil, written_nil, insert_id, Z.add_0_r by done || lia.
      unfold outcome, want. split_and!; try (done || lia). by right. }
    assert (disk s1 = disk s /\ disk_size s1 = disk_size s) as [Hdk Hsz] by (unfold disk, disk_size; by rewrite Hd1).
    destruct (read_block_ok s1 N refs denies sec Hi1 ltac:(by rewrite Hsz)) as (s2 & Er & Hi2 & Hq2 & [d' Hd2] & _ & Hsame).
    assert ((0 <? off mod 512) || (ch <? i32 (BLOCK_SECTOR_SIZE - off mod 512)) = true) as ->.
    { unfold BLOCK_SECTOR_SIZE. rewrite i32_id by lia. apply orb_true_iff. rewrite !Z.ltb_lt.
      apply andb_false_iff in Efull as [E1%Z.eqb_neq|E1%Z.eqb_neq]; lia. }
    crun Er. rewrite (bind_ok _ _ s2 xs s2) by (unfold lift; rewrite load_bytes_ok by (unfold zlen in *; lia); reflexivity).
    rewrite Hdk. rewrite (bind_ok _ _ s2 (overlay (off mod 512) xs (disk s sec)) s2)
      by (unfold lift; rewrite store_bytes_ok by lia; reflexivity).
    destruct (write_chunk_ok s2 N refs denies _ nd off xs Hi2 Hnd Hin ltac:(lia) Hxb) as (s3 & Ew & Hi3 & Hq3 & [d3 Hd3]).
    fold sec in Ew. rewrite Hsame, Hdk in Ew by (by rewrite Hsz). crun Ew.
    pose proof (quiet_trans s s1 s2 Hq1 Hq2) as Hq02. pose proof (quiet_trans s s2 s3 Hq02 Hq3) as Hq03.
    apply Hrest; try done; [by subst s3 s2|].
    by apply (bounce_quiet s2 s3 p1 Hq3), (bounce_quiet s1 s2 p1 Hq2).
Qed.

(** No write is in progress. *)
Definition idle (s : fs) : Prop := forall a i, inodes s !! a = Some i -> sema i = 1.

(** An in-memory inode changes, and with it the references to it. *)
Lemma inv_update s N refs denies refs' denies' a i i' : inv s N refs denies -> inodes s !! a = Some i ->
  isector i' = isector i -> data i' = data i ->
  open_cnt i' = Z.of_nat (multiplicity a refs') -> 0 < open_cnt i' ->
  deny_write_cnt i' = Z.of_nat (multiplicity a denies') ->
  (forall b, b <> a -> multiplicity b refs' = multiplicity b refs /\ multiplicity b denies' = multiplicity b denies) ->
  Z.of_nat (size refs') < 2 ^ 31 - 1 -> denies' ⊆ refs' ->
  inv (set_inodes (<[a := i']> (inodes s)) s) N refs' denies'.
Proof.
  intros [I1 I2 I3 I4 I5 I6 I7 I8 I9 I10 I11] Ha Es Ed Ho Ho0 Hdn Hm Hsz Hsub.
  assert (forall b, is_Some (<[a := i']> (inodes s) !! b) <-> is_Some (inodes s !! b)) as Hdom.
  { intros b. destruct (decide (b = a)) as [->|Hne]; [|by rewrite lookup_insert_ne].
    rewrite lookup_insert_eq, Ha. split; eauto. }
  assert (forall b, spare (set_inodes (<[a := i']> (inodes s)) s) b <-> spare s b) as Hsp.
  { intros b. unfold spare. cbn. by rewrite !eq_None_not_Some, Hdom. }
  split; cbn; try done.
  - intros b. rewrite Hsp. apply I4.
  - intros b j f. destruct (I5 b i f) as [K1 K2]. split; [|done]. intros Hj.
    destruct (Hdom b) as [[x Hx] _]; [by exists j|]. by destruct (I5 b x f) as [K _]; apply K.
  - intros b. by rewrite Hdom.
  - intros b j. destruct (decide (b = a)) as [->|Hne].
    + rewrite lookup_insert_eq. intros [= <-]. destruct (I7 a i Ha) as [K1 K2 K3].
      split; [by rewrite Es, Ed|done..].
    + rewrite lookup_insert_ne by done. intros Hj. destruct (I7 b j Hj) as [K1 K2 K3].
      destruct (Hm b Hne) as [E1 E2]. split; rewrite ?E1, ?E2; done.
  - intros b c j k Hj Hk E. assert (exists j0, inodes s !! b = Some j0 /\ isector j0 = isector j) as (j0 & Hj0 & E0).
    { destruct (decide (b = a)) as [->|Hne]; [rewrite lookup_insert_eq in Hj; injection Hj as <-; by exists i|].
      rewrite lookup_insert_ne in Hj by done. by exists j. }
    assert (exists k0, inodes s !! c = Some k0 /\ isector k0 = isector k) as (k0 & Hk0 & E0').
    { destruct (decide (c = a)) as [->|Hne]; [rewrite lookup_insert_eq in Hk; injection Hk as <-; by exists i|].
      rewrite lookup_insert_ne in Hk by done. by exists k. }
    apply (I8 b c j0 k0); congruence.
  - intros b Hb. apply Hdom. destruct (decide (b = a)) as [->|Hne]; [by exists i|]. apply I9.
    destruct (Hm b Hne) as [E1 _]. apply elem_of_multiplicity. rewrite <- E1. by apply elem_of_multiplicity.
Qed.

(** Taking and releasing the semaphore is not seen. *)
Lemma inv_with_sema s N refs denies a i v : inv s N refs denies -> inodes s !! a = Some i ->
  inv (set_inodes (<[a := with_sema v i]> (inodes s)) s) N refs denies.
Proof.
  intros Hi Ha. destruct (iv_inode _ _ _ _ Hi a i Ha) as [_ [K1 K2] K3].
  by apply (inv_update s N refs denies refs denies a i (with_sema v i)); try done; apply Hi.
Qed.

Lemma inode_write_at_ok s N refs denies a i nd buffer size off :
  inv s N refs denies -> idle s -> inodes s !! a = Some i -> N !! isector i = Some nd -> Forall byte buffer ->
  0 <= off < 2 ^ 31 -> 0 <= size <= zlen buffer -> zlen buffer < 2 ^ 31 ->
  exists k s', inode_write_at a buffer size off s = Ok (k, s') /\
    inv s' (<[isector i := written off (slice 0 k buffer) nd]> N) refs denies /\
    quiet s s' /\ free_map s' = free_map s /\
    if decide (deny_write_cnt i = 0) then outcome s (zlen (contents nd)) size off NULL k s' else k = 0.
Proof.
  intros Hi Hidle Ha Hnd Hby Hoff Hsz Hbuf. unfold inode_write_at. crun (get_inode_ok s a i Ha).
  case_decide as Hden; [rewrite (proj2 (Z.eqb_eq _ 0) Hden)|rewrite (proj2 (Z.eqb_neq _ 0) Hden)]; cbn [negb].
  2: { exists 0, s. rewrite slice_nil, written_nil, insert_id by done || lia. done. }
  unfold sema_down. rewrite bind_assoc. crun (get_inode_ok s a i Ha). rewrite (Hidle a i Ha). cbn [Z.eqb].
  unfold put_inode at 1. rewrite bind_modify. set (s1 := set_inodes (<[a := with_sema (1 - 1) i]> (inodes s)) s).
  pose proof (inv_with_sema s N refs denies a i (1 - 1) Hi Ha) as Hi1. fold s1 in Hi1.
  assert (inodes s1 !! a = Some (with_sema (1 - 1) i)) as Ha1 by apply lookup_insert_eq.
  destruct (write_loop_ok (Z.to_nat size) s1 N refs denies a _ nd buffer size off 0 NULL Hi1 Ha1 Hnd Hby)
    as (k & p & s2 & E & Hi2 & Hq2 & Hm2 & Hp2 & Hst & Hk & Hout); try lia; [by left|]. crun E. cbn [fst snd].
  assert (inodes s2 !! a = Some (with_sema (1 - 1) i)) as Ha2 by by rewrite (qt_inodes _ _ Hq2).
  unfold sema_up. rewrite bind_assoc. crun (get_inode_ok s2 a _ Ha2). unfold put_inode. rewrite bind_modify.
  set (s3 := set_inodes _ s2). pose proof (inv_with_sema s2 _ refs denies a _ 1 Hi2 Ha2) as Hi3.
  change (inv s3 (<[isector i:=written off (slice 0 k buffer) nd]> N) refs denies) in Hi3.
  assert (quiet s s3) as Hq3.
  { destruct Hq2 as [Q1 Q2 Q3 Q4 Q5 Q6 Q7 Q8 Q9]. split; try done. cbn. rewrite Q1. cbn.
    rewrite insert_insert_eq. apply insert_id. rewrite Ha. f_equal. pose proof (Hidle a i Ha). destruct i. cbn in *. by subst. }
  assert (bounce_step s NULL p) as Hst' by by destruct Hst; [left|right].
  assert (bounce_ok s3 p) as Hp3.
  { destruct Hp2 as [->|[Hl (S1 & S2 & S3)]]; [by left|right]. split; [done|]. split_and!; try done. cbn.
    rewrite lookup_insert_ne; [done|]. intros ->. congruence. }
  destruct (free_bounce_ok s s3 _ refs denies p Hi3 Hq3 Hp3 Hst') as (s4 & E4 & Hi4 & Hq4 & Hm4 & _ & Ho4). crun E4.
  exists k, s4. split_and!; try done; [by rewrite Hm4|]. split; [done|]. by rewrite Ho4.
Qed.

End Proofs.
