(* ===== verification/FsAlloc.v ===== *)
(** * Inodes: the free map, creating, opening and closing

    [good] adds to the invariant of FsInode.v that no write is in progress and
    that the free map's own file, once it is open, is as long as the map. *)

From stdpp Require Import gmultiset.
From S2P Require Import Prelude Bitmap Alloc BlockDev Bytes FsDef FsInode.
Local Open Scope Z_scope.

(** ** The bytes of a bitmap *)

Lemma words_bytes_cons w ws : words_bytes (w :: ws) = le32 w ++ words_bytes ws.
Proof. done. Qed.

Lemma words_bytes_length ws : length (words_bytes ws) = (4 * length ws)%nat.
Proof.
  induction ws as [|w ws IH]; [done|]. rewrite words_bytes_cons, length_app, IH, le32_length. cbn [length]. lia.
Qed.

Lemma words_bytes_ok ws : Forall byte (words_bytes ws).
Proof.
  induction ws as [|w ws IH]; [constructor|]. rewrite words_bytes_cons. apply Forall_app_2; [apply le32_bytes|done].
Qed.

Lemma bytes_words_of ws : Forall (fun w => 0 <= w < 2 ^ 32) ws -> bytes_words (length ws) (words_bytes ws) = ws.
Proof.
  induction 1 as [|w ws Hw _ IH]; [done|]. rewrite words_bytes_cons. cbn [length bytes_words].
  rewrite (of_le32 w _ Hw). by f_equal.
Qed.

Lemma byte_cnt_ok b : bitmap_wf b -> bit_cnt b <= 2 ^ 28 ->
  byte_cnt (bit_cnt b) = zlen (words_bytes (bits b)) /\ byte_cnt (bit_cnt b) < 2 ^ 31 /\
  i32 (byte_cnt (bit_cnt b)) = byte_cnt (bit_cnt b).
Proof.
  intros Hwf Hb. pose proof (wf_cnt _ Hwf) as [? ?]. pose proof (wf_len _ Hwf) as Hl.
  rewrite elem_cnt_eq in Hl by lia. unfold byte_cnt. rewrite elem_cnt_eq by lia.
  unfold zlen. rewrite words_bytes_length, Nat2Z.inj_mul, Hl.
  rewrite u32_id by (Z.to_euclidean_division_equations; lia).
  split; [done|]. split; [Z.to_euclidean_division_equations; lia|].
  apply i32_id. Z.to_euclidean_division_equations; lia.
Qed.

(** ** The on-disk inode *)

Lemma decode_encode st len : 0 <= st < 2 ^ 32 -> 0 <= len < 2 ^ 31 ->
  decode_inode (encode_inode (InodeDisk st len INODE_MAGIC)) = InodeDisk st len INODE_MAGIC.
Proof.
  intros Hst Hlen. unfold decode_inode, encode_inode, slice. cbn [start dlength magic].
  rewrite (u32_id len) by lia. change (Z.to_nat 4) with 4%nat. change (Z.to_nat 0) with 0%nat.
  change (Z.to_nat 8) with 8%nat.
  assert (forall a b (l : list Z), drop 4 (le32 a ++ le32 b ++ l) = le32 b ++ l /\
    drop 8 (le32 a ++ le32 b ++ l) = l) as Hd by done.
  destruct (Hd st len (le32 INODE_MAGIC ++ replicate 500 0)) as [-> ->]. rewrite drop_0.
  rewrite !of_le32 by done || lia. by rewrite i32_id by lia.
Qed.

(** ** The sectors of a new file *)

Lemma bytes_to_sectors_ok len : 0 <= len < 2 ^ 31 - 511 -> bytes_to_sectors len = nsec len.
Proof.
  intros Hl. unfold bytes_to_sectors, BLOCK_SECTOR_SIZE. rewrite i32_id by lia.
  rewrite Z.quot_div_nonneg by lia. unfold nsec. replace (len + 512 - 1) with (len + 511) by lia.
  apply u32_id. Z.to_euclidean_division_equations; lia.
Qed.

(** Close to the largest length the sum wraps around, and no device is so large. *)
Lemma bytes_to_sectors_wraps len : 2 ^ 31 - 511 <= len < 2 ^ 31 -> 2 ^ 28 < bytes_to_sectors len.
Proof.
  intros Hl. unfold bytes_to_sectors, BLOCK_SECTOR_SIZE.
  assert (i32 (len + 512 - 1) = len + 511 - 2 ^ 32) as ->.
  { unfold i32, swrap. Z.to_euclidean_division_equations; lia. }
  assert (- 2 ^ 23 <= Z.quot (len + 511 - 2 ^ 32) 512 < 0) as Hq by (Z.to_euclidean_division_equations; lia).
  unfold u32, uwrap. Z.to_euclidean_division_equations; lia.
Qed.

(** No file owns the sector. *)
Definition unowned (N : gmap Z node) (x : Z) : Prop := forall i n, N !! i = Some n -> ~ owns i n x.

Lemma layout_unowned size d d' fm N : layout size d fm N -> (forall x, 0 <= x < size -> ~ unowned N x -> d' x = d x) ->
  layout size d' fm N.
Proof.
  intros [H1 H2 H3 H4] Hd. split; try done. intros i n Hi. apply (node_ok_ext size d); [by apply H1|].
  intros x Hx. apply Hd; [by apply (owns_bound size d i n); [apply H1|]|]. intros Hu. by apply (Hu i n).
Qed.

Lemma layout_map size d fm fm' N : layout size d fm N -> bitmap_wf fm' -> bit_cnt fm' = size ->
  (forall x, 0 <= x < size -> ~ unowned N x -> bit fm' x = true) -> layout size d fm' N.
Proof.
  intros [H1 H2 H3 H4] Hw Hc Hb. split; try done. intros i n x Hi Hx.
  apply Hb; [by apply (owns_bound size d i n); [apply H1|]|]. intros Hu. by apply (Hu i n).
Qed.

(** The inode and the cleared data sectors of a new file. *)
Definition new_node (st len : Z) : node := Node st (replicate (Z.to_nat len) 0).

Lemma zlen_replicate {A} (x : A) len : 0 <= len -> zlen (replicate (Z.to_nat len) x) = len.
Proof. intros. unfold zlen. rewrite length_replicate. lia. Qed.

Lemma layout_add size d fm N i st len : layout size d fm N -> 0 <= len < 2 ^ 31 - 511 -> 0 <= i < size ->
  0 <= st -> st + nsec len <= size -> ~ (st <= i < st + nsec len) ->
  d i = encode_inode (InodeDisk st len INODE_MAGIC) ->
  (forall x, st <= x < st + nsec len -> d x = replicate 512 0) ->
  (forall x, owns i (new_node st len) x -> unowned N x /\ bit fm x = true) ->
  layout size d fm (<[i := new_node st len]> N).
Proof.
  intros [H1 H2 H3 H4] Hl Hi Hst Hfit Hap Hd Hz Hfree. unfold new_node in *.
  assert (forall j nj, <[i := Node st (replicate (Z.to_nat len) 0)]> N !! j = Some nj ->
    (j = i /\ nj = Node st (replicate (Z.to_nat len) 0)) \/ (j <> i /\ N !! j = Some nj)) as Hcase.
  { intros j nj. destruct (decide (j = i)) as [->|Hne].
    - rewrite lookup_insert_eq. intros [= <-]. by left.
    - rewrite lookup_insert_ne by done. by right. }
  split; try done.
  - intros j nj [[-> ->]|[_ Hj]]%Hcase; [|by apply H1].
    split; cbn [nstart contents]; rewrite ?zlen_replicate by lia; try done; [lia|by apply Forall_replicate|].
    intros k. cbn [nstart contents]. rewrite zlen_replicate by lia. intros Hk.
    rewrite Hz by (pose proof (nsec_sector len k Hk); lia). rewrite !lookup_replicate_2; [done|..].
    + pose proof (Z.mod_pos_bound k 512 ltac:(lia)). lia.
    + lia.
  - intros j k nj nk x [[-> ->]|[Hj' Hj]]%Hcase [[-> ->]|[Hk' Hk]]%Hcase Hx Hy; [done|..].
    + destruct (Hfree x Hx) as [Hu _]. by destruct (Hu k nk Hk).
    + destruct (Hfree x Hy) as [Hu _]. by destruct (Hu j nj Hj).
    + by apply (H2 j k nj nk x).
  - intros j nj x [[-> ->]|[_ Hj]]%Hcase Hx; [by apply Hfree|by apply (H3 j nj)].
Qed.

(** A file goes away; its sectors may be released. *)
Lemma layout_delete size d fm N i : layout size d fm N -> layout size d fm (delete i N).
Proof.
  intros [H1 H2 H3 H4]. split; try done.
  - intros j nj [_ Hj]%lookup_delete_Some. by apply H1.
  - intros j k nj nk x [_ Hj]%lookup_delete_Some [_ Hk]%lookup_delete_Some. by apply H2.
  - intros j nj x [_ Hj]%lookup_delete_Some. by apply H3.
Qed.

Section Proofs.
Context {H : Type} `{HA : Allocator H} {D : Type} `{HD : BlockDevice D}.
Notation fs := (@fs H D).

(** ** The free map's file *)

Definition map_file_ok (s : fs) (N : gmap Z node) (denies : gmultiset Z) : Prop :=
  exists f i n, files s !! free_map_file s = Some f /\ inodes s !! finode f = Some i /\
    isector i = FREE_MAP_SECTOR /\ N !! FREE_MAP_SECTOR = Some n /\
    zlen (contents n) = byte_cnt (disk_size s) /\ multiplicity (finode f) denies = 0%nat.

Record good (s : fs) (N : gmap Z node) (refs denies : gmultiset Z) : Prop := Good {
  gd_inv : inv s N refs denies;
  gd_idle : idle s;
  gd_map : free_map_file s = NULL \/ map_file_ok s N denies
}.

(** Two maps with the same bits; the unused bits of the last word may differ. *)
Definition same_bits (b b' : bitmap) : Prop :=
  bitmap_wf b /\ bit_cnt b = bit_cnt b' /\ forall x, 0 <= x < bit_cnt b' -> bit b x = bit b' x.

(** The free map's file, if it is open, holds the free map. *)
Definition synced (s : fs) (N : gmap Z node) : Prop :=
  free_map_file s <> NULL ->
  exists n b, N !! FREE_MAP_SECTOR = Some n /\ contents n = words_bytes (bits b) /\ same_bits b (free_map s).

Lemma synced_written s N n : N !! FREE_MAP_SECTOR = Some n -> contents n = words_bytes (bits (free_map s)) -> bitmap_wf (free_map s) ->
  synced s N.
Proof. intros Hn Hc Hw _. by exists n, (free_map s). Qed.

(** [N'] has the files of [N] with the same places and lengths. *)
Definition same_shape (N N' : gmap Z node) : Prop :=
  forall i, (fun n => (nstart n, zlen (contents n))) <$> N' !! i = (fun n => (nstart n, zlen (contents n))) <$> N !! i.

(** Only the free map's file differs. *)
Definition map_step (N N' : gmap Z node) : Prop :=
  same_shape N N' /\ forall i, i <> FREE_MAP_SECTOR -> N' !! i = N !! i.

Lemma same_shape_lookup N N' i n : same_shape N N' -> N !! i = Some n ->
  exists n', N' !! i = Some n' /\ nstart n' = nstart n /\ zlen (contents n') = zlen (contents n).
Proof.
  intros Hs Hn. specialize (Hs i). rewrite Hn in Hs. destruct (N' !! i) as [n'|]; [|done].
  apply Some_inj in Hs. injection Hs as ? ?. eauto.
Qed.

Lemma same_shape_sym N N' : same_shape N N' -> same_shape N' N.
Proof. intros Hs i. by rewrite Hs. Qed.

Lemma same_shape_unowned N N' x : same_shape N N' -> unowned N x -> unowned N' x.
Proof.
  intros Hs Hu i n' Hn' Hx. destruct (same_shape_lookup N' N i n' (same_shape_sym _ _ Hs) Hn') as (n & Hn & E1 & E2).
  apply (Hu i n Hn). unfold owns in *. by rewrite E1, E2.
Qed.

Lemma map_step_refl N : map_step N N.
Proof. done. Qed.

Lemma map_step_trans N1 N2 N3 : map_step N1 N2 -> map_step N2 N3 -> map_step N1 N3.
Proof. intros [S1 M1] [S2 M2]. split; [intros i; by rewrite S2|]. intros i Hi. by rewrite M2, M1. Qed.

Lemma map_step_write N off xs n : N !! FREE_MAP_SECTOR = Some n -> 0 <= off -> off + zlen xs <= zlen (contents n) ->
  map_step N (<[FREE_MAP_SECTOR := written off xs n]> N).
Proof.
  intros Hn Ho Hl. split; intros i; [|intros Hi; by rewrite lookup_insert_ne].
  destruct (decide (i = FREE_MAP_SECTOR)) as [->|Hne]; [|by rewrite lookup_insert_ne].
  rewrite lookup_insert_eq, Hn. cbn [fmap option_fmap option_map written nstart contents]. by rewrite zlen_overlay.
Qed.

Lemma good_quiet s s' N N' refs denies : good s N refs denies -> inv s' N' refs denies -> quiet s s' ->
  same_shape N N' -> good s' N' refs denies.
Proof.
  intros [Hi Hid Hm] Hi' [Q1 Q2 Q3 Q4 Q5 Q6 Q7 Q8 Q9] Hs. split; [done| |].
  - unfold idle. by rewrite Q1.
  - destruct Hm as [Hm|(f & i & n & H1 & H2 & H3 & H4 & H5 & H6)]; [left; congruence|right].
    destruct (same_shape_lookup N N' _ n Hs H4) as (n' & Hn' & _ & E). exists f, i, n'.
    rewrite Q3, Q5, Q1, Q9, E. done.
Qed.

Lemma map_bound s N refs denies : inv s N refs denies ->
  bitmap_wf (free_map s) /\ bit_cnt (free_map s) = disk_size s /\ 0 <= disk_size s <= 2 ^ 28.
Proof.
  intros Hi. destruct (ly_map _ _ _ _ (iv_layout _ _ _ _ Hi)) as [Hw Hc]. split; [done|]. split; [done|].
  apply bd_size_ok, Hi.
Qed.

Lemma get_file_ok (s : fs) a f : files s !! a = Some f -> get_file a s = Ok (f, s).
Proof. intros E. unfold get_file, get, bind, lift. cbn. by rewrite E. Qed.

(** Writing a map to the open free map's file. *)
Lemma bitmap_write_ok s N refs denies b : good s N refs denies -> free_map_file s <> NULL ->
  bitmap_wf b -> bit_cnt b = disk_size s ->
  exists ok s' N', bitmap_write b (free_map_file s) s = Ok (ok, s') /\ good s' N' refs denies /\ quiet s s' /\
    free_map s' = free_map s /\ map_step N N' /\
    if ok : bool then exists n, N' !! FREE_MAP_SECTOR = Some n /\ contents n = words_bytes (bits b) else oom s' = true.
Proof.
  intros Hg Hnn Hb Hc. pose proof Hg as [Hi Hid [?|(f & i & n & Hf & Ha & Es & Hn & Hl & Hd)]]; [done|].
  destruct (map_bound s N refs denies Hi) as (_ & _ & Hsz).
  destruct (byte_cnt_ok b Hb ltac:(lia)) as (Hbc & Hlt & Hi32). pose proof (zlen_nonneg (words_bytes (bits b))).
  unfold bitmap_write, file_write_at. rewrite Hi32, bind_assoc. crun (get_file_ok s _ f Hf).
  rewrite <- Es in Hn. rewrite <- Hc in Hl.
  destruct (inode_write_at_ok s N refs denies (finode f) i n (words_bytes (bits b)) (byte_cnt (bit_cnt b)) 0 Hi Hid Ha Hn
    (words_bytes_ok _) ltac:(lia) ltac:(lia) ltac:(lia)) as (k & s' & E & Hi' & Hq & Hm & Hout).
  crun E. rewrite (io_deny _ _ _ _ _ (iv_inode _ _ _ _ Hi _ i Ha)), Hd in Hout. rewrite decide_True in Hout by done.
  destruct Hout as [Hk Hout]. unfold want in *. rewrite Es in *.
  assert (zlen (slice 0 k (words_bytes (bits b))) = k) as Hzs by (unfold zlen in *; rewrite length_slice; lia).
  pose proof (map_step_write N 0 (slice 0 k (words_bytes (bits b))) n Hn ltac:(lia) ltac:(lia)) as Hms.
  exists (k =? byte_cnt (bit_cnt b)), s', (<[FREE_MAP_SECTOR := written 0 (slice 0 k (words_bytes (bits b))) n]> N).
  split; [done|]. split; [by apply (good_quiet s s' N _ refs denies Hg Hi' Hq (proj1 Hms))|]. split_and!; try done.
  destruct (Z.eqb_spec k (byte_cnt (bit_cnt b))) as [->|Hne].
  - eexists. split; [apply lookup_insert_eq|]. cbn [written contents]. rewrite slice_whole by done.
    apply overlay_whole. unfold zlen in *. lia.
  - destruct Hout as [?|[Ho _]]; [lia|done].
Qed.

(** ** Allocating and releasing sectors *)

Lemma owned_used s N refs denies x : inv s N refs denies -> ~ unowned N x -> ~ bit (free_map s) x = false.
Proof.
  intros Hi Hn Hb. apply Hn. intros i n Hin Hx.
  by rewrite (ly_used _ _ _ _ (iv_layout _ _ _ _ Hi) i n x Hin Hx) in Hb.
Qed.

Lemma good_map s N refs denies b : good s N refs denies -> bitmap_wf b -> bit_cnt b = disk_size s ->
  (forall x, 0 <= x < disk_size s -> ~ unowned N x -> bit b x = true) -> good (set_free_map b s) N refs denies.
Proof.
  intros Hg Hw Hc Hb. assert (quiet s (set_free_map b s)) as Hq by done.
  apply (good_quiet s _ N N refs denies Hg); try done. pose proof (gd_inv _ _ _ _ Hg) as Hi.
  apply (inv_quiet s _ N N refs denies Hi Hq); try apply Hi; [|eauto].
  apply (layout_map _ _ (free_map s)); [apply Hi|done..].
Qed.

Definition allocated_at (s : fs) (cnt st : Z) (s' : fs) : Prop :=
  0 <= st /\ st + cnt <= disk_size s /\ (forall x, st <= x < st + cnt -> bit (free_map s) x = false) /\
  forall x, 0 <= x < disk_size s -> bit (free_map s') x = true <-> bit (free_map s) x = true \/ st <= x < st + cnt.

Definition map_unchanged (s s' : fs) : Prop :=
  forall x, 0 <= x < disk_size s -> bit (free_map s') x = bit (free_map s) x.

Lemma bits_set_true b b' st cnt x : bits_set (range st cnt) true b b' -> 0 <= x < bit_cnt b ->
  bit b' x = true <-> bit b x = true \/ st <= x < st + cnt.
Proof.
  intros (_ & _ & Hx) Hb. destruct (Hx x Hb) as [H1 H2]. unfold range in *.
  destruct (decide (st <= x < st + cnt)) as [Hr|Hr]; [rewrite H1 by done; tauto|]. rewrite H2 by done. tauto.
Qed.

(** There is no group of [cnt] free sectors. *)
Definition no_room (s : fs) (cnt : Z) : Prop :=
  forall st, 0 <= st -> st + cnt <= disk_size s -> ~ forall x, st <= x < st + cnt -> bit (free_map s) x = false.

Lemma free_map_allocate_ok s N refs denies cnt : good s N refs denies -> 0 <= cnt ->
  exists r s' N', free_map_allocate cnt s = Ok (r, s') /\ good s' N' refs denies /\ quiet s s' /\ map_step N N' /\
    match r with
    | Some st => allocated_at s cnt st s' /\ synced s' N'
    | None => map_unchanged s s' /\ (oom s' = true \/ (s' = s /\ N' = N /\ no_room s cnt))
    end.
Proof.
  intros Hg Hcnt. pose proof (gd_inv _ _ _ _ Hg) as Hi. destruct (map_bound s N refs denies Hi) as (Hw & Hc & Hsz).
  unfold free_map_allocate. rewrite bind_get.
  destruct (bitmap_scan_and_flip_ok (free_map s) 0 cnt false Hw ltac:(lia) Hcnt) as (r & b & E & Hsc & Herr & Hset).
  rewrite (bind_ok _ _ s (r, b) s) by (unfold lift; by rewrite E). cbn [fst snd]. rewrite bind_modify.
  destruct (Z.eqb_spec r BITMAP_ERROR) as [Hr|Hr].
  { exists None, s, N. rewrite (Herr Hr). split; [by destruct s|]. split_and!; try done. right. split_and!; try done.
    destruct Hsc as [[_ Hno]|(? & ? & _)]; [|unfold BITMAP_ERROR in Hr; lia]. intros st Hst Hfit Hall.
    apply (Hno st Hst ltac:(lia)). intros x Hx. by apply Hall. }
  destruct Hsc as [[? _]|(Hr0 & Hr1 & Hfree & _)]; [done|]. pose proof (Hset Hr) as Hbs. cbn [negb] in Hbs.
  pose proof Hbs as (Hcb & Hwb & _). clear Herr Hset.
  assert (forall x, 0 <= x < disk_size s -> bit b x = true <-> bit (free_map s) x = true \/ r <= x < r + cnt) as Hbit
    by (intros x Hx; apply bits_set_true; [done|by rewrite Hc]).
  assert (forall x, r <= x < r + cnt -> bit (free_map s) x = false) as Hclear by (intros x Hx; by apply Hfree).
  assert (good (set_free_map b s) N refs denies) as Hg1.
  { apply good_map; [done..|congruence|]. intros x Hx Hn. apply Hbit; [done|]. left.
    apply not_false_iff_true. by apply (owned_used s N refs denies). }
  assert (forall s', free_map s' = b -> allocated_at s cnt r s') as Hat
    by (intros s' Hs'; unfold allocated_at; rewrite Hs'; split_and!; done || lia).
  set (s1 := set_free_map b s) in *. destruct (Z.eqb_spec (free_map_file s) NULL) as [Hnf|Hnf].
  { exists (Some r), s1, N. split; [done|]. split_and!; try done; [by apply Hat|]. by intros ?. }
  destruct (bitmap_write_ok s1 N refs denies b Hg1 Hnf Hwb ltac:(by rewrite Hcb, Hc)) as (ok & s2 & N2 & E2 & Hg2 & Hq2 & Hm2 & Hms & Hok).
  crun E2. assert (quiet s s2) as Hq02 by by apply (quiet_trans s s1 s2). destruct ok.
  - exists (Some r), s2, N2. split; [done|]. split_and!; try done; [by apply Hat|].
    destruct Hok as (n & Hn & Hcn). by apply (synced_written s2 N2 n); rewrite ?Hm2.
  - rewrite bind_get, Hm2. cbn [s1 free_map set_free_map].
    destruct (bitmap_set_multiple_ok b r cnt false) as (b3 & E3 & Hb3); [done|lia|done|by rewrite Hcb|].
    pose proof Hb3 as (Hc3 & Hw3 & Hx3). rewrite (bind_ok _ _ s2 b3 s2) by (unfold lift; by rewrite E3).
    rewrite bind_modify. assert (forall x, 0 <= x < disk_size s -> bit b3 x = bit (free_map s) x) as Hback.
    { intros x Hx. destruct (Hx3 x ltac:(by rewrite Hcb, Hc)) as [A1 A2]. unfold range in *.
      destruct (decide (r <= x < r + cnt)) as [Hin|Hin]; [by rewrite A1, Hclear by done|].
      rewrite A2 by done. apply eq_bool_prop_intro. rewrite !Is_true_true, Hbit by done. tauto. }
    exists None, (set_free_map b3 s2), N2. split; [done|].
    assert (disk_size s2 = disk_size s) as Hds by apply Hq02.
    split; [|split_and!; [by destruct Hq02; split|done|exact Hback|by left]].
    apply good_map; [done..|by rewrite Hc3, Hcb, Hds|]. rewrite Hds. intros x Hx Hn. rewrite Hback by done.
    apply not_false_iff_true. apply (owned_used s N refs denies x Hi). intros Hu. apply Hn.
    by apply (same_shape_unowned N N2 x (proj1 Hms)).
Qed.

(** Releasing sectors that are in use and of no file. *)
Lemma free_map_release_ok s N refs denies sector cnt : good s N refs denies -> free_map_file s <> NULL ->
  0 <= sector -> 0 <= cnt -> sector + cnt <= disk_size s ->
  (forall x, sector <= x < sector + cnt -> bit (free_map s) x = true /\ unowned N x) ->
  exists s' N', free_map_release sector cnt s = Ok (tt, s') /\ good s' N' refs denies /\ quiet s s' /\ map_step N N' /\
    (forall x, 0 <= x < disk_size s ->
       bit (free_map s') x = true <-> bit (free_map s) x = true /\ ~ (sector <= x < sector + cnt)) /\
    (oom s' = false -> synced s' N').
Proof.
  intros Hg Hnf Hs Hcnt Hfit Hfree. pose proof (gd_inv _ _ _ _ Hg) as Hi.
  destruct (map_bound s N refs denies Hi) as (Hw & Hc & Hsz). unfold free_map_release. rewrite bind_get.
  destruct (bitmap_all_ok (free_map s) sector cnt) as (all & Ea & Hall); [done|lia..|].
  rewrite (bind_ok _ _ s all s) by (unfold lift; by rewrite Ea).
  assert (all = true) as -> by (apply Hall; intros x Hx; by apply Hfree). cassert ltac:(done).
  destruct (bitmap_set_multiple_ok (free_map s) sector cnt false) as (b & E & Hb); [done|lia..|].
  pose proof Hb as (Hcb & Hwb & Hx). rewrite (bind_ok _ _ s b s) by (unfold lift; by rewrite E). rewrite bind_modify.
  assert (forall x, 0 <= x < disk_size s -> bit b x = true <-> bit (free_map s) x = true /\ ~ (sector <= x < sector + cnt)) as Hbit.
  { intros x Hxr. destruct (Hx x ltac:(lia)) as [A1 A2]. unfold range in *.
    destruct (decide (sector <= x < sector + cnt)) as [Hin|Hin]; [rewrite A1 by done; naive_solver|].
    rewrite A2 by done. tauto. }
  set (s1 := set_free_map b s). assert (good s1 N refs denies) as Hg1.
  { apply good_map; [done..|congruence|]. intros x Hxr Hn. apply Hbit; [done|]. split.
    - apply not_false_iff_true. by apply (owned_used s N refs denies).
    - intros Hin. by apply Hn, Hfree. }
  destruct (bitmap_write_ok s1 N refs denies b Hg1 Hnf Hwb ltac:(by rewrite Hcb, Hc)) as (ok & s2 & N2 & E2 & Hg2 & Hq2 & Hm2 & Hms & Hok).
  crun E2. exists s2, N2. split; [done|]. split_and!; try done; [by apply (quiet_trans s s1 s2)|by rewrite Hm2|].
  intros Ho. destruct ok; [|congruence]. destruct Hok as (n & Hn & Hcn). by apply (synced_written s2 N2 n); rewrite ?Hm2.
Qed.

(** ** Creating an inode *)

Lemma encode_inode_ok d : sector_ok (encode_inode d).
Proof.
  split; [done|]. unfold encode_inode. do 3 (apply Forall_app_2; [apply le32_bytes|]). by apply Forall_replicate.
Qed.

Lemma zero_sector_ok : sector_ok (replicate 512 0).
Proof. split; [done|]. by apply Forall_replicate. Qed.

Lemma write_unowned_ok s N refs denies x b : inv s N refs denies -> unowned N x -> 0 <= x < disk_size s -> sector_ok b ->
  exists s', block_write x b s = Ok (tt, s') /\ inv s' N refs denies /\ quiet s s' /\ device_step s s' /\
    forall y, 0 <= y < disk_size s -> disk s' y = write_sector (disk s) x b y.
Proof.
  intros Hi Hu Hx Hb. destruct (write_block_ok s N refs denies x b Hi Hx Hb) as (s' & E & Hq & Hst & Hd & Hdata).
  exists s'. split_and!; try done. pose proof Hst as [d' Es]. apply (inv_quiet s s' N N); try done; [| |eauto].
  - rewrite Es. apply Hi.
  - rewrite (qt_size _ _ Hq). apply (layout_unowned _ (disk s)); [rewrite Es; apply Hi|].
    intros y Hy Hn. rewrite Hdata by done. unfold write_sector. rewrite decide_False; [done|]. by intros ->.
Qed.

Lemma zero_loop_ok n : forall s N refs denies st i, inv s N refs denies -> 0 <= st -> 0 <= i ->
  st + i + Z.of_nat n <= disk_size s ->
  (forall x, st + i <= x < st + i + Z.of_nat n -> unowned N x) ->
  exists s', zero_loop n st i s = Ok (tt, s') /\ inv s' N refs denies /\ quiet s s' /\ device_step s s' /\
    forall y, 0 <= y < disk_size s ->
      disk s' y = if decide (st + i <= y < st + i + Z.of_nat n) then replicate 512 0 else disk s y.
Proof.
  induction n as [|n IH]; intros s N refs denies st i Hi Hst Hi0 Hfit Hu; cbn [zero_loop].
  { exists s. split_and!; try done; [exists (device s); by destruct s|]. intros y Hy. rewrite decide_False; [done|lia]. }
  pose proof (map_bound s N refs denies Hi) as (_ & _ & Hsz). rewrite u32_id by lia.
  destruct (write_unowned_ok s N refs denies (st + i) (replicate 512 0) Hi) as (s1 & E & Hi1 & Hq1 & [d1 Hd1] & Hdata1);
    [apply Hu; lia|lia|apply zero_sector_ok|]. crun E.
  destruct (IH s1 N refs denies st (i + 1) Hi1 Hst ltac:(lia)) as (s2 & E2 & Hi2 & Hq2 & [d2 Hd2] & Hdata2).
  { rewrite (qt_size _ _ Hq1). lia. }
  { intros x Hx. apply Hu. lia. }
  exists s2. split_and!; try done; [by apply (quiet_trans s s1)|exists d2; by subst|]. intros y Hy.
  rewrite Hdata2 by (by rewrite (qt_size _ _ Hq1)). rewrite Hdata1 by done. unfold write_sector.
  repeat case_decide; done || lia.
Qed.

(** The sector is set aside for an inode: in use, and of no file. *)
Definition reserved (s : fs) (N : gmap Z node) (x : Z) : Prop :=
  0 <= x < disk_size s /\ bit (free_map s) x = true /\ unowned N x.

Definition created (s : fs) (N : gmap Z node) (sector len : Z) (s' : fs) (N' : gmap Z node) : Prop :=
  exists st N1, map_step N N1 /\ N' = <[sector := new_node st len]> N1 /\
    allocated_at s (nsec len) st s' /\ synced s' N'.

Definition not_created (s : fs) (N : gmap Z node) (len : Z) (s' : fs) (N' : gmap Z node) : Prop :=
  map_step N N' /\ map_unchanged s s' /\
  (oom s' = true \/ (free_map s' = free_map s /\ N' = N /\ (len < 2 ^ 31 - 511 -> no_room s (nsec len)))).

Lemma write_inode_ok s N refs denies sector st len : good s N refs denies -> reserved s N sector -> 0 <= len < 2 ^ 31 - 511 ->
  0 <= st -> st + nsec len <= disk_size s ->
  (forall x, st <= x < st + nsec len -> unowned N x /\ bit (free_map s) x = true) ->
  ~ (st <= sector < st + nsec len) -> (free_map_file s <> NULL -> sector <> FREE_MAP_SECTOR) ->
  exists s', (block_write sector (encode_inode (InodeDisk st len INODE_MAGIC));;;
              zero_loop (Z.to_nat (nsec len)) st 0;;; ret true) s = Ok (true, s') /\
    good s' (<[sector := new_node st len]> N) refs denies /\ quiet s s' /\ device_step s s'.
Proof.
  intros Hg (Hsec & Hbit & Hun) Hlen Hst Hfit Hfree Hap Hmap. pose proof (gd_inv _ _ _ _ Hg) as Hi.
  pose proof (nsec_bound len ltac:(lia)).
  destruct (write_unowned_ok s N refs denies sector (encode_inode (InodeDisk st len INODE_MAGIC)) Hi Hun Hsec (encode_inode_ok _))
    as (s1 & E & Hi1 & Hq1 & [d1 Hd1] & Hdata1). crun E.
  destruct (zero_loop_ok (Z.to_nat (nsec len)) s1 N refs denies st 0 Hi1 Hst) as (s2 & E2 & Hi2 & Hq2 & [d2 Hd2] & Hdata2);
    [lia|rewrite (qt_size _ _ Hq1); lia|intros x Hx; apply Hfree; lia|]. crun E2.
  pose proof (quiet_trans s s1 s2 Hq1 Hq2) as Hq. exists s2.
  assert (device_step s s2) as Hds by (exists d2; by subst).
  assert (disk_size s2 = disk_size s) as Hsz by apply Hq.
  assert (forall y, 0 <= y < disk_size s -> disk s2 y =
    if decide (st <= y < st + nsec len) then replicate 512 0
    else write_sector (disk s) sector (encode_inode (InodeDisk st len INODE_MAGIC)) y) as Hdata.
  { intros y Hy. rewrite Hdata2 by (by rewrite (qt_size _ _ Hq1)). rewrite Hdata1 by done.
    rewrite Z.add_0_r, Z2Nat.id by lia. done. }
  assert (layout (disk_size s2) (disk s2) (free_map s2) (<[sector := new_node st len]> N)) as Hlay.
  { assert (free_map s2 = free_map s) as Hfm by (destruct Hds as [d ->]; done). rewrite Hfm, Hsz.
    apply layout_add; try done.
    - rewrite <- Hsz, <- Hfm. apply Hi2.
    - rewrite Hdata, decide_False by done. unfold write_sector. by rewrite decide_True.
    - intros x Hx. by rewrite Hdata, decide_True by lia.
    - intros x [->|Hx]; [done|]. unfold new_node in Hx. cbn [nstart contents] in Hx.
      rewrite zlen_replicate in Hx by lia. by apply Hfree. }
  split; [done|]. split; [|done].
  assert (N !! sector = None) as Hnew.
  { destruct (N !! sector) as [n|] eqn:En; [|done]. destruct (Hun sector n En). by left. }
  assert (forall i n, N !! i = Some n -> <[sector := new_node st len]> N !! i = Some n) as Hkeep.
  { intros i n Hin. rewrite lookup_insert_ne; [done|]. congruence. }
  split.
  - apply (inv_quiet s s2 N); try done; try apply Hi2. eauto.
  - unfold idle. rewrite (qt_inodes _ _ Hq). apply Hg.
  - destruct (gd_map _ _ _ _ Hg) as [Hm|(f & i & n & H1 & H2 & H3 & H4 & H5 & H6)]; [left; by rewrite (qt_map_file _ _ Hq)|right].
    exists f, i, n. destruct Hq as [Q1 Q2 Q3 Q4 Q5 Q6 Q7 Q8 Q9]. rewrite Q3, Q5, Q1, Q9. split_and!; try done. by apply Hkeep.
Qed.

Lemma map_file_sector s N refs denies x : good s N refs denies -> unowned N x -> free_map_file s <> NULL ->
  x <> FREE_MAP_SECTOR.
Proof.
  intros Hg Hu Hnf ->. destruct (gd_map _ _ _ _ Hg) as [?|(f & i & n & _ & _ & _ & Hn & _)]; [done|].
  apply (Hu _ n Hn). by left.
Qed.

Lemma synced_kept s N s' N' : synced s N -> free_map_file s' = free_map_file s -> free_map s' = free_map s ->
  (forall n, N !! FREE_MAP_SECTOR = Some n -> free_map_file s <> NULL -> N' !! FREE_MAP_SECTOR = Some n) -> synced s' N'.
Proof.
  intros Hs Ef Em Hn Hnf. rewrite Ef in Hnf. destruct (Hs Hnf) as (n & b & H1 & H2). exists n, b. rewrite Em. split; [by apply Hn|done].
Qed.

Lemma free_spare_ok s s1 N refs denies p : good s1 N refs denies -> quiet s s1 -> ~ al_live (heap s) p ->
  al_live (heap s1) p -> spare s1 p ->
  exists h, free p s1 = Ok (tt, set_heap h s1) /\ good (set_heap h s1) N refs denies /\ quiet s (set_heap h s1).
Proof.
  intros Hg Hq Hn Hl Hs. destruct (fs_free_ok s1 N refs denies p (gd_inv _ _ _ _ Hg)) as (h & E & Hi & Hk); [by right|].
  exists h. split; [done|]. split.
  - destruct Hg as [_ Hid Hm]. split; [done|exact Hid|exact Hm].
  - destruct Hq as [Q1 Q2 Q3 Q4 Q5 Q6 Q7 Q8 Q9]. split; try done. intros q Hq. apply Hk; [by intros ->|by apply Q8].
Qed.

Lemma inode_create_ok s N refs denies sector len : good s N refs denies -> reserved s N sector -> 0 <= len < 2 ^ 31 ->
  exists r s' N', inode_create sector len s = Ok (r, s') /\ good s' N' refs denies /\ quiet s s' /\
    if r : bool then created s N sector len s' N' else not_created s N len s' N'.
Proof.
  intros Hg Hres Hlen. unfold inode_create. cassert ltac:(apply Z.leb_le; lia).
  destruct (fs_calloc_ok s N refs denies 1 BLOCK_SECTOR_SIZE (gd_inv _ _ _ _ Hg)) as (p & s1 & E & Hi1 & Hq1 & Hd1 & Hm1 & Hp & _);
    [done..|]. crun E. pose proof (good_quiet s s1 N N refs denies Hg Hi1 Hq1 ltac:(done)) as Hg1.
  destruct Hp as [[-> Ho]|(Hn & Hnew & Hlive & Hsp)].
  { exists false, s1, N. do 3 (split; [done|]). split; [done|]. split; [|by left]. intros x _. by rewrite Hm1. }
  rewrite (proj2 (Z.eqb_neq p NULL)) by done.
  destruct (free_map_allocate_ok s1 N refs denies (bytes_to_sectors len) Hg1) as (r & s2 & N2 & E2 & Hg2 & Hq2 & Hms & Hr);
    [apply u32_bound|]. crun E2. pose proof (quiet_trans s s1 s2 Hq1 Hq2) as Hq02.
  pose proof (quiet_spare s1 s2 p Hq2 Hsp) as Hsp2. pose proof (qt_live _ _ Hq2 p Hlive) as Hl2.
  assert (disk_size s1 = disk_size s) as Hsz1 by apply Hq1.
  destruct r as [st|]; cycle 1.
  { rewrite bind_ret. destruct (free_spare_ok s s2 N2 refs denies p Hg2 Hq02 Hnew Hl2 Hsp2) as (h & E3 & Hg3 & Hq3). crun E3.
    exists false, (set_heap h s2), N2. do 3 (split; [done|]). destruct Hr as [Hmu Hr]. split; [done|]. split.
    - intros x Hx. cbn. rewrite Hmu by (by rewrite Hsz1). by rewrite Hm1.
    - destruct Hr as [Ho|(-> & -> & Hno)]; [by left|right]. cbn. split_and!; try done. intros Hsmall.
      rewrite bytes_to_sectors_ok in Hno by lia. unfold no_room in *. by rewrite <- Hm1, <- Hsz1. }
  destruct Hr as [(Hst & Hfit & Hclear & Hbits) Hsyn]. pose proof (map_bound s1 N refs denies Hi1) as (_ & _ & Hsz).
  destruct (decide (len < 2 ^ 31 - 511)) as [Hsmall|Hbig].
  2: { pose proof (bytes_to_sectors_wraps len ltac:(lia)). lia. }
  rewrite bytes_to_sectors_ok in * by lia. destruct Hres as (Hsec & Hbit & Hun).
  assert (disk_size s2 = disk_size s) as Hsz2 by apply Hq02.
  assert (forall x, st <= x < st + nsec len -> unowned N2 x /\ bit (free_map s2) x = true) as Hfree.
  { intros x Hx. split; [|apply Hbits; [lia|by right]]. apply (same_shape_unowned N N2 x (proj1 Hms)).
    intros i n Hin Hown. pose proof (ly_used _ _ _ _ (iv_layout _ _ _ _ Hi1) i n x Hin Hown). rewrite Hclear in *; done. }
  assert (unowned N2 sector) as Hun2 by by apply (same_shape_unowned N N2 sector (proj1 Hms)).
  assert (free_map_file s2 <> NULL -> sector <> FREE_MAP_SECTOR) as Hnm
    by (intros Hnf; exact (map_file_sector s2 N2 refs denies sector Hg2 Hun2 Hnf)).
  destruct (write_inode_ok s2 N2 refs denies sector st len Hg2) as (s3 & E3 & Hg3 & Hq3 & [d3 Hd3]); try done.
  { split_and!; [lia..| |done]. apply Hbits; [lia|]. left. by rewrite Hm1. }
  { lia. }
  { lia. }
  { intros Hx. specialize (Hclear sector Hx). rewrite Hm1 in Hclear. congruence. }
  crun E3. pose proof (quiet_trans s s2 s3 Hq02 Hq3) as Hq03.
  destruct (free_spare_ok s s3 _ refs denies p Hg3 Hq03 Hnew (qt_live _ _ Hq3 p Hl2) (quiet_spare s2 s3 p Hq3 Hsp2))
    as (h & E4 & Hg4 & Hq4). crun E4.
  eexists true, _, _. split; [done|]. split; [done|]. split; [done|]. exists st, N2. split_and!; try done.
  - subst s3. unfold allocated_at in *. cbn. rewrite <- Hm1, <- Hsz1. done.
  - apply (synced_kept s2 N2); try done; [by subst s3|by subst s3|]. intros n Hn0 Hnf.
    rewrite lookup_insert_ne; [done|]. by apply Hnm.
Qed.

(** ** Opening *)

(** What stays when inodes are opened and closed: of the in-memory inodes,
    those of [K] keep their sector and whether they are removed. *)
Record stays (K : gmultiset Z) (s s' : fs) : Prop := Stays {
  sy_files : files s' = files s;
  sy_dirs : dirs s' = dirs s;
  sy_map_file : free_map_file s' = free_map_file s;
  sy_lock : lock_filesys s' = lock_filesys s;
  sy_oom : oom s = true -> oom s' = true;
  sy_size : disk_size s' = disk_size s;
  sy_inodes a i : a ∈ K -> inodes s !! a = Some i ->
    exists i', inodes s' !! a = Some i' /\ isector i' = isector i /\ removed i' = removed i
}.

Lemma quiet_stays K s s' : quiet s s' -> stays K s s'.
Proof. intros [Q1 Q2 Q3 Q4 Q5 Q6 Q7 Q8 Q9]. split; try done. intros a i _ Ha. exists i. by rewrite Q1. Qed.

Lemma stays_trans K s1 s2 s3 : stays K s1 s2 -> stays K s2 s3 -> stays K s1 s3.
Proof.
  intros [A1 A2 A3 A4 A5 A6 A7] [B1 B2 B3 B4 B5 B6 B7]. split; try congruence; auto. intros a i Hk Ha.
  destruct (A7 a i Hk Ha) as (i1 & H1 & E1 & E2). destruct (B7 a i1 Hk H1) as (i2 & H2 & E3 & E4).
  exists i2. split_and!; congruence.
Qed.

Lemma stays_sub K K' s s' : K' ⊆ K -> stays K s s' -> stays K' s s'.
Proof. intros Hs [A1 A2 A3 A4 A5 A6 A7]. split; try done. intros a i Hk. apply A7. multiset_solver. Qed.

Lemma stays_put K s a i i' : inodes s !! a = Some i -> isector i' = isector i -> removed i' = removed i ->
  stays K s (set_inodes (<[a := i']> (inodes s)) s).
Proof.
  intros Ha E1 E2. split; try done. intros b j _ Hj. cbn. destruct (decide (b = a)) as [->|Hne].
  - rewrite lookup_insert_eq. rewrite Ha in Hj. injection Hj as <-. eauto.
  - rewrite lookup_insert_ne by done. eauto.
Qed.

(** The free map's file is untouched by a change of another inode or of the
    references. *)
Lemma good_update s N refs denies refs' i i' a : good s N refs denies -> inodes s !! a = Some i ->
  isector i' = isector i -> sema i' = sema i ->
  inv (set_inodes (<[a := i']> (inodes s)) s) N refs' denies ->
  good (set_inodes (<[a := i']> (inodes s)) s) N refs' denies.
Proof.
  intros [Hi Hid Hm] Ha Es Esem Hi'. split; [done| |].
  - intros b j. cbn. destruct (decide (b = a)) as [->|Hne].
    + rewrite lookup_insert_eq. intros [= <-]. rewrite Esem. by apply (Hid a).
    + rewrite lookup_insert_ne by done. apply Hid.
  - destruct Hm as [Hm|(f & j & n & H1 & H2 & H3 & H4 & H5 & H6)]; [by left|right].
    cbn. destruct (decide (finode f = a)) as [E|Hne].
    + exists f, i', n. cbn. rewrite E, lookup_insert_eq in *. rewrite Ha in H2. injection H2 as <-.
      split_and!; try done. congruence.
    + exists f, j, n. cbn. by rewrite lookup_insert_ne.
Qed.

Lemma multiplicity_le_size (a : Z) (X : gmultiset Z) : (multiplicity a X <= size X)%nat.
Proof.
  induction X as [|x X IH] using gmultiset_ind; [by rewrite multiplicity_empty|].
  rewrite multiplicity_disj_union, gmultiset_size_disj_union, gmultiset_size_singleton.
  rewrite multiplicity_singleton. case_decide; lia.
Qed.

Lemma open_cnt_bound s N refs denies a i : inv s N refs denies -> inodes s !! a = Some i ->
  0 < open_cnt i /\ open_cnt i = Z.of_nat (multiplicity a refs) /\ open_cnt i < 2 ^ 31 - 1.
Proof.
  intros Hi Ha. destruct (io_open _ _ _ _ _ (iv_inode _ _ _ _ Hi a i Ha)) as [E H0]. split_and!; try done.
  pose proof (iv_few _ _ _ _ Hi). rewrite E.
  pose proof (multiplicity_le_size a refs). lia.
Qed.

Lemma inode_reopen_ok K s N refs denies a i : good s N refs denies -> inodes s !! a = Some i ->
  Z.of_nat (size refs) + 1 < 2 ^ 31 - 1 ->
  let s' := set_inodes (<[a := with_open_cnt (open_cnt i + 1) i]> (inodes s)) s in
  inode_reopen a s = Ok (a, s') /\ good s' N ({[+ a +]} ⊎ refs) denies /\ stays K s s'.
Proof.
  intros Hg Ha Hsz s'. pose proof (gd_inv _ _ _ _ Hg) as Hi. unfold inode_reopen.
  rewrite (proj2 (Z.eqb_neq a NULL)) by by apply (inode_not_null s N refs denies a i). cbn [negb].
  rewrite bind_assoc. crun (get_inode_ok s a i Ha). unfold put_inode. rewrite bind_modify.
  destruct (open_cnt_bound s N refs denies a i Hi Ha) as (H0 & E & Hlt). rewrite i32_id by lia.
  split; [done|]. split; [|by apply (stays_put K s a i)].
  apply (good_update s N refs denies _ i); try done.
  apply (inv_update s N refs denies _ _ a i); try done.
  - cbn [open_cnt with_open_cnt]. rewrite multiplicity_disj_union, multiplicity_singleton, decide_True, E by done. lia.
  - cbn. lia.
  - apply (io_deny _ _ _ _ _ (iv_inode _ _ _ _ Hi a i Ha)).
  - intros b Hne. split; [|done]. by rewrite multiplicity_disj_union, multiplicity_singleton, decide_False.
  - rewrite gmultiset_size_disj_union, gmultiset_size_singleton. lia.
  - pose proof (iv_denies _ _ _ _ Hi). multiset_solver.
Qed.

Lemma find_open_ok (s : fs) sector : forall l,
  (forall b, b ∈ l -> is_Some (inodes s !! b)) -> (forall b i, inodes s !! b = Some i -> b <> NULL) ->
  exists r, find_open sector l s = Ok (r, s) /\
    ((r = NULL /\ forall b i, b ∈ l -> inodes s !! b = Some i -> isector i <> sector) \/
     (exists i, r <> NULL /\ inodes s !! r = Some i /\ isector i = sector)).
Proof.
  induction l as [|b l IH]; intros Hl Hn; cbn [find_open].
  { exists NULL. split; [done|]. left. split; [done|]. intros b i Hb. by apply elem_of_nil in Hb. }
  destruct (Hl b) as [i Hi]; [by left|]. crun (get_inode_ok s b i Hi).
  destruct (Z.eqb_spec (isector i) sector) as [Es|Es].
  { exists b. split; [done|]. right. exists i. split_and!; try done. by apply (Hn b i). }
  destruct IH as (r & E & Hr); [intros c Hc; apply Hl; by right|done|]. exists r. split; [done|].
  destruct Hr as [[-> Hr]|Hr]; [left|by right]. split; [done|]. intros c j [->|Hc]%elem_of_cons Hj; [congruence|].
  by apply (Hr c j).
Qed.

Lemma inv_add_inode s N refs denies a sector n : inv s N refs denies -> al_live (heap s) a -> spare s a ->
  N !! sector = Some n -> (forall b i, inodes s !! b = Some i -> isector i <> sector) ->
  Z.of_nat (size refs) + 1 < 2 ^ 31 - 1 ->
  inv (set_inodes (<[a := Inode sector 1 false 0 (InodeDisk (nstart n) (zlen (contents n)) INODE_MAGIC) 1]> (inodes s))
        (set_open_inodes (a :: open_inodes s) s)) N ({[+ a +]} ⊎ refs) denies.
Proof.
  intros [I1 I2 I3 I4 I5 I6 I7 I8 I9 I10 I11] Hl (Sp1 & Sp2 & Sp3) Hn Hno Hsz.
  assert (multiplicity a refs = 0%nat) as Hm0.
  { apply not_elem_of_multiplicity. intros Hin. destruct (I9 a Hin) as [x Hx]. congruence. }
  assert (multiplicity a denies = 0%nat) as Hd0 by (specialize (I11 a); lia).
  split; cbn [inodes open_inodes files dirs heap device free_map set_inodes set_open_inodes]; try done.
  - intros b Hb. destruct (decide (b = a)) as [->|Hne]; [done|]. apply I4. intros Hs. apply Hb.
    unfold spare in *. cbn. by rewrite lookup_insert_ne.
  - intros b i f. destruct (decide (b = a)) as [->|Hne]; [split; [done|congruence]|].
    rewrite lookup_insert_ne by done. apply I5.
  - intros b. rewrite elem_of_cons, I6. destruct (decide (b = a)) as [->|Hne].
    + rewrite lookup_insert_eq. split; [by eexists|by left].
    + rewrite lookup_insert_ne by done. split; [by intros [?|?]|by right].
  - intros b i. destruct (decide (b = a)) as [->|Hne].
    + rewrite lookup_insert_eq. intros [= <-]. split; cbn [isector data open_cnt deny_write_cnt]; [by exists n| |by rewrite Hd0].
      rewrite multiplicity_disj_union, multiplicity_singleton, decide_True, Hm0 by done. done.
    + rewrite lookup_insert_ne by done. intros Hb. destruct (I7 b i Hb) as [K1 K2 K3]. split; try done.
      by rewrite multiplicity_disj_union, multiplicity_singleton, decide_False.
  - intros b c i j Hb Hc E. destruct (decide (b = a)) as [->|Hb'], (decide (c = a)) as [->|Hc']; try done.
    + rewrite lookup_insert_eq in Hb. rewrite lookup_insert_ne in Hc by done. injection Hb as <-.
      by destruct (Hno c j Hc).
    + rewrite lookup_insert_eq in Hc. rewrite lookup_insert_ne in Hb by done. injection Hc as <-.
      by destruct (Hno b i Hb).
    + rewrite lookup_insert_ne in Hb, Hc by done. by apply (I8 b c i j).
  - intros b Hb. destruct (decide (b = a)) as [->|Hne]; [rewrite lookup_insert_eq; by eexists|].
    rewrite lookup_insert_ne by done. apply I9. multiset_solver.
  - rewrite gmultiset_size_disj_union, gmultiset_size_singleton. lia.
  - multiset_solver.
Qed.

Lemma good_add_inode s N refs denies refs' a l i : good s N refs denies -> inodes s !! a = None -> sema i = 1 ->
  inv (set_inodes (<[a := i]> (inodes s)) (set_open_inodes l s)) N refs' denies ->
  good (set_inodes (<[a := i]> (inodes s)) (set_open_inodes l s)) N refs' denies.
Proof.
  intros [Hi Hid Hm] Ha Esem Hi'. split; [done| |].
  - intros b j. cbn. destruct (decide (b = a)) as [->|Hne].
    + rewrite lookup_insert_eq. by intros [= <-].
    + rewrite lookup_insert_ne by done. apply Hid.
  - destruct Hm as [Hm|(f & j & n & H1 & H2 & H3 & H4 & H5 & H6)]; [by left|right].
    exists f, j, n. cbn. rewrite lookup_insert_ne; [done|]. congruence.
Qed.

(** Every inode in memory was there before, or is the one of [sector], fresh. *)
Definition inodes_from (s : fs) (sector : Z) (s' : fs) : Prop :=
  forall b j, inodes s' !! b = Some j ->
    (exists j0, inodes s !! b = Some j0 /\ isector j0 = isector j /\ removed j0 = removed j) \/
    (isector j = sector /\ removed j = false).

Definition opened (s : fs) (N : gmap Z node) (refs denies : gmultiset Z) (sector r : Z) (s' : fs) : Prop :=
  (r = NULL /\ oom s' = true /\ good s' N refs denies) \/
  (r <> NULL /\ good s' N ({[+ r +]} ⊎ refs) denies /\ exists i, inodes s' !! r = Some i /\ isector i = sector).

Lemma inode_open_ok K s N refs denies sector n : good s N refs denies -> N !! sector = Some n -> K ⊆ refs ->
  Z.of_nat (size refs) + 1 < 2 ^ 31 - 1 ->
  exists r s', inode_open sector s = Ok (r, s') /\ stays K s s' /\ free_map s' = free_map s /\
    inodes_from s sector s' /\ opened s N refs denies sector r s'.
Proof.
  intros Hg Hn HK Hsz. pose proof (gd_inv _ _ _ _ Hg) as Hi. unfold inode_open. rewrite bind_get.
  destruct (find_open_ok s sector (open_inodes s)) as (r & E & Hr).
  { intros b Hb. by apply (iv_listed _ _ _ _ Hi). }
  { intros b i Hb. by apply (inode_not_null s N refs denies b i). }
  crun E. destruct Hr as [[-> Hno]|(i & Hnn & Hri & Es)].
  2: { rewrite (proj2 (Z.eqb_neq r NULL)) by done. cbn [negb].
       destruct (inode_reopen_ok K s N refs denies r i Hg Hri Hsz) as (E' & Hg' & Hst).
       eexists r, _. split; [exact E'|]. split_and!; try done.
       - intros b j. cbn. destruct (decide (b = r)) as [->|Hne]; [rewrite lookup_insert_eq; intros [= <-]|
           rewrite lookup_insert_ne by done]; left; eauto.
       - right. split_and!; try done. eexists. split; [apply lookup_insert_eq|done]. }
  cbn [negb Z.eqb NULL].
  destruct (fs_malloc_ok s N refs denies sizeof_inode Hi ltac:(done)) as (a & s1 & E1 & Hi1 & Hq1 & Hd1 & Hm1 & Ha & _).
  crun E1. pose proof (good_quiet s s1 N N refs denies Hg Hi1 Hq1 ltac:(done)) as Hg1.
  destruct Ha as [[-> Ho]|(Hn0 & Hnew & Hlive & Hsp)].
  { exists NULL, s1. split; [done|]. split_and!; try done; [by apply quiet_stays| |by left].
    intros b j. rewrite (qt_inodes _ _ Hq1). intros Hb. left. eauto. }
  rewrite (proj2 (Z.eqb_neq a NULL)) by done. rewrite bind_modify.
  pose proof (ly_node _ _ _ _ (iv_layout _ _ _ _ Hi1) sector n Hn) as Hok.
  destruct (read_block_ok s1 N refs denies sector Hi1 (no_number _ _ _ _ Hok)) as (s2 & E2 & Hi2 & Hq2 & [d2 Hd2] & _ & _).
  rewrite (no_inode _ _ _ _ Hok) in E2. set (l := a :: open_inodes s1).
  rewrite (bind_ok _ _ (set_open_inodes l s1) (encode_inode (InodeDisk (nstart n) (zlen (contents n)) INODE_MAGIC)) (set_open_inodes l s2)).
  2: { unfold block_read in *. cbn [device set_open_inodes]. destruct (bd_read sector (device s1)) as [[b d]| | |]; [|done..].
       cbn [res_bind fst snd] in *. injection E2 as -> E2. rewrite <- E2. done. }
  pose proof (map_bound s1 N refs denies Hi1) as (_ & _ & Hds). destruct Hok as [B1 B2 B3 B4 B5 B6 B7].
  pose proof (zlen_nonneg (contents n)). pose proof (nsec_bound (zlen (contents n)) ltac:(lia)).
  rewrite decode_encode by lia. unfold put_inode. rewrite bind_modify. eexists a, _. split; [done|].
  assert (inodes s2 = inodes s) as Hin by (rewrite (qt_inodes _ _ Hq2); apply Hq1).
  assert (inodes s !! a = None) as Hsa by (rewrite <- (qt_inodes _ _ Hq1); apply Hsp).
  assert (l = a :: open_inodes s2) as -> by (unfold l; by rewrite (qt_open _ _ Hq2)).
  assert (inv (set_inodes (<[a := Inode sector 1 false 0 (InodeDisk (nstart n) (zlen (contents n)) INODE_MAGIC) 1]> (inodes s2))
        (set_open_inodes (a :: open_inodes s2) s2)) N ({[+ a +]} ⊎ refs) denies) as Hi3.
  { apply inv_add_inode; try done; [by apply Hq2|by apply (quiet_spare s1)|]. intros b i Hb. rewrite Hin in Hb.
    apply (Hno b i); [|done]. apply (iv_listed _ _ _ _ Hi). by exists i. }
  split_and!.
  - pose proof (quiet_trans s s1 s2 Hq1 Hq2) as [Q1 Q2 Q3 Q4 Q5 Q6 Q7 Q8 Q9]. split; try done.
    intros b i Hb Hbi. exists i. split; [|done]. cbn. rewrite Q1, lookup_insert_ne; [done|]. congruence.
  - subst s2. cbn. by rewrite Hm1.
  - intros b j. cbn. rewrite Hin. destruct (decide (b = a)) as [->|Hne].
    + rewrite lookup_insert_eq. intros [= <-]. by right.
    + rewrite lookup_insert_ne by done. left. eauto.
  - right. split; [done|]. split; [|eexists; split; [apply lookup_insert_eq|done]].
    apply (good_add_inode s2 N refs denies); [by apply (good_quiet s1 s2 N N)|by rewrite Hin|done|done].
Qed.

(** ** Closing *)

(** No inode appears in memory. *)
Definition inodes_sub (s s' : fs) : Prop :=
  forall b j, inodes s' !! b = Some j ->
    exists j0, inodes s !! b = Some j0 /\ isector j0 = isector j /\ removed j0 = removed j.

Definition without_inode (a : Z) (s : fs) : fs :=
  set_inodes (delete a (inodes s)) (set_open_inodes (List.filter (fun b => negb (b =? a)) (open_inodes s)) s).

Lemma inv_drop_inode s N refs denies a i : inv s N ({[+ a +]} ⊎ refs) denies -> inodes s !! a = Some i ->
  multiplicity a refs = 0%nat -> denies ⊆ refs ->
  inv (without_inode a s) N refs denies /\ al_live (heap s) a /\ spare (without_inode a s) a.
Proof.
  intros [I1 I2 I3 I4 I5 I6 I7 I8 I9 I10 I11] Ha Hm0 Hsub.
  destruct (I5 a i (File 0 0 false)) as [K1 _]. destruct (K1 Ha) as [Kf Kd].
  split; [|split; [apply I4; intros (? & _); congruence|split_and!; [apply lookup_delete_eq|done..]]].
  rewrite gmultiset_size_disj_union, gmultiset_size_singleton in I10.
  unfold without_inode. split; cbn [inodes open_inodes files dirs heap device free_map set_inodes set_open_inodes]; try done.
  - intros b Hb. apply I4. intros (S1 & S2 & S3). apply Hb. split_and!; cbn; try done. by apply lookup_delete_None; right.
  - intros b j f. destruct (I5 b j f) as [L1 L2]. split; [intros [_ Hb]%lookup_delete_Some; by apply L1|done].
  - intros b. rewrite elem_of_bfilter, I6, negb_true_iff, Z.eqb_neq. destruct (decide (b = a)) as [->|Hne].
    + rewrite lookup_delete_eq. split; [by intros []|by intros []].
    + rewrite lookup_delete_ne by done. naive_solver.
  - intros b j [Hne Hb]%lookup_delete_Some. destruct (I7 b j Hb) as [L1 L2 L3]. split; try done.
    rewrite multiplicity_disj_union, multiplicity_singleton, decide_False in L2 by done. done.
  - intros b c j k [_ Hb]%lookup_delete_Some [_ Hc]%lookup_delete_Some. by apply I8.
  - intros b Hb. assert (b <> a) as Hne by (intros ->; by apply not_elem_of_multiplicity in Hm0).
    rewrite lookup_delete_ne by done. apply I9. multiset_solver.
  - lia.
Qed.

Lemma drop_frame s a K : a ∉ K -> stays K s (without_inode a s) /\ inodes_sub s (without_inode a s).
Proof.
  intros Hn. split.
  - split; try done. intros b j Hb Hj. exists j. cbn. rewrite lookup_delete_ne; [done|]. by intros ->.
  - intros b j. cbn. intros [_ Hb]%lookup_delete_Some. eauto.
Qed.

(** Closing the last but other references: the count goes down. *)
Lemma close_shared K s N refs denies a i : inv s N ({[+ a +]} ⊎ refs) denies -> inodes s !! a = Some i ->
  multiplicity a refs <> 0%nat -> denies ⊆ refs ->
  let s' := set_inodes (<[a := with_open_cnt (open_cnt i - 1) i]> (inodes s)) s in
  inode_close a s = Ok (tt, s') /\ inv s' N refs denies /\ stays K s s' /\ inodes_sub s s'.
Proof.
  intros Hi Ha Hm Hsub s'. unfold inode_close. rewrite (proj2 (Z.eqb_neq a NULL)) by exact (inode_not_null s N _ denies a i Hi Ha).
  crun (get_inode_ok s a i Ha). unfold put_inode. rewrite bind_modify.
  destruct (open_cnt_bound s N _ denies a i Hi Ha) as (H0 & E & Hlt).
  rewrite multiplicity_disj_union, multiplicity_singleton, decide_True in E by done. rewrite i32_id by lia.
  rewrite (proj2 (Z.eqb_neq _ 0)) by lia. pose proof (iv_few _ _ _ _ Hi) as Hfew.
  rewrite gmultiset_size_disj_union, gmultiset_size_singleton in Hfew.
  split; [done|]. split; [|split; [by apply (stays_put K s a i)|]].
  - apply (inv_update s N _ denies _ _ a i _ Hi Ha); try done; cbn [open_cnt with_open_cnt deny_write_cnt]; try lia.
    + apply (io_deny _ _ _ _ _ (iv_inode _ _ _ _ Hi a i Ha)).
    + intros b Hne. split; [|done]. by rewrite multiplicity_disj_union, multiplicity_singleton, decide_False.
  - intros b j. cbn. destruct (decide (b = a)) as [->|Hne].
    + rewrite lookup_insert_eq. intros [= <-]. eauto.
    + rewrite lookup_insert_ne by done. eauto.
Qed.

(** The last reference: the inode leaves memory; its sectors are released if
    it is removed. *)
Lemma close_last s N refs denies a i : inv s N ({[+ a +]} ⊎ refs) denies -> inodes s !! a = Some i ->
  multiplicity a refs = 0%nat ->
  inode_close a s = ((if removed i then
         free_map_release (isector i) 1;;;
         free_map_release (start (data i)) (bytes_to_sectors (dlength (data i)))
       else ret tt);;; free a) (without_inode a s).
Proof.
  intros Hi Ha Hm. unfold inode_close. rewrite (proj2 (Z.eqb_neq a NULL)) by exact (inode_not_null s N _ denies a i Hi Ha).
  crun (get_inode_ok s a i Ha). unfold put_inode. rewrite bind_modify.
  destruct (open_cnt_bound s N _ denies a i Hi Ha) as (H0 & E & Hlt).
  rewrite multiplicity_disj_union, multiplicity_singleton, decide_True, Hm in E by done. rewrite i32_id by lia.
  rewrite (proj2 (Z.eqb_eq _ 0)) by lia. rewrite bind_modify. unfold drop_inode. rewrite bind_modify.
  f_equal. unfold without_inode. cbn. by rewrite delete_insert_eq.
Qed.

Lemma inv_forget s N refs denies sec : inv s N refs denies -> (forall b j, inodes s !! b = Some j -> isector j <> sec) ->
  inv s (delete sec N) refs denies.
Proof.
  intros [I1 I2 I3 I4 I5 I6 I7 I8 I9 I10 I11] Hno. split; try done; [by apply layout_delete|].
  intros b j Hb. destruct (I7 b j Hb) as [(n & Hn & Ed) K2 K3]. split; try done. exists n. split; [|done].
  rewrite lookup_delete_ne; [done|]. intros E. by apply (Hno b j).
Qed.

(** The sectors of the file are released. *)
Definition released (s : fs) (N : gmap Z node) (sec : Z) (s' : fs) (N' : gmap Z node) : Prop :=
  map_step (delete sec N) N' /\ (oom s' = false -> synced s' N') /\
  exists n, N !! sec = Some n /\ forall x, 0 <= x < disk_size s ->
    bit (free_map s') x = true <-> bit (free_map s) x = true /\ ~ owns sec n x.

Definition closed (s : fs) (N : gmap Z node) (i : inode) (s' : fs) (N' : gmap Z node) : Prop :=
  (N' = N /\ free_map s' = free_map s /\ (removed i = true -> exists b j, inodes s' !! b = Some j /\ isector j = isector i)) \/
  (removed i = true /\ (forall b j, inodes s' !! b = Some j -> isector j <> isector i) /\
   released s N (isector i) s' N').

Lemma release_file_ok s N refs denies sec n : good s (delete sec N) refs denies -> free_map_file s <> NULL ->
  layout (disk_size s) (disk s) (free_map s) N -> N !! sec = Some n ->
  exists s' N', (free_map_release sec 1;;; free_map_release (nstart n) (bytes_to_sectors (zlen (contents n)))) s = Ok (tt, s') /\
    good s' N' refs denies /\ quiet s s' /\ released s N sec s' N'.
Proof.
  intros Hg Hnf Hlay Hn. destruct (ly_node _ _ _ _ Hlay sec n Hn) as [B1 B2 B3 B4 B5 B6 B7].
  pose proof (zlen_nonneg (contents n)). pose proof (nsec_bound (zlen (contents n)) ltac:(lia)).
  rewrite bytes_to_sectors_ok by lia.
  assert (forall x, owns sec n x -> bit (free_map s) x = true /\ unowned (delete sec N) x) as Hown.
  { intros x Hx. split; [by apply (ly_used _ _ _ _ Hlay sec n)|].
    intros j nj [Hne Hj]%lookup_delete_Some Hxj. apply Hne. by apply (ly_apart _ _ _ _ Hlay sec j n nj x). }
  destruct (free_map_release_ok s (delete sec N) refs denies sec 1 Hg Hnf) as (s1 & N1 & E1 & Hg1 & Hq1 & Hm1 & Hb1 & _);
    [lia..| |]. { intros x Hx. apply Hown. left. lia. }
  crun E1. pose proof (qt_size _ _ Hq1) as Hsz.
  destruct (free_map_release_ok s1 N1 refs denies (nstart n) (nsec (zlen (contents n))) Hg1) as (s2 & N2 & E2 & Hg2 & Hq2 & Hm2 & Hb2 & Hsyn);
    [by rewrite (qt_map_file _ _ Hq1)|lia..| |].
  { intros x Hx. split; [apply Hb1; [lia|]; split; [apply Hown; by right|lia]|].
    apply (same_shape_unowned (delete sec N) N1 x (proj1 Hm1)). apply Hown. by right. }
  exists s2, N2. split; [done|]. split; [done|]. split; [by apply (quiet_trans s s1)|].
  split; [by apply (map_step_trans _ N1)|]. split; [done|]. exists n. split; [done|].
  intros x Hx. rewrite Hb2, Hb1 by (rewrite ?Hsz; done). unfold owns. split; intros; intuition lia.
Qed.

(** The free map's file stays open. *)
Definition map_file_held (s : fs) (refs : gmultiset Z) : Prop :=
  forall f, files s !! free_map_file s = Some f -> finode f ∈ refs.

Lemma good_drop s N refs denies a i : good s N ({[+ a +]} ⊎ refs) denies -> inodes s !! a = Some i ->
  multiplicity a refs = 0%nat -> denies ⊆ refs -> map_file_held s refs ->
  good (without_inode a s) N refs denies /\ (free_map_file s <> NULL -> isector i <> FREE_MAP_SECTOR) /\
  forall b j, inodes (without_inode a s) !! b = Some j -> isector j <> isector i.
Proof.
  intros [Hi Hid Hm] Ha Hm0 Hsub Hheld. destruct (inv_drop_inode s N refs denies a i Hi Ha Hm0 Hsub) as (Hi1 & _ & _).
  assert (forall b j, inodes (without_inode a s) !! b = Some j -> b <> a /\ inodes s !! b = Some j) as Hin.
  { intros b j. cbn. intros [? ?]%lookup_delete_Some. done. }
  split; [split; [done| |]|split].
  - intros b j [_ Hb]%Hin. by apply (Hid b).
  - destruct Hm as [Hm|(f & j & n & H1 & H2 & H3 & H4 & H5 & H6)]; [by left|right].
    exists f, j, n. cbn. rewrite lookup_delete_ne; [done|]. intros E. pose proof (Hheld f H1) as Hf.
    rewrite <- E in Hf. by apply not_elem_of_multiplicity in Hm0.
  - intros Hnf E. destruct Hm as [Hm|(f & j & n & H1 & H2 & H3 & _)]; [done|]. pose proof (Hheld f H1) as Hf.
    assert (a = finode f) as E' by (apply (iv_unique _ _ _ _ Hi a (finode f) i j); congruence).
    rewrite <- E' in Hf. by apply not_elem_of_multiplicity in Hm0.
  - intros b j [Hne Hb]%Hin E. by apply Hne, (iv_unique _ _ _ _ Hi b a j i).
Qed.

Lemma free_inode_ok s1 N refs denies a : good s1 N refs denies -> al_live (heap s1) a -> spare s1 a ->
  exists h, free a s1 = Ok (tt, set_heap h s1) /\ good (set_heap h s1) N refs denies.
Proof.
  intros [Hi Hid Hm] Hl Hs. destruct (fs_free_ok s1 N refs denies a Hi) as (h & E & Hi' & _); [by right|].
  exists h. split; [done|]. split; [done|exact Hid|exact Hm].
Qed.

Lemma inode_close_ok K s N refs denies a i : good s N ({[+ a +]} ⊎ refs) denies -> inodes s !! a = Some i ->
  denies ⊆ refs -> K ⊆ refs -> map_file_held s refs -> (removed i = true -> free_map_file s <> NULL) ->
  exists s' N', inode_close a s = Ok (tt, s') /\ good s' N' refs denies /\ stays K s s' /\ inodes_sub s s' /\
    closed s N i s' N'.
Proof.
  intros Hg Ha Hsub HK Hheld Hrem. pose proof (gd_inv _ _ _ _ Hg) as Hi.
  destruct (decide (multiplicity a refs = 0%nat)) as [Hm0|Hm0]; cycle 1.
  { destruct (close_shared K s N refs denies a i Hi Ha Hm0 Hsub) as (E & Hi' & Hst & Hsb).
    eexists _, N. split; [exact E|]. split; [by apply (good_update s N ({[+ a +]} ⊎ refs) denies refs i)|]. split_and!; try done.
    left. split_and!; try done. intros _. eexists a, _. split; [apply lookup_insert_eq|done]. }
  destruct (good_drop s N refs denies a i Hg Ha Hm0 Hsub Hheld) as (Hg1 & Hnm & Hno).
  destruct (inv_drop_inode s N refs denies a i Hi Ha Hm0 Hsub) as (_ & Hlive & Hsp).
  destruct (drop_frame s a K) as [Hst Hsb]. { apply not_elem_of_multiplicity. specialize (HK a). lia. }
  rewrite (close_last s N refs denies a i Hi Ha Hm0). set (s1 := without_inode a s) in *.
  destruct (inode_data s N ({[+ a +]} ⊎ refs) denies a i Hi Ha) as (n & Hn & Ed & Hok). rewrite Ed. cbn [start dlength].
  destruct (removed i) eqn:Erem.
  - assert (good s1 (delete (isector i) N) refs denies) as Hg2.
    { destruct Hg1 as [Hi1 Hid1 Hm1]. split; [by apply inv_forget|done|].
      destruct Hm1 as [?|(f & j & n0 & H1 & H2 & H3 & H4 & H5 & H6)]; [by left|right]. exists f, j, n0.
      split_and!; try done. rewrite lookup_delete_ne; [done|]. apply Hnm. by apply Hrem. }
    destruct (release_file_ok s1 N refs denies (isector i) n Hg2 (Hrem eq_refl)) as (s2 & N2 & E & Hg3 & Hq & Hrel);
      [apply Hg1|done|]. crun E.
    destruct (free_inode_ok s2 N2 refs denies a Hg3) as (h & E3 & Hg4); [by apply Hq|by apply (quiet_spare s1)|].
    exists (set_heap h s2), N2. split; [exact E3|]. split; [done|].
    pose proof (quiet_stays K s1 s2 Hq) as Hst2. pose proof (stays_trans K s s1 s2 Hst Hst2) as [Y1 Y2 Y3 Y4 Y5 Y6 Y7].
    split; [by split|]. pose proof (qt_inodes _ _ Hq) as Hin. split.
    { intros b j. cbn. rewrite Hin. apply Hsb. }
    right. split; [done|]. split; [|exact Hrel]. intros b j. cbn. rewrite Hin. apply Hno.
  - rewrite bind_ret. destruct (free_inode_ok s1 N refs denies a Hg1 Hlive Hsp) as (h & E3 & Hg4).
    exists (set_heap h s1), N. split; [exact E3|]. split; [done|]. destruct Hst as [Y1 Y2 Y3 Y4 Y5 Y6 Y7].
    split; [by split|]. split; [exact Hsb|]. left. split_and!; try done. congruence.
Qed.

End Proofs.
