(* ===== verification/FsFile.v ===== *)
(** * Files: the references that open files and directories hold

    [refs_of] collects the in-memory inodes that open files and directories
    refer to; [held] is the invariant between the calls of the file system, with
    [extra] references in the hands of the caller. *)

From stdpp Require Import gmultiset.
From S2P Require Import Prelude Bitmap Alloc BlockDev Bytes FsDef FsInode FsAlloc.
Local Open Scope Z_scope.

(** ** Collecting references *)

Definition collect {A : Type} (g : A -> gmultiset Z) (m : gmap Z A) : gmultiset Z :=
  map_fold (fun _ x X => g x ⊎ X) ∅ m.

Section Collect.
Context {A : Type} (g : A -> gmultiset Z).

Lemma collect_empty : collect g ∅ = ∅.
Proof. done. Qed.

Lemma collect_insert m a x : m !! a = None -> collect g (<[a := x]> m) = g x ⊎ collect g m.
Proof. intros Ha. unfold collect. rewrite map_fold_insert_L; [done| |done]. intros. multiset_solver. Qed.

Lemma collect_delete m a x : m !! a = Some x -> collect g m = g x ⊎ collect g (delete a m).
Proof. intros Ha. rewrite <- (collect_insert (delete a m) a x) by apply lookup_delete_eq. by rewrite insert_delete_id. Qed.

Lemma collect_update m a x y : m !! a = Some x -> g y = g x -> collect g (<[a := y]> m) = collect g m.
Proof.
  intros Ha Hg. rewrite <- insert_delete_eq, collect_insert, Hg by apply lookup_delete_eq.
  symmetry. by apply collect_delete.
Qed.

Lemma collect_lookup m a x : m !! a = Some x -> g x ⊆ collect g m.
Proof. intros Ha. rewrite (collect_delete m a x Ha). multiset_solver. Qed.

Lemma collect_size m k : (forall x, size (g x) <= k)%nat -> (size (collect g m) <= k * size m)%nat.
Proof.
  intros Hg. induction m as [|a x m Ha IH] using map_ind; [rewrite collect_empty, gmultiset_size_empty; lia|].
  rewrite collect_insert, gmultiset_size_disj_union, map_size_insert_None by done. specialize (Hg x). lia.
Qed.

End Collect.

Definition file_refs : gmap Z file -> gmultiset Z := collect (fun f => {[+ finode f +]}).
Definition dir_refs : gmap Z dir -> gmultiset Z := collect (fun d => {[+ dinode d +]}).
Definition file_denies : gmap Z file -> gmultiset Z :=
  collect (fun f => if deny_write f then {[+ finode f +]} else ∅).

Lemma denies_refs m : file_denies m ⊆ file_refs m.
Proof.
  unfold file_denies, file_refs. induction m as [|a x m Ha IH] using map_ind; [done|].
  rewrite !collect_insert by done. destruct (deny_write x); multiset_solver.
Qed.

(** At most [2^30] multiples of four fit below [2^32]. *)
Lemma few_addresses (X : gset Z) : (forall x, x ∈ X -> 0 < x < 2 ^ 32 /\ x mod 4 = 0) -> Z.of_nat (size X) <= 2 ^ 30.
Proof.
  intros HX. set (quarter := fun x : Z => x / 4). assert (length (quarter <$> elements X) <= length (seqZ 0 (2 ^ 30)%Z))%nat as Hl.
  { apply submseteq_length, NoDup_submseteq.
    - apply NoDup_fmap_2_strong; [|apply NoDup_elements]. intros x y Hx%elem_of_elements Hy%elem_of_elements E.
      unfold quarter in E. destruct (HX x Hx), (HX y Hy). Z.to_euclidean_division_equations; lia.
    - intros y (x & -> & Hx%elem_of_elements)%list_elem_of_fmap. apply elem_of_seqZ.
      unfold quarter. destruct (HX x Hx). Z.to_euclidean_division_equations; lia. }
  rewrite length_fmap, length_seqZ in Hl. unfold size, set_size. cbn. lia.
Qed.

Section Proofs.
Context {H : Type} `{HA : Allocator H} {D : Type} `{HD : BlockDevice D}.
Notation fs := (@fs H D).

Definition refs_of (s : fs) : gmultiset Z := file_refs (files s) ⊎ dir_refs (dirs s).

Lemma few_refs s N refs denies : inv s N refs denies -> Z.of_nat (size (refs_of s)) <= 2 ^ 30.
Proof.
  intros Hi. assert (forall a, is_Some (files s !! a) \/ is_Some (dirs s !! a) -> 0 < a < 2 ^ 32 /\ a mod 4 = 0) as Hlive.
  { intros a Ha. apply (al_live_addr (heap s)); [apply Hi|]. apply (iv_live _ _ _ _ Hi). intros (_ & S1 & S2).
    rewrite S1, S2 in Ha. by destruct Ha as [[? ?]|[? ?]]. }
  assert (dom (files s) ## dom (dirs s)) as Hdisj.
  { apply elem_of_disjoint. intros a [f Hf]%elem_of_dom [d Hd]%elem_of_dom.
    destruct (iv_kinds _ _ _ _ Hi a (Inode 0 0 false 0 (InodeDisk 0 0 0) 0) f) as [_ K]. rewrite K in Hd; done. }
  pose proof (few_addresses (dom (files s) ∪ dom (dirs s))) as Hfew. rewrite size_union, !size_dom in Hfew by done.
  unfold refs_of, file_refs, dir_refs. rewrite gmultiset_size_disj_union.
  pose proof (collect_size (fun f => {[+ finode f +]}) (files s) 1 ltac:(intros; cbv beta; by rewrite gmultiset_size_singleton)).
  pose proof (collect_size (fun d => {[+ dinode d +]}) (dirs s) 1 ltac:(intros; cbv beta; by rewrite gmultiset_size_singleton)).
  assert (Z.of_nat (size (files s) + size (dirs s)) <= 2 ^ 30); [|lia]. apply Hfew.
  intros a [Ha|Ha]%elem_of_union; apply Hlive; [left|right]; by apply elem_of_dom.
Qed.

(** ** Objects come and go *)

Lemma good_put_file s N refs denies f x : good s N refs denies -> al_live (heap s) f -> spare s f ->
  good (set_files (<[f := x]> (files s)) s) N refs denies.
Proof.
  intros [Hi Hid Hm] Hl (S1 & S2 & S3). destruct Hi as [I1 I2 I3 I4 I5 I6 I7 I8 I9 I10 I11]. split; [split|done|]; try done.
  - intros a Ha. destruct (decide (a = f)) as [->|Hne]; [done|]. apply I4. intros Hs. apply Ha.
    unfold spare in *. cbn. by rewrite lookup_insert_ne.
  - intros a i y. cbn. destruct (decide (a = f)) as [->|Hne]; [split; [congruence|done]|].
    rewrite lookup_insert_ne by done. apply I5.
  - destruct Hm as [?|(g & j & n & H1 & H2 & H3 & H4 & H5 & H6)]; [by left|right]. exists g, j, n.
    cbn. rewrite lookup_insert_ne; [done|]. congruence.
Qed.

Lemma good_put_dir s N refs denies d x : good s N refs denies -> al_live (heap s) d -> spare s d ->
  good (set_dirs (<[d := x]> (dirs s)) s) N refs denies.
Proof.
  intros [Hi Hid Hm] Hl (S1 & S2 & S3). destruct Hi as [I1 I2 I3 I4 I5 I6 I7 I8 I9 I10 I11]. split; [split|done|]; try done.
  - intros a Ha. destruct (decide (a = d)) as [->|Hne]; [done|]. apply I4. intros Hs. apply Ha.
    unfold spare in *. cbn. by rewrite lookup_insert_ne.
  - intros a i y. cbn. destruct (decide (a = d)) as [->|Hne]; [split; congruence|].
    rewrite lookup_insert_ne by done. apply I5.
Qed.

(** A file or directory that is not the free map's is taken off the books. *)
Lemma good_drop_file s N refs denies f x : good s N refs denies -> files s !! f = Some x -> f <> free_map_file s ->
  let s' := set_files (delete f (files s)) s in
  good s' N refs denies /\ al_live (heap s') f /\ spare s' f.
Proof.
  intros [Hi Hid Hm] Hf Hne. destruct Hi as [I1 I2 I3 I4 I5 I6 I7 I8 I9 I10 I11].
  assert (forall i, inodes s !! f = Some i -> False) as Hni.
  { intros i Hi. destruct (I5 f i x) as [K _]. destruct (K Hi). congruence. }
  split; [split; [split|done|]; try done|split].
  - intros a Ha. apply I4. intros (S1 & S2 & S3). apply Ha. split_and!; try done. cbn. apply lookup_delete_None. by right.
  - intros a i y. destruct (I5 a i y) as [K1 K2]. split.
    + intros Hai. destruct (K1 Hai) as [E1 E2]. split; [|done]. cbn. apply lookup_delete_None. by right.
    + cbn. intros [_ ?]%lookup_delete_Some. by apply K2.
  - destruct Hm as [?|(g & j & n & H1 & H2 & H3 & H4 & H5 & H6)]; [by left|right]. exists g, j, n.
    cbn. rewrite lookup_delete_ne; done.
  - apply I4. intros (_ & S2 & _). congruence.
  - split_and!; cbn; [|apply lookup_delete_eq|].
    + destruct (inodes s !! f) as [i|]; [by destruct (Hni i)|done].
    + destruct (I5 f (Inode 0 0 false 0 (InodeDisk 0 0 0) 0) x) as [_ K]. by apply K.
Qed.

Lemma good_drop_dir s N refs denies d x : good s N refs denies -> dirs s !! d = Some x ->
  let s' := set_dirs (delete d (dirs s)) s in
  good s' N refs denies /\ al_live (heap s') d /\ spare s' d.
Proof.
  intros [Hi Hid Hm] Hd. destruct Hi as [I1 I2 I3 I4 I5 I6 I7 I8 I9 I10 I11].
  split; [split; [split|done|]; try done|split].
  - intros a Ha. apply I4. intros (S1 & S2 & S3). apply Ha. split_and!; try done. cbn. apply lookup_delete_None. by right.
  - intros a i y. destruct (I5 a i y) as [K1 K2]. split.
    + intros Hai. destruct (K1 Hai) as [E1 E2]. split; [done|]. cbn. apply lookup_delete_None. by right.
    + intros Hf. cbn. apply lookup_delete_None. right. by apply K2.
  - apply I4. intros (_ & _ & S3). congruence.
  - split_and!; cbn; [| |apply lookup_delete_eq].
    + destruct (inodes s !! d) as [i|] eqn:Ei; [|done]. destruct (I5 d i (File 0 0 false)) as [K _]. destruct (K Ei). congruence.
    + destruct (files s !! d) as [y|] eqn:Ey; [|done].
      destruct (I5 d (Inode 0 0 false 0 (InodeDisk 0 0 0) 0) y) as [_ K]. rewrite K in Hd; done.
Qed.

(** The references: of the objects, and [extra]. *)
Definition held (s : fs) (N : gmap Z node) (extra : gmultiset Z) : Prop :=
  good s N (extra ⊎ refs_of s) (file_denies (files s)).

Lemma held_map_file s N extra : held s N extra -> map_file_held s (extra ⊎ refs_of s).
Proof.
  intros _ f Hf. unfold refs_of, file_refs. pose proof (collect_lookup (fun f => {[+ finode f +]}) _ _ _ Hf). multiset_solver.
Qed.

Lemma held_denies s extra : file_denies (files s) ⊆ extra ⊎ refs_of s.
Proof. unfold refs_of. pose proof (denies_refs (files s)). multiset_solver. Qed.

Lemma held_few s N extra : held s N extra -> (size extra <= 100)%nat ->
  Z.of_nat (size (extra ⊎ refs_of s)) + 1 < 2 ^ 31 - 1.
Proof.
  intros Hh He. pose proof (few_refs s N _ _ (gd_inv _ _ _ _ Hh)). rewrite gmultiset_size_disj_union. lia.
Qed.

(** A reference in hand. *)
Lemma held_inode s N a extra : held s N ({[+ a +]} ⊎ extra) -> exists i, inodes s !! a = Some i.
Proof. intros Hh. apply (iv_refs _ _ _ _ (gd_inv _ _ _ _ Hh) a). multiset_solver. Qed.

Lemma held_file s N extra f x : held s N extra -> files s !! f = Some x -> exists i, inodes s !! finode x = Some i.
Proof.
  intros Hh Hf. apply (iv_refs _ _ _ _ (gd_inv _ _ _ _ Hh)). unfold refs_of, file_refs.
  pose proof (collect_lookup (fun f => {[+ finode f +]}) _ _ _ Hf). multiset_solver.
Qed.

Lemma held_dir s N extra d x : held s N extra -> dirs s !! d = Some x -> exists i, inodes s !! dinode x = Some i.
Proof.
  intros Hh Hd. apply (iv_refs _ _ _ _ (gd_inv _ _ _ _ Hh)). unfold refs_of, dir_refs.
  pose proof (collect_lookup (fun d => {[+ dinode d +]}) _ _ _ Hd). multiset_solver.
Qed.

(** ** Opening and closing with references *)

Lemma refs_of_eq (s s' : fs) : files s' = files s -> dirs s' = dirs s -> refs_of s' = refs_of s.
Proof. intros E1 E2. unfold refs_of. by rewrite E1, E2. Qed.

Lemma held_of s N extra refs denies : good s N refs denies -> refs = extra ⊎ refs_of s -> denies = file_denies (files s) ->
  held s N extra.
Proof. by intros Hg -> ->. Qed.

Lemma quiet_held s s' N N' extra : held s N extra -> inv s' N' (extra ⊎ refs_of s) (file_denies (files s)) ->
  quiet s s' -> same_shape N N' -> held s' N' extra.
Proof.
  intros Hh Hi Hq Hs. pose proof (good_quiet s s' N N' _ _ Hh Hi Hq Hs) as Hg.
  apply (held_of s' N' extra _ _ Hg); [by rewrite (refs_of_eq s s') by apply Hq|by rewrite (qt_files _ _ Hq)].
Qed.

Lemma open_held s N extra sector n : held s N extra -> N !! sector = Some n -> (size extra <= 100)%nat ->
  exists r s', inode_open sector s = Ok (r, s') /\ stays (extra ⊎ refs_of s) s s' /\ free_map s' = free_map s /\
    inodes_from s sector s' /\
    ((r = NULL /\ oom s' = true /\ held s' N extra) \/
     (r <> NULL /\ held s' N ({[+ r +]} ⊎ extra) /\ exists i, inodes s' !! r = Some i /\ isector i = sector)).
Proof.
  intros Hh Hn He.
  destruct (inode_open_ok (extra ⊎ refs_of s) s N _ _ sector n Hh Hn ltac:(done) (held_few s N extra Hh He))
    as (r & s' & E & Hst & Hm & Hfrom & Hr). exists r, s'. split_and!; try done.
  pose proof (refs_of_eq s s' (sy_files _ _ _ Hst) (sy_dirs _ _ _ Hst)) as Er.
  destruct Hr as [(-> & Ho & Hg)|(Hnn & Hg & Hi)]; [left|right]; split_and!; try done;
    apply (held_of _ _ _ _ _ Hg); rewrite ?Er, ?(sy_files _ _ _ Hst); try done. by rewrite (assoc_L (⊎)).
Qed.

(** Closing a removed file needs the free map's file. *)
Definition may_close (s : fs) (a : Z) : Prop := forall i, inodes s !! a = Some i -> removed i = true -> free_map_file s <> NULL.

Lemma map_may_close s a : free_map_file s <> NULL -> may_close s a.
Proof. by intros ? ?. Qed.

Lemma close_held s N extra a i : held s N ({[+ a +]} ⊎ extra) -> inodes s !! a = Some i -> may_close s a ->
  exists s' N', inode_close a s = Ok (tt, s') /\ held s' N' extra /\ stays (extra ⊎ refs_of s) s s' /\ inodes_sub s s' /\
    closed s N i s' N'.
Proof.
  intros Hh Ha Hnf. assert (good s N ({[+ a +]} ⊎ (extra ⊎ refs_of s)) (file_denies (files s))) as Hg
    by (unfold held in Hh; by rewrite <- (assoc_L (⊎)) in Hh).
  destruct (inode_close_ok (extra ⊎ refs_of s) s N (extra ⊎ refs_of s) _ a i Hg Ha (held_denies s extra))
    as (s' & N' & E & Hg' & Hst & Hsub & Hcl); try done; [|by apply Hnf|].
  { intros f Hf. pose proof (held_map_file s N _ Hh f Hf) as Hin.
    unfold refs_of, file_refs. pose proof (collect_lookup (fun f => {[+ finode f +]}) _ _ _ Hf). multiset_solver. }
  exists s', N'. split_and!; try done. apply (held_of _ _ _ _ _ Hg'); [|by rewrite (sy_files _ _ _ Hst)].
  by rewrite (refs_of_eq s s') by apply Hst.
Qed.

(** A failed allocation closes the inode again. *)
Definition gave_up (s : fs) (N : gmap Z node) (extra : gmultiset Z) (a : Z) (s' : fs) (N' : gmap Z node) : Prop :=
  oom s' = true /\ held s' N' extra /\ stays (extra ⊎ refs_of s) s s' /\ inodes_sub s s' /\
  exists i s1, inodes s !! a = Some i /\ quiet s s1 /\ free_map s1 = free_map s /\ closed s1 N i s' N'.

Lemma give_up_ok s s1 N extra a : held s N ({[+ a +]} ⊎ extra) -> inv s1 N ({[+ a +]} ⊎ extra ⊎ refs_of s) (file_denies (files s)) ->
  quiet s s1 -> free_map s1 = free_map s -> oom s1 = true -> may_close s a ->
  exists s' N', (inode_close a;;; free NULL;;; ret NULL) s1 = Ok (NULL, s') /\ gave_up s N extra a s' N'.
Proof.
  intros Hh Hi1 Hq Hm Ho Hnf. pose proof (quiet_held s s1 N N _ Hh Hi1 Hq ltac:(done)) as Hh1.
  destruct (held_inode s N a extra Hh) as [i Ha]. assert (inodes s1 !! a = Some i) as Ha1 by by rewrite (qt_inodes _ _ Hq).
  destruct (close_held s1 N extra a i Hh1 Ha1) as (s' & N' & E & Hh' & Hst & Hsub & Hcl);
    [intros j; rewrite (qt_map_file _ _ Hq), (qt_inodes _ _ Hq); apply Hnf|].
  crun E. rewrite (bind_ok _ _ s' tt s') by (unfold free; rewrite al_free_null; cbn; by destruct s').
  exists s', N'. split; [done|]. split; [by apply Hst|]. split; [done|].
  rewrite (refs_of_eq s s1) in Hst by apply Hq. split; [by apply (stays_trans _ s s1); [apply quiet_stays|]|].
  split; [intros b j Hb; destruct (Hsub b j Hb) as (j0 & Hj0 & ?); exists j0; by rewrite <- (qt_inodes _ _ Hq)|].
  by exists i, s1.
Qed.

(** Success: the object at [p] is new. *)
Definition new_object (s s1 : fs) (p : Z) : Prop :=
  quiet s s1 /\ device s1 = device s /\ free_map s1 = free_map s /\ oom s1 = oom s /\ p <> NULL /\
  ~ al_live (heap s) p /\ spare s p.

Lemma file_open_held s N extra a : held s N ({[+ a +]} ⊎ extra) -> may_close s a ->
  exists f s' N', file_open a s = Ok (f, s') /\
    ((f = NULL /\ gave_up s N extra a s' N') \/
     (exists s1, new_object s s1 f /\ s' = set_files (<[f := File a 0 false]> (files s1)) s1 /\ N' = N /\ held s' N extra)).
Proof.
  intros Hh Hnf. destruct (held_inode s N a extra Hh) as [i Ha]. unfold file_open.
  destruct (fs_calloc_ok s N _ _ 1 sizeof_file (gd_inv _ _ _ _ Hh)) as (p & s1 & E & Hi1 & Hq1 & Hd1 & Hm1 & Hp & Ho); [done..|].
  crun E. rewrite (proj2 (Z.eqb_neq a NULL)) by exact (inode_not_null s N _ _ a i (gd_inv _ _ _ _ Hh) Ha). cbn [negb andb].
  destruct Hp as [[-> Ho1]|(Hn & Hnew & Hl & Hs)].
  - cbn [Z.eqb NULL negb]. destruct (give_up_ok s s1 N extra a Hh Hi1 Hq1 Hm1 Ho1 Hnf) as (s' & N' & E' & Hg).
    exists NULL, s', N'. split; [done|]. by left.
  - rewrite (proj2 (Z.eqb_neq p NULL)) by done. cbn [negb]. unfold put_file. rewrite bind_modify.
    eexists p, _, N. split; [done|]. right. exists s1. split.
    { split_and!; try done; [by apply Ho|]. destruct Hs as (S1 & S2 & S3), Hq1 as [Q1 Q2 Q3 Q4]. split_and!; congruence. }
    split_and!; try done. pose proof (quiet_held s s1 N N _ Hh Hi1 Hq1 ltac:(done)) as Hh1.
    pose proof (good_put_file s1 N _ _ p (File a 0 false) Hh1 Hl Hs) as Hg. pose proof Hs as (_ & S2 & _).
    apply (held_of _ _ _ _ _ Hg); unfold refs_of, file_refs, file_denies; cbn [files dirs set_files];
      rewrite !collect_insert by done; cbn [finode deny_write]; multiset_solver.
Qed.

Lemma dir_open_held s N extra a : held s N ({[+ a +]} ⊎ extra) -> may_close s a ->
  exists d s' N', dir_open a s = Ok (d, s') /\
    ((d = NULL /\ gave_up s N extra a s' N') \/
     (exists s1, new_object s s1 d /\ s' = set_dirs (<[d := Dir a 0]> (dirs s1)) s1 /\ N' = N /\ held s' N extra)).
Proof.
  intros Hh Hnf. destruct (held_inode s N a extra Hh) as [i Ha]. unfold dir_open.
  destruct (fs_calloc_ok s N _ _ 1 sizeof_dir (gd_inv _ _ _ _ Hh)) as (p & s1 & E & Hi1 & Hq1 & Hd1 & Hm1 & Hp & Ho); [done..|].
  crun E. rewrite (proj2 (Z.eqb_neq a NULL)) by exact (inode_not_null s N _ _ a i (gd_inv _ _ _ _ Hh) Ha). cbn [negb andb].
  destruct Hp as [[-> Ho1]|(Hn & Hnew & Hl & Hs)].
  - cbn [Z.eqb NULL negb]. destruct (give_up_ok s s1 N extra a Hh Hi1 Hq1 Hm1 Ho1 Hnf) as (s' & N' & E' & Hg).
    exists NULL, s', N'. split; [done|]. by left.
  - rewrite (proj2 (Z.eqb_neq p NULL)) by done. cbn [negb]. unfold put_dir. rewrite bind_modify.
    eexists p, _, N. split; [done|]. right. exists s1. split.
    { split_and!; try done; [by apply Ho|]. destruct Hs as (S1 & S2 & S3), Hq1 as [Q1 Q2 Q3 Q4]. split_and!; congruence. }
    split_and!; try done. pose proof (quiet_held s s1 N N _ Hh Hi1 Hq1 ltac:(done)) as Hh1.
    pose proof (good_put_dir s1 N _ _ p (Dir a 0) Hh1 Hl Hs) as Hg. pose proof Hs as (_ & _ & S3).
    apply (held_of _ _ _ _ _ Hg); unfold refs_of, dir_refs; cbn [files dirs set_dirs]; [|done].
    rewrite collect_insert by done; cbn [dinode]; multiset_solver.
Qed.

(** Like [stays], for operations on open files and directories. *)
Record moves (K : gmultiset Z) (s s' : fs) : Prop := Moves {
  mv_map_file : free_map_file s' = free_map_file s;
  mv_lock : lock_filesys s' = lock_filesys s;
  mv_oom : oom s = true -> oom s' = true;
  mv_size : disk_size s' = disk_size s;
  mv_inodes a i : a ∈ K -> inodes s !! a = Some i ->
    exists i', inodes s' !! a = Some i' /\ isector i' = isector i /\ removed i' = removed i
}.

Lemma stays_moves K s s' : stays K s s' -> moves K s s'.
Proof. by intros []. Qed.

Lemma moves_trans K s1 s2 s3 : moves K s1 s2 -> moves K s2 s3 -> moves K s1 s3.
Proof.
  intros [A3 A4 A5 A6 A7] [B3 B4 B5 B6 B7]. split; try congruence; auto. intros a i Hk Ha.
  destruct (A7 a i Hk Ha) as (i1 & H1 & E1 & E2). destruct (B7 a i1 Hk H1) as (i2 & H2 & E3 & E4).
  exists i2. split_and!; congruence.
Qed.

Lemma moves_sub K K' s s' : K' ⊆ K -> moves K s s' -> moves K' s s'.
Proof. intros Hs [A3 A4 A5 A6 A7]. split; try done. intros a i Hk. apply A7. multiset_solver. Qed.

Lemma get_dir_ok (s : fs) a d : dirs s !! a = Some d -> get_dir a s = Ok (d, s).
Proof. intros E. unfold get_dir, get, bind, lift. cbn. by rewrite E. Qed.

Lemma object_not_null s N refs denies a : inv s N refs denies -> ~ spare s a -> a <> NULL.
Proof. intros Hi Hs ->. by apply Hs, (spare_null s N refs denies). Qed.

(** Only some parts of the states matter to [closed]. *)
Lemma closed_frame (s s' s1 s2 : fs) N N' i i' : closed s1 N i' s2 N' -> isector i' = isector i -> removed i' = removed i ->
  free_map s1 = free_map s -> disk_size s1 = disk_size s -> free_map s' = free_map s2 -> inodes s' = inodes s2 ->
  oom s' = oom s2 -> free_map_file s' = free_map_file s2 -> closed s N i s' N'.
Proof. unfold closed, released, synced. by intros Hc <- <- <- <- -> -> -> ->. Qed.

Lemma dir_close_held s N extra d x i : held s N extra -> free_map_file s <> NULL -> dirs s !! d = Some x ->
  inodes s !! dinode x = Some i ->
  exists s' N', dir_close d s = Ok (tt, s') /\ held s' N' extra /\
    files s' = files s /\ dirs s' = delete d (dirs s) /\ moves (extra ⊎ refs_of s') s s' /\ inodes_sub s s' /\
    closed s N i s' N'.
Proof.
  intros Hh Hnf Hd Ha. pose proof (gd_inv _ _ _ _ Hh) as Hi. unfold dir_close.
  rewrite (proj2 (Z.eqb_neq d NULL)) by (apply (object_not_null s N _ _ d Hi); intros (_ & _ & ?); congruence).
  cbn [negb]. crun (get_dir_ok s d x Hd).
  set (rest := file_refs (files s) ⊎ dir_refs (delete d (dirs s))).
  assert (extra ⊎ refs_of s = {[+ dinode x +]} ⊎ (extra ⊎ rest)) as Er.
  { unfold refs_of, rest, dir_refs. rewrite (collect_delete _ (dirs s) d x Hd). multiset_solver. }
  pose proof Hh as Hg. unfold held in Hg. rewrite Er in Hg.
  destruct (inode_close_ok (extra ⊎ rest) s N (extra ⊎ rest) _ (dinode x) i Hg Ha)
    as (s1 & N1 & E1 & Hg1 & Hst & Hsub & Hcl); try done.
  { unfold rest. pose proof (denies_refs (files s)). multiset_solver. }
  { intros f Hf. unfold rest, file_refs. pose proof (collect_lookup (fun f => {[+ finode f +]}) _ _ _ Hf). multiset_solver. }
  crun E1. assert (dirs s1 !! d = Some x) as Hd1 by by rewrite (sy_dirs _ _ _ Hst).
  destruct (good_drop_dir s1 N1 _ _ d x Hg1 Hd1) as (Hg2 & Hl & Hs). set (s2 := set_dirs _ s1) in *.
  destruct (free_inode_ok s2 N1 _ _ d Hg2 Hl Hs) as (h & E2 & Hg3).
  rewrite (bind_ok _ _ s1 tt (set_heap h s1)).
  2: { unfold free in *. cbn [heap s2 set_dirs] in E2. destruct (al_free d (heap s1)) as [[u h1]| | |]; try done.
       cbn [res_bind fst snd] in *. injection E2 as -> <-. done. }
  exists (set_heap h s2), N1. split; [done|]. split.
  { apply (held_of _ _ _ _ _ Hg3); unfold refs_of; cbn [files dirs set_heap set_dirs s2];
      by rewrite ?(sy_files _ _ _ Hst), ?(sy_dirs _ _ _ Hst). }
  split; [apply Hst|]. split; [cbn; by rewrite (sy_dirs _ _ _ Hst)|].
  split; [|split; [done|by apply (closed_frame s _ s s1 N N1 i i)]].
  destruct Hst as [Y1 Y2 Y3 Y4 Y5 Y6 Y7]. unfold refs_of. cbn [files dirs set_heap set_dirs s2]. rewrite Y1, Y2. by split.
Qed.

(** ** Files *)

Lemma good_update_file s N refs denies f x y : good s N refs denies -> files s !! f = Some x -> finode y = finode x ->
  good (set_files (<[f := y]> (files s)) s) N refs denies.
Proof.
  intros [Hi Hid Hm] Hf Hy. destruct Hi as [I1 I2 I3 I4 I5 I6 I7 I8 I9 I10 I11].
  assert (forall a, is_Some (<[f := y]> (files s) !! a) <-> is_Some (files s !! a)) as Hdom.
  { intros a. destruct (decide (a = f)) as [->|Hne]; [|by rewrite lookup_insert_ne].
    rewrite lookup_insert_eq, Hf. split; eauto. }
  split; [split|done|]; try done.
  - intros a Ha. apply I4. intros (S1 & S2 & S3). apply Ha. split_and!; try done. cbn.
    by rewrite eq_None_not_Some, Hdom, <- eq_None_not_Some.
  - intros a i z. cbn. split.
    + intros Hai. destruct (I5 a i z) as [K _]. destruct (K Hai) as [E1 E2]. split; [|done].
      by rewrite eq_None_not_Some, Hdom, <- eq_None_not_Some.
    + intros Hz. destruct (proj1 (Hdom a) (ex_intro _ z Hz)) as [z' Hz'].
      destruct (I5 a (Inode 0 0 false 0 (InodeDisk 0 0 0) 0) z') as [_ K]. by apply K.
  - destruct Hm as [?|(g & j & n & H1 & H2 & H3 & H4 & H5 & H6)]; [by left|right]. cbn.
    destruct (decide (free_map_file s = f)) as [E|Hne].
    + exists y, j, n. cbn. rewrite E, lookup_insert_eq in *. rewrite Hf in H1. injection H1 as <-. by rewrite Hy.
    + exists g, j, n. cbn. by rewrite lookup_insert_ne.
Qed.

Lemma update_file_held s N extra f x y : held s N extra -> files s !! f = Some x -> finode y = finode x ->
  deny_write y = deny_write x -> held (set_files (<[f := y]> (files s)) s) N extra.
Proof.
  intros Hh Hf E1 E2. apply (held_of _ _ _ _ _ (good_update_file s N _ _ f x y Hh Hf E1));
    unfold refs_of, file_refs, file_denies; cbn [files dirs set_files]; erewrite !collect_update by (try done; by rewrite ?E1, ?E2); done.
Qed.

(** Whether a file denies writes changes, and with it the count of its inode. *)
Lemma deny_held s N extra f x i b : held s N extra -> files s !! f = Some x -> f <> free_map_file s ->
  inodes s !! finode x = Some i -> deny_write x = negb b ->
  (forall g, files s !! free_map_file s = Some g -> finode g <> finode x) ->
  let s1 := set_files (<[f := File (finode x) (fpos x) b]> (files s)) s in
  let i' := with_deny (if b then deny_write_cnt i + 1 else deny_write_cnt i - 1) i in
  let s' := set_inodes (<[finode x := i']> (inodes s1)) s1 in
  held s' N extra /\ 0 <= deny_write_cnt i' <= open_cnt i' /\ 0 <= deny_write_cnt i <= open_cnt i /\ open_cnt i < 2 ^ 31 - 1.
Proof.
  intros Hh Hf Hnf Ha Hb Hmap s1 i' s'. pose proof (gd_inv _ _ _ _ Hh) as Hi.
  pose proof (good_update_file s N _ _ f x (File (finode x) (fpos x) b) Hh Hf eq_refl) as Hg1. fold s1 in Hg1.
  set (a := finode x) in *. set (rest := file_denies (delete f (files s))).
  assert (file_denies (files s) = (if deny_write x then {[+ a +]} else ∅) ⊎ rest) as Ed
    by (unfold rest, file_denies; by rewrite (collect_delete _ (files s) f x Hf)).
  assert (file_denies (files s') = (if b then {[+ a +]} else ∅) ⊎ rest) as Ed'.
  { unfold rest, file_denies, s', s1. cbn [files set_inodes set_files]. rewrite <- insert_delete_eq.
    by rewrite collect_insert by apply lookup_delete_eq. }
  assert (refs_of s' = refs_of s) as Er.
  { unfold refs_of, file_refs, s', s1. cbn [files dirs set_inodes set_files]. by erewrite collect_update by done. }
  assert (inodes s1 !! a = Some i) as Ha1 by done.
  assert (Z.of_nat (multiplicity a (file_denies (files s'))) = deny_write_cnt i') as Hcnt.
  { pose proof (io_deny _ _ _ _ _ (iv_inode _ _ _ _ Hi a i Ha)) as Hdn. rewrite Ed in Hdn. rewrite Ed'. unfold i'.
    cbn [deny_write_cnt with_deny]. rewrite Hdn, Hb. rewrite !multiplicity_disj_union.
    destruct b; cbn [negb]; rewrite ?multiplicity_singleton, ?decide_True, ?multiplicity_empty by done; lia. }
  destruct (open_cnt_bound s N _ _ a i Hi Ha) as (Ho0 & Ho & Hob).
  pose proof (held_denies s' extra) as Hsub. pose proof (held_denies s extra) as Hsub0. rewrite Er in Hsub.
  assert (held s' N extra) as Hh'.
  { assert (inv s' N (extra ⊎ refs_of s) (file_denies (files s'))) as Hi'.
    { apply (inv_update s1 N (extra ⊎ refs_of s) (file_denies (files s)) _ _ a i); try done; [apply Hg1| |apply Hi].
      intros c Hc. split; [done|]. rewrite Ed, Ed', !multiplicity_disj_union. f_equal.
      destruct b; rewrite Hb; cbn [negb]; by rewrite multiplicity_singleton, decide_False, multiplicity_empty. }
    apply (held_of s' N extra (extra ⊎ refs_of s) (file_denies (files s'))); [|by rewrite Er|done].
    destruct Hg1 as [_ Hid Hm]. split; [done| |].
    - intros c j. unfold s'. cbn. destruct (decide (c = a)) as [->|Hne]; [rewrite lookup_insert_eq|rewrite lookup_insert_ne by done].
      + intros [= <-]. by apply (Hid a i).
      + apply (Hid c j).
    - destruct Hm as [?|(g & j & n & H1 & H2 & H3 & H4 & H5 & H6)]; [by left|right]. exists g, j, n.
      assert (finode g <> a) as Hga. { apply Hmap. unfold s1 in H1. cbn in H1. by rewrite lookup_insert_ne in H1. }
      split_and!; try done; [unfold s'; cbn; by rewrite lookup_insert_ne|].
      rewrite Ed in H6. rewrite Ed'. rewrite multiplicity_disj_union in *.
      destruct b; cbn [negb] in *; rewrite ?multiplicity_singleton, ?decide_False, ?multiplicity_empty by done; lia. }
  split; [done|]. specialize (Hsub a). specialize (Hsub0 a).
  pose proof (io_deny _ _ _ _ _ (iv_inode _ _ _ _ Hi a i Ha)) as Hdn.
  change (open_cnt i') with (open_cnt i). lia.
Qed.

(** A file other than the free map's, with its inode. *)
Definition user_file (s : fs) (f : Z) (x : file) (i : inode) : Prop :=
  files s !! f = Some x /\ f <> free_map_file s /\ inodes s !! finode x = Some i /\
  forall g, files s !! free_map_file s = Some g -> finode g <> finode x.

(** Only the file [f] and how its inode is denied change. *)
Definition file_step (s : fs) (f : Z) (x y : file) (s' : fs) : Prop :=
  files s' = <[f := y]> (files s) /\ finode y = finode x /\ dirs s' = dirs s /\ device s' = device s /\
  free_map s' = free_map s /\ oom s' = oom s /\ (forall K, moves K s s') /\ inodes_sub s s'.

Lemma file_not_null s N extra f x i : held s N extra -> user_file s f x i -> f <> NULL.
Proof.
  intros Hh (Hf & _). apply (object_not_null s N _ _ f (gd_inv _ _ _ _ Hh)). intros (_ & ? & _). congruence.
Qed.

Lemma set_deny_step s f x i y v : inodes s !! finode x = Some i -> finode y = finode x ->
  let s1 := set_files (<[f := y]> (files s)) s in
  file_step s f x y (set_inodes (<[finode x := with_deny v i]> (inodes s1)) s1).
Proof.
  intros Ha E s1. split_and!; try done.
  - intros K. split; try done. intros b j _ Hb. cbn. destruct (decide (b = finode x)) as [->|Hne].
    + rewrite lookup_insert_eq. rewrite Ha in Hb. injection Hb as <-. eauto.
    + rewrite lookup_insert_ne by done. eauto.
  - intros b j. cbn. destruct (decide (b = finode x)) as [->|Hne].
    + rewrite lookup_insert_eq. intros [= <-]. eauto.
    + rewrite lookup_insert_ne by done. eauto.
Qed.

Lemma file_step_id s f x : files s !! f = Some x -> file_step s f x x s.
Proof.
  intros Hf. split_and!; try done; [by rewrite insert_id|intros K; split; try done; eauto|]. intros b j Hb. eauto.
Qed.

Lemma file_deny_write_held s N extra f x i : held s N extra -> user_file s f x i ->
  exists s', file_deny_write f s = Ok (tt, s') /\ held s' N extra /\ file_step s f x (File (finode x) (fpos x) true) s'.
Proof.
  intros Hh Hu. pose proof Hu as (Hf & Hnf & Ha & Hg). unfold file_deny_write.
  cassert ltac:(by rewrite (proj2 (Z.eqb_neq f NULL)) by exact (file_not_null s N extra f x i Hh Hu)).
  crun (get_file_ok s f x Hf). destruct (deny_write x) eqn:Ed; cbn [negb].
  { exists s. split; [done|]. split; [done|]. assert (x = File (finode x) (fpos x) true) as <- by (destruct x; cbn in *; by subst).
    by apply file_step_id. }
  destruct (deny_held s N extra f x i true Hh Hf Hnf Ha Ed Hg) as (Hh' & Hc & Hb).
  unfold put_file. rewrite bind_modify. unfold inode_deny_write.
  rewrite (bind_ok _ _ _ i _) by (by apply get_inode_ok). rewrite i32_id by lia. unfold put_inode. rewrite bind_modify.
  eexists. split; [apply assert_ok, Z.leb_le; cbn in Hc; lia|]. split; [done|]. by apply set_deny_step.
Qed.

Lemma file_allow_write_held s N extra f x i : held s N extra -> user_file s f x i ->
  exists s', file_allow_write f s = Ok (tt, s') /\ held s' N extra /\ file_step s f x (File (finode x) (fpos x) false) s'.
Proof.
  intros Hh Hu. pose proof Hu as (Hf & Hnf & Ha & Hg). unfold file_allow_write.
  cassert ltac:(by rewrite (proj2 (Z.eqb_neq f NULL)) by exact (file_not_null s N extra f x i Hh Hu)).
  crun (get_file_ok s f x Hf). destruct (deny_write x) eqn:Ed; cycle 1.
  { exists s. split; [done|]. split; [done|]. assert (x = File (finode x) (fpos x) false) as <- by (destruct x; cbn in *; by subst).
    by apply file_step_id. }
  destruct (deny_held s N extra f x i false Hh Hf Hnf Ha Ed Hg) as (Hh' & Hc & Hb). cbn [deny_write_cnt with_deny] in Hc.
  unfold put_file. rewrite bind_modify. unfold inode_allow_write.
  rewrite (bind_ok _ _ _ i _) by (by apply get_inode_ok). cassert ltac:(apply Z.ltb_lt; lia). cassert ltac:(apply Z.leb_le; lia).
  rewrite i32_id by lia. unfold put_inode. rewrite bind_modify.
  eexists. split; [apply assert_ok, Z.leb_le; cbn in Hc; lia|]. split; [done|]. by apply set_deny_step.
Qed.

Lemma inodes_sub_trans (s1 s2 s3 : fs) : inodes_sub s1 s2 -> inodes_sub s2 s3 -> inodes_sub s1 s3.
Proof.
  intros A B b j Hj. destruct (B b j Hj) as (j1 & H1 & E1 & E2). destruct (A b j1 H1) as (j0 & H0 & E3 & E4).
  exists j0. split_and!; congruence.
Qed.

(** The inode of a file after a step on it. *)
Lemma file_step_inode s f x y s' i : file_step s f x y s' -> inodes s !! finode x = Some i ->
  exists i', inodes s' !! finode x = Some i' /\ isector i' = isector i /\ removed i' = removed i.
Proof.
  intros (_ & _ & _ & _ & _ & _ & Hmv & _) Ha. apply (mv_inodes _ _ _ (Hmv {[+ finode x +]}) _ i); [multiset_solver|done].
Qed.


Lemma file_close_held s N extra f x i : held s N extra -> (removed i = true -> free_map_file s <> NULL) -> user_file s f x i ->
  exists s' N', file_close f s = Ok (tt, s') /\ held s' N' extra /\
    files s' = delete f (files s) /\ dirs s' = dirs s /\ moves (extra ⊎ refs_of s') s s' /\ inodes_sub s s' /\
    closed s N i s' N'.
Proof.
  intros Hh Hnf Hu. pose proof Hu as (Hf & Hne & Ha & Hg). unfold file_close.
  rewrite (proj2 (Z.eqb_neq f NULL)) by exact (file_not_null s N extra f x i Hh Hu). cbn [negb].
  destruct (file_allow_write_held s N extra f x i Hh Hu) as (s1 & E1 & Hh1 & Hstep). crun E1.
  destruct (file_step_inode s f x _ s1 i Hstep Ha) as (i1 & Ha1 & Es1 & Er1).
  set (y := File (finode x) (fpos x) false) in *. destruct Hstep as (Hf1 & _ & Hd1 & _ & Hm1 & _ & Hmv1 & Hsub1).
  assert (files s1 !! f = Some y) as Hfy by (rewrite Hf1; apply lookup_insert_eq). crun (get_file_ok s1 f y Hfy).
  assert (delete f (files s1) = delete f (files s)) as Hdel by (by rewrite Hf1, delete_insert_eq).
  set (rest := file_refs (delete f (files s)) ⊎ dir_refs (dirs s)).
  assert (extra ⊎ refs_of s1 = {[+ finode x +]} ⊎ (extra ⊎ rest)) as Er.
  { unfold refs_of, rest, file_refs. rewrite (collect_delete _ (files s1) f y Hfy), Hdel, Hd1. cbn [finode y]. multiset_solver. }
  assert (file_denies (files s1) = file_denies (delete f (files s))) as Edn.
  { unfold file_denies. rewrite (collect_delete _ (files s1) f y Hfy), Hdel. cbn [deny_write y]. multiset_solver. }
  assert (free_map_file s1 = free_map_file s) as Hmf by apply (mv_map_file _ _ _ (Hmv1 ∅)).
  pose proof Hh1 as Hg1. unfold held in Hg1. rewrite Er, Edn in Hg1.
  destruct (inode_close_ok (extra ⊎ rest) s1 N (extra ⊎ rest) _ (finode x) i1 Hg1 Ha1)
    as (s2 & N2 & E2 & Hg2 & Hst & Hsub & Hcl); try done.
  { unfold rest. pose proof (denies_refs (delete f (files s))). multiset_solver. }
  { intros g Hgf. rewrite Hmf, Hf1, lookup_insert_ne in Hgf by done. unfold rest, file_refs.
    pose proof (collect_lookup (fun f => {[+ finode f +]}) (delete f (files s)) (free_map_file s) g) as Hl.
    rewrite lookup_delete_ne in Hl by done. specialize (Hl Hgf). multiset_solver. }
  { rewrite Hmf, Er1. exact Hnf. }
  crun E2. assert (files s2 !! f = Some y) as Hf2 by by rewrite (sy_files _ _ _ Hst).
  destruct (good_drop_file s2 N2 _ _ f y Hg2 Hf2) as (Hg3 & Hl & Hs); [by rewrite (sy_map_file _ _ _ Hst), Hmf|].
  set (s3 := set_files _ s2) in *. destruct (free_inode_ok s3 N2 _ _ f Hg3 Hl Hs) as (h & E3 & Hg4).
  rewrite (bind_ok _ _ s2 tt (set_heap h s2)).
  2: { unfold free in *. cbn [heap s3 set_files] in E3. destruct (al_free f (heap s2)) as [[u h1]| | |]; try done.
       cbn [res_bind fst snd] in *. injection E3 as -> <-. done. }
  assert (files (set_heap h s3) = delete f (files s)) as Hfin by (cbn; by rewrite (sy_files _ _ _ Hst), Hdel).
  assert (dirs (set_heap h s3) = dirs s) as Hdin by (cbn; by rewrite (sy_dirs _ _ _ Hst), Hd1).
  exists (set_heap h s3), N2. split; [done|]. split.
  { apply (held_of _ _ _ _ _ Hg4); unfold refs_of; by rewrite Hfin, ?Hdin. }
  split; [done|]. split; [done|]. unfold refs_of. rewrite Hfin, Hdin. fold rest.
  split; [apply (moves_trans _ s s1); [apply Hmv1|]; by destruct Hst; split|].
  split; [by apply (inodes_sub_trans s s1)|]. apply (closed_frame s _ s1 s2 N N2 i i1); try done. apply (mv_size _ _ _ (Hmv1 ∅)).
Qed.

Lemma file_read_held s N extra f x i n buffer size : held s N extra -> files s !! f = Some x -> inodes s !! finode x = Some i ->
  N !! isector i = Some n -> 0 <= fpos x < 2 ^ 31 -> 0 <= size <= zlen buffer -> zlen buffer < 2 ^ 31 ->
  exists k (s1 s' : fs), file_read f buffer size s = Ok (k, overlay 0 (slice (fpos x) k (contents n)) buffer, s') /\ held s' N extra /\
    quiet s s1 /\ free_map s1 = free_map s /\ outcome s (zlen (contents n)) size (fpos x) NULL k s' /\
    s' = set_files (<[f := File (finode x) (fpos x + k) (deny_write x)]> (files s1)) s1.
Proof.
  intros Hh Hf Ha Hn Hp Hs Hb. unfold file_read. crun (get_file_ok s f x Hf). pose proof (gd_inv _ _ _ _ Hh) as Hi.
  destruct (inode_read_at_ok s N _ _ (finode x) i n buffer size (fpos x) Hi Ha Hn Hp Hs Hb) as (k & s1 & E & Hi1 & Hq & Hm & Hk & Hout).
  crun E. cbn [fst snd]. pose proof (quiet_held s s1 N N extra Hh Hi1 Hq ltac:(done)) as Hh1.
  pose proof (no_length _ _ _ _ (ly_node _ _ _ _ (iv_layout _ _ _ _ Hi) _ n Hn)) as Hlen. unfold want in Hk.
  rewrite i32_id by lia. unfold put_file. rewrite bind_modify. eexists k, s1, _. split; [done|].
  assert (files s1 !! f = Some x) as Hf1 by by rewrite (qt_files _ _ Hq).
  split; [by apply (update_file_held s1 N extra f x)|]. done.
Qed.

Lemma file_write_held s N extra f x i n buffer size : held s N extra -> files s !! f = Some x -> inodes s !! finode x = Some i ->
  N !! isector i = Some n -> Forall byte buffer -> 0 <= fpos x < 2 ^ 31 -> 0 <= size <= zlen buffer -> zlen buffer < 2 ^ 31 ->
  exists k (s1 s' : fs), file_write f buffer size s = Ok (k, s') /\
    held s' (<[isector i := written (fpos x) (slice 0 k buffer) n]> N) extra /\ quiet s s1 /\ free_map s1 = free_map s /\
    (if decide (deny_write_cnt i = 0) then outcome s (zlen (contents n)) size (fpos x) NULL k s' else k = 0) /\
    0 <= k <= want (zlen (contents n)) size (fpos x) /\
    s' = set_files (<[f := File (finode x) (fpos x + k) (deny_write x)]> (files s1)) s1.
Proof.
  intros Hh Hf Ha Hn Hby Hp Hs Hb. unfold file_write. crun (get_file_ok s f x Hf). pose proof (gd_inv _ _ _ _ Hh) as Hi.
  destruct (inode_write_at_ok s N _ _ (finode x) i n buffer size (fpos x) Hi (gd_idle _ _ _ _ Hh) Ha Hn Hby Hp Hs Hb) as (k & s1 & E & Hi1 & Hq & Hm & Hout).
  crun E. assert (0 <= k <= want (zlen (contents n)) size (fpos x)) as Hk.
  { case_decide; [by destruct Hout|]. subst k. unfold want. lia. }
  pose proof (no_length _ _ _ _ (ly_node _ _ _ _ (iv_layout _ _ _ _ Hi) _ n Hn)) as Hlen.
  assert (zlen (slice 0 k buffer) = k) as Hzs by (unfold want, zlen in *; rewrite length_slice; lia).
  assert (same_shape N (<[isector i := written (fpos x) (slice 0 k buffer) n]> N)) as Hsh.
  { intros j. destruct (decide (j = isector i)) as [->|Hne]; [|by rewrite lookup_insert_ne].
    rewrite lookup_insert_eq, Hn. cbn [fmap option_fmap option_map written nstart contents].
    destruct (decide (k = 0)) as [->|Hk0]; [by rewrite slice_nil, overlay_nil by lia|].
    rewrite zlen_overlay; [done|lia|unfold want in Hk; lia]. }
  pose proof (quiet_held s s1 N _ extra Hh Hi1 Hq Hsh) as Hh1. unfold want in Hk.
  rewrite i32_id by lia. unfold put_file. rewrite bind_modify. eexists k, s1, _. split; [done|].
  assert (files s1 !! f = Some x) as Hf1 by by rewrite (qt_files _ _ Hq).
  split; [by apply (update_file_held s1 _ extra f x)|]. unfold want. done.
Qed.

End Proofs.
