(* ===== verification/FsDir.v ===== *)
(** * Directories: the root directory as a table of names

    The contents of a directory are a list of entries of 20 bytes; the entries
    in use list the names with their inode sectors.  Lookup, addition and
    removal of a name are proved against that list, on top of the reads and
    writes of inodes. *)

From stdpp Require Import gmultiset.
From S2P Require Import Prelude Bitmap Alloc BlockDev Bytes FsDef FsInode FsAlloc FsFile.
Local Open Scope Z_scope.

(** ** Names *)

Definition chars (nm : list Z) : Prop := Forall (fun c => 0 < c < 256) nm.

Definition valid (nm : list Z) : Prop := nm <> [] /\ zlen nm <= NAME_MAX.

#[export] Instance valid_dec nm : Decision (valid nm).
Proof. apply and_dec; apply _. Defined.

Lemma streq_ok bs : forall nm nm', chars nm -> cstring bs = Ok nm' -> streq nm bs = Ok (bool_decide (nm = nm')).
Proof.
  induction bs as [|b bs IH]; intros nm nm' Hc Hs; [done|]. cbn [cstring] in Hs. destruct (Z.eqb_spec b 0) as [->|Hb].
  - injection Hs as <-. destruct Hc as [|c nm Hc _]; [done|]. cbn [streq].
    rewrite (proj2 (Z.eqb_neq 0 c)) by lia. by rewrite bool_decide_false.
  - destruct (cstring bs) as [nm2| | |] eqn:E; try done. injection Hs as <-. destruct Hc as [|c nm Hc Hcs]; cbn [streq].
    + rewrite (proj2 (Z.eqb_neq b 0)) by done. by rewrite bool_decide_false.
    + destruct (Z.eqb_spec b c) as [->|Hne]; [|rewrite bool_decide_false by congruence; done].
      rewrite (IH nm nm2) by done. f_equal. apply bool_decide_ext. naive_solver.
Qed.

Lemma cstring_app nm rest : chars nm -> cstring (nm ++ 0 :: rest) = Ok nm.
Proof.
  induction 1 as [|c nm Hc _ IH]; [done|]. cbn [app cstring]. rewrite (proj2 (Z.eqb_neq c 0)) by lia. by rewrite IH.
Qed.

Lemma cstring_chars bs : forall nm, Forall byte bs -> cstring bs = Ok nm -> chars nm.
Proof.
  induction bs as [|b bs IH]; intros nm Hb Hs; [done|]. cbn [cstring] in Hs. inversion Hb as [|? ? Hb0 Hb1]; subst.
  destruct (Z.eqb_spec b 0) as [->|Hn]; [injection Hs as <-; constructor|].
  destruct (cstring bs) as [nm2| | |] eqn:E; try done. injection Hs as <-. unfold byte in Hb0.
  constructor; [lia|by apply IH].
Qed.

(** ** Entries *)

Definition entry_bytes (e : list Z) : Prop := length e = 20%nat /\ Forall byte e.

(** The name and the sector of an entry in use. *)
Definition entry_of (e : list Z) : option (list Z * Z) :=
  if e_in_use e then
    match cstring (drop 4 e) with Ok nm => Some (nm, e_sector e) | _ => None end
  else None.

Definition used (es : list (list Z)) : list (list Z * Z) := omap entry_of es.

Record dir_ok (es : list (list Z)) : Prop := DirOk {
  do_bytes : Forall entry_bytes es;
  do_named : Forall (fun e => e_in_use e = true -> exists nm, cstring (drop 4 e) = Ok nm /\ valid nm) es;
  do_unique : NoDup (used es).*1
}.

Lemma in_use_false v e : length e = 20%nat -> e_in_use (set_in_use v e) = v.
Proof.
  intros Hl. unfold e_in_use, set_in_use, overlay, slice. change (Z.to_nat 19) with 19%nat.
  rewrite drop_app_length' by (rewrite length_take; lia). by destruct v.
Qed.

Lemma set_in_use_bytes v e : entry_bytes e -> entry_bytes (set_in_use v e).
Proof.
  intros [Hl Hb]. unfold set_in_use. split; [rewrite length_overlay; cbn; lia|].
  apply overlay_bytes; [|done]. repeat constructor; by destruct v.
Qed.

(** The entry that [dir_add] writes. *)
Definition new_entry (nm : list Z) (sector : Z) (e : list Z) : list Z :=
  set_sector sector (set_name nm (set_in_use true e)).

Lemma new_entry_eq nm sector e : length e = 20%nat -> valid nm ->
  new_entry nm sector e = le32 sector ++ nm ++ 0 :: drop (5 + length nm) (take 19 e) ++ [1].
Proof.
  intros Hl [_ Hv]. unfold zlen, NAME_MAX in Hv. unfold new_entry.
  assert (set_in_use true e = take 19 e ++ [1]) as ->.
  { unfold set_in_use, overlay. rewrite (drop_ge e); [by rewrite app_nil_r|cbn; lia]. }
  set (f := take 19 e ++ [1]).
  assert (set_name nm f = take 4 f ++ nm ++ 0 :: drop (5 + length nm) f) as ->.
  { unfold set_name, overlay, strlcpy_into. rewrite (take_ge nm) by lia. rewrite <- !(assoc_L (++)), length_app.
    change (Z.to_nat 4) with 4%nat. cbn [app length]. replace (4 + (length nm + 1))%nat with (5 + length nm)%nat by lia. done. }
  unfold set_sector, overlay. rewrite le32_length. change (Z.to_nat 0) with 0%nat. rewrite take_0, app_nil_l, Nat.add_0_l. f_equal. rewrite drop_app_length'.
  - do 2 f_equal. unfold f. rewrite drop_app_le; [done|]. rewrite length_take. lia.
  - rewrite length_take. unfold f. rewrite length_app, length_take. cbn [length]. lia.
Qed.

Lemma new_entry_bytes nm sector e : entry_bytes e -> chars nm -> valid nm -> entry_bytes (new_entry nm sector e).
Proof.
  intros [Hl Hb] Hc Hv. rewrite new_entry_eq by done. destruct Hv as [_ Hv]. unfold zlen, NAME_MAX in Hv. split.
  - rewrite !length_app, le32_length. cbn [length]. rewrite length_app, length_drop, length_take, Hl. cbn [length]. lia.
  - apply Forall_app_2; [apply le32_bytes|]. apply Forall_app_2; [eapply Forall_impl; [done|]; unfold byte; cbn; lia|].
    constructor; [done|]. apply Forall_app_2; [by apply Forall_drop, Forall_take|]. by apply Forall_singleton.
Qed.

Lemma new_entry_of nm sector e : entry_bytes e -> chars nm -> valid nm -> 0 <= sector < 2 ^ 32 ->
  entry_of (new_entry nm sector e) = Some (nm, sector).
Proof.
  intros [Hl Hb] Hc Hv Hs. rewrite new_entry_eq by done. unfold entry_of.
  assert (e_in_use (le32 sector ++ nm ++ 0 :: drop (5 + length nm) (take 19 e) ++ [1]) = true) as ->.
  { unfold e_in_use, slice. change (le32 sector ++ nm ++ 0 :: drop (5 + length nm) (take 19 e) ++ [1])
      with (le32 sector ++ nm ++ (0 :: drop (5 + length nm) (take 19 e)) ++ [1]).
    rewrite !(assoc_L (++)), drop_app_length'; [done|]. destruct Hv as [_ Hv]. unfold zlen, NAME_MAX in Hv.
    rewrite !length_app, le32_length. cbn [length]. rewrite length_drop, length_take. lia. }
  rewrite drop_app_length' by done. rewrite cstring_app by done. unfold e_sector, slice.
  change (Z.to_nat 0) with 0%nat. rewrite drop_0. change (Z.to_nat 4) with 4%nat. by rewrite of_le32.
Qed.

(** ** The table of entries *)

Definition sized (es : list (list Z)) : Prop := Forall (fun e => length e = 20%nat) es.

Lemma length_table es : sized es -> length (mjoin es) = (20 * length es)%nat.
Proof.
  induction 1 as [|e l He _ IH]; [done|]. change (mjoin (e :: l)) with (e ++ mjoin l). rewrite length_app, IH. cbn. lia.
Qed.

Lemma take_table es k : sized es -> take (20 * k) (mjoin es) = mjoin (take k es).
Proof.
  intros Hs. revert k. induction Hs as [|e l He _ IH]; intros [|k]; [done|by rewrite take_nil|done|].
  change (mjoin (e :: l)) with (e ++ mjoin l). cbn [take]. change (mjoin (e :: take k l)) with (e ++ mjoin (take k l)).
  rewrite <- IH. replace (20 * S k)%nat with (length e + 20 * k)%nat by lia. by rewrite take_app_add.
Qed.

Lemma drop_table es k : sized es -> drop (20 * k) (mjoin es) = mjoin (drop k es).
Proof.
  intros Hs. revert k. induction Hs as [|e l He _ IH]; intros [|k]; [done|by rewrite drop_nil|done|].
  change (mjoin (e :: l)) with (e ++ mjoin l). cbn [drop].
  rewrite <- IH. replace (20 * S k)%nat with (length e + 20 * k)%nat by lia. by rewrite drop_app_add.
Qed.

Lemma slice_table es k e : sized es -> es !! k = Some e -> slice (20 * Z.of_nat k) 20 (mjoin es) = e.
Proof.
  intros Hs He. unfold slice. replace (Z.to_nat (20 * Z.of_nat k)) with (20 * k)%nat by lia. rewrite drop_table by done.
  rewrite (drop_S es e k He). change (mjoin (e :: drop (S k) es)) with (e ++ mjoin (drop (S k) es)).
  apply take_app_length'. symmetry. by apply (Forall_lookup_1 _ _ k e Hs He).
Qed.

Lemma overlay_table es k e e' : sized es -> es !! k = Some e -> length e' = 20%nat ->
  overlay (20 * Z.of_nat k) e' (mjoin es) = mjoin (<[k := e']> es).
Proof.
  intros Hs He Hl. unfold overlay. replace (Z.to_nat (20 * Z.of_nat k)) with (20 * k)%nat by lia.
  rewrite Hl, take_table by done. replace (20 * k + 20)%nat with (20 * S k)%nat by lia. rewrite drop_table by done.
  rewrite (insert_take_drop es k e') by by apply lookup_lt_Some in He.
  by rewrite join_app.
Qed.

Lemma used_insert es k e e' : es !! k = Some e ->
  used (<[k := e']> es) ≡ₚ option_list (entry_of e') ++ used (take k es) ++ used (drop (S k) es).
Proof.
  intros He. unfold used. rewrite (insert_take_drop es k e') by by apply lookup_lt_Some in He.
  rewrite omap_app. cbn [omap list_omap]. destruct (entry_of e') as [p|]; cbn [option_list app]; [|done].
  by rewrite <- Permutation_middle.
Qed.

Lemma used_split es k e : es !! k = Some e ->
  used es ≡ₚ option_list (entry_of e) ++ used (take k es) ++ used (drop (S k) es).
Proof. intros He. rewrite <- (list_insert_id es k e He) at 1. exact (used_insert es k e e He). Qed.

Lemma used_add es k e e' p : es !! k = Some e -> entry_of e = None -> entry_of e' = Some p ->
  used (<[k := e']> es) ≡ₚ p :: used es.
Proof. intros He E E'. rewrite (used_insert es k e e' He), (used_split es k e He), E, E'. done. Qed.

Lemma used_del es k e e' p : es !! k = Some e -> entry_of e = Some p -> entry_of e' = None ->
  used es ≡ₚ p :: used (<[k := e']> es).
Proof. intros He E E'. rewrite (used_insert es k e e' He), (used_split es k e He), E, E'. done. Qed.

Lemma entry_free e : e_in_use e = false -> entry_of e = None.
Proof. intros E. unfold entry_of. by rewrite E. Qed.

Lemma entry_found e nm : entry_bytes e -> (e_in_use e = true -> exists nm', cstring (drop 4 e) = Ok nm' /\ valid nm') -> chars nm ->
  exists b, (if e_in_use e then streq nm (drop 4 e) else Ok false) = Ok b /\
    if b : bool then entry_of e = Some (nm, e_sector e) else forall sec, entry_of e <> Some (nm, sec).
Proof.
  intros [Hl Hb] Hn Hc. unfold entry_of. destruct (e_in_use e); [|by exists false].
  destruct (Hn eq_refl) as (nm' & Hs & _). rewrite Hs, (streq_ok _ nm nm' Hc Hs). eexists. split; [done|].
  case_bool_decide; [by subst|]. intros sec [= ? _]. done.
Qed.

Lemma dir_sized es : dir_ok es -> sized es.
Proof. intros [Hb _ _]. by apply (Forall_impl entry_bytes); [|intros e []]. Qed.

Lemma dir_entry es k e : dir_ok es -> es !! k = Some e ->
  entry_bytes e /\ (e_in_use e = true -> exists nm, cstring (drop 4 e) = Ok nm /\ valid nm).
Proof.
  intros [Hb Hn _] He. split; [by apply (Forall_lookup_1 _ _ k e Hb He)|by apply (Forall_lookup_1 _ _ k e Hn He)].
Qed.

Lemma entry_name e nm sec : entry_of e = Some (nm, sec) -> e_in_use e = true /\ cstring (drop 4 e) = Ok nm /\ e_sector e = sec.
Proof. unfold entry_of. destruct (e_in_use e); [|done]. destruct (cstring (drop 4 e)); try done. by intros [= -> ->]. Qed.

Lemma entry_used es k e p : es !! k = Some e -> entry_of e = Some p -> p ∈ used es.
Proof. intros He Ep. rewrite (used_split es k e He), Ep. apply list_elem_of_here. Qed.

Lemma dir_ok_add es k e nm sec : dir_ok es -> es !! k = Some e -> e_in_use e = false -> chars nm -> valid nm ->
  0 <= sec < 2 ^ 32 -> nm ∉ (used es).*1 ->
  dir_ok (<[k := new_entry nm sec e]> es) /\ used (<[k := new_entry nm sec e]> es) ≡ₚ (nm, sec) :: used es.
Proof.
  intros Hd He Hu Hc Hv Hs Hnew. destruct (dir_entry es k e Hd He) as [Heb _]. destruct Hd as [D1 D2 D3].
  pose proof (new_entry_of nm sec e Heb Hc Hv Hs) as En.
  pose proof (used_add es k e _ _ He (entry_free e Hu) En) as Hp. split; [|done]. split.
  - apply Forall_insert; [done|by apply new_entry_bytes].
  - apply Forall_insert; [done|]. intros _. apply entry_name in En as (_ & E & _). by exists nm.
  - rewrite Hp. cbn [fmap list_fmap fst]. by apply NoDup_cons.
Qed.

Lemma dir_ok_del es k e nm sec : dir_ok es -> es !! k = Some e -> entry_of e = Some (nm, sec) ->
  dir_ok (<[k := set_in_use false e]> es) /\ used es ≡ₚ (nm, sec) :: used (<[k := set_in_use false e]> es).
Proof.
  intros Hd He En. destruct (dir_entry es k e Hd He) as [Heb _]. destruct Hd as [D1 D2 D3].
  assert (e_in_use (set_in_use false e) = false) as Hu by (apply in_use_false, Heb).
  pose proof (used_del es k e _ _ He En (entry_free _ Hu)) as Hp. split; [|done]. split.
  - apply Forall_insert; [done|by apply set_in_use_bytes].
  - apply Forall_insert; [done|]. intros ?. congruence.
  - rewrite Hp in D3. cbn [fmap list_fmap fst] in D3. by apply NoDup_cons in D3 as [_ ?].
Qed.

Lemma used_full es : dir_ok es -> Forall (fun e => e_in_use e = true) es -> length (used es) = length es.
Proof.
  intros [_ Hn _]. induction es as [|e es IH]; [done|]. inversion Hn as [|? ? H1 H2]; subst. inversion 1 as [|? ? U1 U2]; subst.
  destruct (H1 U1) as (nm & Hs & _). unfold used. cbn [omap list_omap]. unfold entry_of at 1. rewrite U1, Hs. cbn [length].
  f_equal. by apply IH.
Qed.

Section Proofs.
Context {H : Type} `{HA : Allocator H} {D : Type} `{HD : BlockDevice D}.
Notation fs := (@fs H D).
Implicit Types s : fs.

(** ** Reading entries *)

(** The inode [a] holds the table [es]. *)
Definition table_at s (N : gmap Z node) (a : Z) (es : list (list Z)) : Prop :=
  exists i n, inodes s !! a = Some i /\ N !! isector i = Some n /\ contents n = mjoin es.

Lemma table_quiet s s' N a es : table_at s N a es -> quiet s s' -> table_at s' N a es.
Proof. intros (i & n & Ha & Hn) Hq. exists i, n. by rewrite (qt_inodes _ _ Hq). Qed.

Lemma table_bound s N refs denies a es : inv s N refs denies -> table_at s N a es -> sized es ->
  20 * Z.of_nat (length es) < 2 ^ 31 - 511.
Proof.
  intros Hi (i & n & Ha & Hn & Hc) Hs. pose proof (no_length _ _ _ _ (ly_node _ _ _ _ (iv_layout _ _ _ _ Hi) _ n Hn)) as Hl.
  rewrite Hc in Hl. unfold zlen in Hl. rewrite length_table in Hl by done. lia.
Qed.

Lemma entries_ok s N refs denies a es : inv s N refs denies -> table_at s N a es -> sized es ->
  entries a s = Ok (S (length es), s).
Proof.
  intros Hi (i & n & Ha & Hn & Hc) Hs. unfold entries. crun (inode_length_ok s N refs denies a i n Hi Ha Hn).
  unfold ret, sizeof_entry. do 3 f_equal. rewrite Hc. unfold zlen. rewrite length_table by done.
  rewrite Nat2Z.inj_mul, Z.mul_comm, Z.div_mul by done. by rewrite Nat2Z.id.
Qed.

Lemma read_entry_ok s N refs denies a es buf k : inv s N refs denies -> table_at s N a es -> sized es ->
  length buf = 20%nat -> (k <= length es)%nat ->
  exists r s', inode_read_at a buf sizeof_entry (20 * Z.of_nat k) s = Ok (r, s') /\ inv s' N refs denies /\ quiet s s' /\
    free_map s' = free_map s /\
    ((exists e, es !! k = Some e /\ r = (20, e)) \/ (r = (0, buf) /\ (oom s' = true \/ k = length es))).
Proof.
  intros Hi Ht Hs Hb Hk. pose proof (table_bound s N refs denies a es Hi Ht Hs) as Hlt. destruct Ht as (i & n & Ha & Hn & Hc).
  destruct (inode_read_at_ok s N refs denies a i n buf sizeof_entry (20 * Z.of_nat k) Hi Ha Hn)
    as (c & s' & E & Hi' & Hq & Hm & Hc0 & Hout); [lia|unfold zlen, sizeof_entry; lia|unfold zlen; lia|].
  exists (c, overlay 0 (slice (20 * Z.of_nat k) c (contents n)) buf), s'. do 4 (split; [done|]).
  unfold want, zlen, sizeof_entry in *. rewrite Hc, length_table in * by done.
  assert (c = 0 -> overlay 0 (slice (20 * Z.of_nat k) c (mjoin es)) buf = buf) as Hz
    by (intros ->; by rewrite slice_nil, overlay_nil).
  destruct Hout as [Ec|(Ho & _ & Hc1)]; [|right; specialize (Hc1 ltac:(lia)); rewrite Hz by done; subst c; auto].
  destruct (decide (k = length es)) as [Ek|Hne]; [right; assert (c = 0) as E0 by lia; rewrite Hz by done; rewrite E0; auto|].
  left. destruct (lookup_lt_is_Some_2 es k) as [e He]; [lia|]. exists e. split; [done|]. assert (c = 20) as -> by lia.
  rewrite (slice_table es k e) by done. rewrite overlay_whole; [done|]. rewrite (Forall_lookup_1 _ _ k e Hs He). done.
Qed.

Definition missing (s' : fs) (nm : list Z) (l : list (list Z * Z)) : Prop := oom s' = true \/ nm ∉ l.*1.

Lemma lookup_loop_ok nm a es : chars nm -> dir_ok es -> forall n k s N refs denies buf,
  inv s N refs denies -> table_at s N a es -> length buf = 20%nat -> (k <= length es < k + n)%nat ->
  exists r s', lookup_loop n a nm buf (20 * Z.of_nat k) s = Ok (r, s') /\ inv s' N refs denies /\ quiet s s' /\
    free_map s' = free_map s /\
    match r with
    | Some (e, ofs) => exists k, ofs = 20 * Z.of_nat k /\ es !! k = Some e /\ entry_of e = Some (nm, e_sector e)
    | None => missing s' nm (used (drop k es))
    end.
Proof.
  intros Hc Hd. pose proof (dir_sized es Hd) as Hs. induction n as [|n IH]; intros k s N refs denies buf Hi Ht Hb Hk; [lia|].
  pose proof (table_bound s N refs denies a es Hi Ht Hs) as Hlt. cbn [lookup_loop]. rewrite i32_id by lia.
  destruct (read_entry_ok s N refs denies a es buf k Hi Ht Hs Hb) as (r & s1 & E & Hi1 & Hq1 & Hm1 & Hr); [lia|]. crun E.
  destruct Hr as [(e & He & ->)|[-> Hr]]; cbn [fst snd].
  - change (20 =? sizeof_entry) with true. cbv iota. destruct (dir_entry es k e Hd He) as [Heb Hen].
    destruct (entry_found e nm Heb Hen Hc) as (b & Eb & Hbs).
    rewrite (bind_ok _ _ s1 b s1) by (destruct (e_in_use e); [unfold lift; by rewrite Eb|by injection Eb as <-]).
    destruct b; [exists (Some (e, 20 * Z.of_nat k)), s1; split_and!; try done; by exists k|].
    unfold sizeof_entry. rewrite u32_id by lia. replace (20 * Z.of_nat k + 20) with (20 * Z.of_nat (S k)) by lia.
    pose proof (lookup_lt_Some es k e He).
    destruct (IH (S k) s1 N refs denies e Hi1 (table_quiet s s1 N a es Ht Hq1)) as (r & s2 & E2 & Hi2 & Hq2 & Hm2 & Hr);
      [apply Heb|lia|]. exists r, s2. split; [done|]. split; [done|]. split; [by apply (quiet_trans s s1)|]. split; [congruence|].
    destruct r as [[e' ofs]|]; [done|]. destruct Hr as [Hr|Hr]; [by left|right]. rewrite (drop_S es e k He). unfold used.
    cbn [omap list_omap]. destruct (entry_of e) as [[nm' sec]|] eqn:Ee; [|done]. cbn [fmap list_fmap].
    rewrite not_elem_of_cons. split; [|done]. intros ->. by apply (Hbs sec).
  - change (0 =? sizeof_entry) with false. cbv iota. exists None, s1. split_and!; try done.
    destruct Hr as [?| ->]; [by left|right]. rewrite drop_ge by done. apply not_elem_of_nil.
Qed.

Lemma dir_ref s d x : dirs s !! d = Some x -> dinode x ∈ refs_of s.
Proof.
  intros Hd. unfold refs_of, dir_refs. pose proof (collect_lookup (fun d => {[+ dinode d +]}) _ _ _ Hd). multiset_solver.
Qed.

(** ** Frames *)

(** What a call keeps: the inodes of [K] stay open for their sectors. *)
Record keeps (K : gmultiset Z) s s' : Prop := Keeps {
  kp_map_file : free_map_file s' = free_map_file s;
  kp_lock : lock_filesys s' = lock_filesys s;
  kp_oom : oom s = true -> oom s' = true;
  kp_size : disk_size s' = disk_size s;
  kp_inodes a i : a ∈ K -> inodes s !! a = Some i -> exists i', inodes s' !! a = Some i' /\ isector i' = isector i
}.

Lemma moves_keeps K s s' : moves K s s' -> keeps K s s'.
Proof. intros [A3 A4 A5 A6 A7]. split; try done. intros a i Hk Ha. destruct (A7 a i Hk Ha) as (i' & ? & ? & _). eauto. Qed.

Lemma stays_keeps K s s' : stays K s s' -> keeps K s s'.
Proof. intros Hs. by apply moves_keeps, stays_moves. Qed.

Lemma quiet_keeps K s s' : quiet s s' -> keeps K s s'.
Proof. intros Hq. by apply stays_keeps, quiet_stays. Qed.

Lemma keeps_both K s1 s2 s3 : keeps K s1 s2 -> keeps K s2 s3 -> keeps K s1 s3.
Proof.
  intros [A3 A4 A5 A6 A7] [B3 B4 B5 B6 B7]. split; try congruence; auto. intros a i Hk Ha.
  destruct (A7 a i Hk Ha) as (i1 & H1 & E1). destruct (B7 a i1 Hk H1) as (i2 & H2 & E2). exists i2. split; congruence.
Qed.

Lemma keeps_sub K K' s s' : K' ⊆ K -> keeps K s s' -> keeps K' s s'.
Proof. intros Hs [A3 A4 A5 A6 A7]. split; try done. intros a i Hk. apply A7. multiset_solver. Qed.

(** Which open inodes are removed, by sector. *)
Definition marked s (R : Z -> bool) : Prop := forall b i, inodes s !! b = Some i -> removed i = R (isector i).

Lemma marked_sub s s' R : marked s R -> inodes_sub s s' -> marked s' R.
Proof. intros Hm Hs b i Hb. destruct (Hs b i Hb) as (i0 & H0 & E1 & E2). rewrite <- E1, <- E2. by apply (Hm b). Qed.

Lemma marked_from s s' R sector : marked s R -> inodes_from s sector s' -> R sector = false -> marked s' R.
Proof.
  intros Hm Hs HR b i Hb. destruct (Hs b i Hb) as [(i0 & H0 & E1 & E2)|[E1 E2]]; [|congruence].
  rewrite <- E1, <- E2. by apply (Hm b).
Qed.

Lemma marked_quiet s s' R : marked s R -> quiet s s' -> marked s' R.
Proof. intros Hm Hq b i. rewrite (qt_inodes _ _ Hq). apply Hm. Qed.

(** ** Looking up and adding names *)

(** [uninit]: the stale bytes of a local entry. *)
Context (uninit : list Z).
Hypothesis uninit_bytes : entry_bytes uninit.

Lemma dir_not_null s N refs denies d x : inv s N refs denies -> dirs s !! d = Some x -> d <> NULL.
Proof. intros Hi Hd. apply (object_not_null s N refs denies d Hi). intros (_ & _ & ?). congruence. Qed.

Lemma lookup_ok s N refs denies d x es nm : inv s N refs denies -> dirs s !! d = Some x -> table_at s N (dinode x) es ->
  dir_ok es -> chars nm ->
  exists r s', lookup uninit d nm s = Ok (r, s') /\ inv s' N refs denies /\ quiet s s' /\ free_map s' = free_map s /\
    match r with
    | Some (e, ofs) => exists k, ofs = 20 * Z.of_nat k /\ es !! k = Some e /\ entry_of e = Some (nm, e_sector e)
    | None => missing s' nm (used es)
    end.
Proof.
  intros Hi Hd Ht Hok Hc. unfold lookup.
  cassert ltac:(by rewrite (proj2 (Z.eqb_neq d NULL)) by exact (dir_not_null s N refs denies d x Hi Hd)).
  crun (get_dir_ok s d x Hd). crun (entries_ok s N refs denies (dinode x) es Hi Ht (dir_sized es Hok)).
  by apply (lookup_loop_ok nm (dinode x) es Hc Hok (S (length es)) 0 s N refs denies uninit Hi Ht); [apply uninit_bytes|lia].
Qed.

Lemma slot_loop_ok a es : Forall entry_bytes es -> forall n k s N refs denies buf,
  inv s N refs denies -> table_at s N a es -> entry_bytes buf -> (k <= length es < k + n)%nat ->
  (forall j e, (j < k)%nat -> es !! j = Some e -> e_in_use e = true) ->
  exists e k' s', slot_loop n a buf (20 * Z.of_nat k) s = Ok (e, 20 * Z.of_nat k', s') /\ inv s' N refs denies /\ quiet s s' /\
    free_map s' = free_map s /\ entry_bytes e /\ (k' <= length es)%nat /\
    (oom s' = true \/ (es !! k' = Some e /\ e_in_use e = false) \/
     (k' = length es /\ Forall (fun e => e_in_use e = true) es)).
Proof.
  intros Hes. assert (sized es) as Hs by (eapply Forall_impl; [exact Hes|by intros e []]).
  induction n as [|n IH]; intros k s N refs denies buf Hi Ht Hb Hk Hbefore; [lia|].
  pose proof (table_bound s N refs denies a es Hi Ht Hs) as Hlt. cbn [slot_loop].
  destruct (read_entry_ok s N refs denies a es buf k Hi Ht Hs (proj1 Hb)) as (r & s1 & E & Hi1 & Hq1 & Hm1 & Hr); [lia|]. crun E.
  destruct Hr as [(e & He & ->)|[-> Hr]]; cbn [fst snd].
  - change (20 =? sizeof_entry) with true. cbv iota. pose proof (Forall_lookup_1 _ _ k e Hes He) as Heb.
    pose proof (lookup_lt_Some es k e He). destruct (e_in_use e) eqn:Eu; cbn [negb].
    2: { exists e, k, s1. split_and!; try done; [lia|]. right. by left. }
    unfold sizeof_entry. rewrite i32_id by lia. replace (20 * Z.of_nat k + 20) with (20 * Z.of_nat (S k)) by lia.
    destruct (IH (S k) s1 N refs denies e Hi1 (table_quiet s s1 N a es Ht Hq1) Heb)
      as (e' & k' & s2 & E2 & Hi2 & Hq2 & Hm2 & Hr); [lia|..].
    { intros j ej Hj Hej. destruct (decide (j = k)) as [->|Hne]; [congruence|]. apply (Hbefore j ej); [lia|done]. }
    exists e', k', s2. split_and!; try done; try apply Hr; [by apply (quiet_trans s s1)|congruence].
  - change (0 =? sizeof_entry) with false. cbv iota. exists buf, k, s1. split_and!; try done; [lia|].
    destruct Hr as [?| ->]; [by left|]. right. right. split; [done|]. apply Forall_lookup_2. intros j e Hj.
    apply (Hbefore j e); [|done]. by apply lookup_lt_Some in Hj.
Qed.

(** ** Writing entries *)

Lemma held_shape s s' N extra sec n c : held s N extra -> inv s' (<[sec := Node (nstart n) c]> N) (extra ⊎ refs_of s) (file_denies (files s)) ->
  quiet s s' -> N !! sec = Some n -> zlen c = zlen (contents n) -> held s' (<[sec := Node (nstart n) c]> N) extra.
Proof.
  intros Hh Hi Hq Hn Hz. apply (quiet_held s s' N _ extra Hh Hi Hq). intros j. destruct (decide (j = sec)) as [->|Hne].
  - rewrite lookup_insert_eq, Hn. cbn. by rewrite Hz.
  - by rewrite lookup_insert_ne.
Qed.

Lemma write_entry_ok s N extra a i n es k e : held s N extra -> inodes s !! a = Some i -> N !! isector i = Some n ->
  contents n = mjoin es -> sized es -> deny_write_cnt i = 0 -> entry_bytes e -> (k <= length es)%nat ->
  exists r c s', inode_write_at a e sizeof_entry (20 * Z.of_nat k) s = Ok (r, s') /\
    held s' (<[isector i := Node (nstart n) c]> N) extra /\ quiet s s' /\ free_map s' = free_map s /\ zlen c = zlen (contents n) /\
    ((r = 20 /\ (k < length es)%nat /\ c = mjoin (<[k := e]> es)) \/
     (r = 0 /\ c = contents n /\ (oom s' = true \/ k = length es))).
Proof.
  intros Hh Ha Hn Hc Hs Hden [Hl Hb] Hk. pose proof (gd_inv _ _ _ _ Hh) as Hi.
  pose proof (table_bound s N _ _ a es Hi (ex_intro _ i (ex_intro _ n (conj Ha (conj Hn Hc)))) Hs) as Hlt.
  destruct (inode_write_at_ok s N _ _ a i n e sizeof_entry (20 * Z.of_nat k) Hi (gd_idle _ _ _ _ Hh) Ha Hn Hb)
    as (r & s' & E & Hi' & Hq & Hm & Hout); [lia|unfold zlen, sizeof_entry; lia|unfold zlen; lia|].
  rewrite decide_True in Hout by done. destruct Hout as [Hr Hout].
  assert (zlen (contents n) = 20 * Z.of_nat (length es)) as Hz by (unfold zlen; rewrite Hc, length_table by done; lia).
  unfold want, sizeof_entry in Hr, Hout.
  assert (r = 0 \/ (r = 20 /\ (k < length es)%nat)) as [->|[-> Hkl]] by (destruct Hout as [->|(_ & _ & Hz0)]; [|left; apply Hz0]; lia).
  - rewrite slice_nil, written_nil in Hi' by lia. exists 0, (contents n), s'. split; [done|].
    assert (Node (nstart n) (contents n) = n) as En by by destruct n. rewrite En.
    split_and!; try done; [apply (quiet_held s s' N _ extra Hh Hi' Hq); by rewrite insert_id|].
    right. split; [done|]. split; [done|]. destruct Hout as [Hw|(? & _)]; [right; lia|by left].
  - destruct (lookup_lt_is_Some_2 es k Hkl) as [e0 He0]. rewrite slice_whole in Hi' by (rewrite Hl; done).
    unfold written in Hi'. rewrite Hc, (overlay_table es k e0 e Hs He0 Hl) in Hi'.
    assert (zlen (mjoin (<[k:=e]> es)) = zlen (contents n)) as Hzc.
    { rewrite Hc, <- (overlay_table es k e0 e Hs He0 Hl). apply zlen_overlay; [lia|]. rewrite <- Hc, Hz. unfold zlen. lia. }
    exists 20, (mjoin (<[k:=e]> es)), s'. split_and!; try done; [by apply (held_shape s s')|]. by left.
Qed.

(** ** Adding a name *)

(** Why a name cannot be added. *)
Definition refused (nm : list Z) (es : list (list Z)) : Prop :=
  ~ valid nm \/ nm ∈ (used es).*1 \/ length (used es) = length es.

Definition added_entry s (n : node) (es : list (list Z)) (nm : list Z) (sec : Z) (r : bool) (c : list Z) (s' : fs) : Prop :=
  oom s' = true \/
  if r then valid nm /\ nm ∉ (used es).*1 /\ exists es', c = mjoin es' /\ dir_ok es' /\ length es' = length es /\
              used es' ≡ₚ (nm, sec) :: used es
  else c = contents n /\ refused nm es.

Lemma dir_add_held s N extra d x i n es nm sec : held s N extra -> dirs s !! d = Some x -> inodes s !! dinode x = Some i ->
  N !! isector i = Some n -> contents n = mjoin es -> dir_ok es -> deny_write_cnt i = 0 -> chars nm -> 0 <= sec < 2 ^ 32 ->
  exists r c s', dir_add uninit d nm sec s = Ok (r, s') /\ held s' (<[isector i := Node (nstart n) c]> N) extra /\
    quiet s s' /\ free_map s' = free_map s /\ zlen c = zlen (contents n) /\ added_entry s n es nm sec r c s'.
Proof.
  intros Hh Hd Ha Hn Hc Hok Hden Hch Hsec. pose proof (gd_inv _ _ _ _ Hh) as Hi. unfold dir_add.
  assert (Node (nstart n) (contents n) = n) as En by by destruct n.
  cassert ltac:(by rewrite (proj2 (Z.eqb_neq d NULL)) by exact (dir_not_null s N _ _ d x Hi Hd)).
  destruct (decide (valid nm)) as [Hv|Hv].
  2: { assert (bool_decide (nm = []) || (NAME_MAX <? Z.of_nat (length nm)) = true) as ->.
       { destruct (bool_decide_reflect (nm = [])); [done|]. destruct (Z.ltb_spec NAME_MAX (Z.of_nat (length nm))); [done|]. by destruct Hv. }
       exists false, (contents n), s. rewrite En, insert_id by done. split_and!; try done. right. split; [done|]. by left. }
  assert (bool_decide (nm = []) || (NAME_MAX <? Z.of_nat (length nm)) = false) as ->.
  { destruct Hv as [V1 V2]. rewrite bool_decide_false by done. by apply Z.ltb_ge. }
  assert (table_at s N (dinode x) es) as Ht by by exists i, n.
  destruct (lookup_ok s N _ _ d x es nm Hi Hd Ht Hok Hch) as (r & s1 & E1 & Hi1 & Hq1 & Hm1 & Hr). crun E1.
  pose proof (quiet_held s s1 N N extra Hh Hi1 Hq1 ltac:(done)) as Hh1.
  destruct r as [[e ofs]|].
  { destruct Hr as (k & _ & Hk & Ee). exists false, (contents n), s1. rewrite En, insert_id by done. split_and!; try done.
    right. split; [done|]. right. left. apply (list_elem_of_fmap_2' fst _ (nm, e_sector e)); [by apply (entry_used es k e)|done]. }
  assert (dirs s1 !! d = Some x) as Hd1 by by rewrite (qt_dirs _ _ Hq1). crun (get_dir_ok s1 d x Hd1).
  pose proof (table_quiet s s1 N _ es Ht Hq1) as Ht1. pose proof (dir_sized es Hok) as Hsz. pose proof (gd_inv _ _ _ _ Hh1) as Hi1'.
  crun (entries_ok s1 N _ _ (dinode x) es Hi1' Ht1 Hsz).
  destruct (slot_loop_ok (dinode x) es (do_bytes es Hok) (S (length es)) 0 s1 N _ _ uninit Hi1' Ht1 uninit_bytes)
    as (e & k & s2 & E2 & Hi2 & Hq2 & Hm2 & Heb & Hk & Hslot); [lia|lia|].
  change (20 * Z.of_nat 0) with 0 in E2. crun E2. cbn [fst snd]. fold (new_entry nm sec e).
  pose proof (quiet_held s1 s2 N N extra Hh1 Hi2 Hq2 ltac:(done)) as Hh2. pose proof (quiet_trans s s1 s2 Hq1 Hq2) as Hq02.
  assert (inodes s2 !! dinode x = Some i) as Ha2 by by rewrite (qt_inodes _ _ Hq02).
  destruct (write_entry_ok s2 N extra (dinode x) i n es k (new_entry nm sec e) Hh2 Ha2 Hn Hc Hsz Hden (new_entry_bytes nm sec e Heb Hch Hv) Hk)
    as (r & c & s3 & E3 & Hh3 & Hq3 & Hm3 & Hz & Hw). crun E3.
  exists (r =? sizeof_entry), c, s3. split; [done|]. split; [done|]. split; [by apply (quiet_trans s s2)|]. split; [congruence|].
  split; [done|]. destruct Hr as [Ho|Hnew]; [left; by apply (qt_oom _ _ Hq3), (qt_oom _ _ Hq2)|].
  destruct Hslot as [Ho|Hslot]; [left; by apply (qt_oom _ _ Hq3)|].
  destruct Hw as [(-> & Hkl & ->)|(-> & -> & Hw)].
  - right. change (20 =? sizeof_entry) with true. cbv iota. destruct Hslot as [[Hke Hu]|[-> _]]; [|lia].
    destruct (dir_ok_add es k e nm sec Hok Hke Hu Hch Hv Hsec Hnew) as [Hok' Hp]. split_and!; try done.
    eexists. split_and!; try done. apply length_insert.
  - destruct Hw as [Ho|Hkl]; [by left|right]. change (0 =? sizeof_entry) with false. cbv iota. split; [done|]. right. right.
    destruct Hslot as [[Hke Hu]|[_ Hall]]; [apply lookup_lt_Some in Hke; lia|]. by apply used_full.
Qed.

(** ** Opening and closing the root directory *)

(** Opening nothing. *)
Lemma open_null_ok s N extra size : held s N extra -> 0 <= size < 2 ^ 31 ->
  exists s', (p <- calloc 1 size;; inode_close NULL;;; free p;;; ret NULL) s = Ok (NULL, s') /\ held s' N extra /\ quiet s s' /\
    free_map s' = free_map s.
Proof.
  intros Hh Hsz. pose proof (gd_inv _ _ _ _ Hh) as Hi.
  destruct (fs_calloc_ok s N _ _ 1 size Hi) as (p & s1 & E & Hi1 & Hq1 & Hd1 & Hm1 & Hp & _); [lia..|]. crun E.
  pose proof (quiet_held s s1 N N extra Hh Hi1 Hq1 ltac:(done)) as Hh1. cbn [inode_close Z.eqb NULL]. rewrite bind_ret.
  destruct Hp as [[-> Ho]|(Hn & Hnew & Hl & Hs)].
  - exists s1. rewrite (bind_ok _ _ s1 tt s1); [done|]. unfold free. rewrite al_free_null. cbn. by destruct s1.
  - destruct (free_spare_ok s s1 N _ _ p Hh1 Hq1 Hnew Hl Hs) as (h & E2 & Hg2 & Hq2). crun E2.
    exists (set_heap h s1). split_and!; try done.
Qed.

(** The root directory open as [d]. *)
Definition root_opened s d s' : Prop :=
  exists a i, dirs s' = <[d := Dir a 0]> (dirs s) /\ dirs s !! d = None /\ files s' = files s /\
    inodes s' !! a = Some i /\ isector i = ROOT_DIR_SECTOR /\ free_map s' = free_map s /\
    keeps (refs_of s) s s' /\ inodes_from s ROOT_DIR_SECTOR s'.

Definition no_memory s s' : Prop := oom s' = true /\ (exists N', held s' N' ∅) /\ lock_filesys s' = lock_filesys s.

Lemma dir_open_root_held s N n : held s N ∅ -> free_map_file s <> NULL -> N !! ROOT_DIR_SECTOR = Some n ->
  exists d s', dir_open_root s = Ok (d, s') /\
    ((d = NULL /\ no_memory s s') \/ (d <> NULL /\ held s' N ∅ /\ root_opened s d s')).
Proof.
  intros Hh Hnf Hn. unfold dir_open_root.
  destruct (open_held s N ∅ ROOT_DIR_SECTOR n Hh Hn) as (a & s1 & E1 & Hst & Hm1 & Hfrom & Ha); [rewrite gmultiset_size_empty; lia|]. crun E1.
  destruct Ha as [(-> & Ho & Hh1)|(Hnn & Hh1 & i & Hi & Es)].
  - destruct (open_null_ok s1 N ∅ sizeof_dir Hh1) as (s2 & E2 & Hh2 & Hq2 & _); [done|]. unfold dir_open.
    cbn [Z.eqb NULL negb andb]. exists NULL, s2. split; [exact E2|]. left. split; [done|].
    split; [by apply (qt_oom _ _ Hq2)|]. split; [by exists N|]. rewrite (qt_lock _ _ Hq2). apply Hst.
  - destruct (dir_open_held s1 N ∅ a Hh1) as (d & s2 & N2 & E2 & Hd); [apply map_may_close; by rewrite (sy_map_file _ _ _ Hst)|].
    exists d, s2. split; [done|]. destruct Hd as [(-> & Ho & Hh2 & Hst2 & _)|(s3 & Hobj & -> & -> & Hh2)].
    + left. split; [done|]. split; [done|]. split; [by exists N2|]. rewrite (sy_lock _ _ _ Hst2). apply Hst.
    + right. destruct Hobj as (Hq3 & _ & Hm3 & _ & Hdn & _ & _ & _ & Hsp). split; [done|]. split; [done|].
      exists a, i. cbn [dirs files inodes free_map set_dirs]. rewrite (qt_dirs _ _ Hq3), (qt_files _ _ Hq3), (qt_inodes _ _ Hq3).
      rewrite (sy_dirs _ _ _ Hst) in *. rewrite (sy_files _ _ _ Hst), Hm3. split_and!; try done.
      * apply (keeps_both _ s s1); [apply stays_keeps; apply (stays_sub _ _ _ _ (gmultiset_disj_union_subseteq_r _ _) Hst)|].
        destruct (quiet_keeps (refs_of s) s1 s3 Hq3). by split.
      * intros b j. cbn [inodes set_dirs]. rewrite (qt_inodes _ _ Hq3). apply Hfrom.
Qed.

(** ** Removing a name *)

Lemma inode_remove_held s N extra a i R : held s N extra -> inodes s !! a = Some i -> marked s R ->
  let s' := set_inodes (<[a := with_removed true i]> (inodes s)) s in
  inode_remove a s = Ok (tt, s') /\ held s' N extra /\ (forall K, keeps K s s') /\
    marked s' (fun x => R x || (x =? isector i)).
Proof.
  intros Hh Ha HR s'. pose proof (gd_inv _ _ _ _ Hh) as Hi. split_and!.
  - unfold inode_remove. cassert ltac:(by rewrite (proj2 (Z.eqb_neq a NULL)) by exact (inode_not_null s N _ _ a i Hi Ha)).
    by crun (get_inode_ok s a i Ha).
  - destruct (iv_inode _ _ _ _ Hi a i Ha) as [_ [K1 K2] K3].
    apply (good_update s N _ _ _ i (with_removed true i) a Hh Ha); try done.
    by apply (inv_update s N _ _ (extra ⊎ refs_of s) (file_denies (files s)) a i (with_removed true i) Hi Ha); try done; apply Hi.
  - intros K. split; try done. intros b j _ Hb. cbn. destruct (decide (b = a)) as [->|Hne].
    + rewrite lookup_insert_eq. rewrite Ha in Hb. injection Hb as <-. eauto.
    + rewrite lookup_insert_ne by done. eauto.
  - intros b j. cbn. destruct (decide (b = a)) as [->|Hne].
    + rewrite lookup_insert_eq. intros [= <-]. cbn. by rewrite Z.eqb_refl, orb_true_r.
    + rewrite lookup_insert_ne by done. intros Hb. rewrite (HR b j Hb), (proj2 (Z.eqb_neq _ _)), orb_false_r; [done|].
      intros E. apply Hne. by apply (iv_unique _ _ _ _ Hi b a j i).
Qed.

(** The file at [sec] is unlinked: its sectors are free once no inode is open. *)
Definition gone s (N : gmap Z node) (sec : Z) s' (N' : gmap Z node) : Prop :=
  (N' = N /\ free_map s' = free_map s /\ exists b j, inodes s' !! b = Some j /\ isector j = sec) \/
  ((forall b j, inodes s' !! b = Some j -> isector j <> sec) /\ released s N sec s' N').

Lemma closed_gone s s1 N i s' N' : closed s1 N i s' N' -> removed i = true -> free_map s1 = free_map s ->
  disk_size s1 = disk_size s -> gone s N (isector i) s' N'.
Proof.
  intros Hc Hr Em Ed. destruct Hc as [(-> & E & Hc)|(_ & Hno & Hrel)]; [left; split_and!; [done|congruence|by apply Hc]|right].
  split; [done|]. unfold released in *. by rewrite <- Em, <- Ed.
Qed.

Lemma closed_kept s N i s' N' : closed s N i s' N' -> removed i = false -> N' = N /\ free_map s' = free_map s.
Proof. intros [(? & ? & _)|(? & _)] E; [done|congruence]. Qed.

Definition removed_name s (N : gmap Z node) (sec0 : Z) (n : node) (es : list (list Z)) (nm : list Z) (R : Z -> bool)
    (r : bool) s' (N' : gmap Z node) : Prop :=
  if r then
    exists sec es', (nm, sec) ∈ used es /\ dir_ok es' /\ length es' = length es /\ used es ≡ₚ (nm, sec) :: used es' /\
      gone s (<[sec0 := Node (nstart n) (mjoin es')]> N) sec s' N' /\ marked s' (fun x => R x || (x =? sec))
  else nm ∉ (used es).*1 /\ N' = N /\ free_map s' = free_map s /\ marked s' R.

Lemma deny_kept s s' N N' extra extra' a i i' : held s N extra -> held s' N' extra' -> files s' = files s ->
  inodes s !! a = Some i -> inodes s' !! a = Some i' -> deny_write_cnt i' = deny_write_cnt i.
Proof.
  intros Hh Hh' Ef Ha Ha'. rewrite (io_deny _ _ _ _ _ (iv_inode _ _ _ _ (gd_inv _ _ _ _ Hh) a i Ha)).
  rewrite (io_deny _ _ _ _ _ (iv_inode _ _ _ _ (gd_inv _ _ _ _ Hh') a i' Ha')). by rewrite Ef.
Qed.

(** Erasing the entry, with the inode of the file open as [a]. *)
Lemma unlink_held s N d x i n es k e a ia R : held s N ({[+ a +]} ⊎ ∅) -> free_map_file s <> NULL -> dirs s !! d = Some x ->
  inodes s !! dinode x = Some i -> N !! isector i = Some n -> contents n = mjoin es -> dir_ok es -> deny_write_cnt i = 0 ->
  es !! k = Some e -> inodes s !! a = Some ia -> marked s R ->
  exists r s' N',
    (success <-
       (d0 <- get_dir d;;
        w <- inode_write_at (dinode d0) (set_in_use false e) sizeof_entry (i32 (20 * Z.of_nat k));;
        if negb (w =? sizeof_entry) then ret false else inode_remove a;;; ret true);;
     inode_close a;;; ret success) s = Ok (r, s') /\
    held s' N' ∅ /\ files s' = files s /\ dirs s' = dirs s /\ keeps (refs_of s) s s' /\
    (oom s' = true \/
     (r = true /\ gone s (<[isector i := Node (nstart n) (mjoin (<[k := set_in_use false e]> es))]> N) (isector ia) s' N' /\
      marked s' (fun x => R x || (x =? isector ia)))).
Proof.
  intros Hh Hnf Hd Ha Hn Hc Hok Hden Hke Hia HR. pose proof (dir_sized es Hok) as Hsz. rewrite !bind_assoc. crun (get_dir_ok s d x Hd).
  assert (20 * Z.of_nat (length es) < 2 ^ 31 - 511) as Hlt.
  { apply (table_bound s N _ _ (dinode x) es (gd_inv _ _ _ _ Hh)); [by exists i, n|done]. }
  pose proof (lookup_lt_Some es k e Hke). rewrite i32_id by lia. destruct (dir_entry es k e Hok Hke) as [Heb _].
  destruct (write_entry_ok s N _ (dinode x) i n es k (set_in_use false e) Hh Ha Hn Hc Hsz Hden (set_in_use_bytes false e Heb))
    as (r & c & s1 & E & Hh1 & Hq1 & Hm1 & Hz & Hw); [lia|]. rewrite !bind_assoc. crun E.
  assert (inodes s1 !! a = Some ia) as Hia1 by by rewrite (qt_inodes _ _ Hq1).
  assert (free_map_file s1 <> NULL) as Hnf1 by by rewrite (qt_map_file _ _ Hq1).
  pose proof (refs_of_eq s s1 (qt_files _ _ Hq1) (qt_dirs _ _ Hq1)) as Er.
  destruct Hw as [(-> & Hkl & ->)|(-> & -> & Hw)].
  - change (20 =? sizeof_entry) with true. cbn [negb].
    destruct (inode_remove_held s1 _ _ a ia R Hh1 Hia1 (marked_quiet s s1 R HR Hq1)) as (E2 & Hh2 & Hk2 & Hmk2).
    set (s2 := set_inodes _ s1) in *. rewrite !bind_assoc. crun E2. rewrite bind_ret.
    assert (inodes s2 !! a = Some (with_removed true ia)) as Hia2 by apply lookup_insert_eq.
    destruct (close_held s2 _ ∅ a _ Hh2 Hia2 (map_may_close s2 a Hnf1)) as (s3 & N3 & E3 & Hh3 & Hst3 & Hsub3 & Hcl). crun E3.
    exists true, s3, N3. split; [done|]. split; [done|]. split; [rewrite (sy_files _ _ _ Hst3); apply Hq1|].
    split; [rewrite (sy_dirs _ _ _ Hst3); apply Hq1|]. split.
    { apply (keeps_both _ s s1); [by apply quiet_keeps|]. apply (keeps_both _ s1 s2); [done|].
      apply (keeps_sub (∅ ⊎ refs_of s2)); [|by apply stays_keeps]. change (refs_of s2) with (refs_of s1). rewrite Er. multiset_solver. }
    right. split; [done|]. split; [|by apply (marked_sub s2)].
    apply (closed_gone s s2 _ (with_removed true ia)); try done. apply Hq1.
  - change (0 =? sizeof_entry) with false. cbn [negb]. rewrite bind_ret. destruct Hw as [Ho|?]; [|lia].
    destruct (close_held s1 _ ∅ a ia Hh1 Hia1 (map_may_close s1 a Hnf1)) as (s3 & N3 & E3 & Hh3 & Hst3 & _). crun E3.
    exists false, s3, N3. split; [done|]. split; [done|]. split; [rewrite (sy_files _ _ _ Hst3); apply Hq1|].
    split; [rewrite (sy_dirs _ _ _ Hst3); apply Hq1|]. split; [|left; by apply (sy_oom _ _ _ Hst3)].
    apply (keeps_both _ s s1); [by apply quiet_keeps|]. apply (keeps_sub (∅ ⊎ refs_of s1)); [|by apply stays_keeps].
    rewrite Er. multiset_solver.
Qed.

Lemma dir_remove_held s N d x i n es nm R : held s N ∅ -> free_map_file s <> NULL -> dirs s !! d = Some x ->
  inodes s !! dinode x = Some i -> N !! isector i = Some n -> contents n = mjoin es -> dir_ok es -> deny_write_cnt i = 0 ->
  chars nm -> (forall nm sec, (nm, sec) ∈ used es -> is_Some (N !! sec) /\ R sec = false) -> marked s R ->
  exists r s' N', dir_remove uninit d nm s = Ok (r, s') /\ held s' N' ∅ /\ files s' = files s /\ dirs s' = dirs s /\
    keeps (refs_of s) s s' /\ (oom s' = true \/ removed_name s N (isector i) n es nm R r s' N').
Proof.
  intros Hh Hnf Hd Ha Hn Hc Hok Hden Hch Hlinks HR. pose proof (gd_inv _ _ _ _ Hh) as Hi. unfold dir_remove.
  cassert ltac:(by rewrite (proj2 (Z.eqb_neq d NULL)) by exact (dir_not_null s N _ _ d x Hi Hd)).
  destruct (lookup_ok s N _ _ d x es nm Hi Hd) as (r & s1 & E1 & Hi1 & Hq1 & Hm1 & Hr); try done; [by exists i, n|]. crun E1.
  pose proof (quiet_held s s1 N N ∅ Hh Hi1 Hq1 ltac:(done)) as Hh1.
  destruct r as [[e ofs]|].
  2: { cbn [inode_close Z.eqb NULL]. rewrite bind_ret. exists false, s1, N. split_and!; try done; try apply Hq1; [by apply quiet_keeps|].
       destruct Hr as [?|?]; [by left|right]. split_and!; try done. by apply (marked_quiet s). }
  destruct Hr as (k & -> & Hke & Een). pose proof (entry_used es k e _ Hke Een) as Hin.
  destruct (Hlinks _ _ Hin) as [[nd Hnd] Rsec]. pose proof (refs_of_eq s s1 (qt_files _ _ Hq1) (qt_dirs _ _ Hq1)) as Er.
  destruct (open_held s1 N ∅ (e_sector e) nd Hh1 Hnd) as (a & s2 & E2 & Hst2 & Hm2 & Hfrom & Hopen);
    [rewrite gmultiset_size_empty; lia|]. crun E2.
  assert (files s2 = files s) as Hf2 by (rewrite (sy_files _ _ _ Hst2); apply Hq1).
  assert (dirs s2 = dirs s) as Hd2 by (rewrite (sy_dirs _ _ _ Hst2); apply Hq1).
  assert (keeps (refs_of s) s s2) as Hk2.
  { apply (keeps_both _ s s1); [by apply quiet_keeps|]. apply (keeps_sub (∅ ⊎ refs_of s1)); [rewrite Er; multiset_solver|by apply stays_keeps]. }
  destruct Hopen as [(-> & Ho & Hh2)|(Hnn & Hh2 & ia & Hia & Esec)].
  { cbn [inode_close Z.eqb NULL]. rewrite !bind_ret. exists false, s2, N. split_and!; try done. by left. }
  rewrite (proj2 (Z.eqb_neq a NULL)) by done.
  destruct (kp_inodes _ _ _ Hk2 (dinode x) i (dir_ref s d x Hd) Ha) as (i2 & Ha2 & Es2).
  rewrite <- Es2 in Hn. pose proof (deny_kept s s2 N N _ _ (dinode x) i i2 Hh Hh2 Hf2 Ha Ha2) as Hden2.
  destruct (unlink_held s2 N d x i2 n es k e a ia R Hh2) as (r & s3 & N3 & E3 & Hh3 & Hf3 & Hd3 & Hk3 & Hres); try done.
  { by rewrite (kp_map_file _ _ _ Hk2). }
  { by rewrite Hd2. }
  { congruence. }
  { by apply (marked_from s1 s2 R (e_sector e)); [apply (marked_quiet s)|..]. }
  exists r, s3, N3. split; [exact E3|]. split; [done|]. split; [congruence|]. split; [congruence|].
  rewrite (refs_of_eq s s2) in Hk3 by done. split; [by apply (keeps_both _ s s2)|].
  destruct Hres as [?|(-> & Hg & Hmk)]; [by left|right]. destruct (dir_ok_del es k e nm (e_sector e) Hok Hke Een) as [Hok' Hp].
  exists (e_sector e), (<[k := set_in_use false e]> es). rewrite Esec in Hg, Hmk. split_and!; try done; [by rewrite length_insert|].
  rewrite Es2 in Hg. destruct Hg as [(H1 & H2 & H3)|[H1 H2]]; [left; split_and!; try done; congruence|right].
  split; [done|]. unfold released in *. by rewrite <- Hm1, <- Hm2, <- (kp_size _ _ _ Hk2).
Qed.

End Proofs.
