(* ===== verification/FsSpec.v ===== *)
(** * The file system as its users see it

    An abstract file system: names, files with their contents, open handles and
    the free sectors.  [step] gives one rule per outcome of a call.  A file that
    has been removed stays readable and writable until its last handle is
    closed, and only then are its sectors free again. *)

From stdpp Require Import gmap.
From S2P Require Import Prelude BlockDev Bytes FsDef FsInode FsAlloc FsDir.
Local Open Scope Z_scope.

(** ** State *)

Record handle := Handle { hfile : Z; hpos : Z; hdeny : bool }.

Record view := View {
  names : gmap (list Z) Z;
  nodes : gmap Z node;
  handles : gmap Z handle;
  avail : gset Z
}.

Definition DIR_SIZE : nat := 16.

(** The sectors of a file. *)
Definition run (st cnt : Z) : gset Z := list_to_set (seqZ st cnt).
Definition sectors (sec : Z) (n : node) : gset Z := {[sec]} ∪ run (nstart n) (nsec (zlen (contents n))).

Definition linked (v : view) : gset Z := map_img (names v).
Definition opened_files (v : view) : gset Z := map_img (hfile <$> handles v).

(** The files that may not be written: some handle denies it. *)
Definition denied (v : view) : gset Z :=
  map_img (omap (fun h => if hdeny h then Some (hfile h) else None) (handles v)).

(** A file without a name and without a handle is freed. *)
Definition reclaim (sec : Z) (v : view) : view :=
  match nodes v !! sec with
  | Some n =>
      if bool_decide (sec ∈ linked v ∪ opened_files v) then v
      else View (names v) (delete sec (nodes v)) (handles v) (avail v ∪ sectors sec n)
  | None => v
  end.

Definition with_handle (f : Z) (h : handle) (v : view) : view :=
  View (names v) (nodes v) (<[f := h]> (handles v)) (avail v).
Definition without_handle (f : Z) (v : view) : view :=
  View (names v) (nodes v) (delete f (handles v)) (avail v).
Definition without_name (nm : list Z) (v : view) : view :=
  View (delete nm (names v)) (nodes v) (handles v) (avail v).
Definition with_file (nm : list Z) (sec : Z) (n : node) (v : view) : view :=
  View (<[nm := sec]> (names v)) (<[sec := n]> (nodes v)) (handles v) (avail v ∖ sectors sec n).
Definition with_contents (sec : Z) (n : node) (v : view) : view :=
  View (names v) (<[sec := n]> (nodes v)) (handles v) (avail v).
Definition with_avail (x : gset Z) (v : view) : view := View (names v) (nodes v) (handles v) x.

(** ** Calls *)

Inductive call :=
  | Create (nm : list Z) (initial_size : Z)
  | Remove (nm : list Z)
  | Open (nm : list Z)
  | Reopen (f : Z)
  | Close (f : Z)
  | Read (f : Z) (buffer : list Z) (size : Z)
  | Write (f : Z) (buffer : list Z) (size : Z)
  | Seek (f : Z) (pos : Z)
  | Tell (f : Z)
  | Length (f : Z)
  | Deny (f : Z)
  | Allow (f : Z).

Inductive answer :=
  | Yes (b : bool)
  | Opened (f : Z)
  | Count (n : Z)
  | Bytes (n : Z) (buffer : list Z)
  | Done.

(** The calls that the interface allows: C strings, sizes that fit, open handles. *)
Definition buffer_ok (buffer : list Z) (size : Z) : Prop := 0 <= size <= zlen buffer /\ zlen buffer < 2 ^ 31.

Definition allowed (v : view) (c : call) : Prop :=
  match c with
  | Create nm len => chars nm /\ 0 <= len < 2 ^ 31 - 511
  | Remove nm | Open nm => chars nm
  | Read f buffer size => is_Some (handles v !! f) /\ buffer_ok buffer size
  | Write f buffer size => is_Some (handles v !! f) /\ buffer_ok buffer size /\ Forall byte buffer
  | Seek f pos => is_Some (handles v !! f) /\ 0 <= pos < 2 ^ 31
  | Reopen f | Close f | Tell f | Length f | Deny f | Allow f => is_Some (handles v !! f)
  end.

(** No free sector, or no group for the data beside the sector for the inode. *)
Definition full (v : view) (len : Z) : Prop :=
  avail v = ∅ \/ exists sec, sec ∈ avail v /\ forall st, 0 <= st -> ~ run st (nsec len) ⊆ avail v ∖ {[sec]}.

Definition room (v : view) (sec st len : Z) : Prop := sec ∈ avail v /\ run st (nsec len) ⊆ avail v ∖ {[sec]}.

Inductive step (v : view) : call -> answer -> view -> Prop :=
  | step_create nm len sec st : valid nm -> names v !! nm = None -> (size (names v) < DIR_SIZE)%nat -> room v sec st len ->
      step v (Create nm len) (Yes true) (with_file nm sec (new_node st len) v)
  | step_create_full nm len : full v len -> step v (Create nm len) (Yes false) v
  | step_create_refused nm len sec st : ~ valid nm \/ is_Some (names v !! nm) \/ size (names v) = DIR_SIZE -> room v sec st len ->
      step v (Create nm len) (Yes false) (with_avail (avail v ∖ run st (nsec len)) v)
  | step_remove nm sec : names v !! nm = Some sec -> step v (Remove nm) (Yes true) (reclaim sec (without_name nm v))
  | step_remove_none nm : names v !! nm = None -> step v (Remove nm) (Yes false) v
  | step_open nm sec f : names v !! nm = Some sec -> f <> NULL -> handles v !! f = None ->
      step v (Open nm) (Opened f) (with_handle f (Handle sec 0 false) v)
  | step_open_none nm : names v !! nm = None -> step v (Open nm) (Opened NULL) v
  | step_reopen f h g : handles v !! f = Some h -> g <> NULL -> handles v !! g = None ->
      step v (Reopen f) (Opened g) (with_handle g (Handle (hfile h) 0 false) v)
  | step_close f h : handles v !! f = Some h -> step v (Close f) Done (reclaim (hfile h) (without_handle f v))
  | step_read f h n buffer size k : handles v !! f = Some h -> nodes v !! hfile h = Some n ->
      k = want (zlen (contents n)) size (hpos h) ->
      step v (Read f buffer size) (Bytes k (overlay 0 (slice (hpos h) k (contents n)) buffer))
        (with_handle f (Handle (hfile h) (hpos h + k) (hdeny h)) v)
  | step_write f h n buffer size k : handles v !! f = Some h -> nodes v !! hfile h = Some n ->
      k = (if bool_decide (hfile h ∈ denied v) then 0 else want (zlen (contents n)) size (hpos h)) ->
      step v (Write f buffer size) (Count k)
        (with_handle f (Handle (hfile h) (hpos h + k) (hdeny h)) (with_contents (hfile h) (written (hpos h) (slice 0 k buffer) n) v))
  | step_seek f h pos : handles v !! f = Some h ->
      step v (Seek f pos) Done (with_handle f (Handle (hfile h) pos (hdeny h)) v)
  | step_tell f h : handles v !! f = Some h -> step v (Tell f) (Count (hpos h)) v
  | step_length f h n : handles v !! f = Some h -> nodes v !! hfile h = Some n ->
      step v (Length f) (Count (zlen (contents n))) v
  | step_deny f h : handles v !! f = Some h -> step v (Deny f) Done (with_handle f (Handle (hfile h) (hpos h) true) v)
  | step_allow f h : handles v !! f = Some h -> step v (Allow f) Done (with_handle f (Handle (hfile h) (hpos h) false) v).

(** ** Clients *)

(** What may have been asked and answered so far, from [v]. *)
Inductive behaviour (v : view) : list (call * answer) -> view -> Prop :=
  | behaviour_start : behaviour v [] v
  | behaviour_step past v1 c r v2 : behaviour v past v1 -> step v1 c r v2 -> behaviour v (past ++ [(c, r)]) v2.

(** A client chooses its next call from the answers so far. *)
Definition client := list (call * answer) -> option call.

(** The calls so far are the client's. *)
Definition asked (cl : client) (past : list (call * answer)) : Prop :=
  forall k c r, past !! k = Some (c, r) -> cl (take k past) = Some c.

Lemma asked_nil cl : asked cl [].
Proof. intros k c r. by rewrite lookup_nil. Qed.

Lemma asked_snoc cl past c r : asked cl past -> cl past = Some c -> asked cl (past ++ [(c, r)]).
Proof.
  intros Ha Hc k c' r' Hk. apply lookup_app_Some in Hk as [Hk|[Hlen Hk]].
  - rewrite take_app_le by (apply lookup_lt_Some in Hk; lia). by apply (Ha k c' r').
  - apply list_lookup_singleton_Some in Hk as [Ek Ec]. injection Ec as -> ->. by rewrite take_app_length' by lia.
Qed.

(** It keeps to the interface whatever the file system answers. *)
Definition well_behaved (v : view) (cl : client) : Prop :=
  forall past v' c, behaviour v past v' -> asked cl past -> cl past = Some c -> allowed v' c.
