(* ===== verification/Filesys.v ===== *)
(** * The file system implements its specification

    [repr] relates the state of the C code to the abstract file system of
    [FsSpec]; every call of the file system returns, and as long as the kernel
    has memory it answers as the specification says. *)

From stdpp Require Import gmultiset.
From S2P Require Import Prelude Bitmap Alloc BlockDev Bytes FsDef FsInode FsAlloc.
From S2P Require Import FsFile FsDir FsSpec.
Local Open Scope Z_scope.

Lemma collect_elem {A} (g : A -> gmultiset Z) m b : b ∈ collect g m <-> exists a x, m !! a = Some x /\ b ∈ g x.
Proof.
  split.
  - induction m as [|a x m Ha IH] using map_ind; [rewrite collect_empty; multiset_solver|].
    rewrite collect_insert, gmultiset_elem_of_disj_union by done. intros [Hb|Hb].
    + exists a, x. by rewrite lookup_insert_eq.
    + destruct (IH Hb) as (a' & x' & Ha' & Hx'). exists a', x'. rewrite lookup_insert_ne; [done|congruence].
  - intros (a & x & Ha & Hb). rewrite (collect_delete g m a x Ha). multiset_solver.
Qed.

Section Refinement.
Context {H : Type} `{HA : Allocator H} {D : Type} `{HD : BlockDevice D}.
Notation fs := (@fs H D).
Implicit Types s : fs.

Context (uninit : list Z).
Hypothesis uninit_bytes : entry_bytes uninit.

(** ** Running a call *)

Definition exec (c : call) : M fs answer :=
  match c with
  | Create nm len => b <- filesys_create uninit nm len;; ret (Yes b)
  | Remove nm => b <- filesys_remove uninit nm;; ret (Yes b)
  | Open nm => f <- filesys_open uninit nm;; ret (Opened f)
  | Reopen f => g <- file_reopen f;; ret (Opened g)
  | Close f => file_close f;;; ret Done
  | Read f buffer size => r <- file_read f buffer size;; ret (Bytes r.1 r.2)
  | Write f buffer size => n <- file_write f buffer size;; ret (Count n)
  | Seek f pos => file_seek f pos;;; ret Done
  | Tell f => n <- file_tell f;; ret (Count n)
  | Length f => n <- file_length f;; ret (Count n)
  | Deny f => file_deny_write f;;; ret Done
  | Allow f => file_allow_write f;;; ret Done
  end.

(** ** The representation *)

Definition handle_of s (x : file) : option handle :=
  (fun i => Handle (isector i) (fpos x) (deny_write x)) <$> inodes s !! finode x.

Definition handles_of s : gmap Z handle := omap (handle_of s) (delete (free_map_file s) (files s)).

Definition unlinked (v : view) (x : Z) : bool :=
  bool_decide (x <> FREE_MAP_SECTOR /\ x <> ROOT_DIR_SECTOR /\ x ∉ linked v).

(** The root directory lists the names. *)
Definition root_ok (N : gmap Z node) (nms : gmap (list Z) Z) : Prop :=
  exists n es, N !! ROOT_DIR_SECTOR = Some n /\ contents n = mjoin es /\ dir_ok es /\ length es = DIR_SIZE /\
    nms = list_to_map (used es).

(** [extra]: the references in the hands of the caller. *)
Record base_at (extra : gmultiset Z) s (N : gmap Z node) : Prop := Base {
  bs_held : held s N extra;
  bs_map : free_map_file s <> NULL;
  bs_dirs d x i : dirs s !! d = Some x -> inodes s !! dinode x = Some i -> isector i = ROOT_DIR_SECTOR
}.

Record view_ok (v : view) : Prop := ViewOk {
  vo_named nm sec : names v !! nm = Some sec -> is_Some (nodes v !! sec);
  vo_inj nm nm' sec : names v !! nm = Some sec -> names v !! nm' = Some sec -> nm = nm';
  vo_open f h : handles v !! f = Some h -> is_Some (nodes v !! hfile h) /\ 0 <= hpos h < 2 ^ 31
}.

Definition free_ok s (X : gset Z) : Prop := forall x, x ∈ X <-> 0 <= x < disk_size s /\ bit (free_map s) x = false.

Definition user_nodes (N : gmap Z node) : gmap Z node := delete FREE_MAP_SECTOR (delete ROOT_DIR_SECTOR N).

(** [locked]: the state of the lock of the file system. *)
Record repr_at (extra : gmultiset Z) (locked : bool) s (N : gmap Z node) (v : view) : Prop := Repr {
  rp_base : base_at extra s N;
  rp_lock : lock_filesys s = locked;
  rp_sync : synced s N;
  rp_view : view_ok v;
  rp_root : root_ok N (names v);
  rp_nodes : nodes v = user_nodes N;
  rp_handles : handles v = handles_of s;
  rp_marked : marked s (unlinked v);
  rp_free : free_ok s (avail v)
}.

#[local] Arguments bs_held {extra s N} _.
#[local] Arguments bs_map {extra s N} _.
#[local] Arguments bs_dirs {extra s N} _ d x i _ _.
#[local] Arguments rp_base {extra locked s N v} _.
#[local] Arguments rp_lock {extra locked s N v} _.
#[local] Arguments rp_sync {extra locked s N v} _.
#[local] Arguments rp_view {extra locked s N v} _.
#[local] Arguments rp_root {extra locked s N v} _.
#[local] Arguments rp_nodes {extra locked s N v} _.
#[local] Arguments rp_handles {extra locked s N v} _.
#[local] Arguments rp_marked {extra locked s N v} _.
#[local] Arguments rp_free {extra locked s N v} _.

Notation base := (base_at ∅).
Notation repr := (repr_at ∅ false).

Definition refines (c : call) : Prop := forall s N v, repr s N v -> allowed v c ->
  exists r s', exec c s = Ok (r, s') /\ (oom s' = true \/ exists N' v', step v c r v' /\ repr s' N' v').

(** ** Handles *)

Lemma user_node N x : is_Some (user_nodes N !! x) -> x <> FREE_MAP_SECTOR /\ x <> ROOT_DIR_SECTOR /\ user_nodes N !! x = N !! x.
Proof.
  unfold user_nodes. intros [n Hx]. rewrite Hx. apply lookup_delete_Some in Hx as [H0 Hx]. apply lookup_delete_Some in Hx as [H1 Hx].
  split_and!; congruence.
Qed.

Lemma user_node_other N x : x <> FREE_MAP_SECTOR -> x <> ROOT_DIR_SECTOR -> user_nodes N !! x = N !! x.
Proof. intros H0 H1. unfold user_nodes. by rewrite !lookup_delete_ne. Qed.

Lemma handles_lookup s f h : handles_of s !! f = Some h <->
  f <> free_map_file s /\ exists x i, files s !! f = Some x /\ inodes s !! finode x = Some i /\ h = Handle (isector i) (fpos x) (deny_write x).
Proof.
  unfold handles_of. rewrite lookup_omap. unfold handle_of. split.
  - destruct (delete (free_map_file s) (files s) !! f) as [x|] eqn:E; [|done]. apply lookup_delete_Some in E as [Hne Hf].
    cbn. destruct (inodes s !! finode x) as [i|] eqn:Ei; [|done]. intros [= <-]. split; [done|]. by exists x, i.
  - intros (Hne & x & i & Hf & Hi & ->). rewrite lookup_delete_ne, Hf by done. cbn. by rewrite Hi.
Qed.

(** The free map's file is open on its sector. *)
Lemma base_map_file s N g : base s N -> files s !! free_map_file s = Some g ->
  exists i, inodes s !! finode g = Some i /\ isector i = FREE_MAP_SECTOR /\ deny_write g = false.
Proof.
  intros [Hh Hm _] Hg. destruct (gd_map _ _ _ _ Hh) as [?|(f & i & n & H1 & H2 & H3 & H4 & H5 & H6)]; [done|].
  rewrite Hg in H1. injection H1 as <-. exists i. split_and!; try done. destruct (deny_write g) eqn:E; [|done]. exfalso.
  assert (finode g ∈ file_denies (files s)) as Hin.
  { apply collect_elem. exists (free_map_file s), g. split; [done|]. rewrite E. multiset_solver. }
  by apply not_elem_of_multiplicity in H6.
Qed.

Lemma handle_user s N v f h : repr s N v -> handles v !! f = Some h ->
  exists x i n, user_file s f x i /\ h = Handle (isector i) (fpos x) (deny_write x) /\ nodes v !! isector i = Some n /\
    N !! isector i = Some n /\ 0 <= fpos x < 2 ^ 31.
Proof.
  intros Hr Hf. pose proof (vo_open _ (rp_view Hr) f h Hf) as [[n Hn] Hp]. rewrite (rp_handles Hr) in Hf.
  apply handles_lookup in Hf as (Hne & x & i & Hx & Hi & ->). cbn [hfile hpos] in *. exists x, i, n.
  rewrite (rp_nodes Hr) in *. destruct (user_node N (isector i)) as (H0 & H1 & E); [by exists n|].
  split; [|split; [done|split; [done|split; [congruence|done]]]]. split_and!; try done. intros g Hg Eg.
  destruct (base_map_file s N g (rp_base Hr) Hg) as (j & Hj & Es & _). congruence.
Qed.

Lemma file_ref s f x : files s !! f = Some x -> finode x ∈ refs_of s.
Proof.
  intros Hf. unfold refs_of, file_refs. pose proof (collect_lookup (fun f => {[+ finode f +]}) _ _ _ Hf). multiset_solver.
Qed.

(** Handles do not change while their inodes stay open. *)
Lemma handles_kept s s' N extra K m : held s N extra -> m ⊆ files s -> keeps K s s' ->
  (forall f x, m !! f = Some x -> finode x ∈ K) -> omap (handle_of s') m = omap (handle_of s) m.
Proof.
  intros Hh Hm Hk HK. apply omap_ext. intros f x Hx. pose proof (lookup_weaken _ _ _ _ Hx Hm) as Hf.
  destruct (held_file s N extra f x Hh Hf) as [i Hi]. destruct (kp_inodes _ _ _ Hk (finode x) i (HK f x Hx) Hi) as (i' & Hi' & Es).
  unfold handle_of. rewrite Hi, Hi'. cbn. by rewrite Es.
Qed.

Lemma handles_same s s' N extra : held s N extra -> files s' = files s -> keeps (refs_of s) s s' -> handles_of s' = handles_of s.
Proof.
  intros Hh Ef Hk. unfold handles_of. rewrite Ef, (kp_map_file _ _ _ Hk).
  apply (handles_kept s s' N extra (refs_of s) _ Hh (delete_subseteq _ _) Hk). intros f x [_ Hx]%lookup_delete_Some.
  by apply (file_ref s f).
Qed.

(** An in-memory inode of a user file has a handle. *)
Lemma inode_handle s N b j : base s N -> inodes s !! b = Some j -> isector j <> FREE_MAP_SECTOR -> isector j <> ROOT_DIR_SECTOR ->
  exists f h, handles_of s !! f = Some h /\ hfile h = isector j.
Proof.
  intros Hb Hj H0 H1. pose proof (bs_held Hb) as Hh. pose proof (gd_inv _ _ _ _ Hh) as Hi.
  destruct (io_open _ _ _ _ _ (iv_inode _ _ _ _ Hi b j Hj)) as [Eo Ho].
  assert (b ∈ file_refs (files s) ⊎ dir_refs (dirs s)) as Hin.
  { apply elem_of_multiplicity. fold (refs_of s). rewrite (left_id_L ∅ (⊎)) in Eo. lia. }
  apply gmultiset_elem_of_disj_union in Hin as [(f & x & Hx & Hbx)%collect_elem|(d & x & Hx & Hbx)%collect_elem];
    apply gmultiset_elem_of_singleton in Hbx; subst b.
  - exists f, (Handle (isector j) (fpos x) (deny_write x)). split; [|done]. apply handles_lookup. split; [|by exists x, j].
    intros ->. destruct (base_map_file s N x Hb Hx) as (i & Hi' & Es & _). congruence.
  - by destruct H1; apply (bs_dirs Hb d x j).
Qed.

(** A file is denied if some handle denies it. *)
Lemma denied_count s N v f x i : repr s N v -> user_file s f x i -> deny_write_cnt i = 0 <-> isector i ∉ denied v.
Proof.
  intros Hr Hu. pose proof (rp_base Hr) as Hb. pose proof (gd_inv _ _ _ _ (bs_held Hb)) as Hi.
  destruct Hu as (Hf & Hne & Ha & Hmap). rewrite (io_deny _ _ _ _ _ (iv_inode _ _ _ _ Hi _ i Ha)).
  unfold denied. rewrite elem_of_map_img, (rp_handles Hr). split.
  - intros H0 (g & Hg). rewrite lookup_omap in Hg. destruct (handles_of s !! g) as [h|] eqn:E; [|done].
    apply handles_lookup in E as (Hng & y & j & Hy & Hj & ->). cbn in Hg. destruct (deny_write y) eqn:Ed; [|done].
    injection Hg as Es. assert (finode y = finode x) as En by by apply (iv_unique _ _ _ _ Hi _ _ j i).
    assert (finode x ∈ file_denies (files s)) as Hin; [|apply not_elem_of_multiplicity in Hin; [done|lia]].
    apply collect_elem. exists g, y. split; [done|]. rewrite Ed, En. multiset_solver.
  - intros Hno. destruct (decide (finode x ∈ file_denies (files s))) as [Hin|Hin]; [|apply not_elem_of_multiplicity in Hin; lia].
    destruct Hno. apply collect_elem in Hin as (g & y & Hy & Hin). destruct (deny_write y) eqn:Ed; [|multiset_solver].
    apply gmultiset_elem_of_singleton in Hin. exists g. rewrite lookup_omap.
    assert (handles_of s !! g = Some (Handle (isector i) (fpos y) true)) as ->; [|done].
    apply handles_lookup. split; [|exists y, i; rewrite Ed, <- Hin; done]. intros ->.
    destruct (base_map_file s N y Hb Hy) as (? & _ & _ & ?). congruence.
Qed.

(** ** Calls on an open file *)

Lemma dirs_kept extra s s' N : base_at extra s N -> dirs s' = dirs s -> inodes_sub s s' ->
  forall d x i, dirs s' !! d = Some x -> inodes s' !! dinode x = Some i -> isector i = ROOT_DIR_SECTOR.
Proof.
  intros Hb Ed Hs d x i Hd Hi. rewrite Ed in Hd. destruct (Hs _ _ Hi) as (j & Hj & <- & _). by apply (bs_dirs Hb d x).
Qed.

Lemma synced_user s s' N N' : synced s N -> free_map_file s' = free_map_file s -> free_map s' = free_map s ->
  N' !! FREE_MAP_SECTOR = N !! FREE_MAP_SECTOR -> synced s' N'.
Proof. unfold synced. by intros Hs -> -> ->. Qed.

Lemma user_nodes_insert N sec n : sec <> FREE_MAP_SECTOR -> sec <> ROOT_DIR_SECTOR ->
  user_nodes (<[sec := n]> N) = <[sec := n]> (user_nodes N).
Proof. intros H0 H1. unfold user_nodes. by rewrite !delete_insert_ne. Qed.

(** The open file [f] becomes [y] and its contents [n']. *)
Lemma repr_file s N v f x i n y n' s' : repr s N v -> user_file s f x i -> N !! isector i = Some n ->
  finode y = finode x -> 0 <= fpos y < 2 ^ 31 -> held s' (<[isector i := n']> N) ∅ ->
  files s' = <[f := y]> (files s) -> dirs s' = dirs s -> keeps (refs_of s) s s' -> inodes_sub s s' ->
  free_map s' = free_map s -> is_Some (nodes v !! isector i) ->
  repr s' (<[isector i := n']> N) (with_handle f (Handle (isector i) (fpos y) (deny_write y)) (with_contents (isector i) n' v)).
Proof.
  intros Hr Hu Hn Ey Hp Hh' Ef Ed Hk Hsub Em Hnode. destruct Hr as [Hb L Sy V Ro No Ha Mk Fr].
  pose proof Hu as (Hf & Hne & Hi & _). rewrite No in Hnode. destruct (user_node N (isector i) Hnode) as (H0 & H1 & _).
  split; try done.
  - split; [done|by rewrite (kp_map_file _ _ _ Hk); apply Hb|by apply (dirs_kept ∅ s s' N)].
  - by rewrite (kp_lock _ _ _ Hk).
  - apply (synced_user s s' N); [done|apply Hk|done|]. by rewrite lookup_insert_ne.
  - destruct V as [V1 V2 V3]. split; cbn [names nodes handles with_handle with_contents].
    + intros nm sec Hs. apply lookup_insert_is_Some. destruct (decide (isector i = sec)); [by left|right]. split; [done|by apply (V1 nm)].
    + done.
    + intros g h. destruct (decide (g = f)) as [->|Hgf].
      * rewrite lookup_insert_eq. intros [= <-]. cbn [hfile hpos]. split; [|done]. apply lookup_insert_is_Some. by left.
      * rewrite lookup_insert_ne by done. intros Hg. destruct (V3 g h Hg) as [Hs Hpos]. split; [|done].
        apply lookup_insert_is_Some. destruct (decide (isector i = hfile h)); [by left|by right].
  - destruct Ro as (rn & es & Hrn & Hc). exists rn, es. by rewrite lookup_insert_ne by done.
  - cbn [nodes with_handle with_contents]. by rewrite No, user_nodes_insert.
  - cbn [handles with_handle with_contents]. rewrite Ha. unfold handles_of. rewrite Ef, (kp_map_file _ _ _ Hk).
    rewrite delete_insert_ne by done. destruct (kp_inodes _ _ _ Hk (finode x) i (file_ref s f x Hf) Hi) as (i' & Hi' & Es).
    rewrite (omap_insert_Some _ _ _ _ (Handle (isector i) (fpos y) (deny_write y)))
      by (unfold handle_of; rewrite Ey, Hi'; cbn; by rewrite Es).
    f_equal. symmetry. apply (handles_kept s s' N ∅ (refs_of s)); try done; [apply Hb|apply delete_subseteq|].
    intros g z [_ Hz]%lookup_delete_Some. by apply (file_ref s g).
  - by apply (marked_sub s).
  - intros z. rewrite Em, (kp_size _ _ _ Hk). apply Fr.
Qed.

Lemma with_contents_id v sec n : nodes v !! sec = Some n -> with_contents sec n v = v.
Proof. intros Hn. unfold with_contents. rewrite insert_id by done. by destruct v. Qed.

Lemma repr_file_same s N v f x i n y s' : repr s N v -> user_file s f x i -> nodes v !! isector i = Some n ->
  N !! isector i = Some n -> finode y = finode x -> 0 <= fpos y < 2 ^ 31 -> held s' N ∅ ->
  files s' = <[f := y]> (files s) -> dirs s' = dirs s -> keeps (refs_of s) s s' -> inodes_sub s s' ->
  free_map s' = free_map s ->
  repr s' N (with_handle f (Handle (isector i) (fpos y) (deny_write y)) v).
Proof.
  intros Hr Hu Hv Hn Ey Hp Hh Ef Ed Hk Hsub Em.
  pose proof (repr_file s N v f x i n y n s' Hr Hu Hn Ey Hp) as Hx. rewrite (insert_id N _ n) in Hx by done.
  rewrite with_contents_id in Hx by done. by apply Hx.
Qed.

Lemma inodes_sub_quiet s s' : quiet s s' -> inodes_sub s s'.
Proof. intros Hq b j. rewrite (qt_inodes _ _ Hq). eauto. Qed.

Lemma quiet_set_files K s s' m : quiet s s' -> keeps K s (set_files m s').
Proof. intros Hq. destruct (quiet_keeps K s s' Hq). by split. Qed.

Lemma no_oom (s : fs) : oom s = true \/ oom s = false.
Proof. destruct (oom s); auto. Qed.

Lemma want_pos len size off : 0 <= off -> 0 <= want len size off /\ off + want len size off <= Z.max off len.
Proof. unfold want. lia. Qed.

(** The length of a file fits. *)
Lemma node_length s N sec n : base s N -> N !! sec = Some n -> 0 <= zlen (contents n) < 2 ^ 31 - 511.
Proof.
  intros Hb Hn. split; [apply zlen_nonneg|].
  apply (no_length _ _ _ _ (ly_node _ _ _ _ (iv_layout _ _ _ _ (gd_inv _ _ _ _ (bs_held Hb))) _ n Hn)).
Qed.

(** A read keeps the state represented; it is short only without memory. *)
Lemma read_short s N v f h n buffer size : repr s N v -> handles v !! f = Some h -> nodes v !! hfile h = Some n ->
  buffer_ok buffer size ->
  exists k s', exec (Read f buffer size) s = Ok (Bytes k (overlay 0 (slice (hpos h) k (contents n)) buffer), s') /\
    0 <= k <= want (zlen (contents n)) size (hpos h) /\
    (k = want (zlen (contents n)) size (hpos h) \/ oom s' = true) /\
    repr s' N (with_handle f (Handle (hfile h) (hpos h + k) (hdeny h)) v).
Proof.
  intros Hr Hf Hnv [Hsz Hbuf]. destruct (handle_user s N v f h Hr Hf) as (x & i & n' & Hu & -> & Hv & Hn & Hp).
  cbn [hfile hpos hdeny] in *. assert (n' = n) as -> by congruence. pose proof (rp_base Hr) as Hb. pose proof Hu as (Hx & _ & Hi & _).
  destruct (file_read_held s N ∅ f x i n buffer size (bs_held Hb) Hx Hi Hn Hp Hsz Hbuf) as (k & s1 & s' & E & Hh & Hq & Hm & [Hk Hout] & Es).
  cbn [exec]. crun E. eexists k, s'. split; [done|]. split; [done|]. split; [destruct Hout as [?|(? & _)]; auto|].
  pose proof (node_length s N _ n Hb Hn). unfold want in Hk. subst s'.
  by apply (repr_file_same s N v f x i n (File (finode x) (fpos x + k) (deny_write x)));
    try done; cbn; [lia|by rewrite (qt_files _ _ Hq)|apply Hq|by apply quiet_set_files|by apply (inodes_sub_quiet s s1)].
Qed.

Lemma read_refines f buffer size : refines (Read f buffer size).
Proof.
  intros s N v Hr [[h Hf] Hb]. destruct (handle_user s N v f h Hr Hf) as (x & i & n & _ & Eh & Hv & _).
  assert (nodes v !! hfile h = Some n) as Hn by by rewrite Eh.
  destruct (read_short s N v f h n buffer size Hr Hf Hn Hb) as (k & s' & E & Hk & Hout & Hr').
  eexists _, s'. split; [exact E|]. destruct Hout as [Ek|?]; [right|by left]. eexists N, _. split; [|exact Hr'].
  by apply (step_read v f h n buffer size k).
Qed.

Lemma write_refines f buffer size : refines (Write f buffer size).
Proof.
  intros s N v Hr [[h Hf] [[Hsz Hbuf] Hby]]. destruct (handle_user s N v f h Hr Hf) as (x & i & n & Hu & -> & Hv & Hn & Hp).
  pose proof (rp_base Hr) as Hb. pose proof Hu as (Hx & _ & Hi & _).
  destruct (file_write_held s N ∅ f x i n buffer size (bs_held Hb) Hx Hi Hn Hby Hp Hsz Hbuf) as (k & s1 & s' & E & Hh & Hq & Hm & Hout & Hk & Es).
  cbn [exec]. crun E. eexists _, s'. split; [done|]. destruct (no_oom s') as [Ho|Ho]; [by left|right].
  assert (k = if bool_decide (isector i ∈ denied v) then 0 else want (zlen (contents n)) size (fpos x)) as Ek.
  { pose proof (denied_count s N v f x i Hr Hu) as Hd. case_bool_decide as Hin; case_decide as Hz; try tauto.
    destruct Hout as [_ [?|(? & _)]]; [done|congruence]. }
  eexists (<[isector i := written (fpos x) (slice 0 k buffer) n]> N), _. split; [by apply (step_write v f _ n buffer size k Hf Hv)|]. pose proof (node_length s N _ n Hb Hn).
  unfold want in Hk. cbn [hfile hpos hdeny]. subst s'.
  apply (repr_file s N v f x i n (File (finode x) (fpos x + k) (deny_write x))); try done; cbn;
    [lia|by rewrite (qt_files _ _ Hq)|apply Hq|by apply quiet_set_files|by apply (inodes_sub_quiet s s1)].
Qed.

Lemma seek_exact s N v f h pos : repr s N v -> handles v !! f = Some h -> 0 <= pos < 2 ^ 31 ->
  exists s', exec (Seek f pos) s = Ok (Done, s') /\ oom s' = oom s /\
    repr s' N (with_handle f (Handle (hfile h) pos (hdeny h)) v).
Proof.
  intros Hr Hf Hpos. destruct (handle_user s N v f h Hr Hf) as (x & i & n & Hu & -> & Hv & Hn & Hp).
  pose proof (rp_base Hr) as Hb. pose proof Hu as (Hx & _ & Hi & _). cbn [exec]. unfold file_seek.
  rewrite !bind_assoc. cassert ltac:(by rewrite (proj2 (Z.eqb_neq f NULL)) by exact (file_not_null s N ∅ f x i (bs_held Hb) Hu)).
  rewrite !bind_assoc. cassert ltac:(apply Z.leb_le; lia). rewrite !bind_assoc. crun (get_file_ok s f x Hx). unfold put_file. rewrite bind_modify.
  eexists _. split; [done|]. split; [done|].
  apply (repr_file_same s N v f x i n (File (finode x) pos (deny_write x))); try done.
  - by apply (update_file_held s N ∅ f x); [apply Hb|..].
  - split; try done. eauto.
  - intros b j Hj. eauto.
Qed.

Lemma seek_refines f pos : refines (Seek f pos).
Proof.
  intros s N v Hr [[h Hf] Hpos]. destruct (seek_exact s N v f h pos Hr Hf Hpos) as (s' & E & _ & Hr').
  eexists _, s'. split; [exact E|]. right. eexists N, _. split; [by apply (step_seek v f h pos)|done].
Qed.

Lemma tell_refines f : refines (Tell f).
Proof.
  intros s N v Hr [h Hf]. destruct (handle_user s N v f h Hr Hf) as (x & i & n & Hu & -> & Hv & Hn & Hp).
  pose proof (rp_base Hr) as Hb. pose proof Hu as (Hx & _ & Hi & _). cbn [exec]. unfold file_tell.
  rewrite !bind_assoc. cassert ltac:(by rewrite (proj2 (Z.eqb_neq f NULL)) by exact (file_not_null s N ∅ f x i (bs_held Hb) Hu)).
  rewrite !bind_assoc. crun (get_file_ok s f x Hx). rewrite bind_ret. eexists _, s. split; [done|]. right. exists N, v.
  split; [exact (step_tell v f _ Hf)|done].
Qed.

Lemma length_exact s N v f h n : repr s N v -> handles v !! f = Some h -> nodes v !! hfile h = Some n ->
  exec (Length f) s = Ok (Count (zlen (contents n)), s).
Proof.
  intros Hr Hf Hnv. destruct (handle_user s N v f h Hr Hf) as (x & i & n' & Hu & -> & Hv & Hn & Hp). cbn [hfile] in Hnv.
  assert (n' = n) as -> by congruence.
  pose proof (rp_base Hr) as Hb. pose proof Hu as (Hx & _ & Hi & _). cbn [exec]. unfold file_length.
  rewrite !bind_assoc. cassert ltac:(by rewrite (proj2 (Z.eqb_neq f NULL)) by exact (file_not_null s N ∅ f x i (bs_held Hb) Hu)).
  rewrite !bind_assoc. crun (get_file_ok s f x Hx). by crun (inode_length_ok s N _ _ _ i n (gd_inv _ _ _ _ (bs_held Hb)) Hi Hn).
Qed.

Lemma length_refines f : refines (Length f).
Proof.
  intros s N v Hr [h Hf]. destruct (handle_user s N v f h Hr Hf) as (x & i & n & _ & Eh & Hv & _).
  assert (nodes v !! hfile h = Some n) as Hn by by rewrite Eh.
  eexists _, s. split; [exact (length_exact s N v f h n Hr Hf Hn)|]. right. exists N, v. split; [exact (step_length v f h n Hf Hn)|done].
Qed.

(** Denying and allowing writes. *)
Lemma deny_step_repr s N v f x i n y s' : repr s N v -> user_file s f x i -> nodes v !! isector i = Some n ->
  N !! isector i = Some n -> held s' N ∅ -> file_step s f x y s' -> fpos y = fpos x -> 0 <= fpos x < 2 ^ 31 ->
  repr s' N (with_handle f (Handle (isector i) (fpos x) (deny_write y)) v).
Proof.
  intros Hr Hu Hv Hn Hh (Ef & En & Ed & _ & Em & Eo & Hmv & Hsub) Ep Hp. rewrite <- Ep in *.
  apply (repr_file_same s N v f x i n y); try done. by apply moves_keeps.
Qed.

Lemma deny_refines f : refines (Deny f).
Proof.
  intros s N v Hr [h Hf]. destruct (handle_user s N v f h Hr Hf) as (x & i & n & Hu & -> & Hv & Hn & Hp).
  destruct (file_deny_write_held s N ∅ f x i (bs_held (rp_base Hr)) Hu) as (s' & E & Hh & Hst). cbn [exec]. crun E.
  eexists _, s'. split; [done|]. right. eexists N, _. split; [by apply (step_deny v f _ Hf)|].
  exact (deny_step_repr s N v f x i n _ s' Hr Hu Hv Hn Hh Hst eq_refl Hp).
Qed.

Lemma allow_refines f : refines (Allow f).
Proof.
  intros s N v Hr [h Hf]. destruct (handle_user s N v f h Hr Hf) as (x & i & n & Hu & -> & Hv & Hn & Hp).
  destruct (file_allow_write_held s N ∅ f x i (bs_held (rp_base Hr)) Hu) as (s' & E & Hh & Hst). cbn [exec]. crun E.
  eexists _, s'. split; [done|]. right. eexists N, _. split; [by apply (step_allow v f _ Hf)|].
  exact (deny_step_repr s N v f x i n _ s' Hr Hu Hv Hn Hh Hst eq_refl Hp).
Qed.

(** ** Files that go away *)

Lemma elem_of_run st cnt x : x ∈ run st cnt <-> st <= x < st + cnt.
Proof. unfold run. by rewrite elem_of_list_to_set, elem_of_seqZ. Qed.

Lemma elem_of_sectors sec n x : x ∈ sectors sec n <-> owns sec n x.
Proof. unfold sectors, owns. by rewrite elem_of_union, elem_of_singleton, elem_of_run. Qed.

Lemma map_step_user N N' : map_step N N' -> user_nodes N' = user_nodes N.
Proof.
  intros [_ Hm]. unfold user_nodes. apply map_eq. intros x. destruct (decide (x = FREE_MAP_SECTOR)) as [->|H0];
    [by rewrite !lookup_delete_eq|]. rewrite !(lookup_delete_ne _ FREE_MAP_SECTOR) by done.
  destruct (decide (x = ROOT_DIR_SECTOR)) as [->|H1]; [by rewrite !lookup_delete_eq|]. rewrite !lookup_delete_ne by done. by apply Hm.
Qed.

Lemma user_nodes_delete N sec : user_nodes (delete sec N) = delete sec (user_nodes N).
Proof. unfold user_nodes. rewrite (delete_delete _ ROOT_DIR_SECTOR), (delete_delete _ FREE_MAP_SECTOR). done. Qed.

(** How a file fares when one of its references goes: it stays, because of a
    name or of another reference, or its sectors are released. *)
Definition ended s (N : gmap Z node) (v : view) (sec : Z) s' (N' : gmap Z node) : Prop :=
  (N' = N /\ free_map s' = free_map s /\ (sec ∈ linked v \/ exists b j, inodes s' !! b = Some j /\ isector j = sec)) \/
  (sec ∉ linked v /\ (forall b j, inodes s' !! b = Some j -> isector j <> sec) /\ released s N sec s' N').

Lemma released_free s N0 N sec s' N' X n : base s N0 -> N0 !! sec = Some n -> N !! sec = Some n -> released s N sec s' N' -> disk_size s' = disk_size s ->
  free_ok s X -> free_ok s' (X ∪ sectors sec n).
Proof.
  intros Hb Hn0 Hn (_ & _ & n' & Hn' & Hbit) Es Hf x. rewrite Hn in Hn'. injection Hn' as <-.
  rewrite elem_of_union, (Hf x), elem_of_sectors, Es.
  pose proof (iv_layout _ _ _ _ (gd_inv _ _ _ _ (bs_held Hb))) as Hl. pose proof (ly_node _ _ _ _ Hl sec n Hn0) as Hok.
  split.
  - intros [[Hx Hbx]|Ho]; [split; [done|]|pose proof (owns_bound _ _ _ _ _ Hok Ho); split; [done|]];
      apply not_true_iff_false; rewrite Hbit by done; [intros [? _]; congruence|by intros [_ ?]].
  - intros [Hx Hbx]. destruct (bit (free_map s) x) eqn:E; [right|by left]. destruct (decide (owns sec n x)) as [?|Hno]; [done|].
    assert (bit (free_map s') x = true) by by apply Hbit. congruence.
Qed.

(** [N0] is what is on the disk in [s], [N] the same but for the root directory. *)
Lemma reclaim_repr s N0 N v sec n s' N' : base s' N' -> oom s' = false -> lock_filesys s' = false -> disk_size s' = disk_size s ->
  free_map_file s' = free_map_file s -> base s N0 -> synced s N -> view_ok v -> root_ok N (names v) -> nodes v = user_nodes N ->
  handles v = handles_of s' -> marked s' (unlinked v) -> free_ok s (avail v) ->
  nodes v !! sec = Some n -> N0 !! sec = Some n -> N !! sec = Some n -> ended s N v sec s' N' -> repr s' N' (reclaim sec v).
Proof.
  intros Hb' Ho Hl Hsz Hmf Hb Hsy Hv Hro Hno Hha Hmk Hfr Hsec HN0 HN Hend. unfold reclaim. rewrite Hsec.
  destruct (user_node N sec) as (H0 & H1 & _); [rewrite <- Hno; by exists n|].
  destruct Hend as [(-> & Em & Hk)|(Hnl & Hni & Hrel)].
  - rewrite bool_decide_true.
    + split; try done; [by apply (synced_user s s' N)|]. intros x. rewrite Em, Hsz. apply Hfr.
    + apply elem_of_union. destruct Hk as [?|(b & j & Hj & Ej)]; [by left|right]. unfold opened_files.
      subst sec. destruct (inode_handle s' N b j Hb' Hj H0 H1) as (f & h & Hf & Eh). apply elem_of_map_img. exists f.
      by rewrite Hha, lookup_fmap, Hf, <- Eh.
  - assert (sec ∉ opened_files v) as Hnof.
    { unfold opened_files. rewrite elem_of_map_img, Hha. intros (f & Hf). rewrite lookup_fmap in Hf.
      destruct (handles_of s' !! f) as [h|] eqn:E; [|done]. injection Hf as Eh.
      apply handles_lookup in E as (_ & x & i & _ & Hi & ->). by apply (Hni _ i Hi). }
    rewrite bool_decide_false by set_solver. pose proof Hrel as (Hms & Hsyn & _).
    destruct Hv as [V1 V2 V3]. split; try done.
    + by apply Hsyn.
    + split; cbn [names nodes handles].
      * intros nm x Hx. rewrite lookup_delete_ne; [by apply (V1 nm)|]. intros ->. apply Hnl. apply elem_of_map_img. by exists nm.
      * done.
      * intros f h Hf. destruct (V3 f h Hf) as [Hs Hp]. split; [|done]. rewrite lookup_delete_ne; [done|]. intros ->.
        apply Hnof. apply elem_of_map_img. exists f. by rewrite lookup_fmap, Hf.
    + destruct Hro as (rn & es & Hrn & Hc). exists rn, es. rewrite (proj2 Hms) by done. by rewrite lookup_delete_ne.
    + cbn [nodes]. by rewrite (map_step_user _ _ Hms), user_nodes_delete, <- Hno.
    + by apply (released_free s N0 N sec s' N').
Qed.

Lemma close_refines f : refines (Close f).
Proof.
  intros s N v Hr [h Hf]. destruct (handle_user s N v f h Hr Hf) as (x & i & n & Hu & -> & Hv & Hn & Hp).
  destruct Hr as [Hb L Sy V Ro No Ha Mk Fr]. pose proof Hu as (Hx & Hne & Hi & _).
  destruct (file_close_held s N ∅ f x i (bs_held Hb) (fun _ => bs_map Hb) Hu) as (s' & N' & E & Hh & Ef & Ed & Hmv & Hsub & Hcl).
  cbn [exec]. crun E. eexists _, s'. split; [done|]. destruct (no_oom s') as [Ho|Ho]; [by left|right].
  eexists N', _. split; [by apply (step_close v f _ Hf)|]. cbn [hfile]. pose proof (moves_keeps _ _ _ Hmv) as Hk.
  assert (handles (without_handle f v) = handles_of s') as Hha.
  { cbn. rewrite Ha. unfold handles_of. rewrite Ef, (kp_map_file _ _ _ Hk), delete_delete.
    rewrite <- omap_delete. symmetry. apply (handles_kept s s' N ∅ (∅ ⊎ refs_of s')); try done; [apply Hb| |].
    - etrans; [apply delete_subseteq|apply delete_subseteq].
    - intros g z. rewrite delete_delete. intros [_ Hz]%lookup_delete_Some. rewrite (left_id_L ∅ (⊎)). apply (file_ref s' g). by rewrite Ef. }
  apply (reclaim_repr s N N (without_handle f v) (isector i) n s' N'); try done.
  - split; [done|by rewrite (kp_map_file _ _ _ Hk); apply Hb|by apply (dirs_kept ∅ s s' N)].
  - by rewrite (kp_lock _ _ _ Hk).
  - apply Hk.
  - apply Hk.
  - destruct V as [V1 V2 V3]. split; try done. cbn. intros g h [_ Hg]%lookup_delete_Some. by apply (V3 g).
  - by apply (marked_sub s).
  - pose proof (Mk _ i Hi) as Hrm. destruct (user_node N (isector i)) as (H0 & H1 & _); [rewrite <- No; by exists n|].
    unfold unlinked in Hrm. destruct Hcl as [(-> & Em & Hc)|(Hrem & Hni & Hrel)].
    + left. split_and!; try done. destruct (removed i) eqn:Er; [by right; apply Hc|left].
      symmetry in Hrm. apply bool_decide_eq_false in Hrm. destruct (decide (isector i ∈ linked v)); [done|tauto].
    + right. rewrite Hrem in Hrm. symmetry in Hrm. by apply bool_decide_eq_true in Hrm as (_ & _ & ?).
Qed.

(** ** Steps that leave the files alone *)

Lemma repr_move extra extra' l s s' N v : repr_at extra l s N v -> held s' N extra' -> files s' = files s ->
  keeps (refs_of s) s s' -> free_map s' = free_map s -> marked s' (unlinked v) ->
  (forall d x i, dirs s' !! d = Some x -> inodes s' !! dinode x = Some i -> isector i = ROOT_DIR_SECTOR) -> repr_at extra' l s' N v.
Proof.
  intros [Hb L Sy V Ro No Ha Mk Fr] Hh Ef Hk Em Hmk Hd. split; try done.
  - split; [done|by rewrite (kp_map_file _ _ _ Hk); apply Hb|done].
  - by rewrite (kp_lock _ _ _ Hk).
  - apply (synced_user s s' N); [done|apply Hk|done..].
  - rewrite Ha. symmetry. by apply (handles_same s s' N extra (bs_held Hb)).
  - intros z. rewrite Em, (kp_size _ _ _ Hk). apply Fr.
Qed.

Lemma repr_quiet extra l s s' N v : repr_at extra l s N v -> held s' N extra -> quiet s s' -> free_map s' = free_map s ->
  repr_at extra l s' N v.
Proof.
  intros Hr Hh Hq Em. apply (repr_move extra extra l s s' N v Hr Hh (qt_files _ _ Hq) (quiet_keeps _ _ _ Hq) Em).
  - apply (marked_quiet s); [apply Hr|done].
  - apply (dirs_kept extra s s' N (rp_base Hr) (qt_dirs _ _ Hq) (inodes_sub_quiet _ _ Hq)).
Qed.

Lemma held_lock l s N extra : held s N extra -> held (set_lock_filesys l s) N extra.
Proof. intros [[I1 I2 I3 I4 I5 I6 I7 I8 I9 I10 I11] Hid Hm]. split; [by split|done..]. Qed.

Lemma repr_lock extra l l' s N v : repr_at extra l s N v -> repr_at extra l' (set_lock_filesys l' s) N v.
Proof. intros [[Hh Hm Hd] L Sy V Ro No Ha Mk Fr]. split; try done. split; [by apply held_lock|done..]. Qed.

Lemma root_not_unlinked v : unlinked v ROOT_DIR_SECTOR = false.
Proof. apply bool_decide_eq_false. tauto. Qed.

Lemma dirs_open extra s s' N : base_at extra s N -> dirs s' = dirs s -> keeps (refs_of s) s s' ->
  forall d x i, dirs s' !! d = Some x -> inodes s' !! dinode x = Some i -> isector i = ROOT_DIR_SECTOR.
Proof.
  intros Hb Ed Hk d x i Hd Hi. rewrite Ed in Hd. destruct (held_dir s N extra d x (bs_held Hb) Hd) as [j Hj].
  destruct (kp_inodes _ _ _ Hk _ j (dir_ref s d x Hd) Hj) as (i' & Hi' & Es). rewrite Hi in Hi'. injection Hi' as <-. rewrite Es.
  by apply (bs_dirs Hb d x j).
Qed.

(** New references to inodes: those of [s] and the one of [sector]. *)
Lemma repr_from extra extra' l s s' N v sector : repr_at extra l s N v -> held s' N extra' -> files s' = files s -> dirs s' = dirs s ->
  keeps (refs_of s) s s' -> free_map s' = free_map s -> inodes_from s sector s' -> unlinked v sector = false ->
  repr_at extra' l s' N v.
Proof.
  intros Hr Hh Ef Ed Hk Em Hfrom Hnu. apply (repr_move extra extra' l s s' N v Hr Hh Ef Hk Em).
  - by apply (marked_from s s' _ sector); [apply Hr|..].
  - by apply (dirs_open extra s s' N (rp_base Hr)).
Qed.

Lemma root_open_repr l s N v : repr_at ∅ l s N v ->
  exists d s', dir_open_root s = Ok (d, s') /\
    ((d = NULL /\ no_memory s s') \/
     (d <> NULL /\ repr_at ∅ l s' N v /\ exists x i, dirs s' !! d = Some x /\ inodes s' !! dinode x = Some i /\ isector i = ROOT_DIR_SECTOR)).
Proof.
  intros Hr. destruct (rp_root Hr) as (n & es & Hn & _).
  destruct (dir_open_root_held s N n (bs_held (rp_base Hr)) (bs_map (rp_base Hr)) Hn) as (d & s' & E & Hd). exists d, s'. split; [done|].
  destruct Hd as [?|(Hnn & Hh & a & i & Ed & Hfresh & Ef & Hi & Es & Em & Hk & Hfrom)]; [by left|right]. split; [done|].
  split; [|exists (Dir a 0), i; rewrite Ed, lookup_insert_eq; done].
  apply (repr_move ∅ ∅ l s s' N v Hr Hh Ef Hk Em).
  - apply (marked_from s s' _ ROOT_DIR_SECTOR); [apply Hr|done|apply root_not_unlinked].
  - intros d' x j Hx Hj. destruct (Hfrom _ _ Hj) as [(j0 & Hj0 & E0 & _)|[? _]]; [|done].
    rewrite Ed in Hx. destruct (decide (d' = d)) as [->|Hne].
    + rewrite lookup_insert_eq in Hx. injection Hx as <-. cbn in Hj. congruence.
    + rewrite lookup_insert_ne in Hx by done. rewrite <- E0. by apply (bs_dirs (rp_base Hr) d' x j0).
Qed.

Lemma root_close_repr extra l s N v d x i : repr_at extra l s N v -> dirs s !! d = Some x -> inodes s !! dinode x = Some i ->
  exists s', dir_close d s = Ok (tt, s') /\ repr_at extra l s' N v /\ (oom s = true -> oom s' = true) /\
    files s' = files s /\ keeps (extra ⊎ refs_of s') s s'.
Proof.
  intros Hr Hd Hi. pose proof (rp_base Hr) as Hb.
  destruct (dir_close_held s N extra d x i (bs_held Hb) (bs_map Hb) Hd Hi) as (s' & N' & E & Hh & Ef & Ed & Hmv & Hsub & Hcl).
  exists s'. split; [done|]. pose proof (moves_keeps _ _ _ Hmv) as Hk.
  destruct (closed_kept s N i s' N' Hcl) as [-> Em].
  { rewrite (rp_marked Hr _ i Hi), (bs_dirs Hb d x i Hd Hi). apply root_not_unlinked. }
  split; [|split; [apply Hk|split; done]]. destruct Hr as [_ L Sy V Ro No Ha Mk Fr]. split; try done.
  - split; [done|by rewrite (kp_map_file _ _ _ Hk); apply Hb|]. intros d' y j. rewrite Ed. intros [_ Hy]%lookup_delete_Some Hj.
    destruct (Hsub _ _ Hj) as (j0 & Hj0 & <- & _). by apply (bs_dirs Hb d' y j0).
  - by rewrite (kp_lock _ _ _ Hk).
  - apply (synced_user s s' N); [done|apply Hk|done..].
  - rewrite Ha. symmetry. unfold handles_of. rewrite Ef, (kp_map_file _ _ _ Hk).
    apply (handles_kept s s' N extra (extra ⊎ refs_of s') _ (bs_held Hb) (delete_subseteq _ _) Hk).
    intros g z [_ Hz]%lookup_delete_Some. apply gmultiset_elem_of_disj_union. right. apply (file_ref s' g). by rewrite Ef.
  - by apply (marked_sub s).
  - intros z. rewrite Em, (kp_size _ _ _ Hk). apply Fr.
Qed.

(** ** Opening files *)

Lemma names_lookup es nm sec : dir_ok es -> (list_to_map (used es) : gmap (list Z) Z) !! nm = Some sec <-> (nm, sec) ∈ used es.
Proof. intros Hd. symmetry. apply elem_of_list_to_map, Hd. Qed.

Lemma linked_not_unlinked v nm sec : names v !! nm = Some sec -> unlinked v sec = false.
Proof. intros Hn. apply bool_decide_eq_false. intros (_ & _ & Hx). apply Hx, elem_of_map_img. by exists nm. Qed.

Lemma map_file_open s N extra : base_at extra s N -> exists g, files s !! free_map_file s = Some g.
Proof. intros [Hh Hm _]. destruct (gd_map _ _ _ _ Hh) as [?|(f & i & n & H1 & _)]; [done|eauto]. Qed.

Lemma named_node s N v extra l nm sec : repr_at extra l s N v -> names v !! nm = Some sec -> exists n, nodes v !! sec = Some n /\ N !! sec = Some n.
Proof.
  intros Hr Hn. destruct (vo_named _ (rp_view Hr) nm sec Hn) as [n Hv]. exists n. split; [done|]. rewrite (rp_nodes Hr) in Hv.
  destruct (user_node N sec) as (_ & _ & E); [by exists n|]. congruence.
Qed.

Lemma dir_lookup_repr l s N v d x i nm : repr_at ∅ l s N v -> dirs s !! d = Some x -> inodes s !! dinode x = Some i ->
  isector i = ROOT_DIR_SECTOR -> chars nm ->
  exists a s', dir_lookup uninit d nm s = Ok (a, s') /\ dirs s' = dirs s /\ keeps (refs_of s) s s' /\
    ((a = NULL /\ repr_at ∅ l s' N v /\ (oom s' = true \/ names v !! nm = None)) \/
     (a <> NULL /\ repr_at ({[+ a +]} ⊎ ∅) l s' N v /\ exists sec j, names v !! nm = Some sec /\ inodes s' !! a = Some j /\ isector j = sec)).
Proof.
  intros Hr Hd Hi Es Hch. destruct (rp_root Hr) as (n & es & Hn & Hc & Hok & _ & Hnm). pose proof (bs_held (rp_base Hr)) as Hh.
  pose proof (gd_inv _ _ _ _ Hh) as Hin. unfold dir_lookup.
  cassert ltac:(by rewrite (proj2 (Z.eqb_neq d NULL)) by exact (dir_not_null s N _ _ d x Hin Hd)).
  destruct (lookup_ok uninit uninit_bytes s N _ _ d x es nm Hin Hd) as (r & s1 & E1 & Hi1 & Hq1 & Hm1 & Hlk); try done;
    [by exists i, n; rewrite Es|]. crun E1.
  pose proof (quiet_held s s1 N N ∅ Hh Hi1 Hq1 ltac:(done)) as Hh1. pose proof (repr_quiet ∅ l s s1 N v Hr Hh1 Hq1 Hm1) as Hr1.
  destruct r as [[e ofs]|].
  2: { exists NULL, s1. split_and!; try done; [apply Hq1|by apply quiet_keeps|]. left. split_and!; try done.
       destruct Hlk as [?|Hno]; [by left|right]. rewrite Hnm. by apply not_elem_of_list_to_map_1. }
  destruct Hlk as (k & _ & Hke & Een). pose proof (entry_used es k e _ Hke Een) as Hused.
  assert (names v !! nm = Some (e_sector e)) as Hname by (rewrite Hnm; by apply names_lookup).
  destruct (named_node s1 N v ∅ l nm _ Hr1 Hname) as (nd & _ & Hnd).
  destruct (open_held s1 N ∅ (e_sector e) nd Hh1 Hnd) as (a & s2 & E2 & Hst & Hm2 & Hfrom & Ha); [rewrite gmultiset_size_empty; lia|].
  pose proof (refs_of_eq s s1 (qt_files _ _ Hq1) (qt_dirs _ _ Hq1)) as Er.
  assert (keeps (refs_of s1) s1 s2) as Hk2 by (apply (keeps_sub (∅ ⊎ refs_of s1)); [multiset_solver|by apply stays_keeps]).
  exists a, s2. split; [exact E2|]. split; [rewrite (sy_dirs _ _ _ Hst); apply Hq1|].
  split; [apply (keeps_both _ s s1); [by apply quiet_keeps|by rewrite <- Er]|].
  pose proof (linked_not_unlinked v nm _ Hname) as Hnu.
  destruct Ha as [(-> & Ho & Hh2)|(Hnn & Hh2 & j & Hj & Ej)]; [left|right]; split_and!; try done.
  - by apply (repr_from ∅ ∅ l s1 s2 N v (e_sector e) Hr1); try apply Hst.
  - by left.
  - by apply (repr_from ∅ _ l s1 s2 N v (e_sector e) Hr1); try apply Hst.
  - by exists (e_sector e), j.
Qed.

Lemma file_open_repr s N v a i n : repr_at ({[+ a +]} ⊎ ∅) false s N v -> inodes s !! a = Some i -> nodes v !! isector i = Some n ->
  exists f s', file_open a s = Ok (f, s') /\
    (oom s' = true \/ (f <> NULL /\ handles v !! f = None /\ repr s' N (with_handle f (Handle (isector i) 0 false) v))).
Proof.
  intros Hr Hi Hn. pose proof (rp_base Hr) as Hb.
  destruct (file_open_held s N ∅ a (bs_held Hb) (map_may_close s a (bs_map Hb))) as (f & s' & N' & E & Hf). exists f, s'. split; [done|].
  destruct Hf as [(_ & Ho & _)|(s1 & (Hq & _ & Em & _ & Hnn & _ & Hsp) & -> & -> & Hh)]; [by left|right].
  destruct Hsp as (_ & Hfn & _). destruct (map_file_open s N _ Hb) as [g Hg].
  assert (f <> free_map_file s) as Hne by congruence. destruct Hr as [_ L Sy V Ro No Ha Mk Fr].
  assert (handles v !! f = None) as Hvn.
  { rewrite Ha. apply eq_None_not_Some. intros [h (_ & x & j & Hx & _)%handles_lookup]. congruence. }
  split; [done|]. split; [done|]. split; try done.
  - split; [done|cbn; by rewrite (qt_map_file _ _ Hq); apply Hb|]. exact (dirs_kept _ s s1 N Hb (qt_dirs _ _ Hq) (inodes_sub_quiet _ _ Hq)).
  - cbn. by rewrite (qt_lock _ _ Hq).
  - by apply (synced_user s _ N); try apply Hq.
  - destruct V as [V1 V2 V3]. split; try done. cbn. intros g' h. destruct (decide (g' = f)) as [->|Hgf].
    + rewrite lookup_insert_eq. intros [= <-]. cbn. split; [by exists n|lia].
    + rewrite lookup_insert_ne by done. apply V3.
  - cbn [handles with_handle]. rewrite Ha. unfold handles_of. cbn [free_map_file files inodes set_files].
    rewrite (qt_map_file _ _ Hq), (qt_files _ _ Hq), delete_insert_ne by done.
    rewrite (omap_insert_Some _ _ _ _ (Handle (isector i) 0 false))
      by (unfold handle_of; cbn; by rewrite (qt_inodes _ _ Hq), Hi).
    f_equal. symmetry. apply omap_ext. intros g' x _. unfold handle_of. cbn. by rewrite (qt_inodes _ _ Hq).
  - by apply (marked_quiet s s1).
  - intros z. cbn. rewrite Em. unfold disk_size. cbn. fold (disk_size s1). rewrite (qt_size _ _ Hq). apply Fr.
Qed.

Lemma file_open_null s N extra : held s N extra ->
  exists s', file_open NULL s = Ok (NULL, s') /\ held s' N extra /\ quiet s s' /\ free_map s' = free_map s.
Proof. intros Hh. destruct (open_null_ok s N extra sizeof_file Hh) as (s' & E & Hr); [done|]. by exists s'. Qed.

(** The end of [filesys_open]. *)
Lemma unlock_ok (s : fs) : lock_filesys s = true -> lock_release s = Ok (tt, set_lock_filesys false s).
Proof. intros E. unfold lock_release. rewrite bind_get. by cassert ltac:(exact E). Qed.

Lemma open_refines nm : refines (Open nm).
Proof.
  intros s N v Hr Hch. cbn [exec]. unfold filesys_open. rewrite bind_assoc.
  rewrite (bind_ok _ _ s tt (set_lock_filesys true s)) by (unfold lock_acquire; rewrite bind_get, (rp_lock Hr); reflexivity).
  pose proof (repr_lock ∅ false true s N v Hr) as Hr0. set (s0 := set_lock_filesys true s) in *. rewrite bind_assoc.
  destruct (root_open_repr true s0 N v Hr0) as (d & s1 & E1 & Hd). crun E1. rewrite !bind_assoc.
  destruct Hd as [(-> & Ho & [N1 Hh1] & L1)|(Hnn & Hr1 & x & i & Hx & Hi & Es)].
  { cbn [Z.eqb NULL negb dir_close]. rewrite bind_ret, bind_assoc, bind_ret, bind_assoc. crun (unlock_ok s1 L1).
    destruct (file_open_null _ N1 ∅ (held_lock false s1 N1 ∅ Hh1)) as (s2 & E2 & _ & Hq & _). crun E2.
    eexists _, s2. split; [done|]. left. by apply (qt_oom _ _ Hq). }
  rewrite (proj2 (Z.eqb_neq d NULL)) by done. cbn [negb].
  destruct (dir_lookup_repr true s1 N v d x i nm Hr1 Hx Hi Es Hch) as (a & s2 & E2 & Ed & Hk & Ha). crun E2.
  rewrite <- Ed in Hx. destruct (kp_inodes _ _ _ Hk (dinode x) i) as (i2 & Hi2 & _); [by apply (dir_ref s1 d); rewrite <- Ed|done|].
  rewrite !bind_assoc. destruct Ha as [(-> & Hr2 & Hnone)|(Hna & Hr2 & sec & j & Hname & Hj & Ej)].
  - destruct (root_close_repr ∅ true s2 N v d x i2 Hr2 Hx Hi2) as (s3 & E3 & Hr3 & Ho3 & _). crun E3. rewrite bind_assoc.
    crun (unlock_ok s3 (rp_lock Hr3)). pose proof (repr_lock _ _ false s3 N v Hr3) as Hr4.
    destruct (file_open_null _ N ∅ (bs_held (rp_base Hr4))) as (s5 & E5 & Hh5 & Hq & Em). crun E5. eexists _, s5. split; [done|].
    destruct Hnone as [Ho|Hnone]; [left; by apply (qt_oom _ _ Hq), Ho3|right]. exists N, v.
    split; [by apply step_open_none|by apply (repr_quiet _ _ _ s5 N v Hr4)].
  - destruct (root_close_repr _ true s2 N v d x i2 Hr2 Hx Hi2) as (s3 & E3 & Hr3 & Ho3 & _ & Hk3). crun E3. rewrite bind_assoc.
    crun (unlock_ok s3 (rp_lock Hr3)). pose proof (repr_lock _ _ false s3 N v Hr3) as Hr4.
    destruct (kp_inodes _ _ _ Hk3 a j) as (j3 & Hj3 & Ej3); [multiset_solver|done|].
    destruct (named_node _ _ _ _ _ nm sec Hr4 Hname) as (n & Hn & _).
    destruct (file_open_repr _ N v a j3 n Hr4 Hj3) as (f & s5 & E5 & Hf); [congruence|]. crun E5. eexists _, s5. split; [done|].
    destruct Hf as [Ho|(Hfn & Hfresh & Hr5)]; [by left|right]. eexists N, _. split; [by apply (step_open v nm sec f)|].
    by rewrite Ej3, Ej in Hr5.
Qed.

Lemma reopen_refines f : refines (Reopen f).
Proof.
  intros s N v Hr [h Hf]. destruct (handle_user s N v f h Hr Hf) as (x & i & n & Hu & -> & Hv & Hn & Hp).
  pose proof (rp_base Hr) as Hb. pose proof Hu as (Hx & _ & Hi & _). cbn [exec]. unfold file_reopen. rewrite !bind_assoc.
  crun (get_file_ok s f x Hx). rewrite !bind_assoc.
  destruct (inode_reopen_ok (refs_of s) s N _ _ (finode x) i (bs_held Hb) Hi) as (E & Hg & Hst).
  { apply (held_few s N ∅ (bs_held Hb)). rewrite gmultiset_size_empty. lia. }
  set (s1 := set_inodes _ s) in *. crun E.
  assert (held s1 N ({[+ finode x +]} ⊎ ∅)) as Hh1.
  { apply (held_of _ _ _ _ _ Hg); [|done]. rewrite (refs_of_eq s s1) by done. by rewrite (assoc_L (⊎)). }
  assert (inodes_sub s s1) as Hsub.
  { intros b j. cbn. destruct (decide (b = finode x)) as [->|Hne]; [rewrite lookup_insert_eq; intros [= <-]; eauto|].
    rewrite lookup_insert_ne by done. eauto. }
  assert (repr_at ({[+ finode x +]} ⊎ ∅) false s1 N v) as Hr1.
  { apply (repr_move ∅ _ false s s1 N v Hr Hh1); try done; [by apply stays_keeps|apply (marked_sub s); [apply Hr|done]|].
    by apply (dirs_kept ∅ s s1 N). }
  destruct (file_open_repr s1 N v (finode x) _ n Hr1 (lookup_insert_eq _ _ _) Hv) as (g & s2 & E2 & Hgo). crun E2.
  eexists _, s2. split; [done|]. destruct Hgo as [Ho|(Hgn & Hfresh & Hr2)]; [by left|right]. eexists N, _.
  split; [by apply (step_reopen v f _ g Hf)|done].
Qed.

(** ** Removing files *)

Lemma root_not_denied extra l s N v d x i : repr_at extra l s N v -> dirs s !! d = Some x -> inodes s !! dinode x = Some i ->
  deny_write_cnt i = 0.
Proof.
  intros Hr Hd Hi. pose proof (rp_base Hr) as Hb. pose proof (bs_held Hb) as Hh.
  rewrite (io_deny _ _ _ _ _ (iv_inode _ _ _ _ (gd_inv _ _ _ _ Hh) _ i Hi)).
  destruct (decide (dinode x ∈ file_denies (files s))) as [Hin|Hin]; [exfalso|by apply not_elem_of_multiplicity in Hin as ->].
  apply collect_elem in Hin as (f & y & Hy & Hin). destruct (deny_write y) eqn:Ed; [|multiset_solver].
  apply gmultiset_elem_of_singleton in Hin. pose proof (bs_dirs Hb d x i Hd Hi) as Es.
  destruct (decide (f = free_map_file s)) as [->|Hne].
  - destruct (gd_map _ _ _ _ Hh) as [?|(g & j & n & H1 & H2 & H3 & _)]; [by destruct (bs_map Hb)|].
    rewrite Hy in H1. injection H1 as <-. rewrite <- Hin, Hi in H2. injection H2 as <-. unfold FREE_MAP_SECTOR, ROOT_DIR_SECTOR in *. lia.
  - assert (handles v !! f = Some (Handle (isector i) (fpos y) (deny_write y))) as Hf.
    { rewrite (rp_handles Hr). apply handles_lookup. split; [done|]. exists y, i. by rewrite <- Hin. }
    destruct (vo_open _ (rp_view Hr) f _ Hf) as [Hs _]. cbn [hfile] in Hs. rewrite (rp_nodes Hr) in Hs.
    by destruct (user_node N _ Hs) as (_ & ? & _).
Qed.

Lemma close_any s N d x : held s N ∅ -> free_map_file s <> NULL -> dirs s !! d = Some x ->
  exists s', dir_close d s = Ok (tt, s') /\ (oom s = true -> oom s' = true).
Proof.
  intros Hh Hm Hd. destruct (held_dir s N ∅ d x Hh Hd) as [i Hi].
  destruct (dir_close_held s N ∅ d x i Hh Hm Hd Hi) as (s' & N' & E & _ & _ & _ & Hmv & _). exists s'. split; [done|apply Hmv].
Qed.

(** Closing the root directory at the end of a call. *)
Lemma finish_root s N d x (P : view -> Prop) : held s N ∅ -> free_map_file s <> NULL -> dirs s !! d = Some x ->
  (oom s = true \/ exists v, P v /\ repr s N v) ->
  exists s', dir_close d s = Ok (tt, s') /\ (oom s' = true \/ exists v, P v /\ repr s' N v).
Proof.
  intros Hh Hm Hd [Ho|(v & HP & Hr)].
  - destruct (close_any s N d x Hh Hm Hd) as (s' & E & Ho'). exists s'. split; [done|]. left. by apply Ho'.
  - destruct (held_dir s N ∅ d x Hh Hd) as [i Hi].
    destruct (root_close_repr ∅ false s N v d x i Hr Hd Hi) as (s' & E & Hr' & _). exists s'. split; [done|]. right. by exists v.
Qed.

Lemma user_nodes_root N n : user_nodes (<[ROOT_DIR_SECTOR := n]> N) = user_nodes N.
Proof. unfold user_nodes. by rewrite delete_insert_eq. Qed.

Lemma names_cons es es' nm sec : dir_ok es -> used es ≡ₚ (nm, sec) :: used es' ->
  (list_to_map (used es) : gmap (list Z) Z) = <[nm := sec]> (list_to_map (used es')) /\
  (list_to_map (used es') : gmap (list Z) Z) !! nm = None.
Proof.
  intros Hd Hp. pose proof (do_unique es Hd) as Hnd. split; [by rewrite (list_to_map_proper _ _ Hnd Hp)|].
  apply not_elem_of_list_to_map_1. rewrite Hp in Hnd. by apply NoDup_cons in Hnd as [? _].
Qed.

Lemma unlinked_without v nm sec x : view_ok v -> names v !! nm = Some sec -> sec <> FREE_MAP_SECTOR -> sec <> ROOT_DIR_SECTOR ->
  unlinked (without_name nm v) x = unlinked v x || (x =? sec).
Proof.
  intros Hv Hn H0 H1. unfold unlinked, linked. cbn [names without_name].
  apply eq_bool_prop_intro. rewrite orb_True, !bool_decide_spec, Is_true_true, Z.eqb_eq, !elem_of_map_img.
  split.
  - intros (A0 & A1 & A2). destruct (decide (x = sec)); [by right|left]. split_and!; try done. intros [nm' Hn'].
    apply A2. exists nm'. rewrite lookup_delete_ne; [done|]. intros ->. congruence.
  - intros [(A0 & A1 & A2)| ->].
    + split_and!; try done. intros [nm' [_ Hn']%lookup_delete_Some]. apply A2. eauto.
    + split_and!; try done. intros [nm' [Hne Hn']%lookup_delete_Some]. apply Hne. by apply (vo_inj _ Hv nm nm' sec).
Qed.

Lemma unlink_repr l s N v n es es' nm sec s' N' : repr_at ∅ l s N v -> N !! ROOT_DIR_SECTOR = Some n -> dir_ok es -> length es = DIR_SIZE ->
  names v = list_to_map (used es) -> dir_ok es' -> length es' = length es -> used es ≡ₚ (nm, sec) :: used es' ->
  held s' N' ∅ -> files s' = files s -> dirs s' = dirs s -> keeps (refs_of s) s s' -> oom s' = false -> l = false ->
  gone s (<[ROOT_DIR_SECTOR := Node (nstart n) (mjoin es')]> N) sec s' N' -> marked s' (fun x => unlinked v x || (x =? sec)) ->
  names v !! nm = Some sec /\ repr s' N' (reclaim sec (without_name nm v)).
Proof.
  intros Hr Hn Hok Hlen Hnm Hok' Hlen' Hp Hh Ef Ed Hk Ho -> Hg Hmk. destruct (names_cons es es' nm sec Hok Hp) as [Enm Hfresh].
  assert (names v !! nm = Some sec) as Hname by (rewrite Hnm, Enm; apply lookup_insert_eq). split; [done|].
  destruct (named_node s N v ∅ false nm sec Hr Hname) as (nd & Hv & Hnd).
  destruct (user_node N sec) as (H0 & H1 & _); [rewrite <- (rp_nodes Hr); by exists nd|].
  destruct Hr as [Hb L Sy V Ro No Ha Mk Fr].
  assert (forall x, unlinked (without_name nm v) x = unlinked v x || (x =? sec)) as Hul by (intros x; by apply unlinked_without).
  apply (reclaim_repr s N (<[ROOT_DIR_SECTOR := Node (nstart n) (mjoin es')]> N) (without_name nm v) sec nd s' N'); try done.
  - split; [done|by rewrite (kp_map_file _ _ _ Hk); apply Hb|by apply (dirs_open ∅ s s' N)].
  - by rewrite (kp_lock _ _ _ Hk).
  - apply Hk.
  - apply Hk.
  - by apply (synced_user s s N); [..|rewrite lookup_insert_ne].
  - destruct V as [V1 V2 V3]. split; cbn [names nodes handles without_name]; [|  |done].
    + intros nm' x [_ Hx]%lookup_delete_Some. by apply (V1 nm').
    + intros n1 n2 x [_ Hx1]%lookup_delete_Some [_ Hx2]%lookup_delete_Some. by apply (V2 n1 n2 x).
  - exists (Node (nstart n) (mjoin es')), es'. rewrite lookup_insert_eq. split_and!; try done; [congruence|].
    cbn [names without_name]. rewrite Hnm, Enm, delete_insert_id; done.
  - cbn [nodes without_name]. by rewrite user_nodes_root.
  - cbn [handles without_name]. rewrite Ha. symmetry. by apply (handles_same s s' N ∅ (bs_held Hb)).
  - intros b i Hi. rewrite (Hmk b i Hi). by rewrite Hul.
  - by rewrite lookup_insert_ne.
  - assert (sec ∉ linked (without_name nm v)) as Hnl.
    { pose proof (Hul sec) as E. rewrite Z.eqb_refl, orb_true_r in E. by apply bool_decide_eq_true in E as (_ & _ & ?). }
    destruct Hg as [(-> & Em & Hop)|[Hni Hrel]]; [left|right]; split_and!; try done. by right.
Qed.

Lemma remove_refines nm : refines (Remove nm).
Proof.
  intros s N v Hr Hch. cbn [exec]. unfold filesys_remove. rewrite bind_assoc.
  destruct (root_open_repr false s N v Hr) as (d & s1 & E1 & Hd). crun E1. rewrite !bind_assoc.
  destruct Hd as [(-> & Ho & _)|(Hnn & Hr1 & x & i & Hx & Hi & Es)].
  { cbn [Z.eqb NULL negb dir_close]. rewrite bind_ret, bind_assoc, bind_ret. eexists _, s1. split; [done|]. by left. }
  rewrite (proj2 (Z.eqb_neq d NULL)) by done. cbn [negb]. pose proof (rp_base Hr1) as Hb1.
  destruct (rp_root Hr1) as (n & es & Hn & Hc & Hok & Hlen & Hnm).
  destruct (dir_remove_held uninit uninit_bytes s1 N d x i n es nm (unlinked v) (bs_held Hb1) (bs_map Hb1) Hx Hi)
    as (r & s2 & N2 & E2 & Hh2 & Ef2 & Ed2 & Hk2 & Hres); try done.
  { by rewrite Es. }
  { by apply (root_not_denied ∅ false s1 N v d x). }
  { intros nm' sec Hin. assert (names v !! nm' = Some sec) as Hname by (rewrite Hnm; by apply names_lookup).
    split; [|by apply (linked_not_unlinked v nm')]. destruct (named_node _ _ _ _ _ nm' sec Hr1 Hname) as (nd & _ & Hnd). by exists nd. }
  { apply Hr1. }
  crun E2. rewrite <- Ed2 in Hx.
  assert (free_map_file s2 <> NULL) as Hm2 by (rewrite (kp_map_file _ _ _ Hk2); apply Hb1).
  destruct (no_oom s2) as [Ho|Ho].
  { destruct (close_any s2 N2 d x Hh2 Hm2 Hx) as (s3 & E3 & Ho3). rewrite bind_assoc. crun E3. eexists _, s3. split; [done|]. left. by apply Ho3. }
  destruct Hres as [?|Hres]; [congruence|]. rewrite Es in Hres.
  assert (exists v2, step v (Remove nm) (Yes r) v2 /\ repr s2 N2 v2) as (v2 & Hstep & Hr2).
  { destruct r; cbn [removed_name] in Hres.
    - destruct Hres as (sec & es' & Hin & Hok' & Hlen' & Hp & Hg & Hmk).
      destruct (unlink_repr false s1 N v n es es' nm sec s2 N2 Hr1 Hn Hok Hlen Hnm Hok' Hlen' Hp Hh2 Ef2 Ed2 Hk2 Ho eq_refl Hg Hmk) as [Hname Hr2].
      eexists. split; [by apply step_remove|done].
    - destruct Hres as (Hno & -> & Em & Hmk). exists v. split; [apply step_remove_none; rewrite Hnm; by apply not_elem_of_list_to_map_1|].
      apply (repr_move ∅ ∅ false s1 s2 N v Hr1); try done. by apply (dirs_open ∅ s1 s2 N). }
  destruct (finish_root s2 N2 d x (fun v2 => step v (Remove nm) (Yes r) v2) Hh2 Hm2 Hx) as (s3 & E3 & Hr3); [right; eauto|].
  rewrite bind_assoc. crun E3. eexists _, s3. split; [done|]. destruct Hr3 as [?|(v3 & ? & ?)]; [by left|right]. by exists N2, v3.
Qed.

(** ** Creating files *)

Lemma good_held s s' N' extra : good s' N' (extra ⊎ refs_of s) (file_denies (files s)) -> quiet s s' -> held s' N' extra.
Proof.
  intros Hg Hq. apply (held_of _ _ _ _ _ Hg); [by rewrite (refs_of_eq s s') by apply Hq|by rewrite (qt_files _ _ Hq)].
Qed.

Lemma held_forget s N extra sec : held s N extra -> (forall b j, inodes s !! b = Some j -> isector j <> sec) ->
  sec <> FREE_MAP_SECTOR -> held s (delete sec N) extra.
Proof.
  intros [Hi Hid Hm] Hno H0. split; [by apply inv_forget|done|]. destruct Hm as [?|(f & i & n & H1 & H2 & H3 & H4 & H5)]; [by left|right].
  exists f, i, n. split_and!; try done; [by rewrite lookup_delete_ne|apply H5..].
Qed.

(** The names, the nodes and the free sectors change; handles stay. *)
Lemma repr_quiet_map s s' N N' v v' : repr s N v -> held s' N' ∅ -> quiet s s' -> synced s' N' -> view_ok v' ->
  root_ok N' (names v') -> nodes v' = user_nodes N' -> handles v' = handles v -> free_ok s' (avail v') ->
  (forall b i, inodes s !! b = Some i -> unlinked v' (isector i) = unlinked v (isector i)) -> repr s' N' v'.
Proof.
  intros [Hb L Sy V Ro No Ha Mk Fr] Hh Hq Hsy Hv Hro Hno Hha Hfr Hul. split; try done.
  - split; [done|rewrite (qt_map_file _ _ Hq); apply Hb|]. apply (dirs_kept ∅ s s' N Hb (qt_dirs _ _ Hq) (inodes_sub_quiet _ _ Hq)).
  - by rewrite (qt_lock _ _ Hq).
  - rewrite Hha, Ha. symmetry. apply (handles_same s s' N ∅ (bs_held Hb) (qt_files _ _ Hq) (quiet_keeps _ _ _ Hq)).
  - intros b i. rewrite (qt_inodes _ _ Hq). intros Hi. rewrite (Mk b i Hi). symmetry. by apply (Hul b).
Qed.

Lemma map_step_root N N' nms : map_step N N' -> root_ok N nms -> root_ok N' nms.
Proof. intros [_ Hm] (n & es & Hn & Hx). exists n, es. by rewrite Hm. Qed.

(** Only the free map and its file change. *)
Lemma repr_map_step s s' N N' v X : repr s N v -> held s' N' ∅ -> quiet s s' -> map_step N N' -> synced s' N' -> free_ok s' X ->
  repr s' N' (with_avail X v).
Proof.
  intros Hr Hh Hq Hm Hsy Hf. destruct (rp_view Hr) as [V1 V2 V3].
  apply (repr_quiet_map s s' N N' v (with_avail X v) Hr Hh Hq Hsy); try done.
  - apply (map_step_root N N' (names v) Hm), Hr.
  - cbn [nodes with_avail]. rewrite (map_step_user N N' Hm). apply Hr.
Qed.

Lemma with_avail_id v : with_avail (avail v) v = v.
Proof. by destruct v. Qed.

(** A sector that no file owns. *)
Lemma fresh_sector s N extra x : held s N extra -> free_map_file s <> NULL -> N !! ROOT_DIR_SECTOR <> None -> unowned N x ->
  x <> FREE_MAP_SECTOR /\ x <> ROOT_DIR_SECTOR /\ N !! x = None /\ forall b j, inodes s !! b = Some j -> isector j <> x.
Proof.
  intros Hh Hnf Hroot Hu. assert (N !! x = None) as HN.
  { apply eq_None_not_Some. intros [n Hn]. apply (Hu x n Hn). by left. }
  split_and!; [exact (map_file_sector s N _ _ x Hh Hu Hnf)|congruence|done|]. intros b j Hj Ej.
  destruct (io_node _ _ _ _ _ (iv_inode _ _ _ _ (gd_inv _ _ _ _ Hh) b j Hj)) as (n & Hn & _). congruence.
Qed.

Lemma no_room_empty s v : free_ok s (avail v) -> no_room s 1 -> avail v = ∅.
Proof.
  intros Hf Hno. apply set_eq. intros x. split; [|set_solver]. intros [Hx Hb]%Hf. destruct (Hno x ltac:(lia) ltac:(lia)).
  intros y Hy. by replace y with x by lia.
Qed.

Lemma allocated_avail s v cnt st s' : free_ok s (avail v) -> allocated_at s cnt st s' -> disk_size s' = disk_size s ->
  run st cnt ⊆ avail v /\ free_ok s' (avail v ∖ run st cnt).
Proof.
  intros Hf (H0 & H1 & Hc & Hb) Hs. split.
  - intros x. rewrite elem_of_run. intros Hx. apply Hf. split; [lia|by apply Hc].
  - intros x. rewrite elem_of_difference, (Hf x), elem_of_run, Hs. split.
    + intros [[Hx Hbx] Hn]. split; [done|]. apply not_true_iff_false. rewrite Hb by done. intros [?|?]; [congruence|done].
    + intros [Hx Hbx]. apply not_true_iff_false in Hbx. rewrite Hb in Hbx by done. split; [split; [done|]|tauto].
      apply not_true_iff_false. tauto.
Qed.

Lemma no_room_full s v sec len : free_ok s (avail v ∖ {[sec]}) -> 0 <= disk_size s -> sec ∈ avail v -> 0 <= len -> no_room s (nsec len) ->
  full v len.
Proof.
  intros Hf Hd Hsec Hlen Hno. right. exists sec. split; [done|]. intros st Hst Hsub. pose proof (nsec_bound len Hlen).
  destruct (decide (nsec len = 0)) as [Ez|Hnz].
  - rewrite Ez in *. apply (Hno 0); [lia..|]. intros x. lia.
  - assert (st + nsec len - 1 ∈ avail v ∖ {[sec]}) as [Hx _]%Hf by (apply Hsub, elem_of_run; lia).
    apply (Hno st Hst); [lia|]. intros x Hx'. apply Hf, Hsub, elem_of_run. lia.
Qed.

(** The states of a creation: [s1] with the root directory open, [s2] with the
    sector [sec] set aside for the inode. *)
Record set_aside s1 (N : gmap Z node) (v : view) (sec : Z) s2 (N2 : gmap Z node) : Prop := SetAside {
  sa_repr : repr s1 N v;
  sa_held : held s2 N2 ∅;
  sa_quiet : quiet s1 s2;
  sa_map : map_step N N2;
  sa_at : allocated_at s1 1 sec s2;
  sa_sync : synced s2 N2
}.

Lemma set_aside_facts s1 N v sec s2 N2 : set_aside s1 N v sec s2 N2 ->
  free_map_file s2 <> NULL /\ unowned N2 sec /\ reserved s2 N2 sec /\ sec ∈ avail v /\ free_ok s2 (avail v ∖ {[sec]}) /\
  0 <= sec < disk_size s2 /\ disk_size s2 <= 2 ^ 28 /\ sec <> FREE_MAP_SECTOR /\ sec <> ROOT_DIR_SECTOR /\
  N2 !! sec = None /\ (forall b j, inodes s1 !! b = Some j -> isector j <> sec) /\ nodes v = user_nodes N2 /\ root_ok N2 (names v).
Proof.
  intros [Hr Hh Hq Hm Hat Hsy]. pose proof (qt_size _ _ Hq) as Hsz. pose proof (rp_free Hr) as Hf.
  destruct (allocated_avail s1 v 1 sec s2 Hf Hat Hsz) as [Hin Hf2].
  assert (run sec 1 = {[sec]}) as E1 by (apply set_eq; intros x; rewrite elem_of_run, elem_of_singleton; lia).
  assert (free_map_file s2 <> NULL) as Hnf by (rewrite (qt_map_file _ _ Hq); apply Hr).
  pose proof Hat as (H0 & H1 & Hc & Hb). pose proof (rp_root Hr) as Hro. pose proof (map_step_root N N2 _ Hm Hro) as Hro2.
  assert (unowned N2 sec) as Hun.
  { apply (same_shape_unowned N N2 sec (proj1 Hm)). intros i n Hi Ho.
    pose proof (ly_used _ _ _ _ (iv_layout _ _ _ _ (gd_inv _ _ _ _ (bs_held (rp_base Hr)))) i n sec Hi Ho) as Hbs. rewrite Hc in Hbs; [done|lia]. }
  destruct (fresh_sector s2 N2 ∅ sec Hh Hnf) as (F0 & F1 & F2 & F3); [destruct Hro2 as (n & ? & -> & _); done|done|].
  pose proof (bd_size_ok _ (iv_device _ _ _ _ (gd_inv _ _ _ _ Hh))) as [_ Hbig]. fold (disk_size s2) in Hbig.
  rewrite (qt_inodes _ _ Hq) in F3. rewrite E1 in *.
  split_and!; try done; try lia; [split_and!; try done; try lia; apply Hb; [lia|right; lia]|set_solver|].
  rewrite (map_step_user N N2 Hm). apply Hr.
Qed.

(** The inode is not created: the sector goes back. *)
Lemma create_full_repr s1 N v sec s2 N2 s3 N3 len : set_aside s1 N v sec s2 N2 -> 0 <= len < 2 ^ 31 - 511 ->
  held s3 N3 ∅ -> quiet s2 s3 -> not_created s2 N2 len s3 N3 ->
  exists s4 N4, free_map_release sec 1 s3 = Ok (tt, s4) /\ held s4 N4 ∅ /\ quiet s1 s4 /\
    (oom s4 = true \/ (full v len /\ repr s4 N4 v)).
Proof.
  intros Hsa Hlen Hh3 Hq3 (Hm3 & Hmu & Hwhy). destruct (set_aside_facts _ _ _ _ _ _ Hsa) as (Hnf & Hun & (Hr0 & Hr1 & _) & Hin & Hf2 & Hsec & _ & F0 & F1 & F2 & F3 & _).
  destruct Hsa as [Hr Hh2 Hq Hm Hat Hsy]. pose proof (qt_size _ _ Hq3) as Hsz3. pose proof (qt_size _ _ Hq) as Hsz2.
  assert (free_map_file s3 <> NULL) as Hnf3 by by rewrite (qt_map_file _ _ Hq3).
  destruct (free_map_release_ok s3 N3 _ _ sec 1 Hh3 Hnf3) as (s4 & N4 & E & Hg4 & Hq4 & Hm4 & Hb4 & Hsy4); try lia.
  { intros x Hx. replace x with sec by lia. split; [by rewrite Hmu|]. by apply (same_shape_unowned N2 N3 sec (proj1 Hm3)). }
  pose proof (quiet_trans s1 s2 s3 Hq Hq3) as Hq13. pose proof (quiet_trans s1 s3 s4 Hq13 Hq4) as Hq14.
  exists s4, N4. split; [done|]. pose proof (good_held s3 s4 N4 ∅ Hg4 Hq4) as Hh4. split; [done|]. split; [done|].
  destruct (no_oom s4) as [Ho|Ho]; [by left|right]. destruct Hwhy as [Ho3|(Em & -> & Hno)].
  { apply (qt_oom _ _ Hq4) in Ho3. congruence. }
  split; [apply (no_room_full s2 v sec len Hf2); [lia|done|lia|apply Hno; lia]|]. rewrite <- (with_avail_id v).
  apply (repr_map_step s1 s4 N N4 v (avail v) Hr Hh4 Hq14); [|by apply Hsy4|].
  - apply (map_step_trans N N2 N4 Hm). done.
  - intros x. rewrite (rp_free Hr x), (qt_size _ _ Hq14). pose proof Hat as (_ & _ & Hc & Hb).
    split; intros [Hx Hbx]; (split; [done|]); apply not_true_iff_false; apply not_true_iff_false in Hbx; intros Ht; apply Hbx.
    + rewrite Hb4, Hmu in Ht by lia. destruct Ht as [Ht Hne]. rewrite Hb in Ht by lia. destruct Ht as [?|?]; [done|lia].
    + rewrite Hb4, Hmu by lia. split; [rewrite Hb by lia; by left|]. intros Hxs. rewrite Hc in Ht by lia. done.
Qed.

(** Giving back the sector of an inode that nobody has opened. *)
Lemma release_inode s N n sec : held s N ∅ -> free_map_file s <> NULL -> N !! sec = Some n -> sec <> FREE_MAP_SECTOR ->
  (forall b j, inodes s !! b = Some j -> isector j <> sec) ->
  exists s' N', free_map_release sec 1 s = Ok (tt, s') /\ held s' N' ∅ /\ quiet s s' /\ map_step (delete sec N) N' /\
    (forall x, 0 <= x < disk_size s -> bit (free_map s') x = true <-> bit (free_map s) x = true /\ x <> sec) /\
    (oom s' = false -> synced s' N').
Proof.
  intros Hh Hnf Hn H0 Hno. pose proof (held_forget s N ∅ sec Hh Hno H0) as Hh'. pose proof (iv_layout _ _ _ _ (gd_inv _ _ _ _ Hh)) as Hl.
  pose proof (owns_bound _ _ _ _ sec (ly_node _ _ _ _ Hl sec n Hn) ltac:(by left)) as Hb.
  destruct (free_map_release_ok s (delete sec N) _ _ sec 1 Hh' Hnf) as (s' & N' & E & Hg & Hq & Hm & Hbits & Hsy); try lia.
  { intros x Hx. replace x with sec by lia. split; [by apply (ly_used _ _ _ _ Hl sec n sec Hn); left|].
    intros j nj [Hne Hj]%lookup_delete_Some Hown. apply Hne. by apply (ly_apart _ _ _ _ Hl sec j n nj sec Hn Hj); [left|]. }
  exists s', N'. split_and!; try done; [by apply (good_held s)|]. intros x Hx. rewrite Hbits by done. split; intros [? ?]; (split; [done|lia]).
Qed.

(** The state once the inode is on the disk. *)
Record inode_made s1 (N : gmap Z node) (v : view) (sec st len : Z) s3 (N3 : gmap Z node) : Prop := InodeMade {
  im_repr : repr s1 N v;
  im_held : held s3 N3 ∅;
  im_quiet : quiet s1 s3;
  im_nodes : exists N0, map_step N N0 /\ N0 !! sec = None /\ N3 = <[sec := new_node st len]> N0;
  im_room : room v sec st len;
  im_free : free_ok s3 (avail v ∖ sectors sec (new_node st len));
  im_sync : synced s3 N3;
  im_sec : 0 <= sec < 2 ^ 32 /\ sec <> FREE_MAP_SECTOR /\ sec <> ROOT_DIR_SECTOR /\
    forall b j, inodes s1 !! b = Some j -> isector j <> sec
}.

Lemma new_node_length st len : 0 <= len -> zlen (contents (new_node st len)) = len.
Proof. intros. by apply zlen_replicate. Qed.

Lemma created_made s1 N v sec s2 N2 len s3 N3 : set_aside s1 N v sec s2 N2 -> 0 <= len -> held s3 N3 ∅ -> quiet s2 s3 ->
  created s2 N2 sec len s3 N3 -> exists st, inode_made s1 N v sec st len s3 N3.
Proof.
  intros Hsa Hlen Hh3 Hq3 (st & N0 & Hm0 & EN & Hat & Hsy).
  destruct (set_aside_facts _ _ _ _ _ _ Hsa) as (Hnf & Hun & _ & Hin & Hf2 & Hsec & Hbig & F0 & F1 & F2 & F3 & _).
  destruct Hsa as [Hr Hh2 Hq Hm Hat2 Hsy2]. exists st.
  assert (N0 !! sec = None) as HN0.
  { pose proof (proj1 Hm0 sec) as E. rewrite F2 in E. by destruct (N0 !! sec). }
  destruct (allocated_avail s2 (with_avail (avail v ∖ {[sec]}) v) (nsec len) st s3 Hf2 Hat) as [Hsub Hf3]; [apply Hq3|].
  split; try done; try lia.
  - by apply (quiet_trans s1 s2).
  - exists N0. split; [by apply (map_step_trans N N2)|done].
  - unfold sectors. rewrite new_node_length by done. cbn [nstart new_node avail with_avail] in *.
    assert (avail v ∖ ({[sec]} ∪ run st (nsec len)) = avail v ∖ {[sec]} ∖ run st (nsec len)) as -> by set_solver. done.
  - split_and!; try done; lia.
Qed.

Lemma made_root s1 N v sec st len s3 N3 : inode_made s1 N v sec st len s3 N3 -> root_ok N3 (names v) /\
  user_nodes N3 = <[sec := new_node st len]> (nodes v) /\ nodes v !! sec = None /\ N3 !! sec = Some (new_node st len).
Proof.
  intros [Hr _ _ (N0 & Hm & HN & ->) _ _ _ (_ & F0 & F1 & _)]. split_and!.
  - destruct (map_step_root N N0 _ Hm (rp_root Hr)) as (n & es & Hn & Hx). exists n, es. by rewrite lookup_insert_ne.
  - rewrite user_nodes_insert by done. f_equal. rewrite (map_step_user N N0 Hm). symmetry. apply Hr.
  - rewrite (rp_nodes Hr), <- (map_step_user N N0 Hm), user_node_other by done. done.
  - apply lookup_insert_eq.
Qed.

(** The name is refused: the sector of the inode goes back, the data stays set
    aside. *)
Lemma create_refused_repr s1 N v sec st len s3 N3 s4 : inode_made s1 N v sec st len s3 N3 -> 0 <= len -> held s4 N3 ∅ -> quiet s3 s4 ->
  free_map s4 = free_map s3 ->
  exists s5 N5, free_map_release sec 1 s4 = Ok (tt, s5) /\ held s5 N5 ∅ /\ quiet s1 s5 /\
    (oom s5 = true \/ repr s5 N5 (with_avail (avail v ∖ run st (nsec len)) v)).
Proof.
  intros Him Hlen Hh4 Hq4 Em. destruct (made_root _ _ _ _ _ _ _ _ Him) as (_ & _ & _ & HN3).
  destruct Him as [Hr Hh3 Hq3 (N0 & Hm & HN & EN) [Hroom Hsub] Hf3 Hsy (_ & F0 & F1 & F2)].
  pose proof (quiet_trans s1 s3 s4 Hq3 Hq4) as Hq14. rewrite <- (qt_inodes _ _ Hq14) in F2.
  destruct (release_inode s4 N3 (new_node st len) sec Hh4) as (s5 & N5 & E & Hh5 & Hq5 & Hm5 & Hb5 & Hsy5); try done.
  { rewrite (qt_map_file _ _ Hq14). apply Hr. }
  pose proof (quiet_trans s1 s4 s5 Hq14 Hq5) as Hq15. exists s5, N5. do 3 (split; [done|]).
  destruct (no_oom s5) as [Ho|Ho]; [by left|right]. rewrite EN, delete_insert_id in Hm5 by done.
  apply (repr_map_step s1 s5 N N5 v _ Hr Hh5 Hq15); [by apply (map_step_trans N N0)|by apply Hsy5|].
  intros x. pose proof (qt_size _ _ Hq15) as Hz5. pose proof (qt_size _ _ Hq3) as Hz3. pose proof (qt_size _ _ Hq14) as Hz4. pose proof (Hf3 x) as Hfx.
  unfold sectors in Hfx. rewrite new_node_length in Hfx by done. cbn [nstart new_node] in Hfx.
  rewrite elem_of_difference, elem_of_union, elem_of_singleton in Hfx. rewrite Hz5, <- Hz3, elem_of_difference.
  split.
  - intros [Hx Hnr]. assert (0 <= x < disk_size s3) as Hrange by (rewrite Hz3; apply (rp_free Hr x), Hx). split; [done|].
    apply not_true_iff_false. rewrite Hb5, Em by lia. intros [Hbt Hne]. assert (bit (free_map s3) x = false); [|congruence]. apply Hfx. tauto.
  - intros [Hrange Hbf]. apply not_true_iff_false in Hbf. rewrite Hb5, Em in Hbf by lia. destruct (decide (x = sec)) as [->|Hne].
    + split; [done|]. intros Hin. apply Hsub in Hin. set_solver.
    + destruct (proj2 Hfx) as [Ha Hb]; [split; [done|]; apply not_true_iff_false; tauto|]. split; [done|]. tauto.
Qed.

Lemma names_size es : dir_ok es -> size (list_to_map (used es) : gmap (list Z) Z) = length (used es).
Proof. intros Hd. apply map_size_list_to_map, Hd. Qed.

Lemma used_length es : (length (used es) <= length es)%nat.
Proof.
  unfold used. induction es as [|e es IH]; [done|]. cbn [omap list_omap length]. destruct (entry_of e); cbn [length]; lia.
Qed.

Lemma elem_of_img_insert (m : gmap (list Z) Z) nm sec x : m !! nm = None ->
  x ∈ (map_img (<[nm := sec]> m) : gset Z) <-> x = sec \/ x ∈ (map_img m : gset Z).
Proof. intros Hn. rewrite map_img_insert_notin_L by done. set_solver. Qed.

Lemma create_ok_repr s1 N v sec st len s3 N3 s4 n es es' nm : inode_made s1 N v sec st len s3 N3 ->
  held s4 (<[ROOT_DIR_SECTOR := Node (nstart n) (mjoin es')]> N3) ∅ -> quiet s3 s4 -> free_map s4 = free_map s3 ->
  names v = list_to_map (used es) -> dir_ok es' -> length es' = DIR_SIZE -> used es' ≡ₚ (nm, sec) :: used es ->
  repr s4 (<[ROOT_DIR_SECTOR := Node (nstart n) (mjoin es')]> N3) (with_file nm sec (new_node st len) v).
Proof.
  intros Him Hh4 Hq4 Em Hnm Hok' Hlen' Hp. destruct (made_root _ _ _ _ _ _ _ _ Him) as (_ & Hus & Hfresh & _).
  destruct Him as [Hr Hh3 Hq3 _ _ Hf3 Hsy (_ & F0 & F1 & F2)]. destruct (names_cons es' es nm sec Hok' Hp) as [Enm Hnone].
  rewrite <- Hnm in Enm, Hnone. destruct (rp_view Hr) as [V1 V2 V3].
  assert (forall nm', names v !! nm' <> Some sec) as Hnos by (intros nm' Hx; destruct (V1 nm' sec Hx); congruence).
  apply (repr_quiet_map s1 s4 N _ v (with_file nm sec (new_node st len) v) Hr Hh4); try done.
  - by apply (quiet_trans s1 s3).
  - apply (synced_user s3 s4 N3); [done|apply Hq4|done|]. by rewrite lookup_insert_ne.
  - split; cbn [names nodes handles with_file].
    + intros nm' x Hx. destruct (decide (nm' = nm)) as [->|Hne].
      * rewrite lookup_insert_eq in Hx. injection Hx as <-. rewrite lookup_insert_eq. eauto.
      * rewrite lookup_insert_ne in Hx by done. apply lookup_insert_is_Some'. right. by apply (V1 nm').
    + intros n1 n2 x H1 H2. apply lookup_insert_Some in H1 as [[<- <-]|[A1 A2]]; apply lookup_insert_Some in H2 as [[<- B]|[B1 B2]]; try done.
      * by destruct (Hnos n2).
      * subst x. by destruct (Hnos n1).
      * by apply (V2 n1 n2 x).
    + intros f h Hf. destruct (V3 f h Hf) as [Hs Hpos]. split; [|done]. apply lookup_insert_is_Some'. by right.
  - exists (Node (nstart n) (mjoin es')), es'. rewrite lookup_insert_eq. split_and!; try done.
  - cbn [nodes with_file]. by rewrite user_nodes_root, Hus.
  - intros x. rewrite Em, (qt_size _ _ Hq4). apply Hf3.
  - intros b i Hi. unfold unlinked, linked. cbn [names with_file]. apply bool_decide_ext. rewrite elem_of_img_insert by done.
    pose proof (F2 b i Hi). tauto.
Qed.

Lemma sector_not_zero sec : sec <> FREE_MAP_SECTOR -> negb (sec =? 0) = true.
Proof. intros H0. apply negb_true_iff, Z.eqb_neq. done. Qed.

Lemma bind_finish {S A B C E} (m : M S A) (f : A -> M S B) (k : A -> M S C) (g : C -> M S E) st :
  (r <- m;; x <- (f r;;; k r);; g x) st = (r <- (r <- m;; f r;;; ret r);; x <- k r;; g x) st.
Proof.
  rewrite bind_assoc. unfold bind, res_bind. destruct (m st) as [[a s1]| | |]; try done. cbn [fst snd].
  by destruct (f a s1) as [[b s2]| | |].
Qed.

(** From the allocated sector to the answer. *)
Lemma create_rest s1 N v sec s2 N2 nm len d x i : set_aside s1 N v sec s2 N2 -> chars nm -> 0 <= len < 2 ^ 31 - 511 ->
  dirs s1 !! d = Some x -> inodes s1 !! dinode x = Some i -> isector i = ROOT_DIR_SECTOR ->
  exists ok s' N',
    (r <- (ok <- inode_create sec len;; ok <- (if ok : bool then dir_add uninit d nm sec else ret false);; ret (ok, sec));;
     (if negb r.1 && negb (r.2 =? 0) then free_map_release r.2 1 else ret tt);;; ret r) s2 = Ok (ok, sec, s') /\
    held s' N' ∅ /\ quiet s1 s' /\ (oom s' = true \/ exists v', step v (Create nm len) (Yes ok) v' /\ repr s' N' v').
Proof.
  intros Hsa Hch Hlen Hd Hi Es. pose proof (set_aside_facts _ _ _ _ _ _ Hsa) as (Hnf & _ & Hres & Hin & Hf2 & Hsec & _ & F0 & F1 & _).
  pose proof (sa_held _ _ _ _ _ _ Hsa) as Hh2. pose proof (sa_quiet _ _ _ _ _ _ Hsa) as Hq2. pose proof (sa_repr _ _ _ _ _ _ Hsa) as Hr.
  destruct (inode_create_ok s2 N2 _ _ sec len Hh2 Hres) as (ok & s3 & N3 & E & Hg3 & Hq3 & Hmade); [lia|].
  pose proof (good_held s2 s3 N3 ∅ Hg3 Hq3) as Hh3. rewrite !bind_assoc. crun E. destruct ok; cycle 1.
  { rewrite bind_assoc, !bind_ret. cbn [fst snd negb andb]. rewrite (sector_not_zero sec F0).
    destruct (create_full_repr s1 N v sec s2 N2 s3 N3 len Hsa Hlen Hh3 Hq3 Hmade) as (s4 & N4 & E4 & Hh4 & Hq4 & Hout). crun E4.
    exists false, s4, N4. split_and!; try done. destruct Hout as [?|[? ?]]; [by left|right]. exists v. split; [by apply step_create_full|done]. }
  destruct (created_made s1 N v sec s2 N2 len s3 N3 Hsa) as [st Him]; [lia|done..|].
  destruct (made_root _ _ _ _ _ _ _ _ Him) as ((n & es & Hn & Hc & Hok & Hlen16 & Hnm) & _ & _ & HN3).
  pose proof (im_sec _ _ _ _ _ _ _ _ Him) as (Hs32 & _ & _ & F2). pose proof (im_quiet _ _ _ _ _ _ _ _ Him) as Hq13.
  rewrite <- (qt_dirs _ _ Hq13) in Hd. pose proof Hi as Hi1. rewrite <- (qt_inodes _ _ Hq13) in Hi.
  destruct (dir_add_held uninit uninit_bytes s3 N3 ∅ d x i n es nm sec Hh3 Hd Hi) as (ok & c & s4 & E4 & Hh4 & Hq4 & Em4 & Hz & Hadd); try done.
  { by rewrite Es. }
  { rewrite (qt_dirs _ _ Hq13) in Hd. by apply (root_not_denied ∅ false s1 N v d x). }
  rewrite bind_assoc. crun E4. rewrite bind_ret. cbn [fst snd]. pose proof (quiet_trans s1 s3 s4 Hq13 Hq4) as Hq14. rewrite Es in Hh4.
  destruct ok; cbn [negb andb].
  { rewrite bind_ret. exists true, s4, (<[ROOT_DIR_SECTOR := Node (nstart n) c]> N3). split_and!; try done.
    destruct Hadd as [?|(Hv & Hnew & es' & -> & Hok' & Hl' & Hp)]; [by left|right]. eexists.
    split; [apply (step_create v nm len sec st Hv)|apply (create_ok_repr s1 N v sec st len s3 N3 s4 n es es' nm Him); try done; congruence].
    - rewrite Hnm. by apply not_elem_of_list_to_map_1.
    - rewrite Hnm, names_size by done. pose proof (used_length es') as Hul. rewrite Hp in Hul. cbn [length] in Hul. lia.
    - apply Him. }
  rewrite (sector_not_zero sec F0). destruct (no_oom s4) as [Ho|Ho].
  - destruct (release_inode s4 _ (new_node st len) sec Hh4) as (s5 & N5 & E5 & Hh5 & Hq5 & _); try done.
    { rewrite (qt_map_file _ _ Hq14). apply Hr. }
    { by rewrite lookup_insert_ne. }
    { intros b j. rewrite (qt_inodes _ _ Hq14). apply F2. }
    crun E5. exists false, s5, N5. split_and!; try done; [by apply (quiet_trans s1 s4)|]. left. by apply (qt_oom _ _ Hq5).
  - destruct Hadd as [?|[-> Hwhy]]; [congruence|]. assert (Node (nstart n) (contents n) = n) as En by by destruct n.
    rewrite En, insert_id in Hh4 by done.
    destruct (create_refused_repr s1 N v sec st len s3 N3 s4 Him) as (s5 & N5 & E5 & Hh5 & Hq5 & Hout); [lia|done..|]. crun E5.
    exists false, s5, N5. split_and!; try done. destruct Hout as [?|Hr5]; [by left|right]. eexists. split; [|exact Hr5].
    apply step_create_refused with sec; [|apply Him]. destruct Hwhy as [?|[Hex|Hfull]]; [by left|right; left|right; right].
    + apply list_elem_of_fmap in Hex as ([nm' sec'] & -> & Hel). exists sec'. rewrite Hnm. by apply names_lookup.
    + rewrite Hnm, names_size by done. congruence.
Qed.

Lemma create_refines nm len : refines (Create nm len).
Proof.
  intros s N v Hr [Hch Hlen]. cbn [exec]. unfold filesys_create. rewrite bind_assoc.
  destruct (root_open_repr false s N v Hr) as (d & s1 & E1 & Hd). crun E1. rewrite !bind_assoc.
  destruct Hd as [(-> & Ho & _)|(Hnn & Hr1 & x & i & Hx & Hi & Es)].
  { cbn [Z.eqb NULL negb dir_close]. rewrite bind_ret. cbn [fst snd negb andb Z.eqb]. rewrite bind_assoc, bind_ret, bind_assoc, bind_ret.
    eexists _, s1. split; [done|]. by left. }
  rewrite (proj2 (Z.eqb_neq d NULL)) by done. pose proof (rp_base Hr1) as Hb1. rewrite bind_assoc.
  destruct (free_map_allocate_ok s1 N _ _ 1 (bs_held Hb1)) as (a & s2 & N2 & E2 & Hg2 & Hq2 & Hm2 & Ha); [lia|]. crun E2.
  pose proof (good_held s1 s2 N2 ∅ Hg2 Hq2) as Hh2. destruct a as [sec|].
  - destruct Ha as [Hat Hsy]. destruct (create_rest s1 N v sec s2 N2 nm len d x i) as (ok & s3 & N3 & E3 & Hh3 & Hq3 & Hout); [by split|done..|].
    destruct (finish_root s3 N3 d x (fun v' => step v (Create nm len) (Yes ok) v') Hh3) as (s4 & E4 & Hr4); try done.
    { rewrite (qt_map_file _ _ Hq3). apply Hb1. }
    { by rewrite (qt_dirs _ _ Hq3). }
    eexists (Yes ok), s4. split; [|destruct Hr4 as [?|(v' & ? & ?)]; [by left|right; by exists N3, v']].
    rewrite (bind_finish _ (fun r => if negb r.1 && negb (r.2 =? 0) then free_map_release r.2 1 else ret tt)). crun E3.
    rewrite bind_assoc. by crun E4.
  - rewrite bind_ret. cbn [fst snd negb andb Z.eqb]. rewrite bind_assoc, bind_ret, bind_assoc.
    destruct (finish_root s2 N2 d x (fun v' => step v (Create nm len) (Yes false) v') Hh2) as (s4 & E4 & Hr4).
    { rewrite (qt_map_file _ _ Hq2). apply Hb1. }
    { by rewrite (qt_dirs _ _ Hq2). }
    { destruct Ha as [_ [Ho|(-> & -> & Hno)]]; [by left|right]. exists v. split; [|done]. apply step_create_full. left.
      apply (no_room_empty s1 v); [apply Hr1|done]. }
    crun E4. eexists _, s4. split; [done|]. destruct Hr4 as [?|(v' & ? & ?)]; [by left|right]. by exists N2, v'.
Qed.

(** ** The file system *)

Lemma call_refines c : refines c.
Proof.
  destruct c; [apply create_refines|apply remove_refines|apply open_refines|apply reopen_refines|apply close_refines|apply read_refines|
    apply write_refines|apply seek_refines|apply tell_refines|apply length_refines|apply deny_refines|apply allow_refines].
Qed.

(** [n] calls of a client. *)
Fixpoint play (cl : client) (n : nat) (past : list (call * answer)) : M fs (list (call * answer)) :=
  match n with
  | O => ret past
  | S n =>
      match cl past with
      | None => ret past
      | Some c => r <- exec c;; play cl n (past ++ [(c, r)])
      end
  end.

Lemma play_refines cl v0 n : well_behaved v0 cl -> forall past s N v, behaviour v0 past v -> asked cl past -> repr s N v ->
  (exists k tr s', (k <= n)%nat /\ play cl k past s = Ok (tr, s') /\ oom s' = true) \/
  (exists tr s' N' v', play cl n past s = Ok (tr, s') /\ behaviour v0 tr v' /\ repr s' N' v').
Proof.
  intros Hcl. induction n as [|n IH]; intros past s N v Hb Ha Hr.
  { right. by exists past, s, N, v. }
  cbn [play]. destruct (cl past) as [c|] eqn:Ec; [|right; by exists past, s, N, v].
  destruct (call_refines c s N v Hr (Hcl past v c Hb Ha Ec)) as (r & s1 & E & [Ho|(N1 & v1 & Hst & Hr1)]).
  - left. exists 1%nat, (past ++ [(c, r)]), s1. split; [lia|]. cbn [play]. rewrite Ec. by crun E.
  - destruct (IH (past ++ [(c, r)]) s1 N1 v1 (behaviour_step v0 past v c r v1 Hb Hst) (asked_snoc cl past c r Ha Ec) Hr1) as [(k & tr & s' & Hk & Ep & Ho)|Hok].
    + left. exists (S k), tr, s'. split; [lia|]. cbn [play]. rewrite Ec. by crun E.
    + right. by crun E.
Qed.

End Refinement.
