(* ===== verification/FsBoot.v ===== *)
(** * Formatting and mounting

    [filesys_init] on a fresh device makes an empty file system, and on a
    device written by an earlier run it finds the files again.  Between the
    closing and the opening of the free map's file the pointer to it is stale
    and the map is not the one on the disk; the operations in between are shown
    not to look at either. *)

From stdpp Require Import gmultiset.
From S2P Require Import Prelude Bitmap Alloc BlockDev Bytes FsDef FsInode FsAlloc.
From S2P Require Import FsFile FsDir FsSpec Filesys.
Local Open Scope Z_scope.

Section Boot.
Context {H : Type} `{HA : Allocator H} {D : Type} `{HD : BlockDevice D}.
Notation fs := (@fs H D).
Implicit Types s : fs.

(** ** Operations that do not look at the free map *)

Definition graft (p : Z) (b : bitmap) s : fs := set_free_map b (set_free_map_file p s).

Definition agnostic_at {A : Type} (m : M fs A) s : Prop :=
  forall p b, m (graft p b s) = (r <-! m s;; Ok (r.1, graft p b r.2)).

Definition agnostic {A : Type} (m : M fs A) : Prop := forall s, agnostic_at m s.

Lemma agnostic_bind_at {A B} (m : M fs A) (k : A -> M fs B) s : agnostic_at m s ->
  (forall a s', m s = Ok (a, s') -> agnostic_at (k a) s') -> agnostic_at (bind m k) s.
Proof.
  intros Hm Hk p b. unfold bind, res_bind. rewrite (Hm p b). destruct (m s) as [[a s']| | |] eqn:E; try done.
  cbn [res_bind fst snd]. apply (Hk a s' eq_refl p b).
Qed.

Lemma agnostic_bind {A B} (m : M fs A) (k : A -> M fs B) : agnostic m -> (forall a, agnostic (k a)) -> agnostic (bind m k).
Proof. intros Hm Hk s. apply agnostic_bind_at; [apply Hm|]. intros a s' _. apply Hk. Qed.

Lemma agnostic_ret {A} (a : A) : agnostic (ret a).
Proof. done. Qed.

Lemma agnostic_lift {A} (r : res A) : agnostic (lift r).
Proof. intros s p b. unfold lift. by destruct r. Qed.

Lemma agnostic_assert c : agnostic (assert c).
Proof. intros s p b. unfold assert. by destruct c. Qed.

Lemma agnostic_nofuel {A} : agnostic (nofuel : M fs A).
Proof. done. Qed.

Lemma agnostic_modify f : (forall p b s, f (graft p b s) = graft p b (f s)) -> agnostic (modify f).
Proof. intros Hf s p b. unfold modify. cbn. by rewrite Hf. Qed.

Lemma agnostic_get {A} (k : fs -> M fs A) : (forall p b s, k (graft p b s) = k s) -> (forall s, agnostic (k s)) ->
  agnostic (bind get k).
Proof. intros Hk Hs s p b. rewrite !bind_get, Hk. apply Hs. Qed.

Lemma agnostic_malloc n : agnostic (malloc n).
Proof.
  intros s p b. unfold malloc, bind. cbn. destruct (al_malloc n (heap s)) as [[q h]| | |]; try done. cbn. unfold note_oom.
  by destruct (q =? NULL).
Qed.

Lemma agnostic_calloc x y : agnostic (calloc x y).
Proof.
  intros s p b. unfold calloc, bind. cbn. destruct (al_calloc x y (heap s)) as [[q h]| | |]; try done. cbn. unfold note_oom.
  by destruct (q =? NULL).
Qed.

Lemma agnostic_free q : agnostic (free q).
Proof. intros s p b. unfold free. cbn. by destruct (al_free q (heap s)) as [[[] h]| | |]. Qed.

Lemma agnostic_block_read sec : agnostic (block_read sec).
Proof. intros s p b. unfold block_read. cbn. by destruct (bd_read sec (device s)) as [[x d]| | |]. Qed.

Lemma agnostic_get_inode a : agnostic (get_inode a).
Proof. apply agnostic_get; [done|]. intros s. apply agnostic_lift. Qed.

Lemma agnostic_get_file a : agnostic (get_file a).
Proof. apply agnostic_get; [done|]. intros s. apply agnostic_lift. Qed.

Lemma agnostic_put_inode a x : agnostic (put_inode a x).
Proof. by apply agnostic_modify. Qed.

Lemma agnostic_put_file a x : agnostic (put_file a x).
Proof. by apply agnostic_modify. Qed.

End Boot.

Create HintDb agnostic discriminated.
#[export] Hint Resolve agnostic_bind agnostic_ret agnostic_lift agnostic_assert agnostic_nofuel agnostic_malloc agnostic_calloc
  agnostic_free agnostic_block_read agnostic_get_inode agnostic_get_file agnostic_put_inode agnostic_put_file : agnostic.

Ltac solve_agnostic :=
  repeat first
    [ progress intros
    | match goal with |- agnostic (if ?c then _ else _) => destruct c end
    | solve [auto with agnostic]
    | apply agnostic_bind
    | apply agnostic_modify; done ].

Section Boot2.
Context {H : Type} `{HA : Allocator H} {D : Type} `{HD : BlockDevice D}.
Notation fs := (@fs H D).
Implicit Types s : fs.

Lemma agnostic_read_loop n : forall a buffer size off got p, agnostic (read_loop n a buffer size off got p : M fs _).
Proof.
  induction n as [|n IH]; intros a buffer size off got p; cbn [read_loop]; destruct (negb (0 <? size)); [solve_agnostic..|].
  unfold byte_to_sector, inode_length. solve_agnostic; try apply IH.
Qed.

Lemma agnostic_inode_read_at a buffer size off : agnostic (inode_read_at a buffer size off : M fs _).
Proof. unfold inode_read_at. apply agnostic_bind; [apply agnostic_read_loop|]. solve_agnostic. Qed.

Lemma agnostic_find_open sec l : agnostic (find_open sec l : M fs _).
Proof. induction l as [|a l IH]; cbn [find_open]; solve_agnostic; try apply IH. Qed.

Lemma agnostic_inode_open sec : agnostic (inode_open sec : M fs _).
Proof.
  unfold inode_open. apply agnostic_get; [done|]. intros s. apply agnostic_bind; [apply agnostic_find_open|].
  unfold inode_reopen. solve_agnostic.
Qed.

Lemma agnostic_bitmap_read_file b f : agnostic (bitmap_read_file b f : M fs _).
Proof.
  unfold bitmap_read_file, file_read_at. destruct (0 <? bit_cnt b); [|apply agnostic_lift].
  apply agnostic_bind; [apply agnostic_bind; [apply agnostic_get_file|]; intros x; apply agnostic_inode_read_at|]. solve_agnostic.
Qed.

(** Closing looks at the free map only for a removed file. *)
Lemma agnostic_inode_close a s : (forall i, inodes s !! a = Some i -> removed i = false) -> agnostic_at (inode_close a) s.
Proof.
  intros Hr. unfold inode_close. destruct (a =? NULL); [apply agnostic_ret|]. apply agnostic_bind_at; [apply agnostic_get_inode|].
  intros i s' E. unfold get_inode in E. rewrite bind_get in E. destruct (inodes s !! a) as [j|] eqn:Ej; [|done]. injection E as <- <-.
  rewrite (Hr j eq_refl). unfold drop_inode.
  apply agnostic_bind; [auto with agnostic|]. intros _. destruct (i32 (open_cnt j - 1) =? 0); [|auto with agnostic].
  apply agnostic_bind; [by apply agnostic_modify|]. intros _. apply agnostic_bind; [by apply agnostic_modify|].
  intros _. apply agnostic_bind; auto with agnostic.
Qed.

Lemma calloc_inodes x y s p s' : calloc x y s = Ok (p, s') -> inodes s' = inodes s.
Proof.
  unfold calloc, bind. destruct (al_calloc x y (heap s)) as [[q h]| | |]; try done. cbn. unfold note_oom. destruct (q =? NULL); cbn.
  - by intros [= _ <-].
  - by intros [= _ <-].
Qed.

Lemma agnostic_file_open a s : (forall i, inodes s !! a = Some i -> removed i = false) -> agnostic_at (file_open a) s.
Proof.
  intros Hr. unfold file_open. apply agnostic_bind_at; [apply agnostic_calloc|]. intros f s' E.
  destruct (negb (a =? NULL) && negb (f =? NULL)); [apply agnostic_bind; auto with agnostic|].
  apply agnostic_bind_at; [apply agnostic_inode_close; by rewrite (calloc_inodes _ _ _ _ _ E)|]. intros [] s2 _.
  apply agnostic_bind; auto with agnostic.
Qed.

Lemma agnostic_file_close f x s : files s !! f = Some x -> deny_write x = false ->
  (forall i, inodes s !! finode x = Some i -> removed i = false) -> agnostic_at (file_close f) s.
Proof.
  intros Hf Hd Hr. unfold file_close. destruct (f =? NULL) eqn:E0; [apply agnostic_ret|]. cbn [negb].
  assert (file_allow_write f s = Ok (tt, s)) as Ea.
  { unfold file_allow_write. rewrite E0. cassert ltac:(done). crun (get_file_ok s f x Hf). by rewrite Hd. }
  assert (agnostic_at (file_allow_write f) s) as Hag.
  { intros p b. rewrite Ea. unfold file_allow_write. rewrite E0. cassert ltac:(done).
    rewrite (bind_ok _ _ _ x (graft p b s)) by (apply get_file_ok; done). by rewrite Hd. }
  apply agnostic_bind_at; [done|]. intros [] s1 E1. rewrite Ea in E1. injection E1 as <-.
  apply agnostic_bind_at; [apply agnostic_get_file|]. intros y s2 E2. rewrite (get_file_ok s f x Hf) in E2. injection E2 as <- <-.
  apply agnostic_bind_at; [by apply agnostic_inode_close|]. intros [] s3 _. apply agnostic_bind; [auto with agnostic|]. intros [].
  by apply agnostic_modify.
Qed.

(** Running from the grafted state. *)
Lemma run_grafted {A} (m : M fs A) p b s a s' : agnostic_at m s -> m s = Ok (a, s') -> m (graft p b s) = Ok (a, graft p b s').
Proof. intros Ha E. by rewrite (Ha p b), E. Qed.

Lemma graft_self s : graft (free_map_file s) (free_map s) s = s.
Proof. by destruct s. Qed.

Lemma graft_graft p b p' b' s : graft p b (graft p' b' s) = graft p b s.
Proof. done. Qed.

(** ** Opening the free map's file *)

Lemma bytes_words_bound n : forall bs, Forall byte bs -> Forall (fun w => 0 <= w < 2 ^ 32) (bytes_words n bs).
Proof.
  induction n as [|n IH]; intros bs Hb; cbn [bytes_words]; constructor; [|by apply IH, Forall_drop].
  exact (of_le_slice 0 4 bs Hb ltac:(lia)).
Qed.

Lemma length_bytes_words n bs : length (bytes_words n bs) = n.
Proof. revert bs. induction n as [|n IH]; intros bs; cbn [bytes_words length]; by rewrite ?IH. Qed.

Lemma words_bytes_bytes ws : Forall byte (words_bytes ws).
Proof.
  unfold words_bytes. induction ws as [|w ws IH]; [constructor|]. apply Forall_app_2; [apply le32_bytes|apply IH].
Qed.

Lemma held_stale s N extra : held s N extra -> held (set_free_map_file NULL s) N extra.
Proof. intros [[I1 I2 I3 I4 I5 I6 I7 I8 I9 I10 I11] Hid _]. split; [by split|done|by left]. Qed.

Lemma held_map s N extra b : held s N extra -> same_bits b (free_map s) -> held (set_free_map b s) N extra.
Proof.
  intros Hh (Hw & Hc & Hb). pose proof (gd_inv _ _ _ _ Hh) as Hi. destruct (map_bound s N _ _ Hi) as (_ & Hcm & _).
  apply good_map; [done..|congruence|]. intros x Hx Hn. rewrite Hb by lia.
  apply not_false_iff_true. by apply (owned_used s N _ _ x Hi).
Qed.

Lemma held_set_map_file s N f x i n : held s N ∅ -> files s !! f = Some x -> inodes s !! finode x = Some i ->
  isector i = FREE_MAP_SECTOR -> N !! FREE_MAP_SECTOR = Some n -> zlen (contents n) = byte_cnt (disk_size s) ->
  file_denies (files s) = ∅ -> held (set_free_map_file f s) N ∅.
Proof.
  intros [[I1 I2 I3 I4 I5 I6 I7 I8 I9 I10 I11] Hid _] Hf Hi Es Hn Hz Hd. split; [by split|done|]. right. exists x, i, n.
  split_and!; try done. change (multiplicity (finode x) (file_denies (files s)) = 0%nat). rewrite Hd. apply multiplicity_empty.
Qed.

Lemma no_inodes s N b : held s N ∅ -> files s = ∅ -> dirs s = ∅ -> inodes s !! b = None.
Proof.
  intros Hh Hf Hd. apply eq_None_not_Some. intros [j Hj].
  destruct (io_open _ _ _ _ _ (iv_inode _ _ _ _ (gd_inv _ _ _ _ Hh) b j Hj)) as [E Ho]. unfold refs_of in E.
  rewrite Hf, Hd in E. unfold file_refs, dir_refs in E. rewrite !collect_empty, !(left_id_L ∅ (⊎)), multiplicity_empty in E. lia.
Qed.

(** The state with the free map's file open and nothing else. *)
Record mounted s (N : gmap Z node) s' : Prop := Mounted {
  mt_held : held s' N ∅;
  mt_file : exists f a i, free_map_file s' = f /\ f <> NULL /\ files s' = {[f := File a 0 false]} /\
    inodes s' !! a = Some i /\ isector i = FREE_MAP_SECTOR;
  mt_dirs : dirs s' = ∅;
  mt_inodes b j : inodes s' !! b = Some j -> isector j = FREE_MAP_SECTOR /\ removed j = false;
  mt_size : disk_size s' = disk_size s;
  mt_map : same_bits (free_map s') (free_map s)
}.

(** Reading the map. *)
Lemma read_map_ok s N f x i n b b0 : held s N ∅ -> files s !! f = Some x -> inodes s !! finode x = Some i ->
  isector i = FREE_MAP_SECTOR -> N !! FREE_MAP_SECTOR = Some n -> contents n = words_bytes (bits b) -> same_bits b (free_map s) ->
  bitmap_wf b0 -> bit_cnt b0 = disk_size s -> 0 < disk_size s ->
  exists ok b1 s', bitmap_read_file b0 f s = Ok (ok, b1, s') /\ held s' N ∅ /\ quiet s s' /\ free_map s' = free_map s /\
    (ok = true -> same_bits b1 (free_map s)).
Proof.
  intros Hh Hf Hi Es Hn Hc (Hwb & Hcb & Hbits) Hw0 Hc0 Hpos. pose proof (gd_inv _ _ _ _ Hh) as Hinv.
  destruct (map_bound s N _ _ Hinv) as (Hwm & Hcm & Hsz). rewrite <- Es in Hn.
  destruct (byte_cnt_ok b0 Hw0 ltac:(lia)) as (Hb0 & Hlt & H32). destruct (byte_cnt_ok b Hwb ltac:(lia)) as (Hb1 & _ & _).
  assert (length (bits b0) = length (bits b)) as Hlen.
  { pose proof (wf_len _ Hw0) as A. pose proof (wf_len _ Hwb) as B. rewrite Hcb, Hcm, <- Hc0, <- A in B. lia. }
  unfold bitmap_read_file. rewrite (proj2 (Z.ltb_lt 0 (bit_cnt b0))) by lia. unfold file_read_at. rewrite !bind_assoc.
  crun (get_file_ok s f x Hf). rewrite H32. set (buf := words_bytes (bits b0)) in *. pose proof (zlen_nonneg buf).
  destruct (inode_read_at_ok s N _ _ (finode x) i n buf (byte_cnt (bit_cnt b0)) 0 Hinv Hi Hn) as (k & s1 & E & Hi1 & Hq & Hm & Hk & Hout);
    [lia|lia|lia|]. crun E. cbn [fst snd].
  set (bs := overlay 0 (slice 0 k (contents n)) buf).
  assert (Forall byte bs) as Hbs by (apply overlay_bytes; [rewrite Hc; apply slice_bytes, words_bytes_bytes|apply words_bytes_bytes]).
  destruct (bitmap_read_ok b0 (bytes_words (length (bits b0)) bs) k Hw0) as (ok & b1 & Er & Hok & Hc1 & Hw1 & Hbit & _); [|lia|].
  { split; [rewrite length_bytes_words; apply wf_len, Hw0|by apply bytes_words_bound]. }
  exists ok, b1, s1. split; [unfold lift; by rewrite Er|]. split; [by apply (quiet_held s s1 N)|]. split; [done|]. split; [done|].
  intros ->. pose proof (proj1 Hok eq_refl) as Ek. rewrite H32 in Ek. split_and!; try done; [congruence|].
  intros z Hz. rewrite Hbit by lia.
  assert (bs = words_bytes (bits b)) as ->.
  { unfold bs. rewrite Ek, Hc, slice_whole; [apply overlay_whole|]; unfold buf; rewrite ?words_bytes_length; [lia|].
    unfold zlen in Hb1. rewrite <- words_bytes_length, <- Hb1. congruence. }
  rewrite Hlen, bytes_words_of.
  - rewrite <- Hbits by done. unfold bit. cbn [bits]. done.
  - apply Forall_lookup_2. apply (wf_elem _ Hwb).
Qed.

Lemma file_open_graft_null s N p b : held s N ∅ -> exists s', file_open NULL (graft p b s) = Ok (NULL, s').
Proof.
  intros Hh. destruct (file_open_null s N ∅ Hh) as (s' & E & _). exists (graft p b s'). apply run_grafted; [|done].
  apply agnostic_file_open. intros i Hi. by destruct (inode_not_null s N _ _ NULL i (gd_inv _ _ _ _ Hh) Hi).
Qed.

Lemma free_map_open_ok s N n b p0 b0 : held s N ∅ -> free_map_file s = NULL -> files s = ∅ -> dirs s = ∅ ->
  N !! FREE_MAP_SECTOR = Some n -> contents n = words_bytes (bits b) -> same_bits b (free_map s) -> bitmap_wf b0 ->
  bit_cnt b0 = disk_size s -> 0 < disk_size s ->
  free_map_open (graft p0 b0 s) = Panic \/ exists s', free_map_open (graft p0 b0 s) = Ok (tt, s') /\ mounted s N s'.
Proof.
  intros Hh Hmf Hf Hd Hn Hc Hsb Hw0 Hc0 Hpos. unfold free_map_open.
  destruct (open_held s N ∅ FREE_MAP_SECTOR n Hh Hn) as (a & s1 & E1 & Hst & Hm1 & Hfrom & Ha); [rewrite gmultiset_size_empty; lia|].
  crun (run_grafted _ p0 b0 s a s1 (agnostic_inode_open _ s) E1).
  destruct Ha as [(-> & _ & Hh1)|(Hna & Hh1 & i & Hi & Es)].
  { left. destruct (file_open_graft_null s1 N p0 b0 Hh1) as (s2 & E2). crun E2. done. }
  assert (forall c j, inodes s1 !! c = Some j -> isector j = FREE_MAP_SECTOR /\ removed j = false) as Hnew.
  { intros c j Hj. destruct (Hfrom c j Hj) as [(j0 & Hj0 & _)|?]; [|done]. rewrite (no_inodes s N c Hh Hf Hd) in Hj0. done. }
  destruct (file_open_held s1 N ∅ a Hh1) as (f & s2 & N2 & E2 & Hfo).
  { intros j Hj. destruct (Hnew a j Hj) as [_ ->]. done. }
  crun (run_grafted _ p0 b0 s1 f s2 (agnostic_file_open a s1 (fun j Hj => proj2 (Hnew a j Hj))) E2).
  rewrite bind_modify. destruct Hfo as [(-> & _)|(s1a & (Hq & Ed & Em & _ & Hfn & _) & -> & -> & Hh2)]; [by left|].
  rewrite (proj2 (Z.eqb_neq f NULL)) by done. rewrite bind_get.
  set (s2 := set_files _ s1a) in *. change (free_map (set_free_map_file f (graft p0 b0 s2))) with b0.
  change (set_free_map_file f (graft p0 b0 s2)) with (graft f b0 s2).
  assert (disk_size s2 = disk_size s) as Hsz by (change (disk_size s1a = disk_size s); rewrite (qt_size _ _ Hq); apply Hst).
  assert (free_map s2 = free_map s) as Hm2 by (change (free_map s1a = free_map s); congruence).
  assert (files s2 = {[f := File a 0 false]}) as Hf2
    by (change (<[f := File a 0 false]> (files s1a) = {[f := File a 0 false]}); by rewrite (qt_files _ _ Hq), (sy_files _ _ _ Hst), Hf).
  assert (inodes s2 = inodes s1) as Hi2 by apply Hq.
  destruct (read_map_ok s2 N f (File a 0 false) i n b b0 Hh2) as (ok & b1 & s3 & E3 & Hh3 & Hq3 & Hm3 & Hok); try done.
  { rewrite Hf2. apply lookup_singleton_eq. }
  { by rewrite Hi2. }
  { by rewrite Hm2. }
  { congruence. }
  { lia. }
  crun (run_grafted _ f b0 s2 _ s3 (agnostic_bitmap_read_file b0 f s2) E3). rewrite bind_modify. cbn [fst snd].
  destruct ok; cbn [negb]; [right|by left]. eexists. split; [done|]. specialize (Hok eq_refl).
  change (set_free_map b1 (graft f b0 s3)) with (set_free_map_file f (set_free_map b1 s3)).
  pose proof (gd_inv _ _ _ _ Hh2) as Hinv2. destruct (map_bound s2 N _ _ Hinv2) as (_ & Hcm & Hbig).
  assert (held (set_free_map b1 s3) N ∅) as Hh4 by (apply held_map; [done|by rewrite Hm3]).
  split; cbn [free_map_file set_free_map_file].
  - apply (held_set_map_file _ N f (File a 0 false) i n Hh4); cbn [files set_free_map inodes]; try done.
    + rewrite (qt_files _ _ Hq3), Hf2. apply lookup_singleton_eq.
    + by rewrite (qt_inodes _ _ Hq3), Hi2.
    + change (disk_size (set_free_map b1 s3)) with (disk_size s3). rewrite (qt_size _ _ Hq3), Hsz.
      destruct Hsb as (Hwb & Hcb & _). destruct (byte_cnt_ok b Hwb) as (E & _); [rewrite Hcb, <- Hm2; lia|].
      rewrite Hc, <- E, Hcb, <- Hm2, Hcm. by rewrite Hsz.
    + rewrite (qt_files _ _ Hq3), Hf2. unfold file_denies. rewrite <- insert_empty, collect_insert by done. by rewrite collect_empty.
  - exists f, a, i. cbn [files inodes set_free_map_file set_free_map]. rewrite (qt_files _ _ Hq3), (qt_inodes _ _ Hq3), Hi2. done.
  - cbn. rewrite (qt_dirs _ _ Hq3). change (dirs s1a = ∅). by rewrite (qt_dirs _ _ Hq), (sy_dirs _ _ _ Hst).
  - intros c j. cbn [inodes set_free_map_file set_free_map]. rewrite (qt_inodes _ _ Hq3), Hi2. apply Hnew.
  - change (disk_size s3 = disk_size s). rewrite (qt_size _ _ Hq3). done.
  - cbn [free_map set_free_map_file set_free_map]. by rewrite <- Hm2.
Qed.

(** ** The free map in memory *)

(** Nothing is open yet; the static variables are zero. *)
Record blank s : Prop := Blank {
  bl_heap : al_wf (heap s);
  bl_device : bd_wf (device s);
  bl_inodes : inodes s = ∅;
  bl_open : open_inodes s = [];
  bl_files : files s = ∅;
  bl_dirs : dirs s = ∅;
  bl_map_file : free_map_file s = NULL
}.

Lemma blank_layout s N : blank s -> layout (disk_size s) (disk s) (free_map s) N -> held s N ∅.
Proof.
  intros [B1 B2 B3 B4 B5 B6 B7] Hl. unfold held, refs_of. rewrite B5, B6. unfold file_refs, dir_refs, file_denies.
  rewrite !collect_empty, !(left_id_L ∅ (⊎)). assert (forall p, spare s p) as Hsp by (intros p; unfold spare; by rewrite B3, B5, B6).
  split; [|intros a i; by rewrite B3|by left]. split; rewrite ?B3, ?B4, ?B5, ?B6; try done.
  - intros a Ha. by destruct Ha.
  - intros a. rewrite elem_of_nil. split; [done|by intros [? ?]].
  - intros a. multiset_solver.
Qed.

Lemma blank_held s : blank s -> bitmap_wf (free_map s) -> bit_cnt (free_map s) = disk_size s -> held s ∅ ∅.
Proof. intros Hbl Hw Hc. apply blank_layout; [done|]. by split. Qed.

Definition zero_map (n : Z) : bitmap := Bitmap n (replicate (Z.to_nat (elem_cnt n)) 0).

Lemma zero_map_wf n : 0 <= n <= 2 ^ 28 -> bitmap_wf (zero_map n).
Proof.
  intros Hn. split; cbn [zero_map bit_cnt bits]; [lia| |].
  - rewrite length_replicate, elem_cnt_eq by lia. pose proof (Z.div_pos (n + 31) 32 ltac:(lia) ltac:(lia)). lia.
  - intros i e [-> _]%lookup_replicate. lia.
Qed.

Lemma held_blank s s' b0 b : blank s -> quiet (graft NULL b0 s) s' -> held s' ∅ ∅ -> blank (graft NULL b s').
Proof.
  intros [B1 B2 B3 B4 B5 B6 B7] [Q1 Q2 Q3 Q4 Q5 Q6 Q7 Q8 Q9] Hh. pose proof (gd_inv _ _ _ _ Hh) as Hi.
  split; cbn; [apply Hi|apply Hi|by rewrite Q1|by rewrite Q2|by rewrite Q3|by rewrite Q4|done].
Qed.

Lemma initial_marks b0 n : bitmap_wf b0 -> bit_cnt b0 = n -> 2 <= n -> group b0 0 n false ->
  exists b1 b2, bitmap_mark b0 FREE_MAP_SECTOR = Ok b1 /\ bitmap_mark b1 ROOT_DIR_SECTOR = Ok b2 /\ bitmap_wf b2 /\ bit_cnt b2 = n /\
    forall x, 0 <= x < n -> bit b2 x = true <-> x = FREE_MAP_SECTOR \/ x = ROOT_DIR_SECTOR.
Proof.
  intros Hw Hc Hn Hg. unfold FREE_MAP_SECTOR, ROOT_DIR_SECTOR.
  destruct (bitmap_mark_ok b0 0 Hw) as (b1 & E1 & Hc1 & Hw1 & Hb1); [lia|].
  destruct (bitmap_mark_ok b1 1 Hw1) as (b2 & E2 & Hc2 & Hw2 & Hb2); [lia|]. exists b1, b2. split_and!; try done; [congruence|].
  intros x Hx. destruct (Hb1 x ltac:(lia)) as [A1 A2]. destruct (Hb2 x ltac:(lia)) as [C1 C2].
  destruct (decide (1 = x)) as [<-|N1]; [rewrite C1 by done; naive_solver|]. rewrite (C2 N1).
  destruct (decide (0 = x)) as [<-|N0]; [rewrite A1 by done; naive_solver|]. rewrite (A2 N0), (Hg x) by (unfold range; lia).
  split; [done|]. intros [?|?]; lia.
Qed.

Definition fresh_map s : Prop :=
  bitmap_wf (free_map s) /\ bit_cnt (free_map s) = disk_size s /\
  forall x, 0 <= x < disk_size s -> bit (free_map s) x = true <-> x = FREE_MAP_SECTOR \/ x = ROOT_DIR_SECTOR.

Lemma free_map_init_ok s garbage : blank s -> 2 <= disk_size s -> storage (disk_size s) garbage ->
  free_map_init garbage s = Panic \/
  exists s', free_map_init garbage s = Ok (tt, s') /\ blank s' /\ device s' = device s /\ lock_filesys s' = lock_filesys s /\ fresh_map s'.
Proof.
  intros Hbl Hsz Hgar. pose proof (bd_size_ok _ (bl_device _ Hbl)) as Hbig. fold (disk_size s) in Hbig.
  set (zm := zero_map (disk_size s)). set (s0 := graft NULL zm s).
  assert (blank s0) as Hbl0 by by destruct Hbl. pose proof (zero_map_wf (disk_size s) Hbig) as Hwz.
  pose proof (blank_held s0 Hbl0 Hwz eq_refl) as Hh0. pose proof (gd_inv _ _ _ _ Hh0) as Hi0.
  assert (s = graft NULL (free_map s) s0) as Es by (rewrite <- (graft_self s) at 1; by rewrite (bl_map_file _ Hbl)).
  destruct (fs_malloc_ok s0 ∅ _ _ sizeof_bitmap Hi0) as (p & s1 & E1 & Hi1 & Hq1 & Hd1 & Hm1 & _ & _); [done|].
  pose proof (run_grafted _ NULL (free_map s) s0 p s1 (agnostic_malloc _ s0) E1) as R1. rewrite <- Es in R1.
  assert (held s1 ∅ ∅) as Hh1 by (by apply (quiet_held s0 s1 ∅)).
  unfold free_map_init, block_size. rewrite bind_gets. fold (disk_size s). crun R1.
  destruct (Z.eqb_spec p NULL) as [->|Hp]; [left; by rewrite bind_ret|].
  assert (0 <= byte_cnt (disk_size s) < 2 ^ 31) as Hbc.
  { destruct (byte_cnt_ok zm Hwz) as (E & Hlt & _); [cbn; lia|]. cbn [zm zero_map bit_cnt] in *. rewrite E in *. split; [apply zlen_nonneg|done]. }
  destruct (fs_malloc_ok s1 ∅ _ _ (byte_cnt (disk_size s)) (gd_inv _ _ _ _ Hh1) Hbc) as (q & s2 & E2 & Hi2 & Hq2 & Hd2 & Hm2 & _ & _).
  crun (run_grafted _ NULL (free_map s) s1 q s2 (agnostic_malloc _ s1) E2). cbn [negb].
  unfold bitmap_create. cbn [negb].
  destruct (Z.eqb_spec q NULL) as [->|Hq]; [left; by rewrite (proj2 (Z.eqb_neq (disk_size s) 0)) by lia|].
  destruct (bitmap_set_all_ok (disk_size s) garbage false) as (b0 & Eb & Hc0 & Hw0 & Hg0); [lia|done|].
  rewrite (bind_ok _ _ _ (Some b0) (graft NULL (free_map s) s2)) by (unfold lift; by rewrite Eb).
  destruct (initial_marks b0 (disk_size s) Hw0 Hc0 Hsz Hg0) as (b1 & b2 & M1 & M2 & Hw2 & Hc2 & Hb2).
  rewrite (bind_ok _ _ _ b1 (graft NULL (free_map s) s2)) by (unfold lift; by rewrite M1).
  rewrite (bind_ok _ _ _ b2 (graft NULL (free_map s) s2)) by (unfold lift; by rewrite M2).
  right. eexists. split; [done|]. change (set_free_map b2 (graft NULL (free_map s) s2)) with (graft NULL b2 s2).
  pose proof (quiet_trans s0 s1 s2 Hq1 Hq2) as Hq02. assert (held s2 ∅ ∅) as Hh2 by (by apply (quiet_held s1 s2 ∅)).
  assert (device s2 = device s) as Hdev by (rewrite Hd2, Hd1; done).
  split; [by apply (held_blank s s2 zm b2)|]. split; [done|]. split; [apply Hq02|].
  assert (disk_size (graft NULL b2 s2) = disk_size s) as E by (unfold disk_size; cbn; by rewrite Hdev). unfold fresh_map. rewrite E. done.
Qed.

(** ** Formatting *)

Lemma map_step_empty N : map_step ∅ N -> N = ∅.
Proof. intros [Hs _]. apply map_eq. intros x. specialize (Hs x). rewrite lookup_empty in *. by destruct (N !! x). Qed.

(** The file [f] of the free map is open, and nothing else. *)
Definition map_only s (f : Z) : Prop :=
  f <> NULL /\ dirs s = ∅ /\ exists a i, files s = {[f := File a 0 false]} /\ inodes s !! a = Some i /\ isector i = FREE_MAP_SECTOR /\
    removed i = false.

Lemma map_only_quiet s s' f : map_only s f -> quiet s s' -> map_only s' f.
Proof.
  intros (Hf & Hd & a & i & Hx) Hq. split; [done|]. split; [by rewrite (qt_dirs _ _ Hq)|]. exists a, i.
  by rewrite (qt_files _ _ Hq), (qt_inodes _ _ Hq).
Qed.

Lemma single_denies f a : file_denies {[f := File a 0 false]} = ∅.
Proof. unfold file_denies. rewrite <- insert_empty, collect_insert by done. by rewrite collect_empty. Qed.

(** The free map's file on the disk, open, and written. *)
Definition map_created s (len st0 : Z) s' (N : gmap Z node) : Prop :=
  held s' N ∅ /\ map_only s' (free_map_file s') /\ allocated_at s (nsec len) st0 s' /\ disk_size s' = disk_size s /\
  lock_filesys s' = lock_filesys s /\ exists n, N = {[FREE_MAP_SECTOR := n]} /\ nstart n = st0 /\ zlen (contents n) = len.

Lemma free_map_create_ok s : blank s -> 2 <= disk_size s -> fresh_map s ->
  free_map_create s = Panic \/
  exists st0 s' N, free_map_create s = Ok (tt, s') /\ map_created s (byte_cnt (disk_size s)) st0 s' N.
Proof.
  intros Hbl Hsz (Hw & Hc & Hbits). pose proof (blank_held s Hbl Hw Hc) as Hh. pose proof (bd_size_ok _ (bl_device _ Hbl)) as Hbig.
  fold (disk_size s) in Hbig. destruct (byte_cnt_ok (free_map s) Hw ltac:(lia)) as (Hbc & Hlt & H32).
  set (len := byte_cnt (disk_size s)) in *. unfold free_map_create. rewrite bind_get. unfold bitmap_file_size. rewrite H32, Hc. fold len.
  rewrite Hc in Hbc, Hlt. fold len in Hbc, Hlt. assert (0 <= len) by (rewrite Hbc; apply zlen_nonneg).
  destruct (inode_create_ok s ∅ _ _ FREE_MAP_SECTOR len Hh) as (ok & s1 & N1 & E1 & Hg1 & Hq1 & Hcr);
    [split_and!; [unfold FREE_MAP_SECTOR; lia..|apply Hbits; unfold FREE_MAP_SECTOR; [lia|by left]|by intros ? ? ?]|lia|]. crun E1.
  destruct ok; cbn [negb]; [|by left]. destruct Hcr as (st0 & N0 & Hm0 & EN & Hat & _). apply map_step_empty in Hm0. subst N0.
  rewrite insert_empty in EN. pose proof (good_held s s1 N1 ∅ Hg1 Hq1) as Hh1. pose proof (qt_size _ _ Hq1) as Hsz1.
  assert (N1 !! FREE_MAP_SECTOR = Some (new_node st0 len)) as HN1 by (rewrite EN; apply lookup_singleton_eq).
  destruct (open_held s1 N1 ∅ FREE_MAP_SECTOR _ Hh1 HN1) as (a & s2 & E2 & Hst & Hm2 & Hfrom & Ha); [rewrite gmultiset_size_empty; lia|]. crun E2.
  destruct Ha as [(-> & _ & Hh2)|(Hna & Hh2 & i & Hi & Es)].
  { left. destruct (file_open_null s2 N1 ∅ Hh2) as (s3 & E3 & _). crun E3. done. }
  assert (removed i = false) as Hrm.
  { destruct (Hfrom a i Hi) as [(j & Hj & _)|[_ ?]]; [|done]. rewrite (qt_inodes _ _ Hq1), (bl_inodes _ Hbl) in Hj. done. }
  destruct (file_open_held s2 N1 ∅ a Hh2) as (f & s3 & N3 & E3 & Hfo); [intros j Hj; rewrite Hi in Hj; injection Hj as <-; congruence|].
  crun E3. rewrite bind_modify. destruct Hfo as [(-> & _)|(s2a & (Hq3 & _ & Em3 & _ & Hfn & _) & -> & -> & Hh3)]; [by left|].
  rewrite (proj2 (Z.eqb_neq f NULL)) by done. set (s3 := set_files _ s2a) in *.
  assert (files s3 = {[f := File a 0 false]}) as Hf3.
  { change (<[f := File a 0 false]> (files s2a) = {[f := File a 0 false]}).
    by rewrite (qt_files _ _ Hq3), (sy_files _ _ _ Hst), (qt_files _ _ Hq1), (bl_files _ Hbl). }
  assert (inodes s3 !! a = Some i) as Hi3 by (change (inodes s2a !! a = Some i); by rewrite (qt_inodes _ _ Hq3)).
  assert (disk_size s3 = disk_size s) as Hsz3 by (change (disk_size s2a = disk_size s); rewrite (qt_size _ _ Hq3), (sy_size _ _ _ Hst); done).
  assert (held (set_free_map_file f s3) N1 ∅) as Hh4.
  { apply (held_set_map_file s3 N1 f (File a 0 false) i (new_node st0 len)); try done.
    - rewrite Hf3. apply lookup_singleton_eq.
    - by rewrite Hsz3, new_node_length.
    - rewrite Hf3. apply single_denies. }
  set (s4 := set_free_map_file f s3) in *. rewrite bind_get. pose proof (gd_inv _ _ _ _ Hh4) as Hi4.
  destruct (map_bound s4 N1 _ _ Hi4) as (Hw4 & Hc4 & _).
  destruct (bitmap_write_ok s4 N1 _ _ (free_map s4) Hh4 Hfn Hw4 Hc4) as (ok & s5 & N5 & E5 & Hg5 & Hq5 & Hm5 & Hms & _).
  change (free_map_file s4) with f in E5. crun E5. destruct ok; cbn [negb]; [right|by left].
  exists st0, s5, N5. split; [done|]. pose proof (good_held s4 s5 N5 ∅ Hg5 Hq5) as Hh5. split; [done|]. split.
  { rewrite (qt_map_file _ _ Hq5). apply (map_only_quiet s4 s5); [|done]. split; [done|]. split; [|by exists a, i].
    change (dirs s2a = ∅). by rewrite (qt_dirs _ _ Hq3), (sy_dirs _ _ _ Hst), (qt_dirs _ _ Hq1), (bl_dirs _ Hbl). }
  split; [unfold allocated_at in *; rewrite Hm5; change (free_map s4) with (free_map s2a); by rewrite Em3, Hm2|].
  split; [by rewrite (qt_size _ _ Hq5)|]. split.
  { rewrite (qt_lock _ _ Hq5). change (lock_filesys s2a = lock_filesys s). by rewrite (qt_lock _ _ Hq3), (sy_lock _ _ _ Hst), (qt_lock _ _ Hq1). }
  destruct (same_shape_lookup N1 N5 FREE_MAP_SECTOR _ (proj1 Hms) HN1) as (n & Hn & En & Ez). exists n.
  rewrite new_node_length in Ez by done. split_and!; try done. apply map_eq. intros x. destruct (decide (x = FREE_MAP_SECTOR)) as [->|Hx].
  - by rewrite lookup_singleton_eq.
  - rewrite (proj2 Hms x Hx), EN. by rewrite !lookup_singleton_ne.
Qed.

(** Everything is closed. *)
Record shut s (N : gmap Z node) s' : Prop := Shut {
  sh_held : held s' N ∅;
  sh_map_file : free_map_file s' = NULL;
  sh_files : files s' = ∅;
  sh_dirs : dirs s' = ∅;
  sh_map : free_map s' = free_map s;
  sh_size : disk_size s' = disk_size s;
  sh_lock : lock_filesys s' = lock_filesys s
}.

Lemma free_map_close_ok s N : held s N ∅ -> map_only s (free_map_file s) ->
  exists s', free_map_close s = Ok (tt, graft (free_map_file s) (free_map s) s') /\ shut s N s'.
Proof.
  intros Hh (Hfn & Hd & a & i & Hf & Hi & Es & Hrm). set (f := free_map_file s) in *. set (s0 := set_free_map_file NULL s).
  pose proof (held_stale s N ∅ Hh) as Hh0. fold s0 in Hh0.
  assert (s = graft f (free_map s) s0) as Egr by (rewrite <- (graft_self s) at 1; done).
  assert (files s0 !! f = Some (File a 0 false)) as Hf0 by (change (files s0) with (files s); rewrite Hf; apply lookup_singleton_eq).
  assert (user_file s0 f (File a 0 false) i) as Hu.
  { split_and!; try done. intros g Hg. change (files s0) with (files s) in Hg. change (free_map_file s0) with NULL in Hg.
    rewrite Hf, lookup_singleton_ne in Hg by done. done. }
  destruct (file_close_held s0 N ∅ f (File a 0 false) i Hh0 ltac:(congruence) Hu) as (s1 & N1 & E & Hh1 & Ef & Ed & Hmv & Hsub & Hcl).
  destruct (closed_kept s0 N i s1 N1 Hcl Hrm) as [-> Em]. exists s1. split.
  - unfold free_map_close. rewrite bind_get. fold f. rewrite Egr at 1. apply run_grafted; [|done].
    apply (agnostic_file_close f (File a 0 false)); try done. cbn [finode]. intros j Hj. change (inodes s0) with (inodes s) in Hj.
    rewrite Hi in Hj. by injection Hj as <-.
  - split; try done.
    + apply Hmv.
    + rewrite Ef. change (files s0) with (files s). rewrite Hf. apply delete_singleton_eq.
    + rewrite Ed. exact Hd.
    + apply Hmv.
    + apply Hmv.
Qed.

(** ** The mounted file system *)

Definition free_set s : gset Z := filter (fun x => bit (free_map s) x = false) (run 0 (disk_size s)).

Lemma free_set_ok s : Filesys.free_ok s (free_set s).
Proof. intros x. unfold free_set. rewrite elem_of_filter, elem_of_run. split; intros [A B]; (split; [lia|done]) || (split; [done|lia]). Qed.

Lemma same_bits_join b b' m : same_bits b m -> same_bits b' m -> same_bits b b'.
Proof. intros (W & C & B) (W' & C' & B'). split_and!; [done|congruence|]. intros x Hx. rewrite B, B' by lia. done. Qed.

Lemma mounted_repr s N s' nms n b : mounted s N s' -> N !! FREE_MAP_SECTOR = Some n -> contents n = words_bytes (bits b) ->
  same_bits b (free_map s) -> root_ok N nms -> view_ok (View nms (user_nodes N) ∅ (free_set s')) ->
  repr_at ∅ false (set_lock_filesys false s') N (View nms (user_nodes N) ∅ (free_set s')).
Proof.
  intros [Hh (f & a & i & Hmf & Hfn & Hf & Hi & Es) Hd Hin Hsz Hsb] Hn Hc Hsb0 Hro Hv.
  split; try done.
  - split; [by apply held_lock|by cbn; rewrite Hmf|]. intros d x j. cbn. by rewrite Hd.
  - intros _. exists n, b. split_and!; try done. exact (same_bits_join _ _ _ Hsb0 Hsb).
  - cbn. unfold handles_of. cbn. rewrite Hf, Hmf, delete_singleton_eq. by rewrite omap_empty.
  - intros c j Hj. destruct (Hin c j Hj) as [E1 ->]. symmetry. apply bool_decide_eq_false. rewrite E1. tauto.
  - apply free_set_ok.
Qed.

(** ** Formatting *)

(** A disk with an empty root directory; [n0] and [n1] are the files of the free map and of the root. *)
Record formatted s s' (N : gmap Z node) (n0 n1 : node) : Prop := Formatted {
  fm_nodes : N = {[ROOT_DIR_SECTOR := n1; FREE_MAP_SECTOR := n0]};
  fm_map_size : zlen (contents n0) = byte_cnt (disk_size s);
  fm_root : contents n1 = replicate 320 0;
  fm_stored : exists b, contents n0 = words_bytes (bits b) /\ same_bits b (free_map s');
  fm_used x : 0 <= x < disk_size s ->
    bit (free_map s') x = true <-> x ∈ sectors FREE_MAP_SECTOR n0 \/ x ∈ sectors ROOT_DIR_SECTOR n1
}.

Lemma root_reserved s s' N len st0 : blank s -> 2 <= disk_size s -> fresh_map s -> map_created s len st0 s' N ->
  reserved s' N ROOT_DIR_SECTOR.
Proof.
  intros Hbl Hsz (Hw & Hc & Hbits) (_ & _ & (Hst & Hfit & Hfree & Hmarks) & Es & _ & n & -> & En & Ez).
  assert (bit (free_map s) ROOT_DIR_SECTOR = true) as Hbit by (apply Hbits; unfold ROOT_DIR_SECTOR; [lia|by right]).
  split; [unfold ROOT_DIR_SECTOR; lia|]. split; [apply Hmarks; [unfold ROOT_DIR_SECTOR; lia|by left]|].
  intros i m [<- <-]%lookup_singleton_Some. unfold owns. rewrite En, Ez. intros [?|Hin]; [done|]. rewrite (Hfree _ Hin) in Hbit. done.
Qed.

Lemma root_created s s4 s5 N4 N5 st0 : blank s -> 2 <= disk_size s -> fresh_map s ->
  map_created s (byte_cnt (disk_size s)) st0 s4 N4 -> free_map_file s5 = free_map_file s4 ->
  created s4 N4 ROOT_DIR_SECTOR 320 s5 N5 -> exists n0 n1, formatted s s5 N5 n0 n1.
Proof.
  intros Hbl Hsz (Hw & Hc & Hbits) (_ & (Hfn & _) & (_ & _ & _ & Hmarks) & Es & _ & n & -> & En & Ez) Hmf.
  intros (st1 & N1 & [Hsh Hoth] & -> & (_ & _ & _ & Hmarks1) & Hsync).
  destruct (same_shape_lookup _ _ FREE_MAP_SECTOR _ Hsh ltac:(apply lookup_singleton_eq)) as (n0 & Hn0 & En0 & Ez0).
  assert (N1 = {[FREE_MAP_SECTOR := n0]}) as ->.
  { apply map_eq. intros x. destruct (decide (x = FREE_MAP_SECTOR)) as [->|Hx]; [by rewrite lookup_singleton_eq|].
    rewrite (Hoth x Hx). by rewrite !lookup_singleton_ne. }
  destruct Hsync as (m & b & Hm & Hcb & Hsb); [congruence|]. rewrite lookup_insert_ne, Hn0 in Hm by done. injection Hm as <-.
  exists n0, (new_node st1 320). split; [done|congruence|done|eauto|]. intros x Hx.
  rewrite Hmarks1, Hmarks, Hbits, !elem_of_sectors by lia. unfold owns. rewrite En0, Ez0, En, Ez, new_node_length by lia. cbn [new_node nstart]. tauto.
Qed.

Lemma do_format_ok s : blank s -> 2 <= disk_size s -> fresh_map s ->
  do_format s = Panic \/
  exists p b s' s5 N n0 n1, do_format s = Ok (tt, graft p b s') /\ bitmap_wf b /\ bit_cnt b = disk_size s' /\ shut s5 N s' /\
    disk_size s' = disk_size s /\ formatted s s' N n0 n1.
Proof.
  intros Hbl Hsz Hfm. unfold do_format. destruct (free_map_create_ok s Hbl Hsz Hfm) as [E|(st0 & s4 & N4 & E4 & Hmc)]; [by left; unfold bind; rewrite E|].
  crun E4. pose proof Hmc as (Hh4 & Hmo & _ & Hsz4 & _ & _).
  destruct (inode_create_ok s4 N4 _ _ ROOT_DIR_SECTOR 320 Hh4) as (ok & s5 & N5 & E5 & Hg5 & Hq5 & Hcr);
    [by apply (root_reserved s s4 N4 (byte_cnt (disk_size s)) st0)|lia|].
  change (dir_create ROOT_DIR_SECTOR 16) with (inode_create ROOT_DIR_SECTOR 320). crun E5. destruct ok; cbn [negb]; [right|by left].
  destruct (root_created s s4 s5 N4 N5 st0 Hbl Hsz Hfm Hmc (qt_map_file _ _ Hq5) Hcr) as (n0 & n1 & Hf).
  pose proof (good_held s4 s5 N5 ∅ Hg5 Hq5) as Hh5. destruct (map_bound s5 N5 _ _ (gd_inv _ _ _ _ Hh5)) as (Hw & Hc & _).
  destruct (free_map_close_ok s5 N5 Hh5) as (s6 & E6 & Hsh); [rewrite (qt_map_file _ _ Hq5); by apply (map_only_quiet s4)|].
  exists (free_map_file s5), (free_map s5), s6, s5, N5, n0, n1. split_and!; try done.
  - by rewrite (sh_size _ _ _ Hsh).
  - by rewrite (sh_size _ _ _ Hsh), (qt_size _ _ Hq5).
  - destruct Hf as [F1 F2 F3 F4 F5]. by split; rewrite ?(sh_map _ _ _ Hsh).
Qed.

Lemma empty_root n1 : contents n1 = replicate 320 0 -> forall N : gmap Z node, N !! ROOT_DIR_SECTOR = Some n1 -> root_ok N ∅.
Proof.
  intros Hc N HN. exists n1, (replicate 16 (replicate 20 0)). split_and!; [done|by rewrite Hc| |done|done].
  split; [apply Forall_replicate; split; [done|by apply Forall_replicate]|by apply Forall_replicate|constructor].
Qed.

Lemma empty_view X : view_ok (View ∅ ∅ ∅ X).
Proof. by split. Qed.

(** [filesys_init] of a disk to be formatted. *)
Lemma format_ok s garbage : blank s -> 2 <= disk_size s -> storage (disk_size s) garbage ->
  filesys_init garbage true s = Panic \/
  exists s' N n0 n1, filesys_init garbage true s = Ok (tt, s') /\ disk_size s' = disk_size s /\
    N = {[ROOT_DIR_SECTOR := n1; FREE_MAP_SECTOR := n0]} /\ zlen (contents n0) = byte_cnt (disk_size s) /\ zlen (contents n1) = 320 /\
    repr_at ∅ false s' N (View ∅ ∅ ∅ (run 0 (disk_size s) ∖ (sectors FREE_MAP_SECTOR n0 ∪ sectors ROOT_DIR_SECTOR n1))).
Proof.
  intros Hbl Hsz Hgar. unfold filesys_init, inode_init. rewrite bind_modify.
  assert (set_open_inodes [] s = s) as -> by (destruct s; by rewrite <- (bl_open _ Hbl)).
  destruct (free_map_init_ok s garbage Hbl Hsz Hgar) as [E|(s1 & E1 & Hbl1 & Hdev & _ & Hfm)]; [left; unfold bind; by rewrite E|].
  crun E1. assert (disk_size s1 = disk_size s) as Hsz1 by (unfold disk_size; by rewrite Hdev).
  destruct (do_format_ok s1 Hbl1 ltac:(lia) Hfm) as [E|(p & b & s2 & s5 & N & n0 & n1 & E2 & Hwb & Hcb & Hsh & Hsz2 & Hf)];
    [left; unfold bind; by rewrite E|]. crun E2. destruct Hf as [HN Hz0 Hc1 (b0 & Hc0 & Hsb) Hused].
  assert (N !! FREE_MAP_SECTOR = Some n0) as HN0 by by rewrite HN.
  destruct (free_map_open_ok s2 N n0 b0 p b (sh_held _ _ _ Hsh) (sh_map_file _ _ _ Hsh) (sh_files _ _ _ Hsh) (sh_dirs _ _ _ Hsh))
    as [E|(s3 & E3 & Hmt)]; [done..|lia| |]; [left; unfold bind; by rewrite E|right]. crun E3.
  assert (disk_size s3 = disk_size s) as Hsz3 by (rewrite (mt_size _ _ _ Hmt); congruence).
  assert (free_set s3 = run 0 (disk_size s) ∖ (sectors FREE_MAP_SECTOR n0 ∪ sectors ROOT_DIR_SECTOR n1)) as Hfs.
  { apply set_eq. intros x. unfold free_set. rewrite Hsz3, elem_of_filter, elem_of_difference, elem_of_union, elem_of_run.
    destruct (mt_map _ _ _ Hmt) as (_ & _ & Hb). destruct (map_bound s2 N _ _ (gd_inv _ _ _ _ (sh_held _ _ _ Hsh))) as (_ & Hc2 & _).
    split; intros [A B].
    - split; [done|]. rewrite <- Hused, <- Hb by lia. by rewrite A.
    - split; [|done]. rewrite <- Hused, <- Hb in B by lia. by apply not_true_iff_false in B. }
  exists (set_lock_filesys false s3), N, n0, n1. split; [done|]. split_and!; try done; [congruence|by rewrite Hc1|]. rewrite <- Hfs.
  assert (user_nodes N = ∅) as HU by by rewrite HN. rewrite <- HU at 1. apply (mounted_repr s2 N s3 ∅ n0 b0 Hmt HN0 Hc0 Hsb).
  - apply (empty_root n1 Hc1). by rewrite HN.
  - rewrite HU. apply empty_view.
Qed.

(** ** Restarting on a disk in use *)

Lemma same_free s s' X : same_bits (free_map s') (free_map s) -> bit_cnt (free_map s) = disk_size s -> disk_size s' = disk_size s ->
  free_ok s X -> free_set s' = X.
Proof.
  intros (_ & _ & Hb) Hc Hsz HX. apply set_eq. intros x. rewrite (HX x). unfold free_set. rewrite elem_of_filter, elem_of_run, Hsz.
  split; intros [A B]; [rewrite <- Hb by lia|rewrite Hb by lia]; (split; [lia|done]) || (split; [done|lia]).
Qed.

Lemma remount_ok s N v r garbage : repr_at ∅ false s N v -> 2 <= disk_size s -> blank r -> device r = device s ->
  storage (disk_size s) garbage ->
  filesys_init garbage false r = Panic \/
  exists r', filesys_init garbage false r = Ok (tt, r') /\ repr_at ∅ false r' N (View (names v) (nodes v) ∅ (avail v)).
Proof.
  intros Hr Hsz Hbl Hdev Hgar. assert (disk_size r = disk_size s) as Hszr by (unfold disk_size; by rewrite Hdev).
  unfold filesys_init, inode_init. rewrite bind_modify. assert (set_open_inodes [] r = r) as -> by (destruct r; by rewrite <- (bl_open _ Hbl)).
  destruct (free_map_init_ok r garbage Hbl ltac:(lia) ltac:(by rewrite Hszr)) as [E|(r1 & E1 & Hbl1 & Hdev1 & _ & (Hw1 & Hc1 & _))];
    [left; unfold bind; by rewrite E|]. crun E1. rewrite bind_ret.
  pose proof (gd_inv _ _ _ _ (bs_held _ _ _ (rp_base _ _ _ _ _ Hr))) as Hinv. destruct (map_bound s N _ _ Hinv) as (Hw & Hc & _).
  destruct (rp_sync _ _ _ _ _ Hr (bs_map _ _ _ (rp_base _ _ _ _ _ Hr))) as (n & b & Hn & Hcb & Hsb).
  set (r2 := graft NULL (free_map s) r1).
  assert (r1 = graft NULL (free_map r1) r2) as Er by (rewrite <- (graft_self r1) at 1; by rewrite (bl_map_file _ Hbl1)).
  assert (disk_size r2 = disk_size s) as Hsz2 by (change (bd_size (device r1) = bd_size (device s)); congruence).
  assert (held r2 N ∅) as Hh2.
  { apply blank_layout; [by destruct Hbl1|]. rewrite Hsz2. change (disk r2) with (disk r1). unfold disk. rewrite Hdev1, Hdev. apply Hinv. }
  rewrite Er. destruct (free_map_open_ok r2 N n b NULL (free_map r1) Hh2 eq_refl (bl_files _ Hbl1) (bl_dirs _ Hbl1) Hn Hcb Hsb Hw1)
    as [E|(r3 & E3 & Hmt)]; [done|lia| |]; [left; unfold bind; by rewrite E|right]. crun E3.
  exists (set_lock_filesys false r3). split; [done|].
  rewrite <- (same_free s r3 (avail v) (mt_map _ _ _ Hmt) Hc); [|by rewrite (mt_size _ _ _ Hmt)|apply Hr].
  rewrite (rp_nodes _ _ _ _ _ Hr). apply (mounted_repr r2 N r3 (names v) n b Hmt Hn Hcb Hsb (rp_root _ _ _ _ _ Hr)).
  destruct (rp_view _ _ _ _ _ Hr) as [V1 V2 _]. rewrite (rp_nodes _ _ _ _ _ Hr) in V1. by split.
Qed.

End Boot2.
