(* ===== verification/Stdio.v ===== *)
(** * Formatted output (lib/stdio.c)

    [__vprintf] is parameterised, as in the source, by the function that takes
    each character.  A format is the list of its characters: in the kernel they
    are all literals.  Strings that [%s] prints are in memory (CString.v).  The
    variable arguments are the 32-bit words that the caller pushed; reading
    past them, a step past the end of the format, a write outside of the digit
    buffer and signed overflow are faults. *)

From S2P Require Import Prelude CString.
Local Open Scope Z_scope.

(** ** Conversions *)

Definition MINUS : Z := 1.
Definition PLUS : Z := 2.
Definition SPACE : Z := 4.
Definition POUND : Z := 8.
Definition ZERO : Z := 16.
Definition GROUP : Z := 32.

Inductive arg_type := CHAR | SHORT | INT | INTMAX | LONG | LONGLONG | PTRDIFFT | SIZET.

Record printf_conversion := Conversion { flags : Z; width : Z; precision : Z; type : arg_type }.

Record integer_base := Base { base : Z; digits : list Z; x_char : Z; group : Z }.

Definition decimal : list Z := [48; 49; 50; 51; 52; 53; 54; 55; 56; 57].
Definition base_d : integer_base := Base 10 decimal 0 3.
Definition base_o : integer_base := Base 8 [48; 49; 50; 51; 52; 53; 54; 55] 0 3.
Definition base_x : integer_base := Base 16 (decimal ++ [97; 98; 99; 100; 101; 102]) 120 4.
Definition base_X : integer_base := Base 16 (decimal ++ [65; 66; 67; 68; 69; 70]) 88 4.

Definition has (f flag : Z) : bool := negb (Z.land f flag =? 0).

(** Signed arithmetic that does not fit in [int] or [intmax_t] is undefined. *)
Definition int_res (z : Z) : res Z := if i32 z =? z then Ok z else Fault.
Definition intmax_res (z : Z) : res Z := if i64 z =? z then Ok z else Fault.

(** [va_arg] for arguments of one and of two words. *)
Definition va_word (args : list Z) : res (Z * list Z) :=
  match args with w :: args => Ok (w, args) | [] => Fault end.
Definition va_long (args : list Z) : res (Z * list Z) :=
  match args with lo :: hi :: args => Ok (u32 lo + 2 ^ 32 * u32 hi, args) | _ => Fault end.

(** ** Parsing *)

Fixpoint parse_flags (format : list Z) (f : Z) : list Z * Z :=
  match format with
  | c :: rest =>
      if c =? 45 then parse_flags rest (Z.lor f MINUS)
      else if c =? 43 then parse_flags rest (Z.lor f PLUS)
      else if c =? 32 then parse_flags rest (Z.lor f SPACE)
      else if c =? 35 then parse_flags rest (Z.lor f POUND)
      else if c =? 48 then parse_flags rest (Z.lor f ZERO)
      else if c =? 39 then parse_flags rest (Z.lor f GROUP)
      else (format, f)
  | [] => ([], f)
  end.

Fixpoint parse_digits (format : list Z) (v : Z) : res (list Z * Z) :=
  match format with
  | c :: rest =>
      if isdigit c then
        v <-! int_res (v * 10);;
        v <-! int_res (v + c);;
        v <-! int_res (v - 48);;
        parse_digits rest v
      else Ok (format, v)
  | [] => Ok ([], v)
  end.

(** The character at [format], the terminator at its end. *)
Definition peek (format : list Z) : Z := hd 0 format.

Definition parse_width (format args : list Z) (f : Z) : res (list Z * Z * Z * list Z) :=
  r <-! (if peek format =? 42 then
           r <-! va_word args;; Ok (tail format, i32 (fst r), snd r)
         else r <-! parse_digits format 0;; Ok (fst r, snd r, args));;
  let '(format, w, args) := r in
  if w <? 0 then w <-! int_res (- w);; Ok (format, w, Z.lor f MINUS, args) else Ok (format, w, f, args).

Definition parse_precision (format args : list Z) : res (list Z * Z * list Z) :=
  if peek format =? 46 then
    let format := tail format in
    r <-! (if peek format =? 42 then
             r <-! va_word args;; Ok (tail format, i32 (fst r), snd r)
           else r <-! parse_digits format 0;; Ok (fst r, snd r, args));;
    let '(format, p, args) := r in
    Ok (format, if p <? 0 then -1 else p, args)
  else Ok (format, -1, args).

Definition parse_type (format : list Z) : list Z * arg_type :=
  let next := tail format in
  if peek format =? 104 then if peek next =? 104 then (tail next, CHAR) else (next, SHORT)
  else if peek format =? 106 then (next, INTMAX)
  else if peek format =? 108 then if peek next =? 108 then (tail next, LONGLONG) else (next, LONG)
  else if peek format =? 116 then (next, PTRDIFFT)
  else if peek format =? 122 then (next, SIZET)
  else (format, INT).

Definition parse_conversion (format args : list Z) : res (list Z * printf_conversion * list Z) :=
  let '(format, f) := parse_flags format 0 in
  let f := if has f MINUS then Z.ldiff f ZERO else f in
  let f := if has f PLUS then Z.ldiff f SPACE else f in
  r <-! parse_width format args f;;
  let '(format, w, f, args) := r in
  r <-! parse_precision format args;;
  let '(format, p, args) := r in
  let f := if 0 <=? p then Z.ldiff f ZERO else f in
  let '(format, t) := parse_type format in
  Ok (format, Conversion f w p t, args).

(** ** Arguments *)

Definition signed_arg (t : arg_type) (args : list Z) : res (Z * list Z) :=
  match t with
  | INTMAX | LONGLONG => r <-! va_long args;; Ok (i64 (fst r), snd r)
  | CHAR => r <-! va_word args;; Ok (i8 (fst r), snd r)
  | SHORT => r <-! va_word args;; Ok (swrap 16 (fst r), snd r)
  | INT | LONG | PTRDIFFT => r <-! va_word args;; Ok (i32 (fst r), snd r)
  | SIZET =>
      r <-! va_word args;;
      let value := u32 (fst r) in
      Ok (if value >? 0xffffffff / 2 then value - 0xffffffff - 1 else value, snd r)
  end.

Definition unsigned_arg (t : arg_type) (args : list Z) : res (Z * list Z) :=
  match t with
  | INTMAX | LONGLONG => r <-! va_long args;; Ok (u64 (fst r), snd r)
  | CHAR => r <-! va_word args;; Ok (u8 (fst r), snd r)
  | SHORT => r <-! va_word args;; Ok (u16 (fst r), snd r)
  | INT | LONG | SIZET => r <-! va_word args;; Ok (u32 (fst r), snd r)
  | PTRDIFFT => r <-! va_word args;; Ok (Z.land (u64 (i32 (fst r))) (Z.lor (Z.shiftl 0x7fffffff 1) 1), snd r)
  end.

(** ** Integers

    [buf] holds the characters stored so far, the last one first. *)

Definition BUF_SIZE : Z := 64.

Definition push (c : Z) (buf : list Z) : res (list Z) :=
  if Z.of_nat (length buf) <? BUF_SIZE then Ok (c :: buf) else Fault.

Fixpoint accumulate (fuel : nat) (b : integer_base) (f value digit_cnt : Z) (buf : list Z) : res (list Z) :=
  if 0 <? value then
    match fuel with
    | O => NoFuel
    | S fuel =>
        buf <-! (if has f GROUP && (0 <? digit_cnt) && (digit_cnt mod group b =? 0) then push 44 buf else Ok buf);;
        d <-! res_of_option (digits b !! Z.to_nat (value mod base b));;
        buf <-! push d buf;;
        accumulate fuel b f (value / base b) (digit_cnt + 1) buf
    end
  else Ok buf.

Fixpoint add_zeros (fuel : nat) (prec : Z) (buf : list Z) : res (list Z) :=
  if (Z.of_nat (length buf) <? prec) && (Z.of_nat (length buf) <? BUF_SIZE - 1) then
    match fuel with
    | O => NoFuel
    | S fuel => buf <-! push 48 buf;; add_zeros fuel prec buf
    end
  else Ok buf.

Definition sign_char (is_signed negative : bool) (f : Z) : Z :=
  if is_signed then
    if has f PLUS then if negative then 45 else 43
    else if has f SPACE then if negative then 45 else 32
    else if negative then 45 else 0
  else 0.

(** The characters of the number, without sign and padding, in the order of output. *)
Definition number_chars (value : Z) (b : integer_base) (c : printf_conversion) : res (list Z) :=
  buf <-! accumulate 64 b (flags c) value 0 [];;
  buf <-! add_zeros 64 (if precision c <? 0 then 1 else precision c) buf;;
  if has (flags c) POUND && (base b =? 8) && (match buf with [] => true | d :: _ => negb (d =? 48) end)
  then push 48 buf else Ok buf.

Section Printf.
Context {S : Type} (output : Z -> M S unit) (mem : S -> memory).

Fixpoint output_dup (ch : Z) (cnt : nat) : M S unit :=
  match cnt with
  | O => ret tt
  | Datatypes.S cnt => output ch;;; output_dup ch cnt
  end.

Fixpoint output_all (l : list Z) : M S unit :=
  match l with
  | [] => ret tt
  | c :: l => output c;;; output_all l
  end.

Definition format_integer (value : Z) (is_signed negative : bool) (b : integer_base) (c : printf_conversion) : M S unit :=
  let sign := sign_char is_signed negative (flags c) in
  let x := if has (flags c) POUND && negb (value =? 0) then x_char b else 0 in
  buf <- lift (number_chars value b c);;
  let pad_cnt := i32 (width c - Z.of_nat (length buf) - (if negb (x =? 0) then 2 else 0) - b2z (negb (sign =? 0))) in
  let pad_cnt := Z.to_nat (if pad_cnt <? 0 then 0 else pad_cnt) in
  (if negb (has (flags c) (Z.lor MINUS ZERO)) then output_dup 32 pad_cnt else ret tt);;;
  (if negb (sign =? 0) then output sign else ret tt);;;
  (if negb (x =? 0) then output 48;;; output x else ret tt);;;
  (if has (flags c) ZERO then output_dup 48 pad_cnt else ret tt);;;
  output_all buf;;;
  (if has (flags c) MINUS then output_dup 32 pad_cnt else ret tt).

(** ** Strings *)

Definition read (p : Z) : M S Z := m <- gets mem;; lift (res_of_option (m !! p)).

(** [char_at i] is [string[i]]. *)
Fixpoint output_chars (char_at : Z -> M S Z) (n : nat) (i : Z) : M S unit :=
  match n with
  | O => ret tt
  | Datatypes.S n => ch <- char_at i;; output ch;;; output_chars char_at n (i + 1)
  end.

Definition format_string (char_at : Z -> M S Z) (length : Z) (c : printf_conversion) : M S unit :=
  (if (width c >? length) && negb (has (flags c) MINUS) then output_dup 32 (Z.to_nat (width c - length)) else ret tt);;;
  output_chars char_at (Z.to_nat length) 0;;;
  (if (width c >? length) && has (flags c) MINUS then output_dup 32 (Z.to_nat (width c - length)) else ret tt).

(** [strnlen] of lib/string.c, for a bound that may be as large as [SIZE_MAX]. *)
Fixpoint strnlen (fuel : nat) (char_at : Z -> M S Z) (maxlen length : Z) : M S Z :=
  if length <? maxlen then
    match fuel with
    | O => nofuel
    | Datatypes.S fuel =>
        ch <- char_at length;;
        if ch =? 0 then ret length else strnlen fuel char_at maxlen (length + 1)
    end
  else ret length.

Definition null_string : list Z := [40; 110; 117; 108; 108; 41; 0].

(** The characters of the string at [p]. *)
Definition string_at (p : Z) (i : Z) : M S Z :=
  if p =? NULL then lift (res_of_option (null_string !! Z.to_nat i)) else read (p + i).

(** ** Formats *)

(** [<<no %%%c in kernel>>] and [<<no %%%c conversion>>]. *)
Definition no_in_kernel : list Z :=
  [60; 60; 110; 111; 32; 37; 37; 37; 99; 32; 105; 110; 32; 107; 101; 114; 110; 101; 108; 62; 62].
Definition no_conversion : list Z :=
  [60; 60; 110; 111; 32; 37; 37; 37; 99; 32; 99; 111; 110; 118; 101; 114; 115; 105; 111; 110; 62; 62].

Definition one_of (c : Z) (l : list Z) : bool := bool_decide (c ∈ l).

(** One conversion; [printf] is the recursive call, for the messages. *)
Definition convert (printf : list Z -> list Z -> M S unit) (ch : Z) (c : printf_conversion) (args : list Z) : M S (list Z) :=
  if one_of ch [100; 105] then
    r <- lift (signed_arg (type c) args);;
    let value := fst r in
    a <- lift (if value <? 0 then intmax_res (- value) else Ok value);;
    format_integer (u64 a) true (value <? 0) base_d c;;;
    ret (snd r)
  else if one_of ch [111; 117; 120; 88] then
    r <- lift (unsigned_arg (type c) args);;
    format_integer (fst r) false false
      (if ch =? 111 then base_o else if ch =? 117 then base_d else if ch =? 120 then base_x else base_X) c;;;
    ret (snd r)
  else if ch =? 99 then
    r <- lift (va_word args);;
    format_string (fun _ => ret (u8 (fst r))) 1 c;;;
    ret (snd r)
  else if ch =? 115 then
    r <- lift (va_word args);;
    let s := u32 (fst r) in
    m <- gets mem;;
    len <- strnlen (Datatypes.S (Datatypes.S (size m + 7))) (string_at s) (u32 (precision c)) 0;;
    format_string (string_at s) (i32 len) c;;;
    ret (snd r)
  else if ch =? 112 then
    r <- lift (va_word args);;
    format_integer (u32 (fst r)) false false base_x (Conversion POUND (width c) (precision c) (type c));;;
    ret (snd r)
  else
    printf (if one_of ch [102; 101; 69; 103; 71; 110] then no_in_kernel else no_conversion) [u32 (i8 ch)];;;
    ret args.

Fixpoint __vprintf (fuel : nat) (format args : list Z) : M S unit :=
  match fuel with
  | O => nofuel
  | Datatypes.S fuel =>
      match format with
      | [] => ret tt
      | ch :: format =>
          if negb (ch =? 37) then output ch;;; __vprintf fuel format args
          else if peek format =? 37 then output 37;;; __vprintf fuel (tail format) args
          else
            r <- lift (parse_conversion format args);;
            let '(format, c, args) := r in
            args <- convert (__vprintf fuel) (peek format) c args;;
            match format with
            | [] => fault
            | _ :: format => __vprintf fuel format args
            end
      end
  end.

(** Enough fuel for a format and for the message inside it. *)
Definition vprintf_fuel (format : list Z) : nat := length format + 32.

End Printf.

(** ** Into a buffer *)

Record vsnprintf_aux := Aux { aux_p : Z; aux_length : Z; aux_max_length : Z }.

Definition vsnprintf_helper (ch : Z) : M (memory * vsnprintf_aux) unit :=
  r <- get;;
  let '(m, aux) := r in
  l <- lift (int_res (aux_length aux + 1));;
  if aux_length aux <? aux_max_length aux then
    r <- lift (store (aux_p aux) ch m);;
    put (snd r, Aux (aux_p aux + 1) l (aux_max_length aux))
  else put (m, Aux (aux_p aux) l (aux_max_length aux)).

Definition vsnprintf (buffer buf_size : Z) (format args : list Z) : M memory Z :=
  m <- get;;
  r <- lift (__vprintf vsnprintf_helper fst (vprintf_fuel format) format args
               (m, Aux buffer 0 (i32 (if 0 <? buf_size then buf_size - 1 else 0))));;
  let '(_, (m, aux)) := r in
  put m;;;
  (if 0 <? buf_size then store (aux_p aux) 0 else ret tt);;;
  ret (aux_length aux).

(** [snprintf] passes its arguments on. *)
Definition snprintf (buffer buf_size : Z) (format args : list Z) : M memory Z := vsnprintf buffer buf_size format args.

(** The characters that [__vprintf] hands out, collected. *)
Definition collect (ch : Z) : M (memory * list Z) unit := modify (fun r => (fst r, snd r ++ [ch])).

Definition text_of (m : memory) (format args : list Z) : res (list Z) :=
  r <-! __vprintf collect fst (vprintf_fuel format) format args (m, []);; Ok (snd (snd r)).
