(* ===== verification/StdioSpec.v ===== *)
(** * Formatted output: what it prints

    A format is described by directives; [text] is what each of them stands
    for.  [printf_correct] shows that [__vprintf] on the printed form of the
    directives produces their texts, [vsnprintf_correct] that [vsnprintf]
    stores what fits and returns the full length. *)

From S2P Require Import Prelude CString Stdio.
Local Open Scope Z_scope.

(** ** Numbers *)

(** The digits of [v], the least significant first. *)
Fixpoint lsd (n : nat) (b v : Z) : list Z :=
  match n with
  | O => []
  | S n => if 0 <? v then v mod b :: lsd n b (v / b) else []
  end.

Fixpoint value_of (b : Z) (l : list Z) : Z :=
  match l with
  | [] => 0
  | d :: l => d + b * value_of b l
  end.

Lemma lsd_value n b v : 2 <= b -> 0 <= v < b ^ Z.of_nat n -> value_of b (lsd n b v) = v.
Proof.
  intros Hb. revert v. induction n as [|n IH]; intros v Hv; [cbn in *; lia|].
  cbn [lsd]. destruct (Z.ltb_spec 0 v); cbn [value_of]; [|lia]. rewrite IH; [pose proof (Z.div_mod v b); lia|].
  split; [apply Z.div_pos; lia|]. apply Z.div_lt_upper_bound; [lia|]. rewrite Nat2Z.inj_succ, Z.pow_succ_r in Hv by lia. lia.
Qed.

Lemma lsd_digits n b v : 2 <= b -> Forall (fun d => 0 <= d < b) (lsd n b v).
Proof.
  intros Hb. revert v. induction n as [|n IH]; intros v; cbn [lsd]; [done|]. destruct (0 <? v); constructor; [apply Z.mod_pos_bound; lia|apply IH].
Qed.

Lemma lsd_length n b v : (length (lsd n b v) <= n)%nat.
Proof. revert v. induction n as [|n IH]; intros v; cbn [lsd]; [done|]. destruct (0 <? v); cbn [length]; [specialize (IH (v / b)); lia|lia]. Qed.

(** More digits than needed change nothing. *)
Lemma lsd_more n m b v : 2 <= b -> 0 <= v < b ^ Z.of_nat n -> (n <= m)%nat -> lsd m b v = lsd n b v.
Proof.
  intros Hb. revert m v. induction n as [|n IH]; intros m v Hv Hm.
  - assert (v = 0) as -> by (cbn in Hv; lia). by destruct m.
  - destruct m as [|m]; [lia|]. cbn [lsd]. destruct (Z.ltb_spec 0 v); [|done]. f_equal. apply IH; [|lia].
    split; [apply Z.div_pos; lia|]. apply Z.div_lt_upper_bound; [lia|]. rewrite Nat2Z.inj_succ, Z.pow_succ_r in Hv by lia. lia.
Qed.

(** Commas after every [g] digits; [k] digits come before. *)
Fixpoint punctuate (g k : Z) (l : list Z) : list Z :=
  match l with
  | [] => []
  | d :: l => (if (0 <? k) && (k mod g =? 0) then [44] else []) ++ d :: punctuate g (k + 1) l
  end.

Lemma punctuate_digits g k l : 44 ∉ l -> List.filter (fun c => negb (c =? 44)) (punctuate g k l) = l.
Proof.
  revert k. induction l as [|d l IH]; intros k Hl; cbn [punctuate]; [done|]. apply not_elem_of_cons in Hl as [Hd Hl].
  rewrite List.filter_app. cbn [List.filter]. rewrite (proj2 (Z.eqb_neq d 44)) by congruence. cbn [negb]. rewrite IH by done.
  by destruct ((0 <? k) && (k mod g =? 0)).
Qed.

(** How a number is printed. *)
Record style := Style { minus : bool; plus : bool; space : bool; pound : bool; zero : bool; grouped : bool; field : Z; prec : Z }.

Definition style_of (c : printf_conversion) : style :=
  Style (has (flags c) MINUS) (has (flags c) PLUS) (has (flags c) SPACE) (has (flags c) POUND) (has (flags c) ZERO)
    (has (flags c) GROUP) (width c) (precision c).

Definition digit_char (b : integer_base) (d : Z) : Z := default 0 (digits b !! Z.to_nat d).

Definition plain_digits (b : integer_base) (v : Z) : list Z := digit_char b <$> lsd 22 (base b) v.

(** The digits, the least significant first: separated, filled up with zeros to the precision
    (as far as the buffer goes), and with a leading zero for [%#o]. *)
Definition digits_text (st : style) (b : integer_base) (v : Z) : list Z :=
  if grouped st then punctuate (group b) 0 (plain_digits b v) else plain_digits b v.

Definition filled (st : style) (l : list Z) : list Z :=
  l ++ replicate (Z.to_nat (Z.min (if prec st <? 0 then 1 else prec st) 63) - length l) 48.

Definition octal_mark (st : style) (b : integer_base) (l : list Z) : list Z :=
  if pound st && (base b =? 8) && negb (bool_decide (last l = Some 48)) then l ++ [48] else l.

Definition number_text (st : style) (b : integer_base) (v : Z) : list Z :=
  reverse (octal_mark st b (filled st (digits_text st b v))).

Definition known_base (b : integer_base) : Prop := b = base_d \/ b = base_o \/ b = base_x \/ b = base_X.

Lemma known_base_ok b : known_base b -> 8 <= base b /\ Z.of_nat (length (digits b)) = base b.
Proof. by intros [->|[->|[->| ->]]]. Qed.

Lemma push_ok c buf : (length buf < 64)%nat -> push c buf = Ok (c :: buf).
Proof. intros. unfold push, BUF_SIZE. by rewrite (proj2 (Z.ltb_lt _ _)) by lia. Qed.

Lemma digit_char_ok b d : known_base b -> 0 <= d < base b -> res_of_option (digits b !! Z.to_nat d) = Ok (digit_char b d).
Proof.
  intros Hb Hd. destruct (known_base_ok b Hb) as [_ Hl]. unfold digit_char.
  destruct (lookup_lt_is_Some_2 (digits b) (Z.to_nat d)) as [x Hx]; [lia|]. by rewrite Hx.
Qed.

Definition separated (f : Z) (g k : Z) (l : list Z) : list Z := if has f GROUP then punctuate g k l else l.

Lemma separated_cons f g k d l : separated f g k (d :: l) =
  (if has f GROUP && (0 <? k) && (k mod g =? 0) then [44] else []) ++ d :: separated f g (k + 1) l.
Proof. unfold separated. by destruct (has f GROUP). Qed.

Lemma accumulate_ok b f n : known_base b -> forall fuel v k buf, (n <= fuel)%nat -> 0 <= v < base b ^ Z.of_nat n ->
  (length buf + 2 * n <= 64)%nat ->
  accumulate fuel b f v k buf = Ok (reverse (separated f (group b) k (digit_char b <$> lsd n (base b) v)) ++ buf).
Proof.
  intros Hb. destruct (known_base_ok b Hb) as [Hb8 _]. induction n as [|n IH]; intros fuel v k buf Hf Hv Hlen.
  - assert (v = 0) as -> by (cbn in Hv; lia). unfold separated. by destruct fuel; destruct (has f GROUP).
  - destruct fuel as [|fuel]; [lia|]. cbn [accumulate lsd]. destruct (Z.ltb_spec 0 v) as [Hpos|_]; [|unfold separated; by destruct (has f GROUP)].
    rewrite fmap_cons, separated_cons. set (t := has f GROUP && (0 <? k) && (k mod group b =? 0)).
    assert ((if t then push 44 buf else Ok buf) = Ok ((if t then [44] else []) ++ buf)) as ->
      by (destruct t; [rewrite push_ok by lia|]; done). cbn [res_bind].
    rewrite digit_char_ok by (done || apply Z.mod_pos_bound; lia). cbn [res_bind].
    assert (length ((if t then [44%Z] else []) ++ buf) <= S (length buf))%nat as Hl by (destruct t; cbn; lia).
    rewrite push_ok by lia. cbn [res_bind]. rewrite IH; [|lia| |cbn [length]; lia].
    + rewrite reverse_app, reverse_cons. rewrite <- !app_assoc. by destruct t.
    + split; [apply Z.div_pos; lia|]. apply Z.div_lt_upper_bound; [lia|]. rewrite Nat2Z.inj_succ, Z.pow_succ_r in Hv by lia. lia.
Qed.

Lemma add_zeros_ok p fuel : forall buf, (64 <= fuel + length buf)%nat -> (length buf <= 63)%nat ->
  add_zeros fuel p buf = Ok (replicate (Z.to_nat (Z.min p 63) - length buf) 48 ++ buf).
Proof.
  induction fuel as [|fuel IH]; intros buf Hf Hl; cbn [add_zeros]; unfold BUF_SIZE; [lia|].
  destruct (Z.ltb_spec (Z.of_nat (length buf)) p); cbn [andb].
  - destruct (Z.ltb_spec (Z.of_nat (length buf)) (64 - 1)).
    + rewrite push_ok by lia. cbn [res_bind]. rewrite IH by (cbn [length]; lia). cbn [length].
      replace (Z.to_nat (Z.min p 63) - length buf)%nat with (S (Z.to_nat (Z.min p 63) - S (length buf))) by lia.
      by rewrite replicate_S_end, <- app_assoc.
    + by replace (Z.to_nat (Z.min p 63) - length buf)%nat with 0%nat by lia.
  - by replace (Z.to_nat (Z.min p 63) - length buf)%nat with 0%nat by lia.
Qed.

Lemma punctuate_length g k l : (length (punctuate g k l) <= 2 * length l)%nat.
Proof. revert k. induction l as [|d l IH]; intros k; cbn [punctuate]; [done|]. rewrite length_app. cbn [length]. specialize (IH (k + 1)). destruct ((0 <? k) && (k mod g =? 0)); cbn; lia. Qed.

Lemma digits_text_length st b v : (length (digits_text st b v) <= 44)%nat.
Proof.
  pose proof (lsd_length 22 (base b) v) as Hl. unfold digits_text, plain_digits. destruct (grouped st).
  - etransitivity; [apply punctuate_length|]. rewrite length_fmap. lia.
  - rewrite length_fmap. lia.
Qed.

Lemma number_chars_ok b v c : known_base b -> 0 <= v < 2 ^ 64 -> number_chars v b c = Ok (number_text (style_of c) b v).
Proof.
  intros Hb Hv. destruct (known_base_ok b Hb) as [Hb8 _]. unfold number_chars.
  rewrite (accumulate_ok b (flags c) 22 Hb) by (cbn [length]; lia || (split; [lia|]; pose proof (Z.pow_le_mono_l 8 (base b) 22 ltac:(lia)); lia)).
  cbn [res_bind]. rewrite app_nil_r. change (separated (flags c) (group b) 0 _) with (digits_text (style_of c) b v).
  pose proof (digits_text_length (style_of c) b v) as Hl.
  rewrite add_zeros_ok by (rewrite length_reverse; lia). cbn [res_bind]. rewrite length_reverse.
  set (n := (Z.to_nat _ - _)%nat). assert (replicate n 48 ++ reverse (digits_text (style_of c) b v) = reverse (filled (style_of c) (digits_text (style_of c) b v))) as ->.
  { unfold filled. by rewrite reverse_app, reverse_replicate. }
  set (l := filled _ _). unfold number_text, octal_mark. fold l. cbn [style_of pound].
  assert ((match reverse l with [] => true | d :: _ => negb (d =? 48) end) = negb (bool_decide (last l = Some 48))) as ->.
  { rewrite <- head_reverse. destruct (reverse l) as [|d r]; [done|]. cbn [head]. case_bool_decide; destruct (Z.eqb_spec d 48); congruence. }
  destruct (_ && _ && _); [|done]. rewrite push_ok; [by rewrite reverse_snoc|]. rewrite length_reverse. subst l. unfold filled.
  rewrite length_app, length_replicate. lia.
Qed.

(** ** What is printed *)

Abbreviation collector := (memory * list Z)%type.

(** With the memory [mm], the code prints [l] and returns [a]. *)
Definition prints {A : Type} (mm : memory) (m : M collector A) (a : A) (l : list Z) : Prop :=
  forall t, m (mm, t) = Ok (a, (mm, t ++ l)).

Section Prints.
Context (mm : memory).

Lemma prints_ret {A : Type} (a : A) : prints mm (ret a) a [].
Proof. intros t. by rewrite app_nil_r. Qed.

Lemma prints_bind {A B : Type} (m : M collector A) (k : A -> M collector B) a b l l' :
  prints mm m a l -> prints mm (k a) b l' -> prints mm (bind m k) b (l ++ l').
Proof. intros Hm Hk t. crun (Hm t). by rewrite Hk, app_assoc. Qed.

Lemma prints_lift {A B : Type} (r : res A) (k : A -> M collector B) a b l : r = Ok a -> prints mm (k a) b l -> prints mm (bind (lift r) k) b l.
Proof. intros -> Hk t. apply Hk. Qed.

Lemma prints_collect ch : prints mm (collect ch) tt [ch].
Proof. done. Qed.

Lemma prints_if (t : bool) (m : M collector unit) l : prints mm m tt l -> prints mm (if t then m else ret tt) tt (if t then l else []).
Proof. destruct t; [done|]. intros _. apply prints_ret. Qed.

Lemma prints_dup ch n : prints mm (output_dup collect ch n) tt (replicate n ch).
Proof. induction n as [|n IH]; [apply prints_ret|]. apply (prints_bind _ _ tt tt [ch]); [apply prints_collect|apply IH]. Qed.

Lemma prints_all l : prints mm (output_all collect l) tt l.
Proof. induction l as [|c l IH]; [apply prints_ret|]. apply (prints_bind _ _ tt tt [c]); [apply prints_collect|apply IH]. Qed.

End Prints.

Ltac prints_chars :=
  first [apply prints_dup|apply prints_collect|refine (prints_bind _ _ _ _ _ [_] [_] _ _); apply prints_collect].

Definition sign_text (st : style) (is_signed negative : bool) : list Z :=
  if is_signed then if negative then [45] else if plus st then [43] else if space st then [32] else [] else [].

Definition prefix_text (st : style) (b : integer_base) (v : Z) : list Z :=
  if pound st && negb (v =? 0) && negb (x_char b =? 0) then [48; x_char b] else [].

(** A number with its sign, its prefix and the padding up to the width of the field. *)
Definition int_text (st : style) (is_signed negative : bool) (b : integer_base) (v : Z) : list Z :=
  let sign := sign_text st is_signed negative in
  let x := prefix_text st b v in
  let n := number_text st b v in
  let pad := Z.to_nat (field st - Z.of_nat (length (sign ++ x ++ n))) in
  (if minus st || zero st then [] else replicate pad 32) ++ sign ++ x ++
  (if zero st then replicate pad 48 else []) ++ n ++ (if minus st then replicate pad 32 else []).

Lemma has_or f a b : has f (Z.lor a b) = has f a || has f b.
Proof.
  unfold has. rewrite Z.land_lor_distr_r. destruct (Z.eqb_spec (Z.land f a) 0) as [->|Ha]; [done|].
  cbn [negb orb]. apply negb_true_iff, Z.eqb_neq. rewrite Z.lor_eq_0_iff. tauto.
Qed.

Lemma sign_char_text c is_signed negative :
  (if negb (sign_char is_signed negative (flags c) =? 0) then [sign_char is_signed negative (flags c)] else []) =
  sign_text (style_of c) is_signed negative.
Proof. unfold sign_char, sign_text. cbn [style_of plus space]. by destruct is_signed, negative, (has (flags c) PLUS), (has (flags c) SPACE). Qed.

Lemma number_text_length st b v : (length (number_text st b v) <= 64)%nat.
Proof.
  unfold number_text, octal_mark, filled. rewrite length_reverse. pose proof (digits_text_length st b v).
  destruct (_ && _ && _); rewrite ?length_app, ?length_replicate; cbn [length]; lia.
Qed.

Lemma prints_integer mm b v is_signed negative c : known_base b -> 0 <= v < 2 ^ 64 -> 0 <= width c < 2 ^ 31 ->
  prints mm (format_integer collect v is_signed negative b c) tt (int_text (style_of c) is_signed negative b v).
Proof.
  intros Hb Hv Hw. unfold format_integer, int_text. apply (prints_lift _ _ _ _ _ _ (number_chars_ok b v c Hb Hv)).
  set (sign := sign_char is_signed negative (flags c)). set (x := if has (flags c) POUND && negb (v =? 0) then x_char b else 0).
  rewrite <- (sign_char_text c is_signed negative). fold sign.
  assert ((if negb (x =? 0) then [48; x] else []) = prefix_text (style_of c) b v) as <-.
  { unfold prefix_text. cbn [style_of pound]. subst x. by destruct (has (flags c) POUND && negb (v =? 0)). }
  pose proof (number_text_length (style_of c) b v) as Hn. set (n := number_text (style_of c) b v) in *.
  assert (forall z, -100 <= z < 2 ^ 31 -> Z.to_nat (if i32 z <? 0 then 0 else i32 z) = Z.to_nat z) as Hpad.
  { intros z Hz. rewrite i32_id by lia. destruct (Z.ltb_spec z 0); lia. }
  rewrite Hpad by (destruct (negb (x =? 0)), (negb (sign =? 0)); cbn; lia).
  match goal with |- context [Z.to_nat (width c - ?k - ?p - ?q)] => replace (width c - k - p - q) with
    (field (style_of c) - Z.of_nat (length ((if negb (sign =? 0) then [sign] else []) ++ (if negb (x =? 0) then [48; x] else []) ++ n)))
    by (cbn [style_of field]; rewrite !length_app; destruct (negb (x =? 0)), (negb (sign =? 0)); cbn; lia) end.
  set (pad := Z.to_nat _). rewrite has_or. cbn [style_of minus zero].
  assert (forall B : list Z, (if has (flags c) MINUS || has (flags c) ZERO then [] else B) =
    (if negb (has (flags c) MINUS || has (flags c) ZERO) then B else [])) as -> by (intros B; by destruct (_ || _)).
  do 5 (eapply prints_bind; [solve [apply prints_all|apply prints_if; prints_chars]|]). apply prints_if. prints_chars.
Qed.

(** ** Strings *)

Definition string_text (st : style) (l : list Z) : list Z :=
  let pad := Z.to_nat (field st - Z.of_nat (length l)) in
  (if minus st then [] else replicate pad 32) ++ l ++ (if minus st then replicate pad 32 else []).

Definition limited (st : style) (l : list Z) : list Z := if prec st <? 0 then l else take (Z.to_nat (prec st)) l.

Section Strings.
Context (mm : memory).

(** [char_at] reads the characters of [l]. *)
Definition reads (char_at : Z -> M collector Z) (l : list Z) : Prop :=
  forall i x, l !! i = Some x -> prints mm (char_at (Z.of_nat i)) x [].

Lemma prints_chars_at char_at l : forall k n, reads char_at l -> (k + n = length l)%nat ->
  prints mm (output_chars collect char_at n (Z.of_nat k)) tt (drop k l).
Proof.
  intros k n Hr. revert k. induction n as [|n IH]; intros k Hk; cbn [output_chars].
  - rewrite drop_ge by lia. apply prints_ret.
  - destruct (lookup_lt_is_Some_2 l k) as [x Hx]; [lia|]. rewrite (drop_S l x k Hx).
    apply (prints_bind mm _ _ x tt []); [by apply Hr|]. apply (prints_bind mm _ _ tt tt [x]); [apply prints_collect|].
    replace (Z.of_nat k + 1) with (Z.of_nat (S k)) by lia. apply IH. lia.
Qed.

Lemma prints_string char_at l c : reads char_at l ->
  prints mm (format_string collect char_at (Z.of_nat (length l)) c) tt (string_text (style_of c) l).
Proof.
  intros Hr. unfold format_string, string_text. cbn [style_of field minus].
  set (n := Z.of_nat (length l)). set (w := width c).
  assert (forall (t : bool), (if t then replicate (Z.to_nat (w - n)) 32 else []) =
    (if (w >? n) && t then replicate (Z.to_nat (w - n)) 32 else [])) as Hpad.
  { intros [|]; [|by rewrite andb_false_r]. rewrite andb_true_r, Z.gtb_ltb. destruct (Z.ltb_spec n w); [done|].
    by replace (Z.to_nat (w - n)) with 0%nat by lia. }
  assert (forall B : list Z, (if has (flags c) MINUS then [] else B) = (if negb (has (flags c) MINUS) then B else [])) as -> by (intros B; by destruct (has _ _)).
  rewrite (Hpad (negb _)), (Hpad (has _ _)). eapply prints_bind; [apply prints_if; prints_chars|].
  eapply prints_bind; [|apply prints_if; prints_chars]. replace (Z.to_nat n) with (length l) by lia. apply (prints_chars_at char_at l 0); [done|lia].
Qed.

Lemma strnlen_prints char_at l maxlen : Forall (fun ch => ch <> 0) l -> reads char_at (l ++ [0]) -> forall fuel k,
  (k <= length l)%nat -> (length l - k < fuel)%nat -> Z.of_nat k <= maxlen ->
  prints mm (strnlen fuel char_at maxlen (Z.of_nat k)) (Z.min (Z.of_nat (length l)) maxlen) [].
Proof.
  intros Hnz Hr fuel. induction fuel as [|fuel IH]; intros k Hk Hf Hm; [lia|]. cbn [strnlen].
  destruct (Z.ltb_spec (Z.of_nat k) maxlen) as [Hlt|]; [|replace (Z.min _ _) with (Z.of_nat k) by lia; apply prints_ret].
  destruct (lookup_lt_is_Some_2 (l ++ [0]) k) as [x Hx]; [rewrite length_app; cbn; lia|].
  apply (prints_bind mm _ _ x _ [] []); [by apply Hr|].
  destruct (decide (k < length l)%nat) as [Hlt'|Hge].
  - rewrite lookup_app_l in Hx by done. pose proof (proj1 (Forall_lookup _ l) Hnz k x Hx). cbn beta in *.
    rewrite (proj2 (Z.eqb_neq x 0)) by done. replace (Z.of_nat k + 1) with (Z.of_nat (S k)) by lia. apply IH; lia.
  - rewrite lookup_app_r in Hx by lia. replace (k - length l)%nat with 0%nat in Hx by lia. injection Hx as <-. cbn [Z.eqb].
    replace (Z.min _ _) with (Z.of_nat k) by lia. apply prints_ret.
Qed.

Lemma cstr_size : forall s (m : memory) p, cstr m p s -> (length s < size m)%nat.
Proof.
  induction s as [|c s IH]; intros m p Hc; cbn [cstr length] in *.
  - assert (size m <> 0%nat) by (apply map_size_ne_0_lookup; by exists p, 0). lia.
  - destruct Hc as (Hp & _ & Hc). rewrite <- (insert_id m p c Hp), <- insert_delete_eq, map_size_insert_None by apply lookup_delete_eq.
    apply -> Nat.succ_lt_mono. apply (IH _ (p + 1)). apply (cstr_frame m); [done|]. intros a Ha. apply lookup_delete_ne. lia.
Qed.

End Strings.

(** ** Directives *)

(** A width or a precision: in the format, or the next argument. *)
Inductive count := Given (n : Z) | Star (w : Z).

Record spec := Spec { marks : list Z; swidth : option count; sprec : option count; stype : arg_type }.

Definition dec (n : Z) : list Z := (fun d => d + 48) <$> reverse (lsd 22 10 n).

Definition count_format (c : count) : list Z := match c with Given n => dec n | Star _ => [42] end.
Definition count_words (c : option count) : list Z := match c with Some (Star w) => [u32 w] | _ => [] end.

Definition type_format (t : arg_type) : list Z :=
  match t with
  | CHAR => [104; 104] | SHORT => [104] | INT => [] | INTMAX => [106]
  | LONG => [108] | LONGLONG => [108; 108] | PTRDIFFT => [116] | SIZET => [122]
  end.

Definition spec_format (sp : spec) (ch : Z) : list Z :=
  marks sp ++ from_option count_format [] (swidth sp) ++ from_option (fun c => 46 :: count_format c) [] (sprec sp) ++
  type_format (stype sp) ++ [ch].

Definition spec_words (sp : spec) : list Z := count_words (swidth sp) ++ count_words (sprec sp).

(** What the specification means: a left-justified field is not filled with zeros, and neither is a
    number with a precision; a plus sign beats a space; a negative width argument asks for
    left-justification, a negative precision argument counts as none. *)
Definition style_for (sp : spec) : style :=
  let minus := bool_decide (45 ∈ marks sp) || match swidth sp with Some (Star w) => w <? 0 | _ => false end in
  let prec := match sprec sp with None => -1 | Some (Given n) => n | Some (Star p) => if p <? 0 then -1 else p end in
  Style minus (bool_decide (43 ∈ marks sp)) (bool_decide (32 ∈ marks sp) && negb (bool_decide (43 ∈ marks sp)))
    (bool_decide (35 ∈ marks sp)) (bool_decide (48 ∈ marks sp) && negb minus && (prec <? 0)) (bool_decide (39 ∈ marks sp))
    (match swidth sp with None => 0 | Some (Given n) => n | Some (Star w) => Z.abs w end) prec.

Definition flag_chars : list Z := [45; 43; 32; 35; 48; 39].
Definition conversion_chars : list Z := [100; 105; 111; 117; 120; 88; 99; 115; 112].

Record spec_ok (sp : spec) : Prop := SpecOk {
  so_marks : Forall (fun c => c ∈ flag_chars) (marks sp);
  so_width : match swidth sp with
             | None => True
             | Some (Given n) => 0 < n < 2000000000
             | Some (Star w) => - 2 ^ 31 < w < 2 ^ 31 /\ (w < 0 -> 48 ∉ marks sp)
             end;
  so_prec : match sprec sp with
            | None => True
            | Some (Given n) => 0 <= n < 2000000000
            | Some (Star p) => - 2 ^ 31 <= p < 2 ^ 31
            end
}.

(** *** Flags *)

Definition bits (m p s d z g : bool) : Z := b2z m + 2 * b2z p + 4 * b2z s + 8 * b2z d + 16 * b2z z + 32 * b2z g.

Lemma parse_flags_ok fs rest : Forall (fun c => c ∈ flag_chars) fs -> forall m p s d z g,
  parse_flags (fs ++ rest) (bits m p s d z g) = parse_flags rest (bits (m || bool_decide (45 ∈ fs)) (p || bool_decide (43 ∈ fs))
    (s || bool_decide (32 ∈ fs)) (d || bool_decide (35 ∈ fs)) (z || bool_decide (48 ∈ fs)) (g || bool_decide (39 ∈ fs))).
Proof.
  assert (forall c l x, bool_decide (x ∈ c :: l) = (x =? c) || bool_decide (x ∈ l)) as Hcons.
  { intros c l x. destruct (Z.eqb_spec x c) as [->|]; [apply bool_decide_eq_true; left|]. apply bool_decide_ext. rewrite elem_of_cons. tauto. }
  induction 1 as [|c l Hc _ IH]; intros m p s d z g.
  - rewrite !(bool_decide_eq_false_2 (_ ∈ [])) by apply not_elem_of_nil. by rewrite !orb_false_r.
  - rewrite !Hcons, !orb_assoc. rewrite <- IH. clear IH Hcons. unfold flag_chars in Hc. rewrite !elem_of_cons, elem_of_nil in Hc.
    repeat destruct Hc as [->|Hc]; [..|done]; cbn [app parse_flags Z.eqb Pos.eqb]; rewrite ?orb_false_r, ?orb_true_r; f_equal;
      destruct m, p, s, d, z, g; reflexivity.
Qed.

Lemma parse_flags_stop rest f : peek rest ∉ flag_chars -> parse_flags rest f = (rest, f).
Proof.
  destruct rest as [|c rest]; [done|]. unfold flag_chars. cbn [peek hd]. rewrite !not_elem_of_cons. intros (H1 & H2 & H3 & H4 & H5 & H6 & _).
  cbn [parse_flags]. by rewrite !(proj2 (Z.eqb_neq c _)) by done.
Qed.

(** *** Widths and precisions *)

Definition horner (v : Z) (l : list Z) : Z := fold_left (fun a d => a * 10 + d) l v.

Lemma horner_ge l : forall v, 0 <= v -> Forall (fun d => 0 <= d < 10) l -> v <= horner v l.
Proof.
  induction l as [|d l IH]; intros v Hv Hl; [done|]. inversion Hl as [|? ? Hd Hl']; subst.
  cbn. etransitivity; [|apply (IH (v * 10 + d)); [lia|done]]. lia.
Qed.

Lemma horner_reverse l : horner 0 (reverse l) = value_of 10 l.
Proof.
  induction l as [|d l IH]; [done|]. rewrite reverse_cons. unfold horner in *. rewrite fold_left_app, IH. cbn. lia.
Qed.

Lemma int_res_ok z : - 2 ^ 31 <= z < 2 ^ 31 -> int_res z = Ok z.
Proof. intros Hz. unfold int_res. rewrite i32_id by lia. by rewrite Z.eqb_refl. Qed.

Lemma isdigit_digit d : 0 <= d < 10 -> isdigit (d + 48) = true.
Proof. intros. unfold isdigit. apply andb_true_iff. split; apply Z.leb_le; lia. Qed.

Lemma parse_digits_app l rest : Forall (fun d => 0 <= d < 10) l -> forall v, 0 <= v -> horner v l < 2000000000 ->
  parse_digits (((fun d => d + 48) <$> l) ++ rest) v = parse_digits rest (horner v l).
Proof.
  induction 1 as [|d l Hd Hl IH]; intros v Hv Hh; [done|]. cbn [app fmap list_fmap parse_digits].
  pose proof (horner_ge l (v * 10 + d) ltac:(lia) Hl) as Hge. change (horner v (d :: l)) with (horner (v * 10 + d) l) in *.
  rewrite isdigit_digit by done. rewrite (int_res_ok (v * 10)) by lia. cbn [res_bind]. rewrite int_res_ok by lia. cbn [res_bind].
  rewrite int_res_ok by lia. cbn [res_bind]. replace (v * 10 + (d + 48) - 48) with (v * 10 + d) by lia. apply IH; [lia|done].
Qed.

Lemma parse_digits_stop rest v : isdigit (peek rest) = false -> parse_digits rest v = Ok (rest, v).
Proof. destruct rest as [|c rest]; [done|]. cbn. by intros ->. Qed.

Lemma parse_dec n rest : 0 <= n < 2000000000 -> isdigit (peek rest) = false -> parse_digits (dec n ++ rest) 0 = Ok (rest, n).
Proof.
  intros Hn Hr. pose proof (lsd_value 22 10 n ltac:(lia) ltac:(lia)) as Hv. unfold dec.
  rewrite parse_digits_app; rewrite ?horner_reverse, ?Hv; [by apply parse_digits_stop| |done|lia].
  apply Forall_reverse, lsd_digits. done.
Qed.

Lemma i32_u32 z : - 2 ^ 31 <= z < 2 ^ 31 -> i32 (u32 z) = z.
Proof.
  intros Hz. unfold swrap, uwrap. rewrite Zplus_mod_idemp_l. rewrite Z.mod_small by lia. lia.
Qed.

(** The first digit is not a zero. *)
Lemma lsd_last n b v : 2 <= b -> 0 < v < b ^ Z.of_nat n -> exists d l, reverse (lsd n b v) = d :: l /\ 0 < d < b.
Proof.
  intros Hb. revert v. induction n as [|n IH]; intros v Hv; [cbn in Hv; lia|]. cbn [lsd]. rewrite (proj2 (Z.ltb_lt 0 v)) by lia.
  rewrite reverse_cons. rewrite Nat2Z.inj_succ, Z.pow_succ_r in Hv by lia. pose proof (Z.mod_pos_bound v b ltac:(lia)) as Hm.
  destruct (decide (v < b)) as [Hlt|Hge].
  - rewrite Z.div_small, Z.mod_small by lia. destruct n; cbn [lsd]; exists v, []; (split; [done|lia]).
  - destruct (IH (v / b)) as (d & l & -> & Hd); [|by exists d, (l ++ [v mod b])]. split; [apply Z.div_str_pos; lia|].
    apply Z.div_lt_upper_bound; lia.
Qed.

Lemma dec_head n : 0 < n < 2000000000 -> exists c l, dec n = c :: l /\ 49 <= c <= 57.
Proof. intros Hn. unfold dec. destruct (lsd_last 22 10 n ltac:(lia) ltac:(lia)) as (d & l & -> & Hd). eexists _, _. split; [reflexivity|lia]. Qed.

Lemma app_peek l c rest : peek ((l ++ [c]) ++ rest) = peek (l ++ [c]).
Proof. by destruct l. Qed.

(** *** Types *)

(** What can come after the flags, the width and the precision. *)
Definition type_chars : list Z := [104; 106; 108; 116; 122] ++ conversion_chars.

Lemma type_peek t ch rest : ch ∈ conversion_chars -> peek ((type_format t ++ [ch]) ++ rest) ∈ type_chars.
Proof. intros Hch. unfold type_chars. rewrite app_peek. apply elem_of_app. by destruct t; cbn [type_format app peek hd]; first [by right|left; rewrite !elem_of_cons; tauto]. Qed.

Lemma parse_type_ok t ch rest : ch ∈ conversion_chars -> parse_type ((type_format t ++ [ch]) ++ rest) = (ch :: rest, t).
Proof.
  intros Hch. unfold conversion_chars in Hch. rewrite !elem_of_cons, elem_of_nil in Hch.
  repeat destruct Hch as [->|Hch]; [..|done]; destruct t; reflexivity.
Qed.

Lemma type_char_facts c : c ∈ type_chars -> isdigit c = false /\ c <> 42 /\ c <> 46 /\ c ∉ flag_chars.
Proof.
  intros Hc. unfold type_chars, conversion_chars in Hc. cbn [app] in Hc. rewrite !elem_of_cons, elem_of_nil in Hc.
  repeat destruct Hc as [->|Hc]; [..|done]; (split; [done|split; [done|split; [done|by_compute]]]).
Qed.

Definition prec_format (p : option count) : list Z := from_option (fun c => 46 :: count_format c) [] p.
Definition prec_value (p : option count) : Z :=
  match p with None => -1 | Some (Given n) => n | Some (Star p) => if p <? 0 then -1 else p end.

Lemma parse_precision_ok p tl args : peek tl ∈ type_chars ->
  match p with None => True | Some (Given n) => 0 <= n < 2000000000 | Some (Star p) => - 2 ^ 31 <= p < 2 ^ 31 end ->
  parse_precision (prec_format p ++ tl) (count_words p ++ args) = Ok (tl, prec_value p, args).
Proof.
  intros Htl Hp. destruct (type_char_facts _ Htl) as (Hd & H42 & H46 & _). unfold parse_precision.
  destruct p as [[n|w]|]; cbn [prec_format from_option count_format count_words app peek hd tail].
  - cbn [Z.eqb Pos.eqb]. destruct (Z.eqb_spec (peek (dec n ++ tl)) 42) as [E|_].
    { destruct (decide (0 < n)) as [Hn|]; [destruct (dec_head n ltac:(lia)) as (c & l & Ed & Hc); rewrite Ed in E; cbn in E; lia|].
      assert (n = 0) as -> by lia. by cbn in E. }
    rewrite parse_dec by done. cbn [res_bind fst snd prec_value]. by rewrite (proj2 (Z.ltb_ge n 0)) by lia.
  - cbn [Z.eqb Pos.eqb va_word res_bind fst snd]. by rewrite i32_u32.
  - fold (peek tl). by rewrite (proj2 (Z.eqb_neq (peek tl) 46)).
Qed.

Definition width_format (w : option count) : list Z := from_option count_format [] w.
Definition width_value (w : option count) : Z := match w with None => 0 | Some (Given n) => n | Some (Star w) => Z.abs w end.
Definition width_minus (w : option count) : bool := match w with Some (Star w) => w <? 0 | _ => false end.

Definition width_ok (w : option count) : Prop :=
  match w with None => True | Some (Given n) => 0 < n < 2000000000 | Some (Star w) => - 2 ^ 31 < w < 2 ^ 31 end.

Lemma parse_width_ok w tl args f : peek tl <> 42 -> isdigit (peek tl) = false -> width_ok w ->
  parse_width (width_format w ++ tl) (count_words w ++ args) f =
  Ok (tl, width_value w, if width_minus w then Z.lor f MINUS else f, args).
Proof.
  intros H42 Hd Hw. unfold parse_width. destruct w as [[n|w]|]; cbn [width_format from_option count_format count_words app width_ok] in *.
  - destruct (dec_head n Hw) as (c & l & Ed & Hc). destruct (Z.eqb_spec (peek (dec n ++ tl)) 42) as [E|_]; [rewrite Ed in E; cbn in E; lia|].
    rewrite parse_dec by (lia || done). cbn [res_bind fst snd width_value width_minus]. by rewrite (proj2 (Z.ltb_ge n 0)) by lia.
  - cbn [peek hd Z.eqb Pos.eqb va_word res_bind fst snd tail width_minus width_value]. rewrite i32_u32 by lia.
    destruct (Z.ltb_spec w 0) as [Hneg|]; [rewrite int_res_ok by lia; cbn [res_bind]; by rewrite Z.abs_neq by lia|by rewrite Z.abs_eq by lia].
  - rewrite (proj2 (Z.eqb_neq _ 42)) by done. by rewrite parse_digits_stop.
Qed.

Lemma width_value_bound w : width_ok w -> 0 <= width_value w < 2 ^ 31.
Proof. destruct w as [[n|w]|]; cbn; lia. Qed.

(** The style of the flags that parsing computes. *)
Lemma parsed_style m p s d z g (wm pr : bool) w v t : (wm = true -> z = false) ->
  let f := bits m p s d z g in
  let f := if has f MINUS then Z.ldiff f ZERO else f in
  let f := if has f PLUS then Z.ldiff f SPACE else f in
  let f := if wm then Z.lor f MINUS else f in
  let f := if pr then f else Z.ldiff f ZERO in
  style_of (Conversion f w v t) = Style (m || wm) p (s && negb p) d (z && negb (m || wm) && pr) g w v.
Proof. intros Hz. destruct m, p, s, d, z, g, wm, pr; first [reflexivity|discriminate (Hz eq_refl)]. Qed.

Lemma parse_conversion_ok sp ch rest args : spec_ok sp -> ch ∈ conversion_chars ->
  exists c, parse_conversion (spec_format sp ch ++ rest) (spec_words sp ++ args) = Ok (ch :: rest, c, args) /\
    style_of c = style_for sp /\ type c = stype sp /\ 0 <= width c < 2 ^ 31.
Proof.
  intros [Hm Hw Hp] Hch. pose proof (type_peek (stype sp) ch rest Hch) as Htl.
  unfold parse_conversion, spec_format, spec_words. fold (width_format (swidth sp)) (prec_format (sprec sp)).
  rewrite <- !app_assoc. rewrite <- (app_assoc (type_format _)) in Htl. set (tl := type_format (stype sp) ++ [ch] ++ rest) in *.
  assert (width_ok (swidth sp)) as Hwok by (destruct (swidth sp) as [[]|]; cbn; tauto).
  destruct (type_char_facts _ Htl) as (Hd & H42 & H46 & Hfl).
  assert (isdigit (peek (prec_format (sprec sp) ++ tl)) = false /\ peek (prec_format (sprec sp) ++ tl) <> 42 /\
    peek (prec_format (sprec sp) ++ tl) ∉ flag_chars) as (Hd1 & H421 & Hfl1).
  { destruct (sprec sp) as [c|]; cbn [prec_format from_option app]; [|done]. split_and!; [done|done|by_compute]. }
  rewrite (parse_flags_ok (marks sp) _ Hm false false false false false false). cbn [orb].
  rewrite parse_flags_stop.
  2: { destruct (swidth sp) as [[n|w]|]; cbn [width_format from_option count_format app]; [|by_compute|done].
       destruct (dec_head n Hwok) as (c & l & -> & Hc). unfold flag_chars. cbn [app peek hd]. rewrite !not_elem_of_cons. lia || (split_and!; try lia; apply not_elem_of_nil). }
  rewrite parse_width_ok by done. cbn [res_bind]. rewrite parse_precision_ok by done. cbn [res_bind].
  subst tl. rewrite (app_assoc (type_format _)), parse_type_ok by done. eexists. split; [reflexivity|].
  split; [|split; [done|by apply width_value_bound]].
  unfold style_for. fold (width_minus (swidth sp)) (prec_value (sprec sp)) (width_value (swidth sp)).
  assert (forall A (x y : A), (if 0 <=? prec_value (sprec sp) then x else y) = (if prec_value (sprec sp) <? 0 then y else x)) as ->
    by (intros A x y; rewrite Z.ltb_antisym; by destruct (0 <=? _)).
  apply parsed_style. destruct (swidth sp) as [[n|w]|]; try done. cbn. intros Hneg%Z.ltb_lt. apply bool_decide_eq_false. by apply Hw.
Qed.

(** *** Arguments *)

Definition type_bits (t : arg_type) : Z :=
  match t with CHAR => 8 | SHORT => 16 | INTMAX | LONGLONG => 64 | INT | LONG | PTRDIFFT | SIZET => 32 end.

Definition value_words (t : arg_type) (v : Z) : list Z :=
  match t with INTMAX | LONGLONG => [u32 v; u32 (v / 2 ^ 32)] | _ => [u32 v] end.

Lemma swrap_uwrap w w' z : 0 < w <= w' -> - 2 ^ (w - 1) <= z < 2 ^ (w - 1) -> swrap w (uwrap w' z) = z.
Proof.
  intros Hw Hz. unfold swrap, uwrap. assert (2 ^ w = 2 * 2 ^ (w - 1)) as E by (rewrite <- Z.pow_succ_r by lia; f_equal; lia).
  assert (2 ^ w' = 2 ^ w * 2 ^ (w' - w)) as E' by (rewrite <- Z.pow_add_r by lia; f_equal; lia).
  rewrite (Z.mod_eq z) by lia. rewrite E'.
  replace (z - 2 ^ w * 2 ^ (w' - w) * (z / (2 ^ w * 2 ^ (w' - w))) + 2 ^ (w - 1)) with
    (z + 2 ^ (w - 1) + (- (2 ^ (w' - w) * (z / (2 ^ w * 2 ^ (w' - w))))) * 2 ^ w) by lia.
  rewrite Z.mod_add, Z.mod_small by lia. lia.
Qed.

Lemma u64_words v : u32 (u32 v) + 2 ^ 32 * u32 (u32 (v / 2 ^ 32)) = u64 v.
Proof.
  rewrite !(u32_id (u32 _)) by apply u32_bound. unfold uwrap. change (2 ^ 64) with (2 ^ 32 * 2 ^ 32).
  rewrite Z.rem_mul_r by lia. lia.
Qed.

Lemma signed_arg_ok t v args : - 2 ^ (type_bits t - 1) <= v < 2 ^ (type_bits t - 1) -> signed_arg t (value_words t v ++ args) = Ok (v, args).
Proof.
  intros Hv. destruct t; cbn [type_bits] in Hv; cbn [signed_arg value_words app va_word va_long res_bind fst snd];
    rewrite ?u64_words; rewrite ?swrap_uwrap by lia; try done.
  rewrite u32_id by apply u32_bound. rewrite Z.gtb_ltb. change (0xffffffff / 2) with 0x7fffffff. unfold uwrap. destruct (decide (v < 0)).
  - rewrite (Z.mod_eq v) by lia. replace (v / 2 ^ 32) with (-1) by (apply (Z.div_unique _ _ _ (v + 2 ^ 32)); lia).
    rewrite (proj2 (Z.ltb_lt _ _)) by lia. do 2 f_equal. lia.
  - rewrite Z.mod_small by lia. by rewrite (proj2 (Z.ltb_ge _ _)) by lia.
Qed.

Lemma unsigned_arg_ok t v args : 0 <= v < 2 ^ type_bits t -> unsigned_arg t (value_words t v ++ args) = Ok (v, args).
Proof.
  intros Hv. destruct t; cbn [type_bits] in Hv; cbn [unsigned_arg value_words app va_word va_long res_bind fst snd];
    rewrite ?u64_words; rewrite ?(uwrap_id _ v) by lia; rewrite ?(uwrap_id _ v) by lia; try done.
  do 2 f_equal. change (Z.lor _ _) with (Z.ones 32). rewrite Z.land_ones by lia. unfold swrap, uwrap. change (2 ^ (32 - 1)) with (2 ^ 31).
  destruct (decide (v < 2 ^ 31)).
  - rewrite (Z.mod_small (v + _)), (Z.mod_small _ (2 ^ 64)), Z.mod_small by lia. lia.
  - rewrite (Z.mod_eq (v + _)) by lia. replace ((v + 2 ^ 31) / 2 ^ 32) with 1 by (apply (Z.div_unique _ _ _ (v - 2 ^ 31)); lia).
    rewrite (Z.mod_eq _ (2 ^ 64)) by lia. replace ((v + 2 ^ 31 - 2 ^ 32 * 1 - 2 ^ 31) / 2 ^ 64) with (-1)
      by (apply (Z.div_unique _ _ _ (v - 2 ^ 32 + 2 ^ 64)); lia).
    replace (v + 2 ^ 31 - 2 ^ 32 * 1 - 2 ^ 31 - 2 ^ 64 * -1) with (v + (2 ^ 32 - 1) * 2 ^ 32) by lia. rewrite Z.mod_add, Z.mod_small by lia. done.
Qed.

(** ** Formats *)

Inductive directive :=
  | Literal (ch : Z)
  | Percent
  | Signed (sp : spec) (ch v : Z)
  | Unsigned (sp : spec) (ch v : Z)
  | Character (sp : spec) (ch : Z)
  | Text (sp : spec) (p : Z) (l : list Z)
  | Pointer (sp : spec) (p : Z).

Definition directive_format (d : directive) : list Z :=
  match d with
  | Literal ch => [ch]
  | Percent => [37; 37]
  | Signed sp ch _ | Unsigned sp ch _ => 37 :: spec_format sp ch
  | Character sp _ => 37 :: spec_format sp 99
  | Text sp _ _ => 37 :: spec_format sp 115
  | Pointer sp _ => 37 :: spec_format sp 112
  end.

Definition directive_words (d : directive) : list Z :=
  match d with
  | Literal _ | Percent => []
  | Signed sp _ v | Unsigned sp _ v => spec_words sp ++ value_words (stype sp) v
  | Character sp w | Text sp w _ | Pointer sp w => spec_words sp ++ [w]
  end.

Definition base_of (ch : Z) : integer_base :=
  if ch =? 111 then base_o else if ch =? 117 then base_d else if ch =? 120 then base_x else base_X.

Definition pointer_style (st : style) : style := Style false false false true false false (field st) (prec st).

Definition directive_text (d : directive) : list Z :=
  match d with
  | Literal ch => [ch]
  | Percent => [37]
  | Signed sp _ v => int_text (style_for sp) true (v <? 0) base_d (Z.abs v)
  | Unsigned sp ch v => int_text (style_for sp) false false (base_of ch) v
  | Character sp ch => string_text (style_for sp) [ch]
  | Text sp _ l => string_text (style_for sp) (limited (style_for sp) l)
  | Pointer sp p => int_text (pointer_style (style_for sp)) false false base_x p
  end.

Definition null_text : list Z := [40; 110; 117; 108; 108; 41].

Definition directive_ok (mm : memory) (d : directive) : Prop :=
  match d with
  | Literal ch => ch <> 37
  | Percent => True
  | Signed sp ch v => spec_ok sp /\ ch ∈ [100; 105] /\ - 2 ^ (type_bits (stype sp) - 1) <= v < 2 ^ (type_bits (stype sp) - 1) /\ v <> - 2 ^ 63
  | Unsigned sp ch v => spec_ok sp /\ ch ∈ [111; 117; 120; 88] /\ 0 <= v < 2 ^ type_bits (stype sp)
  | Character sp ch => spec_ok sp /\ 0 <= ch < 256
  | Text sp p l => spec_ok sp /\ 0 <= p < 2 ^ 32 /\ (if p =? NULL then l = null_text else cstr mm p l) /\ Z.of_nat (length l) < 2 ^ 31
  | Pointer sp p => spec_ok sp /\ 0 <= p < 2 ^ 32
  end.

Section Formats.
Context (mm : memory).

Lemma convert_signed printf ch c v args : ch ∈ [100; 105] -> - 2 ^ (type_bits (type c) - 1) <= v < 2 ^ (type_bits (type c) - 1) -> v <> - 2 ^ 63 ->
  0 <= width c < 2 ^ 31 ->
  prints mm (convert collect fst printf ch c (value_words (type c) v ++ args)) args (int_text (style_of c) true (v <? 0) base_d (Z.abs v)).
Proof.
  intros Hch Hv Hmin Hw. assert (- 2 ^ 63 <= v < 2 ^ 63) as Hv' by (destruct (type c); cbn [type_bits] in Hv; lia).
  unfold convert. unfold one_of at 1. rewrite bool_decide_eq_true_2 by done.
  apply (prints_lift mm _ _ _ _ _ (signed_arg_ok _ _ args Hv)). cbn [fst snd].
  assert ((if v <? 0 then intmax_res (- v) else Ok v) = Ok (Z.abs v)) as E.
  { destruct (Z.ltb_spec v 0); [|by rewrite Z.abs_eq by lia]. unfold intmax_res. rewrite i64_id by lia. rewrite Z.eqb_refl. by rewrite Z.abs_neq by lia. }
  apply (prints_lift mm _ _ _ _ _ E). rewrite u64_id by lia. rewrite <- (app_nil_r (int_text _ _ _ _ _)).
  eapply prints_bind; [apply prints_integer; [by left|lia|done]|apply prints_ret].
Qed.

Lemma convert_unsigned printf ch c v args : ch ∈ [111; 117; 120; 88] -> 0 <= v < 2 ^ type_bits (type c) -> 0 <= width c < 2 ^ 31 ->
  prints mm (convert collect fst printf ch c (value_words (type c) v ++ args)) args (int_text (style_of c) false false (base_of ch) v).
Proof.
  intros Hch Hv Hw. assert (0 <= v < 2 ^ 64) as Hv' by (destruct (type c); cbn [type_bits] in Hv; lia).
  assert (ch ∉ [100; 105]) as Hn by (rewrite !elem_of_cons, elem_of_nil in Hch; repeat destruct Hch as [->|Hch]; [by_compute..|done]).
  unfold convert. unfold one_of at 1. rewrite bool_decide_eq_false_2 by done. unfold one_of at 1. rewrite bool_decide_eq_true_2 by done.
  apply (prints_lift mm _ _ _ _ _ (unsigned_arg_ok _ _ args Hv)). cbn [fst snd]. fold (base_of ch). rewrite <- (app_nil_r (int_text _ _ _ _ _)).
  eapply prints_bind; [apply prints_integer; [|done..]|apply prints_ret].
  unfold base_of, known_base. destruct (ch =? 111), (ch =? 117), (ch =? 120); tauto.
Qed.

Lemma convert_char printf c w args : 0 <= w < 256 ->
  prints mm (convert collect fst printf 99 c (w :: args)) args (string_text (style_of c) [w]).
Proof.
  intros Hw. unfold convert. change (one_of 99 _) with false. cbn [Z.eqb Pos.eqb]. apply (prints_lift mm _ _ _ _ _ eq_refl). cbn [fst snd].
  rewrite <- (app_nil_r (string_text _ _)). eapply prints_bind; [|apply prints_ret]. rewrite uwrap_id by lia.
  apply (prints_string mm (fun _ => ret w) [w] c). intros [|i] x Hx; [|done]. injection Hx as <-. apply prints_ret.
Qed.

Lemma convert_pointer printf c p args : 0 <= p < 2 ^ 32 -> 0 <= width c < 2 ^ 31 ->
  prints mm (convert collect fst printf 112 c (p :: args)) args (int_text (pointer_style (style_of c)) false false base_x p).
Proof.
  intros Hp Hw. unfold convert. change (one_of 112 _) with false. cbn [Z.eqb Pos.eqb]. apply (prints_lift mm _ _ _ _ _ eq_refl). cbn [fst snd].
  rewrite u32_id by lia. rewrite <- (app_nil_r (int_text _ _ _ _ _)). eapply prints_bind; [|apply prints_ret].
  apply (prints_integer mm base_x p false false (Conversion POUND (width c) (precision c) (type c))); [by right; right; left|lia|done].
Qed.

Lemma string_reads p l : (if p =? NULL then l = null_text else cstr mm p l) -> reads mm (string_at fst p) (l ++ [0]).
Proof.
  intros Hl i x Hx t. unfold string_at. rewrite app_nil_r. destruct (p =? NULL).
  - subst l. rewrite Nat2Z.id. change null_string with (null_text ++ [0]). by rewrite Hx.
  - unfold read. rewrite bind_gets. cbn [fst]. apply cstr_bytes in Hl as [Hb _]. destruct (bytes_lookup mm p _ i x Hb Hx) as [-> _]. done.
Qed.

Lemma limited_length st l : -1 <= prec st < 2 ^ 31 -> Z.of_nat (length l) < 2 ^ 31 ->
  Z.min (Z.of_nat (length l)) (u32 (prec st)) = Z.of_nat (length (limited st l)).
Proof.
  intros Hp Hl. unfold limited. destruct (Z.ltb_spec (prec st) 0).
  - assert (prec st = -1) as -> by lia. change (u32 (-1)) with (2 ^ 32 - 1). lia.
  - rewrite u32_id by lia. rewrite length_take. lia.
Qed.

Lemma limited_lookup st l i x : limited st l !! i = Some x -> l !! i = Some x.
Proof. unfold limited. destruct (prec st <? 0); [done|]. rewrite lookup_take_Some. tauto. Qed.

Lemma convert_text printf c p l args : 0 <= p < 2 ^ 32 -> (if p =? NULL then l = null_text else cstr mm p l) -> Z.of_nat (length l) < 2 ^ 31 ->
  -1 <= precision c < 2 ^ 31 ->
  prints mm (convert collect fst printf 115 c (p :: args)) args (string_text (style_of c) (limited (style_of c) l)).
Proof.
  intros Hp Hl Hlen Hprec. unfold convert. change (one_of 115 _) with false. cbn [Z.eqb Pos.eqb].
  apply (prints_lift mm _ _ _ _ _ eq_refl). cbn [fst snd]. rewrite u32_id by lia. intros t. rewrite bind_gets. revert t. cbn [fst].
  pose proof (string_reads p l Hl) as Hr.
  assert (Forall (fun ch => ch <> 0) l /\ (length l < size mm + 9)%nat) as [Hnz Hfuel].
  { destruct (p =? NULL); [subst l; split; [by repeat constructor|cbn; lia]|]. split; [|pose proof (cstr_size l mm p Hl); lia].
    apply cstr_bytes in Hl as [_ Hl]. eapply Forall_impl; [exact Hl|]. cbn. lia. }
  eapply (prints_bind mm _ _ _ _ [] (string_text _ _)).
  { apply (strnlen_prints mm (string_at fst p) l (u32 (precision c)) Hnz Hr _ 0%nat); [lia..|]. pose proof (u32_bound (precision c)). lia. }
  change (precision c) with (prec (style_of c)). rewrite limited_length by done. rewrite i32_id by (unfold limited; destruct (_ <? _); rewrite ?length_take; lia).
  rewrite <- (app_nil_r (string_text _ _)). eapply prints_bind; [|apply prints_ret]. apply prints_string.
  intros i x Hx. apply Hr. apply limited_lookup in Hx. rewrite lookup_app_l; [done|]. by apply lookup_lt_Some in Hx.
Qed.

Lemma style_prec sp : spec_ok sp -> -1 <= prec (style_for sp) < 2 ^ 31.
Proof. intros [_ _ Hp]. cbn [style_for prec]. destruct (sprec sp) as [[n|w]|]; [lia| |lia]. destruct (Z.ltb_spec w 0); lia. Qed.

(** One conversion of the format. *)
Lemma prints_conversion fuel sp ch words rest args l l' : spec_ok sp -> ch ∈ conversion_chars ->
  (forall c, style_of c = style_for sp -> type c = stype sp -> 0 <= width c < 2 ^ 31 ->
    prints mm (convert collect fst (__vprintf collect fst fuel) ch c (words ++ args)) args l) ->
  prints mm (__vprintf collect fst fuel rest args) tt l' ->
  prints mm (__vprintf collect fst (S fuel) ((37 :: spec_format sp ch) ++ rest) ((spec_words sp ++ words) ++ args)) tt (l ++ l').
Proof.
  intros Hsp Hch Hconv Hrest. destruct (parse_conversion_ok sp ch rest (words ++ args) Hsp Hch) as (c & E & Hst & Ht & Hw).
  rewrite <- app_assoc. cbn [app __vprintf Z.eqb Pos.eqb negb].
  assert (peek (spec_format sp ch ++ rest) <> 37) as Hpeek.
  { intros Hp. destruct (spec_format sp ch ++ rest) as [|x f] eqn:Ef; [done|]. cbn in Hp. subst x.
    unfold parse_conversion in E. rewrite parse_flags_stop in E by by_compute. cbn in E. injection E as <- _ _ _. revert Hch. by_compute. }
  rewrite (proj2 (Z.eqb_neq _ _)) by done. apply (prints_lift mm _ _ _ _ _ E). cbn [peek hd].
  eapply prints_bind; [by apply Hconv|exact Hrest].
Qed.

Lemma prints_directives ds : forall fuel, Forall (directive_ok mm) ds -> (length ds < fuel)%nat ->
  prints mm (__vprintf collect fst fuel (ds ≫= directive_format) (ds ≫= directive_words)) tt (ds ≫= directive_text).
Proof.
  induction ds as [|d ds IH]; intros fuel Hds Hf; (destruct fuel as [|fuel]; [cbn in Hf; lia|]); [apply prints_ret|].
  inversion Hds as [|? ? Hd Hds']; subst. cbn [length] in Hf. specialize (IH fuel Hds' ltac:(lia)). rewrite !bind_cons.
  destruct d as [ch| |sp ch v|sp ch v|sp ch|sp p l|sp p]; cbn [directive_ok directive_format directive_words directive_text] in *.
  - cbn [app __vprintf]. rewrite (proj2 (Z.eqb_neq ch 37)) by done. cbn [negb]. eapply (prints_bind mm _ _ tt tt [ch]); [apply prints_collect|done].
  - cbn [app __vprintf Z.eqb Pos.eqb negb peek hd tail]. eapply (prints_bind mm _ _ tt tt [37]); [apply prints_collect|done].
  - destruct Hd as (Hsp & Hch & Hv & Hmin). apply prints_conversion; [done|set_solver| |done]. intros c <- Ht Hw. rewrite <- Ht in Hv |- *.
    by apply convert_signed.
  - destruct Hd as (Hsp & Hch & Hv). apply prints_conversion; [done|set_solver| |done]. intros c <- Ht Hw. rewrite <- Ht in Hv |- *.
    by apply convert_unsigned.
  - destruct Hd as (Hsp & Hch). apply prints_conversion; [done|by_compute| |done]. intros c <- Ht Hw. by apply convert_char.
  - destruct Hd as (Hsp & Hp & Hl & Hlen). apply prints_conversion; [done|by_compute| |done]. pose proof (style_prec sp Hsp) as Hpr.
    intros c Hst Ht Hw. rewrite <- Hst in Hpr |- *. by apply convert_text.
  - destruct Hd as (Hsp & Hp). apply prints_conversion; [done|by_compute| |done]. intros c <- Ht Hw. by apply convert_pointer.
Qed.

End Formats.

Lemma directives_length ds : (length ds <= length (ds ≫= directive_format))%nat.
Proof.
  induction ds as [|d ds IH]; [done|]. rewrite bind_cons, length_app. cbn [length].
  assert (1 <= length (directive_format d))%nat by (destruct d; cbn; lia). lia.
Qed.

Lemma directives_text mm ds : Forall (directive_ok mm) ds ->
  text_of mm (ds ≫= directive_format) (ds ≫= directive_words) = Ok (ds ≫= directive_text).
Proof.
  intros Hds. unfold text_of. pose proof (directives_length ds) as Hlen.
  pose proof (prints_directives mm ds (vprintf_fuel (ds ≫= directive_format)) Hds ltac:(unfold vprintf_fuel; lia) []) as E.
  by rewrite E.
Qed.


(** ** Into a buffer *)

(** Two output functions; [over]: more than an [int] can count has been printed. *)
Section Simulation.
Context {S1 S2 : Type} (out1 : Z -> M S1 unit) (mem1 : S1 -> memory) (out2 : Z -> M S2 unit) (mem2 : S2 -> memory).
Context (R : S1 -> S2 -> Prop) (over : S1 -> Prop).

(** Unless too much is printed, the second code follows the first one. *)
Definition sim {A : Type} (m1 : M S1 A) (m2 : M S2 A) : Prop :=
  forall s1 a s1', m1 s1 = Ok (a, s1') ->
    (over s1 -> over s1') /\ forall s2, R s1 s2 -> (exists s2', m2 s2 = Ok (a, s2') /\ R s1' s2') \/ over s1'.

Context (out_sim : forall ch, sim (out1 ch) (out2 ch)).
Context (mem_sim : forall s1 s2, R s1 s2 -> mem1 s1 ⊆ mem2 s2).

Lemma sim_ret {A : Type} (a : A) : sim (ret a) (ret a).
Proof. intros s1 b s1' E. injection E as <- <-. split; [done|]. intros s2 HR. left. by exists s2. Qed.

Lemma sim_fail {A : Type} (m2 : M S2 A) m1 : (forall s, forall x, m1 s <> Ok x) -> sim m1 m2.
Proof. intros H1 s1 a s1' E. by destruct (H1 _ _ E). Qed.

Lemma sim_bind {A B : Type} (m1 : M S1 A) m2 (k1 : A -> M S1 B) k2 : sim m1 m2 -> (forall a, sim (k1 a) (k2 a)) ->
  sim (bind m1 k1) (bind m2 k2).
Proof.
  intros Hm Hk s1 b s1'' E. apply bind_inv in E as (a & s1' & E1 & E2). destruct (Hm _ _ _ E1) as [Ho1 HR1]. destruct (Hk _ _ _ _ E2) as [Ho2 HR2].
  split; [by auto|]. intros s2 HR. destruct (HR1 s2 HR) as [(s2' & E' & HR')|?]; [|by right; auto].
  destruct (HR2 s2' HR') as [(s2'' & E'' & HR'')|?]; [|by right]. left. exists s2''. by crun E'.
Qed.

Lemma sim_lift {A : Type} (r : res A) : sim (lift r) (lift r).
Proof. destruct r as [a| | |]; [apply sim_ret|apply sim_fail..]; done. Qed.

Lemma sim_if {A : Type} (t : bool) (m1 : M S1 A) m2 n1 n2 : sim m1 m2 -> sim n1 n2 -> sim (if t then m1 else n1) (if t then m2 else n2).
Proof. by destruct t. Qed.

Lemma sim_read p : sim (read mem1 p) (read mem2 p).
Proof.
  intros s1 a s1' E. unfold read in *. rewrite bind_gets in E. destruct (mem1 s1 !! p) as [b|] eqn:Hb; [|done]. injection E as <- <-.
  split; [done|]. intros s2 HR. left. exists s2. rewrite bind_gets. by rewrite (lookup_weaken _ _ _ _ Hb (mem_sim s1 s2 HR)).
Qed.

Lemma sim_dup ch n : sim (output_dup out1 ch n) (output_dup out2 ch n).
Proof. induction n as [|n IH]; [apply sim_ret|]. by apply sim_bind. Qed.

Lemma sim_all l : sim (output_all out1 l) (output_all out2 l).
Proof. induction l as [|c l IH]; [apply sim_ret|]. by apply sim_bind. Qed.

Lemma sim_integer v sg ng b c : sim (format_integer out1 v sg ng b c) (format_integer out2 v sg ng b c).
Proof.
  unfold format_integer. apply sim_bind; [apply sim_lift|]. intros buf.
  repeat (apply sim_bind; [|intros _]); first [apply sim_all|apply sim_if; [|apply sim_ret]; first [apply sim_dup|apply out_sim|apply sim_bind; intros; apply out_sim]].
Qed.

Lemma sim_string at1 at2 n c : (forall i, sim (at1 i) (at2 i)) -> sim (format_string out1 at1 n c) (format_string out2 at2 n c).
Proof.
  intros Hat. unfold format_string. apply sim_bind; [apply sim_if; [apply sim_dup|apply sim_ret]|intros _].
  apply sim_bind; [|intros _; apply sim_if; [apply sim_dup|apply sim_ret]].
  assert (forall k i, sim (output_chars out1 at1 k i) (output_chars out2 at2 k i)) as Hk; [|apply Hk].
  induction k as [|k IH]; intros i; [apply sim_ret|]. cbn [output_chars]. apply sim_bind; [apply Hat|]. intros ch. by apply sim_bind.
Qed.

Lemma sim_string_at p i : sim (string_at mem1 p i) (string_at mem2 p i).
Proof. unfold string_at. apply sim_if; [apply sim_lift|apply sim_read]. Qed.

Lemma sim_strnlen at1 at2 maxlen : (forall i, sim (at1 i) (at2 i)) -> forall f1 f2 n, (f1 <= f2)%nat ->
  sim (strnlen f1 at1 maxlen n) (strnlen f2 at2 maxlen n).
Proof.
  intros Hat f1. induction f1 as [|f1 IH]; intros f2 n Hf.
  - destruct f2; cbn [strnlen]; (apply sim_if; [by apply sim_fail|apply sim_ret]).
  - destruct f2 as [|f2]; [lia|]. cbn [strnlen]. apply sim_if; [|apply sim_ret]. apply sim_bind; [apply Hat|]. intros ch.
    apply sim_if; [apply sim_ret|apply IH; lia].
Qed.

Lemma sim_mem {A : Type} (k1 : memory -> M S1 A) k2 : (forall m1 m2, m1 ⊆ m2 -> sim (k1 m1) (k2 m2)) ->
  sim (bind (gets mem1) k1) (bind (gets mem2) k2).
Proof.
  intros Hk s1 a s1' E. rewrite bind_gets in E. split; [apply (Hk (mem1 s1) (mem1 s1) ltac:(done) _ _ _ E)|]. intros s2 HR.
  rewrite bind_gets. exact (proj2 (Hk _ _ (mem_sim s1 s2 HR) s1 a s1' E) s2 HR).
Qed.

Lemma sim_convert p1 p2 ch c args : (forall f a, sim (p1 f a) (p2 f a)) ->
  sim (convert out1 mem1 p1 ch c args) (convert out2 mem2 p2 ch c args).
Proof.
  intros Hp. unfold convert. repeat apply sim_if.
  1-5: apply sim_bind; [apply sim_lift|intros r].
  - apply sim_bind; [apply sim_lift|intros v]. apply sim_bind; [apply sim_integer|intros _; apply sim_ret].
  - apply sim_bind; [apply sim_integer|intros _; apply sim_ret].
  - apply sim_bind; [apply sim_string; intros; apply sim_ret|intros _; apply sim_ret].
  - apply sim_mem. intros m1 m2 Hm. pose proof (map_subseteq_size m1 m2 Hm) as Hs.
    apply sim_bind; [apply sim_strnlen; [apply sim_string_at|lia]|intros len].
    apply sim_bind; [apply sim_string, sim_string_at|intros _; apply sim_ret].
  - apply sim_bind; [apply sim_integer|intros _; apply sim_ret].
  - apply sim_bind; [apply Hp|intros _; apply sim_ret].
Qed.

Lemma sim_vprintf fuel : forall format args, sim (__vprintf out1 mem1 fuel format args) (__vprintf out2 mem2 fuel format args).
Proof.
  induction fuel as [|fuel IH]; intros format args; cbn [__vprintf]; [by apply sim_fail|].
  destruct format as [|ch format]; [apply sim_ret|]. apply sim_if; [apply sim_bind; [apply out_sim|intros _; apply IH]|].
  apply sim_if; [apply sim_bind; [apply out_sim|intros _; apply IH]|]. apply sim_bind; [apply sim_lift|]. intros [[format' c] args'].
  apply sim_bind; [by apply sim_convert|]. intros args''. destruct format' as [|x format']; [by apply sim_fail|apply IH].
Qed.

End Simulation.

Definition outside (m : memory) (p n : Z) : memory := filter (fun r => ~ (p <= fst r < p + n)) m.

Section Buffer.
Context (m : memory) (buffer buf_size : Z).
Context (Hsize : 0 <= buf_size <= 2 ^ 31) (Hmapped : mapped m buffer (Z.to_nat buf_size)).

Definition room : Z := if 0 <? buf_size then buf_size - 1 else 0.

(** The memory in which the characters [t] were printed. *)
Definition stored (t : list Z) (m' : memory) : Prop :=
  forall a, m' !! a = if decide (buffer <= a < buffer + Z.min (Z.of_nat (length t)) room)
                      then u8 <$> t !! Z.to_nat (a - buffer) else m !! a.

Definition follows (s1 : collector) (s2 : memory * vsnprintf_aux) : Prop :=
  let len := Z.of_nat (length (snd s1)) in
  fst s1 = outside m buffer buf_size /\ snd s2 = Aux (buffer + Z.min len room) len room /\ len < 2 ^ 31 /\ stored (snd s1) (fst s2).

Definition too_long (s1 : collector) : Prop := 2 ^ 31 <= Z.of_nat (length (snd s1)).

Lemma room_bound : 0 <= room /\ room <= buf_size /\ (room < buf_size \/ room = 0).
Proof. unfold room. destruct (Z.ltb_spec 0 buf_size); lia. Qed.

Lemma follows_memory s1 s2 : follows s1 s2 -> fst s1 ⊆ fst s2.
Proof.
  intros (-> & _ & _ & Hst). apply map_subseteq_spec. intros a b Hb. apply map_lookup_filter_Some in Hb as [Hb Hout]. cbn in Hout.
  rewrite (Hst a), decide_False by (pose proof room_bound; lia). done.
Qed.

Lemma stored_next t m' ch : stored t m' -> Z.of_nat (length t) < room ->
  exists m'', store (buffer + Z.of_nat (length t)) ch m' = Ok (tt, m'') /\ stored (t ++ [ch]) m''.
Proof.
  intros Hst Hlt. pose proof room_bound. set (p := buffer + Z.of_nat (length t)).
  assert (m' !! p = m !! p) as Ep by (rewrite (Hst p), decide_False by lia; done).
  destruct (Hmapped p) as (b & Hb & _); [lia|]. exists (<[p := u8 ch]> m'). split; [unfold store; rewrite bind_get, Ep, Hb; done|].
  intros a. rewrite length_app. cbn [length]. destruct (decide (a = p)) as [->|Hne].
  - rewrite lookup_insert_eq, decide_True by lia. replace (Z.to_nat (p - buffer)) with (length t) by lia. by rewrite list_lookup_middle.
  - rewrite lookup_insert_ne, (Hst a) by done. destruct (decide (buffer <= a < buffer + Z.min (Z.of_nat (length t)) room)).
    + rewrite decide_True by lia. by rewrite lookup_app_l by lia.
    + by rewrite decide_False by lia.
Qed.

Lemma helper_follows ch : sim follows too_long (collect ch) (vsnprintf_helper ch).
Proof.
  intros [m1 t] [] s1' E. injection E as <-. unfold too_long. cbn [fst snd]. rewrite length_app. cbn [length].
  split; [lia|]. intros [m2 aux] (Hm & Ha & Hlen & Hst). cbn [fst snd] in *. subst m1 aux.
  destruct (decide (2 ^ 31 <= Z.of_nat (length t + 1))) as [|Hok]; [by right|left].
  unfold vsnprintf_helper. rewrite bind_get. cbn [aux_length aux_max_length aux_p]. rewrite int_res_ok by lia.
  rewrite (bind_ok _ _ _ _ _ eq_refl). unfold follows. cbn [fst snd]. rewrite length_app. cbn [length].
  destruct (Z.ltb_spec (Z.of_nat (length t)) room) as [Hlt|Hge].
  - replace (Z.min (Z.of_nat (length t)) room) with (Z.of_nat (length t)) by lia.
    destruct (stored_next t m2 ch Hst Hlt) as (m'' & E & Hst''). rewrite E. eexists. split; [reflexivity|]. cbn [fst snd].
    split_and!; [done| |lia|done]. f_equal; lia.
  - eexists. split; [reflexivity|]. cbn [fst snd]. split_and!; [done|f_equal; lia|lia|]. intros a. rewrite (Hst a), length_app. cbn [length].
    replace (Z.min (Z.of_nat (length t + 1)) room) with room by lia. replace (Z.min (Z.of_nat (length t)) room) with room by lia.
    destruct (decide (buffer <= a < buffer + room)); [|done]. by rewrite lookup_app_l by lia.
Qed.

Lemma stored_bytes t m' : stored t m' -> forall l, l = u8 <$> take (Z.to_nat room) t -> forall k p, p = buffer + Z.of_nat k -> bytes m' p (drop k l).
Proof.
  intros Hst l Hl k. remember (length l - k)%nat as n eqn:En. revert k En. induction n as [|n IH]; intros k En p Hp.
  - by rewrite drop_ge by lia.
  - destruct (lookup_lt_is_Some_2 l k) as [x Hx]; [lia|]. rewrite (drop_S l x k Hx). cbn [bytes].
    subst l. apply list_lookup_fmap_Some in Hx as (y & -> & Hy). apply lookup_take_Some in Hy as [Hy Hk]. pose proof (lookup_lt_Some _ _ _ Hy).
    split; [|split; [apply uwrap_bound; lia|apply (IH (S k)); lia]]. rewrite (Hst p), decide_True by lia.
    replace (Z.to_nat (p - buffer)) with k by lia. by rewrite Hy.
Qed.

End Buffer.

Lemma terminator m p m' t buf_size : 0 < buf_size -> stored m p buf_size t m' -> mapped m p (Z.to_nat buf_size) -> buf_size <= 2 ^ 31 ->
  let text := u8 <$> take (Z.to_nat (buf_size - 1)) t in
  exists m'', store (p + Z.of_nat (length text)) 0 m' = Ok (tt, m'') /\ bytes m'' p (text ++ [0]) /\
    forall a, ~ (p <= a < p + buf_size) -> m'' !! a = m !! a.
Proof.
  intros Hpos Hst Hmap Hbig text. assert (room buf_size = buf_size - 1) as Hroom by (unfold room; by rewrite (proj2 (Z.ltb_lt _ _))).
  assert (length text = Nat.min (Z.to_nat (buf_size - 1)) (length t)) as Hlen by (unfold text; by rewrite length_fmap, length_take).
  set (q := p + Z.of_nat (length text)). destruct (Hmap q) as (b & Hb & _); [lia|].
  assert (m' !! q = Some b) as Hq by (rewrite (Hst q), decide_False by lia; done).
  exists (<[q := 0]> m'). split; [by apply (store_ok m' q b 0)|]. split.
  - apply bytes_app. split; [|fold q; cbn; by rewrite lookup_insert_eq].
    pose proof (stored_bytes m p buf_size t m' Hst text ltac:(unfold text; by rewrite Hroom) 0%nat p ltac:(lia)) as Hb'.
    cbn [drop] in Hb'. assert (forall l x, bytes m' x l -> x + Z.of_nat (length l) <= q -> bytes (<[q := 0]> m') x l) as Hfr.
    { induction l as [|c l IH]; intros x; [done|]. cbn [bytes length]. intros (Hx & Hc & Hl) Hle.
      rewrite lookup_insert_ne by lia. split_and!; [done|lia|lia|apply IH; [done|lia]]. }
    apply Hfr; [done|lia].
  - intros a Ha. rewrite lookup_insert_ne by lia. by rewrite (Hst a), decide_False by lia.
Qed.

Lemma vsnprintf_text m buffer buf_size format args text : 0 <= buf_size <= 2 ^ 31 -> mapped m buffer (Z.to_nat buf_size) ->
  text_of (outside m buffer buf_size) format args = Ok text -> Z.of_nat (length text) < 2 ^ 31 ->
  exists m', vsnprintf buffer buf_size format args m = Ok (Z.of_nat (length text), m') /\
    (0 < buf_size -> bytes m' buffer ((u8 <$> take (Z.to_nat (buf_size - 1)) text) ++ [0])) /\
    forall a, ~ (buffer <= a < buffer + buf_size) -> m' !! a = m !! a.
Proof.
  intros Hsize Hmap Htext Hlen. unfold text_of in Htext.
  destruct (__vprintf collect fst (vprintf_fuel format) format args (outside m buffer buf_size, [])) as [[[] [m1 t]]| | |] eqn:E; try discriminate Htext.
  injection Htext as ->. pose proof (room_bound buf_size Hsize) as Hroom.
  destruct (sim_vprintf collect fst vsnprintf_helper fst (follows m buffer buf_size) too_long (helper_follows m buffer buf_size Hsize Hmap)
    (follows_memory m buffer buf_size Hsize) _ _ _ _ _ _ E) as [_ Hsim].
  destruct (Hsim (m, Aux buffer 0 (room buf_size))) as [([m' aux] & E' & _ & Haux & _ & Hst)|Hlong]; [|..|unfold too_long in Hlong; cbn in Hlong; lia].
  { split_and!; [done|cbn; f_equal; lia|cbn; lia|]. intros a. cbn [fst snd length]. by rewrite decide_False by lia. }
  cbn [fst snd] in Haux, Hst. subst aux. unfold vsnprintf. rewrite bind_get. fold (room buf_size).
  rewrite i32_id by lia. rewrite E'. rewrite (bind_ok _ _ _ _ _ eq_refl). rewrite bind_put. cbn [aux_p aux_length].
  destruct (Z.ltb_spec 0 buf_size) as [Hpos|Hz].
  - destruct (terminator m buffer m' text buf_size Hpos Hst Hmap ltac:(lia)) as (m'' & Es & Hb & Hfr).
    rewrite length_fmap, length_take in Es. replace (Z.min (Z.of_nat (length text)) (room buf_size)) with
      (Z.of_nat (Nat.min (Z.to_nat (buf_size - 1)) (length text))) by (unfold room; rewrite (proj2 (Z.ltb_lt _ _)) by done; lia).
    crun Es. by exists m''.
  - rewrite bind_ret. exists m'. split; [done|]. split; [lia|]. intros a _. by rewrite (Hst a), decide_False by lia.
Qed.

(** C21: [vsnprintf] never writes outside of the buffer, whatever the format: it stores what the
    format prints, cut to [buf_size - 1] characters, and a terminator, leaves all other memory
    alone, and returns the length of the whole text. *)
Theorem vsnprintf_correct m buffer buf_size format args text : 0 <= buf_size <= 2 ^ 31 -> mapped m buffer (Z.to_nat buf_size) ->
  text_of (outside m buffer buf_size) format args = Ok text -> Z.of_nat (length text) < 2 ^ 31 ->
  exists m', vsnprintf buffer buf_size format args m = Ok (Z.of_nat (length text), m') /\
    (0 < buf_size -> bytes m' buffer ((u8 <$> take (Z.to_nat (buf_size - 1)) text) ++ [0])) /\
    forall a, ~ (buffer <= a < buffer + buf_size) -> m' !! a = m !! a.
Proof. apply vsnprintf_text. Qed.

(** ** There and back: [snprintf] and [atoi] *)

Definition plain : spec := Spec [] None None INT.

Lemma plain_ok : spec_ok plain.
Proof. by split. Qed.

(** The digits of [v], at least one. *)
Definition decimals (v : Z) : list Z := if v =? 0 then [0] else reverse (lsd 22 10 v).

Lemma decimals_ok v : 0 <= v < 2 ^ 64 -> Forall (fun d => 0 <= d < 10) (decimals v) /\ horner 0 (decimals v) = v /\
  (length (decimals v) <= 22)%nat /\ decimals v <> [].
Proof.
  intros Hv. unfold decimals. destruct (Z.eqb_spec v 0) as [->|Hn].
  - split_and!; [by repeat constructor|done|cbn; lia|done].
  - pose proof (lsd_length 22 10 v). split_and!; [apply Forall_reverse, lsd_digits; lia|rewrite horner_reverse; apply lsd_value; lia|by rewrite length_reverse|].
    destruct (lsd_last 22 10 v) as (d & l & -> & _); [lia..|done].
Qed.

Lemma decimal_text v : 0 <= v < 2 ^ 64 -> number_text (style_for plain) base_d v = (fun d => d + 48) <$> decimals v.
Proof.
  intros Hv. unfold number_text, octal_mark, filled, digits_text, plain_digits. cbn [style_for plain pound grouped prec marks].
  rewrite (bool_decide_eq_false_2 (35 ∈ [])), (bool_decide_eq_false_2 (39 ∈ [])) by apply not_elem_of_nil. cbn [andb base_d base sprec Z.ltb Z.compare].
  assert (digit_char base_d <$> lsd 22 10 v = (fun d => d + 48) <$> lsd 22 10 v) as ->.
  { apply list_fmap_ext. intros i d Hd. pose proof (proj1 (Forall_lookup _ _) (lsd_digits 22 10 v ltac:(lia)) i d Hd) as Hb. cbn beta in Hb.
    assert (d = 0 \/ d = 1 \/ d = 2 \/ d = 3 \/ d = 4 \/ d = 5 \/ d = 6 \/ d = 7 \/ d = 8 \/ d = 9) as Hc by lia.
    by repeat destruct Hc as [->|Hc]; [..|subst d]. }
  unfold decimals. destruct (Z.eqb_spec v 0) as [->|Hn]; [done|].
  destruct (lsd_last 22 10 v ltac:(lia) ltac:(lia)) as (d & l & El & _).
  assert (1 <= length (lsd 22 10 v))%nat by (rewrite <- length_reverse, El; cbn; lia).
  match goal with |- context [replicate ?n 48] => replace n with 0%nat by (rewrite length_fmap; change (Z.to_nat _) with 1%nat; lia) end.
  by rewrite app_nil_r, <- fmap_reverse.
Qed.

Lemma signed_text v : - 2 ^ 31 <= v < 2 ^ 31 ->
  directive_text (Signed plain 100 v) = (if v <? 0 then [45] else []) ++ ((fun d => d + 48) <$> decimals (Z.abs v)).
Proof.
  intros Hv. cbn [directive_text]. unfold int_text. rewrite decimal_text by lia.
  assert (sign_text (style_for plain) true (v <? 0) = (if v <? 0 then [45] else [])) as -> by (by destruct (v <? 0)).
  assert (prefix_text (style_for plain) base_d (Z.abs v) = []) as -> by done.
  assert (minus (style_for plain) = false /\ zero (style_for plain) = false) as [-> ->] by done. cbn [orb app].
  replace (Z.to_nat (field (style_for plain) - _)) with 0%nat by (cbn [field style_for plain swidth]; lia). cbn [replicate app]. by rewrite app_nil_r.
Qed.

Lemma digits_loop_ok l : Forall (fun d => 0 <= d < 10) l -> forall fuel m p a, cstr m p ((fun d => d + 48) <$> l) -> (length l < fuel)%nat ->
  0 <= a -> horner a l <= 2 ^ 31 -> digits_loop fuel p (- a) m = Ok (- horner a l, m).
Proof.
  induction 1 as [|d l Hd Hl IH]; intros fuel m p a Hc Hf Ha Hh; (destruct fuel as [|fuel]; [cbn in Hf; lia|]); cbn [digits_loop].
  - cbn in Hc. by crun (load_ok m p 0 Hc).
  - cbn [fmap list_fmap cstr] in Hc. destruct Hc as (Hp & _ & Hc). crun (load_ok _ _ _ Hp). rewrite isdigit_digit by done.
    change (horner a (d :: l)) with (horner (a * 10 + d) l) in *. pose proof (horner_ge l (a * 10 + d) ltac:(lia) Hl) as Hge.
    unfold int_arith. replace (- a * 10) with (- (a * 10)) by lia. rewrite i32_id, Z.eqb_refl, bind_ret by lia.
    replace (- (a * 10) - (d + 48 - 48)) with (- (a * 10 + d)) by lia. rewrite i32_id, Z.eqb_refl, bind_ret by lia.
    apply IH; [done|cbn in Hf; lia|lia|done].
Qed.

Lemma no_space fuel m p c : m !! p = Some c -> isspace c = false -> skip_space (S fuel) p m = Ok (p, m).
Proof. intros Hp Hc. cbn [skip_space]. crun (load_ok _ _ _ Hp). by rewrite Hc. Qed.

Lemma atoi_ok fuel m p v : p <> 0 -> - 2 ^ 31 <= v < 2 ^ 31 -> cstr m p (directive_text (Signed plain 100 v)) -> (32 <= fuel)%nat ->
  atoi fuel p m = Ok (v, m).
Proof.
  intros Hp Hv Hc Hf. rewrite signed_text in Hc by done. destruct (decimals_ok (Z.abs v) ltac:(lia)) as (Hds & Hval & Hlen & Hne).
  unfold atoi. rewrite assert_string_ok by done. destruct fuel as [|fuel]; [lia|].
  destruct (decimals (Z.abs v)) as [|d l] eqn:Ed; [done|]. inversion Hds as [|? ? Hd _]; subst.
  assert (length (d :: l) < S fuel)%nat as Hfl by lia. assert (horner 0 (d :: l) <= 2 ^ 31) as Hmax by (rewrite Hval; lia).
  destruct (Z.ltb_spec v 0) as [Hneg|Hpos]; cbn [app fmap list_fmap] in Hc.
  - destruct Hc as (H0 & _ & Hc). crun (no_space fuel m p 45 H0 eq_refl). crun (load_ok _ _ _ H0).
    cbn [Z.eqb Pos.eqb]. rewrite (bind_ok _ _ _ _ _ (digits_loop_ok (d :: l) Hds _ m (p + 1) 0 Hc Hfl ltac:(lia) Hmax)).
    rewrite Hval. cbn [negb]. unfold ret. do 2 f_equal. lia.
  - pose proof Hc as (H0 & _ & _).
    assert (isspace (d + 48) = false) as Hsp by (unfold isspace; repeat (rewrite orb_false_iff; split); apply Z.eqb_neq; lia).
    crun (no_space fuel m p _ H0 Hsp). crun (load_ok _ _ _ H0). rewrite !(proj2 (Z.eqb_neq (d + 48) _)) by lia.
    rewrite (bind_ok _ _ _ _ _ (digits_loop_ok (d :: l) Hds _ m p 0 Hc Hfl ltac:(lia) Hmax)).
    rewrite Hval. cbn [negb]. unfold int_arith. replace (- - Z.abs v) with v by lia. by rewrite i32_id, Z.eqb_refl by lia.
Qed.

Lemma signed_text_chars v : - 2 ^ 31 <= v < 2 ^ 31 ->
  Forall (fun c => 0 < c < 256) (directive_text (Signed plain 100 v)) /\ (length (directive_text (Signed plain 100 v)) <= 11)%nat.
Proof.
  intros Hv. rewrite signed_text by done. destruct (decimals_ok (Z.abs v) ltac:(lia)) as (Hds & _ & _ & _).
  assert (length (decimals (Z.abs v)) <= 10)%nat.
  { unfold decimals. destruct (Z.abs v =? 0); [cbn; lia|]. rewrite length_reverse, (lsd_more 10 22) by (cbn; lia). apply lsd_length. }
  split.
  - apply Forall_app. split; [destruct (v <? 0); repeat constructor; lia|]. apply Forall_fmap. eapply Forall_impl; [exact Hds|]. cbn. lia.
  - rewrite length_app, length_fmap. destruct (v <? 0); cbn [length]; lia.
Qed.

(** An [int] printed with [%d] into a buffer of 12 bytes or more and read back with [atoi] is
    the same number, from the smallest to the largest. *)
Theorem snprintf_atoi_roundtrip m buffer buf_size v fuel : buffer <> 0 -> 12 <= buf_size <= 2 ^ 31 -> mapped m buffer (Z.to_nat buf_size) ->
  - 2 ^ 31 <= v < 2 ^ 31 -> (32 <= fuel)%nat ->
  exists n m', snprintf buffer buf_size [37; 100] [u32 v] m = Ok (n, m') /\ atoi fuel buffer m' = Ok (v, m').
Proof.
  intros Hb Hsize Hmap Hv Hfuel. destruct (signed_text_chars v Hv) as [Hch Hlen]. set (text := directive_text (Signed plain 100 v)) in *.
  assert (text_of (outside m buffer buf_size) [37; 100] [u32 v] = Ok text) as Ht.
  { pose proof (directives_text (outside m buffer buf_size) [Signed plain 100 v]) as Hp. cbn [mbind list_bind] in Hp. rewrite !app_nil_r in Hp.
    apply Hp. constructor; [|done]. split; [apply plain_ok|]. split; [by_compute|]. cbn [type_bits plain stype]. change (32 - 1) with 31. lia. }
  destruct (vsnprintf_text m buffer buf_size _ _ text ltac:(lia) Hmap Ht ltac:(lia)) as (m' & E & Hbytes & _).
  exists (Z.of_nat (length text)), m'. split; [exact E|]. apply atoi_ok; [done|done| |done]. apply cstr_bytes. split; [|done].
  specialize (Hbytes ltac:(lia)). rewrite take_ge in Hbytes by lia.
  assert (u8 <$> text = text) as Hid; [|by rewrite Hid in Hbytes].
  rewrite <- (list_fmap_id text) at 2. apply list_fmap_ext. intros i c Hc. apply uwrap_id.
  pose proof (proj1 (Forall_lookup _ _) Hch i c Hc). cbn beta in *. unfold id in *. lia.
Qed.

(** ** Runs *)

Module Demo.

(** A string at 1000 and a buffer of 12 bytes at 2000. *)
Definition mem0 : memory := CString.Demo.write 1000 [104; 105] (CString.Demo.write 2000 (replicate 11 1) ∅).

(** The format [%-5d|%#x|%s%%|%'u|%05o|%lld|%.*s], with its arguments. *)
Definition line : list directive :=
  [Signed (Spec [45] (Some (Given 5)) None INT) 100 (-42); Literal 124;
   Unsigned (Spec [35] None None INT) 120 48879; Literal 124;
   Text (Spec [] None None INT) 1000 [104; 105]; Percent; Literal 124;
   Unsigned (Spec [39] None None INT) 117 1234567; Literal 124;
   Unsigned (Spec [48] (Some (Given 5)) None INT) 111 8; Literal 124;
   Signed (Spec [] None None LONGLONG) 100 (- 2 ^ 40); Literal 124;
   Text (Spec [] None (Some (Star 1)) INT) 1000 [104; 105]].

Lemma line_ok : Forall (directive_ok mem0) line.
Proof.
  repeat constructor; cbn [stype swidth sprec marks type_bits]; try done; try lia; by_compute.
Qed.


Lemma buffer_mapped : mapped mem0 2000 12.
Proof.
  intros a Ha. assert (In a (seqZ 2000 12)) as Hin by (apply list_elem_of_In, elem_of_seqZ; lia).
  assert (forallb (fun a => match mem0 !! a with Some b => (0 <=? b) && (b <? 256) | None => false end) (seqZ 2000 12) = true) as Hall by by_compute.
  pose proof (proj1 (forallb_forall _ _) Hall a Hin) as Hb. cbv beta in Hb. destruct (mem0 !! a) as [b|]; [|discriminate Hb].
  exists b. split; [reflexivity|]. apply andb_true_iff in Hb as [H1%Z.leb_le H2%Z.ltb_lt]. lia.
Qed.

(** [%x] of [0xbeef] in a buffer of 3 bytes: two digits and the terminator. *)
Lemma vsnprintf_correct_witness : exists m', vsnprintf 2000 3 [37; 120] [48879] mem0 = Ok (4, m') /\ bytes m' 2000 [98; 101; 0].
Proof.
  destruct (vsnprintf_correct mem0 2000 3 [37; 120] [48879] [98; 101; 101; 102]) as (m' & E & Hb & _).
  - lia.
  - apply (mapped_sub mem0 2000 12); [exact buffer_mapped|lia|lia].
  - vm_compute. reflexivity.
  - cbn. lia.
  - exists m'. split; [exact E|]. exact (Hb ltac:(lia)).
Defined.

Lemma snprintf_atoi_roundtrip_witness : exists n m', snprintf 2000 12 [37; 100] [u32 (- 2 ^ 31)] mem0 = Ok (n, m') /\
  atoi 32 2000 m' = Ok (- 2 ^ 31, m').
Proof.
  apply (snprintf_atoi_roundtrip mem0 2000 12 (- 2 ^ 31) 32); [lia|lia|exact buffer_mapped|lia|lia].
Defined.

End Demo.

(** The formats [%0*d] and [%-05d] of 42 in a field of 5 characters. *)
Definition zero_star : list Z := [37; 48; 42; 100].
Definition minus_zero : list Z := [37; 45; 48; 53; 100].

(** A width of -5 given as an argument asks for left-justification, as the flag [-] does, and
    takes away zero padding; but parsing drops the flag [0] before it sees the argument, and the
    number is padded on both sides, to more than the width of the field. *)
Theorem printf_pads_twice : text_of ∅ zero_star [u32 (-5); 42] = Ok [48; 48; 48; 52; 50; 32; 32; 32] /\
  text_of ∅ minus_zero [42] = Ok [52; 50; 32; 32; 32].
Proof. split; vm_compute; reflexivity. Qed.
