(* ===== verification/Ustar.v ===== *)
(** * Tar archives (lib/ustar.c)

    A header is the list of its 512 bytes, a file name the list of its
    characters.  [snprintf] into a field stores what StdioSpec.v shows that it
    stores: the text cut to the size of the field, and a terminator.  The
    theorems: a header that [ustar_make_header] composes is read back by
    [ustar_parse_header], and one with a byte changed is rejected. *)

From S2P Require Import Prelude CString Stdio StdioSpec Bytes BlockDev.
Local Open Scope Z_scope.

Definition USTAR_HEADER_SIZE : Z := 512.

Inductive ustar_type := USTAR_REGULAR | USTAR_DIRECTORY | USTAR_EOF.

#[export] Instance ustar_type_eq_dec : EqDecision ustar_type.
Proof. solve_decision. Defined.

(** The bytes of the file format; [USTAR_EOF] is -1. *)
Definition type_byte (t : ustar_type) : Z := match t with USTAR_REGULAR => 48 | USTAR_DIRECTORY => 53 | USTAR_EOF => -1 end.

(** ** The fields of [struct ustar_header]: offset and size *)

Record field_at := Field { ofs : Z; len : Z }.
Definition f_name : field_at := Field 0 100.
Definition f_mode : field_at := Field 100 8.
Definition f_uid : field_at := Field 108 8.
Definition f_gid : field_at := Field 116 8.
Definition f_size : field_at := Field 124 12.
Definition f_mtime : field_at := Field 136 12.
Definition f_chksum : field_at := Field 148 8.
Definition f_typeflag : field_at := Field 156 1.
Definition f_magic : field_at := Field 257 6.
Definition f_version : field_at := Field 263 2.
Definition f_uname : field_at := Field 265 32.
Definition f_gname : field_at := Field 297 32.
Definition f_prefix : field_at := Field 345 155.

Definition get_field (f : field_at) (h : list Z) : list Z := slice (ofs f) (len f) h.
Definition set_field (f : field_at) (l h : list Z) : list Z := overlay (ofs f) l h.

(** ** The code *)

Fixpoint chksum_loop (h : list Z) (i chksum : Z) : Z :=
  match h with
  | [] => chksum
  | b :: h =>
      let in_chksum_field := (ofs f_chksum <=? i) && (i <? ofs f_chksum + len f_chksum) in
      chksum_loop h (i + 1) (u32 (chksum + if in_chksum_field then 32 else b))
  end.
Definition calculate_chksum (h : list Z) : Z := chksum_loop h 0 0.

(** [memcmp] of the beginning of a string and a constant without null bytes. *)
Fixpoint starts_with (s prefix : list Z) : bool :=
  match prefix, s with
  | [], _ => true
  | c :: prefix, x :: s => (x =? c) && starts_with s prefix
  | _ :: _, [] => false
  end.

(** [strchr (s, '/') + 1]; a null pointer plus one is not a string. *)
Fixpoint after_slash (s : list Z) : res (list Z) :=
  match s with
  | [] => Fault
  | c :: s => if c =? 47 then Ok s else after_slash s
  end.

Fixpoint strip_antisocial_prefixes (fuel : nat) (file_name : list Z) : res (list Z) :=
  if starts_with file_name [47] || starts_with file_name [46; 47] || starts_with file_name [46; 46; 47] then
    match fuel with
    | O => NoFuel
    | S fuel => s <-! after_slash file_name;; strip_antisocial_prefixes fuel s
    end
  else Ok (if bool_decide (file_name = []) || bool_decide (file_name = [46; 46]) then [46] else file_name).

(** [strlcpy] of a constant, and [snprintf], into a field. *)
Definition store_string (f : field_at) (s h : list Z) : list Z := set_field f (take (Z.to_nat (len f - 1)) s ++ [0]) h.
Definition store_printf (f : field_at) (size : Z) (format args h : list Z) : res (list Z) :=
  s <-! text_of ∅ format args;; Ok (set_field f (take (Z.to_nat (size - 1)) s ++ [0]) h).

(** [%07o], [%011o] and the strings. *)
Definition octal7 : list Z := [37; 48; 55; 111].
Definition octal11 : list Z := [37; 48; 49; 49; 111].
Definition zeros : list Z := replicate 7 48.
Definition ustar : list Z := [117; 115; 116; 97; 114].
Definition root : list Z := [114; 111; 111; 116].

Definition ustar_make_header (file_name : list Z) (type : ustar_type) (size : Z) : res (option (list Z)) :=
  _ <-! res_assert (bool_decide (type = USTAR_REGULAR) || bool_decide (type = USTAR_DIRECTORY));;
  file_name <-! strip_antisocial_prefixes (length file_name) file_name;;
  if Z.of_nat (length file_name) >? 99 then Ok None
  else
    let h := replicate 512 0 in
    let h := store_string f_name file_name h in
    h <-! store_printf f_mode (len f_mode) octal7 [if bool_decide (type = USTAR_REGULAR) then 420 else 493] h;;
    let h := store_string f_uid zeros h in
    let h := store_string f_gid zeros h in
    h <-! store_printf f_size (len f_size) octal11 [u32 size] h;;
    h <-! store_printf f_mtime (len f_size) octal11 [1136102400] h;;
    let h := set_field f_typeflag [u8 (type_byte type)] h in
    let h := store_string f_magic ustar h in
    let h := set_field f_version [48; 48] h in
    let h := store_string f_gname root h in
    let h := store_string f_uname root h in
    h <-! store_printf f_chksum (len f_chksum) octal7 [calculate_chksum h] h;;
    Ok (Some h).

(** [parse_octal_field]: the value, if the field is well formed. *)
Fixpoint parse_octal_loop (s : list Z) (first : bool) (value : Z) : option Z :=
  match s with
  | [] => None
  | c :: s =>
      if (48 <=? c) && (c <=? 55) then
        if value >? 0xffffffff / 8 then None else parse_octal_loop s false (u32 (c - 48 + value * 8))
      else if (c =? 32) || (c =? 0) then if first then None else Some value
      else None
  end.
Definition parse_octal_field (s : list Z) : option Z := parse_octal_loop s true 0.

Definition is_all_zeros (block : list Z) : bool := forallb (fun b => b =? 0) block.

(** The messages, in the order of the checks. *)
Inductive ustar_error :=
  | NotUstar | BadVersion | CorruptChksum | ChecksumMismatch | NameTooLong | UnimplementedType | CorruptSize | FileTooLarge.

Inductive parsed :=
  | Parsed (file_name : option (list Z)) (type : ustar_type) (size : Z)
  | Rejected (e : ustar_error).

(** The C string at the beginning of a field, up to the end of the header. *)
Fixpoint cstring_of (l : list Z) : res (list Z) :=
  match l with
  | [] => Fault
  | c :: l => if c =? 0 then Ok [] else s <-! cstring_of l;; Ok (c :: s)
  end.

Definition ustar_parse_header (h : list Z) : res parsed :=
  if is_all_zeros h then Ok (Parsed None USTAR_EOF 0)
  else if negb (bool_decide (get_field f_magic h = ustar ++ [0])) then Ok (Rejected NotUstar)
  else if negb (bool_decide (get_field f_version h = [48; 48])) then Ok (Rejected BadVersion)
  else
    match parse_octal_field (get_field f_chksum h) with
    | None => Ok (Rejected CorruptChksum)
    | Some chksum =>
        if negb (chksum =? calculate_chksum h) then Ok (Rejected ChecksumMismatch)
        else if negb (bool_decide (slice 99 1 h = [0])) || negb (bool_decide (slice 345 1 h = [0])) then Ok (Rejected NameTooLong)
        else
          let success type size :=
            s <-! cstring_of h;;
            s <-! strip_antisocial_prefixes (length s) s;;
            Ok (Parsed (Some s) type size) in
          if bool_decide (get_field f_typeflag h = [48]) then
            match parse_octal_field (get_field f_size h) with
            | None => Ok (Rejected CorruptSize)
            | Some size => if size >? 0x7fffffff then Ok (Rejected FileTooLarge) else success USTAR_REGULAR (i32 size)
            end
          else if bool_decide (get_field f_typeflag h = [53]) then success USTAR_DIRECTORY 0
          else Ok (Rejected UnimplementedType)
    end.

(** ** Octal fields *)

(** [w] octal digits. *)
Definition octals (w : nat) (v : Z) : list Z := reverse (lsd w 8 v ++ replicate (w - length (lsd w 8 v)) 0).

Lemma octals_digits w v : Forall (fun d => 0 <= d < 8) (octals w v).
Proof. apply Forall_reverse, Forall_app. split; [apply lsd_digits; lia|by apply Forall_replicate]. Qed.

Lemma octals_length w v : length (octals w v) = w.
Proof. pose proof (lsd_length w 8 v). unfold octals. rewrite length_reverse, length_app, length_replicate. lia. Qed.

Lemma value_of_app b l l' : value_of b (l ++ l') = value_of b l + b ^ Z.of_nat (length l) * value_of b l'.
Proof.
  induction l as [|d l IH]; [cbn [app value_of length]; change (Z.of_nat 0) with 0; lia|].
  cbn [app value_of length]. rewrite IH, Nat2Z.inj_succ, Z.pow_succ_r by lia. lia.
Qed.

Lemma octals_value w v : 0 <= v < 8 ^ Z.of_nat w -> value_of 8 (reverse (octals w v)) = v.
Proof.
  intros Hv. unfold octals. rewrite reverse_involutive, value_of_app, lsd_value by lia.
  assert (forall n, value_of 8 (replicate n 0) = 0) as -> by (induction n as [|n IH]; [done|]; cbn; rewrite IH; done). lia.
Qed.

Definition octal_spec (w : Z) : spec := Spec [48] (Some (Given w)) None INT.

Lemma octal_spec_ok w : 0 < w < 100 -> spec_ok (octal_spec w).
Proof. intros Hw. split; cbn; [by repeat constructor|lia|done]. Qed.

Lemma octal_digit_char l : Forall (fun d => 0 <= d < 8) l -> digit_char base_o <$> l = (fun d => d + 48) <$> l.
Proof.
  intros Hl. apply list_fmap_ext. intros i d Hd. pose proof (proj1 (Forall_lookup _ _) Hl i d Hd) as Hb. cbn beta in Hb.
  assert (d = 0 \/ d = 1 \/ d = 2 \/ d = 3 \/ d = 4 \/ d = 5 \/ d = 6 \/ d = 7) as Hc by lia. by repeat destruct Hc as [->|Hc]; [..|subst d].
Qed.

Lemma octal_text w v : (0 < w <= 22)%nat -> 0 <= v < 8 ^ Z.of_nat w ->
  int_text (style_for (octal_spec (Z.of_nat w))) false false base_o v = (fun d => d + 48) <$> octals w v.
Proof.
  intros Hw Hv. unfold int_text. cbn [sign_text app].
  assert (prefix_text (style_for (octal_spec (Z.of_nat w))) base_o v = []) as -> by done. cbn [app].
  assert (minus (style_for (octal_spec (Z.of_nat w))) = false /\ zero (style_for (octal_spec (Z.of_nat w))) = true) as [-> ->] by done.
  cbn [orb app]. rewrite app_nil_r. change (field (style_for (octal_spec (Z.of_nat w)))) with (Z.of_nat w).
  set (ds := lsd w 8 v). assert (lsd 22 8 v = ds) as Hds by (apply lsd_more; lia).
  pose proof (lsd_length w 8 v) as Hl. fold ds in Hl. pose proof (lsd_digits w 8 v ltac:(lia)) as Hd. fold ds in Hd.
  assert (number_text (style_for (octal_spec (Z.of_nat w))) base_o v = (fun d => d + 48) <$> reverse (ds ++ replicate (1 - length ds) 0)) as ->.
  { unfold number_text, octal_mark, filled, digits_text, plain_digits. cbn [style_for octal_spec pound grouped prec marks sprec Z.ltb Z.compare].
    rewrite (bool_decide_eq_false_2 (35 ∈ [48])), (bool_decide_eq_false_2 (39 ∈ [48])) by by_compute. cbn [andb base_o base].
    rewrite Hds, octal_digit_char, length_fmap by done. change (Z.to_nat (Z.min 1 63)) with 1%nat.
    rewrite fmap_reverse, fmap_app, fmap_replicate. done. }
  unfold octals. fold ds. rewrite length_fmap, length_reverse, length_app, length_replicate, !fmap_reverse, !fmap_app, !fmap_replicate.
  change (0 + 48) with 48. rewrite !reverse_app, !reverse_replicate, app_assoc. f_equal. rewrite <- replicate_add. f_equal. lia.
Qed.

Lemma octal_field_text w v : (0 < w <= 22)%nat -> 0 <= v < 8 ^ Z.of_nat w -> v < 2 ^ 32 ->
  text_of ∅ (directive_format (Unsigned (octal_spec (Z.of_nat w)) 111 v)) [v] = Ok ((fun d => d + 48) <$> octals w v).
Proof.
  intros Hw Hv Hv'. rewrite <- (octal_text w v) by lia.
  pose proof (directives_text ∅ [Unsigned (octal_spec (Z.of_nat w)) 111 v]) as Hp. cbn [mbind list_bind] in Hp. rewrite !app_nil_r in Hp.
  cbn [directive_words spec_words octal_spec swidth sprec stype count_words value_words app] in Hp. rewrite u32_id in Hp by lia. apply Hp.
  constructor; [|done]. split; [apply octal_spec_ok; lia|]. split; [by_compute|]. cbn [type_bits octal_spec stype]. lia.
Qed.

Lemma octal7_text v : 0 <= v < 8 ^ 7 -> text_of ∅ octal7 [v] = Ok ((fun d => d + 48) <$> octals 7 v).
Proof. intros Hv. apply (octal_field_text 7); lia. Qed.

Lemma octal11_text v : 0 <= v < 2 ^ 32 -> text_of ∅ octal11 [v] = Ok ((fun d => d + 48) <$> octals 11 v).
Proof. intros Hv. apply (octal_field_text 11); lia. Qed.

Lemma parse_octals l v : Forall (fun d => 0 <= d < 8) l -> forall first a, 0 <= a -> fold_left (fun a d => a * 8 + d) l a = v -> v < 2 ^ 32 ->
  (l = [] -> first = false) -> parse_octal_loop (((fun d => d + 48) <$> l) ++ [0]) first a = Some v.
Proof.
  induction 1 as [|d l Hd Hl IH]; intros first a Ha Hv Hmax Hfirst; cbn [fmap list_fmap app parse_octal_loop].
  - cbn in Hv. subst a. by rewrite Hfirst.
  - cbn [fold_left] in Hv. assert (forall l, Forall (fun d => 0 <= d < 8) l -> forall a, 0 <= a -> a <= fold_left (fun a d => a * 8 + d) l a) as Hge.
    { clear. induction 1 as [|d l Hd Hl IH]; intros a Ha; [done|]. cbn. etransitivity; [|apply IH; lia]. lia. }
    pose proof (Hge l Hl (a * 8 + d) ltac:(lia)). rewrite (proj2 (Z.leb_le 48 _)), (proj2 (Z.leb_le _ 55)) by lia. cbn [andb].
    rewrite Z.gtb_ltb, (proj2 (Z.ltb_ge _ _)) by (change (0xffffffff / 8) with 536870911; lia).
    rewrite u32_id by lia. replace (d + 48 - 48 + a * 8) with (a * 8 + d) by lia. by apply IH; [lia|..].
Qed.

Lemma parse_octal_field_ok w v : (0 < w)%nat -> 0 <= v < 8 ^ Z.of_nat w -> v < 2 ^ 32 ->
  parse_octal_field (((fun d => d + 48) <$> octals w v) ++ [0]) = Some v.
Proof.
  intros Hw Hv Hv'. apply parse_octals; [apply octals_digits|lia| |done|].
  - rewrite <- (octals_value w v Hv) at 2. rewrite <- (reverse_involutive (octals w v)) at 1. generalize (reverse (octals w v)). intros l.
    induction l as [|d l IH]; [done|]. rewrite reverse_cons, fold_left_app. cbn [fold_left value_of]. rewrite IH. lia.
  - intros E. pose proof (octals_length w v) as Hl. rewrite E in Hl. cbn in Hl. lia.
Qed.

(** ** The checksum *)

Definition in_chksum (i : Z) : bool := (ofs f_chksum <=? i) && (i <? ofs f_chksum + len f_chksum).

Fixpoint sum_from (i : Z) (h : list Z) : Z :=
  match h with
  | [] => 0
  | b :: h => (if in_chksum i then 32 else b) + sum_from (i + 1) h
  end.

Lemma chksum_sum h : forall i c, chksum_loop h i (u32 c) = u32 (c + sum_from i h).
Proof.
  induction h as [|b h IH]; intros i c; cbn [chksum_loop sum_from]; [by rewrite Z.add_0_r|]. fold (in_chksum i).
  assert (u32 (u32 c + (if in_chksum i then 32 else b)) = u32 (c + (if in_chksum i then 32 else b))) as -> by (unfold uwrap; by rewrite Zplus_mod_idemp_l).
  rewrite IH. f_equal. lia.
Qed.

Lemma sum_bound h : Forall byte h -> forall i, 0 <= sum_from i h <= 255 * Z.of_nat (length h).
Proof.
  induction 1 as [|b h Hb Hh IH]; intros i; cbn [sum_from length]; [lia|]. unfold byte in Hb. specialize (IH (i + 1)). destruct (in_chksum i); lia.
Qed.

Lemma chksum_eq h : Forall byte h -> length h = 512%nat -> calculate_chksum h = sum_from 0 h /\ 0 <= sum_from 0 h < 8 ^ 7.
Proof.
  intros Hh Hl. pose proof (sum_bound h Hh 0) as Hs. rewrite Hl in Hs. unfold calculate_chksum. change 0 with (u32 0) at 2.
  rewrite chksum_sum. rewrite u32_id by lia. split; lia.
Qed.

Lemma sum_insert h b : forall k i x, h !! k = Some x ->
  sum_from i (<[k := b]> h) = sum_from i h + (if in_chksum (i + Z.of_nat k) then 0 else b - x).
Proof.
  induction h as [|y h IH]; intros k i x Hk; [done|]. destruct k as [|k].
  - injection Hk as ->. cbn. rewrite Z.add_0_r. destruct (in_chksum i); lia.
  - change (<[S k := b]> (y :: h)) with (y :: <[k := b]> h). cbn [sum_from]. rewrite (IH k (i + 1) x Hk). replace (i + 1 + Z.of_nat k) with (i + Z.of_nat (S k)) by lia. lia.
Qed.

(** The checksum field itself does not count. *)
Lemma sum_agree : forall h h' i, length h = length h' ->
  (forall k, in_chksum (i + Z.of_nat k) = false -> h !! k = h' !! k) -> sum_from i h = sum_from i h'.
Proof.
  induction h as [|b h IH]; intros [|b' h'] i Hl Hag; try discriminate Hl; [done|]. cbn [sum_from].
  rewrite (IH h' (i + 1)); [|by injection Hl|intros k Hk; apply (Hag (S k)); rewrite <- Hk; f_equal; lia].
  destruct (in_chksum i) eqn:Hi; [done|]. specialize (Hag 0%nat). rewrite Z.add_0_r in Hag. by injection (Hag Hi) as ->.
Qed.

(** ** Fields *)

Definition header_ok (h : list Z) : Prop := length h = 512%nat /\ Forall byte h.

Lemma set_field_ok f l h : 0 <= ofs f -> ofs f + Z.of_nat (length l) <= 512 -> Forall byte l -> header_ok h -> header_ok (set_field f l h).
Proof. intros H0 Hl Hb [Hlen Hh]. split; [unfold set_field; rewrite length_overlay; lia|by apply overlay_bytes]. Qed.

Lemma get_set_same f l h : 0 <= ofs f -> Z.of_nat (length l) = len f -> ofs f + len f <= Z.of_nat (length h) -> get_field f (set_field f l h) = l.
Proof.
  intros H0 Hl Hb. apply list_eq. intros k. unfold get_field, set_field. destruct (decide (Z.of_nat k < len f)) as [Hk|Hk].
  - rewrite lookup_slice, lookup_overlay, decide_True by lia. f_equal. lia.
  - rewrite !lookup_ge_None_2; [done|lia|]. rewrite length_slice; [lia|lia|lia|]. rewrite length_overlay by lia. lia.
Qed.

Lemma get_set_other f g l h : 0 <= ofs f -> 0 <= len f -> 0 <= ofs g -> ofs f + len f <= Z.of_nat (length h) ->
  ofs g + Z.of_nat (length l) <= Z.of_nat (length h) ->
  ofs f + len f <= ofs g \/ ofs g + Z.of_nat (length l) <= ofs f -> get_field f (set_field g l h) = get_field f h.
Proof.
  intros H0 H1 H2 Hf Hg Hd. apply list_eq. intros k. unfold get_field, set_field. destruct (decide (Z.of_nat k < len f)) as [Hk|Hk].
  - rewrite !lookup_slice, lookup_overlay, decide_False by lia. done.
  - rewrite !lookup_ge_None_2; [done|rewrite length_slice; lia|]. rewrite length_slice; [lia|lia|lia|]. rewrite length_overlay by lia. lia.
Qed.

(** ** File names *)

(** A name that stays below the directory it is used in. *)
Definition social (s : list Z) : Prop :=
  starts_with s [47] = false /\ starts_with s [46; 47] = false /\ starts_with s [46; 46; 47] = false /\ s <> [] /\ s <> [46; 46].

Lemma strip_social fuel s : social s -> strip_antisocial_prefixes fuel s = Ok s.
Proof.
  intros (H1 & H2 & H3 & H4 & H5). destruct fuel; cbn [strip_antisocial_prefixes]; rewrite H1, H2, H3; cbn [orb];
    by rewrite !bool_decide_eq_false_2.
Qed.

Lemma after_slash_ok s : 47 ∈ s -> exists s1 s2, s = s1 ++ s2 /\ after_slash s = Ok s2 /\ (length s2 < length s)%nat.
Proof.
  induction s as [|c s IH]; intros Hin; [by apply not_elem_of_nil in Hin|]. cbn [after_slash]. destruct (Z.eqb_spec c 47) as [->|Hc].
  - exists [47], s. split_and!; [done|done|cbn; lia].
  - apply elem_of_cons in Hin as [?|Hin]; [congruence|]. destruct (IH Hin) as (s1 & s2 & -> & E & Hl).
    exists (c :: s1), s2. split_and!; [done|done|cbn; lia].
Qed.

Lemma starts_slash s : starts_with s [47] || starts_with s [46; 47] || starts_with s [46; 46; 47] = true -> 47 ∈ s.
Proof.
  destruct s as [|a [|b [|c s]]]; cbn [starts_with]; rewrite ?andb_true_r, ?andb_false_r, ?orb_false_r; try done;
    rewrite ?orb_true_iff, ?andb_true_iff, ?Z.eqb_eq; rewrite !elem_of_cons; naive_solver.
Qed.

(** [strip_antisocial_prefixes] ends with a social name, a suffix of the given one or [.]. *)
Lemma strip_ok : forall fuel s, (length s <= fuel)%nat ->
  exists s', strip_antisocial_prefixes fuel s = Ok s' /\ social s' /\ (s' = [46] \/ exists s0, s = s0 ++ s').
Proof.
  induction fuel as [|fuel IH]; intros s Hf; cbn [strip_antisocial_prefixes];
    destruct (starts_with s [47] || starts_with s [46; 47] || starts_with s [46; 46; 47]) eqn:Hst.
  - apply starts_slash in Hst. destruct s; [by apply not_elem_of_nil in Hst|cbn in Hf; lia].
  - destruct s; [|cbn in Hf; lia]. exists [46]. split_and!; [done|by split_and!|by left].
  - destruct (after_slash_ok s (starts_slash s Hst)) as (s1 & s2 & -> & -> & Hl). cbn [res_bind].
    destruct (IH s2) as (s' & E & Hs & Hsuf); [lia|]. exists s'. split_and!; [done|done|]. destruct Hsuf as [?|(s0 & ->)]; [by left|].
    right. exists (s1 ++ s0). by rewrite app_assoc.
  - apply orb_false_iff in Hst as [Hst H3]. apply orb_false_iff in Hst as [H1 H2].
    destruct (bool_decide (s = []) || bool_decide (s = [46; 46])) eqn:Hd.
    + exists [46]. split_and!; [done|by split_and!|by left].
    + apply orb_false_iff in Hd as [?%bool_decide_eq_false ?%bool_decide_eq_false]. exists s. split_and!; [done|by split_and!|]. right. by exists [].
Qed.

Definition name_chars (s : list Z) : Prop := Forall (fun c => 0 < c < 256) s.

Lemma strip_chars s s' : name_chars s -> (s' = [46] \/ exists s0, s = s0 ++ s') -> name_chars s'.
Proof. intros Hs [->|(s0 & ->)]; [by repeat constructor|]. by apply Forall_app in Hs as [_ Hs]. Qed.

Lemma cstring_of_app s rest : name_chars s -> cstring_of (s ++ 0 :: rest) = Ok s.
Proof. induction 1 as [|c s Hc Hs IH]; [done|]. cbn [app cstring_of]. rewrite (proj2 (Z.eqb_neq c 0)) by lia. by rewrite IH. Qed.

(** ** Composing a header: a sequence of updates *)

Definition update : Type := field_at * list Z.
Definition apply_updates (us : list update) (h : list Z) : list Z := fold_left (fun h u => set_field (fst u) (snd u) h) us h.

Definition update_ok (u : update) : Prop :=
  0 <= ofs (fst u) /\ ofs (fst u) + Z.of_nat (length (snd u)) <= 512 /\ Forall byte (snd u).

Definition apart (f : field_at) (u : update) : Prop :=
  ofs f + len f <= ofs (fst u) \/ ofs (fst u) + Z.of_nat (length (snd u)) <= ofs f.

Lemma apply_ok us : Forall update_ok us -> forall h, header_ok h -> header_ok (apply_updates us h).
Proof. induction 1 as [|[f l] us (H1 & H2 & H3) _ IH]; intros h Hh; [done|]. apply IH. by apply set_field_ok. Qed.

Lemma get_apart f us : 0 <= ofs f -> 0 <= len f -> ofs f + len f <= 512 -> Forall update_ok us -> Forall (apart f) us -> forall h, header_ok h ->
  get_field f (apply_updates us h) = get_field f h.
Proof.
  intros H0 H1 H2 Hus. induction Hus as [|[g l] us (U1 & U2 & U3) _ IH]; intros Hap h Hh; [done|]. inversion Hap as [|? ? Ha Hap']; subst.
  cbn [apply_updates fold_left]. fold (apply_updates us (set_field g l h)). cbn [fst snd] in *.
  rewrite IH by (done || by apply set_field_ok). destruct Hh as [Hl _]. apply get_set_other; try lia. done.
Qed.

(** The field that [u] writes, after later updates elsewhere. *)
Lemma get_written us1 f l us2 h : len f = Z.of_nat (length l) -> Forall update_ok (us1 ++ (f, l) :: us2) -> Forall (apart f) us2 -> header_ok h ->
  get_field f (apply_updates (us1 ++ (f, l) :: us2) h) = l.
Proof.
  intros Hlen Hus Hap Hh. apply Forall_app in Hus as [Hus1 Hus2]. inversion Hus2 as [|? ? (U1 & U2 & U3) Hus2']; subst. cbn [fst snd] in *.
  unfold apply_updates. rewrite fold_left_app. fold (apply_updates us1 h). cbn [fold_left fst snd].
  pose proof (apply_ok us1 Hus1 h Hh) as Hh1. fold (apply_updates us2 (set_field f l (apply_updates us1 h))).
  rewrite get_apart by (done || lia || by apply set_field_ok). apply get_set_same; [lia|lia|destruct Hh1; lia].
Qed.

Definition octal_bytes (w : nat) (v : Z) : list Z := ((fun d => d + 48) <$> octals w v) ++ [0].

Lemma octal_bytes_ok w v : Forall byte (octal_bytes w v) /\ length (octal_bytes w v) = S w.
Proof.
  unfold octal_bytes. rewrite length_app, length_fmap, octals_length. split; [|cbn; lia]. apply Forall_app. split; [|by repeat constructor].
  apply Forall_fmap. eapply Forall_impl; [apply octals_digits|]. unfold byte. cbn. lia.
Qed.

(** What [ustar_make_header] writes before the checksum. *)
Definition updates (s : list Z) (t : ustar_type) (size : Z) : list update :=
  [(f_name, s ++ [0]); (f_mode, octal_bytes 7 (if bool_decide (t = USTAR_REGULAR) then 420 else 493)); (f_uid, zeros ++ [0]);
   (f_gid, zeros ++ [0]); (f_size, octal_bytes 11 size); (f_mtime, octal_bytes 11 1136102400); (f_typeflag, [type_byte t]);
   (f_magic, ustar ++ [0]); (f_version, [48; 48]); (f_gname, root ++ [0]); (f_uname, root ++ [0])].

Lemma updates_ok s t size : (length s <= 99)%nat -> name_chars s -> t <> USTAR_EOF -> Forall update_ok (updates s t size).
Proof.
  intros Hl Hs Ht. assert (forall w v, Forall byte (octal_bytes w v)) as Hob by (intros; apply octal_bytes_ok).
  repeat constructor; cbn [fst snd ofs f_name f_mode f_uid f_gid f_size f_mtime f_typeflag f_magic f_version f_gname f_uname];
    rewrite ?(proj2 (octal_bytes_ok _ _)), ?length_app; cbn [length]; try lia; try apply Hob; try by_compute.
  - apply Forall_app. split; [|by repeat constructor]. eapply Forall_impl; [exact Hs|]. unfold byte. cbn. lia.
  - by destruct t.
  - by destruct t.
Qed.

Definition blank_header : list Z := replicate 512 0.

Lemma blank_header_ok : header_ok blank_header.
Proof. split; [done|]. by apply Forall_replicate. Qed.

Definition composed (s : list Z) (t : ustar_type) (size : Z) : list Z :=
  let h := apply_updates (updates s t size) blank_header in
  set_field f_chksum (octal_bytes 7 (calculate_chksum h)) h.

Lemma take_octal w v : take w ((fun d => d + 48) <$> octals w v) ++ [0] = octal_bytes w v.
Proof. rewrite take_ge; [done|]. by rewrite length_fmap, octals_length. Qed.

Lemma make_header_ok name s t size : t <> USTAR_EOF -> strip_antisocial_prefixes (length name) name = Ok s -> (length s <= 99)%nat ->
  name_chars s -> 0 <= size < 2 ^ 31 -> ustar_make_header name t size = Ok (Some (composed s t size)).
Proof.
  intros Ht Hs Hl Hch Hsize. unfold ustar_make_header.
  assert (bool_decide (t = USTAR_REGULAR) || bool_decide (t = USTAR_DIRECTORY) = true) as -> by (by destruct t). cbn [res_assert res_bind].
  rewrite Hs. cbn [res_bind]. rewrite Z.gtb_ltb, (proj2 (Z.ltb_ge _ _)) by lia. unfold store_printf.
  rewrite octal7_text by (destruct (bool_decide _); lia). cbn [res_bind]. rewrite u32_id by lia. rewrite !octal11_text by lia. cbn [res_bind].
  change (Z.to_nat (len f_mode - 1)) with 7%nat. change (Z.to_nat (len f_size - 1)) with 11%nat. change (Z.to_nat (len f_chksum - 1)) with 7%nat.
  rewrite !take_octal. unfold store_string. rewrite (take_ge s) by (cbn [len f_name]; lia).
  assert (u8 (type_byte t) = type_byte t) as -> by (by destruct t).
  change (set_field f_uname _ _) with (apply_updates (updates s t size) blank_header). set (h := apply_updates _ _).
  assert (header_ok h) as [Hlen Hbytes] by (apply apply_ok; [by apply updates_ok|apply blank_header_ok]).
  destruct (chksum_eq h Hbytes Hlen) as [Ec Hc]. rewrite octal7_text by lia. cbn [res_bind]. rewrite take_octal. done.
Qed.

(** The facts about the header that parsing relies on. *)
Record well_made (s : list Z) (t : ustar_type) (size : Z) (h : list Z) : Prop := WellMade {
  wm_ok : header_ok h;
  wm_name : slice 0 (Z.of_nat (length s) + 1) h = s ++ [0];
  wm_magic : get_field f_magic h = ustar ++ [0];
  wm_version : get_field f_version h = [48; 48];
  wm_chksum : get_field f_chksum h = octal_bytes 7 (calculate_chksum h);
  wm_name_end : slice 99 1 h = [0];
  wm_prefix : slice 345 1 h = [0];
  wm_type : get_field f_typeflag h = [type_byte t];
  wm_size : get_field f_size h = octal_bytes 11 size
}.

Section Composed.
Context (s : list Z) (t : ustar_type) (size : Z).
Context (Hl : (length s <= 99)%nat) (Hs : name_chars s) (Ht : t <> USTAR_EOF).

Definition body : list Z := apply_updates (updates s t size) blank_header.
Definition chksum_bytes : list Z := octal_bytes 7 (calculate_chksum body).

Lemma body_ok : header_ok body.
Proof. apply apply_ok; [by apply updates_ok|apply blank_header_ok]. Qed.

Lemma all_updates_ok : Forall update_ok (updates s t size ++ [(f_chksum, chksum_bytes)]).
Proof.
  unfold chksum_bytes. destruct (octal_bytes_ok 7 (calculate_chksum body)) as [Hcb Hcl].
  apply Forall_app. split; [by apply updates_ok|]. constructor; [|constructor]. split_and!; cbn [fst snd ofs f_chksum]; [lia|rewrite Hcl; lia|done].
Qed.

Lemma composed_updates : composed s t size = apply_updates (updates s t size ++ [(f_chksum, chksum_bytes)]) blank_header.
Proof. unfold composed, chksum_bytes, body, apply_updates at 3. rewrite fold_left_app. reflexivity. Qed.

Lemma composed_ok : header_ok (composed s t size).
Proof. rewrite composed_updates. apply apply_ok; [apply all_updates_ok|apply blank_header_ok]. Qed.

(** The checksum does not change when it is stored. *)
Lemma composed_chksum : calculate_chksum (composed s t size) = calculate_chksum body.
Proof.
  destruct composed_ok as [Hl1 Hb1], body_ok as [Hl2 Hb2]. rewrite (proj1 (chksum_eq _ Hb1 Hl1)), (proj1 (chksum_eq _ Hb2 Hl2)).
  destruct (octal_bytes_ok 7 (calculate_chksum body)) as [_ Hcl]. apply sum_agree; [congruence|]. intros k Hk. unfold composed, set_field. fold body.
  rewrite lookup_overlay; [|cbn; lia|rewrite Hcl; cbn [ofs f_chksum]; lia]. rewrite decide_False; [done|]. rewrite Hcl.
  unfold in_chksum in Hk. cbn [ofs len f_chksum] in *. intros [A B]. rewrite (proj2 (Z.leb_le _ _)), (proj2 (Z.ltb_lt _ _)) in Hk by lia. done.
Qed.

Lemma composed_get f us1 l us2 : updates s t size ++ [(f_chksum, chksum_bytes)] = us1 ++ (f, l) :: us2 -> len f = Z.of_nat (length l) ->
  Forall (apart f) us2 -> get_field f (composed s t size) = l.
Proof.
  intros E Hlen Hap. rewrite composed_updates. pose proof all_updates_ok as Hok. rewrite E in *.
  apply get_written; [done|done|done|apply blank_header_ok].
Qed.

Lemma composed_blank f : 0 <= ofs f -> 0 <= len f -> ofs f + len f <= 512 -> Forall (apart f) (updates s t size ++ [(f_chksum, chksum_bytes)]) ->
  get_field f (composed s t size) = get_field f blank_header.
Proof. intros H0 H1 H2 Hap. rewrite composed_updates. apply get_apart; try done; [apply all_updates_ok|apply blank_header_ok]. Qed.

End Composed.

Ltac apart_one :=
  unfold apart, chksum_bytes; cbn [fst snd ofs len f_name f_mode f_uid f_gid f_size f_mtime f_chksum f_typeflag f_magic f_version f_gname f_uname];
  rewrite ?(proj2 (octal_bytes_ok _ _)), ?length_app; cbn [length replicate zeros ustar root]; lia.
Ltac apart_tac := unfold updates; cbn [app tail]; repeat (apply Forall_cons_2; [apart_one|]); apply Forall_nil_2.

Lemma well_made_ok s t size : (length s <= 99)%nat -> name_chars s -> t <> USTAR_EOF -> well_made s t size (composed s t size).
Proof.
  intros Hl Hs Ht. pose proof (composed_ok s t size Hl Hs Ht) as Hok. pose proof (fun f us1 l us2 => composed_get s t size Hl Hs Ht f us1 l us2) as Hget.
  assert (slice 0 (Z.of_nat (length s) + 1) (composed s t size) = s ++ [0]) as Hname.
  { rewrite composed_updates. change (updates s t size) with ((f_name, s ++ [0]) :: tail (updates s t size)). cbn [app].
    change (apply_updates ((f_name, s ++ [0]) :: ?us) ?h) with (apply_updates ([] ++ (Field 0 (Z.of_nat (length s) + 1), s ++ [0]) :: us) h).
    apply (get_written [] (Field 0 (Z.of_nat (length s) + 1)) (s ++ [0])); [cbn [len]; rewrite length_app; cbn; lia| | |apply blank_header_ok].
    - pose proof (all_updates_ok s t size Hl Hs Ht) as Hall. change (updates s t size) with ((f_name, s ++ [0]) :: tail (updates s t size)) in Hall.
      cbn [app] in Hall. inversion Hall as [|? ? Hu Hrest]; subst. by constructor.
    - apart_tac. }
  assert (length zeros = 7%nat /\ length ustar = 5%nat /\ length root = 4%nat) as (Hz & Hu & Hr) by done.
  split; try done.
  - eapply (Hget f_magic [_; _; _; _; _; _; _]); [reflexivity|done|apart_tac].
  - eapply (Hget f_version [_; _; _; _; _; _; _; _]); [reflexivity|done|apart_tac].
  - rewrite composed_chksum by done. eapply (Hget f_chksum [_; _; _; _; _; _; _; _; _; _; _]); [reflexivity| |constructor].
    unfold chksum_bytes. by rewrite (proj2 (octal_bytes_ok _ _)).
  - destruct (decide (length s = 99%nat)) as [E|].
    + apply list_eq. intros [|k]; [|by destruct Hok as [Hlen _]; rewrite !lookup_ge_None_2 by (rewrite ?length_slice by lia; cbn; lia)].
      rewrite lookup_slice by lia. assert (slice 0 (Z.of_nat (length s) + 1) (composed s t size) !! 99%nat = Some 0) as H99
        by (rewrite Hname, lookup_app_r, E by lia; done). rewrite lookup_slice in H99 by lia. exact H99.
    + change (slice 99 1) with (get_field (Field 99 1)). rewrite composed_blank; [vm_compute; reflexivity|done..|cbn [ofs len]; lia|cbn [ofs len]; lia|cbn [ofs len]; lia|apart_tac].
  - change (slice 345 1) with (get_field (Field 345 1)). rewrite composed_blank; [vm_compute; reflexivity|done..|cbn [ofs len]; lia|cbn [ofs len]; lia|cbn [ofs len]; lia|apart_tac].
  - eapply (Hget f_typeflag [_; _; _; _; _; _]); [reflexivity|done|apart_tac].
  - eapply (Hget f_size [_; _; _; _]); [reflexivity|by rewrite (proj2 (octal_bytes_ok _ _))|apart_tac].
Qed.

(** ** Reading a header back *)

Lemma well_made_zeros s t size h : well_made s t size h -> is_all_zeros h = false.
Proof.
  intros Hw. apply not_true_iff_false. intros Hz. pose proof (wm_magic _ _ _ _ Hw) as Hm.
  assert (h !! 257%nat = Some 117) as Hx.
  { assert (get_field f_magic h !! 0%nat = Some 117) as H0 by by rewrite Hm. unfold get_field in H0. by rewrite lookup_slice in H0 by (cbn; lia). }
  apply list_elem_of_lookup_2, list_elem_of_In in Hx. by pose proof (proj1 (forallb_forall _ _) Hz 117 Hx).
Qed.

Lemma well_made_chksum s t size h : well_made s t size h -> parse_octal_field (get_field f_chksum h) = Some (calculate_chksum h).
Proof.
  intros Hw. rewrite (wm_chksum _ _ _ _ Hw). destruct (wm_ok _ _ _ _ Hw) as [Hl Hb]. destruct (chksum_eq h Hb Hl) as [E Hc].
  apply (parse_octal_field_ok 7); [lia|rewrite E; change (8 ^ Z.of_nat 7) with (8 ^ 7); lia|rewrite E; lia].
Qed.

Lemma well_made_name s t size h : name_chars s -> (length s <= 99)%nat -> well_made s t size h -> cstring_of h = Ok s.
Proof.
  intros Hs Hl Hw. pose proof (wm_name _ _ _ _ Hw) as Hn. unfold slice in Hn. rewrite drop_0 in Hn.
  rewrite <- (take_drop (Z.to_nat (Z.of_nat (length s) + 1)) h), Hn, <- app_assoc. by apply cstring_of_app.
Qed.

Definition size_of (t : ustar_type) (size : Z) : Z := if bool_decide (t = USTAR_REGULAR) then size else 0.

Lemma parse_well_made s t size h : name_chars s -> (length s <= 99)%nat -> social s -> t <> USTAR_EOF -> 0 <= size < 2 ^ 31 ->
  well_made s t size h -> ustar_parse_header h = Ok (Parsed (Some s) t (size_of t size)).
Proof.
  intros Hs Hl Hsoc Ht Hsize Hw. unfold ustar_parse_header.
  rewrite (well_made_zeros _ _ _ _ Hw), (wm_magic _ _ _ _ Hw), (wm_version _ _ _ _ Hw), (well_made_chksum _ _ _ _ Hw), Z.eqb_refl.
  rewrite (wm_name_end _ _ _ _ Hw), (wm_prefix _ _ _ _ Hw), (wm_type _ _ _ _ Hw), (wm_size _ _ _ _ Hw).
  rewrite !(bool_decide_eq_true_2 (_ = _)) by done. cbn [negb orb].
  rewrite (well_made_name s t size h Hs Hl Hw). cbn [res_bind]. rewrite strip_social by done. cbn [res_bind].
  destruct t; [| |done]; cbn [type_byte size_of].
  - rewrite bool_decide_eq_true_2 by done. unfold octal_bytes. rewrite (parse_octal_field_ok 11 size) by lia.
    rewrite Z.gtb_ltb, (proj2 (Z.ltb_ge _ _)) by lia. by rewrite i32_id by lia.
  - by rewrite bool_decide_eq_false_2, bool_decide_eq_true_2 by done.
Qed.


(** ** Damaged headers *)

Lemma insert_field f h k b : 0 <= ofs f -> 0 <= len f -> ~ (ofs f <= Z.of_nat k < ofs f + len f) ->
  get_field f (<[k := b]> h) = get_field f h.
Proof.
  intros H0 H1 Hk. apply list_eq. intros j. unfold get_field, slice. destruct (decide (j < Z.to_nat (len f))%nat).
  - rewrite !lookup_take_lt, !lookup_drop by lia. by rewrite list_lookup_insert_ne by lia.
  - by rewrite !lookup_take_ge by lia.
Qed.

Lemma damaged_sum h k b x : header_ok h -> h !! k = Some x -> byte b -> b <> x -> in_chksum (Z.of_nat k) = false ->
  calculate_chksum (<[k := b]> h) <> calculate_chksum h.
Proof.
  intros [Hl Hh] Hk Hb Hne Hout. assert (Forall byte (<[k := b]> h)) as Hb' by (by apply Forall_insert).
  rewrite (proj1 (chksum_eq _ Hb' ltac:(by rewrite length_insert))), (proj1 (chksum_eq _ Hh Hl)), (sum_insert h b k 0 x Hk).
  rewrite Z.add_0_l, Hout. lia.
Qed.

Lemma damaged_zeros s t size h k b : well_made s t size h -> is_all_zeros (<[k := b]> h) = false.
Proof.
  intros Hw. apply not_true_iff_false. intros Hz. pose proof (wm_magic _ _ _ _ Hw) as Hm.
  assert (forall j x, (j < 2)%nat -> get_field f_magic h !! j = Some x -> h !! (257 + j)%nat = Some x) as Hget.
  { intros j x Hj H0. unfold get_field in H0. rewrite lookup_slice in H0 by (cbn; lia). exact H0. }
  assert (h !! 257%nat = Some 117) as H1 by (apply (Hget 0%nat); [lia|by rewrite Hm]).
  assert (h !! 258%nat = Some 115) as H2 by (apply (Hget 1%nat); [lia|by rewrite Hm]).
  assert (exists x, x ∈ <[k := b]> h /\ x <> 0) as (x & Hx & Hx0).
  { destruct (decide (k = 257%nat)) as [->|Hk]; [exists 115|exists 117]; (split; [|done]).
    - apply (list_elem_of_lookup_2 _ 258%nat). by rewrite list_lookup_insert_ne.
    - apply (list_elem_of_lookup_2 _ 257%nat). by rewrite list_lookup_insert_ne. }
  apply list_elem_of_In in Hx. pose proof (proj1 (forallb_forall _ _) Hz x Hx) as Hb. by apply Z.eqb_eq in Hb.
Qed.

(** C23: one changed byte is noticed: a composed header in which any byte outside of the checksum
    field is replaced by another one is rejected, and no byte makes the parser fail. *)
Theorem ustar_detects_damage name t size h k b x : name_chars name -> t <> USTAR_EOF -> 0 <= size < 2 ^ 31 ->
  ustar_make_header name t size = Ok (Some h) -> h !! k = Some x -> byte b -> b <> x -> in_chksum (Z.of_nat k) = false ->
  exists e, ustar_parse_header (<[k := b]> h) = Ok (Rejected e).
Proof.
  intros Hname Ht Hsize Hmake Hk Hb Hne Hout. destruct (strip_ok (length name) name ltac:(lia)) as (s & Es & Hsoc & Hsuf).
  pose proof (strip_chars name s Hname Hsuf) as Hs. destruct (decide (length s <= 99)%nat) as [Hl|Hl].
  2: { unfold ustar_make_header in Hmake. destruct (res_assert _) as [u| | |]; try discriminate Hmake. cbn [res_bind] in Hmake. rewrite Es in Hmake.
       cbn [res_bind] in Hmake. by rewrite Z.gtb_ltb, (proj2 (Z.ltb_lt _ _)) in Hmake by lia. }
  rewrite (make_header_ok name s t size Ht Es Hl Hs Hsize) in Hmake. injection Hmake as <-.
  pose proof (well_made_ok s t size Hl Hs Ht) as Hw. unfold ustar_parse_header. rewrite (damaged_zeros s t size _ k b Hw).
  destruct (bool_decide (get_field f_magic _ = _)); cbn [negb]; [|by eexists]. destruct (bool_decide (get_field f_version _ = _)); cbn [negb]; [|by eexists].
  rewrite insert_field; [|cbn; lia|cbn; lia|].
  2: { intros [A B]. unfold in_chksum in Hout. rewrite (proj2 (Z.leb_le _ _)), (proj2 (Z.ltb_lt _ _)) in Hout by lia. done. }
  rewrite (well_made_chksum _ _ _ _ Hw). pose proof (damaged_sum _ k b x (wm_ok _ _ _ _ Hw) Hk Hb Hne Hout) as Hd.
  rewrite (proj2 (Z.eqb_neq _ _)) by congruence. by eexists.
Qed.

Module Demo.

(** [/../ab]. *)
Definition name : list Z := [47; 46; 46; 47; 97; 98].

Lemma name_ok : name_chars name.
Proof. repeat constructor; cbn; lia. Qed.


Definition header : list Z := match ustar_make_header name USTAR_DIRECTORY 0 with Ok (Some h) => h | _ => [] end.

Lemma header_made : ustar_make_header name USTAR_DIRECTORY 0 = Ok (Some header).
Proof. vm_compute. reflexivity. Qed.

(** The first letter of the name changed. *)
Lemma ustar_detects_damage_witness : exists e, ustar_parse_header (<[0%nat := 99]> header) = Ok (Rejected e).
Proof.
  apply (ustar_detects_damage name USTAR_DIRECTORY 0 header 0 99 97 name_ok); [discriminate|lia|exact header_made| |by_compute|lia|reflexivity].
  vm_compute. reflexivity.
Defined.

End Demo.
