(* ===== verification/Random.v ===== *)
(** * Pseudo-random numbers (lib/random.c)

    An RC4 generator: the state is a table of 256 bytes and two indices.  The
    table stays a permutation of all bytes, so every access is inside of it and
    the generator can be run backwards: no two states lead to the same state. *)

From S2P Require Import Prelude BlockDev Bytes.
Local Open Scope Z_scope.

(** ** The code *)

Record prng := Prng { s : list Z; s_i : Z; s_j : Z; inited : bool }.

(** [swap_byte (s + i, s + j)]; an index outside of the table is a fault. *)
Definition swap_byte (i j : Z) (t : list Z) : res (list Z) :=
  a <-! res_of_option (t !! Z.to_nat i);;
  b <-! res_of_option (t !! Z.to_nat j);;
  Ok (<[Z.to_nat j := a]> (<[Z.to_nat i := b]> t)).

(** The second loop of [random_init]; [n] iterations are left. *)
Fixpoint mix_loop (n : nat) (seedp : list Z) (i j : Z) (t : list Z) : res (list Z) :=
  match n with
  | O => Ok t
  | S n =>
      a <-! res_of_option (t !! Z.to_nat i);;
      k <-! res_of_option (seedp !! Z.to_nat (i mod 4));;
      let j := u8 (j + (a + k)) in
      t <-! swap_byte i j t;;
      mix_loop n seedp (i + 1) j t
  end.

Definition random_init (seed : Z) : M prng unit :=
  t <- lift (mix_loop 256 (le32 (u32 seed)) 0 0 (seqZ 0 256));;
  put (Prng t 0 0 true).

(** One byte: the body of the loop of [random_bytes]. *)
Definition random_byte : M prng Z :=
  st <- get;;
  let i := u8 (s_i st + 1) in
  a <- lift (res_of_option (s st !! Z.to_nat i));;
  let j := u8 (s_j st + a) in
  t <- lift (swap_byte i j (s st));;
  a <- lift (res_of_option (t !! Z.to_nat i));;
  b <- lift (res_of_option (t !! Z.to_nat j));;
  put (Prng t i j (inited st));;;
  lift (res_of_option (t !! Z.to_nat (u8 (a + b)))).

Fixpoint bytes_loop (size : nat) : M prng (list Z) :=
  match size with
  | O => ret []
  | S size => b <- random_byte;; l <- bytes_loop size;; ret (b :: l)
  end.

Definition random_bytes (size : nat) : M prng (list Z) :=
  st <- get;;
  (if negb (inited st) then random_init 0 else ret tt);;;
  bytes_loop size.

Definition random_ulong : M prng Z := l <- random_bytes 4;; ret (of_le l).

(** ** The table *)

Definition table_ok (t : list Z) : Prop := t ≡ₚ seqZ 0 256.

Definition prng_ok (st : prng) : Prop :=
  byte (s_i st) /\ byte (s_j st) /\ (inited st = true -> table_ok (s st)).

Lemma table_length t : table_ok t -> length t = 256%nat.
Proof. unfold table_ok. intros Ht. by rewrite Ht. Qed.

Lemma table_get t i : table_ok t -> byte i -> exists a, t !! Z.to_nat i = Some a /\ byte a.
Proof.
  intros Ht Hi. unfold byte in *. destruct (lookup_lt_is_Some_2 t (Z.to_nat i)) as [a Ha]; [rewrite (table_length t Ht); lia|].
  exists a. split; [done|]. apply list_elem_of_lookup_2 in Ha. unfold table_ok in Ht. rewrite Ht, elem_of_seqZ in Ha. lia.
Qed.

Lemma swap_perm (t : list Z) (i j : nat) a b : t !! i = Some a -> t !! j = Some b -> <[j := a]> (<[i := b]> t) ≡ₚ t.
Proof.
  intros Hi Hj. destruct (decide (i = j)) as [->|Hne].
  - rewrite Hi in Hj. injection Hj as ->. by rewrite list_insert_insert_eq, list_insert_id.
  - pose proof (lookup_lt_Some _ _ _ Hi). pose proof (lookup_lt_Some _ _ _ Hj).
    apply Permutation_inj. split; [by rewrite !length_insert|].
    exists (fun k => if decide (k = i) then j else if decide (k = j) then i else k). split.
    + intros x y. repeat case_decide; congruence.
    + intros k. repeat case_decide; subst; rewrite ?list_lookup_insert_eq by (rewrite ?length_insert; lia);
        rewrite ?(list_lookup_insert_ne _ j) by congruence; rewrite ?list_lookup_insert_eq by lia; rewrite ?list_lookup_insert_ne by congruence; congruence.
Qed.

Lemma swap_byte_ok i j t : table_ok t -> byte i -> byte j -> exists a b, t !! Z.to_nat i = Some a /\ t !! Z.to_nat j = Some b /\
  swap_byte i j t = Ok (<[Z.to_nat j := a]> (<[Z.to_nat i := b]> t)) /\ table_ok (<[Z.to_nat j := a]> (<[Z.to_nat i := b]> t)).
Proof.
  intros Ht Hi Hj. destruct (table_get t i Ht Hi) as (a & Ha & _), (table_get t j Ht Hj) as (b & Hb & _). exists a, b.
  unfold swap_byte. rewrite Ha, Hb. split_and!; try done. unfold table_ok. by rewrite swap_perm.
Qed.

Lemma u8_byte z : byte (u8 z).
Proof. apply uwrap_bound. lia. Qed.

Lemma mix_loop_ok n seedp : length seedp = 4%nat -> forall i j t, table_ok t -> 0 <= i -> i + Z.of_nat n <= 256 -> byte j ->
  exists t', mix_loop n seedp i j t = Ok t' /\ table_ok t'.
Proof.
  intros Hl. induction n as [|n IH]; intros i j t Ht Hi Hn Hj; [by exists t|]. cbn [mix_loop].
  assert (byte i) as Hbi by (unfold byte; lia). destruct (table_get t i Ht Hbi) as (a & Ha & _). rewrite Ha. cbn [res_of_option res_bind].
  destruct (lookup_lt_is_Some_2 seedp (Z.to_nat (i mod 4))) as [k Hk]; [pose proof (Z.mod_pos_bound i 4); lia|]. rewrite Hk. cbn [res_of_option res_bind].
  destruct (swap_byte_ok i (u8 (j + (a + k))) t Ht Hbi (u8_byte _)) as (x & y & _ & _ & E & Ht'). rewrite E. cbn [res_bind].
  apply IH; [done|lia|lia|apply u8_byte].
Qed.

Lemma random_init_ok seed st : exists t, random_init seed st = Ok (tt, Prng t 0 0 true) /\ table_ok t.
Proof.
  destruct (mix_loop_ok 256 (le32 (u32 seed)) (le32_length _) 0 0 (seqZ 0 256)) as (t & E & Ht); [unfold table_ok; reflexivity|lia|lia|unfold byte; lia|].
  exists t. unfold random_init. by rewrite E.
Qed.

(** One step of the generator, as a function on tables and indices. *)
Definition next (st : prng) : prng :=
  let i := u8 (s_i st + 1) in
  let a := default 0 (s st !! Z.to_nat i) in
  let j := u8 (s_j st + a) in
  let b := default 0 (s st !! Z.to_nat j) in
  Prng (<[Z.to_nat j := a]> (<[Z.to_nat i := b]> (s st))) i j (inited st).

Definition running (st : prng) : Prop := prng_ok st /\ inited st = true.

Lemma random_byte_ok st : running st -> exists b, random_byte st = Ok (b, next st) /\ byte b /\ running (next st).
Proof.
  intros [(Hi & Hj & Ht) Hin]. specialize (Ht Hin). unfold random_byte. rewrite bind_get.
  destruct (table_get _ _ Ht (u8_byte (s_i st + 1))) as (a & Ha & Hba). rewrite Ha, (bind_ok _ _ _ _ _ eq_refl).
  destruct (swap_byte_ok _ _ _ Ht (u8_byte (s_i st + 1)) (u8_byte (s_j st + a))) as (x & b & Hx & Hb & E & Ht').
  rewrite Ha in Hx. injection Hx as <-. rewrite E, (bind_ok _ _ _ _ _ eq_refl). set (t' := <[_ := a]> _) in *.
  destruct (table_get _ _ Ht' (u8_byte (s_i st + 1))) as (a' & Ha' & _). rewrite Ha', (bind_ok _ _ _ _ _ eq_refl).
  destruct (table_get _ _ Ht' (u8_byte (s_j st + a))) as (b' & Hb' & _). rewrite Hb', (bind_ok _ _ _ _ _ eq_refl). rewrite bind_put.
  destruct (table_get _ _ Ht' (u8_byte (a' + b'))) as (k & Hk & Hbk). rewrite Hk. exists k.
  assert (next st = Prng t' (u8 (s_i st + 1)) (u8 (s_j st + a)) (inited st)) as -> by (unfold next; rewrite Ha; change (default 0 (Some a)) with a; by rewrite Hb).
  split; [done|]. split; [done|]. split; [|done]. split_and!; cbn; [apply u8_byte|apply u8_byte|done].
Qed.

Lemma bytes_loop_ok n : forall st, running st -> exists l, bytes_loop n st = Ok (l, Nat.iter n next st) /\ length l = n /\ Forall byte l /\
  running (Nat.iter n next st).
Proof.
  induction n as [|n IH]; intros st Hst; [by exists []|]. destruct (random_byte_ok st Hst) as (b & E & Hb & Hst').
  destruct (IH _ Hst') as (l & El & Hl & Hbl & Hr). exists (b :: l). cbn [bytes_loop]. crun E. crun El. rewrite <- Nat.iter_succ_r in *.
  split_and!; [done|by cbn; rewrite Hl|by constructor|done].
Qed.


(** The step can be undone. *)
Lemma unswap (t1 t2 : list Z) (i j : nat) a x1 x2 : t1 !! i = Some a -> t2 !! i = Some a -> t1 !! j = Some x1 -> t2 !! j = Some x2 ->
  <[j := a]> (<[i := x1]> t1) = <[j := a]> (<[i := x2]> t2) -> t1 = t2.
Proof.
  intros Ha1 Ha2 Hx1 Hx2 E. assert (forall k, <[j := a]> (<[i := x1]> t1) !! k = <[j := a]> (<[i := x2]> t2) !! k) as El by (intros; by rewrite E).
  apply list_eq. intros k. destruct (decide (k = i)) as [->|Hki]; [congruence|]. destruct (decide (k = j)) as [->|Hkj].
  - specialize (El i). do 2 rewrite (list_lookup_insert_ne _ j i), list_lookup_insert_eq in El by (congruence || by eapply lookup_lt_Some). congruence.
  - specialize (El k). by do 4 rewrite list_lookup_insert_ne in El by congruence.
Qed.

Lemma next_inj st1 st2 : running st1 -> running st2 -> next st1 = next st2 -> st1 = st2.
Proof.
  intros [(Hi1 & Hj1 & Ht1) Hin1] [(Hi2 & Hj2 & Ht2) Hin2] E. specialize (Ht1 Hin1). specialize (Ht2 Hin2).
  destruct st1 as [t1 i1 j1 b1], st2 as [t2 i2 j2 b2]. unfold next in E. cbn [s s_i s_j inited] in *. subst b1 b2.
  destruct (table_get t1 _ Ht1 (u8_byte (i1 + 1))) as (a1 & Ha1 & Hba1), (table_get t2 _ Ht2 (u8_byte (i2 + 1))) as (a2 & Ha2 & Hba2).
  rewrite Ha1, Ha2 in E. change (default 0 (Some ?x)) with x in E.
  destruct (table_get t1 _ Ht1 (u8_byte (j1 + a1))) as (x1 & Hx1 & _), (table_get t2 _ Ht2 (u8_byte (j2 + a2))) as (x2 & Hx2 & _).
  rewrite Hx1, Hx2 in E. change (default 0 (Some ?x)) with x in E. injection E as Et Ei Ej.
  assert (i1 = i2) as <- by (unfold byte, uwrap in *; Z.to_euclidean_division_equations; lia).
  assert (a1 = a2) as <-.
  { assert (forall i a x t, table_ok t -> <[Z.to_nat (u8 i) := a]> (<[Z.to_nat (u8 (i1 + 1)) := x]> t) !! Z.to_nat (u8 i) = Some a) as Hget.
    { intros i a x t Ht. apply list_lookup_insert_eq. rewrite length_insert, table_length by done. pose proof (u8_byte i). unfold byte in *. lia. }
    pose proof (Hget (j1 + a1) a1 x1 t1 Ht1) as H1. rewrite Et, Ej, Hget in H1 by done. by injection H1. }
  assert (j1 = j2) as <- by (unfold byte, uwrap in *; Z.to_euclidean_division_equations; lia).
  f_equal. exact (unswap _ _ _ _ _ _ _ Ha1 Ha2 Hx1 Hx2 Et).
Qed.

Module Demo.

(** The state at boot. *)
Definition boot : prng := Prng (replicate 256 0) 0 0 false.

Lemma boot_ok : prng_ok boot.
Proof. split_and!; [unfold byte; cbn; lia..|discriminate]. Qed.


(** The key stream of RC4 for the key [Wiki]. *)
Definition stream : option (list Z) :=
  match (random_init 0x696b6957;;; random_bytes 6) boot with Ok (l, _) => Some l | _ => None end.

Lemma rc4_stream : stream = Some [0x60; 0x44; 0xdb; 0x6d; 0x41; 0xb7].
Proof. vm_compute. reflexivity. Qed.

End Demo.
