(* ===== verification/Process.v ===== *)
(** * The arguments of a process (userprog/process.c)

    [construct_ESP] splits the command line and builds the initial stack of a
    user program.  The state is memory, with the stack page and the copy of the
    command line, and the heap that the two temporary arrays come from; the
    arrays themselves are lists.  [oom] is set when the allocator refuses a
    block: the source then returns a variable that it has not assigned, which
    the model returns as [None]. *)

From S2P Require Import Prelude Vaddr Alloc Malloc BlockDev Bytes CString.
Local Open Scope Z_scope.

Section Arguments.
Context {H : Type} {HA : Allocator H}.

Record pst := Pst { pmem : memory; pheap : H; oom : bool }.

Definition mems {A : Type} (m : M memory A) : M pst A :=
  fun s => r <-! m (pmem s);; Ok (r.1, Pst r.2 (pheap s) (oom s)).

(** A call of the allocator; [asked]: for a block. *)
Definition heaps {A : Type} (m : M H A) : M pst A :=
  fun s => r <-! m (pheap s);; Ok (r.1, Pst (pmem s) r.2 (oom s)).
Definition asking (m : M H Z) : M pst Z :=
  fun s => r <-! m (pheap s);; Ok (r.1, Pst (pmem s) r.2 (oom s || (r.1 =? NULL))).

(** ** The code *)

(** [n] bounds the arguments, [fuel] the lengths of strings, [space] is the address of the string of one blank. *)
Definition parse_filename (fuel : nat) (space argv_list tp_ptr : Z) : M memory Z :=
  len <- strlen fuel argv_list;;
  memcpy tp_ptr argv_list (Z.to_nat (len + 1));;;
  r <- strtok_r fuel tp_ptr space NULL;;
  ret r.1.

(** The array [_argv_list], at [block]; [None] when it cannot grow. *)
Fixpoint collect_args (n fuel : nat) (space tp_ptr next_ptr block : Z) (args : list Z) : M pst (option (Z * list Z)) :=
  if tp_ptr =? NULL then ret (Some (block, args))
  else
    match n with
    | O => nofuel
    | S n =>
        block <- asking (al_realloc block (4 * (Z.of_nat (length args) + 1)));;
        if block =? NULL then ret None
        else
          r <- mems (strtok_r fuel NULL space next_ptr);;
          collect_args n fuel space r.1 r.2 block (args ++ [tp_ptr])
    end.

(** [args]: the arguments still to be copied, the last one first; [addrs]: where the others are. *)
Fixpoint push_strings (fuel : nat) (args : list Z) (esp : Z) (addrs : list Z) : M memory (Z * list Z) :=
  match args with
  | [] => ret (esp, addrs)
  | a :: args =>
      len <- strlen fuel a;;
      let esp := u32 (esp - len - 1) in
      len <- strlen fuel a;;
      memcpy esp a (Z.to_nat (1 + len));;;
      push_strings fuel args esp (esp :: addrs)
  end.

(** [memcpy] of the bytes of a variable. *)
Fixpoint put_bytes (p : Z) (l : list Z) : M memory unit :=
  match l with
  | [] => ret tt
  | b :: l => store p b;;; put_bytes (p + 1) l
  end.

Definition push_word (esp v : Z) : M memory Z :=
  let esp := u32 (esp - 4) in
  put_bytes esp (le32 v);;;
  ret esp.

Fixpoint push_words (l : list Z) (esp : Z) : M memory Z :=
  match l with
  | [] => ret esp
  | v :: l => esp <- push_word esp v;; push_words l esp
  end.

Definition push_args (fuel : nat) (esp : Z) (args : list Z) : M memory Z :=
  r <- push_strings fuel (reverse args) esp [];;
  let '(esp, argv_addr) := r in
  let esp := u32 (esp - 1) in
  memset esp 0 1;;;
  let esp := u32 (esp - 4) in
  memset esp 0 4;;;
  esp <- push_words (reverse argv_addr) esp;;
  esp <- push_word esp esp;;
  esp <- push_word esp (Z.of_nat (length args));;
  let esp := u32 (esp - 4) in
  memset esp 0 4;;;
  ret esp.

(** The new value of [*esp] and the result. *)
Definition construct_ESP (fuel : nat) (space esp argv_list : Z) : M pst (Z * option bool) :=
  r <- mems (strtok_r fuel argv_list space NULL);;
  l <- collect_args fuel fuel space r.1 r.2 NULL [];;
  match l with
  | None => ret (esp, None)
  | Some (block, args) =>
      argv_addr <- asking (al_malloc (4 * (1 + Z.of_nat (length args))));;
      if argv_addr =? NULL then heaps (al_free block);;; ret (esp, None)
      else
        esp <- mems (push_args fuel esp args);;
        heaps (al_free argv_addr);;;
        heaps (al_free block);;;
        ret (esp, Some true)
  end.

End Arguments.

(** ** Writing downwards *)

(** The bytes [l] were stored at [lo], and nothing else changed. *)
Definition wrote (lo : Z) (l : list Z) (m m' : memory) : Prop :=
  bytes m' lo l /\ forall a, ~ (lo <= a < lo + Z.of_nat (length l)) -> m' !! a = m !! a.

Lemma bytes_frame l : forall m m' p, bytes m p l -> (forall a, p <= a < p + Z.of_nat (length l) -> m' !! a = m !! a) -> bytes m' p l.
Proof.
  induction l as [|b l IH]; intros m m' p; [done|]. cbn [bytes length]. intros (Hb & Hr & Hl) Hm.
  split; [rewrite Hm by lia; done|]. split; [done|]. apply (IH m); [done|]. intros a Ha. apply Hm. lia.
Qed.

Lemma wrote_nil lo m : wrote lo [] m m.
Proof. by split. Qed.

Lemma wrote_app lo l1 l2 m m1 m2 : wrote (lo + Z.of_nat (length l1)) l2 m m1 -> wrote lo l1 m1 m2 -> wrote lo (l1 ++ l2) m m2.
Proof.
  intros [B2 F2] [B1 F1]. split.
  - apply bytes_app. split; [done|]. apply (bytes_frame l2 m1); [done|]. intros a Ha. apply F1. lia.
  - intros a Ha. rewrite length_app in Ha. rewrite F1, F2 by lia. done.
Qed.

Lemma wrote_mapped lo l m m' p n : wrote lo l m m' -> mapped m p n -> mapped m' p n.
Proof.
  intros [Hb Hf] Hm a Ha. destruct (decide (lo <= a < lo + Z.of_nat (length l))) as [Hin|Hout]; [|rewrite Hf by done; by apply Hm].
  destruct (lookup_lt_is_Some_2 l (Z.to_nat (a - lo))) as [b El]; [lia|]. destruct (bytes_lookup _ _ _ _ _ Hb El) as [E Hr].
  rewrite Z2Nat.id in E by lia. replace (lo + (a - lo)) with a in E by lia. eauto.
Qed.

Lemma wrote_cstr lo l m m' p w : wrote lo l m m' -> cstr m p w -> p + Z.of_nat (length w) < lo \/ lo + Z.of_nat (length l) <= p -> cstr m' p w.
Proof. intros [_ Hf] Hc Hd. apply (cstr_frame m); [done|]. intros a Ha. apply Hf. lia. Qed.

Lemma put_bytes_ok l : Forall byte l -> forall m p, mapped m p (length l) -> exists m', put_bytes p l m = Ok (tt, m') /\ wrote p l m m'.
Proof.
  induction 1 as [|b l Hb Hl IH]; intros m p Hm; [exists m; split; [done|apply wrote_nil]|]. cbn [put_bytes length] in *. unfold byte in Hb.
  destruct (Hm p) as (x & Hx & _); [lia|]. crun (store_ok m p x b Hx Hb). set (m1 := <[p := b]> m).
  assert (wrote p [b] m m1) as Hw1 by (split; [split; [apply lookup_insert_eq|by split]|]; cbn [length]; intros a Ha; apply lookup_insert_ne; lia).
  destruct (IH m1 (p + 1)) as (m2 & E & Hw2); [apply (wrote_mapped p [b] m); [done|]; apply (mapped_sub m p (S (length l))); [done|lia|lia]|].
  exists m2. split; [done|]. destruct Hw1 as [B1 F1], Hw2 as [B2 F2]. split.
  - cbn [bytes]. split; [rewrite F2 by lia; unfold m1; apply lookup_insert_eq|]. by split.
  - intros a Ha. cbn [length] in Ha. rewrite F2, F1 by (cbn [length]; lia). done.
Qed.

Lemma memset_put n : forall m p, p <> NULL -> memset p 0 n m = (put_bytes p (replicate n 0);;; ret p) m.
Proof.
  intros m p Hp. unfold memset. rewrite assert_block_ok by done. assert (forall k m q, set_loop k q 0 m = put_bytes q (replicate k 0) m) as Hl.
  { induction k as [|k IH]; intros m' q; [done|]. cbn [set_loop replicate put_bytes]. unfold bind. destruct (store q 0 m') as [[[] m1]| | |]; try done. apply IH. }
  unfold bind. by rewrite Hl.
Qed.

Lemma memset_ok n m p : 0 < p -> mapped m p n -> exists m', memset p 0 n m = Ok (p, m') /\ wrote p (replicate n 0) m m'.
Proof.
  intros Hp Hm. destruct (put_bytes_ok (replicate n 0)) with (m := m) (p := p) as (m' & E & Hw); [by apply Forall_replicate|by rewrite length_replicate|].
  exists m'. rewrite memset_put by (unfold NULL; lia). by crun E.
Qed.

Lemma push_word_ok m esp v : 4 < esp <= 2 ^ 32 -> mapped m (esp - 4) 4 ->
  exists m', push_word esp v m = Ok (esp - 4, m') /\ wrote (esp - 4) (le32 v) m m'.
Proof.
  intros He Hm. unfold push_word. rewrite u32_id by lia. destruct (put_bytes_ok (le32 v) (le32_bytes v) m (esp - 4)) as (m' & E & Hw); [done|].
  exists m'. by crun E.
Qed.

(** The words [l], the first one at the lowest address. *)
Definition word_image (l : list Z) : list Z := l ≫= le32.

Lemma word_image_length l : Z.of_nat (length (word_image l)) = 4 * Z.of_nat (length l).
Proof. unfold word_image. induction l as [|v l IH]; [done|]. rewrite bind_cons, length_app, le32_length. cbn [length]. lia. Qed.

Lemma push_words_ok l : forall m esp lo, 0 < lo <= esp - 4 * Z.of_nat (length l) -> esp <= 2 ^ 32 -> mapped m lo (Z.to_nat (esp - lo)) ->
  let esp' := esp - 4 * Z.of_nat (length l) in
  exists m', push_words l esp m = Ok (esp', m') /\ wrote esp' (word_image (reverse l)) m m'.
Proof.
  induction l as [|v l IH]; intros m esp lo Hlo He Hm; cbn [push_words length] in *.
  { rewrite Z.sub_0_r. exists m. split; [done|apply wrote_nil]. }
  destruct (push_word_ok m esp v) as (m1 & E1 & W1); [lia|apply (mapped_sub m lo (Z.to_nat (esp - lo))); [done|lia|lia]|]. crun E1.
  destruct (IH m1 (esp - 4) lo) as (m2 & E2 & W2); [lia|lia|apply (wrote_mapped _ _ _ _ _ _ W1), (mapped_sub m lo (Z.to_nat (esp - lo))); [done|lia|lia]|].
  exists m2. replace (esp - 4 - 4 * Z.of_nat (length l)) with (esp - 4 * Z.of_nat (S (length l))) in * by lia. split; [done|].
  rewrite reverse_cons. unfold word_image in *. rewrite bind_app. change ([v] ≫= le32) with (le32 v ++ []). rewrite app_nil_r. eapply wrote_app; [|exact W2].
  fold (word_image (reverse l)). rewrite word_image_length, length_reverse.
  by replace (esp - 4 * Z.of_nat (S (length l)) + 4 * Z.of_nat (length l)) with (esp - 4) by lia.
Qed.

(** The strings [ws] with their terminators, and where each of them starts. *)
Definition string_image (ws : list (list Z)) : list Z := ws ≫= fun w => w ++ [0].

Fixpoint addresses (p : Z) (ws : list (list Z)) : list Z :=
  match ws with
  | [] => []
  | w :: ws => p :: addresses (p + Z.of_nat (length w) + 1) ws
  end.

Lemma addresses_app ws : forall p us, addresses p (ws ++ us) = addresses p ws ++ addresses (p + Z.of_nat (length (string_image ws))) us.
Proof.
  induction ws as [|w ws IH]; intros p us; [by rewrite Z.add_0_r|]. cbn [app addresses]. rewrite IH. unfold string_image. rewrite bind_cons, !length_app.
  cbn [length]. f_equal. f_equal. f_equal. lia.
Qed.

(** The argument [w] at [p], apart from the stack between [lo] and [hi]. *)
Definition argument (m : memory) (fuel : nat) (lo hi p : Z) (w : list Z) : Prop :=
  0 < p /\ cstr m p w /\ (length w < fuel)%nat /\ (p + Z.of_nat (length w) < lo \/ hi <= p).

Lemma push_string_ok m fuel lo hi a w esp : argument m fuel lo hi a w -> 0 < lo <= esp - Z.of_nat (length w) - 1 -> esp <= hi -> esp <= 2 ^ 32 ->
  mapped m lo (Z.to_nat (esp - lo)) ->
  exists m', memcpy (esp - Z.of_nat (length w) - 1) a (Z.to_nat (1 + Z.of_nat (length w))) m = Ok (esp - Z.of_nat (length w) - 1, m') /\
    wrote (esp - Z.of_nat (length w) - 1) (w ++ [0]) m m'.
Proof.
  intros (Ha & Hc & Hf & Hd) Hlo Hhi He Hm. set (p := esp - Z.of_nat (length w) - 1) in *.
  replace (Z.to_nat (1 + Z.of_nat (length w))) with (S (length w)) by lia.
  destruct (memcpy_ok m p a (S (length w))) as (m' & E & Hcp); [lia|lia| |by apply string_mapped|lia|].
  { apply (mapped_sub m lo (Z.to_nat (esp - lo))); [done|lia|lia]. }
  exists m'. split; [done|]. split.
  - apply cstr_bytes in Hc as [Hb _]. assert (length (w ++ [0]) = S (length w)) as Hl by (rewrite length_app; cbn; lia).
    assert (forall l q k, bytes m (a + k) l -> q = p + k -> 0 <= k -> k + Z.of_nat (length l) <= Z.of_nat (S (length w)) -> bytes m' q l) as Hcopy.
    { induction l as [|b l IH]; intros q k Hbl -> Hk Hkl; [done|]. cbn [bytes length] in *. destruct Hbl as (Eb & Hr & Hbl).
      split; [rewrite Hcp, decide_True by lia; replace (a + (p + k - p)) with (a + k) by lia; done|]. split; [done|].
      apply (IH _ (k + 1)); [by rewrite Z.add_assoc|lia|lia|lia]. }
    apply (Hcopy _ _ 0); [by rewrite Z.add_0_r|lia|lia|rewrite Hl; lia].
  - intros x Hx. rewrite length_app in Hx. cbn [length] in Hx. rewrite Hcp, decide_False by lia. done.
Qed.

Lemma push_strings_ok fuel lo hi : forall args ws m esp addrs, Forall2 (argument m fuel lo hi) args ws ->
  0 < lo <= esp - Z.of_nat (length (string_image (reverse ws))) -> esp <= hi -> esp <= 2 ^ 32 -> mapped m lo (Z.to_nat (esp - lo)) ->
  let esp' := esp - Z.of_nat (length (string_image (reverse ws))) in
  exists m', push_strings fuel args esp addrs m = Ok ((esp', addresses esp' (reverse ws) ++ addrs), m') /\
    wrote esp' (string_image (reverse ws)) m m'.
Proof.
  induction args as [|a args IH]; intros ws m esp addrs Hall Hlo Hhi He Hm; inversion Hall as [|? w ? ws' Ha Hall' E1 E2]; subst.
  { cbn in *. rewrite Z.sub_0_r. exists m. split; [done|apply wrote_nil]. }
  rewrite reverse_cons in *. unfold string_image in Hlo |- *. rewrite bind_app in Hlo |- *. fold (string_image (reverse ws')) in Hlo |- *.
  change ([w] ≫= _) with ((w ++ [0]) ++ []) in Hlo |- *. rewrite app_nil_r in Hlo |- *. rewrite !length_app in Hlo |- *. cbn [length] in Hlo |- *.
  pose proof Ha as (Hp & Hc & Hf & Hd). cbn [push_strings]. crun (strlen_ok fuel m a w ltac:(lia) Hc Hf). crun (strlen_ok fuel m a w ltac:(lia) Hc Hf).
  rewrite u32_id by lia. destruct (push_string_ok m fuel lo hi a w esp Ha) as (m1 & E1 & W1); [lia|lia|lia|done|]. crun E1.
  set (esp1 := esp - Z.of_nat (length w) - 1) in *. set (n := length (string_image (reverse ws'))) in *.
  destruct (IH ws' m1 esp1 (esp1 :: addrs)) as (m2 & E2 & W2); [|lia|lia|lia| |].
  - eapply Forall2_impl; [exact Hall'|]. intros q u (Q1 & Q2 & Q3 & Q4). split_and!; [done| |done|done].
    apply (wrote_cstr _ _ _ _ _ _ W1 Q2). rewrite length_app. cbn [length]. lia.
  - apply (wrote_mapped _ _ _ _ _ _ W1), (mapped_sub m lo (Z.to_nat (esp - lo))); [done|lia|lia].
  - fold n in E2, W2. replace (esp - Z.of_nat (n + (length w + 1))) with (esp1 - Z.of_nat n) by lia. exists m2. split.
    + rewrite addresses_app. fold n. replace (esp1 - Z.of_nat n + Z.of_nat n) with esp1 by lia. cbn [addresses]. by rewrite <- app_assoc.
    + eapply wrote_app; [|exact W2]. fold n. by replace (esp1 - Z.of_nat n + Z.of_nat n) with esp1 by lia.
Qed.

Lemma addresses_length ws : forall p, length (addresses p ws) = length ws.
Proof. induction ws as [|w ws IH]; intros p; [done|]. cbn. by rewrite IH. Qed.

(** The initial stack below [esp]: the return address, [argc], [argv], the pointers with a null
    pointer after them, a byte of padding, and the strings. *)
Definition stack_words (esp : Z) (ws : list (list Z)) : list Z := addresses (esp - Z.of_nat (length (string_image ws))) ws ++ [0].
Definition stack_size (ws : list (list Z)) : Z := Z.of_nat (length (string_image ws)) + 1 + 4 * (Z.of_nat (length ws) + 1) + 12.
Definition stack_image (esp : Z) (ws : list (list Z)) : list Z :=
  word_image ([0; Z.of_nat (length ws); esp - stack_size ws + 12] ++ stack_words esp ws) ++ [0] ++ string_image ws.

Lemma zero_words n : word_image (replicate n 0) = replicate (4 * n) 0.
Proof. induction n as [|n IH]; [done|]. unfold word_image in *. cbn [replicate]. rewrite bind_cons, IH. change (le32 0) with (replicate 4 0). rewrite <- replicate_add. f_equal. lia. Qed.

(** [img] was pushed on the stack below [esp]. *)
Definition top (esp : Z) (img : list Z) : Z := esp - Z.of_nat (length img).
Definition pushed (esp : Z) (img : list Z) (m m' : memory) : Prop := wrote (top esp img) img m m'.

Lemma pushed_room lo esp img m m' k : mapped m lo (Z.to_nat (esp - lo)) -> pushed esp img m m' -> lo <= top esp img - Z.of_nat k ->
  mapped m' (top esp img - Z.of_nat k) k.
Proof.
  intros Hm Hp Hlo. unfold top in *. apply (wrote_mapped _ _ _ _ _ _ Hp). apply (mapped_sub m lo (Z.to_nat (esp - lo))); [done|lia|lia].
Qed.

Lemma pushed_more esp img l m m1 m2 : pushed esp img m m1 -> wrote (top esp img - Z.of_nat (length l)) l m1 m2 -> pushed esp (l ++ img) m m2.
Proof.
  intros Hp Hw. unfold pushed, top in *. rewrite length_app. replace (esp - Z.of_nat (length l + length img)) with (esp - Z.of_nat (length img) - Z.of_nat (length l)) by lia.
  eapply wrote_app; [|exact Hw]. by replace (esp - Z.of_nat (length img) - Z.of_nat (length l) + Z.of_nat (length l)) with (esp - Z.of_nat (length img)) by lia.
Qed.

Section Pushing.
Context (m : memory) (lo esp : Z) (Hm : mapped m lo (Z.to_nat (esp - lo))) (Hlo : 0 < lo) (He : esp <= 2 ^ 32).

Lemma pushed_zeros n img m1 : pushed esp img m m1 -> lo <= top esp img - Z.of_nat n -> (0 < n)%nat ->
  u32 (top esp img - Z.of_nat n) = top esp (replicate n 0 ++ img) /\
  exists m2, memset (top esp (replicate n 0 ++ img)) 0 n m1 = Ok (top esp (replicate n 0 ++ img), m2) /\ pushed esp (replicate n 0 ++ img) m m2.
Proof.
  intros Hp Hr Hn. pose proof (pushed_room lo esp img m m1 n Hm Hp Hr) as Hmap. rewrite u32_id by (unfold top in *; lia).
  destruct (memset_ok n m1 (top esp img - Z.of_nat n)) as (m2 & E & W); [lia|done|].
  assert (top esp (replicate n 0 ++ img) = top esp img - Z.of_nat n) as -> by (unfold top; rewrite length_app, length_replicate; lia).
  split; [done|]. exists m2. split; [done|]. eapply pushed_more; [exact Hp|]. by rewrite length_replicate.
Qed.

Lemma pushed_word v img m1 : pushed esp img m m1 -> lo <= top esp img - 4 ->
  exists m2, push_word (top esp img) v m1 = Ok (top esp (le32 v ++ img), m2) /\ pushed esp (le32 v ++ img) m m2.
Proof.
  intros Hp Hr. pose proof (pushed_room lo esp img m m1 4 Hm Hp Hr) as Hmap.
  destruct (push_word_ok m1 (top esp img) v) as (m2 & E & W); [unfold top in *; lia|done|]. exists m2. rewrite E.
  assert (top esp (le32 v ++ img) = top esp img - 4) as -> by (unfold top; rewrite length_app, le32_length; lia).
  split; [done|]. eapply pushed_more; [exact Hp|]. by rewrite le32_length.
Qed.

Lemma pushed_words l img m1 : pushed esp img m m1 -> lo <= top esp img - 4 * Z.of_nat (length l) ->
  exists m2, push_words (reverse l) (top esp img) m1 = Ok (top esp (word_image l ++ img), m2) /\ pushed esp (word_image l ++ img) m m2.
Proof.
  intros Hp Hr. pose proof (pushed_room lo esp img m m1 (Z.to_nat (top esp img - lo)) Hm Hp ltac:(lia)) as Hmap.
  replace (top esp img - Z.of_nat (Z.to_nat (top esp img - lo))) with lo in Hmap by lia.
  destruct (push_words_ok (reverse l) m1 (top esp img) lo) as (m2 & E & W); rewrite ?length_reverse; [lia|unfold top in *; lia|done|].
  rewrite length_reverse, reverse_involutive in *. exists m2. rewrite E.
  assert (top esp (word_image l ++ img) = top esp img - 4 * Z.of_nat (length l)) as ->.
  { unfold top. rewrite length_app. pose proof (word_image_length l). lia. }
  split; [done|]. eapply pushed_more; [exact Hp|]. by rewrite word_image_length.
Qed.

End Pushing.

Lemma push_args_ok m fuel lo hi args ws esp : Forall2 (argument m fuel lo hi) args ws -> 0 < lo <= esp - stack_size ws -> esp <= hi -> esp <= 2 ^ 32 ->
  mapped m lo (Z.to_nat (esp - lo)) ->
  exists m', push_args fuel esp args m = Ok (esp - stack_size ws, m') /\ wrote (esp - stack_size ws) (stack_image esp ws) m m'.
Proof.
  intros Hall Hlo Hhi He Hm. unfold stack_size in Hlo. pose proof (Forall2_length _ _ _ Hall) as Hlen. unfold push_args.
  destruct (push_strings_ok fuel lo hi (reverse args) (reverse ws) m esp []) as (m1 & E1 & W1); rewrite ?reverse_involutive; [by apply Forall2_reverse|lia..|done|].
  rewrite reverse_involutive in E1, W1. crun E1. rewrite app_nil_r. set (strs := string_image ws) in *. set (p := esp - Z.of_nat (length strs)) in *.
  fold (top esp strs) in p. change (pushed esp strs m m1) in W1. subst p. set (addrs := addresses (top esp strs) ws).
  pose proof (addresses_length ws (top esp strs)) as Hal. fold addrs in Hal.
  pose proof (word_image_length addrs) as Hwl. rewrite Hal in Hwl.
  destruct (pushed_zeros m lo esp Hm ltac:(lia) He 1 strs m1 W1) as (T2 & m2 & E2 & W2); [unfold top; lia|lia|].
  change (Z.of_nat 1) with 1 in T2. rewrite T2. crun E2. set (l2 := replicate 1 0 ++ strs) in *.
  destruct (pushed_zeros m lo esp Hm ltac:(lia) He 4 l2 m2 W2) as (T3 & m3 & E3 & W3); [unfold top, l2; cbn [length replicate app]; lia|lia|].
  change (Z.of_nat 4) with 4 in T3. rewrite T3. crun E3. set (l3 := replicate 4 0 ++ l2) in *.
  assert (length l3 = 5 + length strs)%nat as Hl3 by (unfold l3, l2; by rewrite !length_app, !length_replicate; cbn; lia).
  destruct (pushed_words m lo esp Hm ltac:(lia) He addrs l3 m3 W3) as (m4 & E4 & W4); [unfold top; rewrite Hl3; lia|]. crun E4.
  set (l4 := word_image addrs ++ l3) in *. assert (Z.of_nat (length l4) = 4 * Z.of_nat (length ws) + 5 + Z.of_nat (length strs)) as Hl4 by (unfold l4; rewrite length_app; lia).
  destruct (pushed_word m lo esp Hm ltac:(lia) He (top esp l4) l4 m4 W4) as (m5 & E5 & W5); [unfold top; lia|]. crun E5.
  set (l5 := le32 (top esp l4) ++ l4) in *. assert (length l5 = 4 + length l4)%nat as Hl5 by (unfold l5; rewrite length_app, le32_length; lia).
  destruct (pushed_word m lo esp Hm ltac:(lia) He (Z.of_nat (length args)) l5 m5 W5) as (m6 & E6 & W6); [unfold top; lia|]. crun E6.
  set (l6 := le32 (Z.of_nat (length args)) ++ l5) in *. assert (length l6 = 4 + length l5)%nat as Hl6 by (unfold l6; rewrite length_app, le32_length; lia).
  destruct (pushed_zeros m lo esp Hm ltac:(lia) He 4 l6 m6 W6) as (T7 & m7 & E7 & W7); [unfold top; lia|lia|].
  change (Z.of_nat 4) with 4 in T7. rewrite T7. crun E7. set (l7 := replicate 4 0 ++ l6) in *.
  assert (top esp l7 = esp - stack_size ws) as Ht by (unfold top, l7, stack_size; rewrite length_app, length_replicate; fold strs; lia).
  assert (l7 = stack_image esp ws) as Himg.
  { unfold stack_image, stack_words, word_image. fold strs. rewrite !bind_app. fold (top esp strs) addrs. rewrite <- !app_assoc. unfold l7, l6, l5, l4, l3, l2.
    fold (word_image addrs). rewrite Hlen. replace (top esp (word_image addrs ++ replicate 4 0 ++ replicate 1 0 ++ strs)) with (esp - stack_size ws + 12); [done|].
    rewrite <- Ht. fold l2 l3 l4. unfold top, l7. rewrite length_app, length_replicate. lia. }
  exists m7. rewrite Ht. split; [done|]. rewrite <- Himg, <- Ht. exact W7.
Qed.

(** ** What the program finds on its stack *)

Definition word_at (m : memory) (p v : Z) : Prop := bytes m p (le32 v).

(** [main] is called with [argc] and [argv]; the pointers lead to the words [ws]. *)
Record main_stack (m : memory) (esp : Z) (ws : list (list Z)) : Prop := MainStack {
  ms_return : word_at m esp 0;
  ms_argc : word_at m (esp + 4) (Z.of_nat (length ws));
  ms_argv : word_at m (esp + 8) (esp + 12);
  ms_args i w : ws !! i = Some w -> exists a, word_at m (esp + 12 + 4 * Z.of_nat i) a /\ cstr m a w /\ esp + 12 < a;
  ms_end : word_at m (esp + 12 + 4 * Z.of_nat (length ws)) 0
}.

Lemma word_image_get m l : forall p i v, bytes m p (word_image l) -> l !! i = Some v -> word_at m (p + 4 * Z.of_nat i) v.
Proof.
  induction l as [|x l IH]; intros p i v Hb Hi; [done|]. unfold word_image in Hb. rewrite bind_cons in Hb. apply bytes_app in Hb as [Hx Hl].
  destruct i as [|i]; cbn in Hi.
  - injection Hi as <-. by rewrite Z.add_0_r.
  - rewrite le32_length in Hl. specialize (IH (p + Z.of_nat 4) i v Hl Hi). by replace (p + 4 * Z.of_nat (S i)) with (p + Z.of_nat 4 + 4 * Z.of_nat i) by lia.
Qed.

Lemma string_image_get m ws : forall p i w, bytes m p (string_image ws) -> ws !! i = Some w ->
  exists a, addresses p ws !! i = Some a /\ bytes m a (w ++ [0]) /\ p <= a.
Proof.
  induction ws as [|u ws IH]; intros p i w Hb Hi; [done|]. unfold string_image in Hb. rewrite bind_cons in Hb. apply bytes_app in Hb as [Hu Hl].
  destruct i as [|i]; cbn in Hi |- *.
  - injection Hi as <-. exists p. split_and!; [done|done|lia].
  - rewrite length_app in Hl. cbn [length] in Hl. replace (p + Z.of_nat (length u + 1)) with (p + Z.of_nat (length u) + 1) in Hl by lia.
    destruct (IH _ i w Hl Hi) as (a & Ha & Hba & Hle). exists a. split_and!; [done|done|lia].
Qed.

Lemma image_length esp ws : Z.of_nat (length (stack_image esp ws)) = stack_size ws.
Proof.
  unfold stack_image. rewrite length_app, Nat2Z.inj_add, word_image_length. unfold stack_words, stack_size.
  rewrite !length_app, addresses_length. cbn [length]. lia.
Qed.

Lemma image_main m esp ws : bytes m (esp - stack_size ws) (stack_image esp ws) -> Forall (Forall (fun c => 0 < c < 256)) ws ->
  main_stack m (esp - stack_size ws) ws.
Proof.
  intros Hb Hch. unfold stack_image in Hb. apply bytes_app in Hb as [Hw Hs]. apply bytes_app in Hs as [_ Hs].
  rewrite word_image_length in Hs. set (e := esp - stack_size ws) in *. set (p := esp - Z.of_nat (length (string_image ws))) in *.
  assert (length (stack_words esp ws) = S (length ws)) as Hlen by (unfold stack_words; rewrite length_app, addresses_length; cbn; lia).
  replace (e + 4 * _ + _) with p in Hs by (rewrite length_app, Hlen; cbn [length]; unfold p, e, stack_size; lia).
  pose proof (fun i v => word_image_get m _ e i v Hw) as Hget.
  assert (forall i v, stack_words esp ws !! i = Some v -> word_at m (e + 12 + 4 * Z.of_nat i) v) as Hget2.
  { intros i v Hi. specialize (Hget (3 + i)%nat v). rewrite lookup_app_r in Hget by (cbn; lia). cbn [length] in Hget.
    replace (3 + i - 3)%nat with i in Hget by lia. specialize (Hget Hi). by replace (e + 12 + 4 * Z.of_nat i) with (e + 4 * Z.of_nat (3 + i)) by lia. }
  split.
  - rewrite <- (Z.add_0_r e). by apply (Hget 0%nat).
  - by apply (Hget 1%nat).
  - by apply (Hget 2%nat).
  - intros i w Hi. destruct (string_image_get m ws p i w Hs Hi) as (a & Ha & Hba & Hle). exists a. split; [|split].
    + apply Hget2. unfold stack_words. fold p. rewrite lookup_app_l; [done|]. by apply lookup_lt_Some in Ha.
    + apply cstr_bytes. split; [done|]. by apply (proj1 (Forall_lookup _ _) Hch i w).
    + unfold p, e, stack_size in *. lia.
  - apply Hget2. unfold stack_words. rewrite lookup_app_r by (by rewrite addresses_length). by rewrite addresses_length, Nat.sub_diag.
Qed.

(** ** Collecting the arguments *)

Section Collecting.
Context {H : Type} {HA : Allocator H}.
Implicit Types st : @pst H.

Lemma mems_ok {A : Type} (m : M memory A) st a m' : m (pmem st) = Ok (a, m') -> mems m st = Ok (a, Pst m' (pheap st) (oom st)).
Proof. intros E. unfold mems. by rewrite E. Qed.

Lemma asking_ok (m : M H Z) st p h' : m (pheap st) = Ok (p, h') -> asking m st = Ok (p, Pst (pmem st) h' (oom st || (p =? NULL))).
Proof. intros E. unfold asking. by rewrite E. Qed.

Lemma heaps_ok {A : Type} (m : M H A) st a h' : m (pheap st) = Ok (a, h') -> heaps m st = Ok (a, Pst (pmem st) h' (oom st)).
Proof. intros E. unfold heaps. by rewrite E. Qed.

Definition within (p : Z) (s : list Z) (t : Z) (w : list Z) : Prop := p <= t /\ t + Z.of_nat (length w) <= p + Z.of_nat (length s).

(** The array is at [blk]; the blocks in use are otherwise the same. *)
Definition grown (h : H) (block blk : Z) (h' : H) : Prop :=
  al_wf h' /\ blk <> NULL /\ (al_live h blk -> blk = block) /\ forall q, al_live h' q <-> q = blk \/ (q <> block /\ al_live h q).

Lemma words_chars set : forall s cur, Forall (fun c => 0 < c < 256) s -> Forall (fun c => 0 < c < 256) cur ->
  Forall (Forall (fun c => 0 < c < 256)) (words_from set cur s).
Proof.
  induction s as [|c s IH]; intros cur Hs Hcur; cbn [words_from].
  - destruct cur; [constructor|]. constructor; [|constructor]. by apply Forall_rev.
  - inversion Hs as [|? ? Hc Hs']; subst. destruct (among c set).
    + destruct cur; [by apply IH|]. constructor; [by apply Forall_rev|by apply IH].
    + apply IH; [done|by constructor].
Qed.

Lemma words_count set s : (length (words set s) <= length s)%nat.
Proof.
  unfold words. enough (forall s cur, (length (words_from set cur s) <= length s + match cur with [] => 0 | _ => 1 end)%nat) as Hn
    by (specialize (Hn s []); cbn in Hn; lia).
  clear. induction s as [|c s IH]; intros cur; cbn [words_from length]; [by destruct cur; cbn; lia|].
  destruct (among c set); [destruct cur as [|x cur]; [specialize (IH []); cbn in *; lia|specialize (IH []); cbn in *; lia]|].
  specialize (IH (c :: cur)). cbn in *. lia.
Qed.

Lemma collect_ok fuel space set : 0 < space -> (length set < fuel)%nat -> forall n st tp next block args s,
  tp <> NULL -> 0 < next -> cstr (pmem st) next s -> cstr (pmem st) space set ->
  space + Z.of_nat (length set) < next \/ next + Z.of_nat (length s) < space ->
  (length s < fuel)%nat -> (length s < n)%nat -> al_wf (pheap st) -> block = NULL \/ al_live (pheap st) block ->
  Z.of_nat (length args + length s) < 2 ^ 28 -> oom st = false ->
  exists r st', collect_args n fuel space tp next block args st = Ok (r, st') /\
    ((r = None /\ oom st' = true) \/
     (exists blk ptrs, r = Some (blk, args ++ tp :: ptrs) /\ oom st' = false /\ grown (pheap st) block blk (pheap st') /\
        Forall2 (cstr (pmem st')) ptrs (words set s) /\ Forall2 (within next s) ptrs (words set s) /\
        forall a, a < next \/ next + Z.of_nat (length s) <= a -> pmem st' !! a = pmem st !! a)).
Proof.
  intros Hsp Hset n. induction n as [|n IH]; intros st tp next block args s Htp Hnext Hs Hd Hdis Hf Hn Hw Hb Hmax Ho; [lia|].
  cbn [collect_args]. rewrite (proj2 (Z.eqb_neq tp NULL)) by done.
  destruct (al_realloc_ok (pheap st) block (4 * (Z.of_nat (length args) + 1)) Hw Hb ltac:(lia)) as (b & h1 & E & Hw1 & Hr).
  crun (asking_ok _ st b h1 E). destruct (Z.eqb_spec b NULL) as [->|Hbn]; [eexists None, _; split; [done|left; split; [done|cbn; by rewrite orb_true_r]]|].
  destruct Hr as [[? _]|(_ & Hnew & Hl)]; [done|]. rewrite Ho. cbn [orb]. set (st1 := Pst (pmem st) h1 false).
  assert (al_live h1 b) as Hlb by (rewrite Hl; by left).
  pose proof (strtok_call fuel (pmem st1) NULL next space next s set Hnext Hsp eq_refl Hs Hd Hf Hset) as Hcall.
  destruct (words set s) as [|w ws].
  - destruct Hcall as (save' & Ec). crun (mems_ok _ st1 _ _ Ec). cbn [fst snd]. eexists _, _. split; [destruct n; reflexivity|]. right.
    exists b, []. split_and!; try done; constructor.
  - destruct Hcall as (tok & save' & s' & m1 & Ec & Hws & Hcw & Hs' & Hpt & Hts & Hend & Hlen & Hlt & Hm1). crun (mems_ok _ st1 _ _ Ec). cbn [fst snd].
    set (st2 := Pst m1 (pheap st1) (oom st1)).
    destruct (IH st2 tok save' b (args ++ [tp]) s') as (r & st' & E' & Hr); try (done || lia).
    { unfold NULL. lia. }
    { apply (cstr_frame (pmem st)); [done|]. intros a Ha. apply Hm1. lia. }
    { by right. }
    { rewrite length_app. cbn [length]. lia. }
    exists r, st'. split; [done|]. destruct Hr as [?|(blk & ptrs & -> & Ho' & (Gw & Gn & Gl & G) & Hall & Hin & Hfr)]; [by left|right].
    exists blk, (tok :: ptrs). rewrite <- app_assoc. split; [done|]. split; [done|]. split; [|split; [|split]].
    + split_and!; [done|done| |].
      * intros Hx. destruct (decide (blk = block)) as [|Hne]; [done|]. destruct Hnew. rewrite <- (Gl ltac:(cbn; rewrite Hl; by right)). done.
      * intros q. rewrite G. cbn [pheap st2 st1]. rewrite Hl. split; [tauto|]. intros [->|[Hq Hlq]]; [by left|]. right. split; [|by right]. by intros ->.
    + rewrite <- Hws. constructor; [|done]. apply (cstr_frame m1); [done|]. intros a Ha. apply Hfr.
      destruct s' as [|c s']; [cbn [length] in *; lia|]. specialize (Hlt ltac:(done)). lia.
    + rewrite <- Hws. constructor; [split; lia|]. eapply Forall2_impl; [exact Hin|]. intros t u [? ?]. split; lia.
    + intros a Ha. rewrite Hfr by lia. cbn [pmem st2]. apply Hm1. lia.
Qed.

Lemma arguments_ok m fuel lo hi p s ptrs ws : 0 < p -> Forall2 (cstr m) ptrs ws -> Forall2 (within p s) ptrs ws -> (length s < fuel)%nat ->
  p + Z.of_nat (length s) < lo \/ hi <= p -> Forall2 (argument m fuel lo hi) ptrs ws.
Proof.
  intros Hp Hc. induction Hc as [|t w ptrs ws Ht _ IH]; intros Hin Hf Hd; [constructor|]. inversion Hin as [|? ? ? ? [H1 H2] Hin']; subst.
  constructor; [|by apply IH]. split_and!; [lia|done|lia|lia].
Qed.

(** The command line [line] at [p], the stack between [lo] and [esp]. *)
Record setting st (fuel : nat) (space lo esp p : Z) (line : list Z) : Prop := Setting {
  sg_heap : al_wf (pheap st);
  sg_line : 0 < p /\ cstr (pmem st) p line /\ (length line < fuel)%nat /\ Z.of_nat (length line) < 4096;
  sg_space : 0 < space /\ cstr (pmem st) space [32] /\ (1 < fuel)%nat /\ (space + 1 < p \/ p + Z.of_nat (length line) < space);
  sg_stack : 0 < lo /\ lo + stack_size (words [32] line) <= esp <= 2 ^ 32 /\ mapped (pmem st) lo (Z.to_nat (esp - lo));
  sg_apart : p + Z.of_nat (length line) < lo \/ esp <= p
}.

(** The first call and the loop together. *)
Lemma all_args_ok st fuel space lo esp p line : setting st fuel space lo esp p line -> oom st = false ->
  exists r st', (r <- mems (strtok_r fuel p space NULL);; collect_args fuel fuel space r.1 r.2 NULL []) st = Ok (r, st') /\
    ((r = None /\ oom st' = true) \/
     (exists blk args, r = Some (blk, args) /\ oom st' = false /\ al_wf (pheap st') /\
        (blk = NULL \/ ~ al_live (pheap st) blk) /\ (forall q, al_live (pheap st') q <-> (blk <> NULL /\ q = blk) \/ al_live (pheap st) q) /\
        Forall2 (argument (pmem st') fuel lo esp) args (words [32] line) /\
        forall a, a < p \/ p + Z.of_nat (length line) <= a -> pmem st' !! a = pmem st !! a)).
Proof.
  intros [Hw (Hp & Hc & Hf & H4k) (Hsp & Hcs & Hfs & Hds) _ Hap] Ho. pose proof (al_live_null _ Hw) as Hnull.
  assert (p = (if p =? NULL then NULL else p)) as Ep by (destruct (Z.eqb_spec p NULL); done).
  pose proof (strtok_call fuel (pmem st) p NULL space p line [32] Hp Hsp Ep Hc Hcs Hf Hfs) as Hcall.
  destruct (words [32] line) as [|w ws].
  - destruct Hcall as (save' & E). crun (mems_ok _ st _ _ E). cbn [fst snd]. eexists _, _. split; [destruct fuel; reflexivity|]. right.
    exists NULL, []. split; [done|]. split; [done|]. split; [done|]. split; [by left|]. split; [|split; [constructor|done]]. intros q. cbn [pheap]. tauto.
  - destruct Hcall as (tok & save' & s' & m1 & E & Hws & Hcw & Hs' & Hpt & Hts & Hend & Hlen & Hlt & Hm1). crun (mems_ok _ st _ _ E). cbn [fst snd].
    set (st1 := Pst m1 (pheap st) (oom st)).
    destruct (collect_ok fuel space [32] Hsp Hfs fuel st1 tok save' NULL [] s') as (r & st' & E' & Hr); try (done || (cbn [length] in *; lia) || by left).
    { unfold NULL. lia. }
    { apply (cstr_frame (pmem st)); [done|]. intros a Ha. apply Hm1. cbn [length] in *. lia. }
    exists r, st'. split; [done|]. destruct Hr as [?|(blk & ptrs & -> & Ho' & (Gw & Gn & Gl & G) & Hall & Hin & Hfr)]; [by left|right].
    exists blk, (tok :: ptrs). split; [done|]. split; [done|]. split; [done|]. split; [|split; [|split]].
    + right. intros Hx. by apply Gn, Gl.
    + intros q. rewrite G. cbn [pheap st1]. split; [tauto|]. intros [[_ ->]|Hq]; [by left|]. right. split; [by intros ->|done].
    + constructor.
      * split_and!; [lia| |lia|lia]. apply (cstr_frame m1); [done|]. intros a Ha. apply Hfr.
        destruct s' as [|c s']; [cbn [length] in *; lia|]. specialize (Hlt ltac:(done)). lia.
      * rewrite <- Hws. apply (arguments_ok _ fuel lo esp save' s'); [lia|exact Hall|exact Hin|lia|lia].
    + intros a Ha. rewrite Hfr by lia. cbn [pmem st1]. apply Hm1. lia.
Qed.

Lemma free_block_ok b (h : H) : al_wf h -> b = NULL \/ al_live h b ->
  exists h', al_free b h = Ok (tt, h') /\ al_wf h' /\ forall q, al_live h' q <-> q <> b /\ al_live h q.
Proof.
  intros Hw [->|Hl]; [|by apply al_free_ok]. exists h. split; [apply al_free_null|]. split; [done|]. intros q.
  split; [|tauto]. intros Hq. split; [|done]. intros ->. by apply (al_live_null h Hw).
Qed.


End Collecting.

Module Demo.

(** [n] zero bytes at [p]. *)
Fixpoint zero_bytes (n : nat) (p : Z) (m : memory) : memory :=
  match n with O => m | S n => <[p := 0]> (zero_bytes n (p + 1) m) end.

(** The page with the command line, the constant with the blank, and a stack of [n] bytes. *)
Definition line_page : Z := 0xc0200000.
Definition blank : Z := 0xc0300000.

Definition state (line : list Z) (n : nat) : @pst Malloc.heap :=
  Pst (CString.Demo.write line_page line (CString.Demo.write blank [32] (zero_bytes n (PHYS_BASE - Z.of_nat n) ∅))) small_heap false.

Definition command : list Z := CString.Demo.command.

Lemma command_setting : setting (state command 128) 20 blank (PHYS_BASE - 128) PHYS_BASE line_page command.
Proof.
  split.
  - apply small_heap_wf.
  - split_and!; by_compute.
  - split_and!; [by_compute..|]. right. by_compute.
  - split_and!; [by_compute..|]. intros a Ha. change (Z.of_nat (Z.to_nat (PHYS_BASE - (PHYS_BASE - 128)))) with 128 in Ha.
    assert (In a (seqZ (PHYS_BASE - 128) 128)) as Hin by (apply list_elem_of_In, elem_of_seqZ; lia).
    assert (forallb (fun a => match pmem (state command 128) !! a with Some b => b =? 0 | None => false end) (seqZ (PHYS_BASE - 128) 128) = true) as Hall by by_compute.
    pose proof (proj1 (forallb_forall _ _) Hall a Hin) as Hb. cbv beta in Hb. destruct (pmem (state command 128) !! a) as [b|]; [|discriminate Hb].
    exists b. split; [reflexivity|]. apply Z.eqb_eq in Hb. lia.
  - right. by_compute.
Qed.

Definition got_memory (r : res ((Z * option bool) * @pst Malloc.heap)) : bool := match r with Ok (_, s) => negb (oom s) | _ => false end.

Lemma command_memory : got_memory (construct_ESP 20 blank PHYS_BASE line_page (state command 128)) = true.
Proof. by_compute. Qed.


(** A command line of one word of 4090 characters: it fits in the page that it is copied to. *)
Definition long_line : list Z := replicate 4090 97.
Definition is_fault {A : Type} (r : res A) : bool := match r with Fault => true | _ => false end.

End Demo.

(** Nothing checks that the arguments fit on the stack: with a command line of 4090
    characters, which [process_execute] accepts, [construct_ESP] writes below the one page that
    [setup_stack] has mapped, a page fault in the kernel. *)
Theorem construct_ESP_overflows : Z.of_nat (length Demo.long_line) < 4096 /\ 4096 < stack_size (words [32] Demo.long_line) /\
  Demo.is_fault (construct_ESP 4200 Demo.blank PHYS_BASE Demo.line_page (Demo.state Demo.long_line 4096)) = true.
Proof. split_and!; by_compute. Qed.
