(* ===== verification/FileApi.v ===== *)
(** * The file system as a service

    What the loader and the system calls rely on: the calls of FsSpec, each of
    which runs without a panic and takes the abstract state to the one that
    [step] allows, unless memory ran out.  Reading, seeking and asking for the
    length keep the state represented even then; a read may be short.  The
    file system of Filesys is an instance. *)

From stdpp Require Import gmap.
From S2P Require Import Prelude Alloc BlockDev Bytes FsDef FsInode FsAlloc.
From S2P Require Import FsFile FsDir FsSpec Filesys.
Local Open Scope Z_scope.

(** The kind of answer of a call; a write never takes more than it was given. *)
Definition fits (c : call) (r : answer) : Prop :=
  match c, r with
  | Create _ _, Yes _ | Remove _, Yes _ | Open _, Opened _ | Reopen _, Opened _ => True
  | Read _ _ _, Bytes _ _ | Tell _, Count _ | Length _, Count _ => True
  | Write _ _ size, Count n => 0 <= n <= size
  | Close _, Done | Seek _ _, Done | Deny _, Done | Allow _, Done => True
  | _, _ => False
  end.

Class FileService (F : Type) := {
  sv_call : call -> M F answer;
  sv_short : F -> bool;
  sv_repr : F -> view -> Prop;
  sv_refines s v c : sv_repr s v -> allowed v c ->
    exists r s', sv_call c s = Ok (r, s') /\ (sv_short s' = true \/ exists v', step v c r v' /\ sv_repr s' v');
  sv_fits s v c r s' : sv_repr s v -> allowed v c -> sv_call c s = Ok (r, s') -> fits c r;
  sv_handle s v f h : sv_repr s v -> handles v !! f = Some h ->
    f <> NULL /\ 0 <= hpos h < 2 ^ 31 /\ exists n, nodes v !! hfile h = Some n /\ zlen (contents n) < 2 ^ 31 - 511;
  sv_read s v f h n buffer size : sv_repr s v -> handles v !! f = Some h -> nodes v !! hfile h = Some n ->
    buffer_ok buffer size ->
    exists k s', sv_call (Read f buffer size) s = Ok (Bytes k (overlay 0 (slice (hpos h) k (contents n)) buffer), s') /\
      0 <= k <= want (zlen (contents n)) size (hpos h) /\
      (k = want (zlen (contents n)) size (hpos h) \/ sv_short s' = true) /\
      sv_repr s' (with_handle f (Handle (hfile h) (hpos h + k) (hdeny h)) v);
  sv_seek s v f h pos : sv_repr s v -> handles v !! f = Some h -> 0 <= pos < 2 ^ 31 ->
    exists s', sv_call (Seek f pos) s = Ok (Done, s') /\ sv_short s' = sv_short s /\
      sv_repr s' (with_handle f (Handle (hfile h) pos (hdeny h)) v);
  sv_length s v f h n : sv_repr s v -> handles v !! f = Some h -> nodes v !! hfile h = Some n ->
    sv_call (Length f) s = Ok (Count (zlen (contents n)), s)
}.

Section Filesys_service.
Context {H : Type} `{HA : Allocator H} {D : Type} `{HD : BlockDevice D}.
Notation fs := (@fs H D).
Context (uninit : list Z) (uninit_bytes : entry_bytes uninit).

Definition represented (s : fs) (v : view) : Prop := exists N, repr_at ∅ false s N v.

Lemma service_refines s v c : represented s v -> allowed v c ->
  exists r s', exec uninit c s = Ok (r, s') /\ (oom s' = true \/ exists v', step v c r v' /\ represented s' v').
Proof.
  intros [N Hr] Ha. destruct (call_refines uninit uninit_bytes c s N v Hr Ha) as (r & s' & E & Ho). exists r, s'.
  split; [done|]. destruct Ho as [?|(N' & v' & Hs & Hr')]; [by left|right]. exists v'. split; [done|]. by exists N'.
Qed.

Lemma write_fits s v f buffer size r s' : represented s v -> allowed v (Write f buffer size) ->
  exec uninit (Write f buffer size) s = Ok (r, s') -> fits (Write f buffer size) r.
Proof.
  intros [N Hr] ([h Hf] & [Hsz Hbuf] & Hby). destruct (handle_user uninit uninit_bytes s N v f h Hr Hf) as (x & i & n & Hu & -> & Hv & Hn & Hp).
  pose proof (bs_held _ _ _ (rp_base _ _ _ _ _ Hr)) as Hh. pose proof Hu as (Hx & _ & Hi & _).
  destruct (file_write_held s N ∅ f x i n buffer size Hh Hx Hi Hn Hby Hp Hsz Hbuf) as (k & s1 & s2 & E & _ & _ & _ & _ & Hk & _).
  cbn [exec]. unfold bind. rewrite E. intros [= <- <-]. cbn. unfold want in Hk. lia.
Qed.

Lemma service_fits s v c r s' : represented s v -> allowed v c -> exec uninit c s = Ok (r, s') -> fits c r.
Proof.
  intros Hr Ha. destruct c; try (by apply (write_fits s v)); cbn [exec]; unfold bind;
    lazymatch goal with |- res_bind ?m _ = _ -> _ => destruct m as [[? ?]| | |] end; cbn [res_bind]; try discriminate; intros E; injection E as <- <-; done.
Qed.

Lemma service_handle s v f h : represented s v -> handles v !! f = Some h ->
  f <> NULL /\ 0 <= hpos h < 2 ^ 31 /\ exists n, nodes v !! hfile h = Some n /\ zlen (contents n) < 2 ^ 31 - 511.
Proof.
  intros [N Hr] Hf. destruct (handle_user uninit uninit_bytes s N v f h Hr Hf) as (x & i & n & Hu & -> & Hv & Hn & Hp).
  pose proof (rp_base _ _ _ _ _ Hr) as Hb. split; [exact (file_not_null s N ∅ f x i (bs_held _ _ _ Hb) Hu)|]. split; [done|]. exists n.
  split; [done|]. apply (node_length s N _ n Hb Hn).
Qed.

#[global, refine] Instance filesys_service : FileService fs := {
  sv_call := exec uninit;
  sv_short := oom;
  sv_repr := represented;
  sv_refines := service_refines;
  sv_fits := service_fits;
  sv_handle := service_handle;
  sv_read := _; sv_seek := _; sv_length := _
}.
Proof.
  - intros s v f h n buffer size [N Hr] Hf Hn Hb.
    destruct (read_short uninit uninit_bytes s N v f h n buffer size Hr Hf Hn Hb) as (k & s' & E & Hk & Ho & Hr').
    exists k, s'. split; [exact E|]. split; [exact Hk|]. split; [exact Ho|]. by exists N.
  - intros s v f h pos [N Hr] Hf Hp. destruct (seek_exact uninit uninit_bytes s N v f h pos Hr Hf Hp) as (s' & E & Ho & Hr').
    exists s'. split; [exact E|]. split; [exact Ho|]. by exists N.
  - intros s v f h n [N Hr]. apply (length_exact uninit uninit_bytes s N v f h n Hr).
Defined.

End Filesys_service.
