(* ===== verification/Uspace.v ===== *)
(** * User address spaces (userprog/process.c)

    The memory that a process sees: a user address is translated through the
    page directory to a frame of the user pool, whose bytes are kept by the page
    allocator.  [space_ok] is the invariant of an address space; getting a
    frame, filling it, mapping it with [install_page] and giving it back keep
    it, and change what the process sees exactly at the mapped page. *)

From stdpp Require Import gmap.
From S2P Require Import Prelude Vaddr Bitmap PageAlloc Palloc Pagedir.
Local Open Scope Z_scope.

(** ** The code *)

Definition install_page (pd upage kpage : Z) (writable : bool) : M mmu bool :=
  k <- pagedir_get_page pd upage;;
  if k =? NULL then pagedir_set_page pd upage kpage writable else ret false.

(** The stack pointer, if there is a stack. *)
Definition setup_stack (pd : Z) : M mmu (option Z) :=
  kpage <- paging (palloc_get_page (Z.lor PAL_USER PAL_ZERO));;
  if negb (kpage =? NULL) then
    success <- install_page pd (PHYS_BASE - PGSIZE) kpage true;;
    if success : bool then ret (Some PHYS_BASE)
    else paging (palloc_free_page kpage);;; ret None
  else ret None.

(** Bytes of memory. *)
Definition bytes_at (a n : Z) (m : Z -> Z) : list Z := m <$> seqZ a n.
Definition store_bytes (a : Z) (l : list Z) (m : Z -> Z) : Z -> Z :=
  fun x => if a <=? x then default (m x) (l !! Z.to_nat (x - a)) else m x.
Definition peek (a n : Z) : M mmu (list Z) := gets (fun s => bytes_at a n (mem (frames s))).
Definition poke (a : Z) (l : list Z) : M mmu unit :=
  modify (fun s => set_frames (set_mem (store_bytes a l (mem (frames s))) (frames s)) s).

(** What the process sees at an address. *)
Definition user_byte (s : mmu) (pd va : Z) : option Z := mem (frames s) <$> translate s pd va.

(** ** Computations that leave the user pool alone *)

Definition in_user_pool (s : mmu) (x : Z) : Prop :=
  exists p, managed_by (user_pool (frames s)) p /\ p <= x < p + 4096.

(** No page is left in the pool. *)
Definition exhausted (u : bool) (s : mmu) : Prop :=
  forall i, let p := the_pool u (frames s) in 0 <= i < bit_cnt (used_map p) -> bit (used_map p) i = true.

Record kept (s s' : mmu) : Prop := Kept {
  kp_pools : pools_wf (frames s');
  kp_user : user_pool (frames s') = user_pool (frames s);
  kp_dir : init_page_dir s' = init_page_dir s;
  kp_ram : init_ram_pages s' = init_ram_pages s;
  kp_full : exhausted false s -> exhausted false s';
  kp_mem x : in_user_pool s x -> mem (frames s') x = mem (frames s) x
}.

Definition keeping {A : Type} (m : M mmu A) : Prop :=
  forall s a s', pools_wf (frames s) -> m s = Ok (a, s') -> kept s s'.

Lemma kept_refl s : pools_wf (frames s) -> kept s s.
Proof. by split. Qed.

Lemma kept_trans s1 s2 s3 : kept s1 s2 -> kept s2 s3 -> kept s1 s3.
Proof.
  intros [A1 A2 A3 A4 AF A5] [B1 B2 B3 B4 BF B5]. split; [done|congruence..|tauto|]. intros x Hx. rewrite B5, A5; [done..|].
  unfold in_user_pool. by rewrite A2.
Qed.

Lemma keeping_bind {A B : Type} (m : M mmu A) (k : A -> M mmu B) :
  keeping m -> (forall a, keeping (k a)) -> keeping (bind m k).
Proof.
  intros Hm Hk s b s' Hw. unfold bind. destruct (m s) as [[a s1]| | |] eqn:E; cbn [res_bind fst snd]; try done.
  intros E'. pose proof (Hm s a s1 Hw E) as H1. apply (kept_trans s s1); [done|]. by apply (Hk a s1 b s'); [apply H1|].
Qed.

Lemma keeping_ret {A : Type} (a : A) : keeping (ret a).
Proof. intros s b s' Hw [= <- <-]. by apply kept_refl. Qed.

Lemma keeping_assert b : keeping (assert b).
Proof. destruct b; [apply keeping_ret|done]. Qed.

Lemma keeping_lift {A : Type} (r : res A) : keeping (lift r).
Proof. intros s b s' Hw. unfold lift. destruct r; cbn [res_bind]; try done. intros [= <- <-]. by apply kept_refl. Qed.

Lemma keeping_get : keeping get.
Proof. intros s b s' Hw [= <- <-]. by apply kept_refl. Qed.

Lemma keeping_put_table p es : keeping (put_table p es).
Proof. intros s b s' Hw [= <- <-]. by split. Qed.

Create HintDb keeping.
#[export] Hint Resolve keeping_ret keeping_assert keeping_lift keeping_get keeping_put_table : keeping.

(** Closes a goal [keeping m] by the structure of [m]. *)
Ltac solve_keeping := repeat first [solve [auto with keeping] | apply keeping_bind; [|intros] | case_match].

Lemma keeping_load_entry a : keeping (load_entry a).
Proof. unfold load_entry, get_table. solve_keeping. Qed.
Lemma keeping_store_entry a v : keeping (store_entry a v).
Proof. unfold store_entry, get_table. solve_keeping. Qed.
#[export] Hint Resolve keeping_load_entry keeping_store_entry : keeping.

Lemma pages_apart p q x : p mod 4096 = 0 -> q mod 4096 = 0 -> p <= x < p + 4096 -> q <= x < q + 4096 -> p = q.
Proof. intros. Z.to_euclidean_division_equations; lia. Qed.

Lemma page_span upage va : upage mod 4096 = 0 -> same_page upage va <-> upage <= va < upage + 4096.
Proof. unfold same_page. intros. Z.to_euclidean_division_equations; lia. Qed.

Lemma managed_aligned p pg : pool_wf p -> managed_by p pg -> pg mod 4096 = 0.
Proof. intros Hp (i & Hi & ->). by apply page_bound. Qed.

Lemma keeping_kernel_page flags : has_flag flags PAL_USER = false -> has_flag flags PAL_ASSERT = false ->
  keeping (paging (palloc_get_page flags)).
Proof.
  intros Hu Ha s a s' Hw. unfold paging, palloc_get_page.
  destruct (get_multiple_cases flags 1 (frames s) Hw ltac:(lia)) as [(i & b & H0 & Hi & Hg & _ & Hset & E)|[_ E]]; rewrite E, ?Ha.
  2: { cbn. intros [= <- <-]. destruct s. by apply kept_refl. }
  rewrite Hu in *. cbn [the_pool] in *. cbn [res_bind fst snd]. intros [= <- <-]. split; try done.
  - apply (put_pool_wf false); [done|apply Hset|apply Hset].
  - intros Hx. specialize (Hx i). cbn in Hx. rewrite (Hg i) in Hx by (unfold range; lia). specialize (Hx ltac:(lia)). done.
  - intros x (q & Hq & Hx). cbn. unfold handed_out. destruct (has_flag flags PAL_ZERO); [|done]. unfold fill.
    destruct (_ && _) eqn:Ein; [|done]. apply andb_true_iff in Ein as [E1%Z.leb_le E2%Z.ltb_lt]. exfalso.
    assert (managed_by (kernel_pool (frames s)) (page (kernel_pool (frames s)) i)) as Hm by (exists i; split; [lia|done]).
    assert (page (kernel_pool (frames s)) i = q) as Eq.
    { apply (pages_apart _ _ x); [by apply (managed_aligned _ _ (pws_kernel _ Hw))|by apply (managed_aligned _ _ (pws_user _ Hw))|lia|lia]. }
    rewrite Eq in Hm. by apply (pws_disjoint _ Hw q).
Qed.
#[export] Hint Extern 1 (keeping (paging (palloc_get_page _))) => apply keeping_kernel_page; reflexivity : keeping.

Lemma keeping_lookup_page pd va create : keeping (lookup_page pd va create).
Proof. unfold lookup_page. solve_keeping. Qed.
#[export] Hint Resolve keeping_lookup_page : keeping.

Lemma keeping_set_page pd upage kpage w : keeping (pagedir_set_page pd upage kpage w).
Proof. unfold pagedir_set_page. solve_keeping. Qed.

(** ** Address spaces *)

Record space_ok (s : mmu) (pd : Z) : Prop := SpaceOk {
  so_mmu : mmu_wf s;
  so_dir : exists es, dir_wf s pd es;
  so_own : pd <> init_page_dir s;
  so_ram p : managed_by (user_pool (frames s)) p -> (p - PHYS_BASE) / 4096 < init_ram_pages s;
  so_mapped va k : 0 <= va < PHYS_BASE -> translate s pd va = Some k -> used_in (user_pool (frames s)) (k - pg_ofs va);
  so_inj va va' k : 0 <= va < PHYS_BASE -> 0 <= va' < PHYS_BASE -> translate s pd va = Some k -> translate s pd va' = Some k -> va = va'
}.

(** [s'] differs from [s] in the frame [k] only, and has it at least where [s] has it. *)
Record same_space (s s' : mmu) (k : Z) : Prop := SameSpace {
  ss_tables : tables s' = tables s;
  ss_cr3 : cr3 s' = cr3 s;
  ss_dir : init_page_dir s' = init_page_dir s;
  ss_ram : init_ram_pages s' = init_ram_pages s;
  ss_kernel : kernel_pool (frames s') = kernel_pool (frames s);
  ss_base : base (user_pool (frames s')) = base (user_pool (frames s));
  ss_bits : bit_cnt (used_map (user_pool (frames s'))) = bit_cnt (used_map (user_pool (frames s)));
  ss_pools : pools_wf (frames s');
  ss_used p : used_in (user_pool (frames s)) p -> used_in (user_pool (frames s')) p;
  ss_mem x : ~ k <= x < k + 4096 -> mem (frames s') x = mem (frames s) x
}.

Lemma same_space_trans s1 s2 s3 k : same_space s1 s2 k -> same_space s2 s3 k -> same_space s1 s3 k.
Proof.
  intros [A1 A2 A3 A4 A5 A6 A7 A8 A9 A10] [B1 B2 B3 B4 B5 B6 B7 B8 B9 B10].
  split; [congruence..|done|auto|]. intros x Hx. by rewrite B10, A10.
Qed.

Lemma same_used s s' k p : same_space s s' k -> used (frames s) p -> used (frames s') p.
Proof. intros Hs [Hu|Hu]; [left; by rewrite (ss_kernel _ _ _ Hs)|right; by apply (ss_used _ _ _ Hs)]. Qed.

Lemma same_managed s s' k p : same_space s s' k -> managed_by (user_pool (frames s')) p <-> managed_by (user_pool (frames s)) p.
Proof. intros Hs. unfold managed_by, page. by rewrite (ss_bits _ _ _ Hs), (ss_base _ _ _ Hs). Qed.

Lemma same_translate s s' k pd va : same_space s s' k -> translate s' pd va = translate s pd va.
Proof. intros Hs. unfold translate, walk. by rewrite (ss_tables _ _ _ Hs). Qed.

Lemma same_dir s s' k pd es : same_space s s' k -> dir_wf s pd es -> dir_wf s' pd es.
Proof.
  intros Hs [D1 D2 D3 D4 D5]. split; [done|by apply (same_used s s' k)|by rewrite (ss_tables _ _ _ Hs)| |done].
  intros i e Hi He. destruct (D4 i e Hi He) as [?|(pt & P1 & P2 & P3 & P4 & P5)]; [by left|right]. exists pt.
  unfold dir_entry. rewrite (ss_tables _ _ _ Hs). split_and!; try done. by apply (same_used s s' k).
Qed.

(** Nobody maps [k]. *)
Definition unmapped (s : mmu) (pd k : Z) : Prop :=
  forall va k', 0 <= va < PHYS_BASE -> translate s pd va = Some k' -> k' - pg_ofs va <> k.

Lemma same_space_ok s s' pd k : space_ok s pd -> same_space s s' k -> space_ok s' pd.
Proof.
  intros [[S1 S2 S3] [es S4] S5 S6 S7 S8] Hs. split.
  - split; [apply Hs|by rewrite (ss_kernel _ _ _ Hs), (ss_base _ _ _ Hs)|by rewrite (ss_cr3 _ _ _ Hs)].
  - exists es. by apply (same_dir s s' k).
  - by rewrite (ss_dir _ _ _ Hs).
  - intros p Hp. rewrite (ss_ram _ _ _ Hs). apply S6. by apply (same_managed s s' k).
  - intros va k' Hv Ht. rewrite (same_translate s s' k) in Ht by done. apply (ss_used _ _ _ Hs). by apply S7.
  - intros va va' k' Hv Hv'. rewrite !(same_translate s s' k) by done. by apply S8.
Qed.

Lemma pg_ofs_bound va : 0 <= pg_ofs va < 4096.
Proof. unfold pg_ofs. change PGMASK with (Z.ones 12). rewrite Z.land_ones by lia. apply Z.mod_pos_bound. lia. Qed.

Lemma used_managed p pg : used_in p pg -> managed_by p pg.
Proof. intros (i & Hi & -> & _). by exists i. Qed.

Lemma same_user_byte s s' pd k va : space_ok s pd -> unmapped s pd k -> k mod 4096 = 0 -> same_space s s' k ->
  0 <= va < PHYS_BASE -> user_byte s' pd va = user_byte s pd va.
Proof.
  intros Hok Hun Hk Hs Hv. unfold user_byte. rewrite (same_translate s s' k) by done.
  destruct (translate s pd va) as [k'|] eqn:E; [|done]. cbn. f_equal. apply (ss_mem _ _ _ Hs). intros Hin.
  pose proof (pg_ofs_bound va). apply (Hun va k' Hv E).
  apply (pages_apart _ _ k'); [|done|lia|lia]. apply (managed_aligned _ _ (pws_user _ (mw_pools _ (so_mmu _ _ Hok)))).
  apply used_managed. by apply (so_mapped s pd).
Qed.

(** ** Frames come and go *)

Lemma fresh_unmapped s pd k : space_ok s pd -> ~ used (frames s) k -> unmapped s pd k.
Proof. intros Hok Hk va k' Hv Ht E. apply Hk. right. rewrite <- E. by apply (so_mapped s pd). Qed.

Lemma full_exhausted s flags : pools_wf (frames s) -> palloc_get_page flags (frames s) = Ok (NULL, frames s) -> exhausted (has_flag flags PAL_USER) s.
Proof.
  intros Hw E0 i. cbv zeta. intros Hi. unfold palloc_get_page in E0.
  destruct (get_multiple_cases flags 1 (frames s) Hw ltac:(lia)) as [(j & b & H0 & Hj & _ & _ & _ & E)|[Hno _]].
  - rewrite E in E0. injection E0 as E0 _. pose proof (page_bound _ j (the_pool_wf (has_flag flags PAL_USER) _ Hw) ltac:(lia)).
    unfold NULL in E0. lia.
  - destruct (bit _ i) eqn:Eb; [done|]. destruct (Hno i); [lia..|]. intros j Hj. unfold range in Hj. by replace j with i by lia.
Qed.

(** The result of [palloc_get_page] for a user page. *)
Lemma take_frame s pd flags : space_ok s pd -> has_flag flags PAL_USER = true -> has_flag flags PAL_ASSERT = false ->
  (paging (palloc_get_page flags) s = Ok (NULL, s) /\ exhausted true s) \/
  exists k s1, paging (palloc_get_page flags) s = Ok (k, s1) /\ k <> NULL /\ page_ok k /\ same_space s s1 k /\
    ~ used (frames s) k /\ used_in (user_pool (frames s1)) k /\
    (has_flag flags PAL_ZERO = true -> forall x, k <= x < k + 4096 -> mem (frames s1) x = 0).
Proof.
  intros [[Hw [_ Hhigh] _] _ _ _ _ _] Hu Ha. unfold paging, palloc_get_page.
  destruct (get_multiple_cases flags 1 (frames s) Hw ltac:(lia)) as [(i & b & H0 & Hi & Hg & _ & Hset & E)|[Hno E]]; rewrite E, ?Ha.
  2: { left. split; [by destruct s|]. rewrite <- Hu. apply (full_exhausted s flags Hw). unfold palloc_get_page. by rewrite E, Ha. }
  right. rewrite Hu in *. cbn [the_pool] in *. set (p := user_pool (frames s)) in *.
  destruct (page_bound p i (pws_user _ Hw)) as (Hb & Hal & _); [fold p; lia|].
  assert (0 <= page p i - base p) by (unfold page; lia). cbn [res_bind fst snd]. eexists _, _. split; [done|]. split; [unfold NULL; lia|].
  split; [unfold page_ok; unfold PHYS_BASE in *; lia|]. destruct Hset as (Hc & Hwf & Hbits). split_and!.
  - split; try done; cbn.
    + apply (put_pool_wf true); done.
    + intros q (j & Hj & -> & Ej). exists j. cbn. rewrite Hc. split; [done|]. split; [done|]. destruct (Hbits j Hj) as [B1 B2].
      destruct (range_dec i 1 j); [by apply B1|by rewrite B2].
    + intros x Hx. unfold handed_out. destruct (has_flag flags PAL_ZERO); [|done]. unfold fill.
      destruct (_ && _) eqn:Ein; [|done]. apply andb_true_iff in Ein as [E1%Z.leb_le E2%Z.ltb_lt]. destruct Hx. lia.
  - intros Hus. apply (used_page true (frames s) i Hw ltac:(cbn; fold p; lia)) in Hus. cbn in Hus. fold p in Hus.
    rewrite (Hg i) in Hus by (unfold range; lia). done.
  - exists i. cbn. rewrite Hc. split; [lia|]. split; [done|]. apply Hbits; [lia|unfold range; lia].
  - intros Hz x Hx. cbn. unfold handed_out, fill. rewrite Hz, (proj2 (Z.leb_le _ _)), (proj2 (Z.ltb_lt _ _)) by lia. done.
Qed.

(** The pool had a page before one was taken. *)
Lemma taken_room s s1 k : same_space s s1 k -> ~ used (frames s) k -> used_in (user_pool (frames s1)) k -> exhausted true s -> False.
Proof.
  intros Hs Hf (i & Hi & -> & _) Hx. apply Hf. right. exists i. rewrite (ss_bits _ _ _ Hs) in Hi. unfold page. rewrite (ss_base _ _ _ Hs).
  split; [done|]. split; [done|]. by apply Hx.
Qed.

(** A frame that [s] did not use is given back. *)
Lemma give_back s s2 k : same_space s s2 k -> ~ used (frames s) k -> used_in (user_pool (frames s2)) k ->
  exists s3, paging (palloc_free_page k) s2 = Ok (tt, s3) /\ same_space s s3 k.
Proof.
  intros Hs Hfresh (i & Hi & -> & Hbit). set (p := user_pool (frames s2)) in *.
  destruct (free_multiple_ok true (frames s2) i 1 (ss_pools _ _ _ Hs)) as (b & Hset & E); [lia|lia|cbn; fold p; lia|..].
  { intros j Hj. unfold range in Hj. replace j with i by lia. done. }
  cbn [the_pool] in E, Hset. fold p in E, Hset. unfold paging, palloc_free_page. rewrite E. cbn [res_bind fst snd]. eexists. split; [done|].
  destruct Hset as (Hc & Hwf & Hbits). destruct Hs as [A1 A2 A3 A4 A5 A6 A7 A8 A9 A10]. split; try done; cbn.
  - by rewrite Hc.
  - change (pools_wf (set_mem (fill (page p i) 0xcc 4096 (mem (frames s2))) (put_pool true (set_used_map b p) (frames s2)))).
    by apply (put_pool_wf true).
  - intros q Hq. pose proof (A9 q Hq) as (j & Hj & -> & Ej). exists j. cbn. rewrite Hc. split; [done|]. split; [done|].
    destruct (Hbits j Hj) as [_ B2]. rewrite B2; [done|]. unfold range. intros Hr. apply Hfresh. right.
    by replace i with j by lia.
  - intros x Hx. unfold fill. destruct (_ && _) eqn:Ein; [|by apply A10].
    apply andb_true_iff in Ein as [E1%Z.leb_le E2%Z.ltb_lt]. destruct Hx. lia.
Qed.

Lemma store_bytes_in a l m x b : a <= x -> l !! Z.to_nat (x - a) = Some b -> store_bytes a l m x = b.
Proof. intros Hx Hl. unfold store_bytes. by rewrite (proj2 (Z.leb_le a x)), Hl by lia. Qed.

Lemma store_bytes_out a l m x : ~ a <= x < a + Z.of_nat (length l) -> store_bytes a l m x = m x.
Proof.
  intros Hx. unfold store_bytes. destruct (a <=? x) eqn:E; [|done]. apply Z.leb_le in E.
  by rewrite lookup_ge_None_2 by lia.
Qed.

(** Bytes stored into a frame. *)
Lemma poke_space s k a l : pools_wf (frames s) -> k <= a -> a + Z.of_nat (length l) <= k + 4096 ->
  exists s', poke a l s = Ok (tt, s') /\ same_space s s' k /\ frames s' = set_mem (store_bytes a l (mem (frames s))) (frames s).
Proof.
  intros Hw Ha Hl. eexists. split; [done|]. split; [|done]. split; try done; cbn.
  - by destruct Hw.
  - intros x Hx. apply store_bytes_out. lia.
Qed.

Lemma length_bytes_at a n m : length (bytes_at a n m) = Z.to_nat n.
Proof. unfold bytes_at. by rewrite length_fmap, length_seqZ. Qed.

(** ** Mapping a frame *)

(** A new page whose frame nobody maps keeps the translation injective. *)
Lemma mapped_once s pd upage k va va' x : space_ok s pd -> unmapped s pd k -> page_ok k -> 0 <= va < PHYS_BASE -> 0 <= va' < PHYS_BASE ->
  (if decide (same_page upage va) then Some (k + pg_ofs va) else translate s pd va) = Some x ->
  (if decide (same_page upage va') then Some (k + pg_ofs va') else translate s pd va') = Some x -> va = va'.
Proof.
  intros Hok Hun (_ & _ & Hk) Hv Hv'. pose proof (pg_ofs_bound va) as Ho. pose proof (pg_ofs_bound va') as Ho'.
  assert (forall w o, 0 <= w < PHYS_BASE -> 0 <= o < 4096 -> translate s pd w = Some (k + o) -> False) as Hno.
  { intros w o Hw Hr Ht. pose proof (pg_ofs_bound w). apply (Hun w _ Hw Ht). apply (pages_apart _ _ (k + o)); [|done|lia|lia].
    apply (managed_aligned _ _ (pws_user _ (mw_pools _ (so_mmu _ _ Hok)))), used_managed. by apply (so_mapped s pd Hok). }
  repeat case_decide.
  - intros [= <-] [= E]. unfold same_page in *. rewrite !pg_ofs_mod in E by lia. rewrite (Z.div_mod va 4096), (Z.div_mod va' 4096) by lia. lia.
  - intros [= <-] E. destruct (Hno va' (pg_ofs va) Hv' Ho E).
  - intros E [= <-]. destruct (Hno va (pg_ofs va') Hv Ho' E).
  - by apply (so_inj s pd Hok).
Qed.

Lemma install_ok s pd upage k w : space_ok s pd -> 0 <= upage < PHYS_BASE -> upage mod 4096 = 0 ->
  page_ok k -> used_in (user_pool (frames s)) k -> unmapped s pd k ->
  exists b s', install_page pd upage k w s = Ok (b, s') /\
    if b then kept s s' /\ space_ok s' pd /\ translate s pd upage = None /\
      forall va, 0 <= va < PHYS_BASE -> translate s' pd va =
        if decide (same_page upage va) then Some (k + pg_ofs va) else translate s pd va
    else s' = s /\ (is_Some (translate s pd upage) \/ exhausted false s).
Proof.
  intros Hok Hu Hal Hk Hused Hun. pose proof Hok as [S1 [es S2] S3 S4 S5 S6]. unfold install_page.
  crun (get_page_ok s pd es upage S2 Hu). destruct (translate s pd upage) as [k'|] eqn:Et.
  - assert (k' <> NULL) as Hn.
    { pose proof (S5 upage k' Hu Et) as (i & Hi & Ek & _). pose proof (page_bound _ i (pws_user _ (mw_pools _ S1)) Hi).
      pose proof (pg_ofs_bound upage). unfold NULL. lia. }
    rewrite (proj2 (Z.eqb_neq k' NULL)) by done. exists false, s. split; [done|]. split; [done|]. left. eauto.
  - cbn [Z.eqb NULL].
    destruct (set_page_ok s pd es upage k w S1 S2 S3 Hu Hal Hk (S4 k (used_managed _ _ Hused)) Et) as (b & s' & E & Hout).
    exists b, s'. split; [exact E|]. destruct b.
    + destruct Hout as [(Hm & Hd & _ & Ht) _]. pose proof (keeping_set_page pd upage k w s true s' (mw_pools _ S1) E) as Hkp.
      split; [done|]. split; [|done]. split; [done..| | | |].
      * by rewrite (kp_dir _ _ Hkp).
      * intros p. rewrite (kp_user _ _ Hkp), (kp_ram _ _ Hkp). apply S4.
      * intros va k' Hv. rewrite Ht, (kp_user _ _ Hkp) by done. case_decide; [|by apply S5]. intros [= <-].
        by replace (k + pg_ofs va - pg_ofs va) with k by lia.
      * intros va va' x Hv Hv'. rewrite !Ht by done. by apply (mapped_once s pd upage k va va' x).
    + destruct Hout as [-> Hfull]. split; [done|]. right. exact (full_exhausted s PAL_ZERO (mw_pools _ S1) Hfull).
Qed.

Lemma same_exhausted m m' k : same_space m m' k -> exhausted false m -> exhausted false m'.
Proof. intros Hs Hx i. cbn. rewrite (ss_kernel _ _ _ Hs). apply Hx. Qed.

(** A frame that was taken from [s] and filled is mapped. *)
Lemma map_frame s s2 pd upage k w : space_ok s pd -> ~ used (frames s) k -> page_ok k -> same_space s s2 k ->
  used_in (user_pool (frames s2)) k -> 0 <= upage < PHYS_BASE -> upage mod 4096 = 0 ->
  exists b s3, install_page pd upage k w s2 = Ok (b, s3) /\
    if b then space_ok s3 pd /\ (exhausted false s -> exhausted false s3) /\ user_byte s pd upage = None /\
      forall va, 0 <= va < PHYS_BASE -> user_byte s3 pd va =
        if decide (same_page upage va) then Some (mem (frames s2) (k + pg_ofs va)) else user_byte s pd va
    else s3 = s2 /\ (is_Some (user_byte s pd upage) \/ exhausted false s).
Proof.
  intros Hok Hfresh Hk Hs Hused Hu Hal. pose proof (fresh_unmapped s pd k Hok Hfresh) as Hun.
  assert (unmapped s2 pd k) as Hun2 by (intros va k' Hv; rewrite (same_translate s s2 k) by done; by apply Hun).
  pose proof (same_space_ok s s2 pd k Hok Hs) as Hok2.
  assert (forall va, 0 <= va < PHYS_BASE -> user_byte s2 pd va = user_byte s pd va) as Hb2.
  { intros va Hv. apply (same_user_byte s s2 pd k); try done; apply Hk. }
  destruct (install_ok s2 pd upage k w Hok2 Hu Hal Hk Hused Hun2) as (b & s3 & E & Hout). exists b, s3. split; [done|]. destruct b.
  - destruct Hout as (Hkp & Hok3 & Hnone & Ht). split; [done|]. split; [intros Hx; by apply (kp_full _ _ Hkp), (same_exhausted s s2 k)|].
    split; [rewrite <- Hb2 by done; unfold user_byte; by rewrite Hnone|]. intros va Hv. unfold user_byte at 1. rewrite Ht by done.
    assert (forall k' o, used_in (user_pool (frames s2)) k' -> 0 <= o < 4096 -> mem (frames s3) (k' + o) = mem (frames s2) (k' + o)) as Hm.
    { intros k' o Hk' Ho. apply (kp_mem _ _ Hkp). exists k'. split; [by apply used_managed|lia]. }
    pose proof (pg_ofs_bound va). case_decide; [cbn; by rewrite Hm|]. rewrite <- Hb2 by done. unfold user_byte.
    destruct (translate s2 pd va) as [k'|] eqn:E'; [|done]. cbn. f_equal.
    replace k' with (k' - pg_ofs va + pg_ofs va) by lia. apply Hm; [by apply (so_mapped s2 pd)|done].
  - destruct Hout as [-> Hwhy]. split; [done|]. rewrite <- Hb2 by done. destruct Hwhy as [[x Hx]|Hx]; [left|right].
    + unfold user_byte. rewrite Hx. by eexists.
    + intros i. cbn. specialize (Hx i). cbn in Hx. by rewrite (ss_kernel _ _ _ Hs) in Hx.
Qed.

(** ** The stack *)

Lemma top_page va : 0 <= va < PHYS_BASE -> same_page (PHYS_BASE - PGSIZE) va <-> PHYS_BASE - PGSIZE <= va.
Proof. unfold same_page, PHYS_BASE, PGSIZE. intros. Z.to_euclidean_division_equations; lia. Qed.

Lemma setup_stack_ok s pd : space_ok s pd ->
  exists r s', setup_stack pd s = Ok (r, s') /\ space_ok s' pd /\
    match r with
    | Some esp => esp = PHYS_BASE /\ user_byte s pd (PHYS_BASE - PGSIZE) = None /\
        forall va, 0 <= va < PHYS_BASE -> user_byte s' pd va = if PHYS_BASE - PGSIZE <=? va then Some 0 else user_byte s pd va
    | None => (forall va, 0 <= va < PHYS_BASE -> user_byte s' pd va = user_byte s pd va) /\
        (is_Some (user_byte s pd (PHYS_BASE - PGSIZE)) \/ exists u, exhausted u s')
    end.
Proof.
  intros Hok. unfold setup_stack.
  destruct (take_frame s pd (Z.lor PAL_USER PAL_ZERO) Hok eq_refl eq_refl) as [[E Hx]|(k & s1 & E & Hn & Hk & Hs & Hf & Hu & Hz)]; crun E.
  { exists None, s. split; [done|]. split; [done|]. split; [done|]. right. by exists true. }
  rewrite (proj2 (Z.eqb_neq k NULL)) by done. cbn [negb].
  destruct (map_frame s s1 pd (PHYS_BASE - PGSIZE) k true Hok Hf Hk Hs Hu) as (b & s2 & E2 & Hout); [done..|]. crun E2. destruct b.
  - destruct Hout as (Hok2 & _ & Hnone & Hb). exists (Some PHYS_BASE), s2. split; [done|]. split; [done|]. split; [done|]. split; [done|].
    intros va Hv. rewrite Hb by done. pose proof (top_page va Hv) as Ht. pose proof (pg_ofs_bound va).
    case_decide as Hd; [rewrite (proj2 (Z.leb_le _ _)) by (by apply Ht)|rewrite (proj2 (Z.leb_gt _ _)) by (apply Z.nle_gt; tauto); done].
    rewrite Hz by (done || lia). done.
  - destruct Hout as [-> Hwhy]. destruct (give_back s s1 k Hs Hf Hu) as (s3 & E3 & Hs3). crun E3. exists None, s3. split; [done|].
    split; [by apply (same_space_ok s s3 pd k)|]. split; [|destruct Hwhy; [by left|right; exists false; by apply (same_exhausted s s3 k)]].
    intros va Hv. apply (same_user_byte s s3 pd k); try done; [by apply fresh_unmapped|apply Hk].
Qed.

(** The address space of a new directory. *)
Module Demo.

Import Pagedir.Demo.

Lemma boot2_space : space_ok boot2 dir /\ forall va, 0 <= va < PHYS_BASE -> user_byte boot2 dir va = None.
Proof.
  destruct boot2_ok as (Hm & Hw & _ & Htr). split.
  - split; [exact Hm|by exists init_entries|by_compute| | |].
    + intros p (i & Hi & ->). assert (base (user_pool (frames boot2)) = 0xc0117000 /\ bit_cnt (used_map (user_pool (frames boot2))) = 21 /\
        init_ram_pages boot2 = 300) as (E1 & E2 & E3) by by_compute.
      rewrite E2 in Hi. rewrite E3. unfold page, PHYS_BASE. rewrite E1. apply Z.div_lt_upper_bound; lia.
    + intros va k Hv Ht. rewrite (Htr va Hv) in Ht. discriminate Ht.
    + intros va va' k Hv _ Ht. rewrite (Htr va Hv) in Ht. discriminate Ht.
  - intros va Hv. unfold user_byte. by rewrite (Htr va Hv).
Qed.

End Demo.
