(* ===== verification/Loader.v ===== *)
(** * Loading an executable (userprog/process.c)

    [load_image] is the part of [load] between the opening of the file and the
    arguments: it reads the ELF header and the program headers, loads every
    segment page by page through the service of FileApi and maps the stack.
    [stale] gives what the stack variables for the two headers hold before they
    are read. *)

From stdpp Require Import gmap.
From S2P Require Import Prelude Vaddr Bitmap PageAlloc Alloc Malloc Palloc.
From S2P Require Import BlockDev Bytes FsInode FsAlloc FsSpec Filesys FsTheorems.
From S2P Require Import FileApi.
From S2P Require Import Pagedir Uspace.
Local Open Scope Z_scope.

(** ** ELF headers *)

Record Elf32_Ehdr := Ehdr {
  e_ident : list Z; e_type : Z; e_machine : Z; e_version : Z; e_entry : Z; e_phoff : Z; e_shoff : Z; e_flags : Z;
  e_ehsize : Z; e_phentsize : Z; e_phnum : Z; e_shentsize : Z; e_shnum : Z; e_shstrndx : Z
}.

Record Elf32_Phdr := Phdr {
  p_type : Z; p_offset : Z; p_vaddr : Z; p_paddr : Z; p_filesz : Z; p_memsz : Z; p_flags : Z; p_align : Z
}.

Definition sizeof_Ehdr : Z := 52.
Definition sizeof_Phdr : Z := 32.

Definition half (o : Z) (b : list Z) : Z := of_le (slice o 2 b).
Definition word (o : Z) (b : list Z) : Z := of_le (slice o 4 b).

Definition ehdr_of (b : list Z) : Elf32_Ehdr :=
  Ehdr (slice 0 16 b) (half 16 b) (half 18 b) (word 20 b) (word 24 b) (word 28 b) (word 32 b) (word 36 b)
    (half 40 b) (half 42 b) (half 44 b) (half 46 b) (half 48 b) (half 50 b).
Definition phdr_of (b : list Z) : Elf32_Phdr :=
  Phdr (word 0 b) (word 4 b) (word 8 b) (word 12 b) (word 16 b) (word 20 b) (word 24 b) (word 28 b).

Definition PT_LOAD : Z := 1.
Definition PT_DYNAMIC : Z := 2.
Definition PT_INTERP : Z := 3.
Definition PT_SHLIB : Z := 5.
Definition PF_W : Z := 2.

(** The string the header starts with. *)
Definition ELF_magic : list Z := [0x7f; 0x45; 0x4c; 0x46; 1; 1; 1].

Definition ehdr_valid (h : Elf32_Ehdr) : bool :=
  bool_decide (slice 0 7 (e_ident h) = ELF_magic) && (e_type h =? 2) && (e_machine h =? 3) && (e_version h =? 1) &&
  (e_phentsize h =? sizeof_Phdr) && (e_phnum h <=? 1024).

Definition validate_phdr (p : Elf32_Phdr) (length : Z) : bool :=
  (Z.land (p_offset p) PGMASK =? Z.land (p_vaddr p) PGMASK) &&
  (p_offset p <=? u32 length) &&
  (p_filesz p <=? p_memsz p) &&
  negb (p_memsz p =? 0) &&
  is_user_vaddr (p_vaddr p) &&
  is_user_vaddr (u32 (p_vaddr p + p_memsz p)) &&
  (p_vaddr p <=? u32 (p_vaddr p + p_memsz p)) &&
  (PGSIZE <=? p_vaddr p).

Definition ROUND_UP (x step : Z) : Z := u32 (DIV_ROUND_UP x step * step).

Definition NOT_PGMASK : Z := 2 ^ 32 - 1 - PGMASK.

(** ** What an executable means *)

Definition loads (p : Elf32_Phdr) : bool := p_type p =? PT_LOAD.

(** The pages of a segment, and the part of the file that they hold. *)
Definition seg_start (p : Elf32_Phdr) : Z := p_vaddr p / 4096 * 4096.
Definition seg_pages (p : Elf32_Phdr) : Z := (p_vaddr p mod 4096 + p_memsz p + 4095) / 4096.
Definition seg_pos (p : Elf32_Phdr) : Z := p_offset p / 4096 * 4096.
Definition seg_read (p : Elf32_Phdr) : Z := if 0 <? p_filesz p then p_vaddr p mod 4096 + p_filesz p else 0.

Definition in_seg (p : Elf32_Phdr) (va : Z) : bool :=
  loads p && (seg_start p <=? va) && (va <? seg_start p + 4096 * seg_pages p).

(** The byte at offset [o] of a segment that has [rd] bytes of the file from [pos] on. *)
Definition image (c : list Z) (pos rd o : Z) : Z := if o <? rd then default 0 (c !! Z.to_nat (pos + o)) else 0.

(** The byte of the loaded segments at [va]. *)
Fixpoint exe_byte (c : list Z) (ps : list Elf32_Phdr) (va : Z) : option Z :=
  match ps with
  | [] => None
  | p :: ps => if in_seg p va then Some (image c (seg_pos p) (seg_read p) (va - seg_start p)) else exe_byte c ps va
  end.

Definition overlap (p q : Elf32_Phdr) : bool :=
  loads p && loads q &&
  (Z.max (seg_start p) (seg_start q) <? Z.min (seg_start p + 4096 * seg_pages p) (seg_start q + 4096 * seg_pages q)).

(** The segment can be loaded beside those of [before]. *)
Definition segment_ok (c : list Z) (p : Elf32_Phdr) (before : list Elf32_Phdr) : bool :=
  negb ((p_type p =? PT_DYNAMIC) || (p_type p =? PT_INTERP) || (p_type p =? PT_SHLIB)) &&
  (negb (loads p) ||
   validate_phdr p (zlen c) && ((seg_read p =? 0) || (seg_pos p + seg_read p <=? zlen c)) && forallb (fun q => negb (overlap p q)) before).

Definition phdr_at (c : list Z) (ofs : Z) : Elf32_Phdr := phdr_of (slice ofs sizeof_Phdr c).

(** [n] program headers from [ofs] on. *)
Fixpoint headers (c : list Z) (n : nat) (ofs : Z) : list Elf32_Phdr :=
  match n with
  | O => []
  | S n => phdr_at c ofs :: headers c n (ofs + sizeof_Phdr)
  end.

Fixpoint headers_ok (c : list Z) (n : nat) (ofs : Z) (before : list Elf32_Phdr) : bool :=
  match n with
  | O => true
  | S n =>
      (0 <=? ofs) && (ofs + sizeof_Phdr <=? zlen c) && segment_ok c (phdr_at c ofs) before &&
      headers_ok c n (ofs + sizeof_Phdr) (before ++ [phdr_at c ofs])
  end.

Definition exe_header (c : list Z) : Elf32_Ehdr := ehdr_of (slice 0 sizeof_Ehdr c).
Definition exe_segments (c : list Z) : list Elf32_Phdr :=
  headers c (Z.to_nat (e_phnum (exe_header c))) (i32 (e_phoff (exe_header c))).

(** The file is an executable that the loader accepts, if there is memory. *)
Definition well_formed (c : list Z) : bool :=
  (sizeof_Ehdr <=? zlen c) && ehdr_valid (exe_header c) &&
  headers_ok c (Z.to_nat (e_phnum (exe_header c))) (i32 (e_phoff (exe_header c))) [] &&
  forallb (fun p => negb (in_seg p (PHYS_BASE - PGSIZE))) (exe_segments c).

Section Code.
Context {F : Type} `{FS : FileService F}.
Context (stale : Z -> list Z).

(** The memory, the file system, and the page directory of the current thread. *)
Record proc := Proc { vm : mmu; svc : F; pagedir : Z }.

Definition vms {A : Type} (m : Z -> M mmu A) : M proc A :=
  fun s => r <-! m (pagedir s) (vm s);; Ok (r.1, Proc r.2 (svc s) (pagedir s)).
Definition serve (c : call) : M proc answer :=
  fun s => r <-! sv_call c (svc s);; Ok (r.1, Proc (vm s) r.2 (pagedir s)).

Definition file_seek (file pos : Z) : M proc unit := serve (Seek file pos);;; ret tt.
Definition file_length (file : Z) : M proc Z :=
  r <- serve (Length file);; match r with Count n => ret n | _ => fault end.
Definition file_read (file : Z) (buffer : list Z) (size : Z) : M proc (Z * list Z) :=
  r <- serve (Read file buffer size);; match r with Bytes n b => ret (n, b) | _ => fault end.

(** One page: the body of the loop of [load_segment]. *)
Definition load_page (file upage page_read_bytes : Z) (writable : bool) : M proc bool :=
  let page_zero_bytes := PGSIZE - page_read_bytes in
  knpage <- vms (fun _ => paging (palloc_get_page PAL_USER));;
  if knpage =? NULL then ret false
  else
    old <- vms (fun _ => peek knpage page_read_bytes);;
    r <- file_read file old page_read_bytes;;
    vms (fun _ => poke knpage r.2);;;
    if negb (r.1 =? i32 page_read_bytes) then
      vms (fun _ => paging (palloc_free_page knpage));;; ret false
    else
      vms (fun _ => poke (knpage + page_read_bytes) (replicate (Z.to_nat page_zero_bytes) 0));;;
      ok <- vms (fun pd => install_page pd upage knpage writable);;
      if negb ok then vms (fun _ => paging (palloc_free_page knpage));;; ret false
      else ret true.

Fixpoint load_pages (n : nat) (file upage read_bytes zero_bytes : Z) (writable : bool) : M proc bool :=
  if (0 <? read_bytes) || (0 <? zero_bytes) then
    match n with
    | O => nofuel
    | S n =>
        let page_read_bytes := if read_bytes <? PGSIZE then read_bytes else PGSIZE in
        let page_zero_bytes := PGSIZE - page_read_bytes in
        ok <- load_page file upage page_read_bytes writable;;
        if negb ok then ret false
        else
          load_pages n file (u32 (upage + PGSIZE)) (u32 (read_bytes - page_read_bytes))
            (u32 (zero_bytes - page_zero_bytes)) writable
    end
  else ret true.

Definition load_segment (file ofs upage read_bytes zero_bytes : Z) (writable : bool) : M proc bool :=
  assert (u32 (read_bytes + zero_bytes) mod PGSIZE =? 0);;;
  assert (pg_ofs upage =? 0);;;
  assert (Z.rem ofs PGSIZE =? 0);;;
  file_seek file ofs;;;
  load_pages (Z.to_nat (read_bytes / PGSIZE + zero_bytes / PGSIZE + 2)) file upage read_bytes zero_bytes writable.

Definition validate_segment (phdr : Elf32_Phdr) (file : Z) : M proc bool :=
  n <- file_length file;; ret (validate_phdr phdr n).

(** The case [PT_LOAD] of the loop over the program headers. *)
Definition load_one (phdr : Elf32_Phdr) (file : Z) : M proc bool :=
  ok <- validate_segment phdr file;;
  if negb ok then ret false
  else
    let writable := negb (Z.land (p_flags phdr) PF_W =? 0) in
    let file_page := Z.land (p_offset phdr) NOT_PGMASK in
    let mem_page := Z.land (p_vaddr phdr) NOT_PGMASK in
    let page_offset := Z.land (p_vaddr phdr) PGMASK in
    if 0 <? p_filesz phdr then
      let read_bytes := u32 (page_offset + p_filesz phdr) in
      let zero_bytes := u32 (ROUND_UP (u32 (page_offset + p_memsz phdr)) PGSIZE - read_bytes) in
      load_segment file (i32 file_page) mem_page read_bytes zero_bytes writable
    else
      let zero_bytes := ROUND_UP (u32 (page_offset + p_memsz phdr)) PGSIZE in
      load_segment file (i32 file_page) mem_page 0 zero_bytes writable.

(** The switch on the type of a program header; whether the load goes on. *)
Definition load_header (phdr : Elf32_Phdr) (file : Z) : M proc bool :=
  if (p_type phdr =? PT_DYNAMIC) || (p_type phdr =? PT_INTERP) || (p_type phdr =? PT_SHLIB) then ret false
  else if p_type phdr =? PT_LOAD then load_one phdr file
  else ret true.

(** [n] program headers are left, the first at [file_ofset]. *)
Fixpoint load_headers (n : nat) (file file_ofset : Z) : M proc bool :=
  match n with
  | O => ret true
  | S n =>
      if file_ofset <? 0 then ret false
      else
        len <- file_length file;;
        if len <? file_ofset then ret false
        else
          file_seek file file_ofset;;;
          r <- file_read file (stale sizeof_Phdr) sizeof_Phdr;;
          if negb (r.1 =? sizeof_Phdr) then ret false
          else
            let phdr := phdr_of r.2 in
            let file_ofset := i32 (file_ofset + sizeof_Phdr) in
            ok <- load_header phdr file;;
            if negb ok then ret false else load_headers n file file_ofset
  end.

(** [eip] and [esp] of the new program. *)
Definition load_image (file : Z) : M proc (option (Z * Z)) :=
  r <- file_read file (stale sizeof_Ehdr) sizeof_Ehdr;;
  let ehdr := ehdr_of r.2 in
  if negb (r.1 =? sizeof_Ehdr) || negb (ehdr_valid ehdr) then ret None
  else
    ok <- load_headers (Z.to_nat (e_phnum ehdr)) file (i32 (e_phoff ehdr));;
    if negb ok then ret None
    else
      esp <- vms setup_stack;;
      match esp with
      | Some esp => ret (Some (e_entry ehdr, esp))
      | None => ret None
      end.

End Code.

(** ** One page *)

Section Proofs.
Context {F : Type} `{FS : FileService F}.
Notation proc := (@proc F).
Implicit Types s : proc.

Definition seen s (va : Z) : option Z := user_byte (vm s) (pagedir s) va.

(** The file [file] is open with contents [c] and position [pos]. *)
Definition reading s (file : Z) (v : view) (c : list Z) (pos : Z) : Prop :=
  sv_repr (svc s) v /\ exists h nd, handles v !! file = Some h /\ nodes v !! hfile h = Some nd /\ contents nd = c /\ hpos h = pos.

Definition moved (file pos : Z) (v : view) : view :=
  match handles v !! file with
  | Some h => with_handle file (Handle (hfile h) pos (hdeny h)) v
  | None => v
  end.

Lemma vms_ok {A : Type} (m : Z -> M mmu A) s a x : m (pagedir s) (vm s) = Ok (a, x) ->
  vms m s = Ok (a, Proc x (svc s) (pagedir s)).
Proof. intros E. unfold vms. by rewrite E. Qed.

Lemma reading_bound s file v c pos : reading s file v c pos -> 0 <= pos < 2 ^ 31 /\ zlen c < 2 ^ 31 - 511.
Proof.
  intros (Hr & h & nd & Hf & Hn & <- & <-). destruct (sv_handle _ v file h Hr Hf) as (_ & Hp & nd' & Hn' & Hl).
  split; [done|]. congruence.
Qed.

Lemma read_ok s file v c pos buffer size : reading s file v c pos -> buffer_ok buffer size ->
  exists k x, file_read file buffer size s = Ok ((k, overlay 0 (slice pos k c) buffer), Proc (vm s) x (pagedir s)) /\
    0 <= k <= want (zlen c) size pos /\ (k = want (zlen c) size pos \/ sv_short x = true) /\
    reading (Proc (vm s) x (pagedir s)) file (moved file (pos + k) v) c (pos + k).
Proof.
  intros (Hr & h & nd & Hf & Hn & <- & <-) Hb.
  destruct (sv_read _ v file h nd buffer size Hr Hf Hn Hb) as (k & x & E & Hk & Ho & Hr'). exists k, x.
  unfold file_read, serve, bind. rewrite E. cbn [res_bind fst snd]. split; [done|]. split; [done|]. split; [done|].
  unfold moved. rewrite Hf. split; [done|]. exists (Handle (hfile h) (hpos h + k) (hdeny h)), nd. cbn.
  by rewrite lookup_insert_eq.
Qed.

Lemma seek_ok s file v c pos new : reading s file v c pos -> 0 <= new < 2 ^ 31 ->
  exists x, file_seek file new s = Ok (tt, Proc (vm s) x (pagedir s)) /\
    reading (Proc (vm s) x (pagedir s)) file (moved file new v) c new.
Proof.
  intros (Hr & h & nd & Hf & Hn & <- & <-) Hb.
  destruct (sv_seek _ v file h new Hr Hf Hb) as (x & E & _ & Hr'). exists x.
  unfold file_seek, serve, bind. rewrite E. cbn [res_bind fst snd]. split; [done|].
  unfold moved. rewrite Hf. split; [done|]. exists (Handle (hfile h) new (hdeny h)), nd. cbn. by rewrite lookup_insert_eq.
Qed.

Lemma length_ok s file v c pos : reading s file v c pos -> file_length file s = Ok (zlen c, s).
Proof.
  intros (Hr & h & nd & Hf & Hn & <- & <-). unfold file_length, serve, bind. rewrite (sv_length _ v file h nd Hr Hf Hn). by destruct s.
Qed.

Lemma moved_moved file a b v : moved file b (moved file a v) = moved file b v.
Proof.
  unfold moved. destruct (handles v !! file) as [h|] eqn:E; [|by rewrite E]. cbn. rewrite lookup_insert_eq. cbn.
  unfold with_handle. cbn. by rewrite insert_insert_eq.
Qed.

(** A pool is empty, or the file system had no memory to read. *)
Definition starved s : Prop := (exists u, exhausted u (vm s)) \/ sv_short (svc s) = true.

(** Why a load ends without success: the file ends before [until], or there is no memory. *)
Definition refusal (c : list Z) (until : Z) s : Prop := zlen c < until \/ starved s.

(** The two stores that fill a frame. *)
Lemma filled_byte k rd xs m o : 0 <= rd -> length xs = Z.to_nat rd -> 0 <= o < 4096 ->
  store_bytes (k + rd) (replicate (Z.to_nat (PGSIZE - rd)) 0) (store_bytes k xs m) (k + o) =
  if o <? rd then default 0 (xs !! Z.to_nat o) else 0.
Proof.
  intros Hr Hl Ho. destruct (Z.ltb_spec o rd) as [Hlt|Hge].
  - rewrite store_bytes_out by lia. destruct (lookup_lt_is_Some_2 xs (Z.to_nat o)) as [b Hb]; [lia|]. rewrite Hb.
    apply store_bytes_in; [lia|]. by replace (k + o - k) with o by lia.
  - apply store_bytes_in; [lia|]. apply lookup_replicate_2. unfold PGSIZE. lia.
Qed.

Lemma slice_lookup pos k c o : 0 <= pos -> 0 <= o < k -> slice pos k c !! Z.to_nat o = c !! Z.to_nat (pos + o).
Proof. intros. unfold slice. rewrite lookup_take_lt, lookup_drop by lia. f_equal. lia. Qed.

Lemma overlay_full xs bs : length xs = length bs -> overlay 0 xs bs = xs.
Proof. intros E. unfold overlay. cbn [Z.to_nat take app]. rewrite E, Nat.add_0_l, drop_all. apply app_nil_r. Qed.

Lemma length_read pos k c (old : list Z) rd : length old = Z.to_nat rd -> 0 <= k <= want (zlen c) rd pos -> 0 <= pos ->
  length (overlay 0 (slice pos k c) old) = Z.to_nat rd.
Proof.
  intros Hl Hk Hp. unfold want, zlen in Hk. rewrite length_overlay; [done|lia|].
  unfold slice. rewrite length_take, length_drop. lia.
Qed.

Lemma moved_same s file v c pos : reading s file v c pos -> moved file pos v = v.
Proof.
  intros (_ & h & nd & Hf & _ & _ & <-). unfold moved. rewrite Hf. destruct h. cbn. unfold with_handle. rewrite insert_id by done. by destruct v.
Qed.

(** A frame taken from [s] is given back: what the process sees is as before. *)
Lemma free_frame s s2 k : space_ok (vm s) (pagedir s) -> same_space (vm s) (vm s2) k -> page_ok k -> ~ used (frames (vm s)) k ->
  used_in (user_pool (frames (vm s2))) k -> pagedir s2 = pagedir s ->
  exists s3, (vms (fun _ => paging (palloc_free_page k));;; ret false) s2 = Ok (false, s3) /\ pagedir s3 = pagedir s /\
    svc s3 = svc s2 /\ space_ok (vm s3) (pagedir s) /\ same_space (vm s) (vm s3) k /\
    forall va, 0 <= va < PHYS_BASE -> seen s3 va = seen s va.
Proof.
  intros Hok Hs Hk Hf Hu Epd. destruct (give_back _ _ k Hs Hf Hu) as (m3 & E & Hs3).
  crun (vms_ok (fun _ => paging (palloc_free_page k)) s2 tt m3 E). eexists. split; [done|]. split; [done|]. split; [done|].
  split; [by apply (same_space_ok _ _ _ k Hok)|]. split; [done|]. intros va Hv. unfold seen. cbn. rewrite Epd.
  apply (same_user_byte _ _ _ k); try done; [by apply fresh_unmapped|apply Hk].
Qed.

Lemma load_page_ok s file v c pos upage rd w : space_ok (vm s) (pagedir s) -> reading s file v c pos ->
  0 <= rd <= PGSIZE -> 0 <= upage < PHYS_BASE -> upage mod 4096 = 0 ->
  exists b s' k, load_page file upage rd w s = Ok (b, s') /\ pagedir s' = pagedir s /\ space_ok (vm s') (pagedir s') /\
    reading s' file (moved file (pos + k) v) c (pos + k) /\
    if b : bool then k = rd /\ (rd = 0 \/ pos + rd <= zlen c) /\ seen s upage = None /\
      forall va, 0 <= va < PHYS_BASE -> seen s' va =
        if decide (same_page upage va) then Some (image c pos rd (pg_ofs va)) else seen s va
    else (forall va, 0 <= va < PHYS_BASE -> seen s' va = seen s va) /\
      (is_Some (seen s upage) \/ refusal c (pos + rd) s').
Proof.
  intros Hok Hrd Hrng Hu Hal. destruct (reading_bound _ _ _ _ _ Hrd) as [Hpos _]. unfold load_page. cbv zeta.
  destruct (take_frame (vm s) (pagedir s) PAL_USER Hok eq_refl eq_refl) as [[E Hx]|(k & m1 & E & Hn & Hk & Hs1 & Hf & Hus & _)].
  { crun (vms_ok (fun _ => paging (palloc_get_page PAL_USER)) s _ _ E). cbn [Z.eqb NULL]. eexists false, _, 0.
    split; [done|]. cbn [pagedir vm]. split; [done|]. split; [done|]. rewrite Z.add_0_r, (moved_same s file v c pos Hrd). split; [exact Hrd|].
    split; [done|]. right. right. left. by exists true. }
  crun (vms_ok (fun _ => paging (palloc_get_page PAL_USER)) s _ _ E). rewrite (proj2 (Z.eqb_neq k NULL)) by done.
  set (s1 := Proc m1 (svc s) (pagedir s)). set (old := bytes_at k rd (mem (frames m1))).
  assert (length old = Z.to_nat rd) as Hold by apply length_bytes_at.
  crun (vms_ok (fun _ => peek k rd) s1 old m1 eq_refl). fold s1. unfold PGSIZE in Hrng.
  destruct (read_ok s1 file v c pos old rd Hrd) as (n & x & E2 & Hn2 & Hout & Hrd2); [unfold buffer_ok, zlen; lia|]. crun E2. cbn [fst snd].
  assert (length (overlay 0 (slice pos n c) old) = Z.to_nat rd) as Hlen by (by apply length_read; [..|lia]).
  destruct (poke_space m1 k k (overlay 0 (slice pos n c) old)) as (m2 & E3 & Hs2 & Ef2); [apply Hs1|lia|lia|].
  crun (vms_ok (fun _ => poke k (overlay 0 (slice pos n c) old)) (Proc m1 x (pagedir s)) tt m2 E3). cbn [svc pagedir].
  pose proof (same_space_trans _ _ _ k Hs1 Hs2) as Hs12.
  rewrite i32_id by lia. destruct (Z.eqb_spec n rd) as [->|Hne]; cbn [negb].
  2: { destruct (free_frame s (Proc m2 x (pagedir s)) k Hok Hs12 Hk Hf) as (s3 & E4 & Epd & Esv & Hok3 & _ & Hsee); [cbn [vm]; by rewrite Ef2|done|].
    rewrite E4. exists false, s3, n. split; [done|]. rewrite Epd. split; [done|]. split; [done|].
    split; [unfold reading in *; by rewrite Esv|]. split; [done|]. right. destruct Hout as [Ew|Hsh]; [left|right; right; by rewrite Esv].
    unfold want in Ew. lia. }
  destruct (poke_space m2 k (k + rd) (replicate (Z.to_nat (PGSIZE - rd)) 0)) as (m3 & E4 & Hs3 & Ef3);
    [apply Hs2|lia|rewrite length_replicate; unfold PGSIZE; lia|].
  crun (vms_ok (fun _ => poke (k + rd) (replicate (Z.to_nat (PGSIZE - rd)) 0)) (Proc m2 x (pagedir s)) tt m3 E4).
  pose proof (same_space_trans _ _ _ k Hs12 Hs3) as Hs13. cbn [svc pagedir].
  assert (used_in (user_pool (frames m3)) k) as Hus3 by by rewrite Ef3, Ef2.
  destruct (map_frame (vm s) m3 (pagedir s) upage k w Hok Hf Hk Hs13 Hus3 Hu Hal) as (b & m4 & E5 & Hmap).
  crun (vms_ok (fun pd => install_page pd upage k w) (Proc m3 x (pagedir s)) b m4 E5). cbn [svc pagedir]. destruct b; cbn [negb].
  - destruct Hmap as (Hok4 & _ & Hnone & Hb). eexists true, _, rd. split; [done|]. split; [done|]. split; [done|]. split; [exact Hrd2|].
    split; [done|]. split; [unfold want in Hn2; lia|]. split; [done|]. intros va Hv. unfold seen. cbn [vm pagedir]. rewrite Hb by done.
    case_decide; [|done]. f_equal. rewrite Ef3, Ef2. cbn [mem set_mem]. pose proof (pg_ofs_bound va).
    rewrite (filled_byte k rd (overlay 0 (slice pos rd c) old)) by (done || lia). unfold image.
    destruct (Z.ltb_spec (pg_ofs va) rd); [|done]. rewrite overlay_full, slice_lookup; [done|lia|lia|].
    rewrite Hold. unfold slice. rewrite length_take, length_drop. unfold want, zlen in Hn2. lia.
  - destruct Hmap as [-> Hwhy]. destruct (free_frame s (Proc m3 x (pagedir s)) k Hok Hs13 Hk Hf Hus3 eq_refl) as (s3 & E6 & Epd & Esv & Hok3 & Hss & Hsee).
    rewrite E6. exists false, s3, rd. split; [done|]. rewrite Epd. split; [done|]. split; [done|].
    split; [unfold reading in *; by rewrite Esv|]. split; [done|]. destruct Hwhy as [?|Hx]; [by left|right; right; left].
    exists false. by apply (same_exhausted (vm s) (vm s3) k).
Qed.

(** ** Segments *)

(** The outcome of loading [rd] bytes of the file from [pos] on and zeros, [total] bytes in all, at [upage]. *)
Definition loaded (c : list Z) (pos rd total upage : Z) s (b : bool) s' : Prop :=
  (forall va, 0 <= va < PHYS_BASE -> ~ upage <= va < upage + total -> seen s' va = seen s va) /\
  if b then (rd = 0 \/ pos + rd <= zlen c) /\
    forall o, 0 <= o < total -> seen s (upage + o) = None /\ seen s' (upage + o) = Some (image c pos rd o)
  else (exists o, 0 <= o < total /\ is_Some (seen s (upage + o))) \/ refusal c (pos + rd) s'.

(** The rest of a segment after its first page. *)
Lemma loaded_next c pos rd cnt upage s s1 s2 b : 0 <= rd -> upage mod 4096 = 0 -> 0 < cnt -> 0 <= upage ->
  upage + 4096 * cnt <= PHYS_BASE -> let pr := Z.min rd 4096 in
  (pr = 0 \/ pos + pr <= zlen c) ->
  (forall va, 0 <= va < PHYS_BASE -> seen s1 va =
    if decide (same_page upage va) then Some (image c pos pr (pg_ofs va)) else seen s va) ->
  (forall va, 0 <= va < PHYS_BASE -> same_page upage va -> seen s va = None) ->
  loaded c (pos + pr) (rd - pr) (4096 * (cnt - 1)) (upage + 4096) s1 b s2 ->
  loaded c pos rd (4096 * cnt) upage s b s2.
Proof.
  intros Hrd Hal Hcnt Hup Hend pr Hpr Hfirst Hempty [Hout Hb]. subst pr. split.
  - intros va Hv Hno. rewrite Hout, Hfirst by lia. rewrite decide_False; [done|]. rewrite page_span by done. lia.
  - destruct b.
    + destruct Hb as [Hlen Hb]. split; [lia|]. intros o Ho. destruct (decide (o < 4096)) as [Hlt|Hge].
      * assert (same_page upage (upage + o)) as Hsp by (apply page_span; [done|lia]). split; [apply Hempty; [lia|done]|].
        rewrite Hout, Hfirst by lia. rewrite decide_True by done. f_equal.
        rewrite pg_ofs_mod by lia. replace ((upage + o) mod 4096) with o by (Z.to_euclidean_division_equations; lia).
        unfold image. by replace (o <? Z.min rd 4096) with (o <? rd) by (destruct (Z.ltb_spec o rd), (Z.ltb_spec o (Z.min rd 4096)); lia).
      * destruct (Hb (o - 4096)) as [Hn Hs]; [lia|]. replace (upage + 4096 + (o - 4096)) with (upage + o) in * by lia. split.
        -- rewrite Hfirst in Hn by lia. rewrite decide_False in Hn; [done|]. rewrite page_span by done. lia.
        -- rewrite Hs. f_equal. unfold image. replace (o - 4096 <? rd - Z.min rd 4096) with (o <? rd) by (destruct (Z.ltb_spec o rd), (Z.ltb_spec (o - 4096) (rd - Z.min rd 4096)); lia).
           destruct (Z.ltb_spec o rd); [|done]. do 3 f_equal. lia.
    + destruct Hb as [(o & Ho & Hs)|Hr]; [left|right].
      * exists (o + 4096). split; [lia|]. replace (upage + 4096 + o) with (upage + (o + 4096)) in Hs by lia.
        rewrite Hfirst in Hs by lia. rewrite decide_False in Hs; [done|]. rewrite page_span by done. lia.
      * by replace (pos + Z.min rd 4096 + (rd - Z.min rd 4096)) with (pos + rd) in Hr by lia.
Qed.

Lemma loaded_nothing c pos upage s : loaded c pos 0 (4096 * 0) upage s true s.
Proof. split; [done|]. split; [by left|]. intros o Ho. lia. Qed.

Lemma seen_page s va va' : 0 <= va < PHYS_BASE -> 0 <= va' < PHYS_BASE -> same_page va va' -> seen s va = None -> seen s va' = None.
Proof.
  intros Hv Hv' Hs. unfold seen, user_byte, translate. rewrite (walk_same _ _ va va') by done.
  destruct (walk (vm s) (pagedir s) va) as [[pt e]|]; [|done]. cbn. by destruct (present e).
Qed.

Lemma load_pages_ok n w : forall s file v c pos upage rd zr cnt, space_ok (vm s) (pagedir s) -> reading s file v c pos ->
  0 <= rd -> 0 <= zr -> rd + zr = 4096 * cnt -> cnt <= Z.of_nat n -> 0 <= upage -> upage mod 4096 = 0 -> upage + 4096 * cnt <= PHYS_BASE ->
  exists b s' pos', load_pages n file upage rd zr w s = Ok (b, s') /\ pagedir s' = pagedir s /\ space_ok (vm s') (pagedir s') /\
    reading s' file (moved file pos' v) c pos' /\ loaded c pos rd (4096 * cnt) upage s b s'.
Proof.
  induction n as [|n IH]; intros s file v c pos upage rd zr cnt Hok Hrd Hr Hz Hsum Hn Hup Hal Hend;
    (destruct (decide (cnt = 0)) as [->|Hcnt];
      [assert (rd = 0 /\ zr = 0) as [-> ->] by lia; exists true, s, pos; rewrite (moved_same s file v c pos Hrd);
       split; [done|]; by repeat (split; [done|]); apply loaded_nothing|]); [lia|]. cbn [load_pages].
  replace ((0 <? rd) || (0 <? zr)) with true by (destruct (Z.ltb_spec 0 rd), (Z.ltb_spec 0 zr); cbn; lia || done).
  assert ((if rd <? PGSIZE then rd else PGSIZE) = Z.min rd 4096) as -> by (unfold PGSIZE; destruct (Z.ltb_spec rd 4096); lia).
  assert (PHYS_BASE < 2 ^ 32) as Hpb by done. unfold PGSIZE.
  destruct (load_page_ok s file v c pos upage (Z.min rd 4096) w Hok Hrd) as (b & s1 & k & E & Epd & Hok1 & Hrd1 & Hb); [unfold PGSIZE; lia|lia|done|].
  crun E. destruct b; cbn [negb].
  - destruct Hb as (-> & Hlen & Hnone & Hsee). rewrite !u32_id by lia.
    destruct (IH s1 file (moved file (pos + Z.min rd 4096) v) c (pos + Z.min rd 4096) (upage + 4096) (rd - Z.min rd 4096) (zr - (4096 - Z.min rd 4096)) (cnt - 1))
      as (b & s2 & pos' & E2 & Epd2 & Hok2 & Hrd2 & Hl); try done; [lia..| |lia|].
    { Z.to_euclidean_division_equations; lia. }
    exists b, s2, pos'. rewrite moved_moved in Hrd2. split; [done|]. split; [congruence|]. split; [done|]. split; [done|].
    apply (loaded_next c pos rd cnt upage s s1 s2 b); try done; [lia|]. intros va Hv Hsp. by apply (seen_page s upage va); [lia|..].
  - destruct Hb as [Hsee Hwhy]. exists false, s1, (pos + k). split; [done|]. split; [done|]. split; [done|]. split; [done|].
    split; [intros; by apply Hsee|]. destruct Hwhy as [?|[?|?]]; [left|right; left; lia|by right; right].
    exists 0. rewrite Z.add_0_r. split; [lia|done].
Qed.

Lemma load_segment_ok s file v c pos ofs upage rd zr cnt w : space_ok (vm s) (pagedir s) -> reading s file v c pos ->
  0 <= rd -> 0 <= zr -> rd + zr = 4096 * cnt -> 0 <= upage -> upage mod 4096 = 0 -> upage + 4096 * cnt <= PHYS_BASE ->
  0 <= ofs < 2 ^ 31 -> ofs mod 4096 = 0 ->
  exists b s' pos', load_segment file ofs upage rd zr w s = Ok (b, s') /\ pagedir s' = pagedir s /\ space_ok (vm s') (pagedir s') /\
    reading s' file (moved file pos' v) c pos' /\ loaded c ofs rd (4096 * cnt) upage s b s'.
Proof.
  intros Hok Hrd Hr Hz Hsum Hup Hal Hend Hofs Hofs'. assert (PHYS_BASE < 2 ^ 32) as Hpb by done. unfold load_segment, PGSIZE.
  cassert ltac:(rewrite u32_id, Hsum, Z.mul_comm, Z.mod_mul by lia; done).
  cassert ltac:(rewrite pg_ofs_mod, Hal by lia; done).
  cassert ltac:(rewrite Z.rem_mod_nonneg, Hofs' by lia; done).
  destruct (seek_ok s file v c pos ofs Hrd Hofs) as (x & E & Hrd1). crun E. set (s1 := Proc (vm s) x (pagedir s)) in *.
  destruct (load_pages_ok (Z.to_nat (rd / 4096 + zr / 4096 + 2)) w s1 file (moved file ofs v) c ofs upage rd zr cnt)
    as (b & s' & pos' & E1 & Epd & Hok' & Hrd' & Hl); try done.
  { Z.to_euclidean_division_equations; lia. }
  exists b, s', pos'. rewrite moved_moved in Hrd'. done.
Qed.

(** ** One program header *)

Record phdr_wf (p : Elf32_Phdr) : Prop := PhdrWf {
  pf_offset : 0 <= p_offset p < 2 ^ 32;
  pf_vaddr : 0 <= p_vaddr p < 2 ^ 32;
  pf_filesz : 0 <= p_filesz p < 2 ^ 32;
  pf_memsz : 0 <= p_memsz p < 2 ^ 32
}.

Record segment_bounds (p : Elf32_Phdr) (len : Z) : Prop := SegmentBounds {
  sb_offset : p_offset p mod 4096 = p_vaddr p mod 4096;
  sb_len : p_offset p <= len;
  sb_sizes : p_filesz p <= p_memsz p;
  sb_memsz : 0 < p_memsz p;
  sb_end : p_vaddr p + p_memsz p < PHYS_BASE;
  sb_start : 4096 <= p_vaddr p
}.

Lemma pgmask_mod x : 0 <= x -> Z.land x PGMASK = x mod 4096.
Proof. apply pg_ofs_mod. Qed.

Lemma validate_phdr_spec p len : phdr_wf p -> 0 <= len < 2 ^ 31 -> validate_phdr p len = true -> segment_bounds p len.
Proof.
  intros [H1 H2 H3 H4] Hl. unfold validate_phdr, is_user_vaddr, PGSIZE. rewrite !pgmask_mod, (u32_id len) by lia.
  rewrite !andb_true_iff, negb_true_iff, !Z.leb_le, !Z.ltb_lt, Z.eqb_eq, Z.eqb_neq. intros (((((((A & B) & C) & D) & E) & G) & I) & J).
  assert (p_vaddr p + p_memsz p < 2 ^ 32) as Hs.
  { destruct (decide (p_vaddr p + p_memsz p < 2 ^ 32)); [done|]. exfalso.
    assert (u32 (p_vaddr p + p_memsz p) = p_vaddr p + p_memsz p - 2 ^ 32) as Ew; [|lia].
    unfold u32, uwrap. symmetry. apply (Z.mod_unique _ _ 1); lia. }
  rewrite u32_id in * by lia. split; lia.
Qed.

Lemma seg_pages_bound p len : phdr_wf p -> segment_bounds p len ->
  0 <= seg_start p /\ seg_start p mod 4096 = 0 /\ seg_start p + 4096 * seg_pages p <= PHYS_BASE /\
  0 < seg_pages p /\ 0 <= seg_read p <= 4096 * seg_pages p /\ 0 <= seg_pos p <= len /\ seg_pos p mod 4096 = 0.
Proof.
  intros [H1 H2 H3 H4] [A B C D E G]. unfold seg_start, seg_pages, seg_read, seg_pos. unfold PHYS_BASE in *.
  destruct (0 <? p_filesz p); Z.to_euclidean_division_equations; lia.
Qed.

(** The arguments that [load] computes for [load_segment]. *)
Lemma segment_arguments p len : phdr_wf p -> segment_bounds p len ->
  Z.land (p_offset p) NOT_PGMASK = seg_pos p /\ Z.land (p_vaddr p) NOT_PGMASK = seg_start p /\
  Z.land (p_vaddr p) PGMASK = p_vaddr p mod 4096 /\ ROUND_UP (u32 (p_vaddr p mod 4096 + p_memsz p)) PGSIZE = 4096 * seg_pages p.
Proof.
  intros Hp Hs. pose proof (seg_pages_bound p len Hp Hs) as (B1 & B2 & B3 & B4 & _). destruct Hp as [H1 H2 H3 H4], Hs as [A B C D E G].
  unfold PHYS_BASE in *. change NOT_PGMASK with (2 ^ 32 - 1 - PGMASK). rewrite !land_not_pgmask, pgmask_mod by lia.
  split; [unfold seg_pos; Z.to_euclidean_division_equations; lia|]. split; [unfold seg_start; Z.to_euclidean_division_equations; lia|]. split; [done|].
  pose proof (Z.mod_pos_bound (p_vaddr p) 4096 ltac:(lia)). assert (p_vaddr p mod 4096 <= p_vaddr p) by (apply Z.mod_le; lia).
  unfold ROUND_UP, DIV_ROUND_UP, PGSIZE. rewrite (u32_id (_ + p_memsz p)) by lia. rewrite (u32_id (_ - 1)) by lia.
  replace (p_vaddr p mod 4096 + p_memsz p + 4096 - 1) with (p_vaddr p mod 4096 + p_memsz p + 4095) by lia.
  fold (seg_pages p). rewrite u32_id; lia.
Qed.

(** The segment was validated and loaded, or why not. *)
Lemma load_one_ok s file v c pos p : space_ok (vm s) (pagedir s) -> reading s file v c pos -> phdr_wf p ->
  exists b s' pos', load_one p file s = Ok (b, s') /\ pagedir s' = pagedir s /\ space_ok (vm s') (pagedir s') /\
    reading s' file (moved file pos' v) c pos' /\
    if validate_phdr p (zlen c) then segment_bounds p (zlen c) /\ loaded c (seg_pos p) (seg_read p) (4096 * seg_pages p) (seg_start p) s b s'
    else b = false.
Proof.
  intros Hok Hrd Hp. destruct (reading_bound _ _ _ _ _ Hrd) as [Hpos Hlen]. unfold load_one, validate_segment.
  rewrite bind_assoc. crun (length_ok s file v c pos Hrd). rewrite bind_ret. destruct (validate_phdr p (zlen c)) eqn:Ev; cbn [negb].
  2: { exists false, s, pos. by rewrite (moved_same s file v c pos Hrd). }
  pose proof (zlen_nonneg c) as Hz. pose proof (validate_phdr_spec p (zlen c) Hp ltac:(lia) Ev) as Hb.
  destruct (segment_arguments p (zlen c) Hp Hb) as (-> & -> & -> & ->). pose proof (seg_pages_bound p (zlen c) Hp Hb) as (B1 & B2 & B3 & B4 & B5 & B6 & B7).
  assert (PHYS_BASE < 2 ^ 32) as Hpb by done. rewrite i32_id by lia.
  assert (0 <= p_filesz p) as Hf by apply Hp. pose proof (sb_end _ _ Hb). pose proof (sb_sizes _ _ Hb). pose proof (sb_start _ _ Hb).
  pose proof (Z.mod_le (p_vaddr p) 4096 ltac:(lia) ltac:(lia)).
  pose proof (Z.mod_pos_bound (p_vaddr p) 4096 ltac:(lia)).
  assert (forall rd zr, rd = seg_read p -> zr = 4096 * seg_pages p - seg_read p -> exists b s' pos',
    load_segment file (seg_pos p) (seg_start p) rd zr (negb (Z.land (p_flags p) PF_W =? 0)) s = Ok (b, s') /\ pagedir s' = pagedir s /\
    space_ok (vm s') (pagedir s') /\ reading s' file (moved file pos' v) c pos' /\ segment_bounds p (zlen c) /\
    loaded c (seg_pos p) (seg_read p) (4096 * seg_pages p) (seg_start p) s b s') as Hload.
  { intros rd zr -> ->. destruct (load_segment_ok s file v c pos (seg_pos p) (seg_start p) (seg_read p) (4096 * seg_pages p - seg_read p) (seg_pages p)
      (negb (Z.land (p_flags p) PF_W =? 0)) Hok Hrd) as (b & s' & pos' & E & E1 & E2 & E3 & E4); try done; try lia. by exists b, s', pos'. }
  assert (seg_read p = if 0 <? p_filesz p then p_vaddr p mod 4096 + p_filesz p else 0) as Er by done.
  cbv zeta. destruct (Z.ltb_spec 0 (p_filesz p)); apply Hload; try rewrite (u32_id (p_vaddr p mod 4096 + p_filesz p)) by lia; rewrite ?u32_id by lia; lia.
Qed.

(** ** The program headers *)

Lemma phdr_at_wf c ofs : Forall byte c -> phdr_wf (phdr_at c ofs).
Proof. intros Hc. pose proof (slice_bytes ofs sizeof_Phdr c Hc). split; by apply of_le_slice. Qed.

Lemma exe_byte_app c ps qs va :
  exe_byte c (ps ++ qs) va = match exe_byte c ps va with Some b => Some b | None => exe_byte c qs va end.
Proof. induction ps as [|p ps IH]; [done|]. cbn. by destruct (in_seg p va). Qed.

Lemma exe_byte_Some c ps va : is_Some (exe_byte c ps va) <-> exists q, q ∈ ps /\ in_seg q va = true.
Proof.
  induction ps as [|p ps IH]; cbn [exe_byte].
  - split; [by intros [? ?]|]. by intros (q & Hq%not_elem_of_nil & _).
  - destruct (in_seg p va) eqn:E.
    + split; [|by eexists]. intros _. exists p. split; [left|done].
    + rewrite IH. split; intros (q & Hq & Hs); exists q; (split; [|done]); [by right|].
      apply elem_of_cons in Hq as [->|Hq]; [congruence|done].
Qed.

Lemma in_seg_spec p va : in_seg p va = true <-> loads p = true /\ seg_start p <= va < seg_start p + 4096 * seg_pages p.
Proof. unfold in_seg. rewrite !andb_true_iff, Z.leb_le, Z.ltb_lt. tauto. Qed.

Lemma overlap_spec p q : overlap p q = true <-> loads p = true /\
  exists o, 0 <= o < 4096 * seg_pages p /\ in_seg q (seg_start p + o) = true.
Proof.
  unfold overlap. rewrite !andb_true_iff, !Z.ltb_lt. split.
  - intros ((A & B) & C). split; [done|]. exists (Z.max (seg_start p) (seg_start q) - seg_start p). rewrite in_seg_spec. split_and!; try done; lia.
  - intros (A & o & Ho & (B & C)%in_seg_spec). split_and!; try done; lia.
Qed.

(** No segment of [before] has a byte in the pages of [p]. *)
Lemma no_overlap c p before : loads p = true -> forallb (fun q => negb (overlap p q)) before = true <->
  forall o, 0 <= o < 4096 * seg_pages p -> exe_byte c before (seg_start p + o) = None.
Proof.
  intros Hp. rewrite forallb_forall. split.
  - intros Hall o Ho. apply eq_None_not_Some. intros (q & Hq & Hin)%exe_byte_Some. apply list_elem_of_In, Hall, negb_true_iff in Hq.
    rewrite (proj2 (overlap_spec p q)) in Hq; [done|]. eauto.
  - intros Hall q Hq%list_elem_of_In. apply negb_true_iff, not_true_iff_false. intros (_ & o & Ho & Hin)%overlap_spec.
    assert (is_Some (exe_byte c before (seg_start p + o))) as [b Hb] by (apply exe_byte_Some; eauto). by rewrite Hall in Hb.
Qed.

(** A loaded segment adds its bytes to those of [before]. *)
Lemma loaded_next_segment c p before s s' : loads p = true -> (forall va, 0 <= va < PHYS_BASE -> seen s va = exe_byte c before va) ->
  0 <= seg_start p -> seg_start p + 4096 * seg_pages p <= PHYS_BASE ->
  loaded c (seg_pos p) (seg_read p) (4096 * seg_pages p) (seg_start p) s true s' ->
  forallb (fun q => negb (overlap p q)) before = true /\
  forall va, 0 <= va < PHYS_BASE -> seen s' va = exe_byte c (before ++ [p]) va.
Proof.
  intros Hp Hs Hst Hend [Hout [_ Hin]]. split.
  - apply (no_overlap c p before Hp). intros o Ho. rewrite <- Hs by lia. by apply Hin.
  - intros va Hv. rewrite exe_byte_app. cbn [exe_byte]. destruct (in_seg p va) eqn:E.
    + apply in_seg_spec in E as [_ E]. destruct (Hin (va - seg_start p)) as [H1 H2]; [lia|].
      replace (seg_start p + (va - seg_start p)) with va in * by lia. rewrite <- Hs, H1 by done. done.
    + rewrite Hout, Hs by (try done; intros ?; assert (in_seg p va = true) by (by apply in_seg_spec); congruence).
      by destruct (exe_byte c before va).
Qed.

(** One program header: the process sees the segments of [before] and then that of [p] as well. *)
Lemma load_header_ok s file v c pos p before : space_ok (vm s) (pagedir s) -> reading s file v c pos -> phdr_wf p ->
  (forall va, 0 <= va < PHYS_BASE -> seen s va = exe_byte c before va) ->
  exists b s' pos', load_header p file s = Ok (b, s') /\ pagedir s' = pagedir s /\ space_ok (vm s') (pagedir s') /\
    reading s' file (moved file pos' v) c pos' /\
    if b : bool then segment_ok c p before = true /\
      forall va, 0 <= va < PHYS_BASE -> seen s' va = exe_byte c (before ++ [p]) va
    else segment_ok c p before = false \/ starved s'.
Proof.
  intros Hok Hrd Hp Hs. unfold load_header, segment_ok. destruct (_ || (p_type p =? PT_SHLIB)) eqn:Ebad; cbn [negb andb].
  { exists false, s, pos. rewrite (moved_same s file v c pos Hrd). split_and!; try done. by left. }
  fold (loads p). destruct (loads p) eqn:El; cbn [negb orb].
  2: { exists true, s, pos. rewrite (moved_same s file v c pos Hrd). split_and!; try done. intros va Hv. rewrite Hs, exe_byte_app by done.
    cbn [exe_byte]. unfold in_seg. rewrite El. cbn [andb]. by destruct (exe_byte c before va). }
  destruct (load_one_ok s file v c pos p Hok Hrd Hp) as (b & s' & pos' & E & Epd & Hok' & Hrd' & Hb). exists b, s', pos'.
  split; [done|]. split; [done|]. split; [done|]. split; [done|]. destruct (validate_phdr p (zlen c)) eqn:Ev; cbn [andb]; [|subst b; by left].
  destruct Hb as [Hbd Hl]. pose proof (seg_pages_bound p (zlen c) Hp Hbd) as (B1 & B2 & B3 & _). destruct b.
  - destruct (loaded_next_segment c p before s s' El Hs B1 B3 Hl) as [-> Hsee]. split; [|done]. rewrite andb_true_r.
    apply orb_true_iff. rewrite Z.eqb_eq, Z.leb_le. apply Hl.
  - destruct Hl as [_ [(o & Ho & Hmap)|[Hshort|?]]]; [left|left|by right]; apply andb_false_iff; [right|left].
    + apply not_true_iff_false. rewrite (no_overlap c p before El). intros Hno. rewrite Hs, Hno in Hmap by lia. by destruct Hmap.
    + apply orb_false_iff. rewrite Z.eqb_neq, Z.leb_gt. pose proof (seg_pages_bound p (zlen c) Hp Hbd) as (_ & _ & _ & _ & _ & B6 & _). lia.
Qed.

Section Headers.
Context (stale : Z -> list Z) (stale_length : forall n, 0 <= n -> length (stale n) = Z.to_nat n).

(** A header of [n] bytes is read whole, or the file is too short, or there was no memory. *)
Lemma read_header s file v c pos n : reading s file v c pos -> 0 <= n < 4096 ->
  exists k b x, file_read file (stale n) n s = Ok ((k, b), Proc (vm s) x (pagedir s)) /\
    reading (Proc (vm s) x (pagedir s)) file (moved file (pos + k) v) c (pos + k) /\
    if k =? n then b = slice pos n c /\ (n = 0 \/ pos + n <= zlen c) else zlen c < pos + n \/ sv_short x = true.
Proof.
  intros Hrd Hn. destruct (reading_bound _ _ _ _ _ Hrd) as [Hpos _]. pose proof (stale_length n ltac:(lia)) as Hl.
  destruct (read_ok s file v c pos (stale n) n Hrd) as (k & x & E & Hk & Hout & Hrd'); [unfold buffer_ok, zlen; lia|].
  exists k, (overlay 0 (slice pos k c) (stale n)), x. split; [done|]. split; [done|]. unfold want in *. destruct (Z.eqb_spec k n) as [->|Hne].
  - split; [|lia]. apply overlay_full. rewrite Hl. unfold slice. rewrite length_take, length_drop. unfold zlen in Hk. lia.
  - destruct Hout as [Ew|?]; [left; lia|by right].
Qed.

Lemma load_headers_ok file c n : Forall byte c -> forall s v pos ofs before, space_ok (vm s) (pagedir s) -> reading s file v c pos ->
  ofs < 2 ^ 31 -> (forall va, 0 <= va < PHYS_BASE -> seen s va = exe_byte c before va) ->
  exists b s' pos', load_headers stale n file ofs s = Ok (b, s') /\ pagedir s' = pagedir s /\ space_ok (vm s') (pagedir s') /\
    reading s' file (moved file pos' v) c pos' /\
    if b : bool then headers_ok c n ofs before = true /\
      forall va, 0 <= va < PHYS_BASE -> seen s' va = exe_byte c (before ++ headers c n ofs) va
    else headers_ok c n ofs before = false \/ starved s'.
Proof.
  intros Hc. induction n as [|n IH]; intros s v pos ofs before Hok Hrd Hofs Hs; cbn [load_headers headers headers_ok].
  { exists true, s, pos. rewrite (moved_same s file v c pos Hrd), app_nil_r. done. }
  destruct (reading_bound _ _ _ _ _ Hrd) as [Hpos Hlen].
  destruct (Z.ltb_spec ofs 0) as [Hneg|Hge].
  { exists false, s, pos. rewrite (moved_same s file v c pos Hrd), (proj2 (Z.leb_gt 0 ofs)) by lia. split_and!; try done. by left. }
  crun (length_ok s file v c pos Hrd). rewrite (proj2 (Z.leb_le 0 ofs)) by lia. cbn [andb]. destruct (Z.ltb_spec (zlen c) ofs) as [Hpast|Hin].
  { exists false, s, pos. rewrite (moved_same s file v c pos Hrd), (proj2 (Z.leb_gt _ (zlen c))) by (unfold sizeof_Phdr; lia). split_and!; try done. by left. }
  destruct (seek_ok s file v c pos ofs Hrd ltac:(lia)) as (x & E & Hrd1). crun E.
  destruct (read_header _ file (moved file ofs v) c ofs sizeof_Phdr Hrd1) as (k & b & y & E2 & Hrd2 & Hb); [done|]. crun E2. cbn [fst snd vm pagedir svc].
  rewrite moved_moved in Hrd2. destruct (k =? sizeof_Phdr) eqn:Ek; cbn [negb].
  2: { eexists false, _, _. split; [done|]. split; [done|]. split; [done|]. split; [exact Hrd2|]. destruct Hb as [Hb|Hb]; [left|by right; right].
    by rewrite (proj2 (Z.leb_gt _ (zlen c))) by lia. }
  destruct Hb as [-> Hb]. rewrite (proj2 (Z.leb_le _ (zlen c))) by (unfold sizeof_Phdr in *; lia). fold (phdr_at c ofs). cbn [andb].
  destruct (load_header_ok (Proc (vm s) y (pagedir s)) file _ c _ (phdr_at c ofs) before Hok Hrd2 (phdr_at_wf c ofs Hc) Hs) as (b & s3 & pos3 & E3 & Epd3 & Hok3 & Hrd3 & Hout).
  crun E3. rewrite moved_moved in Hrd3. destruct b; cbn [negb].
  - destruct Hout as [-> Hs3]. cbn [andb]. unfold sizeof_Phdr in *. rewrite i32_id by lia.
    destruct (IH s3 _ _ (ofs + 32) (before ++ [phdr_at c ofs]) Hok3 Hrd3 ltac:(lia) Hs3) as (b & s4 & pos4 & E4 & Epd4 & Hok4 & Hrd4 & Hout4).
    exists b, s4, pos4. rewrite moved_moved in Hrd4. rewrite <- app_assoc in Hout4. split; [done|]. split; [by rewrite Epd4, Epd3|done].
  - exists false, s3, pos3. split; [done|]. split; [done|]. split; [done|]. split; [done|]. destruct Hout as [->|?]; [by left|by right].
Qed.

Lemma top_free c ps : exe_byte c ps (PHYS_BASE - PGSIZE) = None <-> forallb (fun p => negb (in_seg p (PHYS_BASE - PGSIZE))) ps = true.
Proof.
  rewrite forallb_forall, eq_None_not_Some, exe_byte_Some. split.
  - intros Hno q Hq%list_elem_of_In. apply negb_true_iff, not_true_iff_false. intros Hin. apply Hno. by exists q.
  - intros Hall (q & Hq%list_elem_of_In & Hin). apply Hall, negb_true_iff in Hq. congruence.
Qed.

(** C3: whatever bytes the file holds, loading it into an empty address space
    never panics.  It succeeds exactly for a well-formed executable, unless
    memory runs out; the entry point is that of the header, and the process then
    sees the bytes of the segments at their addresses, zeros where a segment is
    longer than its part of the file, a stack page of zeros at the top, and
    nothing else. *)
Theorem load_image_correct s file v c :
  space_ok (vm s) (pagedir s) -> reading s file v c 0 -> Forall byte c ->
  (forall va, 0 <= va < PHYS_BASE -> seen s va = None) ->
  exists r s', load_image stale file s = Ok (r, s') /\ pagedir s' = pagedir s /\ space_ok (vm s') (pagedir s') /\
    (exists pos, reading s' file (moved file pos v) c pos) /\
    match r with
    | Some (eip, esp) => well_formed c = true /\ eip = e_entry (exe_header c) /\ esp = PHYS_BASE /\
        forall va, 0 <= va < PHYS_BASE -> seen s' va =
          if PHYS_BASE - PGSIZE <=? va then Some 0 else exe_byte c (exe_segments c) va
    | None => well_formed c = false \/ starved s'
    end.
Proof.
  intros Hok Hrd Hc Hempty. unfold load_image, well_formed.
  destruct (read_header s file v c 0 sizeof_Ehdr Hrd ltac:(done)) as (k & b & x & E & Hrd1 & Hb). crun E. cbn [fst snd].
  destruct (k =? sizeof_Ehdr) eqn:Ek; cbn [negb orb].
  2: { eexists None, _. split; [done|]. split; [done|]. split; [done|]. split; [by eexists|]. destruct Hb as [Hb|?]; [left|by right; right].
    by rewrite (proj2 (Z.leb_gt _ (zlen c))) by lia. }
  destruct Hb as [-> Hb]. fold (exe_header c). rewrite (proj2 (Z.leb_le _ (zlen c))) by (unfold sizeof_Ehdr in *; lia). cbn [andb].
  destruct (ehdr_valid (exe_header c)); cbn [negb orb andb].
  2: { eexists None, _. split; [done|]. split; [done|]. split; [done|]. split; [by eexists|by left]. }
  destruct (load_headers_ok file c (Z.to_nat (e_phnum (exe_header c))) Hc (Proc (vm s) x (pagedir s)) _ _ (i32 (e_phoff (exe_header c))) [] Hok Hrd1)
    as (b & s2 & pos2 & E2 & Epd2 & Hok2 & Hrd2 & Hb2); [apply i32_bound|done|]. rewrite moved_moved in Hrd2. crun E2. destruct b; cbn [negb].
  2: { exists None, s2. split; [done|]. split; [done|]. split; [done|]. split; [by eexists|]. destruct Hb2 as [->|?]; [by left|by right]. }
  destruct Hb2 as [-> Hs2]. cbn [andb app] in *. fold (exe_segments c) in Hs2.
  destruct (setup_stack_ok (vm s2) (pagedir s2) Hok2) as (r & m3 & E3 & Hok3 & Hr). crun (vms_ok setup_stack s2 r m3 E3).
  assert (user_byte (vm s2) (pagedir s2) (PHYS_BASE - PGSIZE) = exe_byte c (exe_segments c) (PHYS_BASE - PGSIZE)) as Htop by by apply Hs2.
  destruct r as [esp|].
  - destruct Hr as (-> & Hnone & Hsee). eexists (Some _), _. split; [done|]. split; [done|]. split; [done|]. split; [by eexists|].
    split; [apply (top_free c); congruence|]. split; [done|]. split; [done|]. intros va Hv. unfold seen. cbn [vm pagedir]. rewrite Hsee by done.
    by destruct (_ <=? va); [|apply Hs2].
  - destruct Hr as [_ Hwhy]. eexists None, _. split; [done|]. split; [done|]. split; [done|]. split; [by eexists|].
    destruct Hwhy as [Hm|Hx]; [left|right; by left]. apply not_true_iff_false. rewrite <- (top_free c). intros Hn. rewrite Htop, Hn in Hm. by destruct Hm.
Qed.

End Headers.

End Proofs.

(** ** A program on a disk *)

Module Demo.

Import FsTheorems.Demo.
#[local] Existing Instance disk_device.

#[local] Instance files0 : FileService fs := filesys_service uninit uninit_bytes.

(** A call with a known answer, as a step. *)
Definition answer_of (r : res (answer * fs)) : option answer := match r with Ok (a, _) => Some a | _ => None end.

Lemma exec_step c r s v : represented s v -> allowed v c -> answer_of (exec uninit c s) = Some r ->
  memory_left (exec uninit c s) = true ->
  exists s' v', exec uninit c s = Ok (r, s') /\ FsTheorems.Demo.state_of (exec uninit c s) = s' /\ step v c r v' /\ represented s' v'.
Proof.
  intros Hr Ha Hans Hm. destruct (service_refines uninit uninit_bytes s v c Hr Ha) as (r' & s' & E & Ho).
  rewrite E in Hans. injection Hans as ->. exists s'. destruct Ho as [Ho|(v' & Hst & Hr')].
  - destruct (memory_left_ok _ _ _ Hm E Ho).
  - exists v'. split; [exact E|]. rewrite E. split; [reflexivity|]. split; [exact Hst|exact Hr'].
Qed.

Lemma open_step v nm f v' : step v (Open nm) (Opened f) v' -> f <> NULL ->
  exists sec, names v !! nm = Some sec /\ v' = with_handle f (Handle sec 0 false) v.
Proof. intros Hst Hf. inversion Hst; subst; [eauto|done]. Qed.

Lemma write_step v f buffer size k v' : step v (Write f buffer size) (Count k) v' ->
  exists h n, handles v !! f = Some h /\ nodes v !! hfile h = Some n /\
    v' = with_handle f (Handle (hfile h) (hpos h + k) (hdeny h)) (with_contents (hfile h) (written (hpos h) (slice 0 k buffer) n) v).
Proof. intros Hst. inversion Hst; subst; eauto. Qed.

(** An executable with one segment of 100 bytes of the file and 100 zeros. *)
Definition program : list Z :=
  [0x7f; 0x45; 0x4c; 0x46; 1; 1; 1; 0; 0; 0; 0; 0; 0; 0; 0; 0] ++ le16 2 ++ le16 3 ++ le32 1 ++ le32 0x8048054 ++ le32 52 ++
  le32 0 ++ le32 0 ++ le16 52 ++ le16 32 ++ le16 1 ++ le16 0 ++ le16 0 ++ le16 0 ++
  le32 1 ++ le32 0 ++ le32 0x8048000 ++ le32 0x8048000 ++ le32 100 ++ le32 200 ++ le32 5 ++ le32 4096 ++
  [1; 2; 3; 4; 5; 6; 7; 8; 9; 10; 11; 12; 13; 14; 15; 16].

Definition handle0 : Z := match exec uninit (Open ab) created0 with Ok (Opened f, _) => f | _ => NULL end.
Lemma handle0_not_null : handle0 <> NULL.
Proof. apply Z.eqb_neq. vm_compute. reflexivity. Qed.

Definition opened0 : fs := FsTheorems.Demo.state_of (exec uninit (Open ab) created0).
Definition filled0 : fs := FsTheorems.Demo.state_of (exec uninit (Write handle0 program 100) opened0).
Definition ready0 : fs := FsTheorems.Demo.state_of (exec uninit (Seek handle0 0) filled0).

Definition exe : list Z := overlay 0 program (replicate 600 0).

Definition stale0 (n : Z) : list Z := replicate (Z.to_nat n) 0xcc.
Definition process0 : @proc fs := Proc Pagedir.Demo.boot2 ready0 Pagedir.Demo.dir.

Lemma opened_view : exists v sec st, represented opened0 v /\ handles v = {[handle0 := Handle sec 0 false]} /\
  nodes v = {[sec := new_node st 600]}.
Proof.
  destruct created_view as (N & n0 & n1 & sec & st & _ & Hr).
  destruct (exec_step (Open ab) (Opened handle0) created0 _ (ex_intro _ N Hr)) as (s' & v' & _ & Es & Hst & Hr').
  - change (Forall (fun c => 0 < c < 256) ab). by_compute.
  - vm_compute. reflexivity.
  - by_compute.
  - destruct (open_step _ _ _ _ Hst) as (sec' & Hn & ->); [exact handle0_not_null|]. unfold opened0. rewrite Es. clear Es Hr Hst.
    cbn in Hn. rewrite lookup_insert_eq in Hn. injection Hn as <-. eexists _, sec, st. split; [exact Hr'|]. split; reflexivity.
Qed.

Lemma filled_view : exists v sec st, represented filled0 v /\ handles v = {[handle0 := Handle sec 100 false]} /\
  nodes v = {[sec := Node st exe]}.
Proof.
  destruct opened_view as (v & sec & st & Hr & Hh & Hn).
  destruct (exec_step (Write handle0 program 100) (Count 100) opened0 v Hr) as (s' & v' & _ & Es & Hst & Hr').
  - cbn [allowed]. rewrite Hh, lookup_singleton_eq. split; [eexists; reflexivity|]. by_compute.
  - vm_compute. reflexivity.
  - by_compute.
  - destruct (write_step _ _ _ _ _ _ Hst) as (h & n & Hf & Hnd & ->). unfold filled0. rewrite Es. clear Es Hr Hst.
    rewrite Hh, lookup_singleton_eq in Hf. injection Hf as <-. cbn [hfile] in Hnd. rewrite Hn, lookup_singleton_eq in Hnd. injection Hnd as <-.
    eexists _, sec, st. split; [exact Hr'|]. clear Hr'. cbn [with_handle with_contents handles nodes hfile hpos hdeny].
    rewrite Hh, Hn, !insert_singleton_eq. split; reflexivity.
Qed.

Lemma ready_view : exists v sec st, represented ready0 v /\ handles v = {[handle0 := Handle sec 0 false]} /\ nodes v = {[sec := Node st exe]}.
Proof.
  destruct filled_view as (v & sec & st & Hr & Hh & Hn). assert (handles v !! handle0 = Some (Handle sec 100 false)) as Hf by (rewrite Hh; apply lookup_singleton_eq).
  destruct Hr as [N Hr].
  destruct (seek_exact uninit uninit_bytes filled0 N v handle0 _ 0 Hr Hf) as (s' & E & _ & Hr'); [lia|]. unfold ready0. rewrite (state_of_ok _ _ _ E). clear E Hr.
  eexists _, sec, st. split; [exists N; exact Hr'|]. cbn [with_handle handles nodes hfile hdeny]. rewrite Hh, insert_singleton_eq. split; [reflexivity|exact Hn].
Qed.

Lemma ready_reading : exists v, reading process0 handle0 v exe 0.
Proof.
  destruct ready_view as (v & sec & st & Hr & Hh & Hn). exists v. split; [exact Hr|]. exists (Handle sec 0 false), (Node st exe).
  rewrite Hh, Hn. cbn [hfile hpos]. rewrite !lookup_singleton_eq. split; [reflexivity|]. split; [reflexivity|]. split; reflexivity.
Qed.

Definition loads_program (r : res (option (Z * Z) * @proc fs)) : bool := match r with Ok (Some _, _) => true | _ => false end.

Lemma load_image_correct_witness : exists s', load_image stale0 handle0 process0 = Ok (Some (0x8048054, PHYS_BASE), s') /\
  seen s' 0x8048055 = Some 2 /\ seen s' 0x80480c7 = Some 0 /\ seen s' 0xbfffffff = Some 0 /\ seen s' 0x8049000 = None.
Proof.
  destruct Uspace.Demo.boot2_space as [Hok Hempty]. destruct ready_reading as [v Hrd].
  destruct (load_image_correct stale0 (fun n _ => length_replicate (Z.to_nat n) 0xcc) process0 handle0 v exe Hok Hrd) as (r & s' & E & _ & _ & _ & Hr).
  - by_compute.
  - exact Hempty.
  - assert (loads_program (load_image stale0 handle0 process0) = true) as Hl by (vm_compute; reflexivity). rewrite E in Hl.
    destruct r as [[eip esp]|]; [|discriminate Hl]. destruct Hr as (_ & -> & -> & Hsee). exists s'. split; [exact E|].
    rewrite !Hsee by by_compute. split; [vm_compute; reflexivity|]. split; [vm_compute; reflexivity|]. split; vm_compute; reflexivity.
Defined.

End Demo.
