(* ===== verification/Exception.v ===== *)
(** * Page faults (userprog/exception.c)

    The handler of page faults: it grows the stack, takes a frame, or kills the
    process.  The process leaves the handler by resuming the instruction that
    faulted or by [thread_exit]; the messages it prints are left out. *)

From stdpp Require Import gmap.
From S2P Require Import Prelude Vaddr Bitmap PageAlloc Palloc Pagedir Uspace.
Local Open Scope Z_scope.

(** ** The code *)

Definition PF_P : Z := 1.
Definition PF_W : Z := 2.
Definition PF_U : Z := 4.
Definition PAGE_SIZE : Z := 4096.
Definition SEL_KCSEG : Z := 0x08.
Definition SEL_UCSEG : Z := 0x1b.

Record intr_frame := Frame { esp : Z; cs : Z; error_code : Z }.

(** The memory and page directory of the current thread, its exit status, and the two variables of the file. *)
Record cpu := Cpu { cvm : mmu; cpd : Z; exit_status : Z; stack_page : Z; page_fault_cnt : Z }.

Inductive outcome := Resumes | Exits.

Definition mem_op {A : Type} (m : Z -> M mmu A) : M cpu A :=
  fun s => r <-! m (cpd s) (cvm s);; Ok (r.1, Cpu r.2 (cpd s) (exit_status s) (stack_page s) (page_fault_cnt s)).

(** The value of an [int] expression; overflow is undefined. *)
Definition int (z : Z) : res Z := if bool_decide (- 2 ^ 31 <= z < 2 ^ 31) then Ok z else Fault.

Definition kill (f : intr_frame) : M cpu outcome :=
  if cs f =? SEL_UCSEG then ret Exits
  else if cs f =? SEL_KCSEG then panic
  else ret Exits.

Definition stack_growable (f : intr_frame) : M cpu bool :=
  s <- get;;
  ret ((esp f <=? u32 (PHYS_BASE - stack_page s * PAGE_SIZE)) && (u32 (PHYS_BASE - 8 * 1024 * 1024) <=? esp f)).

(** The loop of [stack_allocate]: [n] iterations are left. *)
Fixpoint stack_loop (n : nat) : M cpu unit :=
  match n with
  | O => ret tt
  | S n =>
      kpage <- mem_op (fun _ => paging (palloc_get_page (Z.lor PAL_USER PAL_ZERO)));;
      (if negb (kpage =? NULL) then
         s <- get;;
         success <- mem_op (fun pd => install_page pd (u32 (u32 (PHYS_BASE - stack_page s * PAGE_SIZE) - PAGE_SIZE)) kpage true);;
         if success : bool then modify (fun s => Cpu (cvm s) (cpd s) (exit_status s) (i32 (stack_page s + 1)) (page_fault_cnt s))
         else mem_op (fun _ => paging (palloc_free_page kpage))
       else ret tt);;;
      stack_loop n
  end.

(** [page_allocs]. *)
Definition stack_allocs (sp e : Z) : res Z :=
  let page_allocs := i32 (u32 (PHYS_BASE - sp * PAGE_SIZE)) in
  let page_allocs := i32 (u32 (page_allocs - e)) in
  a <-! int (page_allocs + PAGE_SIZE);;
  Ok (Z.rem (a - 1) PAGE_SIZE).

Definition stack_allocate (f : intr_frame) : M cpu unit :=
  s <- get;;
  page_allocs <- lift (stack_allocs (stack_page s) (esp f));;
  stack_loop (Z.to_nat (u32 page_allocs)).

Definition handle_mm_fault : M cpu unit :=
  empty_frame <- mem_op (fun _ => paging (palloc_get_page PAL_USER));;
  if empty_frame =? NULL then mem_op (fun _ => paging (palloc_get_page PAL_USER));;; ret tt else ret tt.

Definition page_fault (f : intr_frame) : M cpu outcome :=
  modify (fun s => Cpu (cvm s) (cpd s) (exit_status s) (stack_page s) (i64 (page_fault_cnt s + 1)));;;
  let not_present := Z.land (error_code f) PF_P =? 0 in
  let write := negb (Z.land (error_code f) PF_W =? 0) in
  let user := negb (Z.land (error_code f) PF_U =? 0) in
  if not_present && (write && user) then
    b <- stack_growable f;;
    (if b : bool then stack_allocate f else handle_mm_fault);;;
    ret Resumes
  else
    modify (fun s => Cpu (cvm s) (cpd s) (u32 (-1)) (stack_page s) (page_fault_cnt s));;;
    kill f.

(** ** Growing the stack *)

Definition sees (s : cpu) (va : Z) : option Z := user_byte (cvm s) (cpd s) va.
Definition space (s : cpu) : Prop := space_ok (cvm s) (cpd s).

(** The lowest address of the stack. *)
Definition stack_base (s : cpu) : Z := PHYS_BASE - stack_page s * PAGE_SIZE.

(** [s'] is [s] with [m] more pages of zeros below the stack. *)
Record grown (m : Z) (s s' : cpu) : Prop := Grown {
  gr_space : space s';
  gr_pd : cpd s' = cpd s;
  gr_status : exit_status s' = exit_status s;
  gr_cnt : page_fault_cnt s' = page_fault_cnt s;
  gr_pages : stack_page s' = stack_page s + m;
  gr_sees va : 0 <= va < PHYS_BASE -> sees s' va =
    if bool_decide (stack_base s - PAGE_SIZE * m <= va < stack_base s) then Some 0 else sees s va
}.

Lemma mem_op_ok {A : Type} (m : Z -> M mmu A) s a x : m (cpd s) (cvm s) = Ok (a, x) ->
  mem_op m s = Ok (a, Cpu x (cpd s) (exit_status s) (stack_page s) (page_fault_cnt s)).
Proof. intros E. unfold mem_op. by rewrite E. Qed.

Lemma grown_refl s : space s -> grown 0 s s.
Proof. intros Hs. split; try done; [lia|]. intros va Hv. rewrite bool_decide_false by lia. done. Qed.

Lemma grown_trans m n s1 s2 s3 : 0 <= m -> 0 <= n -> grown m s1 s2 -> grown n s2 s3 -> grown (m + n) s1 s3.
Proof.
  intros Hm Hn [A1 A2 A3 A4 A5 A6] [B1 B2 B3 B4 B5 B6]. split; [done|congruence..|lia|]. intros va Hv. rewrite B6, A6 by done.
  unfold stack_base, PAGE_SIZE in *. rewrite A5. repeat case_bool_decide; try done; lia.
Qed.

(** Why a page is missing: a pool is empty, or the page is mapped already. *)
Definition cause (n : Z) (s s' : cpu) : Prop :=
  (exists u, exhausted u (cvm s')) \/
  exists va, 0 <= va < PHYS_BASE /\ stack_base s - PAGE_SIZE * n <= va < stack_base s /\ is_Some (sees s va).

(** One iteration. *)
Lemma stack_once_ok n s : space s -> 1 <= stack_page s < 786432 ->
  exists (b : bool) s1, stack_loop (S n) s = stack_loop n s1 /\ grown (if b then 1 else 0) s s1 /\
    (forall u, exhausted u (cvm s) -> exhausted u (cvm s1)) /\
    (b = false -> cause 1 s s1).
Proof.
  intros Hs Hp. cbn [stack_loop]. assert (PHYS_BASE = 3221225472) as Hpb by done.
  assert (u32 (u32 (PHYS_BASE - stack_page s * PAGE_SIZE) - PAGE_SIZE) = stack_base s - PAGE_SIZE) as Ea.
  { unfold stack_base, PAGE_SIZE. rewrite (u32_id (PHYS_BASE - _)), u32_id by lia. done. }
  set (up := stack_base s - PAGE_SIZE) in *. assert (0 <= up < PHYS_BASE /\ up mod 4096 = 0) as [Hup Hal].
  { unfold up, stack_base, PAGE_SIZE. rewrite Hpb. split; [lia|]. Z.to_euclidean_division_equations; lia. }
  destruct (take_frame (cvm s) (cpd s) (Z.lor PAL_USER PAL_ZERO) Hs eq_refl eq_refl) as [[E Hx]|(k & m1 & E & Hn & Hk & Hs1 & Hf & Hu & Hz)].
  { crun (mem_op_ok (fun _ => paging (palloc_get_page (Z.lor PAL_USER PAL_ZERO))) s _ _ E). cbn [Z.eqb NULL negb]. rewrite bind_ret.
    destruct s as [x y z t w]. eexists false, _. split; [done|]. split; [by apply grown_refl|]. split; [done|]. intros _. left. by exists true. }
  assert (exhausted true (cvm s) -> False) as Hroom by by apply (taken_room (cvm s) m1 k).
  crun (mem_op_ok (fun _ => paging (palloc_get_page (Z.lor PAL_USER PAL_ZERO))) s _ _ E). rewrite (proj2 (Z.eqb_neq k NULL)) by done. cbn [negb].
  rewrite bind_assoc, bind_get. cbn [stack_page]. rewrite Ea.
  destruct (map_frame (cvm s) m1 (cpd s) up k true Hs Hf Hk Hs1 Hu Hup Hal) as (b & m2 & E2 & Hout). rewrite bind_assoc.
  crun (mem_op_ok (fun pd => install_page pd up k true) (Cpu m1 (cpd s) (exit_status s) (stack_page s) (page_fault_cnt s)) b m2 E2). destruct b.
  - destruct Hout as (Hok2 & Hfull & Hnone & Hb). rewrite bind_modify. cbn [cvm cpd exit_status stack_page page_fault_cnt].
    rewrite i32_id by lia. eexists true, _. split; [done|]. split; [|split; [by intros [|] Hx; [destruct (Hroom Hx)|apply Hfull]|done]].
    split; try done. intros va Hv. unfold sees. cbn [cvm cpd]. rewrite Hb by done. pose proof (pg_ofs_bound va).
    assert (same_page up va <-> stack_base s - PAGE_SIZE * 1 <= va < stack_base s) as Hsp.
    { rewrite (page_span up va Hal). unfold up, PAGE_SIZE. lia. }
    case_decide as Hd; [rewrite bool_decide_true by tauto; by rewrite Hz by (done || lia)|by rewrite bool_decide_false by tauto].
  - destruct Hout as [-> Hwhy]. destruct (give_back (cvm s) m1 k Hs1 Hf Hu) as (m3 & E3 & Hs3).
    crun (mem_op_ok (fun _ => paging (palloc_free_page k)) (Cpu m1 (cpd s) (exit_status s) (stack_page s) (page_fault_cnt s)) tt m3 E3).
    cbn [cpd exit_status stack_page page_fault_cnt]. eexists false, _. split; [done|]. split.
    { split; try done; [by apply (same_space_ok (cvm s) m3 (cpd s) k)|cbn; lia|]. intros va Hv. rewrite bool_decide_false by lia.
      apply (same_user_byte (cvm s) m3 (cpd s) k); try done; [by apply fresh_unmapped|apply Hk]. }
    split; [by intros [|] Hx; [destruct (Hroom Hx)|apply (same_exhausted (cvm s) m3 k)]|]. intros _. destruct Hwhy as [Hm|Hx]; [right|left].
    + exists up. split; [done|]. split; [unfold up, PAGE_SIZE; lia|done].
    + exists false. by apply (same_exhausted (cvm s) m3 k).
Qed.

Lemma stack_loop_ok n : forall s, space s -> 1 <= stack_page s -> stack_page s + Z.of_nat n <= 786432 ->
  exists m s', stack_loop n s = Ok (tt, s') /\ 0 <= m <= Z.of_nat n /\ grown m s s' /\
    (forall u, exhausted u (cvm s) -> exhausted u (cvm s')) /\ (m = Z.of_nat n \/ cause (Z.of_nat n) s s').
Proof.
  induction n as [|n IH]; intros s Hs H1 H2.
  { exists 0, s. split; [done|]. split; [lia|]. split; [by apply grown_refl|]. split; [done|by left]. }
  destruct (stack_once_ok n s Hs ltac:(lia)) as (b & s1 & E & Hg & Hx & Hc). pose proof (gr_pages _ _ _ Hg) as Hp.
  destruct (IH s1) as (m & s' & E' & Hm & Hg' & Hx' & Hw); [apply Hg|destruct b; lia|destruct b; lia|].
  exists ((if b then 1 else 0) + m), s'. rewrite E. split; [done|]. split; [destruct b; lia|].
  split; [by apply (grown_trans _ _ s s1); [destruct b; lia|lia|..]|]. split; [auto|].
  assert (cause (Z.of_nat n) s1 s' -> cause (Z.of_nat (S n)) s s') as Hup.
  { intros [?|(va & Hv & Hr & Hi)]; [by left|right]. exists va. rewrite (gr_sees _ _ _ Hg) in Hi by done.
    unfold stack_base, PAGE_SIZE in *. rewrite Hp in Hr. rewrite bool_decide_false in Hi by (destruct b; lia). split; [done|].
    split; [destruct b; lia|done]. }
  destruct b; [destruct Hw as [->|Hw]; [left; lia|right; by apply Hup]|right].
  destruct (Hc eq_refl) as [[u Hu]|(va & Hv & Hr & Hi)]; [left; exists u; by apply Hx'|right].
  exists va. split; [done|]. split; [unfold PAGE_SIZE in *; lia|done].
Qed.

(** ** The handler *)

Definition user_write (f : intr_frame) : bool :=
  (Z.land (error_code f) PF_P =? 0) && (negb (Z.land (error_code f) PF_W =? 0) && negb (Z.land (error_code f) PF_U =? 0)).

Definition counted (s : cpu) : cpu := Cpu (cvm s) (cpd s) (exit_status s) (stack_page s) (i64 (page_fault_cnt s + 1)).
Definition failed (s : cpu) : cpu := Cpu (cvm s) (cpd s) (u32 (-1)) (stack_page s) (page_fault_cnt s).

(** At most 8 MB of stack. *)
Definition growable (s : cpu) (f : intr_frame) : bool := bool_decide (PHYS_BASE - 8 * 1024 * 1024 <= esp f <= stack_base s).

(** The number of pages that [stack_allocate] tries to map for [d] missing bytes. *)
Definition attempts (d : Z) : Z := (d + PAGE_SIZE - 1) mod PAGE_SIZE.

Lemma stack_growable_ok s f : 1 <= stack_page s <= 786432 -> stack_growable f s = Ok (growable s f, s).
Proof.
  intros Hp. unfold stack_growable, growable, stack_base, PAGE_SIZE. rewrite bind_get. unfold ret.
  assert (PHYS_BASE = 3221225472) as Hpb by done. rewrite (u32_id (PHYS_BASE - stack_page s * 4096)), (u32_id (PHYS_BASE - _)) by lia.
  f_equal. f_equal. apply eq_true_iff_eq. rewrite andb_true_iff, !Z.leb_le, bool_decide_eq_true. lia.
Qed.

Lemma stack_allocs_ok s f : 1 <= stack_page s <= 786432 -> growable s f = true ->
  stack_allocs (stack_page s) (esp f) = Ok (attempts (stack_base s - esp f)).
Proof.
  intros Hp Hg%bool_decide_eq_true. unfold stack_allocs, attempts, PAGE_SIZE. fold PAGE_SIZE. fold (stack_base s).
  assert (PHYS_BASE = 3221225472) as Hpb by done. assert (2 ^ 31 <= stack_base s < 2 ^ 32) as Hb by (unfold stack_base, PAGE_SIZE in *; lia).
  assert (i32 (u32 (i32 (u32 (stack_base s)) - esp f)) = stack_base s - esp f) as ->.
  { rewrite (u32_id (stack_base s)) by lia. assert (i32 (stack_base s) = stack_base s - 2 ^ 32) as ->.
    { unfold i32, swrap. replace ((stack_base s + 2 ^ (32 - 1)) mod 2 ^ 32) with (stack_base s - 2 ^ 31); [lia|]. apply (Zmod_unique _ _ 1); lia. }
    replace (u32 (stack_base s - 2 ^ 32 - esp f)) with (stack_base s - esp f); [apply i32_id; lia|].
    unfold u32, uwrap. apply (Zmod_unique _ _ (-1)); lia. }
  unfold int. rewrite bool_decide_true by (unfold PAGE_SIZE; lia). cbn [res_bind]. unfold PAGE_SIZE. rewrite Z.rem_mod_nonneg by lia. done.
Qed.

Lemma handle_mm_fault_ok s : space s -> exists s', handle_mm_fault s = Ok (tt, s') /\ grown 0 s s'.
Proof.
  intros Hs. unfold handle_mm_fault.
  assert (forall s, space s -> exists k s', mem_op (fun _ => paging (palloc_get_page PAL_USER)) s = Ok (k, s') /\ grown 0 s s') as Hget.
  { intros x Hx. destruct (take_frame (cvm x) (cpd x) PAL_USER Hx eq_refl eq_refl) as [[E _]|(k & m1 & E & _ & Hk & Hs1 & Hf & _)];
      eexists _, _; (split; [apply (mem_op_ok (fun _ => paging (palloc_get_page PAL_USER)) x _ _ E)|]).
    - by destruct x; apply grown_refl.
    - split; try done; [by apply (same_space_ok (cvm x) m1 (cpd x) k)|cbn; lia|]. intros va Hv. rewrite bool_decide_false by lia.
      apply (same_user_byte (cvm x) m1 (cpd x) k); try done; [by apply fresh_unmapped|apply Hk]. }
  destruct (Hget s Hs) as (k & s1 & E & Hg). crun E. destruct (k =? NULL); [|by exists s1].
  destruct (Hget s1 (gr_space _ _ _ Hg)) as (k2 & s2 & E2 & Hg2). crun E2. exists s2. split; [done|].
  by apply (grown_trans 0 0 s s1 s2).
Qed.


(** The same access faults [n] times in a row. *)
Fixpoint faults (n : nat) (f : intr_frame) : M cpu unit :=
  match n with
  | O => ret tt
  | S n => page_fault f;;; faults n f
  end.

Lemma fault_idle s f : 1 <= stack_page s <= 786432 -> user_write f = true -> growable s f = true ->
  (stack_base s - esp f) mod PAGE_SIZE = 1 -> page_fault f s = Ok (Resumes, counted s).
Proof.
  intros Hp Hu Hg Hd. unfold page_fault. rewrite bind_modify. fold (user_write f) (counted s). rewrite Hu.
  crun (stack_growable_ok (counted s) f Hp). change (growable (counted s) f) with (growable s f). rewrite Hg. unfold stack_allocate.
  rewrite bind_assoc, bind_get, bind_assoc. cbn [counted stack_page]. rewrite (stack_allocs_ok s f) by done. fold (counted s).
  assert (attempts (stack_base s - esp f) = 0) as ->; [|done].
  unfold attempts, PAGE_SIZE in *. rewrite <- Z.add_sub_assoc, Zplus_mod, Hd. done.
Qed.


(** ** A process with one page of stack *)

Module Demo.

(** It pushes a word at the end of the stack. *)
Definition process0 : cpu := Cpu Pagedir.Demo.boot2 Pagedir.Demo.dir 0 1 0.
Definition push : intr_frame := Frame (PHYS_BASE - 4096 - 4) SEL_UCSEG 6.
Definition odd : intr_frame := Frame (PHYS_BASE - 8192 - 1) SEL_UCSEG 6.



End Demo.
