(* ===== verification/Syscall.v ===== *)
(** * System calls (userprog/syscall.c)

    The handler of the system call interrupt and the functions of its table.
    The kernel reads and writes user memory through the page directory of the
    process: an address that is not mapped, or a write to a read-only page, is a
    page fault in kernel code, here [Fault].  A handler returns to the program,
    or it stops: at [thread_exit], at [shutdown_power_off], before the work of
    [process_execute] and [process_wait], or to wait for a key.  The argument
    array and the table of files come from an allocator (Alloc.v); files are
    those of the service of FileApi.v.  Names are read to their end, at most
    [fuel] characters. *)

From stdpp Require Import gmap.
From S2P Require Import CString Stdio.
From S2P Require Import Prelude Vaddr Bitmap PageAlloc Palloc Pagedir Alloc.
From S2P Require Import BlockDev Bytes FsInode FsSpec FileApi Uspace.
Local Open Scope Z_scope.

Inductive stop := Exited | Halted | Executes (file_args : list Z) | Waits (tid : Z) | NeedsKey.
Inductive ctl (A : Type) := Go (a : A) | Stop (o : stop).
Arguments Go {A} _.
Arguments Stop {A} _.

(** The number of parameters of the system calls. *)
Definition sys_argv_num : list Z :=
  [0; 1; 1; 1; 2; 1; 1; 1; 3; 3; 2; 1; 1; 2; 1; 1; 1; 2; 1; 1; 1; 4].

Definition fdtable_idx (fd : Z) : Z := u32 (fd - 2).
Definition fdtable_size (fd : Z) : Z := u32 (fd - 1).

(** The value of an [int] expression; overflow is undefined. *)
Definition int (z : Z) : res Z := if bool_decide (- 2 ^ 31 <= z < 2 ^ 31) then Ok z else Fault.

Section Code.
Context {F : Type} `{FS : FileService F} {H : Type} `{HA : Allocator H}.

(** The process: its memory and page directory, the file system, the kernel's
    heap, [fd] and [files_table] of the thread (the entries that were stored,
    and the number of entries that the block [table] has room for), its exit
    status, the register [eax] of the interrupt frame, what was written to the
    console, the keys not yet read, and the address of the thread's name in the
    memory that holds it. *)
Record task := Task {
  vm : mmu; pagedir : Z; svc : F; heap : H;
  fd : Z; table : Z; room : Z; files_table : list Z;
  exit_status : Z; eax : Z; console : list Z; keys : list Z;
  name : Z; strings : memory
}.

Definition set_vm (x : mmu) (s : task) : task :=
  Task x (pagedir s) (svc s) (heap s) (fd s) (table s) (room s) (files_table s) (exit_status s) (eax s) (console s) (keys s) (name s) (strings s).
Definition set_svc (x : F) (s : task) : task :=
  Task (vm s) (pagedir s) x (heap s) (fd s) (table s) (room s) (files_table s) (exit_status s) (eax s) (console s) (keys s) (name s) (strings s).
Definition set_heap (x : H) (s : task) : task :=
  Task (vm s) (pagedir s) (svc s) x (fd s) (table s) (room s) (files_table s) (exit_status s) (eax s) (console s) (keys s) (name s) (strings s).
Definition set_fd (x : Z) (s : task) : task :=
  Task (vm s) (pagedir s) (svc s) (heap s) x (table s) (room s) (files_table s) (exit_status s) (eax s) (console s) (keys s) (name s) (strings s).
Definition set_table (x n : Z) (s : task) : task :=
  Task (vm s) (pagedir s) (svc s) (heap s) (fd s) x n (files_table s) (exit_status s) (eax s) (console s) (keys s) (name s) (strings s).
Definition set_files (x : list Z) (s : task) : task :=
  Task (vm s) (pagedir s) (svc s) (heap s) (fd s) (table s) (room s) x (exit_status s) (eax s) (console s) (keys s) (name s) (strings s).
Definition set_exit_status (x : Z) (s : task) : task :=
  Task (vm s) (pagedir s) (svc s) (heap s) (fd s) (table s) (room s) (files_table s) x (eax s) (console s) (keys s) (name s) (strings s).
Definition set_eax (x : Z) (s : task) : task :=
  Task (vm s) (pagedir s) (svc s) (heap s) (fd s) (table s) (room s) (files_table s) (exit_status s) x (console s) (keys s) (name s) (strings s).
Definition set_console (x : list Z) (s : task) : task :=
  Task (vm s) (pagedir s) (svc s) (heap s) (fd s) (table s) (room s) (files_table s) (exit_status s) (eax s) x (keys s) (name s) (strings s).
Definition set_keys (x : list Z) (s : task) : task :=
  Task (vm s) (pagedir s) (svc s) (heap s) (fd s) (table s) (room s) (files_table s) (exit_status s) (eax s) (console s) x (name s) (strings s).

(** ** Computations that may stop *)

Definition X (A : Type) : Type := M task (ctl A).
Definition go {A : Type} (m : M task A) : X A := a <- m;; ret (Go a).
Definition stop_at {A : Type} (o : stop) : X A := ret (Stop o).
Definition xbind {A B : Type} (m : X A) (k : A -> X B) : X B :=
  r <- m;; match r with Go a => k a | Stop o => ret (Stop o) end.

Definition vms {A : Type} (m : Z -> M mmu A) : M task A :=
  fun s => r <-! m (pagedir s) (vm s);; Ok (r.1, set_vm r.2 s).
Definition serve (c : call) : M task answer :=
  fun s => r <-! sv_call c (svc s);; Ok (r.1, set_svc r.2 s).
Definition heaps {A : Type} (m : M H A) : M task A :=
  fun s => r <-! m (heap s);; Ok (r.1, set_heap r.2 s).
Definition answer_eax (z : Z) : X unit := go (modify (set_eax (u32 z))).

End Code.

Declare Scope sys_scope.
Notation "x <~ m ;; k" := (xbind m (fun x => k)) (at level 100, m at next level, right associativity) : sys_scope.
Notation "m ~;; k" := (xbind m (fun _ => k)) (at level 100, right associativity) : sys_scope.
Local Open Scope sys_scope.

Section Handlers.
Context {F : Type} `{FS : FileService F} {H : Type} `{HA : Allocator H}.
Context (fuel : nat).
Notation task := (@task F H).
Notation X := (@X F H).

(** ** User memory *)

(** Kernel addresses are those of the allocator's memory. *)
Definition load_byte (va : Z) : M task Z :=
  s <- get;;
  if va <? PHYS_BASE then lift (res_of_option (user_byte (vm s) (pagedir s) va))
  else ret (mem (frames (vm s)) va).

Definition writable (s : mmu) (pd va : Z) : bool :=
  match walk s pd va with Some (_, e) => present e && negb (Z.land e PTE_W =? 0) | None => false end.

Definition store_byte (va b : Z) : M task unit :=
  s <- get;;
  match translate (vm s) (pagedir s) va with
  | Some k => if writable (vm s) (pagedir s) va then vms (fun _ => poke k [b]) else fault
  | None => fault
  end.

Fixpoint load_bytes (n : nat) (va : Z) : M task (list Z) :=
  match n with
  | O => ret []
  | S n => b <- load_byte va;; l <- load_bytes n (u32 (va + 1));; ret (b :: l)
  end.

Fixpoint store_bytes_at (va : Z) (l : list Z) : M task unit :=
  match l with
  | [] => ret tt
  | b :: l => store_byte va b;;; store_bytes_at (u32 (va + 1)) l
  end.

Definition load_word (va : Z) : M task Z := l <- load_bytes 4 va;; ret (of_le l).

Fixpoint load_string (n : nat) (va : Z) : M task (list Z) :=
  match n with
  | O => nofuel
  | S n => b <- load_byte va;; if b =? 0 then ret [] else l <- load_string n (u32 (va + 1));; ret (b :: l)
  end.

(** ** Checking addresses and getting arguments *)

(** [%s: exit(%d)], a new line. *)
Definition exit_format : list Z := [37; 115; 58; 32; 101; 120; 105; 116; 40; 37; 100; 41; 10].

Definition print_exit (status : Z) : M task unit :=
  s <- get;;
  text <- lift (text_of (strings s) exit_format [name s; status]);;
  modify (set_console (console s ++ text)).

Definition terminate_process {A : Type} : X A :=
  go (modify (set_exit_status (u32 (-1)))) ~;;
  go (print_exit (u32 (-1))) ~;;
  stop_at Exited.

Definition check_address (address : Z) : X unit :=
  if is_kernel_vaddr address then terminate_process
  else
    b <~ go (vms (fun pd => pagedir_is_mapped pd address));;
    if negb b || (address =? NULL) then terminate_process else go (ret tt).

Definition nth_of (l : list Z) (i : Z) : M task Z := lift (res_of_option (l !! Z.to_nat i)).

(** The loop of [get_argv]: [n] arguments are left, from number [i] on. *)
Fixpoint argv_loop (n : nat) (esp argv i : Z) : X (list Z) :=
  match n with
  | O => go (ret [])
  | S n =>
      let cur_argv := u32 (esp + 4 * (1 + i)) in
      check_address cur_argv ~;;
      w <~ go (load_word cur_argv);;
      _ <~ go (if argv =? NULL then fault else ret tt);;
      l <~ argv_loop n esp argv (i + 1);;
      go (ret (w :: l))
  end.

(** [malloc] and [get_argv]: the array and its block. *)
Definition get_args (num esp : Z) : X (Z * list Z) :=
  n <~ go (nth_of sys_argv_num num);;
  argv <~ go (heaps (al_malloc (4 * n)));;
  l <~ argv_loop (Z.to_nat n) esp argv 0;;
  go (ret (argv, l)).

(** The frame of a handler: [malloc], [get_argv], the body, [free]. *)
Definition with_args (num esp : Z) (body : list Z -> X unit) : X unit :=
  a <~ get_args num esp;;
  body a.2 ~;;
  go (heaps (al_free a.1)).

(** ** The functions of the table *)

Definition sys_halt (num esp : Z) : X unit := stop_at Halted.

Definition exit_body (argv : list Z) : X unit :=
  status <~ go (nth_of argv 0);;
  go (modify (set_exit_status status)) ~;;
  go (print_exit status) ~;;
  stop_at Exited.
Definition sys_exit (num esp : Z) : X unit := with_args num esp exit_body.

Definition create_body (argv : list Z) : X unit :=
  file_name <~ go (nth_of argv 0);;
  initial_size <~ go (nth_of argv 1);;
  check_address file_name ~;;
  (if file_name =? NULL then terminate_process else go (ret tt)) ~;;
  nm <~ go (load_string fuel file_name);;
  r <~ go (serve (Create nm (i32 initial_size)));;
  success <~ go (match r with Yes b => ret b | _ => fault end);;
  answer_eax (Z.b2z success).
Definition sys_create (num esp : Z) : X unit := with_args num esp create_body.

Definition remove_body (argv : list Z) : X unit :=
  file_name <~ go (nth_of argv 0);;
  check_address file_name ~;;
  (if negb (file_name =? NULL) then
     nm <~ go (load_string fuel file_name);;
     r <~ go (serve (Remove nm));;
     success <~ go (match r with Yes b => ret b | _ => fault end);;
     answer_eax (Z.b2z success)
   else answer_eax 0).
Definition sys_remove (num esp : Z) : X unit := with_args num esp remove_body.

(** [thread_current()->files_table[fdtable_idx(fd)] = file]. *)
Definition store_file (idx file : Z) : M task unit :=
  s <- get;;
  if (table s =? NULL) || negb (idx <? room s) then fault
  else modify (fun s => set_files (take (Z.to_nat idx) (files_table s) ++ file :: drop (Z.to_nat idx + 1) (files_table s)) s).

(** Room for the file [thread_current()->fd]. *)
Definition grow_table : X unit :=
  s <~ go get;;
  if Z.rem (fd s - 2) 20 =? 0 then
    let n := u32 (fdtable_size (fd s) + 20) in
    p <~ go (heaps (al_realloc (table s) (u32 (4 * n))));;
    go (modify (set_table p n))
  else go (ret tt).

Definition open_body (argv : list Z) : X unit :=
  file_name <~ go (nth_of argv 0);;
  check_address file_name ~;;
  (if file_name =? NULL then terminate_process else go (ret tt)) ~;;
  nm <~ go (load_string fuel file_name);;
  r <~ go (serve (Open nm));;
  file <~ go (match r with Opened f => ret f | _ => fault end);;
  (if negb (file =? NULL) then
     go (modify (fun s => set_fd (i32 (fd s + 1)) s)) ~;;
     s <~ go get;;
     grow_table ~;;
     go (store_file (fdtable_idx (fd s)) file) ~;;
     answer_eax (fd s)
   else answer_eax (-1)).
Definition sys_open (num esp : Z) : X unit := with_args num esp open_body.

(** [fd > 1 && fd <= thread_current()->fd]. *)
Definition valid_fd (s : task) (n : Z) : bool := (1 <? n) && (n <=? fd s).
Definition file_of (n : Z) : M task Z := s <- get;; nth_of (files_table s) (n - 2).

Definition filesize_body (argv : list Z) : X unit :=
  w <~ go (nth_of argv 0);;
  s <~ go get;;
  bytes <~ (if valid_fd s (i32 w) then
              file <~ go (file_of (i32 w));;
              r <~ go (serve (Length file));;
              go (match r with Count n => ret n | _ => fault end)
            else go (ret (-1)));;
  answer_eax bytes.
Definition sys_filesize (num esp : Z) : X unit := with_args num esp filesize_body.

(** The loop over [input_getc]. *)
Fixpoint key_loop (n : nat) (buf_ptr : Z) : X unit :=
  match n with
  | O => go (ret tt)
  | S n =>
      s <~ go get;;
      match keys s with
      | [] => stop_at NeedsKey
      | k :: ks =>
          go (modify (set_keys ks)) ~;;
          go (store_byte buf_ptr k) ~;;
          check_address (u32 (buf_ptr + 1)) ~;;
          key_loop n (u32 (buf_ptr + 1))
      end
  end.

Definition read_body (argv : list Z) : X unit :=
  w <~ go (nth_of argv 0);;
  buf <~ go (nth_of argv 1);;
  check_address buf ~;;
  size <~ go (nth_of argv 2);;
  check_address (u32 (buf + size)) ~;;
  s <~ go get;;
  bytes <~ (if i32 w =? 0 then key_loop (Z.to_nat size) buf ~;; go (ret size)
            else if valid_fd s (i32 w) then
              file <~ go (file_of (i32 w));;
              r <~ go (serve (Read file (replicate (Z.to_nat size) 0) (i32 size)));;
              match r with
              | Bytes n data => go (store_bytes_at buf (slice 0 n data)) ~;; go (ret n)
              | _ => go fault
              end
            else go (ret (-1)));;
  answer_eax bytes.
Definition sys_read (num esp : Z) : X unit := with_args num esp read_body.

(** What [file_write] finds in the buffer; only what it takes has to be mapped. *)
Definition user_buffer (s : task) (buf : Z) (n : nat) : list Z :=
  (fun i => default 0 (user_byte (vm s) (pagedir s) (buf + i))) <$> seqZ 0 (Z.of_nat n).

Definition write_body (argv : list Z) : X unit :=
  w <~ go (nth_of argv 0);;
  buf <~ go (nth_of argv 1);;
  check_address buf ~;;
  size <~ go (nth_of argv 2);;
  check_address (u32 (buf + size)) ~;;
  s <~ go get;;
  bytes <~ (if i32 w =? 1 then
              l <~ go (load_bytes (Z.to_nat size) buf);;
              go (modify (fun s => set_console (console s ++ l) s)) ~;;
              go (ret size)
            else if valid_fd s (i32 w) then
              file <~ go (file_of (i32 w));;
              r <~ go (serve (Write file (user_buffer s buf (Z.to_nat size)) (i32 size)));;
              match r with
              | Count n => go (load_bytes (Z.to_nat n) buf) ~;; go (ret n)
              | _ => go fault
              end
            else go (ret (-1)));;
  answer_eax bytes.
Definition sys_write (num esp : Z) : X unit := with_args num esp write_body.

Definition seek_body (argv : list Z) : X unit :=
  w <~ go (nth_of argv 0);;
  position <~ go (nth_of argv 1);;
  s <~ go get;;
  (if valid_fd s (i32 w) then
     file <~ go (file_of (i32 w));;
     go (serve (Seek file (i32 position))) ~;; go (ret tt)
   else go (ret tt)).
Definition sys_seek (num esp : Z) : X unit := with_args num esp seek_body.

Definition tell_body (argv : list Z) : X unit :=
  w <~ go (nth_of argv 0);;
  s <~ go get;;
  pos <~ (if valid_fd s (i32 w) then
            file <~ go (file_of (i32 w));;
            r <~ go (serve (Tell file));;
            go (match r with Count n => ret n | _ => fault end)
          else go (ret (-1)));;
  answer_eax pos.
Definition sys_tell (num esp : Z) : X unit := with_args num esp tell_body.

Definition close_body (argv : list Z) : X unit :=
  w <~ go (nth_of argv 0);;
  s <~ go get;;
  (if valid_fd s (i32 w) then
     file <~ go (file_of (i32 w));;
     if negb (file =? NULL) then
       go (serve (Close file)) ~;;
       go (store_file (fdtable_idx (i32 w)) NULL)
     else go (ret tt)
   else go (ret tt)).
Definition sys_close (num esp : Z) : X unit := with_args num esp close_body.

(** [sys_mmap] and the like. *)
Definition sys_nothing (num esp : Z) : X unit := go (ret tt).

(** The loop of [sys_fibonacci]: [n] iterations are left. *)
Fixpoint fib_loop (n : nat) (a1 a2 : Z) : res Z :=
  match n with
  | O => Ok a1
  | S O => int (a1 + a2)
  | S n => a <-! int (a1 + a2);; fib_loop n a2 a
  end.

Definition fibonacci (n : Z) : res Z :=
  if n =? 0 then Ok 0 else if n =? 1 then Ok 1 else fib_loop (Z.to_nat (n - 1)) 0 1.

Definition fibonacci_body (argv : list Z) : X unit :=
  w <~ go (nth_of argv 0);;
  v <~ go (lift (fibonacci (i32 w)));;
  answer_eax v.
Definition sys_fibonacci (num esp : Z) : X unit := with_args num esp fibonacci_body.

Definition sum_body (argv : list Z) : X unit :=
  w0 <~ go (nth_of argv 0);;
  w1 <~ go (nth_of argv 1);;
  w2 <~ go (nth_of argv 2);;
  w3 <~ go (nth_of argv 3);;
  v <~ go (lift (x <-! int (i32 w0 + i32 w1);; y <-! int (x + i32 w2);; int (y + i32 w3)));;
  answer_eax v.
Definition sys_sum_of_four_integers (num esp : Z) : X unit := with_args num esp sum_body.

(** As far as the command line is read: the search for its file and [process_execute] follow. *)
Definition exec_body (argv : list Z) : X unit :=
  p <~ go (nth_of argv 0);;
  check_address p ~;;
  file_args <~ go (load_string fuel p);;
  stop_at (Executes file_args).
Definition sys_exec (num esp : Z) : X unit := with_args num esp exec_body.

Definition wait_body (argv : list Z) : X unit :=
  p <~ go (nth_of argv 0);;
  stop_at (Waits (i32 p)).
Definition sys_wait (num esp : Z) : X unit := with_args num esp wait_body.

Definition sys_handlers : list (Z -> Z -> X unit) :=
  [sys_halt; sys_exit; sys_exec; sys_wait; sys_create; sys_remove; sys_open; sys_filesize;
   sys_read; sys_write; sys_seek; sys_tell; sys_close;
   sys_nothing; sys_nothing; sys_nothing; sys_nothing; sys_nothing; sys_nothing; sys_nothing;
   sys_fibonacci; sys_sum_of_four_integers].

(** A number without a function is a jump to what follows the table. *)
Definition syscall_handler (esp : Z) : X unit :=
  check_address esp ~;;
  num <~ go (load_word esp);;
  match sys_handlers !! Z.to_nat num with
  | Some handler => handler num esp
  | None => go fault
  end.

End Handlers.
