(* ===== verification/SyscallSpec.v ===== *)
(** * What the system calls mean

    A process as its program sees it: the bytes of its memory, its open files by
    number, the abstract file system of FsSpec.v and the console.  [decode] reads
    a request from the stack of the program, [sys_step] says what it answers and
    changes, and [syscall_refines] shows that the handler does that;
    [syscall_bad_pointer] is about requests with pointers that are not the
    program's. *)

From stdpp Require Import gmap.
From S2P Require Import CString Stdio StdioSpec.
From S2P Require Import Malloc Filesys FsTheorems Loader.
From S2P Require Import Prelude Vaddr Bitmap PageAlloc Palloc Pagedir Alloc.
From S2P Require Import BlockDev Bytes FsInode FsDir FsSpec FileApi Uspace.
From S2P Require Import Syscall.
Local Open Scope Z_scope.
Local Open Scope sys_scope.

(** ** Processes and requests *)

Record process := Process {
  p_mem : Z -> option Z;
  p_files : list Z;
  p_view : view;
  p_console : list Z;
  p_name : list Z
}.

Inductive request :=
  | RHalt
  | RExit (status : Z)
  | RCreate (nm : list Z) (len : Z)
  | RRemove (nm : list Z)
  | ROpen (nm : list Z)
  | RFilesize (fd : Z)
  | RRead (fd buf size : Z)
  | RWrite (fd buf size : Z)
  | RSeek (fd pos : Z)
  | RTell (fd : Z)
  | RClose (fd : Z)
  | RNothing
  | RFibonacci (n : Z)
  | RSum (a b c d : Z).

(** Four bytes at an address of the program that is not null. *)
Definition uword (m : Z -> option Z) (va : Z) : option Z :=
  if va =? NULL then None
  else b0 ← m va; b1 ← m (va + 1); b2 ← m (va + 2); b3 ← m (va + 3); Some (of_le [b0; b1; b2; b3]).

Fixpoint uwords (m : Z -> option Z) (n : nat) (va : Z) : option (list Z) :=
  match n with
  | O => Some []
  | S n => w ← uword m va; l ← uwords m n (va + 4); Some (w :: l)
  end.

(** A string of at most [n - 1] characters. *)
Fixpoint ustring (m : Z -> option Z) (n : nat) (va : Z) : option (list Z) :=
  match n with
  | O => None
  | S n => b ← m va; if b =? 0 then Some [] else l ← ustring m n (va + 1); Some (b :: l)
  end.

Definition uname (m : Z -> option Z) (n : nat) (va : Z) : option (list Z) :=
  if va =? NULL then None else ustring m n va.

(** The request with number [num] and the given arguments. *)
Definition request_of (m : Z -> option Z) (fuel : nat) (num : Z) (args : list Z) : option request :=
  match num, args with
  | 0, [] => Some RHalt
  | 1, [st] => Some (RExit st)
  | 4, [p; len] => nm ← uname m fuel p; Some (RCreate nm (i32 len))
  | 5, [p] => nm ← uname m fuel p; Some (RRemove nm)
  | 6, [p] => nm ← uname m fuel p; Some (ROpen nm)
  | 7, [fd] => Some (RFilesize (i32 fd))
  | 8, [fd; buf; size] => Some (RRead (i32 fd) buf size)
  | 9, [fd; buf; size] => Some (RWrite (i32 fd) buf size)
  | 10, [fd; pos] => Some (RSeek (i32 fd) (i32 pos))
  | 11, [fd] => Some (RTell (i32 fd))
  | 12, [fd] => Some (RClose (i32 fd))
  | 20, [n] => Some (RFibonacci (i32 n))
  | 21, [a; b; c; d] => Some (RSum (i32 a) (i32 b) (i32 c) (i32 d))
  | 13, _ | 14, _ | 15, _ | 16, _ | 17, _ | 18, _ | 19, _ => Some RNothing
  | _, _ => None
  end.

Definition decode (m : Z -> option Z) (fuel : nat) (esp : Z) : option request :=
  num ← uword m esp;
  n ← sys_argv_num !! Z.to_nat num;
  args ← uwords m (Z.to_nat n) (esp + 4);
  request_of m fuel num args.

(** ** What a request does *)

Definition with_view (v : view) (p : process) : process := Process (p_mem p) (p_files p) v (p_console p) (p_name p).

(** The file with number [fd], if the number has been given out. *)
Definition entry_of (p : process) (fd : Z) : option Z := if 1 <? fd then p_files p !! Z.to_nat (fd - 2) else None.

Fixpoint fib (n : nat) : Z :=
  match n with
  | O => 0
  | S O => 1
  | S (S n as m) => fib m + fib n
  end.

(** The result in [eax] ([None]: it is left as it is), and the process after the request. *)
Inductive sys_step (p : process) : request -> option Z -> process -> Prop :=
  | does_create nm len b v : step (p_view p) (Create nm len) (Yes b) v ->
      sys_step p (RCreate nm len) (Some (Z.b2z b)) (with_view v p)
  | does_remove nm b v : step (p_view p) (Remove nm) (Yes b) v ->
      sys_step p (RRemove nm) (Some (Z.b2z b)) (with_view v p)
  | does_open nm f v : step (p_view p) (Open nm) (Opened f) v -> f <> NULL ->
      sys_step p (ROpen nm) (Some (zlen (p_files p) + 2)) (Process (p_mem p) (p_files p ++ [f]) v (p_console p) (p_name p))
  | does_open_none nm v : step (p_view p) (Open nm) (Opened NULL) v ->
      sys_step p (ROpen nm) (Some (2 ^ 32 - 1)) (with_view v p)
  | does_filesize fd f n v : entry_of p fd = Some f -> step (p_view p) (Length f) (Count n) v ->
      sys_step p (RFilesize fd) (Some n) (with_view v p)
  | does_read fd buf size f n data v : entry_of p fd = Some f ->
      step (p_view p) (Read f (replicate (Z.to_nat size) 0) size) (Bytes n data) v ->
      sys_step p (RRead fd buf size) (Some n)
        (Process (fun va => if bool_decide (buf <= va < buf + n) then data !! Z.to_nat (va - buf) else p_mem p va) (p_files p) v (p_console p) (p_name p))
  | does_write fd buf size f bytes n v : entry_of p fd = Some f -> length bytes = Z.to_nat size ->
      (forall i b, bytes !! i = Some b -> p_mem p (buf + Z.of_nat i) = Some b) ->
      step (p_view p) (Write f bytes size) (Count n) v ->
      sys_step p (RWrite fd buf size) (Some n) (with_view v p)
  | does_write_console buf size bytes : length bytes = Z.to_nat size ->
      (forall i b, bytes !! i = Some b -> p_mem p (buf + Z.of_nat i) = Some b) ->
      sys_step p (RWrite 1 buf size) (Some size) (Process (p_mem p) (p_files p) (p_view p) (p_console p ++ bytes) (p_name p))
  | does_seek fd pos f v : entry_of p fd = Some f -> step (p_view p) (Seek f pos) Done v ->
      sys_step p (RSeek fd pos) None (with_view v p)
  | does_tell fd f n v : entry_of p fd = Some f -> step (p_view p) (Tell f) (Count n) v ->
      sys_step p (RTell fd) (Some n) (with_view v p)
  | does_close fd f v : entry_of p fd = Some f -> f <> NULL -> step (p_view p) (Close f) Done v ->
      sys_step p (RClose fd) None (Process (p_mem p) (<[Z.to_nat (fd - 2) := NULL]> (p_files p)) v (p_console p) (p_name p))
  | does_closed fd : entry_of p fd = Some NULL -> sys_step p (RClose fd) None p
  | does_no_file r fd : entry_of p fd = None ->
      r = RFilesize fd \/ r = RTell fd \/ (exists buf size, fd <> 0 /\ r = RRead fd buf size) \/ (exists buf size, fd <> 1 /\ r = RWrite fd buf size) ->
      sys_step p r (Some (2 ^ 32 - 1)) p
  | does_no_file_quiet r fd : entry_of p fd = None -> r = RClose fd \/ (exists pos, r = RSeek fd pos) -> sys_step p r None p
  | does_nothing : sys_step p RNothing None p
  | does_fib n : sys_step p (RFibonacci n) (Some (fib (Z.to_nat n))) p
  | does_sum a b c d : sys_step p (RSum a b c d) (Some (u32 (a + b + c + d))) p.

(** ** Requests that the handler serves *)

Definition span (m : Z -> option Z) (buf size : Z) : Prop :=
  buf <> NULL /\ 0 <= size < 2 ^ 31 /\ forall i, 0 <= i <= size -> is_Some (m (buf + i)).

(** A number in use stands for an open file. *)
Definition open_entry (p : process) (fd : Z) : Prop := entry_of p fd <> Some NULL.

Definition int_range (z : Z) : Prop := - 2 ^ 31 <= z < 2 ^ 31.

(** [w]: the addresses that may be written. *)
Definition serves (p : process) (w : Z -> bool) (r : request) : Prop :=
  match r with
  | RHalt | RNothing | RClose _ => True
  | RExit st => 0 <= st < 2 ^ 32
  | RCreate nm len => allowed (p_view p) (Create nm len)
  | RRemove nm => allowed (p_view p) (Remove nm)
  | ROpen nm => allowed (p_view p) (Open nm) /\ zlen (p_files p) < 2 ^ 28
  | RFilesize fd | RTell fd => open_entry p fd
  | RRead fd buf size => fd <> 0 /\ open_entry p fd /\ span (p_mem p) buf size /\ forall i, 0 <= i < size -> w (buf + i) = true
  | RWrite fd buf size => open_entry p fd /\ span (p_mem p) buf size /\ forall i b, 0 <= i < size -> p_mem p (buf + i) = Some b -> byte b
  | RSeek fd pos => open_entry p fd /\ 0 <= pos
  | RFibonacci n => n <= 46
  | RSum a b c d => int_range (a + b) /\ int_range (a + b + c) /\ int_range (a + b + c + d)
  end.

(** The number of arguments. *)
Definition argc (r : request) : Z :=
  match r with
  | RHalt | RNothing => 0
  | RCreate _ _ | RSeek _ _ => 2
  | RRead _ _ _ | RWrite _ _ _ => 3
  | RSum _ _ _ _ => 4
  | _ => 1
  end.

(** ** Fibonacci numbers *)

Lemma fib_step n : fib (S (S n)) = fib (S n) + fib n.
Proof. done. Qed.

Lemma fib_nonneg n : 0 <= fib n /\ 0 <= fib (S n).
Proof. induction n as [|n IH]; [done|]. rewrite fib_step. lia. Qed.

Lemma fib_le n m : (1 <= n <= m)%nat -> fib n <= fib m.
Proof.
  intros [Hn Hm]. induction Hm as [|m Hm IH]; [done|]. destruct m as [|m]; [lia|]. rewrite fib_step. pose proof (fib_nonneg m). lia.
Qed.

Fixpoint fib_pair (n : nat) : Z * Z :=
  match n with
  | O => (0, 1)
  | S n => let '(a, b) := fib_pair n in (b, b + a)
  end.

Lemma fib_pair_ok n : fib_pair n = (fib n, fib (S n)).
Proof. induction n as [|n IH]; [done|]. cbn [fib_pair]. by rewrite IH, fib_step. Qed.

Lemma fib_fst n : fib n = fst (fib_pair n).
Proof. by rewrite fib_pair_ok. Qed.

Lemma fib_46 : fib 46 = 1836311903.
Proof. rewrite fib_fst. vm_compute. reflexivity. Qed.

Lemma fib_loop_ok n : forall k, (k + n + 2 <= 46)%nat -> fib_loop (S n) (fib k) (fib (S k)) = Ok (fib (k + n + 2)).
Proof.
  induction n as [|n IH]; intros k Hk.
  - cbn [fib_loop]. unfold int. pose proof (fib_le (S (S k)) 46 ltac:(lia)) as Hl. rewrite fib_46, fib_step in Hl. pose proof (fib_nonneg k).
    rewrite bool_decide_true by lia. replace (k + 0 + 2)%nat with (S (S k)) by lia. rewrite fib_step. f_equal. lia.
  - change (fib_loop (S (S n)) (fib k) (fib (S k))) with (a <-! int (fib k + fib (S k));; fib_loop (S n) (fib (S k)) a).
    unfold int. pose proof (fib_le (S (S k)) 46 ltac:(lia)) as Hl. rewrite fib_46, fib_step in Hl. pose proof (fib_nonneg k).
    rewrite bool_decide_true by lia. cbn [res_bind]. replace (fib k + fib (S k)) with (fib (S (S k))) by (rewrite fib_step; lia).
    rewrite IH by lia. do 2 f_equal. lia.
Qed.

Lemma fibonacci_ok n : n <= 46 -> fibonacci n = Ok (fib (Z.to_nat n)) /\ 0 <= fib (Z.to_nat n) < 2 ^ 31.
Proof.
  intros Hn. split.
  - unfold fibonacci. destruct (Z.eqb_spec n 0) as [->|]; [done|]. destruct (Z.eqb_spec n 1) as [->|]; [done|].
    destruct (decide (n < 0)); [replace (Z.to_nat (n - 1)) with O by lia; by replace (Z.to_nat n) with O by lia|].
    replace (Z.to_nat (n - 1)) with (S (Z.to_nat (n - 2))) by lia. change 0 with (fib 0) at 1. change 1 with (fib 1) at 1.
    rewrite fib_loop_ok by lia. do 2 f_equal. lia.
  - split; [apply fib_nonneg|]. destruct (decide (n <= 0)); [by replace (Z.to_nat n) with O by lia|].
    pose proof (fib_le (Z.to_nat n) 46 ltac:(lia)) as Hl. rewrite fib_46 in Hl. lia.
Qed.

Section Refinement.
Context {F : Type} `{FS : FileService F} {H : Type} `{HA : Allocator H}.
Context (fuel : nat).
Notation task := (@task F H).
Notation X := (@X F H).
Implicit Types s : task.

(** The memory of the process is [m]. *)
Definition memory_of s (m : Z -> option Z) : Prop :=
  space_ok (vm s) (pagedir s) /\
  forall va, m va = if bool_decide (0 <= va < PHYS_BASE) then user_byte (vm s) (pagedir s) va else None.

(** ** Running a handler *)

Lemma xgo {A B : Type} (m : M task A) (k : A -> X B) s a s' : m s = Ok (a, s') -> xbind (go m) k s = k a s'.
Proof. intros E. unfold xbind, go, bind. rewrite E. done. Qed.

Lemma xrun {A B : Type} (m : X A) (k : A -> X B) s a s' : m s = Ok (Go a, s') -> xbind m k s = k a s'.
Proof. intros E. unfold xbind, bind. by rewrite E. Qed.

Lemma xstop {A B : Type} (m : X A) (k : A -> X B) s o s' : m s = Ok (Stop o, s') -> xbind m k s = Ok (Stop o, s').
Proof. intros E. unfold xbind, bind. by rewrite E. Qed.

Lemma xbind_assoc {A B C : Type} (m : X A) (k : A -> X B) (l : B -> X C) s :
  xbind (xbind m k) l s = xbind m (fun a => xbind (k a) l) s.
Proof. unfold xbind, bind. destruct (m s) as [[[a|o] s1]| | |]; done. Qed.

(** ** User memory *)

Lemma mem_range s m va b : memory_of s m -> m va = Some b -> 0 <= va < PHYS_BASE /\ user_byte (vm s) (pagedir s) va = Some b.
Proof. intros [_ Hm]. rewrite Hm. case_bool_decide; [done|discriminate]. Qed.

Lemma load_byte_ok s m va b : memory_of s m -> m va = Some b -> load_byte va s = Ok (b, s).
Proof.
  intros Hm Hb. destruct (mem_range s m va b Hm Hb) as [Hv Hu]. unfold load_byte. rewrite bind_get.
  rewrite (proj2 (Z.ltb_lt _ _)) by lia. unfold lift. by rewrite Hu.
Qed.

Lemma next_address s m va b : memory_of s m -> m va = Some b -> u32 (va + 1) = va + 1.
Proof. intros Hm Hb. destruct (mem_range s m va b Hm Hb) as [Hv _]. apply u32_id. unfold PHYS_BASE in Hv. lia. Qed.

Lemma user_load_ok s m l : memory_of s m -> forall va, (forall i b, l !! i = Some b -> m (va + Z.of_nat i) = Some b) ->
  load_bytes (length l) va s = Ok (l, s).
Proof.
  intros Hm. induction l as [|b l IH]; intros va Hl; [done|]. cbn [length load_bytes].
  assert (m va = Some b) as Hb by (rewrite <- (Hl 0%nat b) by done; f_equal; lia). crun (load_byte_ok s m va b Hm Hb).
  rewrite (next_address s m va b Hm Hb). rewrite (bind_ok _ _ s l s); [done|]. apply IH. intros i c Hc.
  rewrite <- (Hl (S i) c) by done. f_equal. lia.
Qed.

Lemma load_word_ok s m va w : memory_of s m -> uword m va = Some w -> load_word va s = Ok (w, s).
Proof.
  intros Hm. unfold uword. destruct (va =? NULL); [done|]. destruct (m va) as [b0|] eqn:E0; [|done]. cbn.
  destruct (m (va + 1)) as [b1|] eqn:E1; [|done]. cbn. destruct (m (va + 2)) as [b2|] eqn:E2; [|done]. cbn.
  destruct (m (va + 3)) as [b3|] eqn:E3; [|done]. cbn. intros [= <-]. unfold load_word.
  rewrite (bind_ok _ _ s [b0; b1; b2; b3] s); [done|]. apply (user_load_ok s m [b0; b1; b2; b3] Hm). intros i b.
  destruct i as [|[|[|[|i]]]]; cbn; intros [= <-]; rewrite ?Z.add_0_r; done.
Qed.

Lemma load_string_ok s m n : memory_of s m -> forall va l, ustring m n va = Some l -> load_string n va s = Ok (l, s).
Proof.
  intros Hm. induction n as [|n IH]; intros va l; [done|]. cbn [ustring load_string]. destruct (m va) as [b|] eqn:Eb; [|done]. cbn [mbind option_bind].
  crun (load_byte_ok s m va b Hm Eb). destruct (b =? 0); [by intros [= <-]|]. destruct (ustring m n (va + 1)) as [l'|] eqn:El; [|done].
  intros [= <-]. rewrite (next_address s m va b Hm Eb). by rewrite (bind_ok _ _ s l' s) by by apply IH.
Qed.

(** An address whose byte is mapped passes the check. *)
Lemma check_address_ok s m va : memory_of s m -> va <> NULL -> is_Some (m va) -> check_address va s = Ok (Go tt, s).
Proof.
  intros Hm Hn [b Hb]. destruct (mem_range s m va b Hm Hb) as [Hv Hu]. destruct Hm as [Hok _]. unfold check_address.
  unfold is_kernel_vaddr. rewrite (proj2 (Z.leb_gt _ _)) by lia. destruct (so_dir _ _ Hok) as [es Hd].
  assert (pagedir_is_mapped (pagedir s) va (vm s) = Ok (true, vm s)) as E.
  { unfold pagedir_is_mapped. destruct (lookup_page_ok (vm s) (pagedir s) es va Hd Hv) as [[Hw _]|(pt & ts & e & Hw & E & _ & _ & Hpt & _)].
    - unfold user_byte, translate in Hu. by rewrite Hw in Hu.
    - crun E. destruct (user_parts va Hv) as (_ & _ & Hno & _). destruct (entry_parts_of pt (pt_no va) Hpt Hno) as (Hnull & _).
      by rewrite (proj2 (Z.eqb_neq _ NULL)). }
  rewrite (xgo _ _ s true s); [by rewrite (proj2 (Z.eqb_neq va NULL))|]. unfold vms. rewrite E. by destruct s.
Qed.

(** ** Arguments *)

Lemma uword_range s m va w : memory_of s m -> uword m va = Some w -> va <> NULL /\ is_Some (m va) /\ 0 <= va < PHYS_BASE.
Proof.
  intros Hm. unfold uword. destruct (Z.eqb_spec va NULL); [done|]. destruct (m va) as [b|] eqn:E; [|done]. intros _.
  split; [done|]. split; [done|]. by destruct (mem_range s m va b Hm E).
Qed.

Lemma argv_loop_ok s m argv esp n : memory_of s m -> argv <> NULL -> forall i l, 0 <= esp -> 0 <= i ->
  uwords m n (esp + 4 * (1 + i)) = Some l -> argv_loop n esp argv i s = Ok (Go l, s).
Proof.
  intros Hm Ha. induction n as [|n IH]; intros i l Hesp Hi; [by intros [= <-]|]. cbn [uwords argv_loop].
  destruct (uword m (esp + 4 * (1 + i))) as [w|] eqn:Ew; [|done]. cbn [mbind option_bind].
  destruct (uwords m n _) as [l'|] eqn:El; [|done]. intros [= <-].
  destruct (uword_range s m _ w Hm Ew) as (Hn & Hs & Hr). rewrite u32_id by (unfold PHYS_BASE in Hr; lia).
  rewrite (xrun _ _ s tt s) by by apply (check_address_ok s m). rewrite (xgo _ _ s w s) by by apply (load_word_ok s m).
  rewrite (xgo _ _ s tt s) by by rewrite (proj2 (Z.eqb_neq argv NULL)).
  rewrite (xrun _ _ s l' s); [done|]. apply IH; [done|lia|]. by replace (esp + 4 * (1 + (i + 1))) with (esp + 4 * (1 + i) + 4) by lia.
Qed.

(** [h] can allocate [n] bytes. *)
Definition grants (n : Z) (h : H) : Prop := forall p h', al_malloc n h = Ok (p, h') -> p <> NULL.

(** [s1] is [s] with one more block, [b], for [n] arguments. *)
Definition with_block s (n b : Z) s1 : Prop :=
  exists h, s1 = set_heap h s /\ al_malloc (4 * n) (heap s) = Ok (b, h) /\ al_wf h /\ b <> NULL /\ ~ al_live (heap s) b /\ forall q, al_live h q <-> q = b \/ al_live (heap s) q.

Lemma get_args_ok s m num esp n l : memory_of s m -> al_wf (heap s) -> sys_argv_num !! Z.to_nat num = Some n -> 0 <= n <= 4 ->
  0 <= esp -> uwords m (Z.to_nat n) (esp + 4) = Some l -> grants (4 * n) (heap s) ->
  exists b s1, get_args num esp s = Ok (Go (b, l), s1) /\ with_block s n b s1.
Proof.
  intros Hm Hw Hn Hr Hesp Hl Hg. destruct (al_malloc_ok (4 * n) (heap s) Hw ltac:(lia)) as (b & h & E & Hw' & Hb).
  pose proof (Hg b h E) as Hnn. destruct Hb as [[? _]|(_ & Hnew & Hlive)]; [done|]. exists b, (set_heap h s). unfold get_args.
  rewrite (xgo _ _ s n s) by (unfold nth_of, lift; by rewrite Hn). rewrite (xgo _ _ s b (set_heap h s)) by (unfold heaps; by rewrite E).
  rewrite (xrun _ _ _ l (set_heap h s)).
  - split; [done|]. exists h. done.
  - apply (argv_loop_ok _ m); [done|done|done|lia|]. by replace (esp + 4 * (1 + 0)) with (esp + 4) by lia.
Qed.

(** What the blocks of [s] are is kept, and [b] can be freed. *)
Lemma with_args_ok s m num esp n l (body : list Z -> X unit) : memory_of s m -> al_wf (heap s) ->
  sys_argv_num !! Z.to_nat num = Some n -> 0 <= n <= 4 -> 0 <= esp -> uwords m (Z.to_nat n) (esp + 4) = Some l -> grants (4 * n) (heap s) ->
  exists b s1, with_block s n b s1 /\
    match body l s1 with
    | Ok (Go tt, s2) => al_wf (heap s2) -> al_live (heap s2) b -> exists h, with_args num esp body s = Ok (Go tt, set_heap h s2) /\
        al_wf h /\ forall q, al_live h q <-> q <> b /\ al_live (heap s2) q
    | Ok (Stop o, s2) => with_args num esp body s = Ok (Stop o, s2)
    | _ => True
    end.
Proof.
  intros Hm Hw Hn Hr Hesp Hl Hg. destruct (get_args_ok s m num esp n l Hm Hw Hn Hr Hesp Hl Hg) as (b & s1 & E & Hb).
  exists b, s1. split; [done|]. unfold with_args. rewrite (xrun _ _ s (b, l) s1 E). cbn [fst snd].
  destruct (body l s1) as [[[[]|o] s2]| | |] eqn:Eb; try done.
  - intros Hw2 Hl2. destruct (al_free_ok b (heap s2) Hw2 Hl2) as (h & Ef & Hwf & Hlive). exists h. split; [|done].
    rewrite (xrun _ _ s1 tt s2 Eb). unfold go, heaps, bind. by rewrite Ef.
  - by rewrite (xstop _ _ s1 o s2 Eb).
Qed.

(** ** The representation *)

Record state_ok s (p : process) : Prop := StateOk {
  st_mem : memory_of s (p_mem p);
  st_view : sv_repr (svc s) (p_view p);
  st_files : files_table s = p_files p;
  st_fd : fd s = zlen (p_files p) + 1;
  st_console : console s = p_console p;
  st_open i f : p_files p !! i = Some f -> f <> NULL -> is_Some (handles (p_view p) !! f);
  st_once i j f : p_files p !! i = Some f -> p_files p !! j = Some f -> f <> NULL -> i = j;
  st_name : 0 < name s < 2 ^ 32 /\ cstr (strings s) (name s) (p_name p) /\ zlen (p_name p) < 2 ^ 31
}.

(** The block of the table, for [n] entries. *)
Definition table_ok s (n : Z) : Prop :=
  (table s = NULL /\ n = 0) \/ (al_live (heap s) (table s) /\ 0 < n /\ room s = 20 * ((n - 1) / 20) + 21).

(** Inside of a handler, with the arguments in the block [b]. *)
Definition heap_ok s (b n : Z) : Prop := al_wf (heap s) /\ al_live (heap s) b /\ table s <> b /\ table_ok s n.

(** A result of a body that serves [r]. *)
Definition served s (p : process) (r : request) s' : Prop :=
  sv_short (svc s') = true \/ exists e p', sys_step p r e p' /\ state_ok s' p' /\ eax s' = default (eax s) e.

Lemma serve_ok s p c : state_ok s p -> allowed (p_view p) c ->
  exists r x, serve c s = Ok (r, set_svc x s) /\ fits c r /\
    (sv_short x = true \/ exists v', step (p_view p) c r v' /\ sv_repr x v').
Proof.
  intros Hs Ha. destruct (sv_refines (svc s) (p_view p) c (st_view _ _ Hs) Ha) as (r & x & E & Ho). exists r, x.
  split; [unfold serve; by rewrite E|]. split; [|done]. by apply (sv_fits (svc s) (p_view p) c r x (st_view _ _ Hs)).
Qed.

(** Handles come and go only by opening and closing. *)
Lemma step_handles v c r v' f : step v c r v' -> (forall g, c <> Close g) -> is_Some (handles v !! f) -> is_Some (handles v' !! f).
Proof.
  intros Hst Hc Hf. destruct Hst; cbn; try done; try (apply lookup_insert_is_Some'; by right).
  - unfold reclaim, without_name. cbn. destruct (nodes v !! sec); [|done]. by case_bool_decide.
  - by destruct (Hc f0).
Qed.

(** A call that changes no number and no memory. *)
Lemma state_view s p c r v' x z : state_ok s p -> step (p_view p) c r v' -> (forall g, c <> Close g) -> sv_repr x v' ->
  state_ok (set_eax z (set_svc x s)) (with_view v' p).
Proof.
  intros [S1 S2 S3 S4 S5 S6 S7 S8] Hst Hc Hr. split; try done. intros i f Hf Hn. by apply (step_handles (p_view p) c r v' f Hst Hc), (S6 i).
Qed.

Lemma entry_lookup s p n f : state_ok s p -> entry_of p n = Some f -> valid_fd s n = true /\ file_of n s = Ok (f, s).
Proof.
  intros Hs. unfold entry_of, valid_fd, file_of. destruct (Z.ltb_spec 1 n) as [Hn|]; [|done]. intros Hf.
  pose proof (lookup_lt_Some _ _ _ Hf). rewrite (st_fd _ _ Hs). rewrite (proj2 (Z.leb_le _ _)) by (unfold zlen; lia).
  split; [done|]. rewrite bind_get. unfold nth_of, lift. by rewrite (st_files _ _ Hs), Hf.
Qed.

Lemma entry_none s p n : state_ok s p -> entry_of p n = None -> valid_fd s n = false.
Proof.
  intros Hs. unfold entry_of, valid_fd. destruct (Z.ltb_spec 1 n) as [Hn|]; [|done]. intros Hf%lookup_ge_None. cbn [andb].
  rewrite (st_fd _ _ Hs). apply Z.leb_gt. unfold zlen. lia.
Qed.

(** An open entry has a handle. *)
Lemma entry_open s p n f : state_ok s p -> open_entry p n -> entry_of p n = Some f -> f <> NULL /\ is_Some (handles (p_view p) !! f).
Proof.
  intros Hs Ho Hf. assert (f <> NULL) as Hn by (intros ->; by apply Ho). split; [done|]. unfold entry_of in Hf.
  destruct (1 <? n); [|done]. by apply (st_open _ _ Hs (Z.to_nat (n - 2))).
Qed.

Lemma nth_ok s (l : list Z) i w : l !! Z.to_nat i = Some w -> nth_of l i s = Ok (w, s).
Proof. intros E. unfold nth_of, lift. by rewrite E. Qed.

(** ** The bodies that leave the heap alone *)

Definition quiet_body s (p : process) (r : request) (o : res (ctl unit * task)) : Prop :=
  exists s', o = Ok (Go tt, s') /\ heap s' = heap s /\ table s' = table s /\ room s' = room s /\
    length (files_table s') = length (files_table s) /\ served s p r s'.

(** Calls whose answer goes to [eax]. *)
Lemma answer_ok s p c r a x z : state_ok s p -> (forall g, c <> Close g) ->
  (sv_short x = true \/ exists v', step (p_view p) c a v' /\ sv_repr x v') ->
  (forall v', step (p_view p) c a v' -> 0 <= z < 2 ^ 32 /\ sys_step p r (Some z) (with_view v' p)) ->
  quiet_body s p r (answer_eax z (set_svc x s)).
Proof.
  intros Hs Hc Ho Hstep. eexists. split; [done|]. do 4 (split; [done|]). destruct Ho as [?|(v' & Hst & Hr)]; [by left|right].
  destruct (Hstep v' Hst) as [Hz Hsys]. exists (Some z), (with_view v' p). split; [done|]. split; [by apply (state_view s p c a)|].
  cbn. apply u32_id. lia.
Qed.

Lemma same_state s p z : state_ok s p -> state_ok (set_eax z s) p.
Proof. intros [S1 S2 S3 S4 S5 S6 S7 S8]. by split. Qed.

(** No file has the number. *)
Lemma no_file_ok s p r : state_ok s p -> sys_step p r (Some (2 ^ 32 - 1)) p -> quiet_body s p r (answer_eax (-1) s).
Proof. intros Hs Hst. eexists. split; [done|]. do 4 (split; [done|]). right. eexists _, p. split; [done|]. split; [by apply same_state|done]. Qed.

Lemma user_name_ok s p va nm : state_ok s p -> uname (p_mem p) fuel va = Some nm ->
  va <> NULL /\ check_address va s = Ok (Go tt, s) /\ load_string fuel va s = Ok (nm, s).
Proof.
  intros Hs. unfold uname. destruct (Z.eqb_spec va NULL) as [|Hn]; [done|]. intros Hu. split; [done|].
  split; [|by apply (load_string_ok s (p_mem p)); [apply Hs|]]. apply (check_address_ok s (p_mem p)); [apply Hs|done|].
  destruct fuel; [done|]. cbn in Hu. by destruct (p_mem p va).
Qed.

Lemma create_body_ok s p va len nm : state_ok s p -> uname (p_mem p) fuel va = Some nm -> allowed (p_view p) (Create nm (i32 len)) ->
  quiet_body s p (RCreate nm (i32 len)) (create_body fuel [va; len] s).
Proof.
  intros Hs Hu Ha. destruct (user_name_ok s p va nm Hs Hu) as (Hn & Ec & El). unfold create_body.
  rewrite (xgo _ _ s va s), (xgo _ _ s len s) by done. rewrite (xrun _ _ s tt s Ec). rewrite (proj2 (Z.eqb_neq va NULL)) by done.
  rewrite (xrun _ _ s tt s), (xgo _ _ s nm s El) by done. destruct (serve_ok s p _ Hs Ha) as (r & x & E & Hfit & Ho). rewrite (xgo _ _ _ _ _ E).
  destruct r as [b| | | |]; try done. rewrite (xgo _ _ _ b (set_svc x s)) by done.
  by eapply (answer_ok s p (Create nm (i32 len))); try done; intros v' Hst; split; [destruct b; cbn; lia|by apply does_create].
Qed.

Lemma remove_ok s p va nm : state_ok s p -> uname (p_mem p) fuel va = Some nm -> allowed (p_view p) (Remove nm) ->
  quiet_body s p (RRemove nm) (remove_body fuel [va] s).
Proof.
  intros Hs Hu Ha. destruct (user_name_ok s p va nm Hs Hu) as (Hn & Ec & El). unfold remove_body.
  rewrite (xgo _ _ s va s) by done. rewrite (xrun _ _ s tt s Ec). rewrite (proj2 (Z.eqb_neq va NULL)) by done. cbn [negb].
  rewrite (xgo _ _ s nm s El). destruct (serve_ok s p _ Hs Ha) as (r & x & E & Hfit & Ho). rewrite (xgo _ _ _ _ _ E).
  destruct r as [b| | | |]; try done. rewrite (xgo _ _ _ b (set_svc x s)) by done.
  by eapply (answer_ok s p (Remove nm)); try done; intros v' Hst; split; [destruct b; cbn; lia|by apply does_remove].
Qed.

Lemma filesize_ok s p w : state_ok s p -> open_entry p (i32 w) -> quiet_body s p (RFilesize (i32 w)) (filesize_body [w] s).
Proof.
  intros Hs Ho. unfold filesize_body. rewrite (xgo _ _ s w s), (xgo _ _ s s s) by done. destruct (entry_of p (i32 w)) as [f|] eqn:Ef.
  - destruct (entry_lookup s p _ f Hs Ef) as [-> Ef'], (entry_open s p _ f Hs Ho Ef) as [Hn [h Hh]].
    rewrite xbind_assoc, (xgo _ _ s f s Ef'), xbind_assoc.
    destruct (sv_handle _ _ f h (st_view _ _ Hs) Hh) as (_ & _ & n & Hnd & Hlen).
    assert (serve (Length f) s = Ok (Count (zlen (contents n)), set_svc (svc s) s)) as E.
    { unfold serve. by rewrite (sv_length _ _ f h n (st_view _ _ Hs) Hh Hnd). }
    rewrite (xgo _ _ _ _ _ E). rewrite (xgo _ _ _ (zlen (contents n)) (set_svc (svc s) s)) by done.
    pose proof (step_length (p_view p) f h n Hh Hnd) as Hst. pose proof (zlen_nonneg (contents n)).
    apply (answer_ok s p (Length f) _ (Count (zlen (contents n)))); try done; [right; eexists; split; [exact Hst|apply Hs]|].
    intros v' Hv. split; [lia|]. by apply (does_filesize p _ f).
  - rewrite (entry_none s p _ Hs Ef). rewrite (xgo _ _ s (-1) s) by done. apply no_file_ok; [done|]. apply (does_no_file p _ (i32 w) Ef). by left.
Qed.

Lemma tell_ok s p w : state_ok s p -> open_entry p (i32 w) -> quiet_body s p (RTell (i32 w)) (tell_body [w] s).
Proof.
  intros Hs Ho. unfold tell_body. rewrite (xgo _ _ s w s), (xgo _ _ s s s) by done. destruct (entry_of p (i32 w)) as [f|] eqn:Ef.
  - destruct (entry_lookup s p _ f Hs Ef) as [-> Ef'], (entry_open s p _ f Hs Ho Ef) as [Hn [h Hh]].
    rewrite xbind_assoc, (xgo _ _ s f s Ef'), xbind_assoc. destruct (serve_ok s p (Tell f) Hs) as (r & x & E & Hfit & Hor); [by eexists|].
    rewrite (xgo _ _ _ _ _ E). destruct r as [| |n| |]; try done. rewrite (xgo _ _ _ n (set_svc x s)) by done.
    apply (answer_ok s p (Tell f) _ (Count n)); try done. intros v' Hv. split; [|by apply (does_tell p _ f)].
    inversion Hv as [| | | | | | | | | | | |? h' Hh'| | |]; subst. destruct (sv_handle _ _ f h' (st_view _ _ Hs) Hh') as (_ & Hp & _). lia.
  - rewrite (entry_none s p _ Hs Ef). rewrite (xgo _ _ s (-1) s) by done. apply no_file_ok; [done|]. apply (does_no_file p _ (i32 w) Ef). by right; left.
Qed.

Lemma seek_body_ok s p w pos : state_ok s p -> open_entry p (i32 w) -> 0 <= i32 pos -> quiet_body s p (RSeek (i32 w) (i32 pos)) (seek_body [w; pos] s).
Proof.
  intros Hs Ho Hp. unfold seek_body. rewrite (xgo _ _ s w s), (xgo _ _ s pos s), (xgo _ _ s s s) by done. destruct (entry_of p (i32 w)) as [f|] eqn:Ef.
  - destruct (entry_lookup s p _ f Hs Ef) as [-> Ef'], (entry_open s p _ f Hs Ho Ef) as [Hn [h Hh]]. rewrite (xgo _ _ s f s Ef').
    destruct (sv_seek _ _ f h (i32 pos) (st_view _ _ Hs) Hh) as (x & E & _ & Hr); [pose proof (i32_bound pos); lia|].
    rewrite (xgo _ _ s Done (set_svc x s)) by (unfold serve; by rewrite E). eexists. split; [done|]. do 4 (split; [done|]). right.
    pose proof (step_seek (p_view p) f h (i32 pos) Hh) as Hst. eexists None, _. split; [by apply (does_seek p _ _ f)|].
    split; [|done]. pose proof (state_view s p _ _ _ x (eax s) Hs Hst ltac:(done) Hr) as Hst'. by destruct s.
  - rewrite (entry_none s p _ Hs Ef). eexists. split; [done|]. do 4 (split; [done|]). right. exists None, p.
    split; [|done]. apply (does_no_file_quiet p _ (i32 w) Ef). right. by eexists.
Qed.

Lemma result_ok s p r z : state_ok s p -> sys_step p r (Some (u32 z)) p -> quiet_body s p r (answer_eax z s).
Proof. intros Hs Hst. eexists. split; [done|]. do 4 (split; [done|]). right. eexists _, p. split; [done|]. split; [by apply same_state|done]. Qed.

Lemma fibonacci_body_ok s p w : state_ok s p -> i32 w <= 46 -> quiet_body s p (RFibonacci (i32 w)) (fibonacci_body [w] s).
Proof.
  intros Hs Hw. unfold fibonacci_body. destruct (fibonacci_ok (i32 w) Hw) as [E Hf]. rewrite (xgo _ _ s w s) by done.
  rewrite (xgo _ _ s (fib (Z.to_nat (i32 w))) s) by (unfold lift; by rewrite E). apply result_ok; [done|]. rewrite u32_id by lia. apply does_fib.
Qed.

Lemma sum_ok s p a b c d : state_ok s p -> serves p (fun _ => true) (RSum (i32 a) (i32 b) (i32 c) (i32 d)) ->
  quiet_body s p (RSum (i32 a) (i32 b) (i32 c) (i32 d)) (sum_body [a; b; c; d] s).
Proof.
  intros Hs (H1 & H2 & H3). unfold sum_body. rewrite (xgo _ _ s a s), (xgo _ _ s b s), (xgo _ _ s c s), (xgo _ _ s d s) by done.
  rewrite (xgo _ _ s (i32 a + i32 b + i32 c + i32 d) s); [apply result_ok; [done|apply does_sum]|].
  unfold lift, int. rewrite bool_decide_true by done. cbn [res_bind]. rewrite bool_decide_true by done. cbn [res_bind]. by rewrite bool_decide_true.
Qed.

(** ** Closing *)

Lemma close_handles v f v' : step v (Close f) Done v' -> handles v' = delete f (handles v).
Proof.
  intros Hst. inversion Hst as [| | | | | | | |? h Hf| | | | | | |]; subst. unfold reclaim, without_handle. cbn.
  destruct (nodes v !! hfile h); [|done]. by case_bool_decide.
Qed.

Lemma stored_entry (l : list Z) (i : nat) f : (i < length l)%nat -> take i l ++ f :: drop (i + 1) l = <[i := f]> l.
Proof. intros Hi. rewrite insert_take_drop by done. do 2 f_equal. f_equal. lia. Qed.

(** The table has room for the entries that are in use. *)
Lemma table_room s n i : table_ok s n -> al_wf (heap s) -> 0 <= i < n -> table s <> NULL /\ i < room s.
Proof.
  intros [[-> ->]|(Hl & Hn & ->)] Hw Hi; [lia|]. split; [intros E; rewrite E in Hl; by apply (al_live_null (heap s))|].
  Z.to_euclidean_division_equations; lia.
Qed.

Lemma store_file_ok s i f : table s <> NULL -> 0 <= i < room s -> (Z.to_nat i <= length (files_table s))%nat ->
  store_file i f s = Ok (tt, set_files (take (Z.to_nat i) (files_table s) ++ f :: drop (Z.to_nat i + 1) (files_table s)) s).
Proof.
  intros Ht Hi Hl. unfold store_file. rewrite bind_get. rewrite (proj2 (Z.eqb_neq (table s) NULL)), (proj2 (Z.ltb_lt i (room s))) by (done || lia). done.
Qed.

Lemma close_ok s p w b : state_ok s p -> heap_ok s b (zlen (p_files p)) -> quiet_body s p (RClose (i32 w)) (close_body [w] s).
Proof.
  intros Hs (Hw & _ & _ & Ht). unfold close_body. rewrite (xgo _ _ s w s), (xgo _ _ s s s) by done. destruct (entry_of p (i32 w)) as [f|] eqn:Ef.
  2: { rewrite (entry_none s p _ Hs Ef). eexists. split; [done|]. do 4 (split; [done|]). right. exists None, p.
    split; [|done]. apply (does_no_file_quiet p _ (i32 w) Ef). by left. }
  destruct (entry_lookup s p _ f Hs Ef) as [-> Ef']. rewrite (xgo _ _ s f s Ef'). destruct (Z.eqb_spec f NULL) as [->|Hn]; cbn [negb].
  { eexists. split; [done|]. do 4 (split; [done|]). right. exists None, p. split; [by apply does_closed|done]. }
  assert (1 < i32 w /\ p_files p !! Z.to_nat (i32 w - 2) = Some f) as [Hgt Hf].
  { unfold entry_of in Ef. destruct (Z.ltb_spec 1 (i32 w)); done. }
  pose proof (lookup_lt_Some _ _ _ Hf) as Hlt. pose proof (i32_bound w) as Hb.
  destruct (serve_ok s p (Close f) Hs) as (r & x & E & Hfit & Ho); [by apply (st_open _ _ Hs _ f Hf)|]. destruct r; try done. rewrite (xgo _ _ _ _ _ E).
  destruct (table_room s (zlen (p_files p)) (i32 w - 2) Ht Hw) as [Htn Hroom]; [unfold zlen; lia|].
  assert (fdtable_idx (i32 w) = i32 w - 2) as -> by (unfold fdtable_idx; apply u32_id; lia).
  assert (store_file (i32 w - 2) NULL (set_svc x s) = Ok (tt, set_files (<[Z.to_nat (i32 w - 2) := NULL]> (p_files p)) (set_svc x s))) as E2.
  { rewrite store_file_ok; cbn; [|done|lia|rewrite (st_files _ _ Hs); lia]. by rewrite (st_files _ _ Hs), stored_entry by done. }
  eexists. split; [unfold go, bind; by rewrite E2|]. do 3 (split; [done|]). split; [cbn; by rewrite (st_files _ _ Hs), length_insert|].
  destruct Ho as [?|(v' & Hst & Hr)]; [by left|right]. eexists None, _. split; [by apply (does_close p _ f v')|]. split; [|done].
  destruct Hs as [S1 S2 S3 S4 S5 S6 S7 S8]. split; try done; cbn [p_files p_view].
  - cbn. rewrite S4. unfold zlen. by rewrite length_insert.
  - intros i g Hg Hgn. apply list_lookup_insert_Some in Hg as [(_ & ? & _)|(Hne & Hg)]; [congruence|].
    rewrite (close_handles _ _ _ Hst), lookup_delete_ne; [by apply (S6 i)|]. intros ->. apply Hne. by apply (S7 _ _ g).
  - intros i j g Hi Hj Hgn. apply list_lookup_insert_Some in Hi as [(_ & ? & _)|(_ & Hi)]; [congruence|].
    apply list_lookup_insert_Some in Hj as [(_ & ? & _)|(_ & Hj)]; [congruence|]. by apply (S7 i j g).
Qed.

(** ** Writing *)

Lemma user_buffer_ok s p buf size : state_ok s p -> span (p_mem p) buf size -> let l := user_buffer s buf (Z.to_nat size) in
  length l = Z.to_nat size /\ forall i b, l !! i = Some b -> p_mem p (buf + Z.of_nat i) = Some b.
Proof.
  intros Hs (_ & Hsz & Hm) l. unfold l, user_buffer. split; [rewrite length_fmap, length_seqZ; lia|]. intros i b Hi.
  apply list_lookup_fmap_Some in Hi as (z & -> & Hz). apply lookup_seqZ in Hz as [-> Hlt]. rewrite Z.add_0_l.
  destruct (Hm (Z.of_nat i)) as [c Hc]; [lia|]. destruct (mem_range s _ _ c (st_mem _ _ Hs) Hc) as [_ Hu]. by rewrite Hc, Hu.
Qed.

(** Both ends of a buffer pass the check. *)
Lemma span_checked s p buf size : state_ok s p -> span (p_mem p) buf size ->
  check_address buf s = Ok (Go tt, s) /\ check_address (u32 (buf + size)) s = Ok (Go tt, s).
Proof.
  intros Hs (Hn & Hsz & Hm). pose proof (st_mem _ _ Hs) as Hmem.
  assert (is_Some (p_mem p buf)) as Hb by (rewrite <- (Z.add_0_r buf); apply Hm; lia). destruct (Hm size) as [c Hc]; [lia|].
  destruct (mem_range s _ _ c Hmem Hc) as [Hr _]. destruct Hb as [c0 Hb]. destruct (mem_range s _ _ c0 Hmem Hb) as [Hr0 _].
  split; [by apply (check_address_ok s (p_mem p))|]. rewrite u32_id by (unfold PHYS_BASE in *; lia).
  apply (check_address_ok s (p_mem p)); [done|unfold NULL in *; lia|done].
Qed.

Lemma write_ok s p w buf size : state_ok s p -> serves p (fun _ => true) (RWrite (i32 w) buf size) ->
  quiet_body s p (RWrite (i32 w) buf size) (write_body [w; buf; size] s).
Proof.
  intros Hs (Ho & Hspan & Hby). destruct (span_checked s p buf size Hs Hspan) as [C1 C2]. pose proof Hspan as (_ & Hsz & _).
  unfold write_body. rewrite (xgo _ _ s w s), (xgo _ _ s buf s) by done. rewrite (xrun _ _ s tt s C1), (xgo _ _ s size s) by done.
  rewrite (xrun _ _ s tt s C2), (xgo _ _ s s s) by done. destruct (user_buffer_ok s p buf size Hs Hspan) as [Hl Hb].
  set (l := user_buffer s buf (Z.to_nat size)) in *. destruct (Z.eqb_spec (i32 w) 1) as [->|Hne].
  { rewrite <- Hl. rewrite xbind_assoc, (xgo _ _ s l s) by by apply (user_load_ok s (p_mem p)); [apply Hs|].
    rewrite xbind_assoc, (xgo _ _ s tt (set_console (console s ++ l) s)), (xgo _ _ _ size (set_console (console s ++ l) s)) by done.
    eexists. split; [done|]. do 4 (split; [done|]). right. eexists (Some size), _. split; [by apply (does_write_console p buf size l)|].
    destruct Hs as [S1 S2 S3 S4 S5 S6 S7 S8]. split; [split; try done; cbn; by rewrite S5|]. cbn. apply u32_id. lia. }
  destruct (entry_of p (i32 w)) as [f|] eqn:Ef.
  2: { rewrite (entry_none s p _ Hs Ef), (xgo _ _ s (-1) s) by done. apply no_file_ok; [done|]. apply (does_no_file p _ (i32 w) Ef). eauto 8. }
  destruct (entry_lookup s p _ f Hs Ef) as [-> Ef'], (entry_open s p _ f Hs Ho Ef) as [Hn Hh]. rewrite (i32_id size) by lia.
  rewrite xbind_assoc, (xgo _ _ s f s Ef'), xbind_assoc.
  assert (allowed (p_view p) (Write f l size)) as Ha.
  { split; [done|]. split; [unfold buffer_ok, zlen; lia|]. apply Forall_lookup_2. intros i b Hi. apply (Hby (Z.of_nat i)); [|by apply Hb].
    pose proof (lookup_lt_Some _ _ _ Hi). lia. }
  destruct (serve_ok s p _ Hs Ha) as (r & x & E & Hfit & Hor). rewrite (xgo _ _ _ _ _ E). destruct r as [| |n| |]; try done. cbn in Hfit.
  assert (load_bytes (Z.to_nat n) buf (set_svc x s) = Ok (take (Z.to_nat n) l, set_svc x s)) as El.
  { replace (Z.to_nat n) with (length (take (Z.to_nat n) l)) at 1 by (rewrite length_take; lia). apply (user_load_ok _ (p_mem p)); [apply Hs|].
    intros i b Hi. apply Hb. by apply lookup_take_Some in Hi as [? _]. }
  rewrite xbind_assoc, (xgo _ _ _ _ _ El), (xgo _ _ _ n (set_svc x s)) by done.
  apply (answer_ok s p (Write f l size) _ (Count n)); try done. intros v' Hv. split; [lia|]. by apply (does_write p _ buf size f l n v').
Qed.

(** ** Reading *)

Definition may_write s (va : Z) : bool := writable (vm s) (pagedir s) va.

Definition stored (va : Z) (l : list Z) (m : Z -> option Z) : Z -> option Z :=
  fun a => if bool_decide (va <= a < va + zlen l) then l !! Z.to_nat (a - va) else m a.

Lemma store_byte_ok s m va b c : memory_of s m -> m va = Some c -> may_write s va = true ->
  exists x, store_byte va b s = Ok (tt, set_vm x s) /\ memory_of (set_vm x s) (stored va [b] m) /\
    forall a, may_write (set_vm x s) a = may_write s a.
Proof.
  intros Hm Hc Hw. destruct (mem_range s m va c Hm Hc) as [Hv Hu]. destruct Hm as [Hok Hm]. unfold store_byte. rewrite bind_get.
  unfold user_byte in Hu. destruct (translate (vm s) (pagedir s) va) as [k|] eqn:Ek; [|done]. unfold may_write in Hw. rewrite Hw.
  pose proof (pg_ofs_bound va) as Hofs. pose proof (so_mapped _ _ Hok va k Hv Ek) as Hus.
  destruct (poke_space (vm s) (k - pg_ofs va) k [b]) as (x & E & Hs & Ef); [apply Hok|lia|cbn; lia|]. exists x.
  split; [unfold vms; by rewrite E|]. split; [split|].
  - by apply (same_space_ok (vm s) x (pagedir s) (k - pg_ofs va)).
  - intros a. unfold stored. cbn [vm pagedir set_vm]. rewrite Hm. unfold user_byte.
    rewrite (same_translate (vm s) x (k - pg_ofs va)), Ef by done. cbn [mem set_mem]. change (zlen [b]) with 1.
    destruct (decide (a = va)) as [->|Hne].
    + rewrite !bool_decide_true by lia. rewrite Ek, Z.sub_diag. cbn. unfold store_bytes.
      rewrite (proj2 (Z.leb_le k k)), Z.sub_diag by lia. done.
    + rewrite (bool_decide_false (va <= a < va + 1)) by lia. case_bool_decide; [|done].
      destruct (translate (vm s) (pagedir s) a) as [k'|] eqn:Ek'; [|done]. cbn. f_equal. symmetry. apply store_bytes_out. cbn. intros Hk.
      apply Hne. apply (so_inj _ _ Hok a va k); [done|done| |done]. rewrite Ek'. f_equal. lia.
  - intros a. unfold may_write, writable, walk. cbn. by rewrite (ss_tables _ _ _ Hs).
Qed.

Lemma memory_ext s m m' : memory_of s m -> (forall a, m' a = m a) -> memory_of s m'.
Proof. intros [Hok Hm] He. split; [done|]. intros va. by rewrite He. Qed.

Lemma user_store_ok l : forall s m va, memory_of s m -> (forall i, 0 <= i < zlen l -> is_Some (m (va + i)) /\ may_write s (va + i) = true) ->
  exists x, store_bytes_at va l s = Ok (tt, set_vm x s) /\ memory_of (set_vm x s) (stored va l m).
Proof.
  induction l as [|b l IH]; intros s m va Hm Hl; cbn [store_bytes_at].
  { exists (vm s). split; [by destruct s|]. assert (set_vm (vm s) s = s) as -> by by destruct s.
    apply (memory_ext s m); [done|]. intros a. unfold stored. by rewrite bool_decide_false by (unfold zlen; cbn; lia). }
  unfold zlen in Hl. cbn [length] in Hl. destruct (Hl 0) as [[c Hc] Hw]; [lia|]. rewrite Z.add_0_r in Hc, Hw.
  destruct (store_byte_ok s m va b c Hm Hc Hw) as (x & E & Hm1 & Hw1). crun E. rewrite (next_address s m va c Hm Hc).
  destruct (IH (set_vm x s) (stored va [b] m) (va + 1) Hm1) as (y & E2 & Hm2).
  { intros i Hi. unfold zlen in Hi. destruct (Hl (i + 1)) as [Hs Hw']; [lia|]. rewrite Hw1. replace (va + 1 + i) with (va + (i + 1)) by lia. split; [|done].
    unfold stored. by rewrite bool_decide_false by (unfold zlen; cbn; lia). }
  exists y. split; [done|]. apply (memory_ext _ (stored (va + 1) l (stored va [b] m))); [done|]. intros a. unfold stored, zlen. cbn [length].
  destruct (decide (a = va)) as [->|Hne].
  - rewrite (bool_decide_true (va <= va < va + Z.of_nat (S (length l)))), (bool_decide_false (va + 1 <= va < _)), (bool_decide_true (va <= va < va + _)) by lia. by rewrite Z.sub_diag.
  - case_bool_decide; [rewrite bool_decide_true by lia; replace (Z.to_nat (a - va)) with (S (Z.to_nat (a - (va + 1)))) by lia; done|].
    by rewrite !bool_decide_false by lia.
Qed.

Lemma read_data pos k (c : list Z) size : 0 <= pos -> 0 <= k <= want (zlen c) size pos -> 0 <= size ->
  let data := overlay 0 (slice pos k c) (replicate (Z.to_nat size) 0) in
  zlen (slice 0 k data) = k /\ k <= size /\ forall i, 0 <= i < k -> slice 0 k data !! Z.to_nat i = data !! Z.to_nat i.
Proof.
  intros Hp Hk Hs data. unfold want in Hk. assert (length (slice pos k c) = Z.to_nat k) as Hl.
  { unfold slice. rewrite length_take, length_drop. unfold zlen in Hk. lia. }
  assert (length data = Z.to_nat size) as Hd.
  { unfold data. rewrite length_overlay; rewrite ?length_replicate; lia. }
  split; [unfold zlen; rewrite length_slice; lia|]. split; [lia|]. intros i Hi. unfold slice at 1. cbn [Z.to_nat drop]. apply lookup_take_lt. lia.
Qed.

Lemma read_body_ok s p w buf size : state_ok s p -> serves p (may_write s) (RRead (i32 w) buf size) ->
  quiet_body s p (RRead (i32 w) buf size) (read_body [w; buf; size] s).
Proof.
  intros Hs (H0 & Ho & Hspan & Hwr). destruct (span_checked s p buf size Hs Hspan) as [C1 C2]. pose proof Hspan as (_ & Hsz & Hmem).
  unfold read_body. rewrite (xgo _ _ s w s), (xgo _ _ s buf s) by done. rewrite (xrun _ _ s tt s C1), (xgo _ _ s size s) by done.
  rewrite (xrun _ _ s tt s C2), (xgo _ _ s s s) by done. rewrite (proj2 (Z.eqb_neq (i32 w) 0)) by done.
  destruct (entry_of p (i32 w)) as [f|] eqn:Ef.
  2: { rewrite (entry_none s p _ Hs Ef), (xgo _ _ s (-1) s) by done. apply no_file_ok; [done|]. apply (does_no_file p _ (i32 w) Ef). eauto 8. }
  destruct (entry_lookup s p _ f Hs Ef) as [-> Ef'], (entry_open s p _ f Hs Ho Ef) as [Hn [h Hh]]. rewrite (i32_id size) by lia.
  rewrite xbind_assoc, (xgo _ _ s f s Ef'), xbind_assoc. destruct (sv_handle _ _ f h (st_view _ _ Hs) Hh) as (_ & Hpos & n & Hnd & _).
  destruct (sv_read _ _ f h n (replicate (Z.to_nat size) 0) size (st_view _ _ Hs) Hh Hnd) as (k & x & E & Hk & Hout & Hr).
  { unfold buffer_ok, zlen. rewrite length_replicate. lia. }
  rewrite (xgo _ _ s _ (set_svc x s)) by (unfold serve; by rewrite E). cbn [fst]. rewrite xbind_assoc.
  destruct (read_data (hpos h) k (contents n) size) as (Hz & Hle & Hlk); [lia..|]. set (data := overlay 0 _ _) in *.
  destruct (user_store_ok (slice 0 k data) (set_svc x s) (p_mem p) buf (st_mem _ _ Hs)) as (y & E2 & Hm2).
  { intros i Hi. rewrite Hz in Hi. split; [apply Hmem; lia|apply Hwr; lia]. }
  rewrite (xgo _ _ _ _ _ E2), (xgo _ _ _ k (set_vm y (set_svc x s))) by done. eexists. split; [done|]. do 4 (split; [done|]).
  destruct Hout as [Hk'|?]; [right|by left]. eexists (Some k), _.
  split; [apply (does_read p _ buf size f k data); [done|by apply (step_read (p_view p) f h n)]|]. destruct Hs as [S1 S2 S3 S4 S5 S6 S7 S8].
  split; [|cbn; apply u32_id; lia]. split; try done.
  - apply (memory_ext _ (stored buf (slice 0 k data) (p_mem p))); [done|]. intros a. cbn. unfold stored. rewrite Hz.
    case_bool_decide; [|done]. by rewrite Hlk by lia.
  - intros i g Hi Hg. cbn. apply lookup_insert_is_Some'. right. by apply (S6 i).
Qed.

(** ** Opening *)

(** The blocks in use are those before, with the table in place of the old one. *)
Definition blocks_kept s s' : Prop :=
  forall q, al_live (heap s') q <-> (q = table s' /\ q <> NULL) \/ (q <> table s /\ al_live (heap s) q).

Definition body_ok s (b : Z) (p : process) (r : request) (o : res (ctl unit * task)) : Prop :=
  exists s', o = Ok (Go tt, s') /\ heap_ok s' b (zlen (files_table s')) /\ blocks_kept s s' /\ served s p r s'.

Lemma same_blocks s s' n : al_wf (heap s) -> table_ok s n -> heap s' = heap s -> table s' = table s -> blocks_kept s s'.
Proof.
  intros Hw Ht Hh He q. rewrite Hh, He. pose proof (al_live_null (heap s) Hw) as Hnull. split.
  - intros Hq. destruct (decide (q = table s)); [left; split; [done|]|by right]. by intros ->.
  - intros [[-> Hn]|[_ ?]]; [|done]. by destruct Ht as [[? _]|[? _]].
Qed.

Lemma quiet_body_ok s b p r o : quiet_body s p r o -> heap_ok s b (zlen (files_table s)) -> body_ok s b p r o.
Proof.
  intros (s' & E & Hh & Ht & Hr & Hl & Hs) Hok. exists s'. split; [done|]. split; [unfold heap_ok, table_ok, zlen; by rewrite Hh, Ht, Hr, Hl|].
  split; [|done]. destruct Hok as (Hw & _ & _ & Hok). by apply (same_blocks s s' (zlen (files_table s))).
Qed.

(** The table can grow when it has to. *)
Definition grants_table s (h : H) : Prop := forall q h', zlen (files_table s) mod 20 = 0 ->
  al_realloc (table s) (4 * (zlen (files_table s) + 21)) h = Ok (q, h') -> q <> NULL.

Lemma grow_table_ok s b n : heap_ok s b n -> n = zlen (files_table s) -> fd s = n + 2 -> 0 <= n < 2 ^ 28 -> grants_table s (heap s) ->
  exists h q rm, grow_table s = Ok (Go tt, set_table q rm (set_heap h s)) /\
    al_wf h /\ al_live h b /\ q <> NULL /\ q <> b /\ al_live h q /\ rm = 20 * (n / 20) + 21 /\
    blocks_kept s (set_table q rm (set_heap h s)).
Proof.
  intros (Hw & Hb & Hne & Ht) En Efd Hn Hg. unfold grow_table. rewrite (xgo _ _ s s s) by done. cbv zeta. rewrite Efd. replace (n + 2 - 2) with n by lia. rewrite Z.rem_mod_nonneg by lia.
  destruct (Z.eqb_spec (n mod 20) 0) as [Hm|Hm].
  - assert (u32 (fdtable_size (n + 2) + 20) = n + 21) as -> by (unfold fdtable_size; rewrite (u32_id (n + 2 - 1)), u32_id by lia; lia).
    rewrite u32_id by lia. assert (table s = NULL \/ al_live (heap s) (table s)) as Hold by (destruct Ht as [[-> _]|(? & _)]; auto).
    destruct (al_realloc_ok (heap s) (table s) (4 * (n + 21)) Hw Hold ltac:(lia)) as (q & h & E & Hw' & Hq). rewrite En in E, Hm.
    pose proof (Hg q h Hm E) as Hnn. destruct Hq as [[? _]|(_ & Hnew & Hlive)]; [done|]. rewrite <- En in *. exists h, q, (n + 21).
    split; [rewrite (xgo _ _ s q (set_heap h s)) by (unfold heaps; by rewrite E); done|]. split; [done|].
    split; [apply Hlive; right; done|]. split; [done|]. split; [by intros ->|]. split; [apply Hlive; by left|].
    split; [Z.to_euclidean_division_equations; lia|]. intros x. cbn. rewrite Hlive. split; [|tauto]. intros [->|?]; [by left|by right].
  - exists (heap s), (table s), (room s). split; [by destruct s|]. pose proof Ht as Ht'. destruct Ht as [[_ Hz]|(Hl & Hpos & Hr)]; [by rewrite Hz in Hm|].
    split; [done|]. split; [done|]. split; [intros E; rewrite E in Hl; by apply (al_live_null (heap s))|]. split; [done|]. split; [done|].
    split; [rewrite Hr; Z.to_euclidean_division_equations; lia|]. by apply (same_blocks s _ n).
Qed.

(** The new entry is the only one for its handle. *)
Lemma opened_state s s' p nm f v' : state_ok s p -> step (p_view p) (Open nm) (Opened f) v' -> f <> NULL -> sv_repr (svc s') v' ->
  vm s' = vm s -> pagedir s' = pagedir s -> console s' = console s -> name s' = name s -> strings s' = strings s -> files_table s' = p_files p ++ [f] -> fd s' = zlen (p_files p) + 2 ->
  state_ok s' (Process (p_mem p) (p_files p ++ [f]) v' (p_console p) (p_name p)).
Proof.
  intros [S1 S2 S3 S4 S5 S6 S7 S8] Hst Hf Hr Ev Ep Ec En Est El Efd.
  assert (handles (p_view p) !! f = None /\ forall g, is_Some (handles v' !! g) <-> g = f \/ is_Some (handles (p_view p) !! g)) as [Hnew Hh].
  { inversion Hst as [| | | | |? sec ? Hnm _ Hn|? Hnm| | | | | | | | |]; subst; [|done]. split; [done|]. intros g. cbn.
    destruct (decide (g = f)) as [->|]; [rewrite lookup_insert_eq; split; eauto|]. rewrite lookup_insert_ne by done. split; [eauto|]. by intros [?|?]. }
  assert (forall i g, (p_files p ++ [f]) !! i = Some g -> g <> NULL -> (g = f /\ i = length (p_files p)) \/ (g <> f /\ p_files p !! i = Some g)) as Hcase.
  { intros i g Hi Hg. apply lookup_app_Some in Hi as [Hi|[Hlen Hi]].
    - right. split; [|done]. intros ->. pose proof (S6 i f Hi Hf) as Hx. rewrite Hnew in Hx. by destruct Hx.
    - apply list_lookup_singleton_Some in Hi as [Hz ->]. left. split; [done|lia]. }
  split; try done.
  - unfold memory_of. rewrite Ev, Ep. apply S1.
  - cbn. rewrite Efd. unfold zlen. rewrite length_app. cbn. lia.
  - cbn. congruence.
  - intros i g Hi Hg. apply Hh. destruct (Hcase i g Hi Hg) as [[-> _]|[_ Hi']]; [by left|right; by apply (S6 i)].
  - intros i j g Hi Hj Hg. destruct (Hcase i g Hi Hg) as [[-> ->]|[Hne Hi']], (Hcase j _ Hj Hg) as [[? ->]|[? Hj']]; try done. by apply (S7 i j g).
  - cbn. by rewrite En, Est.
Qed.

Lemma open_ok s p va nm b : state_ok s p -> heap_ok s b (zlen (files_table s)) -> uname (p_mem p) fuel va = Some nm ->
  allowed (p_view p) (Open nm) -> zlen (p_files p) < 2 ^ 28 -> grants_table s (heap s) -> body_ok s b p (ROpen nm) (open_body fuel [va] s).
Proof.
  intros Hs Hh Hu Ha Hsz Hg. destruct (user_name_ok s p va nm Hs Hu) as (Hn & Ec & El). unfold open_body.
  rewrite (xgo _ _ s va s) by done. rewrite (xrun _ _ s tt s Ec). rewrite (proj2 (Z.eqb_neq va NULL)) by done.
  rewrite (xrun _ _ s tt s), (xgo _ _ s nm s El) by done. destruct (serve_ok s p _ Hs Ha) as (r & x & E & Hfit & Ho). rewrite (xgo _ _ _ _ _ E).
  destruct r as [|f| | |]; try done. rewrite (xgo _ _ _ f (set_svc x s)) by done. destruct (Z.eqb_spec f NULL) as [->|Hf]; cbn [negb].
  { exists (set_eax (2 ^ 32 - 1) (set_svc x s)). split; [done|]. split; [done|]. split; [apply (same_blocks s _ (zlen (files_table s))); done || apply Hh|]. destruct Ho as [?|(v' & Hst & Hr)]; [by left|right].
    eexists _, _. split; [by apply (does_open_none p nm v')|]. split; [by apply (state_view s p (Open nm) (Opened NULL))|done]. }
  pose proof (st_fd _ _ Hs) as Efd. pose proof (zlen_nonneg (p_files p)) as Hz. set (n := zlen (p_files p)) in *.
  assert (i32 (fd (set_svc x s) + 1) = n + 2) as Efd' by (cbn; rewrite Efd, i32_id by lia; lia).
  set (s1 := set_fd (n + 2) (set_svc x s)).
  rewrite (xgo _ _ _ tt s1) by (unfold modify; by rewrite Efd'). rewrite (xgo _ _ s1 s1 s1) by done.
  assert (n = zlen (files_table s1)) as En by (unfold s1, n; cbn; by rewrite (st_files _ _ Hs)).
  destruct (grow_table_ok s1 b n) as (h & q & rm & Eg & Hw' & Hb' & Hq & Hqb & Hql & Hrm & Hbl); [by rewrite En|done|done|lia|done|].
  rewrite (xrun _ _ s1 tt _ Eg). change (fd s1) with (n + 2). assert (fdtable_idx (n + 2) = n) as -> by (unfold fdtable_idx; rewrite u32_id by lia; lia).
  set (s2 := set_table q rm (set_heap h s1)) in *. assert (files_table s2 = p_files p) as Ef2 by by rewrite <- (st_files _ _ Hs).
  assert (store_file n f s2 = Ok (tt, set_files (p_files p ++ [f]) s2)) as E2.
  { rewrite store_file_ok; [|done|change (room s2) with rm; rewrite Hrm; Z.to_euclidean_division_equations; lia|rewrite Ef2; unfold n, zlen; lia].
    rewrite Ef2. unfold n, zlen. rewrite Nat2Z.id, firstn_all, drop_ge by lia. done. }
  rewrite (xgo _ _ _ _ _ E2). exists (set_eax (u32 (n + 2)) (set_files (p_files p ++ [f]) s2)). split; [done|].
  assert (zlen (p_files p ++ [f]) = n + 1) as El' by (unfold n, zlen; rewrite length_app; cbn; lia). split.
  { unfold heap_ok. cbn -[zlen]. split; [done|]. split; [done|]. split; [done|]. right. rewrite El'. cbn -[zlen]. split; [done|]. split; [lia|].
    rewrite Hrm. do 3 f_equal. lia. }
  split; [exact Hbl|]. destruct Ho as [?|(v' & Hst & Hr)]; [by left|right]. exists (Some (n + 2)), (Process (p_mem p) (p_files p ++ [f]) v' (p_console p) (p_name p)).
  split; [by apply (does_open p nm f v')|]. split; [|cbn; apply u32_id; lia]. by apply (opened_state s _ p nm).
Qed.

(** ** Exiting *)

(** The name, [: exit(], the status in decimal, [)] and a new line. *)
Definition exit_text (nm : list Z) (v : Z) : list Z :=
  nm ++ [58; 32; 101; 120; 105; 116; 40] ++ (if v <? 0 then [45] else []) ++ ((fun d => d + 48) <$> decimals (Z.abs v)) ++ [41; 10].

Lemma plain_string a (l : list Z) : directive_text (Text plain a l) = l.
Proof. cbn. unfold string_text. cbn. replace (Z.to_nat _) with 0%nat by lia. cbn. by rewrite app_nil_r. Qed.

Lemma print_exit_ok s p w : state_ok s p -> 0 <= w < 2 ^ 32 ->
  print_exit w s = Ok (tt, set_console (p_console p ++ exit_text (p_name p) (i32 w)) s).
Proof.
  intros Hs Hw. unfold print_exit. rewrite bind_get. destruct (st_name _ _ Hs) as (Hn & Hc & Hl). pose proof (i32_bound w) as Hb.
  set (ds := Text plain (name s) (p_name p) :: (Literal <$> [58; 32; 101; 120; 105; 116; 40]) ++ Signed plain 100 (i32 w) :: [Literal 41; Literal 10]).
  assert (Forall (directive_ok (strings s)) ds) as Hok.
  { repeat constructor; try done; cbn; try lia. by rewrite (proj2 (Z.eqb_neq (name s) NULL)) by (unfold NULL; lia). }
  assert (u32 (i32 w) = w) as Eu.
  { unfold swrap, uwrap. Z.to_euclidean_division_equations. lia. }
  assert ((ds ≫= directive_words) = [name s; w]) as Ew by (cbn; by rewrite Eu).
  pose proof (directives_text _ ds Hok) as E. rewrite Ew in E. change (ds ≫= directive_format) with exit_format in E.
  assert ((ds ≫= directive_text) = exit_text (p_name p) (i32 w)) as Et.
  { unfold ds. rewrite bind_cons, bind_app, bind_cons, signed_text, plain_string by lia. unfold exit_text. by rewrite <- !app_assoc. }
  rewrite Et in E. unfold lift at 1, bind. rewrite E. cbn. by rewrite (st_console _ _ Hs).
Qed.

(** ** The handler *)

(** The heap has room for what [r] needs. *)
Definition granted s (r : request) : Prop :=
  match r with
  | RHalt | RNothing => True
  | ROpen _ => grants 4 (heap s) /\ forall b h, al_malloc 4 (heap s) = Ok (b, h) -> grants_table s h
  | _ => grants (4 * argc r) (heap s)
  end.

(** What the handler leaves behind. *)
Definition handled s (p : process) (r : request) (c : ctl unit) s' : Prop :=
  match c with
  | Go _ => served s p r s' /\ al_wf (heap s') /\ table_ok s' (zlen (files_table s')) /\ blocks_kept s s'
  | Stop Exited => exists st, r = RExit st /\ exit_status s' = st /\ console s' = p_console p ++ exit_text (p_name p) (i32 st)
  | Stop Halted => r = RHalt /\ s' = s
  | _ => False
  end.

Lemma state_heap s p h : state_ok s p -> state_ok (set_heap h s) p.
Proof. intros [S1 S2 S3 S4 S5 S6 S7 S8]. by split. Qed.

Lemma block_heap_ok s n b s1 : with_block s n b s1 -> table_ok s (zlen (files_table s)) -> heap_ok s1 b (zlen (files_table s1)).
Proof.
  intros (h & -> & _ & Hw & Hn & Hnew & Hl) Ht. split; [done|]. split; [apply Hl; by left|]. split.
  - cbn. intros E. destruct Ht as [[E' _]|[Hlt _]]; congruence.
  - destruct Ht as [?|(Hlt & ?)]; [by left|right]. split; [|done]. apply Hl. by right.
Qed.

(** The frame around a body. *)
Lemma with_body_ok s p num esp n l (body : list Z -> X unit) r : state_ok s p -> al_wf (heap s) -> table_ok s (zlen (files_table s)) ->
  sys_argv_num !! Z.to_nat num = Some n -> 0 <= n <= 4 -> 0 <= esp -> uwords (p_mem p) (Z.to_nat n) (esp + 4) = Some l -> grants (4 * n) (heap s) ->
  (forall b s1, with_block s n b s1 -> state_ok s1 p -> heap_ok s1 b (zlen (files_table s1)) -> body_ok s1 b p r (body l s1)) ->
  exists c s', with_args num esp body s = Ok (c, s') /\ handled s p r c s'.
Proof.
  intros Hs Hw Ht Hn Hr Hesp Hl Hg Hbody.
  destruct (with_args_ok s (p_mem p) num esp n l body (st_mem _ _ Hs) Hw Hn Hr Hesp Hl Hg) as (b & s1 & Hb & E).
  pose proof (block_heap_ok s n b s1 Hb Ht) as Hh. pose proof Hb as (h1 & -> & _ & _ & Hbn & Hnew & Hl1).
  destruct (Hbody b _ Hb (state_heap s p h1 Hs) Hh) as (s2 & E2 & (Hw2 & Hb2 & Hne & Ht2) & Hbl & Hsv). rewrite E2 in E.
  destruct (E Hw2 Hb2) as (h & -> & Hwh & Hlh). exists (Go tt), (set_heap h s2). split; [done|]. split; [|split; [done|split]].
  - destruct Hsv as [?|(e & p' & Hst & Hs' & He)]; [by left|right]. exists e, p'. split; [done|]. split; [by apply state_heap|done].
  - destruct Ht2 as [?|(? & ?)]; [by left|right]. split; [by apply Hlh|done].
  - intros q. cbn. rewrite Hlh, (Hbl q). cbn. rewrite (Hl1 q). split; [tauto|]. intros [[-> ?]|[? Hq]]; [tauto|]. split; [by intros ->|tauto].
Qed.

Lemma exit_ok s p num esp w : state_ok s p -> al_wf (heap s) -> sys_argv_num !! Z.to_nat num = Some 1 -> 0 <= esp ->
  uwords (p_mem p) 1 (esp + 4) = Some [w] -> 0 <= w < 2 ^ 32 -> grants 4 (heap s) ->
  exists c s', sys_exit num esp s = Ok (c, s') /\ handled s p (RExit w) c s'.
Proof.
  intros Hs Hw Hn Hesp Hl Hr Hg.
  destruct (with_args_ok s (p_mem p) num esp 1 [w] exit_body (st_mem _ _ Hs) Hw Hn ltac:(lia) Hesp Hl Hg) as (b & s1 & (h & -> & _) & E).
  set (s1 := set_exit_status w (set_heap h s)).
  assert (state_ok s1 p) as Hs1 by (destruct Hs as [S1 S2 S3 S4 S5 S6 S7 S8]; by split).
  assert (exit_body [w] (set_heap h s) = Ok (Stop Exited, set_console (p_console p ++ exit_text (p_name p) (i32 w)) s1)) as Eb.
  { unfold exit_body. rewrite (xgo _ _ _ w (set_heap h s)), (xgo _ _ _ tt s1) by done. by rewrite (xgo _ _ _ _ _ (print_exit_ok s1 p w Hs1 Hr)). }
  rewrite Eb in E. eexists _, _. split; [exact E|]. by exists w.
Qed.

(** *** Requests *)

Lemma request_number m num args r : request_of m fuel num args = Some r -> 0 <= num <= 21.
Proof. unfold request_of. destruct num as [|q|q]; [lia| |done]. do 5 (destruct q as [q|q|]; try done; try lia). Qed.

Lemma decode_parts s p esp r : state_ok s p -> decode (p_mem p) fuel esp = Some r -> exists num n args,
  0 <= esp /\ esp <> NULL /\ uword (p_mem p) esp = Some num /\ is_Some (p_mem p esp) /\ sys_argv_num !! Z.to_nat num = Some n /\ 0 <= num <= 21 /\ 0 <= n <= 4 /\
  uwords (p_mem p) (Z.to_nat n) (esp + 4) = Some args /\ request_of (p_mem p) fuel num args = Some r.
Proof.
  intros Hs. unfold decode. destruct (uword (p_mem p) esp) as [num|] eqn:Eu; [|done]. cbn [mbind option_bind].
  destruct (sys_argv_num !! Z.to_nat num) as [n|] eqn:En; [|done]. cbn [mbind option_bind].
  destruct (uwords _ _ _) as [args|] eqn:Ea; [|done]. cbn [mbind option_bind]. intros Er. exists num, n, args.
  destruct (uword_range s _ _ _ (st_mem _ _ Hs) Eu) as (Hn & Hm & Hr). pose proof (request_number _ _ _ _ Er) as Hnum.
  assert (0 <= n <= 4); [|by split_and!; try done; lia].
  assert (Forall (fun n => 0 <= n <= 4) sys_argv_num) as Hall by (repeat constructor; lia). by apply (proj1 (Forall_lookup _ _) Hall _ n En).
Qed.

(** The number and the arguments of a request. *)
Lemma request_parts m num args r : request_of m fuel num args = Some r ->
  match r with
  | RHalt => num = 0 /\ args = []
  | RExit st => num = 1 /\ args = [st]
  | RCreate nm len => exists va l, num = 4 /\ args = [va; l] /\ uname m fuel va = Some nm /\ len = i32 l
  | RRemove nm => exists va, num = 5 /\ args = [va] /\ uname m fuel va = Some nm
  | ROpen nm => exists va, num = 6 /\ args = [va] /\ uname m fuel va = Some nm
  | RFilesize fd => exists w, num = 7 /\ args = [w] /\ fd = i32 w
  | RRead fd buf size => exists w, num = 8 /\ args = [w; buf; size] /\ fd = i32 w
  | RWrite fd buf size => exists w, num = 9 /\ args = [w; buf; size] /\ fd = i32 w
  | RSeek fd pos => exists w l, num = 10 /\ args = [w; l] /\ fd = i32 w /\ pos = i32 l
  | RTell fd => exists w, num = 11 /\ args = [w] /\ fd = i32 w
  | RClose fd => exists w, num = 12 /\ args = [w] /\ fd = i32 w
  | RNothing => 13 <= num <= 19
  | RFibonacci n => exists w, num = 20 /\ args = [w] /\ n = i32 w
  | RSum a b c d => exists w x y z, num = 21 /\ args = [w; x; y; z] /\ a = i32 w /\ b = i32 x /\ c = i32 y /\ d = i32 z
  end.
Proof.
  intros Er. pose proof (request_number _ _ _ _ Er) as Hn.
  assert (num ∈ seqZ 0 22) as Hin by (apply elem_of_seqZ; lia). change (seqZ 0 22) with (Z.of_nat <$> seq 0 22) in Hin. cbn in Hin.
  repeat (apply elem_of_cons in Hin as [->|Hin]); [..|by apply not_elem_of_nil in Hin].
  all: cbn in Er; try (injection Er as <-; lia); do 5 (try destruct args as [|? args]; try done); simplify_option_eq; eauto 10.
Qed.

Lemma arguments_length m n : forall va l, uwords m n va = Some l -> length l = n.
Proof.
  induction n as [|n IH]; intros va l; cbn [uwords]; [by intros [= <-]|]. destruct (uword m va); [|done]. cbn.
  destruct (uwords m n (va + 4)) as [l'|] eqn:E; [|done]. intros [= <-]. cbn. by rewrite (IH _ _ E).
Qed.

(** The bodies, by request. *)
Definition body_of (r : request) : option (list Z -> X unit) :=
  match r with
  | RCreate _ _ => Some (create_body fuel)
  | RRemove _ => Some (remove_body fuel)
  | ROpen _ => Some (open_body fuel)
  | RFilesize _ => Some filesize_body
  | RRead _ _ _ => Some read_body
  | RWrite _ _ _ => Some write_body
  | RSeek _ _ => Some seek_body
  | RTell _ => Some tell_body
  | RClose _ => Some close_body
  | RFibonacci _ => Some fibonacci_body
  | RSum _ _ _ _ => Some sum_body
  | _ => None
  end.

(** Each body serves its requests. *)
Lemma body_serves s p num args r body n b s1 : state_ok s1 p -> heap_ok s1 b (zlen (files_table s1)) -> with_block s n b s1 -> argc r = n ->
  request_of (p_mem p) fuel num args = Some r -> body_of r = Some body -> serves p (may_write s) r -> granted s r -> body_ok s1 b p r (body args s1).
Proof.
  intros Hs Hh (h & -> & Em & _) <- Er%request_parts Hbody Hsv Hg. pose proof Hh as Hh'. rewrite (st_files _ _ Hs) in Hh'.
  destruct r as [|st|nm len|nm|nm|k|k buf size|k buf size|k pos|k|k| |k|k l m o]; try done; injection Hbody as <-.
  - destruct Er as (va & l & _ & -> & Hu & ->). apply quiet_body_ok; [|done]. by apply create_body_ok.
  - destruct Er as (va & _ & -> & Hu). apply quiet_body_ok; [|done]. by apply remove_ok.
  - destruct Er as (va & _ & -> & Hu). destruct Hsv as [Ha Hz], Hg as [_ Hg]. apply open_ok; try done. by apply (Hg b).
  - destruct Er as (w & _ & -> & ->). apply quiet_body_ok; [|done]. by apply filesize_ok.
  - destruct Er as (w & _ & -> & ->). apply quiet_body_ok; [|done]. by apply read_body_ok.
  - destruct Er as (w & _ & -> & ->). apply quiet_body_ok; [|done]. by apply write_ok.
  - destruct Er as (w & l & _ & -> & -> & ->). destruct Hsv. apply quiet_body_ok; [|done]. by apply seek_body_ok.
  - destruct Er as (w & _ & -> & ->). apply quiet_body_ok; [|done]. by apply tell_ok.
  - destruct Er as (w & _ & -> & ->). apply quiet_body_ok; [|done]. by apply (close_ok _ p w b).
  - destruct Er as (w & _ & -> & ->). apply quiet_body_ok; [|done]. by apply fibonacci_body_ok.
  - destruct Er as (w & x & y & z & _ & -> & -> & -> & -> & ->). apply quiet_body_ok; [|done]. by apply sum_ok.
Qed.

(** The handler of a request is the frame around its body. *)
Lemma request_handler m num args r body n : request_of m fuel num args = Some r -> body_of r = Some body -> sys_argv_num !! Z.to_nat num = Some n ->
  argc r = n /\ sys_handlers fuel !! Z.to_nat num = Some (fun num esp => with_args num esp body).
Proof.
  intros Er%request_parts Hb Hn. destruct r; try done; injection Hb as <-; repeat destruct Er as [? Er]; subst num; injection Hn as <-; done.
Qed.

Lemma granted_args s r body : body_of r = Some body -> granted s r -> grants (4 * argc r) (heap s).
Proof. intros Hb Hg. by destruct r; try apply Hg. Qed.


(** ** Bad pointers *)

Definition bad (va : Z) : Prop := va = NULL \/ PHYS_BASE <= va < 2 ^ 32.

(** The argument that has to be a pointer. *)
Definition pointer_arg (num : Z) (args : list Z) : option Z :=
  if bool_decide (num ∈ [2; 4; 5; 6]) then args !! 0%nat else if bool_decide (num ∈ [8; 9]) then args !! 1%nat else None.

Definition killed s (p : process) : task := set_console (p_console p ++ exit_text (p_name p) (-1)) (set_exit_status (2 ^ 32 - 1) s).

Lemma check_bad s p va : state_ok s p -> bad va -> check_address va s = Ok (Stop Exited, killed s p).
Proof.
  intros Hs Hb. assert (forall A, @terminate_process F H A s = Ok (Stop Exited, killed s p)) as Ht.
  { intros A. unfold terminate_process. change (u32 (-1)) with (2 ^ 32 - 1). rewrite (xgo _ _ s tt (set_exit_status (2 ^ 32 - 1) s)) by done.
    assert (state_ok (set_exit_status (2 ^ 32 - 1) s) p) as Hs1 by (destruct Hs as [S1 S2 S3 S4 S5 S6 S7 S8]; by split).
    by rewrite (xgo _ _ _ _ _ (print_exit_ok _ p (2 ^ 32 - 1) Hs1 ltac:(lia))). }
  unfold check_address, is_kernel_vaddr. destruct Hb as [->|Hb]; [|by rewrite (proj2 (Z.leb_le _ _)) by lia]. rewrite (proj2 (Z.leb_gt _ _)) by done.
  destruct (so_dir _ _ (proj1 (st_mem _ _ Hs))) as [es Hd].
  assert (exists b, vms (fun pd => pagedir_is_mapped pd NULL) s = Ok (b, s)) as [b E].
  { unfold vms, pagedir_is_mapped. destruct (lookup_page_ok (vm s) (pagedir s) es NULL Hd ltac:(done)) as [[_ E]|(pt & ts & e & _ & E & _)]; rewrite bind_ok with (1 := E); by eexists; destruct s. }
  rewrite (xgo _ _ s b s E). rewrite orb_true_r. apply Ht.
Qed.

Lemma pointer_body p num n args va : sys_argv_num !! Z.to_nat num = Some n -> length args = Z.to_nat n -> pointer_arg num args = Some va -> bad va ->
  exists body, sys_handlers fuel !! Z.to_nat num = Some (fun num esp => with_args num esp body) /\ 0 <= n <= 4 /\
    forall s, state_ok s p -> body args s = Ok (Stop Exited, killed s p).
Proof.
  intros En Hl Hp Hb. unfold pointer_arg in Hp. destruct (bool_decide_reflect (num ∈ [2; 4; 5; 6])) as [Hin|_].
  - repeat (apply elem_of_cons in Hin as [->|Hin]); [..|by apply not_elem_of_nil in Hin]; injection En as <-;
      repeat (destruct args as [|? args]; try done); injection Hp as ->; (eexists; split; [done|]); (split; [lia|]); intros s Hs.
    + unfold exec_body. rewrite (xgo _ _ s va s) by done. by rewrite (xstop _ _ s _ _ (check_bad s p va Hs Hb)).
    + unfold create_body. rewrite (xgo _ _ s va s), (xgo _ _ s _ s eq_refl) by done. by rewrite (xstop _ _ s _ _ (check_bad s p va Hs Hb)).
    + unfold remove_body. rewrite (xgo _ _ s va s) by done. by rewrite (xstop _ _ s _ _ (check_bad s p va Hs Hb)).
    + unfold open_body. rewrite (xgo _ _ s va s) by done. by rewrite (xstop _ _ s _ _ (check_bad s p va Hs Hb)).
  - destruct (bool_decide_reflect (num ∈ [8; 9])) as [Hin|_]; [|done].
    repeat (apply elem_of_cons in Hin as [->|Hin]); [..|by apply not_elem_of_nil in Hin]; injection En as <-;
      repeat (destruct args as [|? args]; try done); injection Hp as ->; (eexists; split; [done|]); (split; [lia|]); intros s Hs.
    + unfold read_body. rewrite (xgo _ _ s _ s eq_refl), (xgo _ _ s va s) by done. by rewrite (xstop _ _ s _ _ (check_bad s p va Hs Hb)).
    + unfold write_body. rewrite (xgo _ _ s _ s eq_refl), (xgo _ _ s va s) by done. by rewrite (xstop _ _ s _ _ (check_bad s p va Hs Hb)).
Qed.

(** C18: A pointer that is null or points into the kernel ends the process, for the stack pointer as well as for a name, a
    command line or a buffer: no handler follows it.  The exit status is -1, the message is printed, and the memory,
    the files and the file system are as before. *)
Theorem syscall_bad_pointer s p esp : state_ok s p -> al_wf (heap s) ->
  bad esp \/ (exists num n args va, uword (p_mem p) esp = Some num /\ sys_argv_num !! Z.to_nat num = Some n /\ grants (4 * n) (heap s) /\
    uwords (p_mem p) (Z.to_nat n) (esp + 4) = Some args /\ pointer_arg num args = Some va /\ bad va) ->
  exists h, syscall_handler fuel esp s = Ok (Stop Exited, killed (set_heap h s) p).
Proof.
  intros Hs Hw [Hb|(num & n & args & va & Eu & En & Hg & Ea & Ep & Hb)].
  { exists (heap s). unfold syscall_handler. rewrite (xstop _ _ s _ _ (check_bad s p esp Hs Hb)). by destruct s. }
  destruct (uword_range s _ _ _ (st_mem _ _ Hs) Eu) as (Hne & Hm & Hr). pose proof (st_mem _ _ Hs) as Hmem.
  unfold syscall_handler. rewrite (xrun _ _ s tt s) by by apply (check_address_ok s (p_mem p)).
  rewrite (xgo _ _ s num s) by by apply (load_word_ok s (p_mem p)).
  destruct (pointer_body p num n args va En (arguments_length _ _ _ _ Ea) Ep Hb) as (body & -> & Hn & Hbody).
  destruct (with_args_ok s (p_mem p) num esp n args body Hmem Hw En Hn ltac:(lia) Ea Hg) as (b & s1 & (h & -> & _) & E).
  rewrite (Hbody _ (state_heap s p h Hs)) in E. by exists h.
Qed.

End Refinement.

(** ** A program that reads from its executable *)

Module Demo.

Import FsTheorems.Demo.
#[local] Existing Instance disk_device.
#[local] Instance files0 : FileService fs := filesys_service uninit uninit_bytes.

Definition dir : Z := Pagedir.Demo.dir.
Definition buffer : Z := PHYS_BASE - 4096.
Definition stack : Z := PHYS_BASE - 16.

(** The user stack holds [read (2, buffer, 16)]. *)
Definition words : list Z := le32 8 ++ le32 2 ++ le32 buffer ++ le32 16.

Definition vm_of {A : Type} (r : res (A * mmu)) : mmu := match r with Ok (_, s) => s | _ => Pagedir.Demo.boot2 end.
Definition stack0 : mmu := vm_of (setup_stack dir Pagedir.Demo.boot2).
Definition frame0 : Z := default 0 (translate stack0 dir buffer).
Definition memory0 : mmu := vm_of (poke (frame0 + 4080) words stack0).

Definition heap_of {A : Type} (r : res (A * Malloc.heap)) : Malloc.heap := match r with Ok (_, s) => s | _ => small_heap end.
Definition table0 : Z := default 0 (address (malloc 84 small_heap)).
Definition heap0 : Malloc.heap := heap_of (malloc 84 small_heap).

Definition name0 : list Z := [97; 98].
Definition task0 : @task fs Malloc.heap :=
  Task memory0 dir Loader.Demo.ready0 heap0 2 table0 21 [Loader.Demo.handle0] 0 0 [] [] 1000 (CString.Demo.write 1000 name0 ∅).

Definition view_memory (va : Z) : option Z := if bool_decide (0 <= va < PHYS_BASE) then user_byte memory0 dir va else None.
Definition process0 (v : view) : process := Process view_memory [Loader.Demo.handle0] v [] name0.

Lemma memory0_space : space_ok memory0 dir.
Proof.
  destruct (setup_stack_ok Pagedir.Demo.boot2 dir (proj1 Uspace.Demo.boot2_space)) as (r & s1 & E & Hok & _).
  unfold memory0. assert (stack0 = s1) as -> by (unfold stack0; by rewrite E).
  destruct (poke_space s1 frame0 (frame0 + 4080) words (mw_pools _ (so_mmu _ _ Hok))) as (s2 & E2 & Hs & _); [lia|by_compute|].
  rewrite E2. by apply (same_space_ok s1 s2 dir frame0).
Qed.

(** The heap with the block of the table. *)
Lemma heap0_ok : al_wf heap0 /\ al_live heap0 table0.
Proof.
  pose proof small_heap_wf as Hwf. destruct (@al_malloc_ok _ malloc_allocator 84 small_heap Hwf ltac:(lia)) as (q & h & E & Hw & Hq).
  assert (q <> NULL) as Hn.
  { assert (bool_decide (address (al_malloc 84 small_heap) = Some NULL) = false) as Hb by (vm_compute; reflexivity).
    rewrite E in Hb. intros ->. vm_compute in Hb. discriminate Hb. }
  destruct Hq as [[Hq _]|(_ & _ & Hl)]; [destruct (Hn Hq)|]. change (malloc 84 small_heap = Ok (q, h)) in E.
  unfold heap0, table0. rewrite E. split; [exact Hw|]. apply Hl. left. reflexivity.
Qed.

Lemma one_file f0 h (m : gmap Z handle) : m = {[f0 := h]} ->
  (forall i f, [f0] !! i = Some f -> is_Some (m !! f)) /\ forall i j f, [f0] !! i = Some f -> [f0] !! j = Some f -> i = j.
Proof.
  intros ->. split; [intros i f [_ <-]%list_lookup_singleton_Some; rewrite lookup_singleton_eq; by eexists|].
  intros i j f [-> _]%list_lookup_singleton_Some [-> _]%list_lookup_singleton_Some. done.
Qed.

Lemma task0_ok v sec : represented Loader.Demo.ready0 v -> handles v = {[Loader.Demo.handle0 := Handle sec 0 false]} -> state_ok task0 (process0 v).
Proof.
  intros Hr Hh. split.
  - split; [exact memory0_space|reflexivity].
  - exact Hr.
  - reflexivity.
  - reflexivity.
  - reflexivity.
  - exact (fun i f Hf _ => proj1 (one_file _ _ _ Hh) i f Hf).
  - exact (fun i j f Hi Hj _ => proj2 (one_file _ _ _ Hh) i j f Hi Hj).
  - by_compute.
Qed.

Lemma each_address (P : Z -> bool) a n : forallb P (seqZ a n) = true -> forall x, a <= x < a + n -> P x = true.
Proof. intros Hall x Hx. apply (proj1 (forallb_forall P _) Hall). apply list_elem_of_In, elem_of_seqZ. lia. Qed.

Lemma buffer_span : span view_memory buffer 16.
Proof.
  assert (forallb (fun va => bool_decide (is_Some (view_memory va))) (seqZ buffer 17) = true) as Hall by (vm_compute; reflexivity).
  split; [by_compute|]. split; [lia|]. intros i Hi. pose proof (each_address _ _ _ Hall (buffer + i) ltac:(lia)) as Hb.
  exact (bool_decide_unpack _ (Is_true_true_2 _ Hb)).
Qed.

Lemma buffer_writable i : 0 <= i < 16 -> may_write task0 (buffer + i) = true.
Proof.
  intros Hi. assert (forallb (may_write task0) (seqZ buffer 16) = true) as Hall by (vm_compute; reflexivity).
  apply (each_address _ _ _ Hall). lia.
Qed.

Lemma some_other (a b : Z) : a <> b -> Some a <> Some b.
Proof. congruence. Qed.

Lemma arguments_granted : grants 12 heap0.
Proof.
  intros q h E. assert (match al_malloc 12 heap0 with Ok (q, _) => q =? NULL | _ => true end = false) as Hb by (vm_compute; reflexivity).
  rewrite E in Hb. by apply Z.eqb_neq.
Qed.

Definition answered (r : res (ctl unit * @task fs Malloc.heap)) : bool :=
  match r with
  | Ok (Go _, s) => negb (sv_short (svc s)) && (eax s =? 16) && bool_decide (user_byte (vm s) dir (buffer + 1) = Some 0x45)
  | _ => false
  end.


Lemma syscall_bad_pointer_witness : exists h, syscall_handler 64 PHYS_BASE task0 = Ok (Stop Exited, set_heap h
  (set_console [97; 98; 58; 32; 101; 120; 105; 116; 40; 45; 49; 41; 10] (set_exit_status (2 ^ 32 - 1) task0))).
Proof.
  destruct Loader.Demo.ready_view as (v & sec & st & Hr & Hh & _). destruct heap0_ok as [Hw Hl].
  destruct (syscall_bad_pointer 64 task0 (process0 v) PHYS_BASE (task0_ok v sec Hr Hh) Hw) as (h & E).
  - left. right. by_compute.
  - exists h. rewrite E. reflexivity.
Defined.

End Demo.
