(* ===== verification/Rtc.v ===== *)
(** * The real time clock (devices/rtc.c)

    Reading the date from the clock chip and turning it into seconds since
    1970.  The chip is a parameter: [cmos i r] is what its register [r] holds at
    the [i]-th read.  The loop that reads until the seconds are stable takes
    fuel.  [epoch_days] is the calendar that the code is compared with. *)

From S2P Require Import Prelude.
Local Open Scope Z_scope.

(** ** The code *)

Definition RTC_REG_SEC : Z := 0.
Definition RTC_REG_MIN : Z := 2.
Definition RTC_REG_HOUR : Z := 4.
Definition RTC_REG_MDAY : Z := 7.
Definition RTC_REG_MON : Z := 8.
Definition RTC_REG_YEAR : Z := 9.

Definition bcd_to_bin (x : Z) : Z := Z.land x 0x0f + Z.shiftr x 4 * 10.

Record rtc_time := RtcTime { sec : Z; min : Z; hour : Z; mday : Z; mon : Z; year : Z }.

Definition days_per_month : list Z := [31; 28; 31; 30; 31; 30; 31; 31; 30; 31; 30; 31].

(** The value of an [int] expression; overflow is undefined. *)
Definition int_value (z : Z) : res Z := if bool_decide (- 2 ^ 31 <= z < 2 ^ 31) then Ok z else Fault.

(** [days * 24 * 60 * 60]. *)
Definition seconds_of_days (days : Z) : res Z :=
  a <-! int_value (days * 24);;
  b <-! int_value (a * 60);;
  int_value (b * 60).

(** The loop over the months: [n] are left, from number [i] on. *)
Fixpoint add_months (n : nat) (i time : Z) : res Z :=
  match n with
  | O => Ok time
  | S n =>
      d <-! res_of_option (days_per_month !! Z.to_nat (i - 1));;
      s <-! seconds_of_days d;;
      add_months n (i + 1) (u32 (time + s))
  end.

(** The part of [rtc_get_time] after the loop that reads the clock. *)
Definition seconds_since (t : rtc_time) : res Z :=
  let year := (if year t <? 70 then year t + 100 else year t) - 70 in
  time <-! seconds_of_days (year * 365 + Z.quot (year - 1) 4);;
  time <-! add_months (Z.to_nat (mon t)) 1 (u32 time);;
  let time := if (2 <? mon t) && (Z.rem year 4 =? 0) then u32 (time + 24 * 60 * 60) else time in
  s <-! seconds_of_days (mday t - 1);;
  let time := u32 (time + s) in
  let time := u32 (time + hour t * 60 * 60) in
  let time := u32 (time + min t * 60) in
  Ok (u32 (time + sec t)).

Section Clock.
Context (cmos : nat -> Z -> Z).

Definition cmos_read (i : nat) (index : Z) : Z := u8 (cmos i index).

(** The loop, from the [i]-th read on. *)
Fixpoint read_clock (fuel : nat) (i : nat) : res rtc_time :=
  match fuel with
  | O => NoFuel
  | S fuel =>
      let sec := bcd_to_bin (cmos_read i RTC_REG_SEC) in
      let min := bcd_to_bin (cmos_read (i + 1) RTC_REG_MIN) in
      let hour := bcd_to_bin (cmos_read (i + 2) RTC_REG_HOUR) in
      let mday := bcd_to_bin (cmos_read (i + 3) RTC_REG_MDAY) in
      let mon := bcd_to_bin (cmos_read (i + 4) RTC_REG_MON) in
      let year := bcd_to_bin (cmos_read (i + 5) RTC_REG_YEAR) in
      if negb (sec =? bcd_to_bin (cmos_read (i + 6) RTC_REG_SEC)) then read_clock fuel (i + 7)
      else Ok (RtcTime sec min hour mday mon year)
  end.

Definition rtc_get_time (fuel : nat) : res Z :=
  t <-! read_clock fuel 0;;
  seconds_since t.

End Clock.

(** ** The calendar *)

Definition leap (y : Z) : bool := (y mod 4 =? 0) && (negb (y mod 100 =? 0) || (y mod 400 =? 0)).
Definition year_length (y : Z) : Z := if leap y then 366 else 365.
Definition month_length (y m : Z) : Z := default 0 (days_per_month !! Z.to_nat (m - 1)) + (if leap y && (m =? 2) then 1 else 0).

Definition sumz (l : list Z) : Z := foldr Z.add 0 l.

(** Days from January 1, 1970 to a date. *)
Definition epoch_days (y m d : Z) : Z :=
  sumz (year_length <$> seqZ 1970 (y - 1970)) + sumz (month_length y <$> seqZ 1 (m - 1)) + (d - 1).

Definition epoch_seconds (y : Z) (t : rtc_time) : Z := ((epoch_days y (mon t) (mday t) * 24 + hour t) * 60 + min t) * 60 + sec t.

(** A date of the year [y], between 1970 and 2037. *)
Record date_ok (y : Z) (t : rtc_time) : Prop := DateOk {
  d_year : 1970 <= y < 2038 /\ year t = y mod 100;
  d_mon : 1 <= mon t <= 12;
  d_mday : 1 <= mday t <= month_length y (mon t);
  d_hour : 0 <= hour t < 24;
  d_min : 0 <= min t < 60;
  d_sec : 0 <= sec t < 60
}.

(** ** Binary-coded decimals *)

Definition bcd (n : Z) : Z := n / 10 * 16 + n mod 10.

Lemma bcd_roundtrip n : 0 <= n < 100 -> bcd_to_bin (u8 (bcd n)) = n.
Proof.
  intros Hn. assert (forallb (fun n => bcd_to_bin (u8 (bcd n)) =? n) (seqZ 0 100) = true) as Hall by by_compute.
  apply Z.eqb_eq. apply (proj1 (forallb_forall _ _) Hall). apply list_elem_of_In, elem_of_seqZ. lia.
Qed.

(** The registers of a clock that shows [t]. *)
Definition shows (t : rtc_time) (regs : Z -> Z) : Prop :=
  regs RTC_REG_SEC = bcd (sec t) /\ regs RTC_REG_MIN = bcd (min t) /\ regs RTC_REG_HOUR = bcd (hour t) /\
  regs RTC_REG_MDAY = bcd (mday t) /\ regs RTC_REG_MON = bcd (mon t) /\ regs RTC_REG_YEAR = bcd (year t).

(** ** What the code computes *)

(** How many days the code is ahead of the calendar. *)
Definition ahead (y m : Z) : Z :=
  let year := y - 1970 in
  year * 365 + Z.quot (year - 1) 4 + sumz (take (Z.to_nat m) days_per_month) + (if (2 <? m) && (Z.rem year 4 =? 0) then 1 else 0)
  - epoch_days y m 1.

Definition dates : list (Z * Z) := y ← seqZ 1970 68; m ← seqZ 1 12; [(y, m)].

Definition months_added (y m : Z) : res Z :=
  let year := y - 1970 in
  time <-! seconds_of_days (year * 365 + Z.quot (year - 1) 4);;
  time <-! add_months (Z.to_nat m) 1 (u32 time);;
  Ok (if (2 <? m) && (Z.rem year 4 =? 0) then u32 (time + 24 * 60 * 60) else time).

Lemma months_added_ok y m : 1970 <= y < 2038 -> 1 <= m <= 12 ->
  months_added y m = Ok (86400 * (epoch_days y m 1 + ahead y m)) /\ 27 <= ahead y m <= 32 /\ 0 <= epoch_days y m 1 < 24837.
Proof.
  intros Hy Hm.
  assert (forallb (fun d => match months_added d.1 d.2 with
    | Ok time => bool_decide (time = 86400 * (epoch_days d.1 d.2 1 + ahead d.1 d.2) /\ 27 <= ahead d.1 d.2 <= 32 /\ 0 <= epoch_days d.1 d.2 1 < 24837)
    | _ => false
    end) dates = true) as Hall by (vm_compute; reflexivity).
  assert (In (y, m) dates) as Hin.
  { apply list_elem_of_In. unfold dates. apply list_elem_of_bind. exists y. split; [|apply elem_of_seqZ; lia].
    apply list_elem_of_bind. exists m. split; [by left|apply elem_of_seqZ; lia]. }
  pose proof (proj1 (forallb_forall _ _) Hall (y, m) Hin) as Hb. cbn [fst snd] in Hb. destruct (months_added y m) as [time| | |]; try discriminate Hb.
  destruct (bool_decide_unpack _ (Is_true_true_2 _ Hb)) as (-> & H1 & H2). split; [reflexivity|]. split; assumption.
Qed.

Lemma seconds_of_days_ok d : 0 <= d <= 366 -> seconds_of_days d = Ok (86400 * d).
Proof.
  intros Hd. unfold seconds_of_days, int_value. rewrite !bool_decide_true by lia. cbn [res_bind]. rewrite bool_decide_true by lia. cbn [res_bind].
  rewrite bool_decide_true by lia. f_equal. lia.
Qed.

Lemma epoch_days_mday y m d : epoch_days y m d = epoch_days y m 1 + (d - 1).
Proof. unfold epoch_days. lia. Qed.

Lemma month_length_bound y m : month_length y m <= 32.
Proof.
  unfold month_length. assert (default 0 (days_per_month !! Z.to_nat (m - 1)) <= 31).
  { destruct (days_per_month !! Z.to_nat (m - 1)) as [d|] eqn:E; [|done]. cbn.
    assert (Forall (fun d => d <= 31) days_per_month) as Hall by (repeat constructor; lia). by apply (proj1 (Forall_lookup _ _) Hall _ d E). }
  destruct (_ && _); lia.
Qed.

Lemma seconds_since_ok y t : date_ok y t -> seconds_since t = Ok (epoch_seconds y t + 86400 * ahead y (mon t)) /\ 27 <= ahead y (mon t) <= 32.
Proof.
  intros [[Hy Ey] Hm Hd Hh Hmi Hs]. destruct (months_added_ok y (mon t) Hy Hm) as (E & Ha & He). split; [|done].
  assert ((if year t <? 70 then year t + 100 else year t) - 70 = y - 1970) as Eyear.
  { rewrite Ey. destruct (Z.ltb_spec (y mod 100) 70); Z.to_euclidean_division_equations; lia. }
  unfold seconds_since. rewrite Eyear. cbv zeta. unfold months_added in E. cbv zeta in E.
  destruct (seconds_of_days (_ + _)) as [a| | |]; try discriminate E. cbn [res_bind] in *.
  destruct (add_months _ _ _) as [b| | |]; try discriminate E. cbn [res_bind] in *. injection E as ->.
  pose proof (month_length_bound y (mon t)). rewrite (seconds_of_days_ok (mday t - 1)) by lia. cbn [res_bind].
  unfold epoch_seconds. rewrite (epoch_days_mday y (mon t) (mday t)). f_equal.
  rewrite (u32_id (_ + 86400 * (mday t - 1))), (u32_id (_ + hour t * 60 * 60)), (u32_id (_ + min t * 60)), u32_id by lia. lia.
Qed.

(** The loop ends in the first round in which the seconds do not change. *)
Lemma read_clock_ok cmos t k : forall fuel i, (k < fuel)%nat ->
  (forall j, (j < k)%nat -> bcd_to_bin (cmos_read cmos (i + 7 * j) RTC_REG_SEC) <> bcd_to_bin (cmos_read cmos (i + 7 * j + 6) RTC_REG_SEC)) ->
  (forall j, (j < 7)%nat -> shows t (cmos (i + 7 * k + j)%nat)) ->
  0 <= sec t < 100 /\ 0 <= min t < 100 /\ 0 <= hour t < 100 /\ 0 <= mday t < 100 /\ 0 <= mon t < 100 /\ 0 <= year t < 100 ->
  read_clock cmos fuel i = Ok t.
Proof.
  induction k as [|k IH]; intros [|fuel] i Hf Hch Hsh Hr; try lia; cbn [read_clock].
  - unfold cmos_read. rewrite Nat.mul_0_r, Nat.add_0_r in Hsh.
    destruct (Hsh 0%nat) as (E0 & _), (Hsh 1%nat) as (_ & E1 & _), (Hsh 2%nat) as (_ & _ & E2 & _), (Hsh 3%nat) as (_ & _ & _ & E3 & _),
      (Hsh 4%nat) as (_ & _ & _ & _ & E4 & _), (Hsh 5%nat) as (_ & _ & _ & _ & _ & E5), (Hsh 6%nat) as (E6 & _); try lia.
    rewrite Nat.add_0_r in E0. rewrite E0, E1, E2, E3, E4, E5, E6. rewrite !bcd_roundtrip by lia. rewrite Z.eqb_refl. cbn. by destruct t.
  - pose proof (Hch 0%nat ltac:(lia)) as H0. rewrite Nat.mul_0_r, Nat.add_0_r in H0. rewrite (proj2 (Z.eqb_neq _ _) H0). cbn [negb].
    apply IH; [lia| | |done].
    + intros j Hj. specialize (Hch (S j) ltac:(lia)). by replace (i + 7 + 7 * j)%nat with (i + 7 * S j)%nat by lia.
    + intros j Hj. specialize (Hsh j Hj). by replace (i + 7 + 7 * k + j)%nat with (i + 7 * S k + j)%nat by lia.
Qed.

(** C40: The clock is a month fast.  When the date is stable during one round of reads, and the seconds changed in the rounds
    before it, [rtc_get_time] ends after that round and returns a time that is 27 to 32 days after the date
    that the clock shows: the loop over the months counts the current month as well, and leap years are taken to be
    1970, 1974, 1978 and so on. *)
Theorem rtc_get_time_ahead cmos y t k fuel : date_ok y t -> (k < fuel)%nat ->
  (forall j, (j < k)%nat -> bcd_to_bin (cmos_read cmos (7 * j) RTC_REG_SEC) <> bcd_to_bin (cmos_read cmos (7 * j + 6) RTC_REG_SEC)) ->
  (forall j, (j < 7)%nat -> shows t (cmos (7 * k + j)%nat)) ->
  exists days, 27 <= days <= 32 /\ rtc_get_time cmos fuel = Ok (epoch_seconds y t + 86400 * days).
Proof.
  intros Hd Hf Hch Hsh. destruct (seconds_since_ok y t Hd) as [E Ha]. exists (ahead y (mon t)). split; [done|].
  unfold rtc_get_time. rewrite (read_clock_ok cmos t k fuel 0 Hf Hch Hsh); [done|]. destruct Hd as [[Hy Ey] Hm Hmd Hh Hmi Hs].
  pose proof (month_length_bound y (mon t)). rewrite Ey. pose proof (Z.mod_pos_bound y 100). lia.
Qed.

(** ** January 1, 2000 *)

Module Demo.

Definition date : rtc_time := RtcTime 0 0 0 1 1 0.
(** The seconds change during the first round. *)
Definition clock (i : nat) (r : Z) : Z :=
  if bool_decide (i = 0%nat) then 0x59
  else if r =? RTC_REG_MDAY then 1 else if r =? RTC_REG_MON then 1 else 0.

Lemma rtc_get_time_ahead_witness : exists days, 27 <= days <= 32 /\ rtc_get_time clock 5 = Ok (946684800 + 86400 * days).
Proof.
  destruct (rtc_get_time_ahead clock 2000 date 1 5) as (days & Hd & E).
  - split; by_compute.
  - lia.
  - intros j Hj. assert (j = 0%nat) as -> by lia. by_compute.
  - intros j Hj. do 7 (destruct j as [|j]; [repeat split; reflexivity|]). lia.
  - exists days. split; [exact Hd|]. exact E.
Defined.

End Demo.
