(* ===== verification/Pit.v ===== *)
(** * The interval timer (devices/pit.c)

    [pit_configure_channel] writes to the ports of the 8254; the state is the
    sequence of these writes.  [programs] is what the chip, as its data sheet
    says, makes of them: a control word selects a channel, a mode and the
    access to both bytes of the counter, then come the low and the high byte, and a
    count of 0 stands for 65536.  Interrupts are off during the three writes. *)

From S2P Require Import Prelude.
Local Open Scope Z_scope.

(** ** The code *)

Definition PIT_PORT_CONTROL : Z := 0x43.
Definition PIT_PORT_COUNTER (channel : Z) : Z := 0x40 + channel.
Definition PIT_HZ : Z := 1193180.

(** A write of a byte to a port. *)
Definition outb (port data : Z) : M (list (Z * Z)) unit := modify (fun l => l ++ [(port, u8 data)]).

Definition pit_count (frequency : Z) : Z :=
  if frequency <? 19 then 0
  else if PIT_HZ <? frequency then 2
  else u16 (Z.quot (PIT_HZ + Z.quot frequency 2) frequency).

Definition pit_configure_channel (channel mode frequency : Z) : M (list (Z * Z)) unit :=
  assert ((channel =? 0) || (channel =? 2));;;
  assert ((mode =? 2) || (mode =? 3));;;
  let count := pit_count frequency in
  outb PIT_PORT_CONTROL (Z.lor (Z.lor (Z.shiftl channel 6) 0x30) (Z.shiftl mode 1));;;
  outb (PIT_PORT_COUNTER channel) count;;;
  outb (PIT_PORT_COUNTER channel) (Z.shiftr count 8).

(** ** The chip *)

(** A channel counts down from its period, in a mode. *)
Record counter := Counter { cmode : Z; period : Z }.

(** What the chip does with three writes that program a channel. *)
Definition programs (l : list (Z * Z)) : option (Z * counter) :=
  match l with
  | [(p0, control); (p1, low); (p2, high)] =>
      let channel := Z.shiftr control 6 in
      let n := low + 256 * high in
      if (p0 =? 0x43) && (Z.land (Z.shiftr control 4) 3 =? 3) && (p1 =? 0x40 + channel) && (p2 =? 0x40 + channel) then
        Some (channel, Counter (Z.land (Z.shiftr control 1) 7) (if n =? 0 then 65536 else n))
      else None
  | _ => None
  end.

(** ** Periods *)

Lemma bytes_of_word c : 0 <= c < 2 ^ 16 -> u8 c + 256 * u8 (Z.shiftr c 8) = c.
Proof. intros Hc. rewrite Z.shiftr_div_pow2 by lia. unfold uwrap. Z.to_euclidean_division_equations. lia. Qed.

Lemma pit_count_bound f : 0 <= pit_count f < 2 ^ 16.
Proof.
  unfold pit_count. destruct (f <? 19); [lia|]. destruct (PIT_HZ <? f); [lia|]. apply Z.mod_pos_bound; lia.
Qed.

(** The count is the nearest one. *)
Lemma pit_count_nearest f : 19 <= f <= PIT_HZ -> 1 <= pit_count f /\ 2 * Z.abs (pit_count f * f - PIT_HZ) <= f.
Proof.
  intros Hf. unfold pit_count. rewrite (proj2 (Z.ltb_ge f 19)), (proj2 (Z.ltb_ge PIT_HZ f)) by lia. unfold PIT_HZ in *.
  rewrite (Z.quot_div_nonneg f 2), Z.quot_div_nonneg by (try pose proof (Z.div_pos f 2); lia). set (n := (1193180 + f / 2) / f).
  assert (n * f <= 1193180 + f / 2 < (n + 1) * f) as Hn.
  { unfold n. pose proof (Z.mul_div_le (1193180 + f / 2) f ltac:(lia)). pose proof (Z.mul_succ_div_gt (1193180 + f / 2) f ltac:(lia)). lia. }
  assert (0 <= f - 2 * (f / 2) <= 1) as Hh by (Z.to_euclidean_division_equations; lia).
  assert (1 <= n) as H1 by nia. assert (n < 2 ^ 16) as H2 by nia. unfold uwrap. rewrite Z.mod_small by lia. split; [done|]. lia.
Qed.

Lemma pit_count_one f : 19 <= f <= PIT_HZ -> pit_count f = 1 <-> 795454 <= f.
Proof.
  intros Hf. destruct (pit_count_nearest f Hf) as [H1 H2]. unfold PIT_HZ in *. split; [intros E; rewrite E in H2; lia|].
  intros Hg. destruct (decide (pit_count f = 1)) as [|Hne]; [done|]. assert (2 <= pit_count f) by lia. nia.
Qed.


