(* ===== verification/Vga.v ===== *)
(** * The text screen (devices/vga.c)

    The framebuffer is a list of rows of cells, a character and its attribute;
    an access outside of it is a fault.  The registers of the display controller
    that hold the cursor are the map [crt], accessed through an index.  The
    specification is a terminal that prints on a roll of paper: the screen is a
    window of 25 rows on it.  A call runs with interrupts off; a beep is counted. *)

From stdpp Require Import gmap.
From S2P Require Import Prelude Bitmap.
Local Open Scope Z_scope.

(** ** The code *)

Definition COL_CNT : Z := 80.
Definition ROW_CNT : Z := 25.
Definition GRAY_ON_BLACK : Z := 0x07.

Definition cell : Type := Z * Z.
Definition space : cell := (32, GRAY_ON_BLACK).

Record vga := Vga {
  fb : list (list cell); cx : Z; cy : Z; inited : bool;
  crt_index : Z; crt : gmap Z Z; beeps : Z
}.

Definition set_fb (x : list (list cell)) (s : vga) : vga := Vga x (cx s) (cy s) (inited s) (crt_index s) (crt s) (beeps s).
Definition set_cursor (x y : Z) (s : vga) : vga := Vga (fb s) x y (inited s) (crt_index s) (crt s) (beeps s).
Definition set_crt (i : Z) (x : gmap Z Z) (s : vga) : vga := Vga (fb s) (cx s) (cy s) (inited s) i x (beeps s).
Definition set_inited (s : vga) : vga := Vga (fb s) (cx s) (cy s) true (crt_index s) (crt s) (beeps s).

(** The ports of the controller: 0x3d4 is the index, 0x3d5 the register it selects. *)
Definition outb_index (i : Z) : M vga unit := modify (fun s => set_crt (u8 i) (crt s) s).
Definition inb_data : M vga Z := s <- get;; lift (res_of_option (crt s !! crt_index s)).
(** A word to the index port: the low byte is the index, the high byte goes to the register. *)
Definition outw_index (w : Z) : M vga unit := modify (fun s => set_crt (u8 w) (<[u8 w := u8 (Z.shiftr w 8)]> (crt s)) s).

Definition put_cell (y x : Z) (c : cell) : M vga unit :=
  s <- get;;
  match fb s !! Z.to_nat y with
  | Some r => if bool_decide (Z.to_nat x < length r)%nat then modify (set_fb (<[Z.to_nat y := <[Z.to_nat x := c]> r]> (fb s))) else fault
  | None => fault
  end.

Fixpoint clear_cells (n : nat) (y x : Z) : M vga unit :=
  match n with
  | O => ret tt
  | S n => put_cell y x space;;; clear_cells n y (x + 1)
  end.
Definition clear_row (y : Z) : M vga unit := clear_cells (Z.to_nat COL_CNT) y 0.

Definition move_cursor : M vga unit :=
  s <- get;;
  let cp := u16 (cx s + COL_CNT * cy s) in
  outw_index (Z.lor 0x0e (Z.land cp 0xff00));;;
  outw_index (Z.lor 0x0f (u16 (Z.shiftl cp 8))).

Definition find_cursor : M vga (Z * Z) :=
  outb_index 0x0e;;;
  hi <- inb_data;;
  outb_index 0x0f;;;
  lo <- inb_data;;
  let cp := Z.lor (u16 (Z.shiftl hi 8)) lo in
  ret (cp mod COL_CNT, cp / COL_CNT).

Definition init : M vga unit :=
  s <- get;;
  if negb (inited s) then
    p <- find_cursor;;
    modify (set_cursor p.1 p.2);;;
    modify set_inited
  else ret tt.

(** [memmove] of all rows but the first to the place of the row before. *)
Definition move_rows : M vga unit :=
  s <- get;;
  if bool_decide (length (fb s) < Z.to_nat ROW_CNT)%nat then fault
  else modify (set_fb (take (Z.to_nat (ROW_CNT - 1)) (drop 1 (fb s)) ++ drop (Z.to_nat (ROW_CNT - 1)) (fb s))).

Definition newline : M vga unit :=
  modify (fun s => set_cursor 0 (u32 (cy s + 1)) s);;;
  s <- get;;
  if ROW_CNT <=? cy s then
    modify (fun s => set_cursor (cx s) (ROW_CNT - 1) s);;;
    move_rows;;;
    clear_row (ROW_CNT - 1)
  else ret tt.

Fixpoint clear_rows (n : nat) (y : Z) : M vga unit :=
  match n with
  | O => ret tt
  | S n => clear_row y;;; clear_rows n (y + 1)
  end.

Definition cls : M vga unit :=
  clear_rows (Z.to_nat ROW_CNT) 0;;;
  modify (set_cursor 0 0);;;
  move_cursor.

Definition speaker_beep : M vga unit := modify (fun s => Vga (fb s) (cx s) (cy s) (inited s) (crt_index s) (crt s) (beeps s + 1)).

Definition vga_putc (c : Z) : M vga unit :=
  init;;;
  s <- get;;
  (if c =? 10 then newline
   else if c =? 12 then cls
   else if c =? 8 then if 0 <? cx s then modify (set_cursor (cx s - 1) (cy s)) else ret tt
   else if c =? 13 then modify (set_cursor 0 (cy s))
   else if c =? 9 then
     let x := u32 (DIV_ROUND_UP (u32 (cx s + 1)) 8 * 8) in
     modify (set_cursor x (cy s));;; if COL_CNT <=? x then newline else ret tt
   else if c =? 7 then speaker_beep
   else
     put_cell (cy s) (cx s) (u8 c, GRAY_ON_BLACK);;;
     let x := u32 (cx s + 1) in
     modify (set_cursor x (cy s));;; if COL_CNT <=? x then newline else ret tt);;;
  move_cursor.

Fixpoint vga_write (l : list Z) : M vga unit :=
  match l with
  | [] => ret tt
  | c :: l => vga_putc c;;; vga_write l
  end.

(** ** The terminal *)

(** The cells of the paper by row and column, the first row of the window, and
    the position of the next character in the window. *)
Record terminal := Terminal { paper : Z -> Z -> cell; top : Z; col : Z; row : Z }.

Definition next_line (t : terminal) : terminal :=
  if row t =? 24 then Terminal (paper t) (top t + 1) 0 24 else Terminal (paper t) (top t) 0 (row t + 1).

(** To a column; beyond the last one is the next line. *)
Definition go_to (x : Z) (t : terminal) : terminal :=
  if 80 <=? x then next_line t else Terminal (paper t) (top t) x (row t).

Definition print (c : cell) (t : terminal) : terminal :=
  Terminal (fun y x => if bool_decide (y = top t + row t /\ x = col t) then c else paper t y x) (top t) (col t) (row t).

(** One character: new line, new page, backspace, carriage return, tab, bell, any other. *)
Definition feed (t : terminal) (c : Z) : terminal :=
  if c =? 10 then next_line t
  else if c =? 12 then Terminal (paper t) (top t + 25) 0 0
  else if c =? 8 then Terminal (paper t) (top t) (Z.max 0 (col t - 1)) (row t)
  else if c =? 13 then Terminal (paper t) (top t) 0 (row t)
  else if c =? 9 then go_to ((col t / 8 + 1) * 8) t
  else if c =? 7 then t
  else go_to (col t + 1) (print (u8 c, GRAY_ON_BLACK) t).

(** The screen shows the window; below it the paper is blank. *)
Record screen (s : vga) (t : terminal) : Prop := Screen {
  sc_rows : length (fb s) = 25%nat;
  sc_cols r : r ∈ fb s -> length r = 80%nat;
  sc_cells y x r c : fb s !! y = Some r -> r !! x = Some c -> c = paper t (top t + Z.of_nat y) (Z.of_nat x);
  sc_blank y x : top t + 25 <= y -> paper t y x = space;
  sc_cx : cx s = col t /\ 0 <= col t < 80;
  sc_cy : cy s = row t /\ 0 <= row t < 25
}.

(** The controller has the cursor. *)
Definition cursor_at (s : vga) (x y : Z) : Prop :=
  crt s !! 0x0e = Some ((x + 80 * y) / 256) /\ crt s !! 0x0f = Some ((x + 80 * y) mod 256).

(** ** The cursor *)

Lemma move_cursor_ok s x y : cx s = x -> cy s = y -> 0 <= x < 80 -> 0 <= y < 25 ->
  exists i m, move_cursor s = Ok (tt, set_crt i m s) /\ cursor_at (set_crt i m s) x y.
Proof.
  intros Ex Ey Hx Hy. unfold move_cursor. rewrite bind_get, Ex, Ey. unfold COL_CNT. set (cp := x + 80 * y).
  assert (0 <= cp < 2000) as Hcp by (unfold cp; lia). rewrite (uwrap_id 16 cp) by lia.
  assert (u8 (Z.lor 0x0e (Z.land cp 0xff00)) = 0x0e /\ u8 (Z.shiftr (Z.lor 0x0e (Z.land cp 0xff00)) 8) = cp / 256 /\
    u8 (Z.lor 0x0f (u16 (Z.shiftl cp 8))) = 0x0f /\ u8 (Z.shiftr (Z.lor 0x0f (u16 (Z.shiftl cp 8))) 8) = cp mod 256) as (E1 & E2 & E3 & E4).
  { assert (forallb (fun cp => bool_decide (u8 (Z.lor 0x0e (Z.land cp 0xff00)) = 0x0e /\ u8 (Z.shiftr (Z.lor 0x0e (Z.land cp 0xff00)) 8) = cp / 256 /\
      u8 (Z.lor 0x0f (u16 (Z.shiftl cp 8))) = 0x0f /\ u8 (Z.shiftr (Z.lor 0x0f (u16 (Z.shiftl cp 8))) 8) = cp mod 256)) (seqZ 0 2000) = true) as Hall
      by (vm_compute; reflexivity).
    assert (In cp (seqZ 0 2000)) as Hin by (apply list_elem_of_In, elem_of_seqZ; lia).
    pose proof (proj1 (forallb_forall _ _) Hall cp Hin) as Hb. exact (bool_decide_unpack _ (Is_true_true_2 _ Hb)). }
  unfold outw_index. rewrite bind_modify. unfold modify. cbn [crt set_crt]. rewrite E1, E2, E3, E4. eexists _, _. split; [reflexivity|].
  split; cbn [crt set_crt]; [rewrite lookup_insert_ne, lookup_insert_eq by done; done|by rewrite lookup_insert_eq].
Qed.

Lemma cursor_word cp : 0 <= cp < 2000 -> Z.lor (u16 (Z.shiftl (cp / 256) 8)) (cp mod 256) = cp.
Proof.
  intros Hcp. assert (forallb (fun cp => Z.lor (u16 (Z.shiftl (cp / 256) 8)) (cp mod 256) =? cp) (seqZ 0 2000) = true) as Hall by (vm_compute; reflexivity).
  apply Z.eqb_eq. apply (proj1 (forallb_forall _ _) Hall). apply list_elem_of_In, elem_of_seqZ. lia.
Qed.

(** The first call reads back what was there. *)
Lemma find_cursor_ok s x y : cursor_at s x y -> 0 <= x < 80 -> 0 <= y < 25 -> find_cursor s = Ok ((x, y), set_crt 0x0f (crt s) s).
Proof.
  intros [E1 E2] Hx Hy. unfold find_cursor, outb_index, inb_data, bind, get, modify, lift, ret. change (u8 14) with 14. change (u8 15) with 15.
  cbn -[Z.div Z.modulo Z.lor]. rewrite E1. cbn -[Z.div Z.modulo Z.lor]. rewrite E2. cbn -[Z.div Z.modulo Z.lor]. rewrite cursor_word by lia.
  unfold COL_CNT. rewrite (Z.mul_comm 80 y), Z.mod_add, Z.div_add, Z.mod_small, Z.div_small by lia. done.
Qed.

(** ** Cells and rows *)

Lemma put_cell_ok s t y x c : screen s t -> 0 <= y < 25 -> 0 <= x < 80 ->
  exists f, put_cell y x c s = Ok (tt, set_fb f s) /\
    screen (set_fb f s) (Terminal (fun y' x' => if bool_decide (y' = top t + y /\ x' = x) then c else paper t y' x') (top t) (col t) (row t)).
Proof.
  intros [S1 S2 S3 S4 S5 S6] Hy Hx. unfold put_cell. rewrite bind_get.
  destruct (lookup_lt_is_Some_2 (fb s) (Z.to_nat y)) as [r Hr]; [lia|]. rewrite Hr.
  assert (length r = 80%nat) as Hlen by (apply S2; by apply list_elem_of_lookup_2 in Hr). rewrite bool_decide_true by lia.
  eexists. split; [done|]. split; cbn; try done.
  - by rewrite length_insert.
  - intros r' Hr'. apply list_elem_of_lookup in Hr' as [i Hi]. apply list_lookup_insert_Some in Hi as [(_ & <- & _)|(_ & Hi)]; [by rewrite length_insert|].
    apply S2. by apply list_elem_of_lookup_2 in Hi.
  - intros y' x' r' c' Hr' Hc'. apply list_lookup_insert_Some in Hr' as [(<- & <- & _)|(Hne & Hr')].
    + rewrite Z2Nat.id by lia. apply list_lookup_insert_Some in Hc' as [(<- & <- & _)|(Hnx & Hc')].
      * rewrite bool_decide_true by lia. done.
      * rewrite bool_decide_false by lia. rewrite (S3 _ _ _ _ Hr Hc'). by rewrite Z2Nat.id by lia.
    + rewrite bool_decide_false by lia. by apply (S3 _ _ r').
  - intros y' x' Hy'. rewrite bool_decide_false by lia. by apply S4.
Qed.

(** Clearing to the end of a row. *)
Lemma clear_cells_ok n : forall s y x r, fb s !! y = Some r -> length r = 80%nat -> (x + n = 80)%nat ->
  clear_cells n (Z.of_nat y) (Z.of_nat x) s = Ok (tt, set_fb (<[y := take x r ++ replicate n space]> (fb s)) s).
Proof.
  induction n as [|n IH]; intros s y x r Hr Hl Hn; cbn [clear_cells].
  - rewrite Nat.add_0_r in Hn. rewrite firstn_all2, app_nil_r by lia. rewrite list_insert_id by done. by destruct s.
  - unfold put_cell. rewrite bind_assoc, bind_get, Nat2Z.id, Hr, bool_decide_true by lia. rewrite bind_modify, Nat2Z.id.
    replace (Z.of_nat x + 1) with (Z.of_nat (S x)) by lia.
    rewrite (IH _ y (S x) (<[x:=space]> r)); [| |by rewrite length_insert|lia].
    + f_equal. f_equal. unfold set_fb. cbn. f_equal. rewrite list_insert_insert_eq. f_equal.
      rewrite (take_S_r _ x space) by (apply list_lookup_insert_eq; lia). rewrite take_insert_ge by lia. by rewrite <- app_assoc.
    + apply list_lookup_insert_eq. apply lookup_lt_Some in Hr. lia.
Qed.

Definition blank_row : list cell := replicate 80 space.

Lemma clear_row_ok s y : (y < length (fb s))%nat -> (forall r, r ∈ fb s -> length r = 80%nat) ->
  clear_row (Z.of_nat y) s = Ok (tt, set_fb (<[y := blank_row]> (fb s)) s).
Proof.
  intros Hy Hl. destruct (lookup_lt_is_Some_2 _ _ Hy) as [r Hr]. unfold clear_row.
  apply (clear_cells_ok 80 s y 0 r Hr); [|done]. apply Hl. by apply list_elem_of_lookup_2 in Hr.
Qed.

Lemma clear_rows_ok n : forall s y, (y + n = length (fb s))%nat -> (forall r, r ∈ fb s -> length r = 80%nat) ->
  clear_rows n (Z.of_nat y) s = Ok (tt, set_fb (take y (fb s) ++ replicate n blank_row) s).
Proof.
  induction n as [|n IH]; intros s y Hy Hl; cbn [clear_rows].
  - rewrite Nat.add_0_r in Hy. rewrite firstn_all2, app_nil_r by lia. by destruct s.
  - crun (clear_row_ok s y ltac:(lia) Hl). replace (Z.of_nat y + 1) with (Z.of_nat (S y)) by lia. rewrite IH; cbn [fb set_fb].
    + rewrite (take_S_r _ y blank_row) by (apply list_lookup_insert_eq; lia). rewrite take_insert_ge by lia. by rewrite <- app_assoc.
    + rewrite length_insert. lia.
    + intros r Hr. apply list_elem_of_lookup in Hr as [i Hi]. apply list_lookup_insert_Some in Hi as [(_ & <- & _)|(_ & Hi)]; [done|].
      apply Hl. by apply list_elem_of_lookup_2 in Hi.
Qed.

Lemma blank_cell x c : blank_row !! x = Some c -> c = space.
Proof. intros Hc. by apply lookup_replicate in Hc as [-> _]. Qed.

(** ** Lines *)

Lemma cursor_screen s t x y : screen s t -> 0 <= x < 80 -> 0 <= y < 25 -> screen (set_cursor x y s) (Terminal (paper t) (top t) x y).
Proof. intros [S1 S2 S3 S4 S5 S6] Hx Hy. split; try done. Qed.

Lemma in_take {A : Type} n (l : list A) a : a ∈ take n l -> a ∈ l.
Proof. intros Ha. rewrite <- (take_drop n l). apply elem_of_app. by left. Qed.

Lemma in_drop {A : Type} n (l : list A) a : a ∈ drop n l -> a ∈ l.
Proof. intros Ha. rewrite <- (take_drop n l). apply elem_of_app. by right. Qed.

(** The rows after scrolling. *)
Lemma scrolled (l : list (list cell)) : length l = 25%nat ->
  <[24%nat := blank_row]> (take 24 (drop 1 l) ++ drop 24 l) = drop 1 l ++ [blank_row].
Proof.
  intros Hl. rewrite firstn_all2 by (rewrite length_drop; lia). rewrite insert_app_r_alt by (rewrite length_drop; lia). f_equal.
  rewrite length_drop, Hl. assert (length (drop 24 l) = 1%nat) as H1 by (rewrite length_drop; lia).
  destruct (drop 24 l) as [|r [|r' l']]; done.
Qed.

Lemma newline_ok s t x : screen s t -> exists f y, newline (set_cursor x (cy s) s) = Ok (tt, set_cursor 0 y (set_fb f s)) /\
  screen (set_cursor 0 y (set_fb f s)) (next_line t).
Proof.
  intros Hs. pose proof Hs as [S1 S2 S3 S4 S5 [S6 S6']]. unfold newline. rewrite bind_modify, bind_get. cbn [cy set_cursor]. rewrite S6, u32_id by lia.
  unfold next_line. destruct (Z.eqb_spec (row t) 24) as [Er|Er].
  - rewrite (proj2 (Z.leb_le _ _)) by (unfold ROW_CNT; lia). rewrite bind_modify. cbn [cx set_cursor]. unfold move_rows. rewrite bind_assoc, bind_get.
    cbn [fb set_cursor]. rewrite bool_decide_false by (change (Z.to_nat ROW_CNT) with 25%nat; lia). rewrite bind_modify.
    change (Z.to_nat (ROW_CNT - 1)) with 24%nat. change (ROW_CNT - 1) with (Z.of_nat 24).
    exists (drop 1 (fb s) ++ [blank_row]), 24. split.
    + rewrite clear_row_ok; cbn [fb set_fb set_cursor]; [by rewrite scrolled|rewrite length_app, length_take, !length_drop; lia|].
      intros r Hr. apply S2. apply elem_of_app in Hr as [Hr%in_take|Hr]; by apply in_drop in Hr.
    + split; cbn; try done.
      * rewrite length_app, length_drop. cbn. lia.
      * intros r Hr. apply elem_of_app in Hr as [Hr|Hr%list_elem_of_singleton]; [|by subst r].
        apply S2. by apply in_drop in Hr.
      * intros y' x' r c Hr Hc. apply lookup_app_Some in Hr as [Hr|[Hlen Hr]].
        -- rewrite lookup_drop in Hr. rewrite (S3 _ _ r c Hr Hc). f_equal. lia.
        -- apply list_lookup_singleton_Some in Hr as [Hz <-]. rewrite (blank_cell x' c Hc). symmetry. apply S4. rewrite length_drop in Hlen, Hz. lia.
      * intros y' x' Hy'. apply S4. lia.
  - rewrite (proj2 (Z.leb_gt _ _)) by (unfold ROW_CNT; lia). exists (fb s), (row t + 1). split; [by destruct s|].
    assert (set_fb (fb s) s = s) as -> by by destruct s. apply cursor_screen; [done|lia..].
Qed.

(** To a column, with a new line beyond the last one. *)
Lemma advance_ok s t x : screen s t -> 0 <= x -> exists f x' y,
  (modify (set_cursor x (cy s));;; if COL_CNT <=? x then newline else ret tt) s = Ok (tt, set_cursor x' y (set_fb f s)) /\
  screen (set_cursor x' y (set_fb f s)) (go_to x t).
Proof.
  intros Hs Hx. rewrite bind_modify. unfold go_to. change COL_CNT with 80. destruct (Z.leb_spec 80 x) as [Hg|Hg].
  - destruct (newline_ok s t x Hs) as (f & y & E & Hs'). by exists f, 0, y.
  - pose proof (sc_cy _ _ Hs) as [Ey Hy]. exists (fb s), x, (cy s). split; [by destruct s|]. assert (set_fb (fb s) s = s) as -> by by destruct s.
    rewrite Ey. by apply cursor_screen.
Qed.

(** A new page. *)
Lemma cls_ok s t : screen s t -> exists f i m, cls s = Ok (tt, set_crt i m (set_cursor 0 0 (set_fb f s))) /\
  screen (set_crt i m (set_cursor 0 0 (set_fb f s))) (Terminal (paper t) (top t + 25) 0 0).
Proof.
  intros [S1 S2 S3 S4 S5 S6]. unfold cls. change 0 with (Z.of_nat 0) at 1. rewrite (bind_ok _ _ s tt _ (clear_rows_ok 25 s 0 ltac:(lia) S2)). cbn [take app].
  rewrite bind_modify. set (s1 := set_cursor 0 0 _). destruct (move_cursor_ok s1 0 0) as (i & m & E & _); [done|done|lia..|].
  exists (replicate 25 blank_row), i, m. split; [exact E|]. split; cbn -[replicate blank_row]; try done; try lia.
  - intros r Hr. by apply elem_of_replicate in Hr as [-> _].
  - intros y x r c Hr Hc. apply lookup_replicate in Hr as [-> Hy]. rewrite (blank_cell x c Hc). symmetry. apply S4. lia.
  - intros y x Hy. apply S4. lia.
Qed.

(** ** Characters *)

(** The screen before the first character may be one that others wrote: the cursor is then that of the controller. *)
Definition ready (s : vga) (t : terminal) : Prop :=
  screen (set_cursor (col t) (row t) s) t /\ cursor_at s (col t) (row t) /\ (inited s = true -> cx s = col t /\ cy s = row t).

Lemma crt_screen s t i m : screen s t -> screen (set_crt i m s) t.
Proof. intros [S1 S2 S3 S4 S5 S6]. by split. Qed.

Lemma init_ok s t : ready s t -> exists s', init s = Ok (tt, s') /\ screen s' t /\ inited s' = true.
Proof.
  intros (Hs & Hc & Hi). unfold init. rewrite bind_get. destruct (inited s) eqn:Ei; cbn [negb].
  - destruct (Hi eq_refl) as [Ex Ey]. exists s. split; [done|]. split; [|done]. rewrite <- Ex, <- Ey in Hs. by destruct s.
  - pose proof (sc_cx _ _ Hs) as [_ Hx]. pose proof (sc_cy _ _ Hs) as [_ Hy]. crun (find_cursor_ok s _ _ Hc Hx Hy). rewrite bind_modify. unfold modify.
    eexists. split; [reflexivity|]. split; [|done]. destruct Hs as [S1 S2 S3 S4 S5 S6]. by split.
Qed.

(** The end of [vga_putc]. *)
Lemma putc_end s t : screen s t -> inited s = true -> exists s', move_cursor s = Ok (tt, s') /\ ready s' t /\ inited s' = true.
Proof.
  intros Hs Hi. pose proof (sc_cx _ _ Hs) as [Ex Hx]. pose proof (sc_cy _ _ Hs) as [Ey Hy].
  destruct (move_cursor_ok s (col t) (row t) Ex Ey Hx Hy) as (i & m & E & Hc). exists (set_crt i m s). split; [done|]. split; [|done].
  split; [|by split]. apply cursor_screen with (x := col t) (y := row t) in Hs; [|done..]. apply crt_screen with (i := i) (m := m) in Hs. by destruct t.
Qed.

(** The tab stop after a column. *)
Lemma tab_stop x : 0 <= x < 80 -> u32 (DIV_ROUND_UP (u32 (x + 1)) 8 * 8) = (x / 8 + 1) * 8.
Proof. intros Hx. unfold DIV_ROUND_UP. rewrite (u32_id (x + 1)) by lia. rewrite (u32_id (x + 1 + 8 - 1)) by lia. rewrite u32_id; Z.to_euclidean_division_equations; lia. Qed.

Lemma vga_putc_ok s t c : ready s t -> exists s', vga_putc c s = Ok (tt, s') /\ ready s' (feed t c) /\ inited s' = true.
Proof.
  intros Hr. unfold vga_putc. destruct (init_ok s t Hr) as (s1 & E & Hs & Hi). crun E. rewrite bind_get. clear s E Hr. rename s1 into s.
  pose proof (sc_cx _ _ Hs) as [Ex Hx]. pose proof (sc_cy _ _ Hs) as [Ey Hy]. unfold feed.
  destruct (c =? 10); [|destruct (c =? 12); [|destruct (c =? 8); [|destruct (c =? 13); [|destruct (c =? 9); [|destruct (c =? 7)]]]]].
  - destruct (newline_ok s t (cx s) Hs) as (f & y & E & Hs'). assert (set_cursor (cx s) (cy s) s = s) as Eq by by destruct s. rewrite Eq in E. crun E. by apply putc_end.
  - destruct (cls_ok s t Hs) as (f & i & m & E & Hs'). crun E. by apply putc_end.
  - destruct (Z.ltb_spec 0 (cx s)) as [H0|H0].
    + rewrite bind_modify. apply putc_end; [|done]. rewrite Ex, Ey. replace (Z.max 0 (col t - 1)) with (col t - 1) by lia. apply cursor_screen; [done|lia..].
    + rewrite bind_ret. apply putc_end; [|done]. replace (Z.max 0 (col t - 1)) with (col t) by lia. by destruct t.
  - rewrite bind_modify. apply putc_end; [|done]. rewrite Ey. apply cursor_screen; [done|lia..].
  - rewrite Ex, tab_stop by lia. destruct (advance_ok s t ((col t / 8 + 1) * 8) Hs) as (f & x' & y & E & Hs'); [Z.to_euclidean_division_equations; lia|].
    crun E. by apply putc_end.
  - unfold speaker_beep. rewrite bind_modify. apply putc_end; [|done]. destruct Hs as [S1 S2 S3 S4 S5 S6]. by split.
  - rewrite Ey, Ex. destruct (put_cell_ok s t (row t) (col t) (u8 c, GRAY_ON_BLACK) Hs Hy Hx) as (f & E & Hs').
    rewrite bind_assoc. crun E. cbv zeta. rewrite u32_id by lia. fold (print (u8 c, GRAY_ON_BLACK) t) in Hs'.
    destruct (advance_ok (set_fb f s) _ (col t + 1) Hs') as (f' & x' & y & E' & Hs''); [lia|]. cbn [cy set_fb] in E'. rewrite Ey in E'. crun E'. by apply putc_end.
Qed.

(** C15: What is written appears on the screen.  Start with any text on the screen and the controller's cursor inside of it,
    before the first character or after it: writing any characters never accesses
    memory outside of the framebuffer, and afterwards the screen shows 25 rows of the paper that a terminal
    prints the characters on, with new lines, tabs, backspaces, carriage returns and new pages,
    wrapping lines at 80 columns and scrolling at the end of the window; the cursor of the
    controller is where the next character goes. *)
Theorem vga_write_refines s t l : ready s t ->
  exists s', vga_write l s = Ok (tt, s') /\ ready s' (foldl feed t l).
Proof.
  revert s t. induction l as [|c l IH]; intros s t Hr; [by exists s|]. cbn [vga_write foldl].
  destruct (vga_putc_ok s t c Hr) as (s' & E & Hr' & _). crun E. by apply IH.
Qed.

(** ** A greeting on the last line *)

Module Demo.

Definition boot : vga := Vga (replicate 25 blank_row) 0 0 false 0 {[0x0e := 7; 0x0f := 128]} 0.
Definition page : terminal := Terminal (fun _ _ => space) 0 0 24.
Definition hi : list Z := [72; 105; 10].

Lemma boot_ready : ready boot page.
Proof.
  split; [|split; [split; reflexivity|discriminate]]. split; cbn -[replicate blank_row]; try done; try lia.
  - intros r Hr. by apply elem_of_replicate in Hr as [-> _].
  - intros y x r c Hr Hc. apply lookup_replicate in Hr as [-> _]. by apply blank_cell in Hc.
Qed.

(** The line moves up, and is the last but one. *)
Lemma vga_write_refines_witness : exists s' t, vga_write hi boot = Ok (tt, s') /\ ready s' t /\ top t = 1 /\ col t = 0 /\ row t = 24 /\
  paper t 24 0 = (72, GRAY_ON_BLACK) /\ paper t 24 1 = (105, GRAY_ON_BLACK).
Proof.
  destruct (vga_write_refines boot page hi boot_ready) as (s' & E & Hr). exists s', (foldl feed page hi).
  split; [exact E|]. split; [exact Hr|]. split_and!; vm_compute; reflexivity.
Defined.

End Demo.
