(* ===== verification/Console.v ===== *)
(** * The console (lib/kernel/console.c)

    Every character goes to the serial port and to the screen of Vga.v, under a
    recursive lock.  The state is that of the current thread: [held] says that
    it holds the console lock; a thread that finds it taken waits, which is not
    part of the model.  Strings are in the memory [strings].
    [vprintf] is [__vprintf] of Stdio.v with the console as its output. *)

From stdpp Require Import gmap.
From S2P Require Import Prelude CString Stdio StdioSpec.
From S2P Require Import Bitmap Vga.
Local Open Scope Z_scope.

(** ** The code *)

Record console := Console {
  display : vga; serial : list Z; write_cnt : Z;
  held : bool; use_console_lock : bool; console_lock_depth : Z;
  intr_context : bool; strings : memory
}.

Definition set_lock (h : bool) (d : Z) (s : console) : console :=
  Console (display s) (serial s) (write_cnt s) h (use_console_lock s) d (intr_context s) (strings s).
Definition written_to (v : vga) (o : list Z) (n : Z) (s : console) : console :=
  Console v o n (held s) (use_console_lock s) (console_lock_depth s) (intr_context s) (strings s).

Definition console_init : M console unit :=
  modify (fun s => Console (display s) (serial s) (write_cnt s) false true (console_lock_depth s) (intr_context s) (strings s)).
Definition console_panic : M console unit :=
  modify (fun s => Console (display s) (serial s) (write_cnt s) (held s) false (console_lock_depth s) (intr_context s) (strings s)).

Definition acquire_console : M console unit :=
  s <- get;;
  if negb (intr_context s) && use_console_lock s then
    if held s then modify (set_lock true (console_lock_depth s + 1))
    else modify (set_lock true (console_lock_depth s))
  else ret tt.

Definition release_console : M console unit :=
  s <- get;;
  if negb (intr_context s) && use_console_lock s then
    if 0 <? console_lock_depth s then modify (set_lock (held s) (console_lock_depth s - 1))
    else assert (held s);;; modify (set_lock false (console_lock_depth s))
  else ret tt.

Definition console_locked_by_current_thread (s : console) : bool := intr_context s || negb (use_console_lock s) || held s.

Definition on_display {A : Type} (m : M vga A) : M console A :=
  fun s => r <-! m (display s);; Ok (r.1, written_to r.2 (serial s) (write_cnt s) s).

Definition serial_putc (c : Z) : M console unit := modify (fun s => written_to (display s) (serial s ++ [c]) (write_cnt s) s).

Definition putchar_have_lock (c : Z) : M console unit :=
  s <- get;;
  assert (console_locked_by_current_thread s);;;
  modify (fun s => written_to (display s) (serial s) (i64 (write_cnt s + 1)) s);;;
  serial_putc (u8 c);;;
  on_display (vga_putc (u8 c)).

(** [char_cnt] is the second component. *)
Definition vprintf_helper (c : Z) : M (console * Z) unit :=
  fun s => n <-! int_res (s.2 + 1);; r <-! putchar_have_lock (u8 c) s.1;; Ok (tt, (r.2, n)).

Definition vprintf (format args : list Z) : M console Z :=
  acquire_console;;;
  char_cnt <- (fun s => r <-! __vprintf vprintf_helper (fun s => strings s.1) (vprintf_fuel format) format args (s, 0);; Ok (r.2.2, r.2.1));;
  release_console;;;
  ret char_cnt.

Definition load_char (p : Z) : M console Z := s <- get;; lift (res_of_option (strings s !! p)).

(** The loop of [putbuf]: [n] characters are left. *)
Fixpoint put_chars (n : nat) (p : Z) : M console unit :=
  match n with
  | O => ret tt
  | S n => c <- load_char p;; putchar_have_lock c;;; put_chars n (p + 1)
  end.

Definition putbuf (buffer n : Z) : M console unit :=
  acquire_console;;; put_chars (Z.to_nat n) buffer;;; release_console.

(** The loop of [puts]. *)
Fixpoint put_string (fuel : nat) (p : Z) : M console unit :=
  match fuel with
  | O => nofuel
  | S fuel => c <- load_char p;; if c =? 0 then ret tt else putchar_have_lock c;;; put_string fuel (p + 1)
  end.

Definition puts (p : Z) : M console Z :=
  acquire_console;;;
  (s <- get;; put_string (S (size (strings s))) p;;; putchar_have_lock 10);;;
  release_console;;;
  ret 0.

Definition putchar (c : Z) : M console Z :=
  acquire_console;;; putchar_have_lock c;;; release_console;;; ret c.

(** ** What is printed *)

(** The console, as a terminal and as the line to the serial port. *)
Record console_ok (s : console) (t : terminal) (o : list Z) (n : Z) : Prop := ConsoleOk {
  co_display : ready (display s) t;
  co_serial : serial s = o;
  co_count : write_cnt s = n
}.

(** The lock is counted right. *)
Definition lock_ok (s : console) : Prop :=
  0 <= console_lock_depth s < 2 ^ 31 - 1 /\ (held s = false -> console_lock_depth s = 0) /\
  (negb (intr_context s) && use_console_lock s = false -> console_locked_by_current_thread s = true).

(** Everything but what is printed. *)
Definition same_console (s s' : console) : Prop :=
  held s' = held s /\ use_console_lock s' = use_console_lock s /\ console_lock_depth s' = console_lock_depth s /\
  intr_context s' = intr_context s /\ strings s' = strings s.

(** [l] was printed. *)
Definition printed (l : list Z) (s : console) (t : terminal) (s' : console) : Prop :=
  same_console s s' /\
  console_ok s' (foldl feed t (u8 <$> l)) (serial s ++ (u8 <$> l)) (write_cnt s + Z.of_nat (length l)).

(** The characters fit in the count. *)
Definition countable (s : console) (n : nat) : Prop := 0 <= write_cnt s /\ write_cnt s + Z.of_nat n < 2 ^ 63.

Lemma same_console_trans s1 s2 s3 : same_console s1 s2 -> same_console s2 s3 -> same_console s1 s3.
Proof. intros (A1 & A2 & A3 & A4 & A5) (B1 & B2 & B3 & B4 & B5). by split_and!; etransitivity. Qed.

Lemma printed_nil s t : ready (display s) t -> printed [] s t s.
Proof. intros Hr. split; [done|]. split; cbn; [done|by rewrite app_nil_r|lia]. Qed.

Lemma printed_app s t l1 s1 l2 s2 : printed l1 s t s1 -> printed l2 s1 (foldl feed t (u8 <$> l1)) s2 -> printed (l1 ++ l2) s t s2.
Proof.
  intros [H1 [D1 S1 W1]] [H2 [D2 S2 W2]]. split; [by apply (same_console_trans s s1)|]. rewrite fmap_app, foldl_app, length_app. split; [done| |lia].
  rewrite S2, S1. by rewrite <- app_assoc.
Qed.

Lemma printed_locked l s t s' : printed l s t s' -> console_locked_by_current_thread s' = console_locked_by_current_thread s.
Proof. intros [(E1 & E2 & _ & E3 & _) _]. unfold console_locked_by_current_thread. by rewrite E1, E2, E3. Qed.

Lemma putchar_have_lock_ok s t c : ready (display s) t -> console_locked_by_current_thread s = true -> countable s 1 ->
  exists s', putchar_have_lock c s = Ok (tt, s') /\ printed [c] s t s'.
Proof.
  intros Hr Hl [H0 Hn]. unfold putchar_have_lock. rewrite bind_get. cassert done. rewrite bind_modify. unfold serial_putc. rewrite bind_modify.
  destruct (vga_putc_ok (display s) t (u8 c) Hr) as (v & E & Hv & _). unfold on_display. cbn [display written_to]. rewrite E.
  eexists. split; [reflexivity|]. split; [done|]. split; cbn; [done|done|]. apply swrap_id; lia.
Qed.

(** ** The lock *)

Lemma acquire_ok s : lock_ok s -> exists s', acquire_console s = Ok (tt, s') /\ console_locked_by_current_thread s' = true /\
  display s' = display s /\ serial s' = serial s /\ write_cnt s' = write_cnt s /\ strings s' = strings s /\
  forall s2, same_console s' s2 -> exists s3, release_console s2 = Ok (tt, s3) /\ same_console s s3 /\
    display s3 = display s2 /\ serial s3 = serial s2 /\ write_cnt s3 = write_cnt s2.
Proof.
  intros (Hd & Hf & Hl). unfold acquire_console, release_console. rewrite bind_get. destruct (negb (intr_context s) && use_console_lock s) eqn:Eu.
  - apply andb_true_iff in Eu as [Ei Eu]. apply negb_true_iff in Ei. destruct (held s) eqn:Eh.
    + eexists. split; [done|]. split; [unfold console_locked_by_current_thread; cbn; by rewrite orb_true_r|]. do 4 (split; [done|]).
      intros s2 (E1 & E2 & E3 & E4 & E5). cbn in E1, E2, E3, E4, E5. rewrite bind_get, E4, Ei, E2, Eu, E3. cbn [negb andb]. rewrite (proj2 (Z.ltb_lt _ _)) by lia.
      eexists. split; [done|]. unfold same_console. cbn. rewrite E1, E2, E4, E5, Eh. split_and!; try done; lia.
    + eexists. split; [done|]. split; [unfold console_locked_by_current_thread; cbn; by rewrite orb_true_r|]. do 4 (split; [done|]).
      intros s2 (E1 & E2 & E3 & E4 & E5). cbn in E1, E2, E3, E4, E5. rewrite bind_get, E4, Ei, E2, Eu, E3, (Hf eq_refl). cbn [negb andb Z.ltb Z.compare].
      rewrite E1. cassert done. eexists. split; [done|]. unfold same_console. cbn. rewrite E2, E4, E5, Eh, (Hf eq_refl). done.
  - eexists. split; [done|]. split; [by apply Hl|]. do 4 (split; [done|]). intros s2 Hs. pose proof Hs as (E1 & E2 & E3 & E4 & E5).
    rewrite bind_get, E2, E4, Eu. by exists s2.
Qed.

(** The lock around something that prints. *)
Lemma with_lock {A B : Type} (m : M console A) (f : A -> B) s t l a : lock_ok s -> ready (display s) t ->
  (forall s1, ready (display s1) t -> console_locked_by_current_thread s1 = true -> write_cnt s1 = write_cnt s -> strings s1 = strings s ->
    exists s2, m s1 = Ok (a, s2) /\ printed l s1 t s2) ->
  exists s', (acquire_console;;; r <- m;; release_console;;; ret (f r)) s = Ok (f a, s') /\ printed l s t s'.
Proof.
  intros Hl Hr Hm. destruct (acquire_ok s Hl) as (s1 & E1 & Hk & Ed & Es & Ew & Et & Hrel). crun E1.
  destruct (Hm s1) as (s2 & E2 & Hs2 & [D2 S2 W2]); [by rewrite Ed|done..|]. crun E2. destruct (Hrel s2 Hs2) as (s3 & E3 & Hs3 & Ed3 & Es3 & Ew3). crun E3.
  exists s3. split; [done|]. split; [done|]. split; [by rewrite Ed3|by rewrite Es3, S2, Es|by rewrite Ew3, W2, Ew].
Qed.

Lemma release_unit (m : M console unit) s s' : (acquire_console;;; r <- m;; release_console;;; ret tt) s = Ok (tt, s') ->
  (acquire_console;;; m;;; release_console) s = Ok (tt, s').
Proof.
  unfold bind. destruct (acquire_console s) as [[[] s1]| | |]; try done. cbn [res_bind fst snd]. destruct (m s1) as [[[] s2]| | |]; try done. cbn [res_bind fst snd].
  destruct (release_console s2) as [[[] s3]| | |]; done.
Qed.

(** ** Printing functions *)

(** A string or a buffer in memory. *)
Definition chars_at (m : memory) (p : Z) (l : list Z) : Prop := forall i c, l !! i = Some c -> m !! (p + Z.of_nat i) = Some c.

Lemma chars_at_cons m p c l : chars_at m p (c :: l) -> m !! p = Some c /\ chars_at m (p + 1) l.
Proof.
  intros Hc. split; [rewrite <- (Hc 0%nat c) by done; f_equal; lia|]. intros i b Hb. rewrite <- (Hc (S i) b) by done. f_equal. lia.
Qed.

Lemma load_char_ok s p c : strings s !! p = Some c -> load_char p s = Ok (c, s).
Proof. intros E. unfold load_char. rewrite bind_get, E. done. Qed.

(** One more character. *)
Lemma print_one s t c l (m : M console unit) : ready (display s) t -> console_locked_by_current_thread s = true -> countable s (S (length l)) ->
  (forall s1, ready (display s1) (feed t (u8 c)) -> console_locked_by_current_thread s1 = true -> countable s1 (length l) -> strings s1 = strings s ->
    exists s2, m s1 = Ok (tt, s2) /\ printed l s1 (feed t (u8 c)) s2) ->
  exists s2, (putchar_have_lock c;;; m) s = Ok (tt, s2) /\ printed (c :: l) s t s2.
Proof.
  intros Hr Hk [H0 Hn] Hm. destruct (putchar_have_lock_ok s t c Hr Hk) as (s1 & E1 & Hp); [split; lia|]. crun E1. pose proof Hp as [(_ & _ & _ & _ & Est) [D1 _ W1]].
  cbn in W1. destruct (Hm s1 D1) as (s2 & E2 & Hp2); [by rewrite (printed_locked _ _ _ _ Hp)|split; lia|done|].
  exists s2. split; [done|]. by apply (printed_app s t [c] s1 l s2).
Qed.

Lemma put_chars_ok l : forall s t p, chars_at (strings s) p l -> ready (display s) t -> console_locked_by_current_thread s = true -> countable s (length l) ->
  exists s', put_chars (length l) p s = Ok (tt, s') /\ printed l s t s'.
Proof.
  induction l as [|c l IH]; intros s t p Hc Hr Hk Hn; cbn [put_chars length]; [exists s; split; [done|by apply printed_nil]|].
  apply chars_at_cons in Hc as [Hc Hl]. crun (load_char_ok s p c Hc). apply print_one; try done. intros s1 Hr1 Hk1 Hn1 Est. apply IH; try done. by rewrite Est.
Qed.

Lemma put_string_ok l : forall fuel s t p, cstr (strings s) p l -> (length l < fuel)%nat -> ready (display s) t ->
  console_locked_by_current_thread s = true -> countable s (length l) -> exists s', put_string fuel p s = Ok (tt, s') /\ printed l s t s'.
Proof.
  induction l as [|c l IH]; intros [|fuel] s t p Hc Hf Hr Hk Hn; try (cbn in Hf; lia); cbn [put_string length cstr] in *.
  - crun (load_char_ok s p 0 Hc). exists s. split; [done|by apply printed_nil].
  - destruct Hc as (Hc & Hb & Hl). crun (load_char_ok s p c Hc). rewrite (proj2 (Z.eqb_neq c 0)) by lia. apply print_one; try done.
    intros s1 Hr1 Hk1 Hn1 Est. apply IH; try done; [by rewrite Est|lia].
Qed.

(** *** Formats *)

(** The console follows the text that [__vprintf] collects. *)
Definition console_follows (s : console) (t : terminal) (s1 : memory * list Z) (s2 : console * Z) : Prop :=
  fst s1 = strings s /\ snd s2 = Z.of_nat (length (snd s1)) /\ Z.of_nat (length (snd s1)) < 2 ^ 31 /\ printed (snd s1) s t (fst s2).

Lemma console_helper s t ch : console_locked_by_current_thread s = true -> 0 <= write_cnt s -> write_cnt s + 2 ^ 31 < 2 ^ 63 ->
  sim (console_follows s t) too_long (collect ch) (vprintf_helper ch).
Proof.
  intros Hk H0 Hn [m l] [] s1' E. injection E as <-. unfold too_long. cbn [fst snd]. rewrite length_app. cbn [length]. split; [lia|].
  intros [c k] (Em & Ek & Hl & Hp). cbn [fst snd] in *. destruct (decide (Z.of_nat (length l) + 1 < 2 ^ 31)) as [Hs|Hs]; [left|right; lia].
  pose proof Hp as [_ [D S W]]. destruct (putchar_have_lock_ok c _ (u8 ch) D) as (c' & Ec & Hp'); [by rewrite (printed_locked _ _ _ _ Hp)|split; lia|].
  exists (c', k + 1). unfold vprintf_helper. cbn [fst snd]. unfold int_res. rewrite (swrap_id 32) by lia. rewrite Z.eqb_refl. cbn [res_bind].
  rewrite Ec. split; [done|]. unfold console_follows. cbn [fst snd]. rewrite length_app. cbn [length]. split_and!; [done|lia|lia|].
  pose proof (printed_app s t l c [u8 ch] c' Hp Hp') as [Hsame [D2 S2 W2]]. split; [done|].
  rewrite fmap_app in *. cbn in *. rewrite (uwrap_id 8 (u8 ch)) in * by (apply Z.mod_pos_bound; lia). split; [done|done|]. rewrite length_app in *. done.
Qed.

Lemma console_memory s t s1 s2 : console_follows s t s1 s2 -> fst s1 ⊆ strings (fst s2).
Proof. intros (-> & _ & _ & ((_ & _ & _ & _ & ->) & _)). done. Qed.

(** C17: The console prints what it is told.  [printf] with a format that means a text of less than 2^31 characters sends
    exactly this text to the serial port and to the screen, and returns its length; [puts] and [putbuf] do so
    with a string and a buffer.  Whether the caller holds the console lock already or not, the
    lock is in the same state afterwards, and no assertion on it fails. *)
Theorem console_correct s t : ready (display s) t -> lock_ok s -> 0 <= write_cnt s -> write_cnt s + 2 ^ 31 < 2 ^ 63 ->
  (forall format args text, text_of (strings s) format args = Ok text -> Z.of_nat (length text) < 2 ^ 31 ->
    exists s', vprintf format args s = Ok (Z.of_nat (length text), s') /\ printed text s t s') /\
  (forall p l, cstr (strings s) p l -> Z.of_nat (length l) < 2 ^ 31 - 1 -> exists s', puts p s = Ok (0, s') /\ printed (l ++ [10]) s t s') /\
  (forall p l, chars_at (strings s) p l -> Z.of_nat (length l) < 2 ^ 31 ->
    exists s', putbuf p (Z.of_nat (length l)) s = Ok (tt, s') /\ printed l s t s').
Proof.
  intros Hr Hl H0 Hn. split_and!.
  - intros format args text Ht Hlen. apply (with_lock _ (fun n => n) s t text (Z.of_nat (length text)) Hl Hr). intros s1 Hr1 Hk1 Ew Es.
    unfold text_of in Ht. rewrite <- Es in Ht. destruct (__vprintf collect fst _ format args (strings s1, [])) as [[[] [m l]]| | |] eqn:E; try done.
    cbn in Ht. injection Ht as ->. destruct (sim_vprintf collect fst vprintf_helper (fun s => strings s.1) (console_follows s1 t) too_long
      (fun ch => console_helper s1 t ch Hk1 ltac:(lia) ltac:(lia)) (console_memory s1 t) _ _ _ _ _ _ E) as [_ Hs].
    destruct (Hs (s1, 0)) as [([c k] & E' & _ & Ek & _ & Hp)|Ho]; [|..|unfold too_long in Ho; cbn in Ho; lia].
    { split_and!; [done|done|cbn; lia|by apply printed_nil]. }
    rewrite E'. cbn in Ek. exists c. cbn. by rewrite Ek.
  - intros p l Hc Hlen. apply (with_lock _ (fun _ => 0) s t (l ++ [10]) tt Hl Hr). intros s1 Hr1 Hk1 Ew Es. rewrite bind_get. rewrite <- Es in Hc.
    destruct (put_string_ok l (S (size (strings s1))) s1 t p Hc) as (s2 & E & Hp); [|done|done|split; lia|].
    + pose proof (cstr_size _ _ _ Hc). lia.
    + crun E. pose proof Hp as [_ [D2 _ W2]]. destruct (putchar_have_lock_ok s2 _ 10 D2) as (s3 & E3 & Hp3); [by rewrite (printed_locked _ _ _ _ Hp)|split; lia|].
      exists s3. split; [exact E3|]. by apply (printed_app s1 t l s2).
  - intros p l Hc Hlen. destruct (with_lock (put_chars (length l) p) (fun _ => tt) s t l tt Hl Hr) as (s' & E & Hp).
    + intros s1 Hr1 Hk1 Ew Es. apply put_chars_ok; [by rewrite Es|done|done|split; lia].
    + exists s'. split; [|done]. unfold putbuf. rewrite Nat2Z.id. by apply release_unit.
Qed.

(** ** Nested printing *)

Module Demo.

(** The thread holds the lock already. *)
Definition console0 : console := Console Vga.Demo.boot [] 0 true true 0 false (CString.Demo.write 1000 [104; 105] ∅).

Lemma console_correct_witness : exists s' t, vprintf [60; 37; 115; 62] [1000] console0 = Ok (4, s') /\ serial s' = [60; 104; 105; 62] /\
  ready (display s') t /\ paper t 24 1 = (104, GRAY_ON_BLACK) /\ held s' = true /\ console_lock_depth s' = 0.
Proof.
  destruct (console_correct console0 Vga.Demo.page Vga.Demo.boot_ready) as (Hp & _).
  - split; [cbn; lia|]. split; [discriminate|reflexivity].
  - cbn. lia.
  - cbn. lia.
  - assert (text_of (strings console0) [60; 37; 115; 62] [1000] = Ok [60; 104; 105; 62]) as Ht by (vm_compute; reflexivity).
    destruct (Hp [60; 37; 115; 62] [1000] [60; 104; 105; 62] Ht) as (s' & E & (E1 & _ & E2 & _) & [D S _]); [cbn; lia|].
    exists s', (foldl feed Vga.Demo.page (u8 <$> [60; 104; 105; 62])). split; [exact E|]. split; [rewrite S; reflexivity|]. split; [exact D|].
    split; [vm_compute; reflexivity|]. split; [rewrite E1; reflexivity|rewrite E2; reflexivity].
Defined.

End Demo.
