(* ===== verification/Kbd.v ===== *)
(** * The keyboard (devices/kbd.c, devices/input.c)

    The interrupt handler reads one scan code from the port, keeps track of the
    shift keys and appends a character to the input buffer, the queue of
    Intq.v, which holds 63 characters; a reader takes them from its front.  The
    specification is a keyboard with a set of keys that are held down. *)

From stdpp Require Import gmap.
From S2P Require Import Prelude Intq.
Local Open Scope Z_scope.

(** ** The code *)

Record keyboard := Keyboard {
  left_shift : bool; right_shift : bool; left_alt : bool; right_alt : bool; left_ctrl : bool; right_ctrl : bool;
  caps_lock : bool; key_cnt : Z; buffer : list Z; port : list Z
}.

Definition set_port (x : list Z) (s : keyboard) : keyboard :=
  Keyboard (left_shift s) (right_shift s) (left_alt s) (right_alt s) (left_ctrl s) (right_ctrl s) (caps_lock s) (key_cnt s) (buffer s) x.
Definition set_caps (x : bool) (s : keyboard) : keyboard :=
  Keyboard (left_shift s) (right_shift s) (left_alt s) (right_alt s) (left_ctrl s) (right_ctrl s) x (key_cnt s) (buffer s) (port s).
Definition set_buffer (n : Z) (x : list Z) (s : keyboard) : keyboard :=
  Keyboard (left_shift s) (right_shift s) (left_alt s) (right_alt s) (left_ctrl s) (right_ctrl s) (caps_lock s) n x (port s).

Definition inb : M keyboard Z :=
  s <- get;;
  match port s with
  | b :: l => put (set_port l s);;; ret (u8 b)
  | [] => fault
  end.

Definition input_full (s : keyboard) : bool := INTQ_BUFSIZE - 1 <=? Z.of_nat (length (buffer s)).
Definition input_putc (c : Z) : M keyboard unit :=
  s <- get;;
  assert (negb (input_full s));;;
  modify (fun s => set_buffer (key_cnt s) (buffer s ++ [c]) s).

Definition tolower (c : Z) : Z := if (65 <=? c) && (c <=? 90) then c - 65 + 97 else c.

Record keymap := Keymap { first_scancode : Z; chars : list Z }.

(** Escape; backspace; tab, QWERTYUIOP; return; ASDFGHJKL; ZXCVBNM; star; space; delete. *)
Definition invariant_keymap : list keymap :=
  [Keymap 0x01 [27]; Keymap 0x0e [8]; Keymap 0x0f [9; 81; 87; 69; 82; 84; 89; 85; 73; 79; 80]; Keymap 0x1c [13];
   Keymap 0x1e [65; 83; 68; 70; 71; 72; 74; 75; 76]; Keymap 0x2c [90; 88; 67; 86; 66; 78; 77]; Keymap 0x37 [42]; Keymap 0x39 [32]; Keymap 0x53 [127]].
(** Digits, minus, equals; brackets; semicolon, quotes; backslash; comma, period, slash. *)
Definition unshifted_keymap : list keymap :=
  [Keymap 0x02 [49; 50; 51; 52; 53; 54; 55; 56; 57; 48; 45; 61]; Keymap 0x1a [91; 93]; Keymap 0x27 [59; 39; 96]; Keymap 0x2b [92]; Keymap 0x33 [44; 46; 47]].
Definition shifted_keymap : list keymap :=
  [Keymap 0x02 [33; 64; 35; 36; 37; 94; 38; 42; 40; 41; 95; 43]; Keymap 0x1a [123; 125]; Keymap 0x27 [58; 34; 126]; Keymap 0x2b [124]; Keymap 0x33 [60; 62; 63]].

Fixpoint map_key (k : list keymap) (scancode : Z) : option Z :=
  match k with
  | [] => None
  | k :: l =>
      if (first_scancode k <=? scancode) && (scancode <? first_scancode k + Z.of_nat (length (chars k)))
      then chars k !! Z.to_nat (scancode - first_scancode k) else map_key l scancode
  end.

(** The table of the shift keys. *)
Definition set_shift_key (code : Z) (x : bool) (s : keyboard) : keyboard :=
  let set a b c d e f := Keyboard a b c d e f (caps_lock s) (key_cnt s) (buffer s) (port s) in
  if code =? 0x2a then set x (right_shift s) (left_alt s) (right_alt s) (left_ctrl s) (right_ctrl s)
  else if code =? 0x36 then set (left_shift s) x (left_alt s) (right_alt s) (left_ctrl s) (right_ctrl s)
  else if code =? 0x38 then set (left_shift s) (right_shift s) x (right_alt s) (left_ctrl s) (right_ctrl s)
  else if code =? 0xe038 then set (left_shift s) (right_shift s) (left_alt s) x (left_ctrl s) (right_ctrl s)
  else if code =? 0x1d then set (left_shift s) (right_shift s) (left_alt s) (right_alt s) x (right_ctrl s)
  else if code =? 0xe01d then set (left_shift s) (right_shift s) (left_alt s) (right_alt s) (left_ctrl s) x
  else s.

Inductive outcome := Returns | Reboots.

Definition first_of (a b : option Z) : option Z := match a with Some _ => a | None => b end.

(** A scan code, including the second byte if there is a prefix. *)
Definition read_scancode : M keyboard Z :=
  code <- inb;;
  if code =? 0xe0 then b <- inb;; ret (Z.lor (Z.shiftl code 8) b) else ret code.

Definition keyboard_interrupt : M keyboard outcome :=
  s <- get;;
  let shift := left_shift s || right_shift s in
  let alt := left_alt s || right_alt s in
  let ctrl := left_ctrl s || right_ctrl s in
  code <- read_scancode;;
  let release := negb (Z.land code 0x80 =? 0) in
  let code := Z.land code (2 ^ 32 - 1 - 0x80) in
  if code =? 0x3a then
    (if negb release then modify (fun s => set_caps (negb (caps_lock s)) s) else ret tt);;; ret Returns
  else
    match first_of (map_key invariant_keymap code)
            (first_of (if negb shift then map_key unshifted_keymap code else None) (if shift then map_key shifted_keymap code else None)) with
    | Some c =>
        if negb release then
          if (c =? 127) && ctrl && alt then ret Reboots
          else
            s <- get;;
            let c := if ctrl && (0x40 <=? c) && (c <? 0x60) then c - 0x40
                     else if eqb shift (caps_lock s) then tolower c else c in
            let c := if alt then u8 (c + 0x80) else c in
            (if negb (input_full s) then
               modify (fun s => set_buffer (i64 (key_cnt s + 1)) (buffer s) s);;; input_putc c
             else ret tt);;;
            ret Returns
        else ret Returns
    | None => modify (set_shift_key code (negb release));;; ret Returns
    end.

(** [n] interrupts, until one of them restarts the machine. *)
Fixpoint interrupts (n : nat) : M keyboard outcome :=
  match n with
  | O => ret Returns
  | S n => o <- keyboard_interrupt;; match o with Returns => interrupts n | Reboots => ret Reboots end
  end.

(** ** A keyboard *)

(** Keys by their scan codes, those with a prefix from 0xe000 on. *)
Inductive event := Press (code : Z) | Release (code : Z).

Definition key_code (code : Z) : Prop := (0 < code < 0x80 /\ code <> 0x60) \/ 0xe000 <= code < 0xe080.

(** What the keyboard sends. *)
Definition sends (e : event) : list Z :=
  let bytes code up := if code <? 0x80 then [code + up] else [0xe0; code - 0xe000 + up] in
  match e with Press code => bytes code 0 | Release code => bytes code 0x80 end.

(** The layout: the first key of a row, and the characters of its keys alone and with shift. *)
Definition layout : list (Z * list Z * list Z) :=
  [(0x01, [27], [27]);
   (0x02, [49; 50; 51; 52; 53; 54; 55; 56; 57; 48; 45; 61; 8; 9], [33; 64; 35; 36; 37; 94; 38; 42; 40; 41; 95; 43; 8; 9]);
   (0x10, [113; 119; 101; 114; 116; 121; 117; 105; 111; 112; 91; 93; 13], [81; 87; 69; 82; 84; 89; 85; 73; 79; 80; 123; 125; 13]);
   (0x1e, [97; 115; 100; 102; 103; 104; 106; 107; 108; 59; 39; 96], [65; 83; 68; 70; 71; 72; 74; 75; 76; 58; 34; 126]);
   (0x2b, [92; 122; 120; 99; 118; 98; 110; 109; 44; 46; 47], [124; 90; 88; 67; 86; 66; 78; 77; 60; 62; 63]);
   (0x37, [42], [42]); (0x39, [32], [32]); (0x53, [127], [127])].

Fixpoint legend (l : list (Z * list Z * list Z)) (code : Z) : option (Z * Z) :=
  match l with
  | [] => None
  | (k, a, b) :: l =>
      if k <=? code then
        match a !! Z.to_nat (code - k), b !! Z.to_nat (code - k) with Some x, Some y => Some (x, y) | _, _ => legend l code end
      else legend l code
  end.

Definition letter (a b : Z) : bool := (97 <=? a) && (a <=? 122) && (b =? a - 32).

(** The character of a key; control turns [@] to [_] into control codes, alt sets the high bit. *)
Definition types (shift ctrl alt caps : bool) (code : Z) : option Z :=
  match legend layout code with
  | None => None
  | Some (a, b) =>
      let sign := if letter a b || shift then b else a in
      let c := if ctrl && (64 <=? sign) && (sign <=? 95) then sign - 64
               else if letter a b then if xorb shift caps then b else a else sign in
      Some (if alt then c + 128 else c)
  end.

Record desk := Desk { down : gset Z; caps : bool; typed : list Z }.

Definition is_down (d : desk) (a b : Z) : bool := bool_decide (a ∈ down d) || bool_decide (b ∈ down d).

Definition type_char (c : Z) (d : desk) : desk :=
  if bool_decide (length (typed d) < 63)%nat then Desk (down d) (caps d) (typed d ++ [c]) else d.

Definition strike (e : event) (d : desk) : outcome * desk :=
  match e with
  | Release code => (Returns, Desk (down d ∖ {[code]}) (caps d) (typed d))
  | Press code =>
      let shift := is_down d 0x2a 0x36 in
      let alt := is_down d 0x38 0xe038 in
      let ctrl := is_down d 0x1d 0xe01d in
      let d := Desk (down d ∪ {[code]}) (if code =? 0x3a then negb (caps d) else caps d) (typed d) in
      if (code =? 0x53) && ctrl && alt then (Reboots, d)
      else (Returns, match types shift ctrl alt (caps d) code with Some c => type_char c d | None => d end)
  end.

Fixpoint play (l : list event) (d : desk) : outcome * desk :=
  match l with
  | [] => (Returns, d)
  | e :: l => match strike e d with (Returns, d) => play l d | (Reboots, d) => (Reboots, d) end
  end.

Record desk_ok (s : keyboard) (d : desk) : Prop := DeskOk {
  dk_ls : left_shift s = bool_decide (0x2a ∈ down d);
  dk_rs : right_shift s = bool_decide (0x36 ∈ down d);
  dk_la : left_alt s = bool_decide (0x38 ∈ down d);
  dk_ra : right_alt s = bool_decide (0xe038 ∈ down d);
  dk_lc : left_ctrl s = bool_decide (0x1d ∈ down d);
  dk_rc : right_ctrl s = bool_decide (0xe01d ∈ down d);
  dk_caps : caps_lock s = caps d;
  dk_typed : buffer s = typed d /\ (length (typed d) <= 63)%nat
}.

(** ** Scan codes *)

Definition codes : list Z := seqZ 1 0x5f ++ seqZ 0x61 0x1f ++ seqZ 0xe000 0x80.

Lemma in_codes code : key_code code -> In code codes.
Proof.
  intros Hc. apply list_elem_of_In. unfold codes. rewrite !elem_of_app, !elem_of_seqZ. unfold key_code in Hc. lia.
Qed.

(** The code that the handler makes of the bytes. *)
Definition code_of (l : list Z) : option (Z * bool) :=
  match l with
  | [b] => if u8 b =? 0xe0 then None else Some (Z.land (u8 b) (2 ^ 32 - 1 - 0x80), negb (Z.land (u8 b) 0x80 =? 0))
  | [b; c] =>
      let code := Z.lor (Z.shiftl (u8 b) 8) (u8 c) in
      if u8 b =? 0xe0 then Some (Z.land code (2 ^ 32 - 1 - 0x80), negb (Z.land code 0x80 =? 0)) else None
  | _ => None
  end.

Lemma code_of_sends code : key_code code -> code_of (sends (Press code)) = Some (code, false) /\ code_of (sends (Release code)) = Some (code, true).
Proof.
  intros Hc%in_codes. assert (forallb (fun code => bool_decide (code_of (sends (Press code)) = Some (code, false) /\
    code_of (sends (Release code)) = Some (code, true))) codes = true) as Hall by (vm_compute; reflexivity).
  pose proof (proj1 (forallb_forall _ _) Hall code Hc) as Hb. exact (bool_decide_unpack _ (Is_true_true_2 _ Hb)).
Qed.

(** What the handler looks up, and what it makes of it. *)
Definition found (shift : bool) (code : Z) : option Z :=
  first_of (map_key invariant_keymap code)
    (first_of (if negb shift then map_key unshifted_keymap code else None) (if shift then map_key shifted_keymap code else None)).
Definition made (shift ctrl alt caps : bool) (c : Z) : Z :=
  let c := if ctrl && (0x40 <=? c) && (c <? 0x60) then c - 0x40 else if eqb shift caps then tolower c else c in
  if alt then u8 (c + 0x80) else c.

Definition bools : list bool := [true; false].

Lemma found_types shift ctrl alt caps code : key_code code -> types shift ctrl alt caps code = made shift ctrl alt caps <$> found shift code.
Proof.
  intros Hc%in_codes. assert (forallb (fun code => forallb (fun a => forallb (fun b => forallb (fun c => forallb (fun d =>
    bool_decide (types a b c d code = made a b c d <$> found a code)) bools) bools) bools) bools) codes = true) as Hall by (vm_compute; reflexivity).
  assert (forall b : bool, In b bools) as Hb by (intros []; cbn; auto).
  pose proof (proj1 (forallb_forall _ _) Hall code Hc) as H1. pose proof (proj1 (forallb_forall _ _) H1 shift (Hb _)) as H2.
  pose proof (proj1 (forallb_forall _ _) H2 ctrl (Hb _)) as H3. pose proof (proj1 (forallb_forall _ _) H3 alt (Hb _)) as H4.
  pose proof (proj1 (forallb_forall _ _) H4 caps (Hb _)) as H5. exact (bool_decide_unpack _ (Is_true_true_2 _ H5)).
Qed.

(** Keys with characters are not shift keys; delete is key 0x53. *)
Lemma found_keys shift code : key_code code -> (found shift code = Some 127 <-> code = 0x53) /\
  (is_Some (found shift code) -> code <> 0x3a /\ code ∉ [0x2a; 0x36; 0x38; 0xe038; 0x1d; 0xe01d]).
Proof.
  intros Hc%in_codes. assert (forallb (fun code => forallb (fun a => bool_decide ((found a code = Some 127 -> code = 0x53) /\ (code = 0x53 -> found a code = Some 127) /\
    (is_Some (found a code) -> code <> 0x3a /\ code ∉ [0x2a; 0x36; 0x38; 0xe038; 0x1d; 0xe01d]))) bools) codes = true) as Hall by (vm_compute; reflexivity).
  assert (In shift bools) as Hb by (destruct shift; cbn; auto).
  pose proof (proj1 (forallb_forall _ _) (proj1 (forallb_forall _ _) Hall code Hc) shift Hb) as H1.
  destruct (bool_decide_unpack _ (Is_true_true_2 _ H1)) as (A & B & C). split; [split; assumption|exact C].
Qed.

Lemma read_scancode_ok s l rest code up : port s = l ++ rest -> code_of l = Some (code, up) ->
  exists w, read_scancode s = Ok (w, set_port rest s) /\ Z.land w (2 ^ 32 - 1 - 0x80) = code /\ negb (Z.land w 0x80 =? 0) = up.
Proof.
  intros Hp Hc. unfold read_scancode, inb. rewrite bind_assoc, bind_get, Hp. unfold code_of in Hc. destruct l as [|b [|c [|? ?]]]; try done; cbn [app].
  - destruct (u8 b =? 0xe0) eqn:Eb; [done|]. injection Hc as Hc Hu. exists (u8 b). rewrite bind_assoc, bind_put, bind_ret, Eb. done.
  - destruct (u8 b =? 0xe0) eqn:Eb; [|done]. injection Hc as Hc Hu. rewrite bind_assoc, bind_put, bind_ret, Eb. cbn [set_port port].
    exists (Z.lor (Z.shiftl (u8 b) 8) (u8 c)). rewrite bind_assoc, bind_get. cbn [set_port port]. rewrite bind_assoc, bind_put, bind_ret. done.
Qed.

(** ** One interrupt *)

Definition event_code (e : event) : Z := match e with Press code | Release code => code end.
Definition is_release (e : event) : bool := match e with Press _ => false | Release _ => true end.

Lemma sends_code e : key_code (event_code e) -> code_of (sends e) = Some (event_code e, is_release e).
Proof. intros Hc. destruct (code_of_sends _ Hc). by destruct e. Qed.

Lemma other_key (x : gset Z) a code : code <> a -> bool_decide (a ∈ x ∪ {[code]}) = bool_decide (a ∈ x) /\ bool_decide (a ∈ x ∖ {[code]}) = bool_decide (a ∈ x).
Proof. intros Hn. split; apply bool_decide_ext; set_solver. Qed.

(** Keys that are not shift keys. *)
Lemma plain_key s d code b : desk_ok s d -> code ∉ [0x2a; 0x36; 0x38; 0xe038; 0x1d; 0xe01d] ->
  desk_ok s (Desk (if b : bool then down d ∪ {[code]} else down d ∖ {[code]}) (caps d) (typed d)).
Proof.
  intros [D1 D2 D3 D4 D5 D6 D7 D8] Hn.
  assert (code <> 0x2a /\ code <> 0x36 /\ code <> 0x38 /\ code <> 0xe038 /\ code <> 0x1d /\ code <> 0xe01d) as (N1 & N2 & N3 & N4 & N5 & N6) by set_solver.
  pose proof (other_key (down d) _ _ N1) as [A1 B1]. pose proof (other_key (down d) _ _ N2) as [A2 B2]. pose proof (other_key (down d) _ _ N3) as [A3 B3].
  pose proof (other_key (down d) _ _ N4) as [A4 B4]. pose proof (other_key (down d) _ _ N5) as [A5 B5]. pose proof (other_key (down d) _ _ N6) as [A6 B6].
  destruct b; split; cbn; try done; by rewrite ?A1, ?A2, ?A3, ?A4, ?A5, ?A6, ?B1, ?B2, ?B3, ?B4, ?B5, ?B6.
Qed.

Lemma shift_port s code b : port (set_shift_key code b s) = port s.
Proof. unfold set_shift_key. repeat case_match; done. Qed.

Lemma shift_key s d code b : desk_ok s d ->
  desk_ok (set_shift_key code b s) (Desk (if b then down d ∪ {[code]} else down d ∖ {[code]}) (caps d) (typed d)).
Proof.
  intros Hd. assert (forall a, bool_decide (a ∈ if b then down d ∪ {[code]} else down d ∖ {[code]}) = if code =? a then b else bool_decide (a ∈ down d)) as Hk.
  { intros a. destruct (Z.eqb_spec code a) as [->|Hn].
    - destruct b; [apply bool_decide_eq_true_2|apply bool_decide_eq_false_2]; set_solver.
    - destruct (other_key (down d) a code Hn). by destruct b. }
  destruct Hd as [D1 D2 D3 D4 D5 D6 D7 D8]. unfold set_shift_key.
  repeat match goal with |- context [code =? ?k] => destruct (Z.eqb_spec code k) as [?|?]; [subst code|] end;
    (split; cbn [left_shift right_shift left_alt right_alt left_ctrl right_ctrl caps_lock buffer down caps typed]; rewrite ?Hk; try done; by rewrite ?(proj2 (Z.eqb_neq code _))).
Qed.

Lemma port_ok s d l : desk_ok s d -> desk_ok (set_port l s) d.
Proof. intros [D1 D2 D3 D4 D5 D6 D7 D8]. by split. Qed.

(** A character goes to the buffer, if there is room. *)
Lemma type_ok s d c : desk_ok s d ->
  exists s', (if negb (input_full s) then modify (fun s => set_buffer (i64 (key_cnt s + 1)) (buffer s) s);;; input_putc c else ret tt) s = Ok (tt, s') /\
    port s' = port s /\ desk_ok s' (type_char c d).
Proof.
  intros [D1 D2 D3 D4 D5 D6 D7 [D8 D9]]. unfold type_char. unfold input_full at 1. rewrite D8. change (INTQ_BUFSIZE - 1) with 63.
  destruct (Z.leb_spec 63 (Z.of_nat (length (typed d)))) as [Hf|Hf]; cbn [negb].
  - exists s. rewrite bool_decide_false by lia. split; [done|]. split; [done|]. by split.
  - rewrite bool_decide_true by lia. rewrite bind_modify. unfold input_putc. rewrite bind_get.
    cassert ltac:(unfold input_full; cbn; rewrite D8; change (INTQ_BUFSIZE - 1) with 63; by rewrite (proj2 (Z.leb_gt _ _)) by lia).
    eexists. split; [done|]. split; [done|]. split; cbn; try done. rewrite D8, length_app. cbn. split; [done|lia].
Qed.

Lemma keyboard_interrupt_ok s d e rest : desk_ok s d -> key_code (event_code e) -> port s = sends e ++ rest ->
  exists s', keyboard_interrupt s = Ok ((strike e d).1, s') /\ port s' = rest /\ desk_ok s' (strike e d).2.
Proof.
  intros Hd Hc Hp. destruct (read_scancode_ok s (sends e) rest _ _ Hp (sends_code e Hc)) as (w & E & Ew & Eu). unfold keyboard_interrupt.
  rewrite bind_get. crun E. rewrite Ew, Eu. clear E Ew Eu w. apply (port_ok s d rest) in Hd. pose proof Hd as [D1 D2 D3 D4 D5 D6 D7 D8].
  change (left_shift s) with (left_shift (set_port rest s)). change (right_shift s) with (right_shift (set_port rest s)).
  change (left_alt s) with (left_alt (set_port rest s)). change (right_alt s) with (right_alt (set_port rest s)).
  change (left_ctrl s) with (left_ctrl (set_port rest s)). change (right_ctrl s) with (right_ctrl (set_port rest s)).
  assert (port (set_port rest s) = rest) as Hrest by done. set (s1 := set_port rest s) in *. clearbody s1. clear s Hp. rewrite D1, D2, D3, D4, D5, D6.
  fold (is_down d 0x2a 0x36) (is_down d 0x38 0xe038) (is_down d 0x1d 0xe01d). fold (found (is_down d 0x2a 0x36) (event_code e)).
  destruct (found_keys (is_down d 0x2a 0x36) (event_code e) Hc) as [Hdel Hplain].
  destruct (Z.eqb_spec (event_code e) 0x3a) as [E3a|N3a].
  - assert (found (is_down d 0x2a 0x36) (event_code e) = None) as Hnone.
    { destruct (found _ _) eqn:Ef; [|done]. by destruct (Hplain (ex_intro _ _ eq_refl)). }
    destruct e as [code|code]; cbn [event_code is_release] in *; subst code; cbn [negb strike].
    + rewrite bind_modify. rewrite Z.eqb_refl. rewrite (found_types _ _ _ _ _ Hc), Hnone. cbn [fst snd fmap option_fmap option_map andb Z.eqb Pos.eqb].
      eexists. split; [done|]. split; [done|]. pose proof (plain_key s1 d 0x3a true Hd ltac:(set_solver)) as [K1 K2 K3 K4 K5 K6 K7 K8].
      split; cbn in *; try done. by rewrite D7.
    + rewrite bind_ret. eexists. split; [done|]. split; [done|]. apply (plain_key s1 d 0x3a false Hd). set_solver.
  - destruct (found (is_down d 0x2a 0x36) (event_code e)) as [c|] eqn:Ef.
    + destruct (Hplain (ex_intro _ _ eq_refl)) as [_ Hns]. destruct e as [code|code]; cbn [event_code is_release negb strike] in *.
      * rewrite (proj2 (Z.eqb_neq code 0x3a)) by done. rewrite (found_types _ _ _ _ _ Hc), Ef. cbn [fmap option_fmap option_map caps].
        assert ((c =? 127) = (code =? 0x53)) as ->.
        { destruct (Z.eqb_spec code 0x53) as [Hx|Hx]; [apply Z.eqb_eq; apply Hdel in Hx; congruence|]. apply Z.eqb_neq. intros ->. by apply Hx, Hdel. }
        pose proof (plain_key s1 d code true Hd Hns) as Hd'. destruct ((code =? 0x53) && is_down d 0x1d 0xe01d && is_down d 0x38 0xe038); [by exists s1|].
        rewrite bind_get, D7. fold (made (is_down d 0x2a 0x36) (is_down d 0x1d 0xe01d) (is_down d 0x38 0xe038) (caps d) c).
        destruct (type_ok s1 _ (made (is_down d 0x2a 0x36) (is_down d 0x1d 0xe01d) (is_down d 0x38 0xe038) (caps d) c) Hd') as (s' & E & Hp & Hs').
        cbv zeta. crun E. exists s'. split; [done|]. split; [by rewrite Hp|done].
      * exists s1. split; [done|]. split; [done|]. by apply (plain_key s1 d code false).
    + rewrite bind_modify. exists (set_shift_key (event_code e) (negb (is_release e)) s1). pose proof (shift_key s1 d (event_code e) (negb (is_release e)) Hd) as Hd'.
      destruct e as [code|code]; cbn [event_code is_release negb strike] in *; [|split; [done|]; split; [by rewrite shift_port|done]].
      rewrite (proj2 (Z.eqb_neq code 0x3a)) by done. rewrite (found_types _ _ _ _ _ Hc), Ef. cbn [fmap option_fmap option_map caps].
      rewrite (proj2 (Z.eqb_neq code 0x53)) by (intros Hx; by apply Hdel in Hx). cbn [andb]. split; [done|]. split; [by rewrite shift_port|done].
Qed.

(** C16: The keyboard driver types what the keys say.  For every sequence of key presses and releases, and whatever was held
    down before: the handler reads the bytes that the keyboard sends, keeps track of the six shift keys and of caps
    lock, and appends the characters of the layout (letters by shift and caps lock, other keys by shift,
    with control and alt) to the input buffer, as long as it has room; no assertion
    fails.  It restarts the machine exactly when delete is pressed with control and alt. *)
Theorem keyboard_refines l : forall s d rest, Forall (fun e => key_code (event_code e)) l -> desk_ok s d -> port s = (l ≫= sends) ++ rest ->
  exists s', interrupts (length l) s = Ok ((play l d).1, s') /\ desk_ok s' (play l d).2.
Proof.
  induction l as [|e l IH]; intros s d rest Hl Hd Hp; [by exists s|]. apply Forall_cons in Hl as [He Hl]. rewrite bind_cons, <- app_assoc in Hp.
  destruct (keyboard_interrupt_ok s d e _ Hd He Hp) as (s1 & E & Hp1 & Hd1). cbn [length interrupts play]. crun E.
  destruct (strike e d) as [[|] d1]; cbn [fst snd] in *; [by apply (IH s1 d1 rest)|by exists s1].
Qed.

(** ** A password *)

Module Demo.

Definition fresh : keyboard := Keyboard false false false false false false false 0 [] [0x2a; 0x1e; 0x9e; 0xaa; 0x1f; 0xe0; 0x1d; 0x2e; 0xff].
Definition keys : list event := [Press 0x2a; Press 0x1e; Release 0x1e; Release 0x2a; Press 0x1f; Press 0xe01d; Press 0x2e].

(** Shift and A, then S, then control and C. *)
Lemma keyboard_refines_witness : exists s', interrupts 7 fresh = Ok (Returns, s') /\ buffer s' = [65; 115; 3] /\ right_ctrl s' = true.
Proof.
  destruct (keyboard_refines keys fresh (Desk ∅ false []) [0xff]) as (s' & E & Hd).
  - repeat constructor; unfold key_code; cbn; lia.
  - split; try reflexivity. split; [reflexivity|cbn; lia].
  - reflexivity.
  - exists s'. split; [exact E|]. split; [rewrite (proj1 (dk_typed _ _ Hd)); vm_compute; reflexivity|rewrite (dk_rc _ _ Hd); vm_compute; reflexivity].
Defined.

End Demo.
